(* ===== verification/_CoqProject ===== *)
-Q . S2P
Prelude.v
TegraError.v
Utils.v
BlockDev.v
BlockDevFacts.v
Models.v
BlockDevProps.v
BlockDevRegistry.v
Malloc.v
MallocFacts.v
MallocOps.v
MallocFree.v
MallocAlign.v
MallocSpec.v
MallocProps.v
MallocLaws.v
Gpt.v
GptFacts.v
DemoDisk.v
GptProps.v
AbNaming.v
PartitionManager.v
PartitionFacts.v
PartitionProps.v
AbBoot.v
AbBootFacts.v
AbStore.v
AbStoreFacts.v
AbPolicy.v
AbUpdate.v
AbProps.v
Ivc.v
IvcLogic.v
IvcSteps.v
IvcCalls.v
IvcSystem.v
IvcProps.v
IvcQueue.v
IvcReset.v
Bpmp.v
BpmpFacts.v
BpmpProps.v
BpmpLate.v
Sparse.v
SparseFacts.v
SparseSteps.v
SparseProps.v
SparseBuild.v
SparseLimits.v
Fastboot.v
FastbootCmd.v
FastbootWalk.v
FastbootReplies.v
FastbootLock.v
FastbootFlash.v
FastbootEdge.v
FastbootState.v
FastbootProps.v
DList.v
DListProps.v
Bcache.v
BcacheFacts.v
BcacheSteps.v
BcacheCreate.v
BcacheProps.v
BcacheEdge.v
Cbo.v
CboProps.v
CboEdge.v
LinuxLoad.v
LinuxLoadProps.v
Extlinux.v
ExtlinuxProps.v
ExtlinuxEdge.v
Auth.v
AuthProps.v
BootFiles.v
BootFilesProps.v
PartitionLoader.v
PartitionLoaderProps.v
