(* ===== verification/Prelude.v ===== *)
(** * The storage and A/B boot core of cboot

    cboot is the last boot loader stage of the Tegra boot chain: it reads the
    kernel from a storage device and starts it.  This library models the part of
    it that decides what is booted and from where, from the byte transfers of the
    block device layer up to the selection of the boot slot, and proves it
    correct.  Paths below are under src/bootloader/partner/common.

    ** The parts and how they call each other

    - error codes (include/tegrabl_error.h): 32-bit values that carry two module
      numbers, an auxiliary byte and a reason;
    - utilities (lib/utils/tegrabl_utils.c): CRC-32, CRC-8, checksum, byte order,
      number parsing;
    - heap (lib/malloc/tegrabl_malloc.c): two free lists, used by all that follow;
    - block devices (lib/blockdev/tegrabl_blockdev.c): a reference counted list
      of devices; byte reads and writes are cut into a partial first block, whole
      blocks and a partial last block, moved through bounce buffers and handed to
      the hooks of the storage driver;
    - GPT (lib/gpt/tegrabl_gpt.c): finds and validates a partition table, with
      the second table as fallback, and turns its entries into records;
    - partition manager (lib/partition_manager/tegrabl_partition_manager.c): asks
      the GPT reader for the table of each device, keeps the records in a list,
      opens partitions by name and reads, writes, erases and seeks in them;
    - A/B naming and boot control (lib/a_b_boot): the slot metadata (SMD), stored
      twice in the partitions SMD and SMD_b, the scratch register that carries
      the chosen slot from stage to stage, slot selection, retry counts and the
      redundancy policy;
    - inter-processor queues (lib/ipc/tegra-ivc.c): a pair of ring buffers in
      memory shared with another processor, and the protocol that resets them;
      its client (lib/ipc/tegrabl_bpmp_fw_interface.c) sends requests to the power
      management firmware and waits for the answers;
    - sparse images (lib/sparse): unpacking an image that arrives in pieces, and
      building one;
    - fastboot (lib/fastboot): the commands a host sends over USB to query variables, to
      download images and to flash or erase partitions;
    - intrusive lists (include/lib/list.h): doubly linked lists through nodes embedded in
      objects;
    - block cache (lib/bcache/bcache.c): keeps the blocks of a device that a file system used
      last, on two such lists, and reads and writes them through the block devices;
    - boot options (lib/cbo/tegrabl_cbo.c): the order of the boot media, the network settings and
      the GUID of the boot partition, read from a device tree in a partition (with the helpers
      of lib/devicetree) and changed by the shell;
    - loading of the kernel (lib/linuxboot/linux_load.c): the media are tried in the boot order,
      without the first one when slot B boots, and the kernel and the ramdisk of the image are
      moved to places given out by t19x/common/lib/linuxboot/t194/linuxboot_helper.c;
    - extlinux.conf (lib/linuxboot/extlinux_boot.c): on an SD card or a USB device
      (lib/linuxboot/usb_sd_boot.c) a text file names kernel, device tree, ramdisk and arguments
      of each entry of a menu; the files are read through lib/file_manager;
    - authentication (t19x/common/lib/tegrabl_auth/tegrabl_auth_binary.c and
      lib/linuxboot/linuxboot_utils.c): the signed header in front of a binary, its digest and
      its ratchet levels;
    - loader of partitions (t18x/common/lib/partitionloader): reads the kernel and other binaries
      from the partitions of the slot that boots.

    ** Files

    - Prelude.v: machine-width integers, the result type [res] with its [let*]
      notation, bit fields, slices and splices of byte lists, little endian
      words, C strings; hint databases and tactics used everywhere.
    - TegraError.v, Utils.v: definitions and theorems of the two components.
    - BlockDev.v: the block device layer.  The interfaces are the classes
      [BlockDriver] (the hooks of a storage driver), [ReliableDriver] (a driver in
      front of a working medium), [Allocator] and [AllocatorLaws] (the heap).
      BlockDevFacts.v follows the three stages of a transfer; Models.v
      instantiates the interfaces (a RAM disk, a write protected disk, an arena);
      BlockDevProps.v has the theorems on transfers, BlockDevRegistry.v the
      registry as a step relation with its reachable states.
    - Malloc.v: the heap, field by field in memory, with the aliasing of the two
      header types.  MallocFacts.v relates the memory to sorted lists of free
      blocks and a table of live blocks ([heap_ok]); MallocOps.v, MallocFree.v and
      MallocAlign.v follow splitting, release with merging, and aligned
      allocation; MallocSpec.v has the abstract heap and the refinement of each
      routine; MallocProps.v the theorems; MallocLaws.v the instance of
      [AllocatorLaws], so that the layers above run on this heap.
    - Gpt.v, GptFacts.v, GptProps.v: the GPT reader, its facts and theorems;
      DemoDisk.v: concrete disk images.
    - PartitionManager.v, PartitionFacts.v, PartitionProps.v.
    - AbNaming.v, AbBoot.v (metadata, register, selection, policy), AbStore.v
      (loading and flushing), AbBootFacts.v, AbStoreFacts.v, AbPolicy.v (the
      policy over many boots), AbProps.v (concrete inputs).
    - Ivc.v: the queues; a routine is a program (a tree of accesses to the shared
      memory), so that two processors can be interleaved access by access.
      IvcLogic.v: what an end knows and may do at every moment ([ok]); IvcSteps.v:
      the accesses of both ends keep what both know true; IvcCalls.v: every
      routine satisfies [ok] and what its client sees ([transcript]); IvcSystem.v:
      schedules of two ends, and that every call returns; IvcProps.v the theorems
      on concurrent ends, IvcQueue.v and IvcReset.v on calls in sequence, the
      reset protocol and the checks.
    - Bpmp.v: the client; BpmpFacts.v its steps in the logic of IvcLogic.v,
      BpmpProps.v a session with the firmware as a parameter, BpmpLate.v answers
      that come too late and requests that are too long.

    - Sparse.v: the machine that unpacks an image, and the builder; the class
      [ImageSink] stands for the writer and the seeker.  SparseFacts.v: what an image
      stands for and what a sink promises ([SinkLaws]); SparseSteps.v: iterations of
      the machine; SparseProps.v, SparseBuild.v the theorems on unpacking and on
      building, SparseLimits.v images that break the machine.

    - Fastboot.v, FastbootCmd.v: the server; the class [Platform] stands for the USB
      transport and the board.  FastbootWalk.v: relations that hold across replies and hooks
      hold across commands; FastbootReplies.v, FastbootLock.v, FastbootState.v use it for
      the replies, the storage of a locked device and the variables; FastbootFlash.v: a
      partition as a sink of sparse images; FastbootEdge.v: names and buffers;
      FastbootProps.v: a concrete board.

    - DList.v: the lists, as two fields of memory, what it means that a circle of nodes is a
      list ([dll]), and loops over it; DListProps.v: any sequence of calls.
    - Bcache.v: the block cache.  BcacheFacts.v: what its lists and blocks hold, BcacheSteps.v:
      each operation keeps it ([whole]), BcacheCreate.v: a new cache has it, BcacheProps.v:
      clients and the array of blocks they see, BcacheEdge.v: errors, offsets and memory.
    - Cbo.v: the boot options; the class [Fdt] stands for libfdt.  CboProps.v: what a node says
      ([describes]) and what parsing makes of it; CboEdge.v: changes by the shell and nodes
      the code does not withstand.
    - LinuxLoad.v: loading of the kernel; memory is a function from addresses to bytes, the class
      [BootMedia] stands for the media, decompression and the changes of the device tree.
      LinuxLoadProps.v the theorems, a kernel that is too long, and examples.
    - Extlinux.v: the parser of extlinux.conf, which works in place in the block that holds the
      file, and the menu.  ExtlinuxProps.v: strtok and the removal of spaces
      on lines, a reference parser on lists of lines and that the code agrees with it;
      ExtlinuxEdge.v: texts the code does not withstand.
    - Auth.v: headers, digests and ratchet levels; the classes [Crypto] and [SocPlatform] stand for the
      security engine and for fuses and boot parameters.  AuthProps.v: what is accepted
      ([authentic]), a platform, and the sizes in the header of a boot image.
    - BootFiles.v: files, binaries with their signatures, the entries of extlinux.conf and the SD
      card and USB boot on top; the class [BootFiles] stands for the file systems and the set-up of
      devices.  BootFilesProps.v the theorems on secure loading and on bounds,
      attempts that fail, and a device.
    - PartitionLoader.v: the loader, on PartitionManager.v and AbStore.v; PartitionLoaderProps.v the
      theorems, and a disk.

    ** How the code is modelled

    A C function becomes a Rocq function of the same name.  [uint32_t] and the
    like are integers in [Z] with [u8], [u16], [u32], [u64] written where the
    code truncates or wraps.  State is passed explicitly: [world] holds the
    static variables of the block device layer, the devices in memory and the
    heap; [pstate] adds the list and the tables of the partition manager;
    [abstate] adds the scratch register and the loaded metadata.  Pointers are
    addresses in [Z], [NULL] is 0; an output parameter is a component of the
    result.  Buffers of the caller are represented by their address (for the
    alignment tests) and their bytes (for what is read or written).

    A call returns [Ok] with the error code it reports, or [Stuck] where C has no
    defined behaviour or stops: an access outside an object, a dangling or [NULL]
    pointer, a failed assertion.  So a theorem that concludes [... = Ok ...]
    also shows that nothing of that kind happens, and that the call returns.
    Assertions are compiled in or out by a variable [asserts] of the A/B part; the
    theorems hold for both.

    The queues are the exception: their routines are trees of accesses to shared
    memory, run on their own ([run]) or step by step in a schedule of both ends.  A
    field of a header is read or written by one access, as is a whole frame; memory
    is sequentially consistent, which the barriers of the code are there to ensure.

    Loops follow the data they walk (bytes, entries, list elements).  Six kinds of
    loops have fuel, and running out would be [Stuck OutOfFuel]: [each_device], the
    walk over the device list by [tegrabl_blockdev_next_device], with the number of
    registered devices; and the walks over the free lists of the heap, which are
    pointers in memory, with one more than the number of fields in memory; and the
    machine that unpacks an image, with two iterations for a byte; and the loop over an
    intrusive list, with the number of nodes in memory; and the loop over the lines of
    extlinux.conf, with the number of bytes, of which each line takes one.  These five are proved to suffice, the
    second for every state the heap can reach, the third for every valid image, the fourth for
    every list ([list_for_every_all], [list_for_every_until]), the fifth for every text that
    [parse_conf_refines] is about; where a list is broken, the loop is
    shown not to end with any fuel.  The loop of the fastboot server has no end of its own: the number of commands is
    a parameter, and the theorems hold for every number.  The loop
    that waits for the peer of a queue to connect has no bound in the code; the
    model polls a given number of times and then reports that it is not connected.

    ** What the theorems show

    - transfers (C1): reads return the bytes of the medium and
      writes change exactly the bytes written, for every alignment of offset,
      length and buffer; edge cases where the code does something else;
    - registry (C15, C16): reference counts are exact in every reachable
      state, so no freed device is used;
    - heap (C11, C17): every sequence of calls behaves as an
      abstract heap; blocks are disjoint; release undoes allocation; merging
      stops; two ways to lose memory; the block devices run on it;
    - GPT (C14): what is accepted, what is published, the
      fallback;
    - partition manager (C13, C35);
    - A/B boot (C2, C3, C4, C36):
      names, selection, storage in two copies, the register, and the behaviour
      over many failing boots;
    - queues (C10, C12, C18, C34): messages arrive complete and in order
      under every interleaving; every call returns; a queue in sequential use; a
      reset recovers from any state; a second reset at the wrong moment does not;
    - requests (C19): an answer belongs to its request, unless an
      earlier call timed out;
    - sparse images (C20, C21): an image unpacks to what it stands
      for in however many pieces it comes; an image built unpacks to its chunks;
    - fastboot (C22, C23, C24, C25, C26): one reply to every command; a
      locked device keeps its storage; the variables stay well formed; an image ends up in
      the partition of its name; private names are out of reach; two commands that go wrong;
    - lists (C33): a list behaves as a sequence under every sequence of calls;
    - block cache (C27, C28, C40): a cache behaves as an array of blocks and keeps those
      used last; a failed read and a file system with an offset break it;
    - boot options (C29): a configuration is set as it is described; a setting can be changed
      without the others;
    - loading (C5, C30, C31): media are tried in their order, places do not overlap, an image is put in
      its places byte for byte, and a kernel that is too long for its place is not refused;
    - extlinux.conf (C8): parsing in place agrees with the reference parser;
    - authentication (C7, C38): a binary is accepted just when it is authentic, unless its ratchet
      level is too low, when nothing is checked;
    - loading from files (C6, C32, C39): with the fuse burned what boots was validated; loading
      stays in its buffer; a second attempt frees the entries of the first again;
    - loader of partitions (C9): the bytes of the slot that boots arrive;
    - utilities (C37), and, without a number, error codes and further theorems
      that complete the picture of a component.

    The theorems about the layers above the block devices are proved for every
    driver that satisfies [ReliableDriver] and every heap that satisfies
    [AllocatorLaws]; both are inhabited in Models.v and MallocLaws.v, and each theorem with
    hypotheses is applied to a concrete state by the lemma of the same name with
    the suffix [_witness].

    ** Configuration

    The build of the repository for t194: GPT, A/B slots, QSPI and the full block
    device layer, the choice of the boot device with network, SD and USB boot, extlinux.conf, secure boot
    and the recovery binaries are compiled in; the encryption of binaries, NVPT, the block device KPI counters and the
    write verification of the recovery image are not, and are not modelled.

    ** What is not modelled

    Device drivers (register access), console output and dumps, third-party code
    (libfdt, zlib, lz4, mbedtls, mincrypt, lwip, the LK kernel and file systems),
    the security engine, the glue that assembles the kernel's device tree and command line, and
    the loading over the network.  The
    stages before cboot are not in the repository; [AbPolicy.earlier_stage]
    composes the routines of this library that such a stage calls.

    ** Plan

    Done in this order: utilities, block devices, GPT, partition manager, A/B
    boot, heap, queues, sparse images, fastboot, lists, block cache, boot options,
    loading of the kernel, extlinux.conf, authentication, loading from files and partitions.  Next: the boot picture blob (lib/nvblob), the variables of the shell and the board
    options (lib/odmdata). *)

From Stdlib Require Ascii.
From stdpp Require Export base gmap list strings.
From Stdlib Require Export ZArith Lia.

#[global] Open Scope Z_scope.

(** ** Machine-width integers *)

Definition u8 (x : Z) : Z := x mod 2 ^ 8.
Definition u16 (x : Z) : Z := x mod 2 ^ 16.
Definition u32 (x : Z) : Z := x mod 2 ^ 32.
Definition u64 (x : Z) : Z := x mod 2 ^ 64.

(** Two's complement reading of a 32-bit and of a 64-bit pattern (int, int64_t). *)
Definition s32 (x : Z) : Z := (x + 2 ^ 31) mod 2 ^ 32 - 2 ^ 31.
Definition s64 (x : Z) : Z := (x + 2 ^ 63) mod 2 ^ 64 - 2 ^ 63.

Create HintDb cboot.
Create Rewrite HintDb cboot.

Lemma u8_range x : 0 <= u8 x < 2 ^ 8.
Proof. apply Z.mod_pos_bound. lia. Qed.

Lemma u16_range x : 0 <= u16 x < 2 ^ 16.
Proof. apply Z.mod_pos_bound. lia. Qed.

Lemma u32_range x : 0 <= u32 x < 2 ^ 32.
Proof. apply Z.mod_pos_bound. lia. Qed.

Lemma u64_range x : 0 <= u64 x < 2 ^ 64.
Proof. apply Z.mod_pos_bound. lia. Qed.

Lemma u8_small x : 0 <= x < 2 ^ 8 -> u8 x = x.
Proof. apply Z.mod_small. Qed.

Lemma u16_small x : 0 <= x < 2 ^ 16 -> u16 x = x.
Proof. apply Z.mod_small. Qed.

Lemma u32_small x : 0 <= x < 2 ^ 32 -> u32 x = x.
Proof. apply Z.mod_small. Qed.

Lemma u64_small x : 0 <= x < 2 ^ 64 -> u64 x = x.
Proof. apply Z.mod_small. Qed.

Lemma s32_small x : - 2 ^ 31 <= x < 2 ^ 31 -> s32 x = x.
Proof. intros H. unfold s32. rewrite Z.mod_small; lia. Qed.

Lemma s64_small x : - 2 ^ 63 <= x < 2 ^ 63 -> s64 x = x.
Proof. intros H. unfold s64. rewrite Z.mod_small; lia. Qed.

#[export] Hint Resolve u8_range u16_range u32_range u64_range : cboot.

(** ** Outcomes of a C call

    A call either returns, or control never comes back: a failed
    [TEGRABL_ASSERT] spins forever, and the accesses below have undefined
    behaviour.  [Stuck] keeps these apart from an error code, which is an
    ordinary returned value. *)

Inductive stuck : Set :=
| AssertFail   (* TEGRABL_ASSERT(false) with CONFIG_ENABLE_ASSERTS *)
| HeapCorrupt  (* the endless loop entered on a bad block magic *)
| BadPointer   (* a NULL or dangling pointer is dereferenced *)
| OutOfBounds  (* an access outside the object *)
| DivByZero    (* a division by 0 *)
| OutOfFuel.   (* the bound the model puts on a loop was reached *)

#[export] Instance stuck_eq_dec : EqDecision stuck.
Proof. solve_decision. Defined.

Inductive res (A : Type) : Type :=
| Ok (a : A)
| Stuck (s : stuck).
Arguments Ok {A} a.
Arguments Stuck {A} s.

Definition res_bind {A B} (m : res A) (k : A -> res B) : res B :=
  match m with
  | Ok a => k a
  | Stuck s => Stuck s
  end.

Declare Scope cboot_scope.
Delimit Scope cboot_scope with cboot.

Notation "'let*' x ':=' m 'in' k" := (res_bind m (fun x => k))
  (at level 10, x pattern, m at level 100, k at level 200) : cboot_scope.

#[global] Open Scope cboot_scope.

(** [TEGRABL_ASSERT]; [asserts] says whether assertions are compiled in. *)
Definition tegrabl_assert (asserts condition : bool) : res unit :=
  if asserts && negb condition then Stuck AssertFail else Ok tt.

Definition returns {A} (m : res A) : Prop := exists a, m = Ok a.

Lemma res_bind_Ok {A B} (m : res A) (k : A -> res B) b :
  res_bind m k = Ok b <-> exists a, m = Ok a /\ k a = Ok b.
Proof.
  destruct m as [a|s]; simpl; split.
  - intros Hk. by exists a.
  - intros (a' & Ha & Hk). by injection Ha as ->.
  - discriminate.
  - intros (a' & Ha & _). discriminate Ha.
Qed.

Lemma res_bind_assoc {A B C} (m : res A) (k : A -> res B) (l : B -> res C) :
  res_bind (res_bind m k) l = res_bind m (fun a => res_bind (k a) l).
Proof. by destruct m. Qed.

(** [inv_ok H] decomposes a hypothesis [H] that a sequence of calls returned. *)
Ltac inv_ok :=
  repeat match goal with
  | H : Ok _ = Ok _ |- _ => injection H as H; subst
  | H : Stuck _ = Ok _ |- _ => discriminate H
  | H : Ok _ = Stuck _ |- _ => discriminate H
  | H : res_bind _ _ = Ok _ |- _ =>
      apply res_bind_Ok in H; destruct H as (?&?&?)
  | H : (_, _) = (_, _) |- _ => injection H as ? ?; subst
  end.

(** [zbool] turns the boolean tests of the code in the context into
    arithmetic facts. *)
Ltac zbool :=
  repeat match goal with
  | H : (_ && _)%bool = true |- _ => apply andb_true_iff in H; destruct H
  | H : (_ || _)%bool = false |- _ => apply orb_false_iff in H; destruct H
  | H : (_ || _)%bool = true |- _ => apply orb_true_iff in H
  | H : (_ && _)%bool = false |- _ => apply andb_false_iff in H
  | H : negb _ = true |- _ => apply negb_true_iff in H
  | H : negb _ = false |- _ => apply negb_false_iff in H
  | H : (_ =? _) = true |- _ => apply Z.eqb_eq in H
  | H : (_ =? _) = false |- _ => apply Z.eqb_neq in H
  | H : (_ <? _) = true |- _ => apply Z.ltb_lt in H
  | H : (_ <? _) = false |- _ => apply Z.ltb_ge in H
  | H : (_ <=? _) = true |- _ => apply Z.leb_le in H
  | H : (_ <=? _) = false |- _ => apply Z.leb_gt in H
  end.

(** [case_test] splits on the innermost [if] of the goal. *)
Ltac case_test :=
  match goal with
  | |- context [if ?b then _ else _] =>
      lazymatch b with
      | context [if _ then _ else _] => fail
      | _ => destruct b eqn:?
      end
  end.

(** Equations of exclusive-or, bit by bit. *)
Ltac lxor_solve :=
  apply Z.bits_inj'; let n := fresh "n" in let H := fresh "H" in
  intros n H; rewrite ?Z.lxor_spec, ?Z.bits_0;
  repeat match goal with
  | |- context [Z.testbit ?x ?n] => destruct (Z.testbit x n)
  end; reflexivity.

(** A property of every byte follows from 256 evaluations. *)
Lemma byte_forall (P : Z -> bool) :
  forallb P (seqZ 0 256) = true -> forall b, 0 <= b < 256 -> P b = true.
Proof.
  intros H b Hb. rewrite forallb_forall in H. apply H.
  apply list_elem_of_In, elem_of_seqZ. lia.
Qed.

(** ** Bit fields

    [field_get w s r] and [field_set w s v r] are the shape shared by the
    macros [BITFIELD_GET]/[BITFIELD_SET] of tegrabl_utils.h and by the
    [BOOT_CHAIN_REG_*] accessors: a field of [w] bits at bit [s]. *)

Definition field_mask (w s : Z) : Z := Z.shiftl (Z.ones w) s.

Definition field_get (w s r : Z) : Z := Z.land (Z.shiftr r s) (Z.ones w).

Definition field_set (w s v r : Z) : Z :=
  Z.lor (Z.land r (Z.lnot (field_mask w s))) (Z.shiftl (Z.land v (Z.ones w)) s).

Lemma testbit_field_mask w s n :
  0 <= w -> 0 <= s -> 0 <= n ->
  Z.testbit (field_mask w s) n = (s <=? n) && (n <? s + w).
Proof.
  intros Hw Hs Hn. unfold field_mask.
  rewrite Z.shiftl_spec by lia.
  destruct (Z.leb_spec s n).
  - rewrite Z.testbit_ones by lia.
    destruct (Z.ltb_spec (n - s) w), (Z.ltb_spec n (s + w)), (Z.leb_spec 0 (n - s));
      simpl; try reflexivity; lia.
  - rewrite Z.testbit_neg_r by lia. reflexivity.
Qed.

Lemma testbit_field_set w s v r n :
  0 <= w -> 0 <= s -> 0 <= n ->
  Z.testbit (field_set w s v r) n =
    if (s <=? n) && (n <? s + w) then Z.testbit v (n - s) else Z.testbit r n.
Proof.
  intros Hw Hs Hn. unfold field_set.
  rewrite Z.lor_spec, Z.land_spec, Z.lnot_spec, testbit_field_mask by lia.
  rewrite Z.shiftl_spec by lia.
  destruct (Z.leb_spec s n); simpl.
  - rewrite Z.land_spec, Z.testbit_ones by lia.
    destruct (Z.ltb_spec n (s + w)), (Z.ltb_spec (n - s) w), (Z.leb_spec 0 (n - s));
      simpl; try lia; rewrite ?andb_false_r, ?andb_true_r, ?orb_false_r; reflexivity.
  - rewrite (Z.testbit_neg_r _ (n - s)) by lia.
    rewrite andb_true_r, orb_false_r. reflexivity.
Qed.

Lemma testbit_field_get w s r n :
  0 <= w -> 0 <= s -> 0 <= n ->
  Z.testbit (field_get w s r) n = (n <? w) && Z.testbit r (n + s).
Proof.
  intros Hw Hs Hn. unfold field_get.
  rewrite Z.land_spec, Z.shiftr_spec, Z.testbit_ones by lia.
  destruct (Z.ltb_spec n w), (Z.leb_spec 0 n); simpl; try lia;
    rewrite ?andb_true_r, ?andb_false_r; reflexivity.
Qed.

Lemma field_get_set w s v r :
  0 <= w -> 0 <= s -> field_get w s (field_set w s v r) = v mod 2 ^ w.
Proof.
  intros Hw Hs. apply Z.bits_inj'. intros n Hn.
  rewrite testbit_field_get, testbit_field_set by lia.
  rewrite <- Z.land_ones by lia. rewrite Z.land_spec, Z.testbit_ones by lia.
  replace (n + s - s) with n by lia.
  destruct (Z.ltb_spec n w), (Z.leb_spec s (n + s)), (Z.ltb_spec (n + s) (s + w)),
    (Z.leb_spec 0 n); simpl; try lia; rewrite ?andb_true_r, ?andb_false_r; reflexivity.
Qed.

Lemma field_get_set_other w s v r w' s' :
  0 <= w -> 0 <= s -> 0 <= w' -> 0 <= s' -> s' + w' <= s \/ s + w <= s' ->
  field_get w' s' (field_set w s v r) = field_get w' s' r.
Proof.
  intros ???? Hdisj. apply Z.bits_inj'. intros n Hn.
  rewrite !testbit_field_get, testbit_field_set by lia.
  destruct (Z.ltb_spec n w'); simpl; [|reflexivity].
  destruct (Z.leb_spec s (n + s')), (Z.ltb_spec (n + s') (s + w)); simpl;
    try reflexivity; lia.
Qed.

Lemma field_get_range w s r : 0 <= w -> 0 <= field_get w s r < 2 ^ w.
Proof.
  intros Hw. unfold field_get. rewrite Z.land_ones by lia.
  apply Z.mod_pos_bound. lia.
Qed.

(** A non-negative number with no bit at or above [n] is below [2 ^ n]. *)
Lemma bits_bound r n :
  0 <= n -> 0 <= r -> (forall i, n <= i -> Z.testbit r i = false) -> r < 2 ^ n.
Proof.
  intros Hn Hr Hb.
  enough (r = r mod 2 ^ n) as -> by (apply Z.mod_pos_bound; lia).
  rewrite <- Z.land_ones by lia. apply Z.bits_inj'. intros i Hi.
  rewrite Z.land_spec, Z.testbit_ones by lia.
  destruct (Z.ltb_spec i n), (Z.leb_spec 0 i); simpl; try lia.
  - by rewrite andb_true_r.
  - rewrite Hb by lia. reflexivity.
Qed.

Lemma testbit_bounded r n i : 0 <= r < 2 ^ n -> n <= i -> Z.testbit r i = false.
Proof.
  intros [H0 H1] Hi. destruct (decide (r = 0)) as [->|]; [apply Z.bits_0|].
  apply Z.bits_above_log2; [lia|].
  apply Z.log2_lt_pow2; [lia|].
  eapply Z.lt_le_trans; [exact H1|]. apply Z.pow_le_mono_r; lia.
Qed.

Lemma field_set_range w s v r n :
  0 <= w -> 0 <= s -> s + w <= n -> 0 <= r < 2 ^ n -> 0 <= field_set w s v r < 2 ^ n.
Proof.
  intros Hw Hs Hn Hr.
  assert (Hnn : 0 <= field_set w s v r).
  { unfold field_set. apply Z.lor_nonneg. split.
    - apply Z.land_nonneg. lia.
    - apply Z.shiftl_nonneg, Z.land_nonneg. right. unfold Z.ones.
      rewrite Z.shiftl_1_l. lia. }
  split; [exact Hnn|]. apply bits_bound; [lia|exact Hnn|].
  intros i Hi. rewrite testbit_field_set by lia.
  destruct (Z.leb_spec s i), (Z.ltb_spec i (s + w)); simpl; try lia;
    eapply testbit_bounded; eauto.
Qed.

#[export] Hint Resolve field_get_range field_set_range : cboot.

(** ** Byte buffers

    Memory is a list of byte values; [slice] reads and [splice] overwrites a
    range, as [memcpy] does. *)

Definition slice (off len : Z) (l : list Z) : list Z :=
  take (Z.to_nat len) (drop (Z.to_nat off) l).

Definition splice (off : Z) (bs l : list Z) : list Z :=
  take (Z.to_nat off) l ++ bs ++ drop (Z.to_nat off + length bs) l.

Definition zlen {A} (l : list A) : Z := Z.of_nat (length l).

Definition byte_ok (b : Z) : Prop := 0 <= b < 256.

Lemma slice_length off len l :
  0 <= off -> 0 <= len -> off + len <= zlen l -> zlen (slice off len l) = len.
Proof.
  intros ?? Hl. unfold slice, zlen in *. rewrite length_take, length_drop. lia.
Qed.

Lemma splice_length off bs l :
  0 <= off -> off + zlen bs <= zlen l -> zlen (splice off bs l) = zlen l.
Proof.
  intros ? Hl. unfold splice, zlen in *.
  rewrite !length_app, length_take, length_drop. lia.
Qed.

Lemma lookup_slice off len l i :
  0 <= off -> slice off len l !! i =
    if decide (i < Z.to_nat len)%nat then l !! (Z.to_nat off + i)%nat else None.
Proof.
  intros Ho. unfold slice. case_decide.
  - rewrite lookup_take_lt by lia. apply lookup_drop.
  - apply lookup_take_ge. lia.
Qed.

Lemma lookup_splice off bs l i :
  0 <= off -> off + zlen bs <= zlen l ->
  splice off bs l !! i =
    if decide (Z.to_nat off <= i < Z.to_nat off + length bs)%nat
    then bs !! (i - Z.to_nat off)%nat else l !! i.
Proof.
  intros Ho Hl. unfold splice, zlen in *.
  assert (Hlt : length (take (Z.to_nat off) l) = Z.to_nat off)
    by (rewrite length_take; lia).
  case_decide as Hi.
  - rewrite lookup_app_r by lia. rewrite Hlt, lookup_app_l by lia. reflexivity.
  - destruct (decide (i < Z.to_nat off)%nat).
    + rewrite lookup_app_l by lia. apply lookup_take_lt. lia.
    + rewrite !lookup_app_r by lia. rewrite lookup_drop. f_equal. lia.
Qed.

Lemma slice_splice_same off bs l :
  0 <= off -> off + zlen bs <= zlen l -> slice off (zlen bs) (splice off bs l) = bs.
Proof.
  intros Ho Hl. apply list_eq. intros i.
  rewrite lookup_slice, lookup_splice by lia. unfold zlen in *.
  repeat case_decide; try lia.
  - f_equal. lia.
  - symmetry. apply lookup_ge_None. lia.
Qed.

Lemma slice_splice_other off bs l o n :
  0 <= off -> off + zlen bs <= zlen l -> 0 <= o -> 0 <= n ->
  o + n <= off \/ off + zlen bs <= o ->
  slice o n (splice off bs l) = slice o n l.
Proof.
  intros. apply list_eq. intros i.
  rewrite !lookup_slice, lookup_splice by lia. unfold zlen in *.
  repeat case_decide; try lia; reflexivity.
Qed.

Lemma slice_app o n m l :
  0 <= o -> 0 <= n -> 0 <= m -> o + n + m <= zlen l ->
  slice o n l ++ slice (o + n) m l = slice o (n + m) l.
Proof.
  intros. apply list_eq. intros i. unfold zlen in *.
  assert (Hn : length (slice o n l) = Z.to_nat n)
    by (pose proof (slice_length o n l ltac:(lia) ltac:(lia)); unfold zlen in *; lia).
  rewrite lookup_slice by lia.
  destruct (decide (i < Z.to_nat n)%nat).
  - rewrite lookup_app_l, lookup_slice by lia. repeat case_decide; try lia. reflexivity.
  - rewrite lookup_app_r, lookup_slice by lia. repeat case_decide; try lia; [|reflexivity].
    f_equal. lia.
Qed.

Lemma slice_slice o n o' n' l :
  0 <= o -> 0 <= o' -> 0 <= n' -> o' + n' <= n ->
  slice o' n' (slice o n l) = slice (o + o') n' l.
Proof.
  intros. apply list_eq. intros i. rewrite !lookup_slice by lia.
  repeat case_decide; try lia; [f_equal; lia|reflexivity].
Qed.

Lemma slice_all l : slice 0 (zlen l) l = l.
Proof.
  apply list_eq. intros i. rewrite lookup_slice by lia. unfold zlen.
  case_decide; [f_equal; lia|]. symmetry. apply lookup_ge_None. lia.
Qed.

(** Consecutive overwrites of adjacent ranges are one overwrite. *)
Lemma splice_app o bs1 bs2 l :
  0 <= o -> o + zlen bs1 + zlen bs2 <= zlen l ->
  splice (o + zlen bs1) bs2 (splice o bs1 l) = splice o (bs1 ++ bs2) l.
Proof.
  intros Ho Hl. pose proof (splice_length o bs1 l ltac:(lia)) as Hs.
  assert (Ha : zlen (bs1 ++ bs2) = zlen bs1 + zlen bs2)
    by (unfold zlen; rewrite length_app; lia).
  apply list_eq. intros i.
  assert (0 <= zlen bs1) by (unfold zlen; lia).
  assert (0 <= zlen bs2) by (unfold zlen; lia).
  rewrite lookup_splice by lia. rewrite !lookup_splice by lia.
  rewrite length_app. unfold zlen in *.
  repeat case_decide; try lia; try reflexivity.
  - rewrite lookup_app_r by lia. f_equal. lia.
  - rewrite lookup_app_l by lia. reflexivity.
Qed.

Lemma splice_nil o l : splice o [] l = l.
Proof. unfold splice. simpl. rewrite Nat.add_0_r. apply take_drop. Qed.

Lemma slice_drop n m l : slice 0 m (drop (Z.to_nat n) l) = slice n m l.
Proof. reflexivity. Qed.

Lemma drop_drop_Z n m (l : list Z) :
  0 <= n -> 0 <= m -> drop (Z.to_nat m) (drop (Z.to_nat n) l) = drop (Z.to_nat (n + m)) l.
Proof. intros. rewrite drop_drop. f_equal. lia. Qed.

(** Writing the next [m] bytes of [data] after its first [n] ones. *)
Lemma splice_extend o n m data l :
  0 <= o -> 0 <= n -> 0 <= m -> n + m <= zlen data -> o + n + m <= zlen l ->
  splice (o + n) (slice n m data) (splice o (slice 0 n data) l) =
  splice o (slice 0 (n + m) data) l.
Proof.
  intros. pose proof (slice_length 0 n data ltac:(lia) ltac:(lia) ltac:(lia)) as Hn.
  pose proof (slice_length n m data ltac:(lia) ltac:(lia) ltac:(lia)) as Hm.
  rewrite <- Hn at 1. rewrite splice_app by lia.
  f_equal. rewrite <- (slice_app 0 n m) by lia. reflexivity.
Qed.

(** Rewriting a range with its own content patched in place is a patch of the
    whole: the read-modify-write of a partial block. *)
Lemma splice_patch o n p bs l :
  0 <= o -> 0 <= p -> 0 <= n -> o + n <= zlen l -> p + zlen bs <= n ->
  splice o (splice p bs (slice o n l)) l = splice (o + p) bs l.
Proof.
  intros Ho Hp Hn Hl Hb.
  pose proof (slice_length o n l ltac:(lia) ltac:(lia) ltac:(lia)) as Hsl.
  pose proof (splice_length p bs (slice o n l) ltac:(lia) ltac:(lia)) as Hsp.
  assert (0 <= zlen bs) by (unfold zlen; lia).
  apply list_eq. intros i.
  rewrite (lookup_splice o) by lia. rewrite (lookup_splice (o + p)) by lia.
  unfold zlen in Hsp, Hsl, Hb |- *.
  case_decide.
  - rewrite lookup_splice by (unfold zlen; lia).
    repeat case_decide; try lia; [f_equal; lia|].
    rewrite lookup_slice by lia. case_decide; [|lia]. f_equal. lia.
  - case_decide; [lia|reflexivity].
Qed.

Lemma splice_whole (bs l : list Z) : zlen bs = zlen l -> splice 0 bs l = bs.
Proof. intros H. unfold splice, zlen in *. cbn. rewrite drop_ge by lia. apply app_nil_r. Qed.

Lemma zlen_app {A} (l k : list A) : zlen (l ++ k) = zlen l + zlen k.
Proof. unfold zlen. rewrite length_app. lia. Qed.

Lemma zlen_nonneg {A} (l : list A) : 0 <= zlen l.
Proof. unfold zlen. lia. Qed.

#[export] Hint Resolve zlen_nonneg : cboot.
#[export] Hint Rewrite @zlen_app : cboot.

(** ** Little-endian integers in memory *)

Fixpoint le_val (l : list Z) : Z :=
  match l with
  | [] => 0
  | b :: l => b + 256 * le_val l
  end.

Fixpoint le_bytes (n : nat) (v : Z) : list Z :=
  match n with
  | O => []
  | S n => v mod 256 :: le_bytes n (v / 256)
  end.

(** The unsigned integer of [n] bytes at offset [off] of an object. *)
Definition get_le (off n : Z) (l : list Z) : Z := le_val (slice off n l).

Lemma le_bytes_length n v : length (le_bytes n v) = n.
Proof. revert v. induction n as [|n IH]; intros v; simpl; [done|]. by rewrite IH. Qed.

Lemma le_val_bytes n v : 0 <= v < 256 ^ Z.of_nat n -> le_val (le_bytes n v) = v.
Proof.
  revert v. induction n as [|n IH]; intros v Hv; cbn [le_bytes le_val].
  { change (256 ^ Z.of_nat 0) with 1 in Hv. lia. }
  rewrite Nat2Z.inj_succ, Z.pow_succ_r in Hv by lia.
  rewrite IH.
  - pose proof (Z.div_mod v 256). lia.
  - split; [apply Z.div_pos; lia|]. apply Z.div_lt_upper_bound; lia.
Qed.

Lemma le_bytes_ok n v : Forall byte_ok (le_bytes n v).
Proof.
  revert v. induction n as [|n IH]; intros v; cbn [le_bytes]; constructor; [|apply IH].
  unfold byte_ok. pose proof (Z.mod_pos_bound v 256). lia.
Qed.

Lemma le_val_range l : Forall byte_ok l -> 0 <= le_val l < 256 ^ zlen l.
Proof.
  unfold zlen. induction 1 as [|b l Hb _ IH]; cbn [le_val length].
  { simpl. lia. }
  rewrite Nat2Z.inj_succ, Z.pow_succ_r by lia. unfold byte_ok in Hb. lia.
Qed.

Lemma le_bytes_val l : Forall byte_ok l -> le_bytes (length l) (le_val l) = l.
Proof.
  induction 1 as [|b l Hb _ IH]; cbn [le_val length le_bytes]; [done|].
  unfold byte_ok in Hb.
  assert ((b + 256 * le_val l) mod 256 = b) as ->
    by (rewrite Z.mul_comm, Z.mod_add by lia; apply Z.mod_small; lia).
  assert ((b + 256 * le_val l) / 256 = le_val l) as ->
    by (rewrite Z.mul_comm, Z.div_add by lia; rewrite Z.div_small by lia; lia).
  by rewrite IH.
Qed.

(** Storing bytes into an object: outside of it the behaviour is undefined. *)
Definition store_at (off : Z) (bs l : list Z) : res (list Z) :=
  if (0 <=? off) && (off + zlen bs <=? zlen l) then Ok (splice off bs l)
  else Stuck OutOfBounds.

Lemma store_at_ok off bs l :
  0 <= off -> off + zlen bs <= zlen l -> store_at off bs l = Ok (splice off bs l).
Proof.
  intros. unfold store_at. destruct (Z.leb_spec 0 off); [|lia].
  destruct (Z.leb_spec (off + zlen bs) (zlen l)); [done|lia].
Qed.

(** ** C strings

    A character array is a list of bytes; the string in it ends before the first
    zero byte.  String arguments are given as their characters, without the
    terminator. *)

Fixpoint cstr (l : list Z) : list Z :=
  match l with
  | [] => []
  | c :: l => if c =? 0 then [] else c :: cstr l
  end.

Definition nonzero (s : list Z) : Prop := Forall (fun c => c <> 0) s.

Lemma cstr_nonzero l : nonzero (cstr l).
Proof.
  induction l as [|c l IH]; simpl; [constructor|].
  destruct (Z.eqb_spec c 0); constructor; auto.
Qed.

Lemma cstr_app_0 s l : nonzero s -> cstr (s ++ 0 :: l) = s.
Proof.
  induction 1 as [|c s Hc _ IH]; [done|]. cbn [app cstr].
  destruct (Z.eqb_spec c 0); [done|]. by rewrite IH.
Qed.

(** [strcmp(a, b) == 0] *)
Definition strcmp_eq (a b : list Z) : bool := bool_decide (a = b).

(** [strncmp(a, b, n) == 0]: the terminator takes part in the comparison. *)
Definition strncmp_eq (a b : list Z) (n : Z) : bool :=
  bool_decide (take (Z.to_nat n) (a ++ [0]) = take (Z.to_nat n) (b ++ [0])).

(** The bytes of a string constant. *)
Definition str (s : string) : list Z := map (fun c => Z.of_N (Ascii.N_of_ascii c)) (String.list_ascii_of_string s).
Arguments str s%_string.

(** [tolower], and [strncasecmp(a, b, n) == 0] *)
Definition tolower (c : Z) : Z := if (65 <=? c) && (c <=? 90) then c + 32 else c.

Definition strncasecmp_eq (a b : list Z) (n : Z) : bool :=
  bool_decide (take (Z.to_nat n) ((tolower <$> a) ++ [0]) =
               take (Z.to_nat n) ((tolower <$> b) ++ [0])).

(** With the length of the first string the comparison is a prefix test. *)
Lemma strncmp_eq_prefix a b :
  nonzero a -> strncmp_eq a b (zlen a) = true <-> a `prefix_of` b.
Proof.
  intros Ha. unfold strncmp_eq, zlen. rewrite bool_decide_eq_true, Nat2Z.id.
  rewrite take_app_le, firstn_all by lia. split.
  - intros E. destruct (decide (length a <= length b)%nat).
    + rewrite take_app_le in E by lia. exists (drop (length a) b).
      by rewrite E at 1; rewrite take_drop.
    + exfalso. rewrite take_ge in E by (rewrite length_app; simpl; lia).
      rewrite E in Ha. apply Forall_app in Ha as [_ Ha]. by inversion Ha.
  - intros [k ->]. rewrite <- app_assoc, take_app_le, firstn_all by lia. done.
Qed.
