(* ===== verification/TegraError.v ===== *)
(** Error codes (common/include/tegrabl_error.h).

    A [tegrabl_error_t] packs the module that reported the error last, the
    module where it arose, an auxiliary byte and a reason.  Every other
    component returns such codes, so the constructors, the accessors and the
    rule for re-labelling an error on its way up the call stack live here. *)

From S2P Require Import Prelude.

(** ** The macros of tegrabl_utils.h used to build a code *)

Definition BITFIELD_ONES (width : Z) : Z := Z.shiftl 1 width - 1.

Definition BITFIELD_MASK (width shift : Z) : Z :=
  Z.shiftl (BITFIELD_ONES width) shift.

(** [BITFIELD_SET] on a [uint32_t] variable: two assignments, each truncated. *)
Definition BITFIELD_SET (var value width shift : Z) : Z :=
  let var := u32 (Z.land var (Z.lnot (BITFIELD_MASK width shift))) in
  u32 (Z.lor var (Z.shiftl (Z.land value (BITFIELD_ONES width)) shift)).

(** ** Layout of an error code *)

Definition TEGRABL_ERR_MODULE_WIDTH : Z := 8.
Definition TEGRABL_ERR_AUX_INFO_WIDTH : Z := 8.
Definition TEGRABL_ERR_REASON_WIDTH : Z := 8.
Definition TEGRABL_ERR_HIGHEST_MODULE_SHIFT : Z := 24.
Definition TEGRABL_ERR_LOWEST_MODULE_SHIFT : Z := 16.
Definition TEGRABL_ERR_AUX_INFO_SHIFT : Z := 8.
Definition TEGRABL_ERR_REASON_SHIFT : Z := 0.

Definition TEGRABL_ERROR_REASON (error : Z) : Z :=
  Z.land error (BITFIELD_ONES TEGRABL_ERR_REASON_WIDTH).

Definition TEGRABL_ERROR_AUX_INFO (error : Z) : Z :=
  Z.land (Z.shiftr error TEGRABL_ERR_AUX_INFO_SHIFT)
         (BITFIELD_ONES TEGRABL_ERR_AUX_INFO_WIDTH).

Definition TEGRABL_ERROR_MODULE (error : Z) : Z :=
  Z.land (Z.shiftr error TEGRABL_ERR_LOWEST_MODULE_SHIFT)
         (BITFIELD_ONES TEGRABL_ERR_MODULE_WIDTH).

Definition TEGRABL_ERROR_HIGHEST_MODULE (error : Z) : Z :=
  Z.land (Z.shiftr error TEGRABL_ERR_HIGHEST_MODULE_SHIFT)
         (BITFIELD_ONES TEGRABL_ERR_MODULE_WIDTH).

Definition TEGRABL_NO_ERROR : Z := 0.

(** Reasons used by the modelled components. *)
Definition TEGRABL_ERR_NOT_SUPPORTED : Z := 0x01.
Definition TEGRABL_ERR_INVALID : Z := 0x02.
Definition TEGRABL_ERR_NO_MEMORY : Z := 0x03.
Definition TEGRABL_ERR_OVERFLOW : Z := 0x04.
Definition TEGRABL_ERR_UNDERFLOW : Z := 0x05.
Definition TEGRABL_ERR_TOO_SMALL : Z := 0x08.
Definition TEGRABL_ERR_NOT_FOUND : Z := 0x0d.
Definition TEGRABL_ERR_VERIFY_FAILED : Z := 0x18.
Definition TEGRABL_ERR_NOT_INITIALIZED : Z := 0x20.
Definition TEGRABL_ERR_ALREADY_EXISTS : Z := 0x21.
Definition TEGRABL_ERR_BAD_PARAMETER : Z := 0x2a.
Definition TEGRABL_ERR_TIMEOUT : Z := 0x06.
Definition TEGRABL_ERR_OUT_OF_RANGE : Z := 0x0b.
Definition TEGRABL_ERR_NO_ACCESS : Z := 0x0c.
Definition TEGRABL_ERR_BUSY : Z := 0x0e.
Definition TEGRABL_ERR_INVALID_STATE : Z := 0x15.
Definition TEGRABL_ERR_INVALID_CONFIG : Z := 0x1c.
Definition TEGRABL_ERR_INVALID_VERSION : Z := 0x1e.

(** Modules. *)
Definition TEGRABL_ERR_PARTITION_MANAGER : Z := 0xd.
Definition TEGRABL_ERR_SPARSE : Z := 0x33.
Definition TEGRABL_ERR_FASTBOOT : Z := 0x18.
Definition TEGRABL_ERR_BLOCK_DEV : Z := 0xe.
Definition TEGRABL_ERR_HEAP : Z := 0x1a.
Definition TEGRABL_ERR_GPT : Z := 0x1c.
Definition TEGRABL_ERR_AB_BOOTCTRL : Z := 0x54.

(** ** Construction and re-labelling *)

Definition tegrabl_error_value (module aux_info reason : Z) : Z :=
  let error := TEGRABL_NO_ERROR in
  let error := BITFIELD_SET error module TEGRABL_ERR_MODULE_WIDTH
                            TEGRABL_ERR_HIGHEST_MODULE_SHIFT in
  let error := BITFIELD_SET error module TEGRABL_ERR_MODULE_WIDTH
                            TEGRABL_ERR_LOWEST_MODULE_SHIFT in
  let error := BITFIELD_SET error (u8 aux_info) TEGRABL_ERR_AUX_INFO_WIDTH
                            TEGRABL_ERR_AUX_INFO_SHIFT in
  BITFIELD_SET error reason TEGRABL_ERR_REASON_WIDTH TEGRABL_ERR_REASON_SHIFT.

Definition tegrabl_err_set_highest_module (error module : Z) : Z :=
  BITFIELD_SET error module TEGRABL_ERR_MODULE_WIDTH
               TEGRABL_ERR_HIGHEST_MODULE_SHIFT.

Definition tegrabl_err_set_lowest_module (error module : Z) : Z :=
  BITFIELD_SET error module TEGRABL_ERR_MODULE_WIDTH
               TEGRABL_ERR_LOWEST_MODULE_SHIFT.

Definition tegrabl_err_set_aux_info (error aux_info : Z) : Z :=
  BITFIELD_SET error (u8 aux_info) TEGRABL_ERR_AUX_INFO_WIDTH
               TEGRABL_ERR_AUX_INFO_SHIFT.

(** ** The macros are bit fields *)

Lemma BITFIELD_ONES_ones w : 0 <= w -> BITFIELD_ONES w = Z.ones w.
Proof. intros. unfold BITFIELD_ONES, Z.ones. lia. Qed.

Lemma BITFIELD_SET_field var v w s :
  0 <= w -> 0 <= s -> s + w <= 32 -> 0 <= var < 2 ^ 32 ->
  BITFIELD_SET var v w s = field_set w s v var.
Proof.
  intros. unfold BITFIELD_SET, BITFIELD_MASK, field_set, field_mask.
  rewrite BITFIELD_ONES_ones by lia.
  set (m := Z.shiftl (Z.ones w) s).
  assert (Hland : 0 <= Z.land var (Z.lnot m) < 2 ^ 32).
  { split; [apply Z.land_nonneg; lia|].
    apply bits_bound; [lia|apply Z.land_nonneg; lia|].
    intros i Hi. rewrite Z.land_spec, (testbit_bounded var 32) by lia. reflexivity. }
  rewrite (u32_small (Z.land var (Z.lnot m))) by exact Hland.
  apply u32_small. fold (field_set w s v var). apply field_set_range; lia.
Qed.

Lemma BITFIELD_SET_range var v w s : 0 <= BITFIELD_SET var v w s < 2 ^ 32.
Proof. apply u32_range. Qed.

Lemma TEGRABL_ERROR_REASON_get e : TEGRABL_ERROR_REASON e = field_get 8 0 e.
Proof. unfold TEGRABL_ERROR_REASON, field_get. by rewrite Z.shiftr_0_r. Qed.

Lemma TEGRABL_ERROR_MODULE_get e : TEGRABL_ERROR_MODULE e = field_get 8 16 e.
Proof. reflexivity. Qed.

Lemma TEGRABL_ERROR_AUX_INFO_get e : TEGRABL_ERROR_AUX_INFO e = field_get 8 8 e.
Proof. reflexivity. Qed.

Lemma TEGRABL_ERROR_HIGHEST_MODULE_get e :
  TEGRABL_ERROR_HIGHEST_MODULE e = field_get 8 24 e.
Proof. reflexivity. Qed.

Ltac error_fields :=
  rewrite ?TEGRABL_ERROR_REASON_get, ?TEGRABL_ERROR_MODULE_get,
    ?TEGRABL_ERROR_AUX_INFO_get, ?TEGRABL_ERROR_HIGHEST_MODULE_get in *.

Lemma tegrabl_error_value_field m a r :
  tegrabl_error_value m a r =
    field_set 8 0 r (field_set 8 8 (u8 a) (field_set 8 16 m (field_set 8 24 m 0))).
Proof.
  unfold tegrabl_error_value, TEGRABL_NO_ERROR, TEGRABL_ERR_MODULE_WIDTH,
    TEGRABL_ERR_AUX_INFO_WIDTH, TEGRABL_ERR_REASON_WIDTH,
    TEGRABL_ERR_HIGHEST_MODULE_SHIFT, TEGRABL_ERR_LOWEST_MODULE_SHIFT,
    TEGRABL_ERR_AUX_INFO_SHIFT, TEGRABL_ERR_REASON_SHIFT.
  rewrite !BITFIELD_SET_field by (first [lia | apply BITFIELD_SET_range]).
  reflexivity.
Qed.

Lemma set_highest_module_field e m :
  0 <= e < 2 ^ 32 -> tegrabl_err_set_highest_module e m = field_set 8 24 m e.
Proof. intros. apply BITFIELD_SET_field; unfold TEGRABL_ERR_MODULE_WIDTH,
  TEGRABL_ERR_HIGHEST_MODULE_SHIFT; lia. Qed.

Lemma tegrabl_error_value_range m a r : 0 <= tegrabl_error_value m a r < 2 ^ 32.
Proof.
  rewrite tegrabl_error_value_field.
  repeat apply field_set_range; lia.
Qed.

(** A reason in range keeps the code distinct from [TEGRABL_NO_ERROR]. *)
Lemma nonzero_reason_nonzero e : TEGRABL_ERROR_REASON e <> 0 -> e <> TEGRABL_NO_ERROR.
Proof. intros H ->. by apply H. Qed.

(** Re-labelling an error leaves its origin and reason alone. *)
Lemma set_highest_module_fields e m :
  0 <= e < 2 ^ 32 ->
  TEGRABL_ERROR_HIGHEST_MODULE (tegrabl_err_set_highest_module e m) = m mod 2 ^ 8 /\
  TEGRABL_ERROR_MODULE (tegrabl_err_set_highest_module e m) = TEGRABL_ERROR_MODULE e /\
  TEGRABL_ERROR_AUX_INFO (tegrabl_err_set_highest_module e m) = TEGRABL_ERROR_AUX_INFO e /\
  TEGRABL_ERROR_REASON (tegrabl_err_set_highest_module e m) = TEGRABL_ERROR_REASON e.
Proof.
  intros He. error_fields. rewrite set_highest_module_field by exact He.
  rewrite field_get_set by lia. rewrite !field_get_set_other by lia. auto.
Qed.

Lemma set_highest_module_range e m :
  0 <= e < 2 ^ 32 -> 0 <= tegrabl_err_set_highest_module e m < 2 ^ 32.
Proof.
  intros. rewrite set_highest_module_field by assumption. apply field_set_range; lia.
Qed.

(** A code that carries a non-zero reason is still an error after it has been
    re-labelled: no layer can turn a failure into success by reporting it. *)
Lemma set_highest_module_nonzero e m :
  0 <= e < 2 ^ 32 -> TEGRABL_ERROR_REASON e <> 0 ->
  tegrabl_err_set_highest_module e m <> TEGRABL_NO_ERROR.
Proof.
  intros He Hr. apply nonzero_reason_nonzero.
  destruct (set_highest_module_fields e m He) as (_&_&_&->). exact Hr.
Qed.

(** Decoding a code built by [tegrabl_error_value] gives back its four
    fields: both module fields hold the module, then the auxiliary byte and the
    reason, each reduced to its 8 bits. *)
Theorem error_value_roundtrip (m a r : Z) :
  TEGRABL_ERROR_HIGHEST_MODULE (tegrabl_error_value m a r) = m mod 2 ^ 8 /\
  TEGRABL_ERROR_MODULE (tegrabl_error_value m a r) = m mod 2 ^ 8 /\
  TEGRABL_ERROR_AUX_INFO (tegrabl_error_value m a r) = a mod 2 ^ 8 /\
  TEGRABL_ERROR_REASON (tegrabl_error_value m a r) = r mod 2 ^ 8.
Proof.
  error_fields. rewrite !tegrabl_error_value_field.
  repeat split; repeat (rewrite field_get_set_other by lia);
    rewrite field_get_set by lia; try reflexivity.
  unfold u8. apply Z.mod_mod. lia.
Qed.
