(* ===== verification/Utils.v ===== *)
(** Utility routines (common/lib/utils): checksums, number parsing and byte
    swapping.

    [Crc32] shows that the table-driven routine computes the bit-serial CRC
    with the reflected polynomial 0xEDB88320, that it can be fed a buffer in
    pieces, and that it detects every change confined to one byte.  [Crc8],
    [Strtoul] and [ByteSwap] treat the remaining routines. *)

From S2P Require Import Prelude.

(** ** CRC-32 *)

Module Crc32.

Definition tegrabl_crc32_tab : list Z :=
  [
    0x00000000; 0x77073096; 0xee0e612c; 0x990951ba; 0x076dc419; 0x706af48f;
    0xe963a535; 0x9e6495a3; 0x0edb8832; 0x79dcb8a4; 0xe0d5e91e; 0x97d2d988;
    0x09b64c2b; 0x7eb17cbd; 0xe7b82d07; 0x90bf1d91; 0x1db71064; 0x6ab020f2;
    0xf3b97148; 0x84be41de; 0x1adad47d; 0x6ddde4eb; 0xf4d4b551; 0x83d385c7;
    0x136c9856; 0x646ba8c0; 0xfd62f97a; 0x8a65c9ec; 0x14015c4f; 0x63066cd9;
    0xfa0f3d63; 0x8d080df5; 0x3b6e20c8; 0x4c69105e; 0xd56041e4; 0xa2677172;
    0x3c03e4d1; 0x4b04d447; 0xd20d85fd; 0xa50ab56b; 0x35b5a8fa; 0x42b2986c;
    0xdbbbc9d6; 0xacbcf940; 0x32d86ce3; 0x45df5c75; 0xdcd60dcf; 0xabd13d59;
    0x26d930ac; 0x51de003a; 0xc8d75180; 0xbfd06116; 0x21b4f4b5; 0x56b3c423;
    0xcfba9599; 0xb8bda50f; 0x2802b89e; 0x5f058808; 0xc60cd9b2; 0xb10be924;
    0x2f6f7c87; 0x58684c11; 0xc1611dab; 0xb6662d3d; 0x76dc4190; 0x01db7106;
    0x98d220bc; 0xefd5102a; 0x71b18589; 0x06b6b51f; 0x9fbfe4a5; 0xe8b8d433;
    0x7807c9a2; 0x0f00f934; 0x9609a88e; 0xe10e9818; 0x7f6a0dbb; 0x086d3d2d;
    0x91646c97; 0xe6635c01; 0x6b6b51f4; 0x1c6c6162; 0x856530d8; 0xf262004e;
    0x6c0695ed; 0x1b01a57b; 0x8208f4c1; 0xf50fc457; 0x65b0d9c6; 0x12b7e950;
    0x8bbeb8ea; 0xfcb9887c; 0x62dd1ddf; 0x15da2d49; 0x8cd37cf3; 0xfbd44c65;
    0x4db26158; 0x3ab551ce; 0xa3bc0074; 0xd4bb30e2; 0x4adfa541; 0x3dd895d7;
    0xa4d1c46d; 0xd3d6f4fb; 0x4369e96a; 0x346ed9fc; 0xad678846; 0xda60b8d0;
    0x44042d73; 0x33031de5; 0xaa0a4c5f; 0xdd0d7cc9; 0x5005713c; 0x270241aa;
    0xbe0b1010; 0xc90c2086; 0x5768b525; 0x206f85b3; 0xb966d409; 0xce61e49f;
    0x5edef90e; 0x29d9c998; 0xb0d09822; 0xc7d7a8b4; 0x59b33d17; 0x2eb40d81;
    0xb7bd5c3b; 0xc0ba6cad; 0xedb88320; 0x9abfb3b6; 0x03b6e20c; 0x74b1d29a;
    0xead54739; 0x9dd277af; 0x04db2615; 0x73dc1683; 0xe3630b12; 0x94643b84;
    0x0d6d6a3e; 0x7a6a5aa8; 0xe40ecf0b; 0x9309ff9d; 0x0a00ae27; 0x7d079eb1;
    0xf00f9344; 0x8708a3d2; 0x1e01f268; 0x6906c2fe; 0xf762575d; 0x806567cb;
    0x196c3671; 0x6e6b06e7; 0xfed41b76; 0x89d32be0; 0x10da7a5a; 0x67dd4acc;
    0xf9b9df6f; 0x8ebeeff9; 0x17b7be43; 0x60b08ed5; 0xd6d6a3e8; 0xa1d1937e;
    0x38d8c2c4; 0x4fdff252; 0xd1bb67f1; 0xa6bc5767; 0x3fb506dd; 0x48b2364b;
    0xd80d2bda; 0xaf0a1b4c; 0x36034af6; 0x41047a60; 0xdf60efc3; 0xa867df55;
    0x316e8eef; 0x4669be79; 0xcb61b38c; 0xbc66831a; 0x256fd2a0; 0x5268e236;
    0xcc0c7795; 0xbb0b4703; 0x220216b9; 0x5505262f; 0xc5ba3bbe; 0xb2bd0b28;
    0x2bb45a92; 0x5cb36a04; 0xc2d7ffa7; 0xb5d0cf31; 0x2cd99e8b; 0x5bdeae1d;
    0x9b64c2b0; 0xec63f226; 0x756aa39c; 0x026d930a; 0x9c0906a9; 0xeb0e363f;
    0x72076785; 0x05005713; 0x95bf4a82; 0xe2b87a14; 0x7bb12bae; 0x0cb61b38;
    0x92d28e9b; 0xe5d5be0d; 0x7cdcefb7; 0x0bdbdf21; 0x86d3d2d4; 0xf1d4e242;
    0x68ddb3f8; 0x1fda836e; 0x81be16cd; 0xf6b9265b; 0x6fb077e1; 0x18b74777;
    0x88085ae6; 0xff0f6a70; 0x66063bca; 0x11010b5c; 0x8f659eff; 0xf862ae69;
    0x616bffd3; 0x166ccf45; 0xa00ae278; 0xd70dd2ee; 0x4e048354; 0x3903b3c2;
    0xa7672661; 0xd06016f7; 0x4969474d; 0x3e6e77db; 0xaed16a4a; 0xd9d65adc;
    0x40df0b66; 0x37d83bf0; 0xa9bcae53; 0xdebb9ec5; 0x47b2cf7f; 0x30b5ffe9;
    0xbdbdf21c; 0xcabac28a; 0x53b39330; 0x24b4a3a6; 0xbad03605; 0xcdd70693;
    0x54de5729; 0x23d967bf; 0xb3667a2e; 0xc4614ab8; 0x5d681b02; 0x2a6f2b94;
    0xb40bbe37; 0xc30c8ea1; 0x5a05df1b; 0x2d02ef8d
  ].

(** [tegrabl_crc32_tab[i]]; the index is masked to 8 bits by the caller. *)
Definition tab (i : Z) : Z := nth (Z.to_nat i) tegrabl_crc32_tab 0.

(** One turn of the [while] loop on the byte [*buf]. *)
Definition crc32_step (final_crc b : Z) : Z :=
  Z.lxor (tab (Z.land (Z.lxor final_crc b) 0xFF)) (Z.shiftr final_crc 8).

(** The loop over the buffer. *)
Fixpoint crc32_loop (final_crc : Z) (buf : list Z) : Z :=
  match buf with
  | [] => final_crc
  | b :: buf => crc32_loop (crc32_step final_crc b) buf
  end.

Definition NOT0 : Z := 0xFFFFFFFF.

Definition tegrabl_utils_crc32 (val : Z) (buffer : list Z) : Z :=
  Z.lxor (crc32_loop (Z.lxor val NOT0) buffer) NOT0.

End Crc32.

(** ** The remaining routines *)

Module Misc.

(** [tegrabl_utils_checksum]: the sum of the bytes in a [uint32_t]. *)
Fixpoint checksum_loop (checksum : Z) (buf : list Z) : Z :=
  match buf with
  | [] => checksum
  | b :: buf => checksum_loop (u32 (checksum + b)) buf
  end.

Definition tegrabl_utils_checksum (buffer : list Z) : Z := checksum_loop 0 buffer.

(** The inner loop of [tegrabl_utils_crc8]: [n] turns on the pair of [crc8] and
    the byte [t] being shifted out. *)
Fixpoint crc8_bits (n : nat) (crc8 t : Z) : Z :=
  match n with
  | O => crc8
  | S n =>
      let odd := Z.land (Z.lxor t crc8) 1 =? 1 in
      let crc8 := Z.shiftr crc8 1 in
      let t := Z.shiftr t 1 in
      crc8_bits n (if odd then Z.lxor crc8 0x8c else crc8) t
  end.

Fixpoint crc8_loop (crc8 : Z) (buffer : list Z) : Z :=
  match buffer with
  | [] => crc8
  | b :: buffer => crc8_loop (crc8_bits 8 crc8 b) buffer
  end.

Definition tegrabl_utils_crc8 (buffer : list Z) : Z := crc8_loop 0 buffer.

(** [tegrabl_utils_convert_to_binary]: [i] runs from 8 down to 1. *)
Fixpoint binary_loop (i : nat) (byte_value byte_num : Z) : Z :=
  match i with
  | O => byte_num
  | S i' =>
      let bit_value := u8 (Z.land byte_value (Z.shiftl 1 (Z.of_nat i'))) in
      let bit_value := Z.shiftr bit_value (Z.of_nat i') in
      binary_loop i' byte_value (u32 (u32 (byte_num * 10) + bit_value))
  end.

Definition tegrabl_utils_convert_to_binary (byte_value : Z) : Z :=
  binary_loop 8 (u8 byte_value) 0.

(** The byte at [dptr[i]] of a little-endian [uint32_t]. *)
Definition byte_of (data i : Z) : Z := Z.land (Z.shiftr data (8 * i)) 0xFF.

Definition be32tole32 (data : Z) : Z :=
  let result := Z.shiftl (byte_of data 0) 24 in
  let result := Z.lor result (Z.shiftl (byte_of data 1) 16) in
  let result := Z.lor result (Z.shiftl (byte_of data 2) 8) in
  Z.lor result (byte_of data 3).

(** [result.dword] of the union whose four bytes were stored one by one. *)
Definition dword_of_bytes (b0 b1 b2 b3 : Z) : Z :=
  Z.lor b0 (Z.lor (Z.shiftl b1 8) (Z.lor (Z.shiftl b2 16) (Z.shiftl b3 24))).

Definition le32tobe32 (data : Z) : Z :=
  dword_of_bytes (Z.land (Z.shiftr data 24) 0xFF) (Z.land (Z.shiftr data 16) 0xFF)
                 (Z.land (Z.shiftr data 8) 0xFF) (Z.land data 0xFF).

(** [tegrabl_utils_range_check]. *)
Definition tegrabl_utils_range_check (start size value : Z) : bool :=
  (start <=? value) && (value <? u64 (start + size)).

End Misc.

(** ** Number parsing

    A C string is the list of its characters; the character after the last one
    is the terminating NUL. *)

Module Strtoul.

Definition ULONG_MAX : Z := 2 ^ 64 - 1.

Definition chr (s : list Z) : Z := match s with [] => 0 | c :: _ => c end.

Definition isspace (c : Z) : bool :=
  (c =? 32) || (c =? 12) || (c =? 10) || (c =? 13) || (c =? 9) || (c =? 11).

Definition check_overflow (acc val base : Z) : bool :=
  let cutoff := ULONG_MAX / base in
  let cutlim := ULONG_MAX mod base in
  (cutoff <? acc) || ((acc =? cutoff) && (cutlim <? val)).

(** [temp1]: the value of a digit or letter, [base] for any other character. *)
Definition digit_value (c base : Z) : Z :=
  if (48 <=? c) && (c <=? 57) then c - 48
  else if (65 <=? c) && (c <=? 90) then c - 65 + 10
  else if (97 <=? c) && (c <=? 122) then c - 97 + 10
  else base.

(** The [for] loop: returns [acc], [any] and the characters from [s - 1] on. *)
Fixpoint parse_loop (base acc any : Z) (s : list Z) : Z * Z * list Z :=
  match s with
  | [] => (acc, any, [])
  | c :: s' =>
      let temp1 := digit_value c base in
      if base <=? temp1 then (acc, any, s)
      else if any <? 0 then parse_loop base acc any s'
      else if check_overflow acc temp1 base then parse_loop base ULONG_MAX (-1) s'
      else parse_loop base (u64 (u64 (acc * base) + temp1)) 1 s'
  end.

(** [tegrabl_utils_strtoul_parse]: the value and the string left at [*endptr]. *)
Definition tegrabl_utils_strtoul_parse (s nptr : list Z) (base : Z) (neg : bool)
    : Z * list Z :=
  let '(acc, any, rest) := parse_loop base 0 0 s in
  let acc := if neg && (0 <? any) then u64 (s64 acc * -1) else acc in
  (acc, if any =? 0 then nptr else rest).

Fixpoint remove_spaces (s : list Z) : list Z :=
  match s with
  | c :: s' => if isspace c then remove_spaces s' else s
  | [] => []
  end.

Definition is_valid_base (base : Z) : bool :=
  negb ((base <? 0) || (base =? 1) || (36 <? base)).

Definition has_hex_base_chars (s : list Z) : bool :=
  (chr s =? 48) && ((chr (tail s) =? 120) || (chr (tail s) =? 88)).

Definition tegrabl_utils_strtoul (nptr : list Z) (base : Z) : Z * list Z :=
  if negb (is_valid_base base) then (0, nptr)
  else
    let s := remove_spaces nptr in
    let '(neg, s) :=
      if chr s =? 45 then (true, tail s)
      else if chr s =? 43 then (false, tail s)
      else (false, s) in
    let '(base, s) :=
      if ((base =? 0) || (base =? 16)) && has_hex_base_chars s
      then (16, tail (tail s)) else (base, s) in
    let base := if base =? 0 then (if chr s =? 48 then 8 else 10) else base in
    tegrabl_utils_strtoul_parse s nptr base neg.

End Strtoul.

(** ** The CRC-32 table is the bit-serial division *)

Module Crc32Facts.
Import Crc32.

(** Reference: one step of the division by the reflected polynomial, and the
    CRC computed one bit at a time. *)
Definition POLY : Z := 0xEDB88320.

Definition step1 (c : Z) : Z :=
  Z.lxor (Z.shiftr c 1) (if Z.odd c then POLY else 0).

Fixpoint bitsteps (n : nat) (c : Z) : Z :=
  match n with
  | O => c
  | S n => bitsteps n (step1 c)
  end.

Definition crc32_bitserial (val : Z) (buffer : list Z) : Z :=
  Z.lxor (foldl (fun c b => bitsteps 8 (Z.lxor c b)) (Z.lxor val NOT0) buffer) NOT0.

Lemma step1_lxor a b : step1 (Z.lxor a b) = Z.lxor (step1 a) (step1 b).
Proof.
  unfold step1. rewrite Z.shiftr_lxor, <- !Z.bit0_odd, Z.lxor_spec.
  destruct (Z.testbit a 0), (Z.testbit b 0); simpl; lxor_solve.
Qed.

Lemma bitsteps_lxor n a b :
  bitsteps n (Z.lxor a b) = Z.lxor (bitsteps n a) (bitsteps n b).
Proof.
  revert a b. induction n as [|n IH]; intros a b; simpl; [reflexivity|].
  rewrite step1_lxor. apply IH.
Qed.

(** Zero bits are shifted out without a trace. *)
Lemma bitsteps_shiftl n hi : bitsteps n (Z.shiftl hi (Z.of_nat n)) = hi.
Proof.
  induction n as [|n IH]; [apply Z.shiftl_0_r|].
  cbn [bitsteps]. replace (step1 _) with (Z.shiftl hi (Z.of_nat n)); [exact IH|].
  unfold step1. rewrite <- Z.bit0_odd, Z.shiftl_spec_low by lia.
  rewrite Z.lxor_0_r, Z.shiftr_shiftl_l by lia. f_equal. lia.
Qed.

Lemma tab_bitsteps i : 0 <= i < 256 -> tab i = bitsteps 8 i.
Proof.
  intros Hi. apply Z.eqb_eq.
  apply (byte_forall (fun i => tab i =? bitsteps 8 i)); [|exact Hi].
  vm_compute. reflexivity.
Qed.

Lemma split_low_byte x : x = Z.lxor (Z.land x 0xFF) (Z.shiftl (Z.shiftr x 8) 8).
Proof.
  apply Z.bits_inj'. intros n Hn. change 0xFF with (Z.ones 8).
  rewrite Z.lxor_spec, Z.land_spec, Z.testbit_ones, Z.shiftl_spec by lia.
  destruct (Z.ltb_spec n 8), (Z.leb_spec 0 n); simpl; try lia.
  - rewrite (Z.testbit_neg_r _ (n - 8)) by lia. rewrite andb_true_r. by rewrite xorb_false_r.
  - rewrite Z.shiftr_spec by lia. rewrite andb_false_r, xorb_false_l.
    f_equal. lia.
Qed.

Lemma low_byte_range x : 0 <= Z.land x 0xFF < 256.
Proof. change 0xFF with (Z.ones 8). rewrite Z.land_ones by lia. apply Z.mod_pos_bound. lia. Qed.

Lemma byte_shiftr8 b : byte_ok b -> Z.shiftr b 8 = 0.
Proof. unfold byte_ok. intros. rewrite Z.shiftr_div_pow2 by lia. apply Z.div_small. lia. Qed.

Lemma crc32_step_bitsteps c b :
  byte_ok b -> crc32_step c b = bitsteps 8 (Z.lxor c b).
Proof.
  intros Hb. unfold crc32_step. rewrite tab_bitsteps by apply low_byte_range.
  rewrite (split_low_byte (Z.lxor c b)) at 2. rewrite bitsteps_lxor.
  rewrite (bitsteps_shiftl 8 _).
  rewrite Z.shiftr_lxor, (byte_shiftr8 b) by exact Hb. by rewrite Z.lxor_0_r.
Qed.

Lemma crc32_loop_foldl c buf :
  Forall byte_ok buf ->
  crc32_loop c buf = foldl (fun c b => bitsteps 8 (Z.lxor c b)) c buf.
Proof.
  intros Hb. revert c. induction Hb as [|b buf Hb _ IH]; intros c; simpl; [reflexivity|].
  rewrite IH, crc32_step_bitsteps by exact Hb. reflexivity.
Qed.

Lemma crc32_loop_app c a b : crc32_loop c (a ++ b) = crc32_loop (crc32_loop c a) b.
Proof. revert c. induction a as [|x a IH]; intros c; simpl; [reflexivity|apply IH]. Qed.

(** One division step is injective on 32-bit values: bit 31 of the result tells
    whether the polynomial was subtracted. *)
Lemma step1_bit31 c : 0 <= c < 2 ^ 32 -> Z.testbit (step1 c) 31 = Z.odd c.
Proof.
  intros Hc. unfold step1. rewrite Z.lxor_spec, Z.shiftr_spec by lia.
  rewrite (testbit_bounded c 32) by lia. by destruct (Z.odd c).
Qed.

Lemma lxor_range a b n : 0 <= n -> 0 <= a < 2 ^ n -> 0 <= b < 2 ^ n -> 0 <= Z.lxor a b < 2 ^ n.
Proof.
  intros Hn Ha Hb.
  assert (0 <= Z.lxor a b) by (apply Z.lxor_nonneg; lia).
  split; [done|]. apply bits_bound; [lia|done|]. intros i Hi.
  by rewrite Z.lxor_spec, (testbit_bounded a n), (testbit_bounded b n).
Qed.

Lemma step1_range c : 0 <= c < 2 ^ 32 -> 0 <= step1 c < 2 ^ 32.
Proof.
  intros Hc. apply lxor_range; [lia| |destruct (Z.odd c); unfold POLY; lia].
  rewrite Z.shiftr_div_pow2 by lia. change (2 ^ 1) with 2. split.
  - apply Z.div_pos; lia.
  - apply Z.div_lt_upper_bound; lia.
Qed.

Lemma step1_inj a b :
  0 <= a < 2 ^ 32 -> 0 <= b < 2 ^ 32 -> step1 a = step1 b -> a = b.
Proof.
  intros Ha Hb Heq.
  assert (Hodd : Z.odd a = Z.odd b) by (rewrite <- !step1_bit31, Heq by lia; done).
  assert (Hsh : Z.shiftr a 1 = Z.shiftr b 1).
  { unfold step1 in Heq. rewrite Hodd in Heq.
    apply (f_equal (fun x => Z.lxor x (if Z.odd b then POLY else 0))) in Heq.
    by rewrite !Z.lxor_assoc, !Z.lxor_nilpotent, !Z.lxor_0_r in Heq. }
  rewrite (Z.div2_odd a), (Z.div2_odd b), Hodd, !Z.div2_spec, Hsh. reflexivity.
Qed.

Lemma bitsteps_range n c : 0 <= c < 2 ^ 32 -> 0 <= bitsteps n c < 2 ^ 32.
Proof. revert c. induction n; intros c Hc; simpl; auto using step1_range. Qed.

Lemma bitsteps_inj n a b :
  0 <= a < 2 ^ 32 -> 0 <= b < 2 ^ 32 -> bitsteps n a = bitsteps n b -> a = b.
Proof.
  revert a b. induction n as [|n IH]; intros a b Ha Hb Heq; simpl in *; [exact Heq|].
  apply step1_inj; auto using step1_range.
Qed.

Lemma byte_lxor_range c b : 0 <= c < 2 ^ 32 -> byte_ok b -> 0 <= Z.lxor c b < 2 ^ 32.
Proof. unfold byte_ok. intros. apply lxor_range; lia. Qed.

#[local] Hint Resolve byte_lxor_range bitsteps_range : cboot.

Lemma crc32_step_range c b :
  0 <= c < 2 ^ 32 -> byte_ok b -> 0 <= crc32_step c b < 2 ^ 32.
Proof. intros. rewrite crc32_step_bitsteps by done. auto with cboot. Qed.

Lemma crc32_loop_range c buf :
  0 <= c < 2 ^ 32 -> Forall byte_ok buf -> 0 <= crc32_loop c buf < 2 ^ 32.
Proof.
  intros Hc Hb. revert c Hc. induction Hb; intros c Hc; simpl; auto using crc32_step_range.
Qed.

(** Distinct register values stay distinct whatever bytes follow. *)
Lemma crc32_loop_inj c d buf :
  0 <= c < 2 ^ 32 -> 0 <= d < 2 ^ 32 -> Forall byte_ok buf ->
  crc32_loop c buf = crc32_loop d buf -> c = d.
Proof.
  intros Hc Hd Hb. revert c d Hc Hd.
  induction Hb as [|b buf Hb _ IH]; intros c d Hc Hd Heq; simpl in Heq; [exact Heq|].
  apply IH in Heq; [|apply crc32_step_range; done..].
  rewrite !crc32_step_bitsteps in Heq by done.
  apply bitsteps_inj in Heq; [|auto with cboot..].
  apply (f_equal (fun x => Z.lxor x b)) in Heq.
  by rewrite !Z.lxor_assoc, !Z.lxor_nilpotent, !Z.lxor_0_r in Heq.
Qed.

Lemma crc32_range val buf :
  0 <= val < 2 ^ 32 -> Forall byte_ok buf -> 0 <= tegrabl_utils_crc32 val buf < 2 ^ 32.
Proof.
  intros Hv Hb. apply lxor_range; [lia| |unfold NOT0; lia].
  apply crc32_loop_range; [|done]. apply lxor_range; unfold NOT0; lia.
Qed.

Lemma lxor_NOT0_inj a b : Z.lxor a NOT0 = Z.lxor b NOT0 -> a = b.
Proof.
  intros H. apply (f_equal (fun x => Z.lxor x NOT0)) in H.
  by rewrite !Z.lxor_assoc, !Z.lxor_nilpotent, !Z.lxor_0_r in H.
Qed.

(** C37: the table-driven CRC-32 computes, on every buffer of bytes and from every
    start value, the CRC defined one bit at a time by the polynomial. *)
Theorem crc32_table_correct (val : Z) (buffer : list Z) :
  Forall byte_ok buffer ->
  tegrabl_utils_crc32 val buffer = crc32_bitserial val buffer.
Proof.
  intros Hb. unfold tegrabl_utils_crc32, crc32_bitserial.
  by rewrite crc32_loop_foldl.
Qed.

Lemma crc32_table_correct_witness :
  Forall byte_ok [49; 50; 51] /\
  tegrabl_utils_crc32 0 [49; 50; 51] = crc32_bitserial 0 [49; 50; 51].
Proof.
  assert (H : Forall byte_ok [49; 50; 51])
    by (repeat constructor; unfold byte_ok; lia).
  split; [exact H|]. exact (crc32_table_correct 0 [49; 50; 51] H).
Defined.

(** A buffer can be checksummed in pieces: feeding the CRC of a first part as
    the start value for the second gives the CRC of both. *)
Theorem crc32_incremental (val : Z) (a b : list Z) :
  tegrabl_utils_crc32 (tegrabl_utils_crc32 val a) b = tegrabl_utils_crc32 val (a ++ b).
Proof.
  unfold tegrabl_utils_crc32.
  by rewrite Z.lxor_assoc, Z.lxor_nilpotent, Z.lxor_0_r, crc32_loop_app.
Qed.

(** Changing a single byte of a buffer always changes its CRC-32. *)
Theorem crc32_detects_byte_change (val : Z) (a b : list Z) (x y : Z) :
  0 <= val < 2 ^ 32 -> Forall byte_ok a -> Forall byte_ok b ->
  byte_ok x -> byte_ok y -> x <> y ->
  tegrabl_utils_crc32 val (a ++ x :: b) <> tegrabl_utils_crc32 val (a ++ y :: b).
Proof.
  intros Hv Ha Hb Hx Hy Hne Heq. apply lxor_NOT0_inj in Heq.
  rewrite !crc32_loop_app in Heq. simpl in Heq.
  assert (Hc : 0 <= crc32_loop (Z.lxor val NOT0) a < 2 ^ 32)
    by (apply crc32_loop_range; [apply lxor_range; unfold NOT0; lia|done]).
  revert Hc Heq. generalize (crc32_loop (Z.lxor val NOT0) a). intros c Hc Heq.
  apply crc32_loop_inj in Heq; [|apply crc32_step_range; done..|done].
  rewrite !crc32_step_bitsteps in Heq by done.
  apply bitsteps_inj in Heq; [|auto with cboot..].
  apply (f_equal (fun z => Z.lxor c z)) in Heq.
  rewrite <- !Z.lxor_assoc, !Z.lxor_nilpotent, !Z.lxor_0_l in Heq. done.
Qed.

Lemma crc32_detects_byte_change_witness :
  tegrabl_utils_crc32 0 ([1] ++ 2 :: [3]) <> tegrabl_utils_crc32 0 ([1] ++ 7 :: [3]).
Proof.
  apply (crc32_detects_byte_change 0 [1] [3] 2 7);
    repeat constructor; unfold byte_ok; lia.
Defined.

End Crc32Facts.

(** ** CRC-8, byte order and number parsing *)

Module MiscFacts.
Import Misc.

Lemma crc8_bits_range n c t : 0 <= c < 256 -> 0 <= crc8_bits n c t < 256.
Proof.
  revert c t. induction n as [|n IH]; intros c t Hc; simpl; [exact Hc|].
  apply IH.
  assert (0 <= Z.shiftr c 1 < 256).
  { rewrite Z.shiftr_div_pow2 by lia. change (2 ^ 1) with 2.
    split; [apply Z.div_pos|apply Z.div_lt_upper_bound]; lia. }
  destruct (_ =? _); [|done]. apply (Crc32Facts.lxor_range _ _ 8); lia.
Qed.

Lemma crc8_loop_range c buf : 0 <= c < 256 -> 0 <= crc8_loop c buf < 256.
Proof.
  revert c. induction buf as [|b buf IH]; intros c Hc; simpl; [exact Hc|].
  apply IH, (crc8_bits_range 8), Hc.
Qed.

Lemma crc8_loop_app c a b : crc8_loop c (a ++ b) = crc8_loop (crc8_loop c a) b.
Proof. revert c. induction a as [|x a IH]; intros c; simpl; [reflexivity|apply IH]. Qed.

(** A byte equal to the register is cancelled by it. *)
Lemma crc8_bits_self c : 0 <= c < 256 -> crc8_bits 8 c c = 0.
Proof.
  intros Hc. apply Z.eqb_eq.
  apply (byte_forall (fun c => crc8_bits 8 c c =? 0)); [vm_compute; reflexivity|exact Hc].
Qed.

(** Appending its CRC-8 to any buffer makes the CRC-8 of the whole zero, which
    is how a stored block is checked. *)
Theorem crc8_self_check (buffer : list Z) :
  tegrabl_utils_crc8 (buffer ++ [tegrabl_utils_crc8 buffer]) = 0.
Proof.
  unfold tegrabl_utils_crc8. rewrite crc8_loop_app. simpl.
  apply crc8_bits_self, crc8_loop_range. lia.
Qed.

Lemma byte_of_testbit d i n :
  0 <= i -> 0 <= n -> Z.testbit (byte_of d i) n = (n <? 8) && Z.testbit d (n + 8 * i).
Proof. intros. apply (testbit_field_get 8 (8 * i)); lia. Qed.

Lemma byte_at_testbit (i k x n : Z) :
  0 <= i -> 0 <= k -> 0 <= n ->
  Z.testbit (Z.shiftl (byte_of x i) k) n =
    (k <=? n) && (n <? k + 8) && Z.testbit x (n - k + 8 * i).
Proof.
  intros. rewrite Z.shiftl_spec by lia.
  destruct (Z.leb_spec k n); simpl; [|apply Z.testbit_neg_r; lia].
  rewrite byte_of_testbit by lia.
  destruct (Z.ltb_spec (n - k) 8), (Z.ltb_spec n (k + 8)); try lia; reflexivity.
Qed.

(** Bit [n] of a swapped word is the bit at the same place of the mirrored byte. *)
Lemma be32tole32_testbit d n :
  0 <= n ->
  Z.testbit (be32tole32 d) n = (n <? 32) && Z.testbit d (n mod 8 + 8 * (3 - n / 8)).
Proof.
  intros Hn. unfold be32tole32.
  rewrite <- (Z.shiftl_0_r (byte_of d 3)).
  rewrite !Z.lor_spec, !byte_at_testbit by lia.
  pose proof (Z.div_mod n 8 ltac:(lia)) as E. pose proof (Z.mod_pos_bound n 8 ltac:(lia)).
  assert (0 <= n / 8) by (apply Z.div_pos; lia).
  assert (n / 8 = 0 \/ n / 8 = 1 \/ n / 8 = 2 \/ n / 8 = 3 \/ 4 <= n / 8)
    as [Hq|[Hq|[Hq|[Hq|Hq]]]] by lia;
  repeat match goal with
  | |- context [?a <=? ?b] => destruct (Z.leb_spec a b); try lia
  | |- context [?a <? ?b] => destruct (Z.ltb_spec a b); try lia
  end; simpl; rewrite ?orb_false_r; try reflexivity; f_equal; lia.
Qed.

Lemma be32tole32_range d : 0 <= be32tole32 d < 2 ^ 32.
Proof.
  assert (H0 : 0 <= be32tole32 d).
  { unfold be32tole32. repeat (apply Z.lor_nonneg; split);
      rewrite ?Z.shiftl_nonneg; apply Z.land_nonneg; lia. }
  split; [exact H0|]. apply bits_bound; [lia|exact H0|]. intros i Hi.
  rewrite be32tole32_testbit by lia. destruct (Z.ltb_spec i 32); [lia|reflexivity].
Qed.

Lemma le32tobe32_be32tole32 d : le32tobe32 d = be32tole32 d.
Proof.
  unfold le32tobe32, be32tole32, dword_of_bytes, byte_of.
  change (8 * 0) with 0. change (8 * 1) with 8. change (8 * 2) with 16.
  change (8 * 3) with 24. rewrite Z.shiftr_0_r.
  apply Z.bits_inj'. intros n Hn. rewrite !Z.lor_spec.
  destruct (Z.testbit (Z.shiftl (Z.land d 255) 24) n),
    (Z.testbit (Z.shiftl (Z.land (Z.shiftr d 8) 255) 16) n),
    (Z.testbit (Z.shiftl (Z.land (Z.shiftr d 16) 255) 8) n),
    (Z.testbit (Z.land (Z.shiftr d 24) 255) n); reflexivity.
Qed.

(** The two byte-order conversions are the same permutation of bytes and undo
    each other on every 32-bit word. *)
Theorem byteswap_involutive (d : Z) :
  0 <= d < 2 ^ 32 ->
  be32tole32 (le32tobe32 d) = d /\ le32tobe32 (be32tole32 d) = d.
Proof.
  intros Hd. rewrite !le32tobe32_be32tole32.
  enough (be32tole32 (be32tole32 d) = d) by done.
  apply Z.bits_inj'. intros n Hn. rewrite be32tole32_testbit by lia.
  destruct (Z.ltb_spec n 32); simpl; [|symmetry; apply (testbit_bounded d 32); lia].
  pose proof (Z.div_mod n 8 ltac:(lia)). pose proof (Z.mod_pos_bound n 8 ltac:(lia)).
  assert (0 <= n / 8 <= 3) by lia.
  rewrite be32tole32_testbit by lia.
  set (q := n / 8) in *. set (r := n mod 8) in *.
  destruct (Z.ltb_spec (r + 8 * (3 - q)) 32); [|lia]. simpl. f_equal.
  assert ((r + 8 * (3 - q)) / 8 = 3 - q) as ->
    by (symmetry; apply (Z.div_unique _ 8 _ r); lia).
  assert ((r + 8 * (3 - q)) mod 8 = r) as ->
    by (symmetry; apply (Z.mod_unique _ 8 (3 - q) r); lia).
  lia.
Qed.

Lemma byteswap_involutive_witness :
  be32tole32 (le32tobe32 0x12345678) = 0x12345678 /\
  le32tobe32 (be32tole32 0x12345678) = 0x12345678.
Proof. apply (byteswap_involutive 0x12345678). lia. Defined.

End MiscFacts.

Module StrtoulFacts.
Import Strtoul.

(** The value denoted by a run of digits, without any bound. *)
Fixpoint digits_value (base acc : Z) (s : list Z) : Z :=
  match s with
  | [] => acc
  | c :: s => digits_value base (acc * base + digit_value c base) s
  end.

Definition is_digit (base c : Z) : Prop := digit_value c base < base.

Lemma digit_value_nonneg c base : 0 <= base -> 0 <= digit_value c base.
Proof. intros. unfold digit_value. repeat case_test; zbool; lia. Qed.

(** The overflow guard is exact. *)
Lemma check_overflow_spec acc val base :
  2 <= base -> 0 <= acc -> 0 <= val < base ->
  check_overflow acc val base = (ULONG_MAX <? acc * base + val).
Proof.
  intros Hb Ha Hv. unfold check_overflow.
  pose proof (Z.div_mod ULONG_MAX base ltac:(lia)) as E.
  pose proof (Z.mod_pos_bound ULONG_MAX base ltac:(lia)) as R.
  revert E R. generalize (ULONG_MAX / base) (ULONG_MAX mod base).
  generalize ULONG_MAX. intros m q r E R.
  destruct (Z.ltb_spec q acc); simpl.
  - symmetry. apply Z.ltb_lt. nia.
  - destruct (Z.eqb_spec acc q); simpl.
    + subst. destruct (Z.ltb_spec r val); symmetry; [apply Z.ltb_lt|apply Z.ltb_ge]; nia.
    + symmetry. apply Z.ltb_ge. nia.
Qed.

Lemma digits_value_mono base acc s :
  2 <= base -> 0 <= acc -> acc <= digits_value base acc s.
Proof.
  intros Hb. revert acc. induction s as [|c s IH]; intros acc Ha; simpl; [lia|].
  pose proof (digit_value_nonneg c base ltac:(lia)).
  etransitivity; [|apply IH; nia]. nia.
Qed.

Lemma parse_loop_stop base acc any rest :
  ~ is_digit base (chr rest) ->
  parse_loop base acc any rest = (acc, any, rest).
Proof.
  intros Hr. destruct rest as [|c rest]; simpl; [reflexivity|].
  unfold is_digit in Hr. simpl in Hr. destruct (Z.leb_spec base (digit_value c base)); [done|lia].
Qed.

(** After an overflow the loop only consumes the remaining digits. *)
Lemma parse_loop_saturated base acc s rest :
  Forall (is_digit base) s -> ~ is_digit base (chr rest) ->
  parse_loop base acc (-1) (s ++ rest) = (acc, -1, rest).
Proof.
  intros Hs Hr. induction Hs as [|c s Hc _ IH]; simpl; [by apply parse_loop_stop|].
  unfold is_digit in Hc. destruct (Z.leb_spec base (digit_value c base)); [lia|exact IH].
Qed.

Lemma parse_loop_digits base acc any s rest :
  2 <= base -> 0 <= acc <= ULONG_MAX -> 0 <= any ->
  Forall (is_digit base) s -> ~ is_digit base (chr rest) ->
  parse_loop base acc any (s ++ rest) =
    (if digits_value base acc s <=? ULONG_MAX
     then (digits_value base acc s, match s with [] => any | _ => 1 end, rest)
     else (ULONG_MAX, -1, rest)).
Proof.
  intros Hb Ha Hany Hs Hr. revert acc any Ha Hany.
  induction Hs as [|c s Hc Hs IH]; intros acc any Ha Hany; simpl.
  - destruct (Z.leb_spec acc ULONG_MAX); [by apply parse_loop_stop|lia].
  - pose proof (digit_value_nonneg c base ltac:(lia)) as Hd. unfold is_digit in Hc.
    destruct (Z.leb_spec base (digit_value c base)); [lia|].
    destruct (Z.ltb_spec any 0); [lia|].
    rewrite check_overflow_spec by lia.
    destruct (Z.ltb_spec ULONG_MAX (acc * base + digit_value c base)).
    + rewrite parse_loop_saturated by done.
      pose proof (digits_value_mono base (acc * base + digit_value c base) s
        ltac:(lia) ltac:(nia)).
      destruct (Z.leb_spec (digits_value base (acc * base + digit_value c base) s)
        ULONG_MAX); [lia|reflexivity].
    + unfold ULONG_MAX in *.
      rewrite (u64_small (acc * base)) by nia. rewrite u64_small by nia.
      rewrite IH by nia. by destruct s.
Qed.

(** A digit is neither white space nor a sign. *)
Lemma digit_not_special base c :
  2 <= base <= 36 -> is_digit base c ->
  isspace c = false /\ (c =? 45) = false /\ (c =? 43) = false.
Proof.
  intros Hb Hd. assert (48 <= c).
  { revert Hd. unfold is_digit, digit_value. repeat case_test; zbool; lia. }
  unfold isspace. rewrite !orb_false_iff, !Z.eqb_neq. lia.
Qed.

(** A non-empty run of digits in an explicit base other than 16 is parsed to its
    value, or to [ULONG_MAX] exactly when the value does not fit in 64 bits, and
    the rest of the string starts at the first character that is not a digit. *)
Theorem strtoul_digits (base : Z) (s rest : list Z) :
  2 <= base <= 36 -> base <> 16 -> s <> [] ->
  Forall (is_digit base) s -> ~ is_digit base (chr rest) ->
  tegrabl_utils_strtoul (s ++ rest) base =
    (Z.min (digits_value base 0 s) ULONG_MAX, rest).
Proof.
  intros Hb H16 Hne Hs Hr. destruct s as [|c s]; [done|].
  pose proof (digit_not_special base c Hb (Forall_inv Hs)) as (Hsp & Hm & Hp).
  pose proof (parse_loop_digits base 0 0 (c :: s) rest ltac:(lia)
    ltac:(unfold ULONG_MAX; lia) ltac:(lia) Hs Hr) as Hloop.
  unfold tegrabl_utils_strtoul, is_valid_base.
  destruct (Z.ltb_spec base 0); [lia|]. destruct (Z.eqb_spec base 1); [lia|].
  destruct (Z.ltb_spec 36 base); [lia|]. simpl negb. cbv iota.
  rewrite <- app_comm_cons. cbn [remove_spaces]. rewrite Hsp. cbn [chr].
  rewrite Hm, Hp. destruct (Z.eqb_spec base 0); [lia|].
  destruct (Z.eqb_spec base 16); [lia|]. simpl orb. simpl andb. cbv iota.
  destruct (Z.eqb_spec base 0); [lia|].
  unfold tegrabl_utils_strtoul_parse. rewrite app_comm_cons, Hloop.
  generalize (digits_value base 0 (c :: s)). intros V.
  destruct (Z.leb_spec V ULONG_MAX); simpl; f_equal; lia.
Qed.

Lemma strtoul_digits_witness :
  tegrabl_utils_strtoul ([49; 50; 51] ++ [32]) 10 = (123, [32]).
Proof.
  apply (strtoul_digits 10 [49; 50; 51] [32]); [lia|lia|discriminate| |].
  - repeat constructor; vm_compute; reflexivity.
  - vm_compute. intros H. discriminate H.
Defined.

End StrtoulFacts.
