(* ===== verification/BlockDev.v ===== *)
(** The block device layer (common/lib/blockdev/tegrabl_blockdev.c).

    A registered device is a record of geometry, a reference count, the state
    of its driver and the choice made for each driver hook.  Devices live in a
    store indexed by address; [bdevs] is the list of registered addresses.
    Reading and writing byte ranges ([default_read], [default_write]) is built on
    whole-block transfers, with a bounce buffer for partial first and last
    blocks.  The drivers and the allocator are interfaces ([BlockDriver],
    [Allocator]) with the promises the layer relies on
    ([ReliableDriver], [AllocatorLaws]). *)

From S2P Require Import Prelude TegraError.

Definition NULL : Z := 0.

(** ** Interfaces *)

Inductive heap_type : Set := TEGRABL_HEAP_DEFAULT | TEGRABL_HEAP_DMA.

(** The allocator as its clients see it: an address, [NULL] on failure. *)
Class Allocator (H : Type) := {
  heap_malloc : H -> Z -> Z * H;
  heap_alloc_align : H -> heap_type -> Z -> Z -> Z * H;
  heap_dealloc : H -> heap_type -> Z -> res H
}.

(** Bytes a request of [sz] bytes at alignment [al] can use up at most: block
    header, rounding and alignment padding. *)
Definition alloc_cost (al sz : Z) : Z := sz + al + 128.

(** What the clients rely on: with room left a request is granted at an address
    with the alignment asked for (a multiple of eight), earlier blocks stay live,
    and a live block can be given back. *)
Class AllocatorLaws (H : Type) `{Allocator H} := {
  heap_room : H -> Z -> Prop;
  heap_live : H -> Z -> Prop;
  heap_room_weaken : forall h n m, heap_room h n -> m <= n -> heap_room h m;
  alloc_align_granted : forall h ht al sz n,
    heap_room h n -> 0 < sz -> 0 < al -> al mod 8 = 0 -> alloc_cost al sz <= n ->
    exists p h', heap_alloc_align h ht al sz = (p, h') /\ 0 < p < 2 ^ 63 /\
      p mod al = 0 /\ heap_live h' p /\ ~ heap_live h p /\
      heap_room h' (n - alloc_cost al sz) /\
      (forall q, heap_live h q -> heap_live h' q);
  malloc_granted : forall h sz n,
    heap_room h n -> 0 < sz -> alloc_cost 8 sz <= n ->
    exists p h', heap_malloc h sz = (p, h') /\ 0 < p < 2 ^ 63 /\
      p mod 8 = 0 /\ heap_live h' p /\ ~ heap_live h p /\
      heap_room h' (n - alloc_cost 8 sz) /\
      (forall q, heap_live h q -> heap_live h' q);
  dealloc_accepted : forall h ht p n,
    heap_live h p -> heap_room h n ->
    exists h', heap_dealloc h ht p = Ok h' /\ heap_room h' n /\
      (forall q, q <> p -> heap_live h q -> heap_live h' q)
}.

(** [struct tegrabl_blockdev_xfer_info]; [xi_buf] is an address. *)
Record xfer_info := mkXfer {
  xi_dev : Z; xi_xfer_type : Z; xi_buf : Z; xi_start_block : Z;
  xi_block_count : Z; xi_is_non_blocking : bool; xi_is_secure_erase : bool;
  xi_id : Z; xi_xfer_status : Z
}.

Definition TEGRABL_BLOCKDEV_WRITE : Z := 1.
Definition TEGRABL_BLOCKDEV_READ : Z := 2.
Definition TEGRABL_BLOCKDEV_ERASE : Z := 2.

(** The hooks a storage driver installs.  A transfer of blocks carries the bytes
    it moves; the state [D] is what hangs off [priv_data]. *)
Class BlockDriver (D : Type) := {
  drv_read_block : D -> Z -> Z -> Z * list Z * D;
  drv_write_block : D -> list Z -> Z -> Z -> Z * D;
  drv_erase : D -> Z -> Z -> bool -> Z * D;
  drv_xfer : D -> xfer_info -> Z * D;
  drv_xfer_wait : D -> xfer_info -> Z -> Z * Z * D;
  drv_ioctl : D -> Z -> Z -> Z * D;
  drv_close : D -> Z * D
}.

(** A driver in front of a working medium: [drv_bytes] is the content,
    [drv_ready x lg] says that the medium has blocks of [2 ^ lg] bytes. *)
Class ReliableDriver (D : Type) `{BlockDriver D} := {
  drv_bytes : D -> list Z;
  drv_ready : D -> Z -> Prop;
  drv_read_ok : forall x lg blk cnt,
    drv_ready x lg -> 0 <= blk -> 0 < cnt ->
    (blk + cnt) * 2 ^ lg <= zlen (drv_bytes x) ->
    exists x', drv_read_block x blk cnt =
        (TEGRABL_NO_ERROR, slice (blk * 2 ^ lg) (cnt * 2 ^ lg) (drv_bytes x), x') /\
      drv_ready x' lg /\ drv_bytes x' = drv_bytes x;
  drv_write_ok : forall x lg blk cnt bs,
    drv_ready x lg -> 0 <= blk -> 0 < cnt -> zlen bs = cnt * 2 ^ lg ->
    (blk + cnt) * 2 ^ lg <= zlen (drv_bytes x) ->
    exists x', drv_write_block x bs blk cnt = (TEGRABL_NO_ERROR, x') /\
      drv_ready x' lg /\ drv_bytes x' = splice (blk * 2 ^ lg) bs (drv_bytes x)
}.

(** ** State *)

(** A function pointer of [tegrabl_bdev_t]: what [initialize_bdev] stores, what
    the driver stores, or left [NULL] by the driver's [calloc].  No driver in
    the repository replaces [read] or [write], which stay at their defaults. *)
Inductive hook : Set := HookDefault | HookDriver | HookNull.

Record bdev (D : Type) := mkBdev {
  bd_ref : Z;
  bd_device_id : Z;
  bd_size : Z;
  bd_block_size_log2 : Z;
  bd_block_count : Z;
  bd_published : bool;
  bd_buf_align_size : Z;
  bd_priv : D;
  bd_read_block : hook;
  bd_write_block : hook;
  bd_erase : hook;
  bd_xfer : hook;
  bd_xfer_wait : hook;
  bd_ioctl : hook;
  bd_close : hook
}.
Arguments mkBdev {D}.
Arguments bd_ref {D}. Arguments bd_device_id {D}. Arguments bd_size {D}.
Arguments bd_block_size_log2 {D}. Arguments bd_block_count {D}.
Arguments bd_published {D}. Arguments bd_buf_align_size {D}.
Arguments bd_priv {D}. Arguments bd_read_block {D}. Arguments bd_write_block {D}.
Arguments bd_erase {D}. Arguments bd_xfer {D}. Arguments bd_ioctl {D}.
Arguments bd_xfer_wait {D}. Arguments bd_close {D}.

Definition set_priv {D} (d : bdev D) (x : D) : bdev D :=
  mkBdev (bd_ref d) (bd_device_id d) (bd_size d) (bd_block_size_log2 d)
    (bd_block_count d) (bd_published d) (bd_buf_align_size d) x
    (bd_read_block d) (bd_write_block d) (bd_erase d) (bd_xfer d)
    (bd_xfer_wait d) (bd_ioctl d) (bd_close d).

Definition set_ref {D} (d : bdev D) (r : Z) : bdev D :=
  mkBdev r (bd_device_id d) (bd_size d) (bd_block_size_log2 d)
    (bd_block_count d) (bd_published d) (bd_buf_align_size d) (bd_priv d)
    (bd_read_block d) (bd_write_block d) (bd_erase d) (bd_xfer d)
    (bd_xfer_wait d) (bd_ioctl d) (bd_close d).

Definition set_published {D} (d : bdev D) (b : bool) : bdev D :=
  mkBdev (bd_ref d) (bd_device_id d) (bd_size d) (bd_block_size_log2 d)
    (bd_block_count d) b (bd_buf_align_size d) (bd_priv d)
    (bd_read_block d) (bd_write_block d) (bd_erase d) (bd_xfer d)
    (bd_xfer_wait d) (bd_ioctl d) (bd_close d).

(** The statics of the module, the devices in memory and the heap. *)
Record world (D H : Type) := mkWorld {
  bdevs : option (list Z);
  devs : gmap Z (bdev D);
  xfer_id : Z;
  heap : H
}.
Arguments mkWorld {D H}.
Arguments bdevs {D H}. Arguments devs {D H}. Arguments xfer_id {D H}.
Arguments heap {D H}.

Definition set_heap {D H} (w : world D H) (h : H) : world D H :=
  mkWorld (bdevs w) (devs w) (xfer_id w) h.

Definition set_dev {D H} (w : world D H) (p : Z) (d : bdev D) : world D H :=
  mkWorld (bdevs w) (<[p := d]> (devs w)) (xfer_id w) (heap w).

Definition get_dev {D H} (w : world D H) (p : Z) : res (bdev D) :=
  match devs w !! p with
  | Some d => Ok d
  | None => Stuck BadPointer
  end.

Definition TEGRABL_BLOCKDEV_MEM_ALIGN_SIZE : Z := 8.
Definition TEGRABL_STORAGE_INVALID : Z := 10.
Definition TEGRABL_STORAGE_SDMMC_RPMB : Z := 2.
Definition TEGRABL_STORAGE_QSPI_FLASH : Z := 3.
Definition TEGRABL_IOCTL_BLOCK_SIZE : Z := 0.
Definition TEGRABL_IOCTL_DEVICE_CACHE_FLUSH : Z := 4.
Definition TEGRABL_IOCTL_INVALID : Z := 9.

Definition ERR (reason aux : Z) : Z :=
  tegrabl_error_value TEGRABL_ERR_BLOCK_DEV aux reason.

Definition SET_HIGHEST (error : Z) : Z :=
  tegrabl_err_set_highest_module error TEGRABL_ERR_BLOCK_DEV.

(** Macros of tegrabl_utils.h on unsigned 64-bit operands. *)
Definition MOD_LOG2 (n logd : Z) : Z := Z.land n (Z.shiftl 1 logd - 1).
Definition DIV_FLOOR_LOG2 (n logd : Z) : Z := Z.shiftr n logd.
Definition DIV_CEIL_LOG2 (n logd : Z) : Z :=
  Z.shiftr (u64 (n + Z.shiftl 1 logd - 1)) logd.
Definition MOD_POW2 (n d : Z) : Z := Z.land n (u32 (d - 1)).

Definition TEGRABL_BLOCKDEV_BLOCK_SIZE {D} (d : bdev D) : Z :=
  u64 (Z.shiftl 1 (bd_block_size_log2 d)).

Section Ops.
Context {D H : Type} `{BlockDriver D} `{Allocator H}.
Implicit Types w : world D H.

Definition tegrabl_blockdev_buffer_aligned (d : bdev D) (buf : Z) : bool :=
  MOD_POW2 buf (bd_buf_align_size d) =? 0.

(** ** Block transfers *)

(** The driver call behind [dev->read_block]: the error and the bytes that land
    in the buffer. *)
Definition call_read_block w (dev : Z) (d : bdev D) (buf block count : Z)
    : res (Z * list Z * world D H) :=
  match bd_read_block d with
  | HookDefault => Ok (ERR TEGRABL_ERR_NOT_SUPPORTED 1, [], w)
  | HookNull => Stuck BadPointer
  | HookDriver =>
      if buf =? NULL then Stuck BadPointer else
      let '(error, data, x) := drv_read_block (bd_priv d) block count in
      Ok (error, data, set_dev w dev (set_priv d x))
  end.

Definition tegrabl_blockdev_read_block w (dev buf block count : Z)
    : res (Z * list Z * world D H) :=
  if (dev =? NULL) || (count =? 0)
  then Ok (ERR TEGRABL_ERR_INVALID 8, [], w)
  else
    let* d := get_dev w dev in
    if negb (tegrabl_blockdev_buffer_aligned d buf)
    then Ok (ERR TEGRABL_ERR_INVALID 25, [], w)
    else if bd_ref d <=? 0
    then Ok (ERR TEGRABL_ERR_INVALID 9, [], w)
    else if (bd_block_count d <? block) || (bd_block_count d <? u32 (block + count))
    then Ok (ERR TEGRABL_ERR_OVERFLOW 1, [], w)
    else
      let* (error, data, w) := call_read_block w dev d buf block count in
      if negb (error =? TEGRABL_NO_ERROR)
      then Ok (SET_HIGHEST error, data, w)
      else Ok (error, data, w).

Definition call_write_block w (dev : Z) (d : bdev D) (data : list Z) (block count : Z)
    : res (Z * world D H) :=
  match bd_write_block d with
  | HookDefault => Ok (ERR TEGRABL_ERR_NOT_SUPPORTED 2, w)
  | HookNull => Stuck BadPointer
  | HookDriver =>
      let '(error, x) := drv_write_block (bd_priv d) data block count in
      Ok (error, set_dev w dev (set_priv d x))
  end.

(** [data] is the content of the buffer at address [buf]. *)
Definition tegrabl_blockdev_write_block w (dev buf : Z) (data : list Z)
    (block count : Z) : res (Z * world D H) :=
  if (count =? 0) || (dev =? NULL) || (buf =? NULL)
  then Ok (ERR TEGRABL_ERR_INVALID 12, w)
  else
    let* d := get_dev w dev in
    if negb (tegrabl_blockdev_buffer_aligned d buf)
    then Ok (ERR TEGRABL_ERR_INVALID 26, w)
    else if (bd_block_count d <? block) || (bd_block_count d <? u32 (block + count))
    then Ok (ERR TEGRABL_ERR_OVERFLOW 3, w)
    else if bd_ref d <=? 0
    then Ok (ERR TEGRABL_ERR_INVALID 13, w)
    else
      let* (error, w) := call_write_block w dev d data block count in
      if negb (error =? TEGRABL_NO_ERROR)
      then Ok (SET_HIGHEST error, w)
      else Ok (error, w).

(** ** Reading a byte range *)

(** The locals that advance together: buffer address, bytes left, block number,
    and the bytes stored at the start of the caller's buffer so far. *)
Record cursor := mkCursor {
  cu_buf : Z; cu_len : Z; cu_block : Z; cu_data : list Z
}.

(** "handle partial first block" *)
Definition read_first w (dev partial_block_buf offset : Z) (lg bsz : Z) (c : cursor)
    : res (Z * cursor * world D H) :=
  if MOD_LOG2 offset lg =? 0 then Ok (TEGRABL_NO_ERROR, c, w)
  else
    let* (error, data, w) :=
      tegrabl_blockdev_read_block w dev partial_block_buf (cu_block c) 1 in
    if negb (error =? TEGRABL_NO_ERROR) then Ok (error, c, w)
    else
      let block_offset := MOD_LOG2 offset lg in
      let tocopy := Z.min (u64 (bsz - block_offset)) (cu_len c) in
      Ok (TEGRABL_NO_ERROR,
          mkCursor (cu_buf c + tocopy) (u64 (cu_len c - tocopy)) (u32 (cu_block c + 1))
                   (cu_data c ++ slice block_offset tocopy data), w).

(** "handle middle blocks"; also returns [temp_buf], [NULL] if not allocated. *)
Definition read_middle w (dev : Z) (d : bdev D) (lg bsz : Z) (c : cursor)
    : res (Z * cursor * Z * world D H) :=
  if cu_len c <? u32 (Z.shiftl 1 lg) then Ok (TEGRABL_NO_ERROR, c, NULL, w)
  else
    let block_count := DIV_FLOOR_LOG2 (cu_len c) lg in
    let bytes := u64 (Z.shiftl block_count lg) in
    let advance data :=
      mkCursor (cu_buf c + bytes) (u64 (cu_len c - bytes))
               (u32 (cu_block c + block_count)) (cu_data c ++ slice 0 bytes data) in
    if cu_len c <? bytes then Ok (ERR TEGRABL_ERR_INVALID 1, c, NULL, w)
    else if negb (tegrabl_blockdev_buffer_aligned d (cu_buf c)) then
      let '(temp_buf, h) := heap_alloc_align (heap w) TEGRABL_HEAP_DMA
        TEGRABL_BLOCKDEV_MEM_ALIGN_SIZE (u64 (block_count * bsz)) in
      let w := set_heap w h in
      if temp_buf =? NULL then Ok (ERR TEGRABL_ERR_NO_MEMORY 1, c, NULL, w)
      else
        let* (error, data, w) :=
          tegrabl_blockdev_read_block w dev temp_buf (cu_block c) (u32 block_count) in
        if negb (error =? TEGRABL_NO_ERROR)
        then Ok (SET_HIGHEST error, c, temp_buf, w)
        else Ok (TEGRABL_NO_ERROR, advance data, temp_buf, w)
    else
      let* (error, data, w) :=
        tegrabl_blockdev_read_block w dev (cu_buf c) (cu_block c) (u32 block_count) in
      if negb (error =? TEGRABL_NO_ERROR)
      then Ok (SET_HIGHEST error, c, NULL, w)
      else Ok (TEGRABL_NO_ERROR, advance data, NULL, w).

(** "handle partial last block" *)
Definition read_last w (dev partial_block_buf : Z) (c : cursor)
    : res (Z * cursor * world D H) :=
  if negb (0 <? cu_len c) then Ok (TEGRABL_NO_ERROR, c, w)
  else
    let* (error, data, w) :=
      tegrabl_blockdev_read_block w dev partial_block_buf (cu_block c) 1 in
    if negb (error =? TEGRABL_NO_ERROR) then Ok (SET_HIGHEST error, c, w)
    else
      Ok (TEGRABL_NO_ERROR,
          mkCursor (cu_buf c) (cu_len c) (cu_block c)
                   (cu_data c ++ slice 0 (cu_len c) data), w).

(** [if (p != NULL) tegrabl_dealloc(TEGRABL_HEAP_DMA, p);] *)
Definition dealloc_dma w (p : Z) : res (world D H) :=
  if p =? NULL then Ok w
  else let* h := heap_dealloc (heap w) TEGRABL_HEAP_DMA p in Ok (set_heap w h).

(** The allocation of [partial_block_buf]: whether it is needed, the address. *)
Definition alloc_partial w (lg bsz offset len : Z) : bool * Z * world D H :=
  if negb (MOD_LOG2 offset lg =? 0) || negb (MOD_LOG2 len lg =? 0) then
    let '(p, h) := heap_alloc_align (heap w) TEGRABL_HEAP_DMA
      TEGRABL_BLOCKDEV_MEM_ALIGN_SIZE bsz in
    (true, p, set_heap w h)
  else (false, NULL, w).

(** Everything between the allocation and the label [fail]. *)
Definition read_stages w (dev : Z) (d : bdev D) (partial buffer offset len : Z)
    : res (Z * list Z * Z * world D H) :=
  let lg := bd_block_size_log2 d in
  let bsz := TEGRABL_BLOCKDEV_BLOCK_SIZE d in
  let c := mkCursor buffer len (u32 (DIV_FLOOR_LOG2 offset lg)) [] in
  let* (error, c, w) := read_first w dev partial offset lg bsz c in
  if negb (error =? TEGRABL_NO_ERROR) then Ok (error, cu_data c, NULL, w)
  else
    let* (error, c, temp_buf, w) := read_middle w dev d lg bsz c in
    if negb (error =? TEGRABL_NO_ERROR) then Ok (error, cu_data c, temp_buf, w)
    else
      let* (error, c, w) := read_last w dev partial c in
      Ok (error, cu_data c, temp_buf, w).

(** Returns the error and the bytes stored from the start of the buffer. *)
Definition tegrabl_blockdev_default_read w (dev buffer offset len : Z)
    : res (Z * list Z * world D H) :=
  if (dev =? NULL) || (buffer =? NULL)
  then Ok (ERR TEGRABL_ERR_INVALID 0, [], w)
  else
    let* d := get_dev w dev in
    let lg := bd_block_size_log2 d in
    let bsz := TEGRABL_BLOCKDEV_BLOCK_SIZE d in
    let '(needed, partial, w) := alloc_partial w lg bsz offset len in
    if needed && (partial =? NULL)
    then Ok (ERR TEGRABL_ERR_NO_MEMORY 0, [], w)
    else
      let* (error, data, temp_buf, w) := read_stages w dev d partial buffer offset len in
      let* w := dealloc_dma w partial in
      let* w := dealloc_dma w temp_buf in
      Ok (error, data, w).

Definition tegrabl_blockdev_read w (dev buf offset len : Z)
    : res (Z * list Z * world D H) :=
  if (dev =? NULL) || (len =? 0) then Ok (ERR TEGRABL_ERR_INVALID 6, [], w)
  else
    let* d := get_dev w dev in
    if bd_ref d <=? 0 then Ok (ERR TEGRABL_ERR_INVALID 7, [], w)
    else if (bd_size d <=? offset) || (bd_size d <? u64 (offset + len))
    then Ok (ERR TEGRABL_ERR_OVERFLOW 0, [], w)
    else
      let* (error, data, w) := tegrabl_blockdev_default_read w dev buf offset len in
      if negb (error =? TEGRABL_NO_ERROR) then Ok (SET_HIGHEST error, data, w)
      else Ok (error, data, w).

(** ** Writing a byte range *)

(** For a write [cu_data] holds the bytes of the caller's buffer from the address
    [cu_buf] on. *)

(** "handle partial first block": read, patch, write back.  The code does not
    store the result of the write, so [error] stays [TEGRABL_NO_ERROR]. *)
Definition write_first w (dev partial_block_buf offset : Z) (lg bsz : Z) (c : cursor)
    : res (Z * cursor * world D H) :=
  if MOD_LOG2 offset lg =? 0 then Ok (TEGRABL_NO_ERROR, c, w)
  else
    let* (error, data, w) :=
      tegrabl_blockdev_read_block w dev partial_block_buf (cu_block c) 1 in
    if negb (error =? TEGRABL_NO_ERROR) then Ok (SET_HIGHEST error, c, w)
    else
      let block_offset := MOD_LOG2 offset lg in
      let tocopy := Z.min (u64 (bsz - block_offset)) (cu_len c) in
      let patched := splice block_offset (slice 0 tocopy (cu_data c)) data in
      let* (_, w) :=
        tegrabl_blockdev_write_block w dev partial_block_buf patched (cu_block c) 1 in
      Ok (TEGRABL_NO_ERROR,
          mkCursor (cu_buf c + tocopy) (u64 (cu_len c - tocopy)) (u32 (cu_block c + 1))
                   (drop (Z.to_nat tocopy) (cu_data c)), w).

(** "handle middle blocks" *)
Definition write_middle w (dev : Z) (d : bdev D) (lg bsz : Z) (c : cursor)
    : res (Z * cursor * Z * world D H) :=
  if cu_len c <? u32 (Z.shiftl 1 lg) then Ok (TEGRABL_NO_ERROR, c, NULL, w)
  else
    let block_count := DIV_FLOOR_LOG2 (cu_len c) lg in
    let bytes := u64 (Z.shiftl block_count lg) in
    let advance :=
      mkCursor (cu_buf c + bytes) (u64 (cu_len c - bytes))
               (u32 (cu_block c + block_count)) (drop (Z.to_nat bytes) (cu_data c)) in
    if cu_len c <? bytes then Ok (ERR TEGRABL_ERR_INVALID 3, c, NULL, w)
    else
      let '(bounce, temp_buf, w) :=
        if negb (tegrabl_blockdev_buffer_aligned d (cu_buf c)) then
          let '(p, h) := heap_alloc_align (heap w) TEGRABL_HEAP_DMA
            TEGRABL_BLOCKDEV_MEM_ALIGN_SIZE (u64 (block_count * bsz)) in
          (true, p, set_heap w h)
        else (false, NULL, w) in
      if bounce && (temp_buf =? NULL)
      then Ok (ERR TEGRABL_ERR_NO_MEMORY 2, c, NULL, w)
      else
        let* (error, w) :=
          tegrabl_blockdev_write_block w dev (if bounce then temp_buf else cu_buf c)
            (slice 0 bytes (cu_data c)) (cu_block c) (u32 block_count) in
        if negb (error =? TEGRABL_NO_ERROR)
        then Ok (SET_HIGHEST error, c, temp_buf, w)
        else Ok (TEGRABL_NO_ERROR, advance, temp_buf, w).

(** "handle partial last block" *)
Definition write_last w (dev partial_block_buf : Z) (c : cursor)
    : res (Z * world D H) :=
  if negb (0 <? cu_len c) then Ok (TEGRABL_NO_ERROR, w)
  else
    let* (error, data, w) :=
      tegrabl_blockdev_read_block w dev partial_block_buf (cu_block c) 1 in
    if negb (error =? TEGRABL_NO_ERROR) then Ok (SET_HIGHEST error, w)
    else
      let patched := splice 0 (slice 0 (cu_len c) (cu_data c)) data in
      let* (error, w) :=
        tegrabl_blockdev_write_block w dev partial_block_buf patched (cu_block c) 1 in
      if negb (error =? TEGRABL_NO_ERROR) then Ok (SET_HIGHEST error, w)
      else Ok (TEGRABL_NO_ERROR, w).

Definition write_stages w (dev : Z) (d : bdev D) (partial buffer : Z) (data : list Z)
    (offset len : Z) : res (Z * Z * world D H) :=
  let lg := bd_block_size_log2 d in
  let bsz := TEGRABL_BLOCKDEV_BLOCK_SIZE d in
  let c := mkCursor buffer len (u32 (DIV_FLOOR_LOG2 offset lg)) data in
  let* (error, c, w) := write_first w dev partial offset lg bsz c in
  if negb (error =? TEGRABL_NO_ERROR) then Ok (error, NULL, w)
  else
    let* (error, c, temp_buf, w) := write_middle w dev d lg bsz c in
    if negb (error =? TEGRABL_NO_ERROR) then Ok (error, temp_buf, w)
    else
      let* (error, w) := write_last w dev partial c in
      Ok (error, temp_buf, w).

Definition tegrabl_blockdev_default_write w (dev buffer : Z) (data : list Z)
    (offset len : Z) : res (Z * world D H) :=
  if (dev =? NULL) || (buffer =? NULL)
  then Ok (ERR TEGRABL_ERR_INVALID 2, w)
  else
    let* d := get_dev w dev in
    let lg := bd_block_size_log2 d in
    let bsz := TEGRABL_BLOCKDEV_BLOCK_SIZE d in
    let '(needed, partial, w) := alloc_partial w lg bsz offset len in
    if needed && (partial =? NULL)
    then Ok (ERR TEGRABL_ERR_NO_MEMORY 0, w)
    else
      let* (error, temp_buf, w) := write_stages w dev d partial buffer data offset len in
      let* w := dealloc_dma w temp_buf in
      let* w := dealloc_dma w partial in
      Ok (error, w).

Definition tegrabl_blockdev_write w (dev buf : Z) (data : list Z) (offset len : Z)
    : res (Z * world D H) :=
  if (dev =? NULL) || (len =? 0) then Ok (ERR TEGRABL_ERR_INVALID 10, w)
  else
    let* d := get_dev w dev in
    if bd_ref d <=? 0 then Ok (ERR TEGRABL_ERR_INVALID 11, w)
    else if (bd_size d <=? offset) || (bd_size d <? u64 (offset + len))
    then Ok (ERR TEGRABL_ERR_OVERFLOW 2, w)
    else
      let* (error, w) := tegrabl_blockdev_default_write w dev buf data offset len in
      if negb (error =? TEGRABL_NO_ERROR) then Ok (SET_HIGHEST error, w)
      else Ok (error, w).

(** ** Erase, asynchronous transfer and ioctl *)

Definition tegrabl_blockdev_erase w (dev block count : Z) (is_secure : bool)
    : res (Z * world D H) :=
  if (dev =? NULL) || (count =? 0) then Ok (ERR TEGRABL_ERR_INVALID 14, w)
  else
    let* d := get_dev w dev in
    if (bd_block_count d <? block) || (bd_block_count d <? u32 (block + count))
    then Ok (ERR TEGRABL_ERR_OVERFLOW 4, w)
    else if bd_ref d <=? 0 then Ok (ERR TEGRABL_ERR_INVALID 15, w)
    else
      let* (error, w) :=
        match bd_erase d with
        | HookDefault => Ok (ERR TEGRABL_ERR_NOT_SUPPORTED 0, w)
        | HookNull => Stuck BadPointer
        | HookDriver =>
            let '(error, x) := drv_erase (bd_priv d) block count is_secure in
            Ok (error, set_dev w dev (set_priv d x))
        end in
      if negb (error =? TEGRABL_NO_ERROR) then Ok (SET_HIGHEST error, w)
      else Ok (error, w).

Definition tegrabl_blockdev_erase_all w (dev : Z) (is_secure : bool)
    : res (Z * world D H) :=
  if dev =? NULL then Ok (ERR TEGRABL_ERR_INVALID 16, w)
  else
    let* d := get_dev w dev in
    tegrabl_blockdev_erase w dev 0 (bd_block_count d) is_secure.

(** The argument is the content of [*xfer], [None] for a [NULL] pointer; the
    updated structure is returned. *)
Definition tegrabl_blockdev_xfer w (xfer : option xfer_info)
    : res (Z * option xfer_info * world D H) :=
  match xfer with
  | None => Ok (ERR TEGRABL_ERR_INVALID 22, None, w)
  | Some xf =>
    if xi_dev xf =? NULL then Ok (ERR TEGRABL_ERR_INVALID 22, Some xf, w)
    else
      let dev := xi_dev xf in
      let* d := get_dev w dev in
      if (bd_block_count d <? xi_start_block xf) ||
         (bd_block_count d <? u32 (xi_start_block xf + xi_block_count xf))
      then Ok (ERR TEGRABL_ERR_OVERFLOW 5, Some xf, w)
      else if bd_ref d <=? 0 then Ok (ERR TEGRABL_ERR_INVALID 23, Some xf, w)
      else
        match bd_xfer d with
        | HookDriver =>
            let '(error, x) := drv_xfer (bd_priv d) xf in
            let w := set_dev w dev (set_priv d x) in
            if negb (error =? TEGRABL_NO_ERROR)
            then Ok (SET_HIGHEST error, Some xf, w)
            else
              let xf := mkXfer (xi_dev xf) (xi_xfer_type xf) (xi_buf xf)
                (xi_start_block xf) (xi_block_count xf) (xi_is_non_blocking xf)
                (xi_is_secure_erase xf) (xfer_id w) (xi_xfer_status xf) in
              Ok (TEGRABL_NO_ERROR, Some xf,
                  mkWorld (bdevs w) (devs w) (u32 (xfer_id w + 1)) (heap w))
        | _ => Stuck BadPointer
        end
  end.

(** Returns the error and [*status_flag]. *)
Definition tegrabl_blockdev_xfer_wait w (xfer : option xfer_info) (timeout : Z)
    (status_flag : Z) : res (Z * Z * world D H) :=
  match xfer with
  | None => Ok (ERR TEGRABL_ERR_INVALID 24, status_flag, w)
  | Some xf =>
    if xi_dev xf =? NULL then Ok (ERR TEGRABL_ERR_INVALID 24, status_flag, w)
    else
      let dev := xi_dev xf in
      let* d := get_dev w dev in
      match bd_xfer_wait d with
      | HookDriver =>
          let '(error, status, x) := drv_xfer_wait (bd_priv d) xf timeout in
          let w := set_dev w dev (set_priv d x) in
          if negb (error =? TEGRABL_NO_ERROR) then Ok (SET_HIGHEST error, status, w)
          else Ok (error, status, w)
      | _ => Stuck BadPointer
      end
  end.

(** [args] is an address; the word stored there is returned when the request is
    answered by this layer. *)
Definition tegrabl_blockdev_ioctl w (dev ioctl args : Z)
    : res (Z * option Z * world D H) :=
  if (dev =? NULL) || (TEGRABL_IOCTL_INVALID <=? ioctl) || (args =? NULL)
  then Ok (ERR TEGRABL_ERR_INVALID 17, None, w)
  else
    let* d := get_dev w dev in
    if ioctl =? TEGRABL_IOCTL_BLOCK_SIZE
    then Ok (TEGRABL_NO_ERROR, Some (TEGRABL_BLOCKDEV_BLOCK_SIZE d), w)
    else
      match bd_ioctl d with
      | HookDriver =>
          let '(error, x) := drv_ioctl (bd_priv d) ioctl args in
          let w := set_dev w dev (set_priv d x) in
          if negb (error =? TEGRABL_NO_ERROR) then Ok (SET_HIGHEST error, None, w)
          else Ok (error, None, w)
      | _ => Stuck BadPointer
      end.

(** ** The registry *)

Definition bdev_inc_ref w (dev : Z) : res (world D H) :=
  let* d := get_dev w dev in
  Ok (set_dev w dev (set_ref d (u32 (bd_ref d + 1)))).

(** [list_in_list(&dev->node)]: the node is linked into the device list. *)
Definition list_in_list w (dev : Z) : bool :=
  match bdevs w with
  | Some l => bool_decide (dev ∈ l)
  | None => false
  end.

(** [if (dev->close != NULL) dev->close(dev);] *)
Definition call_close w (dev : Z) (d : bdev D) : world D H :=
  match bd_close d with
  | HookNull => w
  | _ => let '(_, x) := drv_close (bd_priv d) in set_dev w dev (set_priv d x)
  end.

Definition bdev_dec_ref w (dev : Z) : res (Z * world D H) :=
  let* d := get_dev w dev in
  let oldval := bd_ref d in
  let d := if 0 <? bd_ref d then set_ref d (bd_ref d - 1) else d in
  let w := set_dev w dev d in
  if oldval =? 1 then
    if list_in_list w dev then Ok (ERR TEGRABL_ERR_INVALID 4, w)
    else
      let w := call_close w dev d in
      let* h := heap_dealloc (heap w) TEGRABL_HEAP_DEFAULT dev in
      Ok (TEGRABL_NO_ERROR,
          mkWorld (bdevs w) (delete dev (devs w)) (xfer_id w) h)
  else Ok (TEGRABL_NO_ERROR, w).

Definition TEGRABL_BLOCK_DEVICE_ID (storage_type instance : Z) : Z :=
  u32 (Z.lor (Z.shiftl storage_type 16) instance).

(** The list walk of [tegrabl_blockdev_open]: a device without references ends
    the search. *)
Fixpoint open_walk w (l : list Z) (device_id : Z) : res (option Z) :=
  match l with
  | [] => Ok None
  | p :: l =>
      let* d := get_dev w p in
      if bd_ref d <=? 0 then Ok None
      else if bd_device_id d =? device_id then Ok (Some p)
      else open_walk w l device_id
  end.

(** Returns the device address, [NULL] if none. *)
Definition tegrabl_blockdev_open w (storage_type instance : Z) : res (Z * world D H) :=
  if TEGRABL_STORAGE_INVALID <=? storage_type then Ok (NULL, w)
  else
    match bdevs w with
    | None => Stuck BadPointer
    | Some l =>
        let* found := open_walk w l (TEGRABL_BLOCK_DEVICE_ID storage_type instance) in
        match found with
        | None => Ok (NULL, w)
        | Some p => let* w := bdev_inc_ref w p in Ok (p, w)
        end
    end.

(** [list_next]: the element after [item], if any. *)
Fixpoint list_next (l : list Z) (item : Z) : option Z :=
  match l with
  | [] => None
  | p :: l => if p =? item then head l else list_next l item
  end.

Definition tegrabl_blockdev_next_device w (curr_bdev : Z) : res Z :=
  match bdevs w with
  | None => Stuck BadPointer
  | Some l =>
      Ok (default NULL (if curr_bdev =? NULL then head l else list_next l curr_bdev))
  end.

(** The result of [bdev_dec_ref] is dropped. *)
Definition tegrabl_blockdev_close w (dev : Z) : res (Z * world D H) :=
  if dev =? NULL then Ok (ERR TEGRABL_ERR_INVALID 5, w)
  else
    let* (_, w) := bdev_dec_ref w dev in
    Ok (TEGRABL_NO_ERROR, w).

(** [dev] points to freshly allocated memory; [x] is the driver state and [align]
    the alignment the driver fills in next to the hooks. *)
Definition tegrabl_blockdev_initialize_bdev w (dev device_id block_size_log2
    block_count : Z) (x : D) (align : Z) : Z * world D H :=
  if dev =? NULL then (ERR TEGRABL_ERR_INVALID 18, w)
  else
    (TEGRABL_NO_ERROR,
     set_dev w dev
       (mkBdev 0 device_id (u64 (Z.shiftl block_count block_size_log2))
          block_size_log2 block_count false align x
          HookDefault HookDefault HookDefault HookNull HookNull HookNull HookNull)).

Fixpoint registered_id w (l : list Z) (device_id : Z) : res bool :=
  match l with
  | [] => Ok false
  | p :: l =>
      let* e := get_dev w p in
      if bd_device_id e =? device_id then Ok true else registered_id w l device_id
  end.

Definition tegrabl_blockdev_register_device w (dev : Z) : res (Z * world D H) :=
  if dev =? NULL then Ok (ERR TEGRABL_ERR_INVALID 20, w)
  else
    let* w := bdev_inc_ref w dev in
    match bdevs w with
    | None => Stuck BadPointer
    | Some l =>
        let* d := get_dev w dev in
        let* duplicate := registered_id w l (bd_device_id d) in
        if duplicate then Ok (ERR TEGRABL_ERR_ALREADY_EXISTS 0, w)
        else Ok (TEGRABL_NO_ERROR,
                 mkWorld (Some (l ++ [dev])) (devs w) (xfer_id w) (heap w))
    end.

(** [list_delete] on a node that is not linked follows NULL pointers. *)
Definition tegrabl_blockdev_unregister_device w (dev : Z) : res (Z * world D H) :=
  if dev =? NULL then Ok (ERR TEGRABL_ERR_INVALID 21, w)
  else
    let* _ := get_dev w dev in
    match bdevs w with
    | None => Stuck BadPointer
    | Some l =>
        if bool_decide (dev ∈ l) then
          let w := mkWorld (Some (filter (fun p => p <> dev) l)) (devs w)
                           (xfer_id w) (heap w) in
          let* (_, w) := bdev_dec_ref w dev in
          Ok (TEGRABL_NO_ERROR, w)
        else Stuck BadPointer
    end.

(** [sizeof(struct tegrabl_bdev_struct)]: one list node. *)
Definition sizeof_bdev_struct : Z := 16.

Definition tegrabl_blockdev_init w : Z * world D H :=
  match bdevs w with
  | Some _ => (TEGRABL_NO_ERROR, w)
  | None =>
      let '(p, h) := heap_malloc (heap w) sizeof_bdev_struct in
      let w := set_heap w h in
      if p =? NULL then (ERR TEGRABL_ERR_NO_MEMORY 2, w)
      else (TEGRABL_NO_ERROR, mkWorld (Some []) (devs w) (xfer_id w) (heap w))
  end.

(** [tegrabl_blockdev_get_storage_type] *)
Definition tegrabl_blockdev_get_storage_type w (dev : Z) : res Z :=
  if dev =? NULL then Ok TEGRABL_STORAGE_INVALID
  else
    let* d := get_dev w dev in
    Ok (u16 (Z.min (Z.land (Z.shiftr (bd_device_id d) 16) 0xFF)
                   TEGRABL_STORAGE_INVALID)).

End Ops.
