(* ===== verification/BlockDevFacts.v ===== *)
(** Correctness of the block device layer: byte ranges are read and written
    exactly, whatever their alignment, on a device whose driver moves whole
    blocks. *)

From S2P Require Import Prelude TegraError BlockDev.

(** ** The shift macros are division and remainder *)

Lemma shiftl_1_pow lg : 0 <= lg -> Z.shiftl 1 lg = 2 ^ lg.
Proof. intros. rewrite Z.shiftl_mul_pow2 by lia. lia. Qed.

Lemma MOD_LOG2_mod n lg : 0 <= lg -> MOD_LOG2 n lg = n mod 2 ^ lg.
Proof.
  intros. unfold MOD_LOG2. rewrite <- Z.land_ones by lia. f_equal.
Qed.

Lemma DIV_FLOOR_LOG2_div n lg : 0 <= lg -> DIV_FLOOR_LOG2 n lg = n / 2 ^ lg.
Proof. intros. by apply Z.shiftr_div_pow2. Qed.

Lemma pow2_pos lg : 0 <= lg -> 0 < 2 ^ lg.
Proof. intros. lia. Qed.

Lemma pow2_lt_32 lg : 0 <= lg < 32 -> 2 ^ lg <= 2 ^ 31.
Proof. intros. apply Z.pow_le_mono_r; lia. Qed.

(** ** Well-formed devices *)

Section Facts.
Context {D H : Type} `{BlockDriver D, !ReliableDriver D} `{Allocator H, !AllocatorLaws H}.
Implicit Types (w : world D H) (d : bdev D) (x : D) (h : H).

(** Geometry of an opened device whose driver filled in the block hooks. *)
Record geom d : Prop := {
  g_ref : 0 < bd_ref d;
  g_lg : 0 <= bd_block_size_log2 d < 32;
  g_count : 0 < bd_block_count d < 2 ^ 32;
  g_size : bd_size d = bd_block_count d * 2 ^ bd_block_size_log2 d;
  g_align : bd_buf_align_size d = 1 \/ bd_buf_align_size d = 2 \/
            bd_buf_align_size d = 4 \/ bd_buf_align_size d = 8;
  g_read : bd_read_block d = HookDriver;
  g_write : bd_write_block d = HookDriver
}.

(** The medium behind the driver has the size the device announces. *)
Definition media d x : Prop :=
  drv_ready x (bd_block_size_log2 d) /\ zlen (drv_bytes x) = bd_size d.

(** [w] with the driver of [dev] in state [x] and the heap in state [h]. *)
Definition put w (dev : Z) d x h : world D H :=
  mkWorld (bdevs w) (<[dev := set_priv d x]> (devs w)) (xfer_id w) h.

Lemma get_dev_put w dev d x h : get_dev (put w dev d x h) dev = Ok (set_priv d x).
Proof. unfold get_dev, put. cbn. by rewrite lookup_insert_eq. Qed.

Lemma set_dev_put w dev d x h x' :
  set_dev (put w dev d x h) dev (set_priv (set_priv d x) x') = put w dev d x' h.
Proof. unfold set_dev, put. cbn. f_equal. apply insert_insert_eq. Qed.

Lemma set_heap_put w dev d x h h' : set_heap (put w dev d x h) h' = put w dev d x h'.
Proof. reflexivity. Qed.

Lemma put_id w dev d : devs w !! dev = Some d -> put w dev d (bd_priv d) (heap w) = w.
Proof.
  intros Hd. destruct w. unfold put. cbn in *. f_equal. apply insert_id.
  rewrite Hd. by destruct d.
Qed.

Lemma geom_bsz d : geom d -> TEGRABL_BLOCKDEV_BLOCK_SIZE d = 2 ^ bd_block_size_log2 d.
Proof.
  intros G. unfold TEGRABL_BLOCKDEV_BLOCK_SIZE. pose proof (g_lg _ G).
  rewrite shiftl_1_pow by lia. apply u64_small.
  pose proof (pow2_lt_32 (bd_block_size_log2 d)). lia.
Qed.

Lemma geom_size_bound d : geom d -> 0 < bd_size d < 2 ^ 63.
Proof.
  intros G. rewrite (g_size _ G). pose proof (g_count _ G). pose proof (g_lg _ G).
  pose proof (pow2_lt_32 (bd_block_size_log2 d) ltac:(lia)).
  pose proof (pow2_pos (bd_block_size_log2 d) ltac:(lia)).
  change (2 ^ 63) with (2 ^ 32 * 2 ^ 31). nia.
Qed.

Lemma aligned8 d p : geom d -> 0 <= p -> p mod 8 = 0 -> tegrabl_blockdev_buffer_aligned d p = true.
Proof.
  intros G Hp Hm. unfold tegrabl_blockdev_buffer_aligned, MOD_POW2. apply Z.eqb_eq.
  assert (Hk : forall k, 0 <= k <= 3 -> Z.land p (2 ^ k - 1) = 0).
  { intros k Hk. replace (2 ^ k - 1) with (Z.ones k) by (rewrite Z.ones_equiv; lia).
    rewrite Z.land_ones by lia.
    replace p with (2 ^ k * (2 ^ (3 - k) * (p / 8))).
    - rewrite Z.mul_comm. apply Z.mod_mul. lia.
    - rewrite Z.mul_assoc, <- Z.pow_add_r by lia. replace (k + (3 - k)) with 3 by lia.
      change (2 ^ 3) with 8. pose proof (Z.div_mod p 8). lia. }
  destruct (g_align _ G) as [Ea | [Ea | [Ea | Ea]]]; rewrite Ea; unfold u32;
    [apply (Hk 0)|apply (Hk 1)|apply (Hk 2)|apply (Hk 3)]; lia.
Qed.

(** ** Whole blocks *)

Lemma read_block_ok w dev d x h buf blk cnt :
  geom d -> media d x -> 0 < dev -> 0 < buf ->
  tegrabl_blockdev_buffer_aligned d buf = true ->
  0 <= blk -> 0 < cnt -> blk + cnt <= bd_block_count d ->
  exists x', tegrabl_blockdev_read_block (put w dev d x h) dev buf blk cnt =
      Ok (TEGRABL_NO_ERROR,
          slice (blk * 2 ^ bd_block_size_log2 d) (cnt * 2 ^ bd_block_size_log2 d)
                (drv_bytes x),
          put w dev d x' h) /\
    media d x' /\ drv_bytes x' = drv_bytes x.
Proof.
  intros G [Hr Hz] Hdev Hbuf Hal Hb Hc Hlim.
  pose proof (g_count _ G) as Hcnt. pose proof (g_ref _ G) as Href.
  pose proof (pow2_pos _ (proj1 (g_lg _ G))) as HB.
  destruct (drv_read_ok x _ blk cnt Hr Hb Hc) as (x' & E & Hr' & Hb').
  { rewrite Hz, (g_size _ G). nia. }
  exists x'. split; [|split; [split|]; congruence].
  unfold tegrabl_blockdev_read_block, NULL.
  destruct (Z.eqb_spec dev 0); [lia|]. destruct (Z.eqb_spec cnt 0); [lia|].
  simpl orb. cbv iota. rewrite get_dev_put. cbn [res_bind].
  change (tegrabl_blockdev_buffer_aligned (set_priv d x) buf)
    with (tegrabl_blockdev_buffer_aligned d buf). rewrite Hal.
  cbn [negb set_priv bd_ref bd_block_count].
  destruct (Z.leb_spec (bd_ref d) 0); [lia|].
  rewrite u32_small by lia.
  destruct (Z.ltb_spec (bd_block_count d) blk); [lia|].
  destruct (Z.ltb_spec (bd_block_count d) (blk + cnt)); [lia|]. simpl orb. cbv iota.
  unfold call_read_block. cbn [set_priv bd_read_block bd_priv].
  rewrite (g_read _ G). unfold NULL. destruct (Z.eqb_spec buf 0); [lia|].
  rewrite E. cbn [res_bind]. rewrite set_dev_put. reflexivity.
Qed.

Lemma write_block_ok w dev d x h buf bs blk cnt :
  geom d -> media d x -> 0 < dev -> 0 < buf ->
  tegrabl_blockdev_buffer_aligned d buf = true ->
  0 <= blk -> 0 < cnt -> blk + cnt <= bd_block_count d ->
  zlen bs = cnt * 2 ^ bd_block_size_log2 d ->
  exists x', tegrabl_blockdev_write_block (put w dev d x h) dev buf bs blk cnt =
      Ok (TEGRABL_NO_ERROR, put w dev d x' h) /\
    media d x' /\
    drv_bytes x' = splice (blk * 2 ^ bd_block_size_log2 d) bs (drv_bytes x).
Proof.
  intros G [Hr Hz] Hdev Hbuf Hal Hb Hc Hlim Hbs.
  pose proof (g_count _ G) as Hcnt. pose proof (g_ref _ G) as Href.
  pose proof (pow2_pos _ (proj1 (g_lg _ G))) as HB.
  destruct (drv_write_ok x _ blk cnt bs Hr Hb Hc Hbs) as (x' & E & Hr' & Hb').
  { rewrite Hz, (g_size _ G). nia. }
  exists x'. split; [|split; [split|]; try congruence].
  2: { rewrite Hb', splice_length; [congruence|nia|]. rewrite Hz, Hbs, (g_size _ G). nia. }
  unfold tegrabl_blockdev_write_block, NULL.
  destruct (Z.eqb_spec cnt 0); [lia|]. destruct (Z.eqb_spec dev 0); [lia|].
  destruct (Z.eqb_spec buf 0); [lia|].
  simpl orb. cbv iota. rewrite get_dev_put. cbn [res_bind].
  change (tegrabl_blockdev_buffer_aligned (set_priv d x) buf)
    with (tegrabl_blockdev_buffer_aligned d buf). rewrite Hal.
  cbn [negb set_priv bd_ref bd_block_count]. rewrite u32_small by lia.
  destruct (Z.ltb_spec (bd_block_count d) blk); [lia|].
  destruct (Z.ltb_spec (bd_block_count d) (blk + cnt)); [lia|]. simpl orb. cbv iota.
  destruct (Z.leb_spec (bd_ref d) 0); [lia|].
  unfold call_write_block. cbn [set_priv bd_write_block bd_priv].
  rewrite (g_write _ G), E. cbn [res_bind]. rewrite set_dev_put. reflexivity.
Qed.

(** ** Reading a byte range

    After [n] bytes have been delivered the cursor stands at byte
    [offset + n] of the device, on a block boundary if bytes remain. *)

Definition read_at d (bytes : list Z) (buffer offset len n : Z) (c : cursor) : Prop :=
  0 <= n <= len /\ cu_buf c = buffer + n /\ cu_len c = len - n /\
  cu_data c = slice offset n bytes /\ 0 <= cu_block c /\
  (n < len -> cu_block c * 2 ^ bd_block_size_log2 d = offset + n).

Lemma slice_nil off l : slice off 0 l = [].
Proof. reflexivity. Qed.

Section Range.
Variables (w : world D H) (dev : Z) (d : bdev D) (buffer offset len : Z).
Hypotheses (G : geom d) (Hdev : 0 < dev) (Hbuf : 0 < buffer)
  (Hoff : 0 <= offset) (Hlen : 0 < len) (Hend : offset + len <= bd_size d).

Let B := 2 ^ bd_block_size_log2 d.

Lemma B_pos : 0 < B.
Proof. apply pow2_pos, (g_lg _ G). Qed.

(** A block boundary before the end of the range is a block of the device. *)
Lemma block_in_range blk n :
  0 <= blk -> 0 < n -> blk * B + n <= offset + len -> blk + (n + B - 1) / B <= bd_block_count d.
Proof.
  intros. pose proof B_pos. pose proof (g_size _ G) as Hs. fold B in Hs.
  assert ((n + B - 1) / B < bd_block_count d - blk + 1); [|lia].
  apply Z.div_lt_upper_bound; nia.
Qed.

Lemma block_lt_count blk n :
  0 <= blk -> 0 < n -> blk * B + n <= offset + len -> blk + 1 <= bd_block_count d.
Proof.
  intros. pose proof B_pos. pose proof (g_size _ G) as Hs. fold B in Hs. nia.
Qed.

Lemma first_block_bounds :
  offset / B * B + offset mod B = offset /\ 0 <= offset / B /\
  offset / B + 1 <= bd_block_count d /\ 0 <= offset mod B < B.
Proof.
  pose proof B_pos. pose proof (Z.div_mod offset B ltac:(lia)).
  pose proof (Z.mod_pos_bound offset B ltac:(lia)).
  assert (0 <= offset / B) by (apply Z.div_pos; lia).
  repeat split; try lia. apply (block_lt_count _ (offset mod B + len)); lia.
Qed.

Lemma read_first_ok x h partial :
  media d x -> (offset mod B <> 0 -> 0 < partial /\ partial mod 8 = 0) ->
  exists n x' c, read_first (put w dev d x h) dev partial offset
      (bd_block_size_log2 d) B (mkCursor buffer len (offset / B) []) =
      Ok (TEGRABL_NO_ERROR, c, put w dev d x' h) /\
    media d x' /\ drv_bytes x' = drv_bytes x /\
    read_at d (drv_bytes x) buffer offset len n c.
Proof.
  intros M Hp. pose proof first_block_bounds as (Hdm & Hq & Hqc & Hm).
  pose proof B_pos as HB. pose proof (pow2_lt_32 _ (g_lg _ G)) as HB31. fold B in HB31.
  pose proof (geom_size_bound _ G) as Hs. pose proof (g_count _ G) as Hc.
  unfold read_first. rewrite MOD_LOG2_mod by apply (g_lg _ G). fold B.
  destruct (Z.eqb_spec (offset mod B) 0) as [E|E].
  - exists 0, x, (mkCursor buffer len (offset / B) []). split; [reflexivity|].
    split; [done|]. split; [done|]. unfold read_at; cbn. fold B.
    rewrite slice_nil. repeat split; lia.
  - destruct (Hp E) as [Hp0 Hp8]. cbn [cu_block cu_len cu_buf cu_data].
    destruct (read_block_ok w dev d x h partial (offset / B) 1) as (x' & -> & M' & Hb');
      [done..|apply aligned8; auto; lia|lia|lia|lia|]. fold B.
    cbn [res_bind]. change (negb (TEGRABL_NO_ERROR =? TEGRABL_NO_ERROR)) with false.
    cbv iota. rewrite (u64_small (B - offset mod B)) by lia.
    set (t := Z.min (B - offset mod B) len).
    rewrite (u64_small (len - t)) by lia. rewrite u32_small by lia.
    eexists t, x', _. split; [reflexivity|]. split; [done|]. split; [done|].
    unfold read_at; cbn. fold B. rewrite slice_slice by lia.
    repeat split; try lia. f_equal. lia.
Qed.

Lemma read_middle_ok x h n c r :
  media d x -> read_at d (drv_bytes x) buffer offset len n c ->
  heap_room h r -> alloc_cost 8 len <= r ->
  exists n' x' c' temp h', read_middle (put w dev d x h) dev d
      (bd_block_size_log2 d) B c = Ok (TEGRABL_NO_ERROR, c', temp, put w dev d x' h') /\
    media d x' /\ drv_bytes x' = drv_bytes x /\
    read_at d (drv_bytes x) buffer offset len n' c' /\ len - n' < B /\
    (forall q, heap_live h q -> heap_live h' q) /\
    heap_room h' (r - alloc_cost 8 len) /\
    (temp = NULL \/ (0 < temp /\ heap_live h' temp /\ ~ heap_live h temp)).
Proof.
  intros M R Hroom Hcost. pose proof B_pos as HB.
  pose proof R as (Hn & Hb & Hl & Hd & Hk & Hpos).
  pose proof (pow2_lt_32 _ (g_lg _ G)) as HB31. fold B in HB31, Hpos.
  pose proof (geom_size_bound _ G) as Hs. pose proof (g_count _ G) as Hc.
  unfold read_middle. rewrite shiftl_1_pow by apply (g_lg _ G). fold B.
  rewrite (u32_small B) by lia. rewrite Hl.
  destruct (Z.ltb_spec (len - n) B) as [Hsmall|Hbig].
  { exists n, x, c, NULL, h. split; [reflexivity|]. split; [exact M|]. split; [done|].
    split; [exact R|]. split; [lia|]. split; [auto|].
    split; [|auto]. eapply heap_room_weaken; eauto. unfold alloc_cost. lia. }
  specialize (Hpos ltac:(lia)).
  rewrite DIV_FLOOR_LOG2_div by apply (g_lg _ G). fold B.
  rewrite Z.shiftl_mul_pow2 by apply (g_lg _ G). fold B.
  set (k := (len - n) / B). pose proof (Z.div_mod (len - n) B ltac:(lia)) as Hdm. fold k in Hdm.
  pose proof (Z.mod_pos_bound (len - n) B ltac:(lia)) as Hmb.
  assert (Hkpos : 0 < k) by nia. assert (Hkb : k * B <= len - n) by nia.
  assert (Hkc : cu_block c + k <= bd_block_count d)
    by (pose proof (g_size _ G) as Hsz; fold B in Hsz; nia).
  rewrite (u64_small (k * B)) by nia. rewrite (u32_small k) by lia.
  rewrite (u32_small (cu_block c + k)) by lia. rewrite (u64_small (len - n - k * B)) by lia.
  destruct (Z.ltb_spec (len - n) (k * B)); [lia|].
  assert (Hfin : forall (x1 : D), drv_bytes x1 = drv_bytes x ->
    read_at d (drv_bytes x) buffer offset len (n + k * B)
      (mkCursor (cu_buf c + k * B) (len - n - k * B) (cu_block c + k)
         (cu_data c ++ slice 0 (k * B) (slice (cu_block c * B) (k * B) (drv_bytes x))))).
  { intros _ _. unfold read_at; cbn. fold B. rewrite slice_slice by lia.
    pose proof (proj2 M) as Hz. rewrite Z.add_0_r, Hpos, Hd, slice_app by lia.
    repeat split; lia. }
  clear R. destruct (tegrabl_blockdev_buffer_aligned d (cu_buf c)) eqn:Hal; cbn [negb].
  - destruct (read_block_ok w dev d x h (cu_buf c) (cu_block c) k)
      as (x' & -> & M' & Hb'); [auto; lia..|]. fold B. cbn [res_bind].
    change (negb (TEGRABL_NO_ERROR =? TEGRABL_NO_ERROR)) with false. cbv iota.
    eexists (n + k * B), x', _, NULL, h. split; [reflexivity|].
    split; [done|]. split; [done|]. split; [by apply (Hfin x')|].
    split; [lia|]. split; [auto|]. split; [|auto].
    eapply heap_room_weaken; eauto. unfold alloc_cost. lia.
  - destruct (alloc_align_granted h TEGRABL_HEAP_DMA 8 (k * B) r)
      as (p & h' & E & Hp & Hp8 & Hlive & Hfresh & Hroom' & Hkeep);
      [done|nia|lia|done|unfold alloc_cost in *; lia|].
    cbn [heap put]. unfold TEGRABL_BLOCKDEV_MEM_ALIGN_SIZE.
    rewrite E. unfold NULL. destruct (Z.eqb_spec p 0); [lia|]. rewrite set_heap_put.
    destruct (read_block_ok w dev d x h' p (cu_block c) k)
      as (x' & -> & M' & Hb'); [auto; try lia..|]; [apply aligned8; auto; lia|]. fold B.
    cbn [res_bind]. change (negb (TEGRABL_NO_ERROR =? TEGRABL_NO_ERROR)) with false. cbv iota.
    eexists (n + k * B), x', _, p, h'. split; [reflexivity|].
    split; [done|]. split; [done|]. split; [by apply (Hfin x')|].
    split; [lia|]. split; [auto|]. split; [|right; auto with lia].
    eapply heap_room_weaken; eauto. unfold alloc_cost. lia.
Qed.

Lemma read_last_ok x h n c partial :
  media d x -> read_at d (drv_bytes x) buffer offset len n c -> len - n < B ->
  (n < len -> 0 < partial /\ partial mod 8 = 0) ->
  exists x' c', read_last (put w dev d x h) dev partial c =
      Ok (TEGRABL_NO_ERROR, c', put w dev d x' h) /\
    media d x' /\ drv_bytes x' = drv_bytes x /\
    cu_data c' = slice offset len (drv_bytes x).
Proof.
  intros M (Hn & Hb & Hl & Hd & Hk & Hpos) Hrest Hp. pose proof B_pos as HB.
  fold B in Hpos. unfold read_last. rewrite Hl.
  destruct (Z.ltb_spec 0 (len - n)) as [Hlt|Hge]; cbn [negb].
  - specialize (Hpos ltac:(lia)). destruct (Hp ltac:(lia)) as [Hp0 Hp8].
    destruct (read_block_ok w dev d x h partial (cu_block c) 1) as (x' & -> & M' & Hb');
      [auto; try lia..|];
      [apply aligned8; auto; lia|apply (block_lt_count _ (len - n)); lia|]. fold B.
    cbn [res_bind]. change (negb (TEGRABL_NO_ERROR =? TEGRABL_NO_ERROR)) with false. cbv iota.
    eexists x', _. split; [reflexivity|]. split; [done|]. split; [done|]. cbn [cu_data].
    rewrite slice_slice by lia. rewrite Z.add_0_r, Hpos, Hd, slice_app.
    + f_equal. lia.
    + lia.
    + lia.
    + lia.
    + destruct M as [_ ->]. lia.
  - exists x, c. split; [reflexivity|]. split; [done|]. split; [done|].
    rewrite Hd. f_equal. lia.
Qed.
(** If bytes are left for a partial last block, the bounce buffer was allocated. *)
Lemma partial_needed blk n :
  n < len -> len - n < B -> blk * B = offset + n ->
  offset mod B <> 0 \/ len mod B <> 0.
Proof.
  intros Hn Hr Hp. pose proof B_pos.
  destruct (Z.eq_dec (offset mod B) 0) as [E1|]; [|by left].
  destruct (Z.eq_dec (len mod B) 0) as [E2|]; [|by right].
  pose proof (Z.div_mod offset B ltac:(lia)). pose proof (Z.div_mod len B ltac:(lia)).
  assert (len - n = B * (offset / B + len / B - blk)) by lia.
  exfalso. assert (offset / B + len / B - blk < 1) by nia. nia.
Qed.

Definition partial_ok (needed : bool) (partial : Z) : Prop :=
  (needed = true <-> offset mod B <> 0 \/ len mod B <> 0) /\
  (if needed then 0 < partial /\ partial mod 8 = 0 else partial = NULL).

Lemma partial_ok_first needed partial :
  partial_ok needed partial -> offset mod B <> 0 -> 0 < partial /\ partial mod 8 = 0.
Proof.
  intros [Hi Hp] Hm. destruct needed; [done|].
  discriminate (proj2 Hi (or_introl Hm)).
Qed.

Lemma partial_ok_last needed partial blk n :
  partial_ok needed partial -> n < len -> len - n < B -> blk * B = offset + n ->
  0 < partial /\ partial mod 8 = 0.
Proof.
  intros [Hi Hp] Hn Hr Hb. pose proof (partial_needed blk n Hn Hr Hb) as Hm.
  destruct needed; [done|]. discriminate (proj2 Hi Hm).
Qed.

Lemma alloc_partial_ok x h r :
  heap_room h r -> alloc_cost 8 B <= r ->
  exists needed partial h',
    alloc_partial (put w dev d x h) (bd_block_size_log2 d) B offset len =
      (needed, partial, put w dev d x h') /\
    partial_ok needed partial /\ heap_room h' (r - alloc_cost 8 B) /\
    (partial <> NULL -> heap_live h' partial).
Proof.
  intros Hroom Hcost. pose proof B_pos. unfold alloc_partial, partial_ok.
  rewrite !MOD_LOG2_mod by apply (g_lg _ G). fold B.
  destruct (negb (offset mod B =? 0) || negb (len mod B =? 0)) eqn:E.
  - destruct (alloc_align_granted h TEGRABL_HEAP_DMA 8 B r)
      as (p & h' & Ea & Hp & Hp8 & Hlive & _ & Hroom' & _); [done|lia|lia|done|lia|].
    cbn [heap put]. unfold TEGRABL_BLOCKDEV_MEM_ALIGN_SIZE. rewrite Ea.
    exists true, p, h'. rewrite set_heap_put. repeat split; auto; try lia.
  - exists false, NULL, h. zbool. split; [reflexivity|].
    split; [split; [split; [done|]|done]; lia|]. split; [|done].
    eapply heap_room_weaken; eauto. unfold alloc_cost. lia.
Qed.

(** Both bounce buffers are released at the label [fail]. *)
Lemma dealloc_dma_ok x h p r :
  (p <> NULL -> heap_live h p) -> heap_room h r ->
  exists h', dealloc_dma (put w dev d x h) p = Ok (put w dev d x h') /\
    heap_room h' r /\ (forall q, q <> p -> heap_live h q -> heap_live h' q).
Proof.
  intros Hp Hr. unfold dealloc_dma. destruct (Z.eqb_spec p NULL) as [E|E].
  - exists h. auto.
  - destruct (dealloc_accepted h TEGRABL_HEAP_DMA p r (Hp E) Hr) as (h' & Ed & Hr' & Hl).
    cbn [heap put]. rewrite Ed. exists h'. cbn [res_bind]. rewrite set_heap_put. auto.
Qed.

Lemma default_read_ok x h r :
  media d x -> heap_room h r -> alloc_cost 8 B + alloc_cost 8 len <= r ->
  exists x' h',
    tegrabl_blockdev_default_read (put w dev d x h) dev buffer offset len =
      Ok (TEGRABL_NO_ERROR, slice offset len (drv_bytes x), put w dev d x' h') /\
    media d x' /\ drv_bytes x' = drv_bytes x /\
    heap_room h' (r - alloc_cost 8 B - alloc_cost 8 len).
Proof.
  intros M Hroom Hcost. pose proof B_pos as HB.
  assert (Hq : u32 (DIV_FLOOR_LOG2 offset (bd_block_size_log2 d)) = offset / B).
  { rewrite DIV_FLOOR_LOG2_div by apply (g_lg _ G). fold B. apply u32_small.
    pose proof first_block_bounds. pose proof (g_count _ G). lia. }
  unfold tegrabl_blockdev_default_read. unfold NULL at 1 2.
  destruct (Z.eqb_spec dev 0); [lia|]. destruct (Z.eqb_spec buffer 0); [lia|].
  simpl orb. cbv iota. rewrite get_dev_put. cbn [res_bind].
  change (TEGRABL_BLOCKDEV_BLOCK_SIZE (set_priv d x)) with (TEGRABL_BLOCKDEV_BLOCK_SIZE d).
  rewrite (geom_bsz d G). fold B. cbn [set_priv bd_block_size_log2].
  destruct (alloc_partial_ok x h r) as (needed & partial & h1 & -> & Hp & Hr1 & Hl1);
    [done|unfold alloc_cost in *; lia|].
  replace (needed && (partial =? NULL)) with false by
    (destruct Hp as [_ Hp], needed; [|done]; symmetry; apply Z.eqb_neq; unfold NULL; lia).
  unfold read_stages.
  change (TEGRABL_BLOCKDEV_BLOCK_SIZE (set_priv d x)) with (TEGRABL_BLOCKDEV_BLOCK_SIZE d).
  rewrite (geom_bsz d G). fold B. cbn [set_priv bd_block_size_log2]. rewrite Hq.
  destruct (read_first_ok x h1 partial M (partial_ok_first _ _ Hp))
    as (n1 & x1 & c1 & -> & M1 & Hb1 & R1). cbn [res_bind].
  change (negb (TEGRABL_NO_ERROR =? TEGRABL_NO_ERROR)) with false. cbv iota.
  rewrite <- Hb1 in R1.
  destruct (read_middle_ok x1 h1 n1 c1 (r - alloc_cost 8 B) M1 R1 Hr1)
    as (n2 & x2 & c2 & temp & h2 & E2 & M2 & Hb2 & R2 & Hrest & Hkeep & Hr2 & Ht);
    [unfold alloc_cost in *; lia|].
  change (read_middle (put w dev d x1 h1) dev (set_priv d x))
    with (read_middle (put w dev d x1 h1) dev d).
  rewrite E2. cbn [res_bind].
  change (negb (TEGRABL_NO_ERROR =? TEGRABL_NO_ERROR)) with false. cbv iota.
  rewrite <- Hb2 in R2.
  destruct (read_last_ok x2 h2 n2 c2 partial M2 R2 Hrest) as (x3 & c3 & -> & M3 & Hb3 & Hd3).
  { intros Hn. destruct R2 as (_&_&_&_&_&Hpos).
    apply (partial_ok_last _ _ (cu_block c2) n2 Hp Hn Hrest). apply Hpos, Hn. }
  cbn [res_bind].
  destruct (dealloc_dma_ok x3 h2 partial (r - alloc_cost 8 B - alloc_cost 8 len))
    as (h3 & -> & Hr3 & Hl3); [auto|done|]. cbn [res_bind].
  destruct (dealloc_dma_ok x3 h3 temp (r - alloc_cost 8 B - alloc_cost 8 len))
    as (h4 & -> & Hr4 & _); [|done|].
  { intros Hne. destruct Ht as [?|(_ & Htl & Htf)]; [contradiction|].
    apply Hl3; [|done]. intros ->. apply Htf, Hl1. done. }
  exists x3, h4. cbn [res_bind]. rewrite Hd3, Hb2, Hb1.
  split; [reflexivity|]. split; [done|]. split; [congruence|done].
Qed.
(** ** Writing a byte range

    After [n] bytes of [data] have been written the medium holds them at
    [offset] and nothing else has changed. *)

Section WriteData.
Variables (data bytes : list Z).
Hypotheses (Hdata : zlen data = len) (Hbytes : zlen bytes = bd_size d).

Definition write_at (n : Z) (c : cursor) (x : D) : Prop :=
  0 <= n <= len /\ cu_buf c = buffer + n /\ cu_len c = len - n /\
  cu_data c = drop (Z.to_nat n) data /\ 0 <= cu_block c /\
  (n < len -> cu_block c * B = offset + n) /\
  media d x /\ drv_bytes x = splice offset (slice 0 n data) bytes.

Lemma write_first_ok x h partial :
  media d x -> drv_bytes x = bytes ->
  (offset mod B <> 0 -> 0 < partial /\ partial mod 8 = 0) ->
  exists n x' c, write_first (put w dev d x h) dev partial offset
      (bd_block_size_log2 d) B (mkCursor buffer len (offset / B) data) =
      Ok (TEGRABL_NO_ERROR, c, put w dev d x' h) /\ write_at n c x'.
Proof.
  intros M Hx Hp. pose proof first_block_bounds as (Hdm & Hq & Hqc & Hm).
  pose proof B_pos as HB. pose proof (pow2_lt_32 _ (g_lg _ G)) as HB31. fold B in HB31.
  pose proof (geom_size_bound _ G) as Hs. pose proof (g_count _ G) as Hc.
  pose proof (g_size _ G) as Hsz. fold B in Hsz.
  unfold write_first. rewrite MOD_LOG2_mod by apply (g_lg _ G). fold B.
  destruct (Z.eqb_spec (offset mod B) 0) as [E|E].
  - exists 0, x, (mkCursor buffer len (offset / B) data). split; [reflexivity|].
    unfold write_at; cbn [cu_buf cu_len cu_data cu_block].
    rewrite slice_nil, splice_nil, drop_0. repeat split; try lia; try apply M. exact Hx.
  - destruct (Hp E) as [Hp0 Hp8]. cbn [cu_block cu_len cu_buf cu_data].
    destruct (read_block_ok w dev d x h partial (offset / B) 1) as (x1 & -> & M1 & Hb1);
      [done..|apply aligned8; auto; lia|lia|lia|lia|]. fold B.
    cbn [res_bind]. change (negb (TEGRABL_NO_ERROR =? TEGRABL_NO_ERROR)) with false.
    cbv iota. rewrite (u64_small (B - offset mod B)) by lia.
    set (t := Z.min (B - offset mod B) len). rewrite Z.mul_1_l.
    pose proof (slice_length 0 t data ltac:(lia) ltac:(lia) ltac:(lia)) as Hst.
    pose proof (slice_length (offset / B * B) B (drv_bytes x) ltac:(nia) ltac:(lia)
      ltac:(rewrite Hx; nia)) as Hsb.
    set (patched := splice (offset mod B) (slice 0 t data)
                           (slice (offset / B * B) B (drv_bytes x))).
    assert (Hpl : zlen patched = B) by (unfold patched; rewrite splice_length; lia).
    destruct (write_block_ok w dev d x1 h partial patched (offset / B) 1)
      as (x2 & -> & M2 & Hb2); [done..|apply aligned8; auto; lia|lia|lia|lia|fold B; lia|].
    fold B in Hb2. cbn [res_bind].
    rewrite (u64_small (len - t)) by lia. rewrite u32_small by lia.
    eexists t, x2, _. split; [reflexivity|].
    unfold write_at; cbn [cu_buf cu_len cu_data cu_block]. fold B.
    split; [lia|]. split; [lia|]. split; [lia|]. split; [reflexivity|]. split; [lia|].
    split; [nia|]. split; [done|].
    rewrite Hb2, Hb1. unfold patched. rewrite Hx in *. rewrite splice_patch by nia.
    f_equal. lia.
Qed.

Lemma write_middle_ok x h n c r :
  write_at n c x -> heap_room h r -> alloc_cost 8 len <= r ->
  exists n' x' c' temp h', write_middle (put w dev d x h) dev d
      (bd_block_size_log2 d) B c = Ok (TEGRABL_NO_ERROR, c', temp, put w dev d x' h') /\
    write_at n' c' x' /\ len - n' < B /\
    (forall q, heap_live h q -> heap_live h' q) /\
    heap_room h' (r - alloc_cost 8 len) /\
    (temp = NULL \/ (0 < temp /\ heap_live h' temp /\ ~ heap_live h temp)).
Proof.
  intros R Hroom Hcost. pose proof B_pos as HB.
  pose proof R as (Hn & Hb & Hl & Hd & Hk & Hpos & M & Hx).
  pose proof (pow2_lt_32 _ (g_lg _ G)) as HB31. fold B in HB31.
  pose proof (geom_size_bound _ G) as Hs. pose proof (g_count _ G) as Hc.
  unfold write_middle. rewrite shiftl_1_pow by apply (g_lg _ G). fold B.
  rewrite (u32_small B) by lia. rewrite Hl.
  destruct (Z.ltb_spec (len - n) B) as [Hsmall|Hbig].
  { exists n, x, c, NULL, h. split; [reflexivity|]. split; [exact R|].
    split; [lia|]. split; [auto|].
    split; [|auto]. eapply heap_room_weaken; eauto. unfold alloc_cost. lia. }
  clear R. specialize (Hpos ltac:(lia)).
  rewrite DIV_FLOOR_LOG2_div by apply (g_lg _ G). fold B.
  rewrite Z.shiftl_mul_pow2 by apply (g_lg _ G). fold B.
  set (k := (len - n) / B). pose proof (Z.div_mod (len - n) B ltac:(lia)) as Hdm. fold k in Hdm.
  pose proof (Z.mod_pos_bound (len - n) B ltac:(lia)) as Hmb.
  assert (Hkpos : 0 < k) by nia. assert (Hkb : k * B <= len - n) by nia.
  assert (Hkc : cu_block c + k <= bd_block_count d)
    by (pose proof (g_size _ G) as Hsz; fold B in Hsz; nia).
  rewrite (u64_small (k * B)) by nia. rewrite (u32_small k) by lia.
  rewrite (u32_small (cu_block c + k)) by lia. rewrite (u64_small (len - n - k * B)) by lia.
  destruct (Z.ltb_spec (len - n) (k * B)); [lia|].
  rewrite Hd, slice_drop.
  pose proof (slice_length n (k * B) data ltac:(lia) ltac:(lia) ltac:(lia)) as Hsl.
  assert (Hfin : forall x1, media d x1 ->
    drv_bytes x1 = splice (cu_block c * B) (slice n (k * B) data) (drv_bytes x) ->
    write_at (n + k * B)
      (mkCursor (cu_buf c + k * B) (len - n - k * B) (cu_block c + k)
         (drop (Z.to_nat (k * B)) (drop (Z.to_nat n) data))) x1).
  { intros x1 M1 Hx1. unfold write_at; cbn [cu_buf cu_len cu_data cu_block].
    rewrite drop_drop_Z by lia. repeat split; try lia; try apply M1.
    rewrite Hx1, Hx, Hpos. apply splice_extend; lia. }
  destruct (tegrabl_blockdev_buffer_aligned d (cu_buf c)) eqn:Hal; cbn [negb andb].
  - destruct (write_block_ok w dev d x h (cu_buf c) (slice n (k * B) data) (cu_block c) k)
      as (x' & -> & M' & Hb'); [auto; lia..|]. fold B in Hb'. cbn [res_bind].
    change (negb (TEGRABL_NO_ERROR =? TEGRABL_NO_ERROR)) with false. cbv iota.
    eexists (n + k * B), x', _, NULL, h. split; [reflexivity|].
    split; [by apply Hfin|]. split; [lia|]. split; [auto|]. split; [|auto].
    eapply heap_room_weaken; eauto. unfold alloc_cost. lia.
  - destruct (alloc_align_granted h TEGRABL_HEAP_DMA 8 (k * B) r)
      as (p & h' & E & Hp & Hp8 & Hlive & Hfresh & Hroom' & Hkeep);
      [done|nia|lia|done|unfold alloc_cost in *; lia|].
    cbn [heap put]. unfold TEGRABL_BLOCKDEV_MEM_ALIGN_SIZE.
    rewrite E. unfold NULL. destruct (Z.eqb_spec p 0); [lia|]. cbn [andb]. rewrite set_heap_put.
    destruct (write_block_ok w dev d x h' p (slice n (k * B) data) (cu_block c) k)
      as (x' & -> & M' & Hb'); [auto; try lia..|]; [apply aligned8; auto; lia|].
    fold B in Hb'. cbn [res_bind].
    change (negb (TEGRABL_NO_ERROR =? TEGRABL_NO_ERROR)) with false. cbv iota.
    eexists (n + k * B), x', _, p, h'. split; [reflexivity|].
    split; [by apply Hfin|]. split; [lia|]. split; [auto|]. split; [|right; auto with lia].
    eapply heap_room_weaken; eauto. unfold alloc_cost. lia.
Qed.

Lemma write_last_ok x h n c partial :
  write_at n c x -> len - n < B -> (n < len -> 0 < partial /\ partial mod 8 = 0) ->
  exists x', write_last (put w dev d x h) dev partial c =
      Ok (TEGRABL_NO_ERROR, put w dev d x' h) /\
    media d x' /\ drv_bytes x' = splice offset data bytes.
Proof.
  intros (Hn & Hb & Hl & Hd & Hk & Hpos & M & Hx) Hrest Hp. pose proof B_pos as HB.
  pose proof (g_size _ G) as Hsz. fold B in Hsz.
  pose proof (proj2 M) as Hxl. revert Hx. unfold write_last. rewrite Hl.
  destruct (Z.ltb_spec 0 (len - n)) as [Hlt|Hge]; cbn [negb].
  - specialize (Hpos ltac:(lia)). destruct (Hp ltac:(lia)) as [Hp0 Hp8].
    assert (Hblk : cu_block c + 1 <= bd_block_count d)
      by (apply (block_lt_count _ (len - n)); lia).
    destruct (read_block_ok w dev d x h partial (cu_block c) 1) as (x1 & -> & M1 & Hb1);
      [auto; try lia..|]; [apply aligned8; auto; lia|]. fold B. rewrite Z.mul_1_l.
    cbn [res_bind]. change (negb (TEGRABL_NO_ERROR =? TEGRABL_NO_ERROR)) with false. cbv iota.
    rewrite Hd, slice_drop.
    assert (Hfit : cu_block c * B + B <= bd_size d).
    { rewrite Hsz, <- Z.mul_succ_l. apply Z.mul_le_mono_nonneg_r; lia. }
    pose proof (slice_length n (len - n) data ltac:(lia) ltac:(lia) ltac:(lia)) as Hst.
    pose proof (slice_length (cu_block c * B) B (drv_bytes x) ltac:(nia) ltac:(lia)
      ltac:(rewrite Hxl; exact Hfit)) as Hsb.
    set (patched := splice 0 (slice n (len - n) data)
                           (slice (cu_block c * B) B (drv_bytes x))).
    assert (Hpl : zlen patched = B) by (unfold patched; rewrite splice_length; lia).
    destruct (write_block_ok w dev d x1 h partial patched (cu_block c) 1)
      as (x2 & -> & M2 & Hb2); [done..|apply aligned8; auto; lia|lia|lia|lia|fold B; lia|].
    fold B in Hb2. cbn [res_bind].
    change (negb (TEGRABL_NO_ERROR =? TEGRABL_NO_ERROR)) with false. cbv iota.
    intros Hx. exists x2. split; [reflexivity|]. split; [done|].
    rewrite Hb2, Hb1. unfold patched. rewrite splice_patch by lia.
    rewrite Z.add_0_r, Hx, Hpos, splice_extend by lia.
    replace (n + (len - n)) with (zlen data) by lia. by rewrite slice_all.
  - intros Hx. exists x. split; [reflexivity|]. split; [done|].
    rewrite Hx. replace n with (zlen data) by lia. by rewrite slice_all.
Qed.

Lemma default_write_ok x h r :
  media d x -> drv_bytes x = bytes -> heap_room h r ->
  alloc_cost 8 B + alloc_cost 8 len <= r ->
  exists x' h',
    tegrabl_blockdev_default_write (put w dev d x h) dev buffer data offset len =
      Ok (TEGRABL_NO_ERROR, put w dev d x' h') /\
    media d x' /\ drv_bytes x' = splice offset data bytes /\
    heap_room h' (r - alloc_cost 8 B - alloc_cost 8 len).
Proof.
  intros M Hx Hroom Hcost. pose proof B_pos as HB.
  assert (Hq : u32 (DIV_FLOOR_LOG2 offset (bd_block_size_log2 d)) = offset / B).
  { rewrite DIV_FLOOR_LOG2_div by apply (g_lg _ G). fold B. apply u32_small.
    pose proof first_block_bounds. pose proof (g_count _ G). lia. }
  unfold tegrabl_blockdev_default_write. unfold NULL at 1 2.
  destruct (Z.eqb_spec dev 0); [lia|]. destruct (Z.eqb_spec buffer 0); [lia|].
  simpl orb. cbv iota. rewrite get_dev_put. cbn [res_bind].
  change (TEGRABL_BLOCKDEV_BLOCK_SIZE (set_priv d x)) with (TEGRABL_BLOCKDEV_BLOCK_SIZE d).
  rewrite (geom_bsz d G). fold B. cbn [set_priv bd_block_size_log2].
  destruct (alloc_partial_ok x h r) as (needed & partial & h1 & -> & Hp & Hr1 & Hl1);
    [done|unfold alloc_cost in *; lia|].
  replace (needed && (partial =? NULL)) with false by
    (destruct Hp as [_ Hp], needed; [|done]; symmetry; apply Z.eqb_neq; unfold NULL; lia).
  unfold write_stages.
  change (TEGRABL_BLOCKDEV_BLOCK_SIZE (set_priv d x)) with (TEGRABL_BLOCKDEV_BLOCK_SIZE d).
  rewrite (geom_bsz d G). fold B. cbn [set_priv bd_block_size_log2]. rewrite Hq.
  destruct (write_first_ok x h1 partial M Hx (partial_ok_first _ _ Hp))
    as (n1 & x1 & c1 & -> & R1). cbn [res_bind].
  change (negb (TEGRABL_NO_ERROR =? TEGRABL_NO_ERROR)) with false. cbv iota.
  destruct (write_middle_ok x1 h1 n1 c1 (r - alloc_cost 8 B) R1 Hr1)
    as (n2 & x2 & c2 & temp & h2 & E2 & R2 & Hrest & Hkeep & Hr2 & Ht);
    [unfold alloc_cost in *; lia|].
  change (write_middle (put w dev d x1 h1) dev (set_priv d x))
    with (write_middle (put w dev d x1 h1) dev d).
  rewrite E2. cbn [res_bind].
  change (negb (TEGRABL_NO_ERROR =? TEGRABL_NO_ERROR)) with false. cbv iota.
  destruct (write_last_ok x2 h2 n2 c2 partial R2 Hrest) as (x3 & -> & M3 & Hb3).
  { intros Hn. destruct R2 as (_&_&_&_&_&Hpos&_&_).
    apply (partial_ok_last _ _ (cu_block c2) n2 Hp Hn Hrest). apply Hpos, Hn. }
  cbn [res_bind].
  destruct (dealloc_dma_ok x3 h2 temp (r - alloc_cost 8 B - alloc_cost 8 len))
    as (h3 & -> & Hr3 & Hl3); [|done|]. { intros. destruct Ht as [?|[_ [? _]]]; done. }
  cbn [res_bind].
  destruct (dealloc_dma_ok x3 h3 partial (r - alloc_cost 8 B - alloc_cost 8 len))
    as (h4 & -> & Hr4 & _); [|done|].
  { intros Hne. apply Hl3; [|auto]. intros ->.
    destruct Ht as [?|(_ & _ & Htf)]; [contradiction|]. apply Htf, Hl1. done. }
  exists x3, h4. cbn [res_bind]. split; [reflexivity|]. auto.
Qed.
End WriteData.
End Range.

End Facts.
