(* ===== verification/Models.v ===== *)
(** Concrete instances of the interfaces: a RAM disk, a read-only disk and an
    arena allocator.  They show that the promises of [BlockDriver] and
    [Allocator] can be met, and let the model be evaluated on concrete
    inputs. *)

From S2P Require Import Prelude TegraError BlockDev BlockDevFacts.

(** ** A medium in memory *)

Record ramdisk := mkRam { rd_lg : Z; rd_bytes : list Z }.

#[export] Instance ramdisk_driver : BlockDriver ramdisk := {
  drv_read_block x blk cnt :=
    if (0 <=? blk) && ((blk + cnt) * 2 ^ rd_lg x <=? zlen (rd_bytes x))
    then (TEGRABL_NO_ERROR, slice (blk * 2 ^ rd_lg x) (cnt * 2 ^ rd_lg x) (rd_bytes x), x)
    else (ERR TEGRABL_ERR_OVERFLOW 99, [], x);
  drv_write_block x bs blk cnt :=
    if (0 <=? blk) && ((blk + cnt) * 2 ^ rd_lg x <=? zlen (rd_bytes x))
    then (TEGRABL_NO_ERROR, mkRam (rd_lg x) (splice (blk * 2 ^ rd_lg x) bs (rd_bytes x)))
    else (ERR TEGRABL_ERR_OVERFLOW 99, x);
  drv_erase x blk cnt _ :=
    (TEGRABL_NO_ERROR,
     mkRam (rd_lg x) (splice (blk * 2 ^ rd_lg x)
       (replicate (Z.to_nat (cnt * 2 ^ rd_lg x)) 255) (rd_bytes x)));
  drv_xfer x _ := (TEGRABL_NO_ERROR, x);
  drv_xfer_wait x _ _ := (TEGRABL_NO_ERROR, 2, x);
  drv_ioctl x _ _ := (TEGRABL_NO_ERROR, x);
  drv_close x := (TEGRABL_NO_ERROR, x)
}.

#[export, refine] Instance ramdisk_reliable : ReliableDriver ramdisk := {
  drv_bytes := rd_bytes;
  drv_ready x lg := rd_lg x = lg
}.
Proof.
  - intros x lg blk cnt <- Hb Hc Hl. exists x. simpl.
    destruct (Z.leb_spec 0 blk); [|lia]. destruct (Z.leb_spec ((blk + cnt) * 2 ^ rd_lg x)
      (zlen (rd_bytes x))); [done|lia].
  - intros x lg blk cnt bs <- Hb Hc Hz Hl. simpl.
    destruct (Z.leb_spec 0 blk); [|lia]. destruct (Z.leb_spec ((blk + cnt) * 2 ^ rd_lg x)
      (zlen (rd_bytes x))); [|lia]. eexists. split; [reflexivity|]. done.
Defined.

(** ** A medium that refuses every write *)

Record romdisk := mkRom { ro_lg : Z; ro_bytes : list Z }.

#[export] Instance romdisk_driver : BlockDriver romdisk := {
  drv_read_block x blk cnt :=
    (TEGRABL_NO_ERROR, slice (blk * 2 ^ ro_lg x) (cnt * 2 ^ ro_lg x) (ro_bytes x), x);
  drv_write_block x _ _ _ := (ERR TEGRABL_ERR_NOT_SUPPORTED 77, x);
  drv_erase x _ _ _ := (ERR TEGRABL_ERR_NOT_SUPPORTED 77, x);
  drv_xfer x _ := (ERR TEGRABL_ERR_NOT_SUPPORTED 77, x);
  drv_xfer_wait x _ _ := (ERR TEGRABL_ERR_NOT_SUPPORTED 77, 3, x);
  drv_ioctl x _ _ := (ERR TEGRABL_ERR_NOT_SUPPORTED 77, x);
  drv_close x := (TEGRABL_NO_ERROR, x)
}.

(** ** An arena allocator: hands out fresh addresses, never reuses them *)

Record arena := mkArena { ar_next : Z; ar_limit : Z; ar_live : gset Z }.

Definition arena_alloc (h : arena) (al sz : Z) : Z * arena :=
  let p := (ar_next h + al) / al * al in
  if (0 <? ar_next h) && (p + sz <=? ar_limit h)
  then (p, mkArena (p + sz) (ar_limit h) ({[p]} ∪ ar_live h))
  else (NULL, h).

#[export] Instance arena_allocator : Allocator arena := {
  heap_malloc h sz := arena_alloc h 8 sz;
  heap_alloc_align h _ al sz := arena_alloc h al sz;
  heap_dealloc h _ p :=
    if decide (p ∈ ar_live h)
    then Ok (mkArena (ar_next h) (ar_limit h) (ar_live h ∖ {[p]}))
    else Stuck HeapCorrupt
}.

Definition arena_room (h : arena) (n : Z) : Prop :=
  0 < ar_next h /\ ar_next h + n <= ar_limit h /\ ar_limit h < 2 ^ 63 /\
  (forall q, q ∈ ar_live h -> q < ar_next h).

Lemma arena_room_test h n :
  (0 <? ar_next h) && (ar_next h + n <=? ar_limit h) && (ar_limit h <? 2 ^ 63) &&
  bool_decide (set_Forall (fun q => q < ar_next h) (ar_live h)) = true ->
  arena_room h n.
Proof.
  intros T. zbool. apply bool_decide_eq_true in H0. repeat split; auto; lia.
Qed.

Lemma arena_alloc_granted h al sz n :
  arena_room h n -> 0 < sz -> 0 < al -> alloc_cost al sz <= n ->
  exists p h', arena_alloc h al sz = (p, h') /\ 0 < p < 2 ^ 63 /\
    p mod al = 0 /\ p ∈ ar_live h' /\ p ∉ ar_live h /\
    arena_room h' (n - alloc_cost al sz) /\
    (forall q, q ∈ ar_live h -> q ∈ ar_live h').
Proof.
  intros (H0 & H1 & H2 & H3) Hs Ha Hc. unfold arena_alloc, alloc_cost in *.
  set (p := (ar_next h + al) / al * al).
  pose proof (Z.div_mod (ar_next h + al) al ltac:(lia)) as E.
  pose proof (Z.mod_pos_bound (ar_next h + al) al ltac:(lia)).
  assert (ar_next h < p <= ar_next h + al) by (unfold p; lia).
  destruct (Z.ltb_spec 0 (ar_next h)); [|lia].
  destruct (Z.leb_spec (p + sz) (ar_limit h)); [|lia]. simpl andb. cbv iota.
  eexists p, _. split; [reflexivity|]. cbn. split; [lia|].
  split; [apply Z.mod_mul; lia|]. split; [set_solver|].
  split; [intros Hin; apply H3 in Hin; lia|]. split; [|set_solver].
  repeat split; cbn; try lia. intros q Hq. apply elem_of_union in Hq as [Hq|Hq].
  - apply elem_of_singleton in Hq. lia.
  - apply H3 in Hq. lia.
Qed.

#[export, refine] Instance arena_laws : AllocatorLaws arena := {
  heap_room := arena_room;
  heap_live h p := p ∈ ar_live h
}.
Proof.
  - unfold arena_room. intros. naive_solver lia.
  - intros. by apply arena_alloc_granted.
  - intros. apply (arena_alloc_granted _ 8); auto. lia.
  - intros h ht p n Hp (H0 & H1 & H2 & H3). simpl. rewrite decide_True by done.
    eexists. split; [reflexivity|]. split.
    + repeat split; cbn; auto. intros q Hq. apply H3. set_solver.
    + cbn. set_solver.
Defined.

(** ** A small system: one 16-block device with 8-byte blocks *)

Definition demo_bytes : list Z := (fun i => i mod 251) <$> seqZ 0 128.

Definition demo_dev {D} (x : D) : bdev D :=
  mkBdev 1 (TEGRABL_BLOCK_DEVICE_ID 1 3) 128 3 16 true 4 x
    HookDriver HookDriver HookDriver HookDriver HookDriver HookDriver HookNull.

Definition demo_heap : arena := mkArena 0x1000 0x100000 ∅.

Definition demo_world {D} (x : D) : world D arena :=
  mkWorld (Some [0x100]) {[ 0x100 := demo_dev x ]} 0 demo_heap.

Definition demo_ram : world ramdisk arena := demo_world (mkRam 3 demo_bytes).

Definition demo_rom : world romdisk arena := demo_world (mkRom 3 demo_bytes).

Lemma demo_geom : geom (demo_dev (mkRam 3 demo_bytes)).
Proof. split; cbn; try lia; auto. Qed.

Lemma demo_media : media (demo_dev (mkRam 3 demo_bytes)) (mkRam 3 demo_bytes).
Proof. split; reflexivity. Qed.

Lemma demo_room : heap_room demo_heap 0x80000.
Proof. apply arena_room_test. vm_compute. reflexivity. Qed.
