(* ===== verification/BlockDevProps.v ===== *)
(** What the block device layer promises to its callers: exact byte ranges, a
    round trip through the medium, rejection of ranges outside the device, and
    the behaviours at the edges of the checks. *)

From S2P Require Import Prelude TegraError BlockDev BlockDevFacts Models.

Section Props.
Context {D H : Type} `{BlockDriver D, !ReliableDriver D} `{Allocator H, !AllocatorLaws H}.
Implicit Types (w : world D H) (d : bdev D).

(** A usable device at address [dev], with heap for the bounce buffers of a
    transfer of [len] bytes. *)
Record ready w (dev : Z) d (buf offset len r : Z) : Prop := {
  rd_dev : devs w !! dev = Some d;
  rd_addr : 0 < dev;
  rd_geom : geom d;
  rd_media : media d (bd_priv d);
  rd_buf : 0 < buf;
  rd_off : 0 <= offset;
  rd_len : 0 < len;
  rd_end : offset + len <= bd_size d;
  rd_room : heap_room (heap w) r;
  rd_cost : alloc_cost 8 (2 ^ bd_block_size_log2 d) + alloc_cost 8 len <= r
}.

Lemma range_test d offset len :
  geom d -> 0 <= offset -> 0 < len -> offset + len <= bd_size d ->
  (bd_size d <=? offset) || (bd_size d <? u64 (offset + len)) = false.
Proof.
  intros G. pose proof (geom_size_bound _ G). intros.
  rewrite u64_small by lia. apply orb_false_iff. split.
  - apply Z.leb_gt. lia.
  - apply Z.ltb_ge. lia.
Qed.

Lemma blockdev_read_put w dev d buf offset len r :
  ready w dev d buf offset len r ->
  exists x' h', tegrabl_blockdev_read w dev buf offset len =
      Ok (TEGRABL_NO_ERROR, slice offset len (drv_bytes (bd_priv d)), put w dev d x' h') /\
    media d x' /\ drv_bytes x' = drv_bytes (bd_priv d) /\
    heap_room h' (r - alloc_cost 8 (2 ^ bd_block_size_log2 d) - alloc_cost 8 len).
Proof.
  intros [Hd Ha G M Hb Ho Hl He Hr Hc].
  destruct (default_read_ok w dev d buf offset len G Ha Hb Ho Hl He (bd_priv d) (heap w) r)
    as (x' & h' & E & R); [done..|].
  exists x', h'. split; [|exact R]. rewrite put_id in E by done.
  unfold tegrabl_blockdev_read, NULL, get_dev.
  destruct (Z.eqb_spec dev 0); [lia|]. destruct (Z.eqb_spec len 0); [lia|].
  simpl orb. cbv iota. rewrite Hd. cbn [res_bind].
  pose proof (g_ref _ G). destruct (Z.leb_spec (bd_ref d) 0); [lia|].
  rewrite range_test by done. rewrite E. reflexivity.
Qed.

Lemma blockdev_write_put w dev d buf data offset len r :
  ready w dev d buf offset len r -> zlen data = len ->
  exists x' h', tegrabl_blockdev_write w dev buf data offset len =
      Ok (TEGRABL_NO_ERROR, put w dev d x' h') /\
    media d x' /\ drv_bytes x' = splice offset data (drv_bytes (bd_priv d)) /\
    heap_room h' (r - alloc_cost 8 (2 ^ bd_block_size_log2 d) - alloc_cost 8 len).
Proof.
  intros [Hd Ha G M Hb Ho Hl He Hr Hc] Hz.
  destruct (default_write_ok w dev d buf offset len G Ha Hb Ho Hl He data
    (drv_bytes (bd_priv d)) Hz (proj2 M) (bd_priv d) (heap w) r)
    as (x' & h' & E & R); [done..|].
  exists x', h'. split; [|exact R]. rewrite put_id in E by done.
  unfold tegrabl_blockdev_write, NULL, get_dev.
  destruct (Z.eqb_spec dev 0); [lia|]. destruct (Z.eqb_spec len 0); [lia|].
  simpl orb. cbv iota. rewrite Hd. cbn [res_bind].
  pose proof (g_ref _ G). destruct (Z.leb_spec (bd_ref d) 0); [lia|].
  rewrite range_test by done. rewrite E. reflexivity.
Qed.

Lemma put_lookup w dev d x h : devs (put w dev d x h) !! dev = Some (set_priv d x).
Proof. apply lookup_insert_eq. Qed.

(** A transfer leaves the device usable for the next one. *)
Lemma ready_put w dev d buf offset len r x h o n b r' :
  ready w dev d buf offset len r -> media d x ->
  heap_room h r' -> 0 < b -> 0 <= o -> 0 < n -> o + n <= bd_size d ->
  alloc_cost 8 (2 ^ bd_block_size_log2 d) + alloc_cost 8 n <= r' ->
  ready (put w dev d x h) dev (set_priv d x) b o n r'.
Proof.
  intros [Hd Ha G M Hb Ho Hl He Hr Hc] M' Hr' Hb' Ho' Hn' He' Hc'.
  split; try done; [apply put_lookup|]. by destruct G.
Qed.

(** Reading [len] bytes at any [offset] inside an open device returns no
    error and exactly those bytes of the medium, whatever the alignment of the
    offset, of the length and of the caller's buffer; the medium keeps its
    content. *)
Theorem blockdev_read_correct w dev d buf offset len r :
  ready w dev d buf offset len r ->
  exists w' d', tegrabl_blockdev_read w dev buf offset len =
      Ok (TEGRABL_NO_ERROR, slice offset len (drv_bytes (bd_priv d)), w') /\
    devs w' = <[dev := d']> (devs w) /\ bdevs w' = bdevs w /\
    media d' (bd_priv d') /\ drv_bytes (bd_priv d') = drv_bytes (bd_priv d).
Proof.
  intros R. destruct (blockdev_read_put _ _ _ _ _ _ _ R) as (x & h & E & M & Hx & _).
  exists (put w dev d x h), (set_priv d x). auto.
Qed.

(** C1: writing [data] at [offset] and then reading any range [o, o + n) of the
    device back gives the old content with [data] put in its place: the bytes
    written are the bytes read, and no byte outside the range changes. *)
Theorem blockdev_write_then_read w dev d buf data offset len r buf' o n :
  ready w dev d buf offset len r -> zlen data = len ->
  0 < buf' -> 0 <= o -> 0 < n -> o + n <= bd_size d ->
  2 * alloc_cost 8 (2 ^ bd_block_size_log2 d) + alloc_cost 8 len + alloc_cost 8 n <= r ->
  exists w1 w2, tegrabl_blockdev_write w dev buf data offset len =
      Ok (TEGRABL_NO_ERROR, w1) /\
    tegrabl_blockdev_read w1 dev buf' o n =
      Ok (TEGRABL_NO_ERROR, slice o n (splice offset data (drv_bytes (bd_priv d))), w2).
Proof.
  intros R Hz Hb Ho Hn He Hc.
  destruct (blockdev_write_put _ _ _ _ _ _ _ _ R Hz) as (x & h & E & M & Hx & Hr).
  destruct (blockdev_read_put (put w dev d x h) dev (set_priv d x) buf' o n _
    (ready_put _ _ _ _ _ _ _ _ _ o n buf' _ R M Hr Hb Ho Hn He ltac:(lia)))
    as (x2 & h2 & E2 & _).
  cbn [bd_priv set_priv] in E2. rewrite Hx in E2. eauto.
Qed.

(** A read or write whose range ends past the device, or starts at its end
    or later, is refused with [TEGRABL_ERR_OVERFLOW]; nothing is read or written
    and no state changes.  The end of the range must not exceed the 64 bits of
    [off_t]. *)
Theorem blockdev_range_rejected w dev d buf data offset len :
  devs w !! dev = Some d -> 0 < dev -> 0 < bd_ref d -> 0 <= offset -> 0 < len ->
  bd_size d < offset + len < 2 ^ 64 ->
  tegrabl_blockdev_read w dev buf offset len = Ok (ERR TEGRABL_ERR_OVERFLOW 0, [], w) /\
  tegrabl_blockdev_write w dev buf data offset len = Ok (ERR TEGRABL_ERR_OVERFLOW 2, w).
Proof.
  intros Hd Ha Hr Ho Hl Hs.
  unfold tegrabl_blockdev_read, tegrabl_blockdev_write, NULL, get_dev.
  destruct (Z.eqb_spec dev 0); [lia|]. destruct (Z.eqb_spec len 0); [lia|].
  simpl orb. cbv iota. rewrite Hd. cbn [res_bind].
  destruct (Z.leb_spec (bd_ref d) 0); [lia|].
  rewrite u64_small by lia.
  assert ((bd_size d <? offset + len) = true) as -> by (apply Z.ltb_lt; lia).
  by rewrite orb_true_r.
Qed.

(** The range check of the block transfers adds in 32 bits, so a request
    whose end is exactly [2 ^ 32] blocks wraps to 0 and passes on every device:
    the driver is asked for [2 ^ 32 - block] blocks. *)
Theorem block_range_check_wraps w dev d buf block :
  devs w !! dev = Some d -> 0 < dev -> geom d -> 0 < buf ->
  tegrabl_blockdev_buffer_aligned d buf = true ->
  0 < block <= bd_block_count d ->
  tegrabl_blockdev_read_block w dev buf block (2 ^ 32 - block) =
    (let '(error, data, x) := drv_read_block (bd_priv d) block (2 ^ 32 - block) in
     Ok (if error =? TEGRABL_NO_ERROR then error else SET_HIGHEST error, data,
         set_dev w dev (set_priv d x))).
Proof.
  intros Hd Ha G Hb Hal Hblk. pose proof (g_count _ G). pose proof (g_ref _ G).
  unfold tegrabl_blockdev_read_block, NULL, get_dev.
  destruct (Z.eqb_spec dev 0); [lia|]. destruct (Z.eqb_spec (2 ^ 32 - block) 0); [lia|].
  simpl orb. cbv iota. rewrite Hd. cbn [res_bind]. rewrite Hal. cbn [negb].
  destruct (Z.leb_spec (bd_ref d) 0); [lia|].
  replace (u32 (block + (2 ^ 32 - block))) with 0
    by (replace (block + (2 ^ 32 - block)) with (2 ^ 32) by lia; reflexivity).
  destruct (Z.ltb_spec (bd_block_count d) block); [lia|].
  destruct (Z.ltb_spec (bd_block_count d) 0); [lia|]. simpl orb. cbv iota.
  unfold call_read_block. rewrite (g_read _ G). unfold NULL.
  destruct (Z.eqb_spec buf 0); [lia|].
  destruct (drv_read_block (bd_priv d) block (2 ^ 32 - block)) as [[e bs] x].
  cbn [res_bind]. by destruct (e =? TEGRABL_NO_ERROR).
Qed.

End Props.

(** ** The statements at a concrete device *)

Lemma demo_ready : ready demo_ram 0x100 (demo_dev (mkRam 3 demo_bytes)) 0x203 5 29 0x80000.
Proof.
  split; [reflexivity|lia|apply demo_geom|apply demo_media|lia|lia|lia|cbn; lia
         |apply demo_room|vm_compute; discriminate].
Qed.

Lemma blockdev_read_correct_witness :
  exists w', tegrabl_blockdev_read demo_ram 0x100 0x203 5 29 =
    Ok (TEGRABL_NO_ERROR, seqZ 5 29, w').
Proof.
  destruct (blockdev_read_correct demo_ram 0x100 _ 0x203 5 29 _ demo_ready) as (w' & _ & E & _).
  exists w'. exact E.
Defined.

Lemma blockdev_write_then_read_witness :
  exists w1 w2, tegrabl_blockdev_write demo_ram 0x100 0x203 (replicate 29 9) 5 29 =
      Ok (TEGRABL_NO_ERROR, w1) /\
    tegrabl_blockdev_read w1 0x100 0x300 2 6 = Ok (TEGRABL_NO_ERROR, [2; 3; 4; 9; 9; 9], w2).
Proof.
  exact (blockdev_write_then_read demo_ram 0x100 _ 0x203 (replicate 29 9) 5 29 0x80000
    0x300 2 6 demo_ready eq_refl ltac:(lia) ltac:(lia) ltac:(lia) ltac:(cbn; lia)
    ltac:(vm_compute; discriminate)).
Defined.

Lemma blockdev_range_rejected_witness :
  tegrabl_blockdev_read demo_ram 0x100 0x200 120 9 = Ok (ERR TEGRABL_ERR_OVERFLOW 0, [], demo_ram) /\
  tegrabl_blockdev_write demo_ram 0x100 0x200 (replicate 9 1) 120 9 =
    Ok (ERR TEGRABL_ERR_OVERFLOW 2, demo_ram).
Proof.
  exact (blockdev_range_rejected demo_ram 0x100 (demo_dev (mkRam 3 demo_bytes)) 0x200
    (replicate 9 1) 120 9 eq_refl ltac:(lia) ltac:(cbn; lia) ltac:(lia) ltac:(lia)
    ltac:(cbn; lia)).
Defined.

Lemma block_range_check_wraps_witness :
  tegrabl_blockdev_read_block demo_ram 0x100 0x200 1 (2 ^ 32 - 1) =
    Ok (SET_HIGHEST (ERR TEGRABL_ERR_OVERFLOW 99), [], demo_ram).
Proof.
  etransitivity.
  - exact (block_range_check_wraps demo_ram 0x100 (demo_dev (mkRam 3 demo_bytes)) 0x200 1
      eq_refl ltac:(lia) demo_geom ltac:(lia) eq_refl ltac:(cbn; lia)).
  - vm_compute. reflexivity.
Defined.

(** ** A write failure that is not reported *)

(** On a device whose driver refuses every write, [tegrabl_blockdev_write] of
    a range inside one unaligned block returns [TEGRABL_NO_ERROR] although the
    medium is unchanged: the result of the first partial block's write is
    dropped.  The same write at an aligned offset reports the failure. *)
Theorem partial_write_error_dropped :
  (exists w', tegrabl_blockdev_write demo_rom 0x100 0x200 [1; 2; 3] 5 3 =
      Ok (TEGRABL_NO_ERROR, w') /\ devs w' = devs demo_rom) /\
  (exists e w', tegrabl_blockdev_write demo_rom 0x100 0x200 [1; 2; 3] 8 3 = Ok (e, w') /\
      e <> TEGRABL_NO_ERROR).
Proof.
  split.
  - eexists. split; [vm_compute; reflexivity|]. vm_compute. reflexivity.
  - eexists _, _. split; [vm_compute; reflexivity|]. vm_compute. discriminate.
Qed.
