(* ===== verification/BlockDevRegistry.v ===== *)
(** The device registry as a state machine: drivers register and unregister
    devices, clients open and close them.  The reference counts kept by the
    code are compared with the references that really exist. *)

From S2P Require Import Prelude TegraError BlockDev BlockDevFacts Models.

(** References held to [p] by the clients [hs] (one entry for each open). *)
Definition held (hs : list Z) (p : Z) : Z := zlen (filter (fun q => q = p) hs).

Fixpoint drop_handle (p : Z) (hs : list Z) : list Z :=
  match hs with
  | [] => []
  | q :: hs => if q =? p then hs else q :: drop_handle p hs
  end.

(** The reference the device list itself holds. *)
Definition list_ref (l : list Z) (p : Z) : Z := if bool_decide (p ∈ l) then 1 else 0.

(** [sizeof(tegrabl_bdev_t)], allocated by the drivers. *)
Definition sizeof_bdev : Z := 256.

Section Registry.
Context {D H : Type} `{BlockDriver D} `{Allocator H, !AllocatorLaws H}.
Implicit Types (w : world D H) (d : bdev D) (hs l : list Z).

(** What a driver's open routine does: allocate and initialise a device, install
    its hooks (leaving identity and reference count alone), register it. *)
Definition driver_register w (id lg count : Z) (x : D) (align : Z)
    (install : bdev D -> bdev D) : res (Z * Z * world D H) :=
  let '(dev, h) := heap_malloc (heap w) sizeof_bdev in
  let '(_, w) := tegrabl_blockdev_initialize_bdev (set_heap w h) dev id lg count x align in
  let* d := get_dev w dev in
  let w := set_dev w dev (install d) in
  let* (error, w) := tegrabl_blockdev_register_device w dev in
  Ok (error, dev, w).

(** One action of a driver or a client; [hs] are the references that are held. *)
Inductive reg_step : world D H * list Z -> world D H * list Z -> Prop :=
| step_open w hs st inst p w' :
    zlen hs < 2 ^ 31 ->
    tegrabl_blockdev_open w st inst = Ok (p, w') ->
    reg_step (w, hs) (w', if p =? NULL then hs else p :: hs)
| step_close w hs p e w' :
    p ∈ hs -> tegrabl_blockdev_close w p = Ok (e, w') ->
    reg_step (w, hs) (w', drop_handle p hs)
| step_register w hs id lg count x align install e p w' :
    zlen hs < 2 ^ 31 -> heap_room (heap w) (alloc_cost 8 sizeof_bdev) ->
    (forall d, bd_ref (install d) = bd_ref d /\ bd_device_id (install d) = bd_device_id d) ->
    driver_register w id lg count x align install = Ok (e, p, w') ->
    reg_step (w, hs) (w', if e =? TEGRABL_NO_ERROR then hs else p :: hs)
| step_unregister w hs l p e w' :
    bdevs w = Some l -> p ∈ l ->
    tegrabl_blockdev_unregister_device w p = Ok (e, w') ->
    reg_step (w, hs) (w', hs).

(** Every device in memory is counted exactly: one reference for each handle and
    one for being listed; handles and list entries point to devices in memory,
    which are live blocks of the heap; listed devices have distinct identities. *)
Record registry_ok w hs l : Prop := {
  ro_list : bdevs w = Some l;
  ro_nodup : NoDup l;
  ro_listed : forall p, p ∈ l -> is_Some (devs w !! p);
  ro_handles : forall p, p ∈ hs -> is_Some (devs w !! p);
  ro_dev : forall p d, devs w !! p = Some d ->
    0 < p /\ bd_ref d = held hs p + list_ref l p /\ 0 < bd_ref d /\ heap_live (heap w) p;
  ro_ids : forall p q d e, p ∈ l -> q ∈ l -> devs w !! p = Some d -> devs w !! q = Some e ->
    bd_device_id d = bd_device_id e -> p = q;
  ro_room : heap_room (heap w) 0;
  ro_count : zlen hs <= 2 ^ 31
}.

(** ** Counting handles *)

Lemma held_nonneg hs p : 0 <= held hs p <= zlen hs.
Proof.
  unfold held, zlen. pose proof (length_filter (fun q => q = p) hs). lia.
Qed.

Lemma held_cons q hs p : held (q :: hs) p = (if q =? p then 1 else 0) + held hs p.
Proof.
  unfold held. rewrite filter_cons. destruct (Z.eqb_spec q p) as [E|E].
  - rewrite decide_True by done. unfold zlen. simpl length. lia.
  - rewrite decide_False by done. lia.
Qed.

Lemma held_drop q hs p :
  q ∈ hs -> held (drop_handle q hs) p = held hs p - (if q =? p then 1 else 0).
Proof.
  induction hs as [|a hs IH]; intros Hin; [by apply not_elem_of_nil in Hin|].
  cbn [drop_handle]. rewrite (held_cons a).
  destruct (Z.eqb_spec a q) as [->|Hne]; [lia|].
  apply elem_of_cons in Hin as [?|Hin]; [congruence|].
  rewrite held_cons, IH by done. lia.
Qed.

Lemma held_pos hs p : p ∈ hs -> 0 < held hs p.
Proof.
  intros Hin. unfold held, zlen.
  destruct (filter (fun q => q = p) hs) eqn:E; [|simpl; lia].
  assert (p ∈ filter (fun q => q = p) hs) by (by apply list_elem_of_filter).
  rewrite E in *. set_solver.
Qed.

Lemma held_zero hs p : p ∉ hs -> held hs p = 0.
Proof.
  induction hs as [|q hs IH]; intros Hn; [done|]. rewrite held_cons, IH by set_solver.
  destruct (Z.eqb_spec q p); [set_solver|lia].
Qed.

Lemma drop_handle_subset q hs p : p ∈ drop_handle q hs -> p ∈ hs.
Proof.
  induction hs as [|a hs IH]; cbn [drop_handle]; [done|].
  destruct (a =? q); set_solver.
Qed.

Lemma drop_handle_length q hs : zlen (drop_handle q hs) <= zlen hs.
Proof.
  induction hs as [|a hs IH]; [done|]. cbn [drop_handle].
  destruct (a =? q); unfold zlen in *; simpl; lia.
Qed.

Lemma list_ref_range l p : 0 <= list_ref l p <= 1.
Proof. unfold list_ref. case_bool_decide; lia. Qed.

Lemma list_ref_in l p : p ∈ l -> list_ref l p = 1.
Proof. intros. unfold list_ref. by rewrite bool_decide_true. Qed.

Lemma list_ref_notin l p : p ∉ l -> list_ref l p = 0.
Proof. intros. unfold list_ref. by rewrite bool_decide_false. Qed.

Lemma list_ref_ext l l' p : (p ∈ l <-> p ∈ l') -> list_ref l p = list_ref l' p.
Proof. intros E. unfold list_ref. by rewrite (bool_decide_ext _ _ E). Qed.

(** ** Looking a device up *)

Lemma get_dev_Some w p d : devs w !! p = Some d -> get_dev w p = Ok d.
Proof. unfold get_dev. by intros ->. Qed.

Lemma open_walk_spec w k id :
  (forall p, p ∈ k -> exists d, devs w !! p = Some d /\ 0 < bd_ref d) ->
  exists r, open_walk w k id = Ok r /\
    match r with
    | Some p => p ∈ k /\ exists d, devs w !! p = Some d /\ bd_device_id d = id
    | None => forall p d, p ∈ k -> devs w !! p = Some d -> bd_device_id d <> id
    end.
Proof.
  induction k as [|p k IH]; intros Hl; cbn [open_walk].
  { exists None. split; [done|]. intros p d Hp. by apply not_elem_of_nil in Hp. }
  destruct (Hl p ltac:(set_solver)) as (d & Ed & Hpos).
  rewrite (get_dev_Some _ _ _ Ed). cbn [res_bind].
  destruct (Z.leb_spec (bd_ref d) 0); [lia|].
  destruct (Z.eqb_spec (bd_device_id d) id) as [Eid|Eid].
  { exists (Some p). split; [done|]. split; [set_solver|]. eauto. }
  destruct IH as (r & Er & Hr); [set_solver|]. exists r. split; [done|].
  destruct r as [q|].
  - destruct Hr. split; [set_solver|done].
  - intros q e Hq Ee. apply elem_of_cons in Hq as [->|Hq]; [congruence|eauto].
Qed.

Lemma registered_id_spec w l id :
  (forall p, p ∈ l -> is_Some (devs w !! p)) ->
  exists b, registered_id w l id = Ok b /\
    (b = false -> forall p d, p ∈ l -> devs w !! p = Some d -> bd_device_id d <> id).
Proof.
  induction l as [|p l IH]; intros Hl; cbn [registered_id].
  { exists false. split; [done|]. set_solver. }
  destruct (Hl p ltac:(set_solver)) as [d Ed]. rewrite (get_dev_Some _ _ _ Ed). cbn [res_bind].
  destruct (Z.eqb_spec (bd_device_id d) id) as [Eid|Eid].
  { exists true. done. }
  destruct IH as (b & Eb & Hb); [set_solver|]. exists b. split; [done|].
  intros -> q e Hq Ee. apply elem_of_cons in Hq as [->|Hq]; [congruence|].
  by eapply Hb.
Qed.

(** ** Every action keeps the invariant *)

(** The reference count of one device changes, and it may leave the list. *)
Lemma registry_set_ref w hs hs' l l' p d r :
  registry_ok w hs l -> devs w !! p = Some d ->
  r = held hs' p + list_ref l' p -> 0 < r ->
  NoDup l' -> (forall q, q ∈ l' -> q ∈ l) -> (forall q, q <> p -> q ∈ l -> q ∈ l') ->
  (forall q, q <> p -> held hs' q = held hs q) ->
  (forall q, q ∈ hs' -> q = p \/ q ∈ hs) -> zlen hs' <= 2 ^ 31 ->
  registry_ok (mkWorld (Some l') (<[p := set_ref d r]> (devs w)) (xfer_id w) (heap w)) hs' l'.
Proof.
  intros R Ed Er Hr Hnd Hl' Hl'2 Hheld Hsub Hlen.
  destruct (ro_dev _ _ _ R p d Ed) as (Hp0 & _ & _ & Hlive).
  split; cbn [bdevs devs heap]; try (apply R); try done.
  - intros q Hq. apply lookup_insert_is_Some'. right. by apply (ro_listed _ _ _ R), Hl'.
  - intros q Hq. apply lookup_insert_is_Some'.
    destruct (Hsub q Hq) as [?|?]; [by left|right]. by apply (ro_handles _ _ _ R).
  - intros q e Ee. apply lookup_insert_Some in Ee as [[<- <-]|[Hne Ee]]; [done|].
    rewrite Hheld, (list_ref_ext l' l) by (try split; auto). by apply (ro_dev _ _ _ R).
  - intros q q' e e' Hq Hq' Ee Ee'.
    apply lookup_insert_Some in Ee, Ee'.
    destruct Ee as [[<- <-]|[? Ee]], Ee' as [[<- <-]|[? Ee']]; cbn [set_ref bd_device_id];
      intros Eid; try done; eapply (ro_ids _ _ _ R); eauto.
Qed.

(** A device nobody refers to any more is given back to the heap. *)
Lemma registry_remove w hs hs' l l' p h :
  registry_ok w hs l -> heap_room h 0 ->
  (forall q, q <> p -> heap_live (heap w) q -> heap_live h q) ->
  p ∉ hs' -> NoDup l' -> (forall q, q ∈ l' <-> q ∈ l /\ q <> p) ->
  (forall q, q <> p -> held hs' q = held hs q) ->
  (forall q, q ∈ hs' -> q ∈ hs) -> zlen hs' <= 2 ^ 31 ->
  registry_ok (mkWorld (Some l') (delete p (devs w)) (xfer_id w) h) hs' l'.
Proof.
  intros R Hroom Hkeep Hnp Hnd Hl' Hheld Hsub Hlen.
  split; cbn [bdevs devs heap]; try done.
  - intros q Hq. apply Hl' in Hq as [Hq Hne]. rewrite lookup_delete_ne by done.
    by apply (ro_listed _ _ _ R).
  - intros q Hq. rewrite lookup_delete_ne by (intros ->; done).
    apply (ro_handles _ _ _ R), Hsub, Hq.
  - intros q e Ee. apply lookup_delete_Some in Ee as [Hne Ee].
    destruct (ro_dev _ _ _ R q e Ee) as (? & ? & ? & ?).
    rewrite Hheld, (list_ref_ext l' l) by (rewrite ?Hl'; naive_solver).
    repeat split; auto.
  - intros q q' e e' Hq Hq' Ee Ee'. apply lookup_delete_Some in Ee as [_ Ee], Ee' as [_ Ee'].
    apply Hl' in Hq as [Hq _], Hq' as [Hq' _]. by apply (ro_ids _ _ _ R).
Qed.

(** The close hook changes the driver state of the device that goes away, only. *)
Lemma call_close_frame w p d :
  heap (call_close w p d) = heap w /\ bdevs (call_close w p d) = bdevs w /\
  xfer_id (call_close w p d) = xfer_id w /\
  delete p (devs (call_close w p d)) = delete p (devs w).
Proof.
  unfold call_close. destruct (bd_close d); try done; destruct (drv_close _) as [e x];
    unfold set_dev; cbn [heap bdevs xfer_id devs]; by rewrite delete_insert_eq.
Qed.

Lemma close_ok w hs l p :
  registry_ok w hs l -> p ∈ hs ->
  exists w', tegrabl_blockdev_close w p = Ok (TEGRABL_NO_ERROR, w') /\
    registry_ok w' (drop_handle p hs) l.
Proof.
  intros R Hp. destruct (ro_handles _ _ _ R p Hp) as [d Ed].
  destruct (ro_dev _ _ _ R p d Ed) as (Hp0 & Href & Hpos & Hlive).
  pose proof (held_pos _ _ Hp). pose proof (list_ref_range l p).
  pose proof (drop_handle_length p hs). pose proof (ro_count _ _ _ R).
  assert (Hother : forall q, q <> p -> held (drop_handle p hs) q = held hs q).
  { intros q Hq. rewrite held_drop by done. destruct (Z.eqb_spec p q); [congruence|lia]. }
  assert (Hself : held (drop_handle p hs) p = held hs p - 1)
    by (rewrite held_drop, Z.eqb_refl by done; lia).
  unfold tegrabl_blockdev_close, bdev_dec_ref, NULL. destruct (Z.eqb_spec p 0); [lia|].
  rewrite (get_dev_Some _ _ _ Ed). cbn [res_bind].
  destruct (Z.ltb_spec 0 (bd_ref d)); [|lia].
  destruct (Z.eqb_spec (bd_ref d) 1) as [E1|E1].
  - (* the last reference: the device is not listed *)
    assert (Hnl : p ∉ l) by (intros Hin; rewrite (list_ref_in l p Hin) in *; lia).
    unfold list_in_list, set_dev. cbn [bdevs].
    rewrite (ro_list _ _ _ R), bool_decide_false by done.
    destruct (call_close_frame (mkWorld (Some l) (<[p := set_ref d (bd_ref d - 1)]> (devs w))
      (xfer_id w) (heap w)) p (set_ref d (bd_ref d - 1))) as (-> & -> & -> & ->).
    cbn [bdevs heap devs xfer_id].
    destruct (dealloc_accepted (heap w) TEGRABL_HEAP_DEFAULT p 0 Hlive (ro_room _ _ _ R))
      as (h' & Eh & Hroom & Hkeep).
    rewrite Eh. cbn [res_bind]. eexists. split; [reflexivity|]. rewrite delete_insert_eq.
    eapply registry_remove; try done; try lia; try apply R.
    + intros Hin. apply held_pos in Hin. lia.
    + set_solver.
    + apply drop_handle_subset.
  - eexists. split; [reflexivity|]. unfold set_dev. rewrite (ro_list _ _ _ R).
    eapply registry_set_ref; try done; try lia; [apply R|].
    intros q Hq. right. by eapply drop_handle_subset.
Qed.

Lemma open_ok w hs l st inst :
  registry_ok w hs l -> zlen hs < 2 ^ 31 ->
  exists p w', tegrabl_blockdev_open w st inst = Ok (p, w') /\
    registry_ok w' (if p =? NULL then hs else p :: hs) l /\
    (st < TEGRABL_STORAGE_INVALID ->
     match p with
     | 0 => forall q d, q ∈ l -> devs w !! q = Some d ->
         bd_device_id d <> TEGRABL_BLOCK_DEVICE_ID st inst
     | _ => p ∈ l /\ exists d, devs w !! p = Some d /\
         bd_device_id d = TEGRABL_BLOCK_DEVICE_ID st inst
     end).
Proof.
  intros R Hlen. unfold tegrabl_blockdev_open.
  destruct (Z.leb_spec TEGRABL_STORAGE_INVALID st).
  { exists NULL, w. split; [done|]. split; [done|]. lia. }
  rewrite (ro_list _ _ _ R).
  destruct (open_walk_spec w l (TEGRABL_BLOCK_DEVICE_ID st inst)) as (r & -> & Hr).
  { intros p Hp. destruct (ro_listed _ _ _ R p Hp) as [d Ed]. exists d. split; [done|].
    by apply (ro_dev _ _ _ R p d). }
  cbn [res_bind]. destruct r as [p|]; [|by exists NULL, w].
  destruct Hr as [Hp (d & Ed & Eid)]. destruct (ro_dev _ _ _ R p d Ed) as (Hp0 & Href & Hpos & _).
  unfold bdev_inc_ref. rewrite (get_dev_Some _ _ _ Ed). cbn [res_bind].
  eexists p, _. split; [reflexivity|]. split.
  - unfold NULL. destruct (Z.eqb_spec p 0); [lia|].
    pose proof (held_nonneg hs p). pose proof (list_ref_range l p).
    rewrite u32_small by lia.
    unfold set_dev. rewrite (ro_list _ _ _ R).
    eapply registry_set_ref; try done; rewrite ?held_cons, ?Z.eqb_refl; try lia.
    + apply R.
    + intros q Hq. rewrite held_cons. destruct (Z.eqb_spec p q); [congruence|lia].
    + set_solver.
    + unfold zlen in *. simpl. lia.
  - intros _. destruct p; [lia| |lia]. eauto.
Qed.

Lemma unregister_ok w hs l p :
  registry_ok w hs l -> p ∈ l ->
  exists w', tegrabl_blockdev_unregister_device w p = Ok (TEGRABL_NO_ERROR, w') /\
    registry_ok w' hs (filter (fun q => q <> p) l).
Proof.
  intros R Hp. destruct (ro_listed _ _ _ R p Hp) as [d Ed].
  destruct (ro_dev _ _ _ R p d Ed) as (Hp0 & Href & Hpos & Hlive).
  rewrite list_ref_in in Href by done. pose proof (held_nonneg hs p).
  set (l' := filter (fun q => q <> p) l).
  assert (Hl' : forall q, q ∈ l' <-> q ∈ l /\ q <> p)
    by (intros q; unfold l'; rewrite list_elem_of_filter; naive_solver).
  assert (Hnd : NoDup l') by apply NoDup_filter, (ro_nodup _ _ _ R).
  assert (Hn : p ∉ l') by (rewrite Hl'; naive_solver).
  unfold tegrabl_blockdev_unregister_device, bdev_dec_ref, NULL.
  destruct (Z.eqb_spec p 0); [lia|].
  rewrite (get_dev_Some _ _ _ Ed). cbn [res_bind].
  rewrite (ro_list _ _ _ R), bool_decide_true by done. fold l'.
  unfold get_dev at 1. cbn [devs]. rewrite Ed. cbn [res_bind].
  destruct (Z.ltb_spec 0 (bd_ref d)); [|lia]. unfold set_dev. cbn [bdevs devs heap xfer_id].
  destruct (Z.eqb_spec (bd_ref d) 1) as [E1|E1].
  - unfold list_in_list. cbn [bdevs]. rewrite bool_decide_false by done.
    destruct (call_close_frame (mkWorld (Some l') (<[p := set_ref d (bd_ref d - 1)]> (devs w))
      (xfer_id w) (heap w)) p (set_ref d (bd_ref d - 1))) as (-> & -> & -> & ->).
    cbn [bdevs].
    destruct (dealloc_accepted (heap w) TEGRABL_HEAP_DEFAULT p 0 Hlive (ro_room _ _ _ R))
      as (h' & Eh & Hroom & Hkeep).
    cbn [heap devs xfer_id]. rewrite Eh. cbn [res_bind]. eexists. split; [reflexivity|].
    rewrite delete_insert_eq.
    eapply registry_remove; try done; try apply R.
    intros Hin. apply held_pos in Hin. lia.
  - eexists. split; [reflexivity|].
    eapply registry_set_ref; try done; rewrite ?list_ref_notin by done; try lia;
      [set_solver..|apply R].
Qed.

Lemma initialize_ok w p id lg count (x : D) align install :
  p <> NULL ->
  (forall d, bd_ref (install d) = bd_ref d /\ bd_device_id (install d) = bd_device_id d) ->
  exists w1 d0 d, tegrabl_blockdev_initialize_bdev w p id lg count x align = (TEGRABL_NO_ERROR, w1) /\
    get_dev w1 p = Ok d0 /\
    set_dev w1 p (install d0) = set_dev w p d /\ bd_ref d = 0 /\ bd_device_id d = id.
Proof.
  intros Hp Hi. unfold tegrabl_blockdev_initialize_bdev.
  destruct (Z.eqb_spec p NULL); [done|].
  set (d0 := mkBdev 0 id (u64 (Z.shiftl count lg)) lg count false align x
    HookDefault HookDefault HookDefault HookNull HookNull HookNull HookNull).
  exists (set_dev w p d0), d0, (install d0). split; [reflexivity|].
  split; [apply get_dev_Some; apply lookup_insert_eq|].
  split; [|apply (Hi d0)].
  unfold set_dev. cbn [devs bdevs heap xfer_id]. by rewrite insert_insert_eq.
Qed.

(** A new device enters: with the list's reference, or with its registrar's. *)
Lemma registry_add w hs hs' l l' p d h :
  registry_ok w hs l -> p ∉ dom (devs w) -> 0 < p -> heap_live h p -> heap_room h 0 ->
  (forall q, heap_live (heap w) q -> heap_live h q) ->
  bd_ref d = 1 ->
  (hs' = hs /\ l' = l ++ [p] /\
     (forall q e, q ∈ l -> devs w !! q = Some e -> bd_device_id e <> bd_device_id d)
   \/ hs' = p :: hs /\ l' = l) ->
  zlen hs' <= 2 ^ 31 ->
  registry_ok (mkWorld (Some l') (<[p := d]> (devs w)) (xfer_id w) h) hs' l'.
Proof.
  intros R Hp Hp0 Hlive Hroom Hkeep Hd Hcase Hlen.
  assert (Hnl : p ∉ l)
    by (intros Hin; apply (ro_listed _ _ _ R) in Hin; by rewrite <- elem_of_dom in Hin).
  assert (Hnh : p ∉ hs)
    by (intros Hin; apply (ro_handles _ _ _ R) in Hin; by rewrite <- elem_of_dom in Hin).
  assert (Hin' : forall q, q ∈ l' -> q = p \/ q ∈ l) by (destruct Hcase as [(_&->&_)|(_&->)]; set_solver).
  split; cbn [bdevs devs heap]; try done.
  - destruct Hcase as [(_&->&_)|(_&->)]; [|apply R]. apply NoDup_app.
    split; [apply R|]. split; [set_solver|]. apply NoDup_singleton.
  - intros q Hq. apply lookup_insert_is_Some'. destruct (Hin' q Hq) as [?|?]; [by left|right].
    by apply (ro_listed _ _ _ R).
  - intros q Hq. apply lookup_insert_is_Some'.
    assert (q = p \/ q ∈ hs) as [?|?] by (destruct Hcase as [(->&_)|(->&_)]; set_solver);
      [by left|right]. by apply (ro_handles _ _ _ R).
  - intros q e Ee. apply lookup_insert_Some in Ee as [[<- <-]|[Hne Ee]].
    + split; [done|]. rewrite Hd. split; [|split; [lia|done]].
      destruct Hcase as [(->&->&_)|(->&->)].
      * rewrite held_zero, list_ref_in by set_solver. lia.
      * rewrite held_cons, Z.eqb_refl, held_zero, list_ref_notin by done. lia.
    + destruct (ro_dev _ _ _ R q e Ee) as (? & -> & ? & ?). repeat split; auto.
      * f_equal.
        -- destruct Hcase as [(->&_)|(->&_)]; [done|]. rewrite held_cons.
           destruct (Z.eqb_spec p q); [done|lia].
        -- apply list_ref_ext. destruct Hcase as [(_&->&_)|(_&->)]; [|done]. set_solver.
  - intros q q' e e' Hq Hq' Ee Ee' Eid. apply Hin' in Hq as Hq1, Hq' as Hq'1.
    apply lookup_insert_Some in Ee, Ee'.
    destruct Ee as [[<- <-]|[? Ee]], Ee' as [[<- <-]|[? Ee']]; try done.
    + destruct Hcase as [(_&_&Hid)|(_&->)]; [|done]. destruct Hq'1; [done|].
      by edestruct Hid; eauto.
    + destruct Hcase as [(_&_&Hid)|(_&->)]; [|done]. destruct Hq1; [done|].
      by edestruct Hid; eauto.
    + destruct Hq1, Hq'1; try done. by eapply (ro_ids _ _ _ R).
Qed.

Lemma register_ok w hs l id lg count x align install :
  registry_ok w hs l -> zlen hs < 2 ^ 31 ->
  heap_room (heap w) (alloc_cost 8 sizeof_bdev) ->
  (forall d, bd_ref (install d) = bd_ref d /\ bd_device_id (install d) = bd_device_id d) ->
  exists e p w', driver_register w id lg count x align install = Ok (e, p, w') /\
    registry_ok w' (if e =? TEGRABL_NO_ERROR then hs else p :: hs)
      (if e =? TEGRABL_NO_ERROR then l ++ [p] else l).
Proof.
  intros R Hlen Hroom Hi.
  destruct (malloc_granted (heap w) sizeof_bdev _ Hroom)
    as (p & h & E & Hp & _ & Hlive & Hfresh & Hroom' & Hkeep); [done|lia|].
  unfold driver_register. rewrite E.
  destruct (initialize_ok (set_heap w h) p id lg count x align install) as
    (w1 & d0 & d & -> & -> & E1 & Hr & Hid); [unfold NULL; lia|done|].
  cbn [res_bind]. rewrite E1. unfold tegrabl_blockdev_register_device, bdev_inc_ref, NULL.
  destruct (Z.eqb_spec p 0); [lia|].
  rewrite (get_dev_Some _ p d) by apply lookup_insert_eq. cbn [res_bind].
  unfold set_dev, set_heap. cbn [bdevs devs heap xfer_id]. rewrite (ro_list _ _ _ R), insert_insert_eq.
  rewrite (get_dev_Some _ p (set_ref d (u32 (bd_ref d + 1)))) by apply lookup_insert_eq.
  cbn [res_bind]. rewrite Hr. change (u32 (0 + 1)) with 1.
  assert (Hpn : p ∉ dom (devs w)).
  { intros Hin. apply elem_of_dom in Hin as [e Ee]. by apply Hfresh, (ro_dev _ _ _ R p e). }
  assert (Hne : forall q, q ∈ l -> q <> p).
  { intros q Hq ->. apply Hpn, elem_of_dom. by apply (ro_listed _ _ _ R). }
  destruct (registered_id_spec (mkWorld (Some l) (<[p := set_ref d 1]> (devs w)) (xfer_id w) h)
    l (bd_device_id (set_ref d 1))) as (b & Eb & Hb).
  { intros q Hq. apply lookup_insert_is_Some'. right. by apply (ro_listed _ _ _ R). }
  rewrite Eb. cbn [res_bind]. replace (_ - _) with 0 in Hroom' by lia. destruct b.
  - eexists _, p, _. split; [reflexivity|].
    change (ERR TEGRABL_ERR_ALREADY_EXISTS 0 =? TEGRABL_NO_ERROR) with false. cbv iota.
    eapply registry_add; try done; [lia|right; done|]. unfold zlen in *. simpl. lia.
  - eexists _, p, _. split; [reflexivity|].
    change (TEGRABL_NO_ERROR =? TEGRABL_NO_ERROR) with true. cbv iota.
    eapply registry_add; try done; [lia|left|lia]. split; [done|]. split; [done|].
    intros q e Hq Ee. apply (Hb eq_refl q e Hq). cbn [devs].
    rewrite lookup_insert_ne by (apply not_eq_sym; auto). done.
Qed.

Lemma reg_step_ok w hs l w' hs' :
  registry_ok w hs l -> reg_step (w, hs) (w', hs') -> exists l', registry_ok w' hs' l'.
Proof.
  intros R S. inversion S; subst.
  - destruct (open_ok w hs l st inst R ltac:(done)) as (q & w1 & E & R' & _).
    rewrite E in *. inv_ok. eauto.
  - destruct (close_ok w hs l p R ltac:(done)) as (w1 & E & R').
    rewrite E in *. inv_ok. eauto.
  - destruct (register_ok w hs l id lg count x align install R ltac:(done) ltac:(done) ltac:(done))
      as (e1 & q & w1 & E & R').
    rewrite E in *. inv_ok. eauto.
  - match goal with Hb : bdevs w = Some ?k |- _ =>
      assert (k = l) as -> by (rewrite (ro_list _ _ _ R) in Hb; congruence) end.
    destruct (unregister_ok w hs' l p R ltac:(done)) as (w1 & E & R').
    rewrite E in *. inv_ok. eauto.
Qed.

(** The states the registry goes through from start-up. *)
Definition reachable w hs : Prop :=
  exists w0, bdevs w0 = None /\ devs w0 = ∅ /\
    heap_room (heap w0) (alloc_cost 8 sizeof_bdev_struct) /\
    rtc reg_step (snd (tegrabl_blockdev_init w0), []) (w, hs).

Lemma init_ok w :
  bdevs w = None -> devs w = ∅ -> heap_room (heap w) (alloc_cost 8 sizeof_bdev_struct) ->
  registry_ok (snd (tegrabl_blockdev_init w)) [] [].
Proof.
  intros Hb Hd Hroom. unfold tegrabl_blockdev_init. rewrite Hb.
  destruct (malloc_granted (heap w) sizeof_bdev_struct _ Hroom)
    as (p & h & E & Hp & _ & _ & _ & Hroom' & _); [done|lia|].
  rewrite E. unfold NULL. destruct (Z.eqb_spec p 0); [lia|]. cbn.
  replace (alloc_cost 8 sizeof_bdev_struct - _) with 0 in Hroom' by lia.
  split; cbn [bdevs devs heap]; rewrite ?Hd; try done; try set_solver; try constructor.
Qed.

Lemma reachable_ok w hs : reachable w hs -> exists l, registry_ok w hs l.
Proof.
  intros (w0 & Hb & Hd & Hr & Hs).
  pose proof (init_ok w0 Hb Hd Hr) as R0. remember (snd (tegrabl_blockdev_init w0), []) as s0.
  assert (exists l, registry_ok (fst s0) (snd s0) l) as Hinv by (subst; eauto).
  clear Heqs0 R0. remember (w, hs) as s1. revert w hs Heqs1 Hinv.
  induction Hs as [s|[w1 h1] [w2 h2] s S _ IH]; intros w hs -> [l R].
  - eauto.
  - apply (IH w hs eq_refl). by eapply reg_step_ok.
Qed.


(** C16: in every reachable state no action gets stuck: closing a handle and
    unregistering a listed device return without error, and opening a device
    returns the listed device of that type and instance, or [NULL] exactly when
    there is none. *)
Theorem registry_actions_return w hs l :
  reachable w hs -> bdevs w = Some l -> zlen hs < 2 ^ 31 ->
  (forall p, p ∈ hs -> exists w', tegrabl_blockdev_close w p = Ok (TEGRABL_NO_ERROR, w')) /\
  (forall p, p ∈ l ->
     exists w', tegrabl_blockdev_unregister_device w p = Ok (TEGRABL_NO_ERROR, w')) /\
  (forall st inst, st < TEGRABL_STORAGE_INVALID ->
     exists p w', tegrabl_blockdev_open w st inst = Ok (p, w') /\
       (p = NULL <-> forall q d, q ∈ l -> devs w !! q = Some d ->
          bd_device_id d <> TEGRABL_BLOCK_DEVICE_ID st inst) /\
       (p <> NULL -> p ∈ l /\ exists d, devs w !! p = Some d /\
          bd_device_id d = TEGRABL_BLOCK_DEVICE_ID st inst)).
Proof.
  intros Hr Hb Hlen. destruct (reachable_ok _ _ Hr) as [l' R].
  assert (l' = l) as -> by (rewrite (ro_list _ _ _ R) in Hb; congruence).
  split; [|split].
  - intros p Hp. destruct (close_ok w hs l p R Hp) as (w' & E & _). eauto.
  - intros p Hp. destruct (unregister_ok w hs l p R Hp) as (w' & E & _). eauto.
  - intros st inst Hst. destruct (open_ok w hs l st inst R Hlen) as (p & w' & E & _ & Hs).
    exists p, w'. split; [done|]. specialize (Hs Hst). unfold NULL.
    destruct p; [split; [tauto|done]| |]; destruct Hs as (Hin & d & Ed & Eid);
      (split; [split; [done|intros Hno; by destruct (Hno _ d Hin Ed)]|eauto]).
Qed.

End Registry.

(** ** A run: two devices are registered, one is opened *)

Definition run0 : world ramdisk arena := mkWorld None ∅ 0 demo_heap.

Definition run_install (d : bdev ramdisk) : bdev ramdisk :=
  mkBdev (bd_ref d) (bd_device_id d) (bd_size d) (bd_block_size_log2 d) (bd_block_count d)
    (bd_published d) (bd_buf_align_size d) (bd_priv d) HookDriver HookDriver HookDriver
    HookDriver HookDriver HookDriver HookNull.

Definition run_state : res (world ramdisk arena * list Z) :=
  let w := snd (tegrabl_blockdev_init run0) in
  let* (_, _, w) := driver_register w (TEGRABL_BLOCK_DEVICE_ID 1 3) 3 16
    (mkRam 3 demo_bytes) 4 run_install in
  let* (_, _, w) := driver_register w (TEGRABL_BLOCK_DEVICE_ID 3 0) 3 16
    (mkRam 3 demo_bytes) 4 run_install in
  let* (p, w) := tegrabl_blockdev_open w 3 0 in
  Ok (w, [p]).

Lemma run_reachable :
  exists w hs, run_state = Ok (w, hs) /\ reachable w hs /\ zlen hs = 1.
Proof.
  eexists _, _. split; [vm_compute; reflexivity|]. split; [|reflexivity].
  exists run0. split; [reflexivity|]. split; [reflexivity|].
  split; [apply arena_room_test; vm_compute; reflexivity|].
  eapply rtc_l.
  { eapply (step_register _ _ (TEGRABL_BLOCK_DEVICE_ID 1 3) 3 16 (mkRam 3 demo_bytes) 4
      run_install); [done|apply arena_room_test; vm_compute; reflexivity|done
      |vm_compute; reflexivity]. }
  eapply rtc_l.
  { eapply (step_register _ _ (TEGRABL_BLOCK_DEVICE_ID 3 0) 3 16 (mkRam 3 demo_bytes) 4
      run_install); [done|apply arena_room_test; vm_compute; reflexivity|done
      |vm_compute; reflexivity]. }
  eapply rtc_l; [|apply rtc_refl].
  eapply (step_open _ _ 3 0 4392); [done|]. vm_compute. reflexivity.
Qed.


Lemma registry_actions_return_witness :
  exists w hs, run_state = Ok (w, hs) /\
    forall p, p ∈ hs -> exists w', tegrabl_blockdev_close w p = Ok (TEGRABL_NO_ERROR, w').
Proof.
  destruct run_reachable as (w & hs & E & R & Hl). exists w, hs. split; [exact E|].
  destruct (reachable_ok w hs R) as [l Hok].
  exact (proj1 (registry_actions_return w hs l R (ro_list _ _ _ Hok) ltac:(lia))).
Defined.
