(* ===== verification/Malloc.v ===== *)
(** The heap (common/lib/malloc/tegrabl_malloc.c).

    The free blocks of each heap form a doubly linked list in the heap memory
    itself, sorted by address; an allocated block is preceded by a header that
    says where it starts and how long it is.  The model keeps the memory of these
    headers field by field, with the aliasing of the two header types: both are
    overlays of the same bytes, and an allocation header may overlap a former
    free header partly. *)

From S2P Require Import Prelude TegraError BlockDev.

(** ** Memory *)

(** A field of 4 or 8 bytes with its value. *)
Inductive cell : Set := C4 (v : Z) | C8 (v : Z).

Definition width (c : cell) : Z := match c with C4 _ => 4 | C8 _ => 8 end.

Abbreviation memory := (gmap Z cell).

Definition overlaps (a w : Z) (kc : Z * cell) : Prop :=
  fst kc < a + w /\ a < fst kc + width (snd kc).

#[export] Instance overlaps_dec a w kc : Decision (overlaps a w kc).
Proof. unfold overlaps. apply _. Defined.

(** Storing to [a, a + w) destroys every field that shares a byte with it. *)
Definition clear (a w : Z) (m : memory) : memory := filter (fun kc => ~ overlaps a w kc) m.

Definition st4 (a v : Z) (m : memory) : memory := <[a := C4 v]> (clear a 4 m).
Definition st8 (a v : Z) (m : memory) : memory := <[a := C8 v]> (clear a 8 m).

(** A field that was not stored as such cannot be read. *)
Definition ld4 (a : Z) (m : memory) : res Z :=
  match m !! a with Some (C4 v) => Ok v | _ => Stuck BadPointer end.
Definition ld8 (a : Z) (m : memory) : res Z :=
  match m !! a with Some (C8 v) => Ok v | _ => Stuck BadPointer end.

(** ** State *)

Definition FREE_MAGIC : Z := 0xDEEFBEEE.
Definition ALLOC_MAGIC : Z := 0xDEADBEEE.

(** [sizeof(tegrabl_heap_free_block_t)]: magic at 0, size at 8, prev at 16, next
    at 24. *)
Definition MIN_SIZE : Z := 32.

(** [sizeof(tegrabl_heap_alloc_block_t)]: magic at 0, size at 8, start at 16. *)
Definition ALLOC_HDR : Z := 24.

#[export] Instance heap_type_eq_dec : EqDecision heap_type.
Proof. solve_decision. Defined.

(** [tegrabl_heap_free_list], [max_heap_size] and the memory. *)
Record kheap := mkKheap {
  kh_default : Z; kh_dma : Z;
  kh_max_default : Z; kh_max_dma : Z;
  kh_mem : memory
}.

Definition free_list (h : kheap) (t : heap_type) : Z :=
  match t with TEGRABL_HEAP_DEFAULT => kh_default h | TEGRABL_HEAP_DMA => kh_dma h end.

Definition set_free_list (h : kheap) (t : heap_type) (v : Z) : kheap :=
  match t with
  | TEGRABL_HEAP_DEFAULT =>
      mkKheap v (kh_dma h) (kh_max_default h) (kh_max_dma h) (kh_mem h)
  | TEGRABL_HEAP_DMA =>
      mkKheap (kh_default h) v (kh_max_default h) (kh_max_dma h) (kh_mem h)
  end.

Definition max_heap_size (h : kheap) (t : heap_type) : Z :=
  match t with
  | TEGRABL_HEAP_DEFAULT => kh_max_default h
  | TEGRABL_HEAP_DMA => kh_max_dma h
  end.

Definition set_max (h : kheap) (t : heap_type) (v : Z) : kheap :=
  match t with
  | TEGRABL_HEAP_DEFAULT => mkKheap (kh_default h) (kh_dma h) v (kh_max_dma h) (kh_mem h)
  | TEGRABL_HEAP_DMA => mkKheap (kh_default h) (kh_dma h) (kh_max_default h) v (kh_mem h)
  end.

Definition set_mem (h : kheap) (m : memory) : kheap :=
  mkKheap (kh_default h) (kh_dma h) (kh_max_default h) (kh_max_dma h) m.

(** Fields of a header at [a]; [start] of an allocated block is where [prev] of a
    free one is. *)
Definition get_magic (h : kheap) (a : Z) : res Z := ld4 a (kh_mem h).
Definition get_size (h : kheap) (a : Z) : res Z := ld8 (a + 8) (kh_mem h).
Definition get_prev (h : kheap) (a : Z) : res Z := ld8 (a + 16) (kh_mem h).
Definition get_start (h : kheap) (a : Z) : res Z := ld8 (a + 16) (kh_mem h).
Definition get_next (h : kheap) (a : Z) : res Z := ld8 (a + 24) (kh_mem h).

Definition set_magic (h : kheap) (a v : Z) : kheap := set_mem h (st4 a v (kh_mem h)).
Definition set_size (h : kheap) (a v : Z) : kheap := set_mem h (st8 (a + 8) v (kh_mem h)).
Definition set_prev (h : kheap) (a v : Z) : kheap := set_mem h (st8 (a + 16) v (kh_mem h)).
Definition set_start (h : kheap) (a v : Z) : kheap := set_mem h (st8 (a + 16) v (kh_mem h)).
Definition set_next (h : kheap) (a v : Z) : kheap := set_mem h (st8 (a + 24) v (kh_mem h)).

(** [if (a != NULL) a->prev = v] and the same for [next]. *)
Definition link_prev (h : kheap) (a v : Z) : kheap := if a =? NULL then h else set_prev h a v.
Definition link_next (h : kheap) (a v : Z) : kheap := if a =? NULL then h else set_next h a v.

(** Bound on the length of a free list: every free block has fields of its own. *)
Definition list_fuel (h : kheap) : nat := S (size (kh_mem h)).

Definition HEAP_ERR (reason aux : Z) : Z := tegrabl_error_value TEGRABL_ERR_HEAP aux reason.

(** [ROUND_UP(size, sizeof(uintptr_t))] *)
Definition ROUND_UP8 (n : Z) : Z := u64 (u64 (n + 8 - 1) / 8 * 8).

(** ** Operations *)

Section Ops.
Variable asserts : bool.
Implicit Types h : kheap.

(** [heap_type] ranges over the two heaps; the test against
    [TEGRABL_HEAP_TYPE_MAX] cannot fail. *)
Definition tegrabl_heap_init h (t : heap_type) (start size : Z) : Z * kheap :=
  if size <? MIN_SIZE then (HEAP_ERR TEGRABL_ERR_TOO_SMALL 0, h)
  else if negb (free_list h t =? NULL) then (HEAP_ERR TEGRABL_ERR_ALREADY_EXISTS 0, h)
  else
    let h := set_prev h start NULL in
    let h := set_next h start NULL in
    let h := set_size h start size in
    let h := set_magic h start FREE_MAGIC in
    (TEGRABL_NO_ERROR, set_max (set_free_list h t start) t size).

(** [if (a == list[DEFAULT]) list[DEFAULT] = v; else if (a == list[DMA]) ...] *)
Definition replace_head h (a v : Z) : kheap :=
  if a =? free_list h TEGRABL_HEAP_DEFAULT then set_free_list h TEGRABL_HEAP_DEFAULT v
  else if a =? free_list h TEGRABL_HEAP_DMA then set_free_list h TEGRABL_HEAP_DMA v
  else h.

Definition tegrabl_heap_split_block h (free_block size : Z) : res (Z * kheap) :=
  if free_block =? NULL then Ok (NULL, h)
  else
    let* fsize := get_size h free_block in
    let* prev := get_prev h free_block in
    let* next := get_next h free_block in
    let remaining_size := u64 (fsize - size) in
    if remaining_size <=? MIN_SIZE then
      let h := replace_head h free_block next in
      let h := link_prev h next prev in
      let h := link_next h prev next in
      Ok (free_block, h)
    else
      let new_free := free_block + size in
      let h := set_prev h new_free prev in
      let h := set_next h new_free next in
      let h := link_next h prev new_free in
      let h := link_prev h next new_free in
      let h := set_size h new_free remaining_size in
      let h := set_magic h new_free FREE_MAGIC in
      let h := set_size h free_block size in
      Ok (free_block, replace_head h free_block new_free).

(** The search for the first block that is large enough: the block after the
    split, [NULL] if there is none. *)
Fixpoint malloc_find (fuel : nat) h (free_block alloc_size : Z) : res (Z * kheap) :=
  if free_block =? NULL then Ok (NULL, h)
  else
    match fuel with
    | O => Stuck OutOfFuel
    | S fuel =>
        let* magic := get_magic h free_block in
        let* _ := tegrabl_assert asserts (magic =? FREE_MAGIC) in
        let* fsize := get_size h free_block in
        if alloc_size <? fsize then tegrabl_heap_split_block h free_block alloc_size
        else
          let* next := get_next h free_block in
          malloc_find fuel h next alloc_size
    end.

Definition tegrabl_generic_malloc h (free_list size : Z) : res (Z * kheap) :=
  if size =? 0 then Ok (NULL, h)
  else
    let alloc_size := u64 (ROUND_UP8 size + ALLOC_HDR) in
    if alloc_size <? size then Ok (NULL, h)
    else
      let alloc_size := Z.max alloc_size MIN_SIZE in
      let* (alloc_block, h) := malloc_find (list_fuel h) h free_list alloc_size in
      if alloc_block =? NULL then Ok (NULL, h)
      else
        let h := set_start h alloc_block alloc_block in
        let h := set_magic h alloc_block ALLOC_MAGIC in
        Ok (alloc_block + ALLOC_HDR, h).

Definition tegrabl_malloc h (size : Z) : res (Z * kheap) :=
  if max_heap_size h TEGRABL_HEAP_DEFAULT <? size then Ok (NULL, h)
  else tegrabl_generic_malloc h (free_list h TEGRABL_HEAP_DEFAULT) size.

Definition tegrabl_alloc h (t : heap_type) (size : Z) : res (Z * kheap) :=
  if bool_decide (t = TEGRABL_HEAP_DMA) && negb (free_list h TEGRABL_HEAP_DMA =? NULL) then
    if max_heap_size h TEGRABL_HEAP_DMA <? size then Ok (NULL, h)
    else tegrabl_generic_malloc h (free_list h TEGRABL_HEAP_DMA) size
  else tegrabl_malloc h size.

(** "If next block is contiguous with current freed block, then merge these two." *)
Definition merge_next h (free_block next : Z) : res kheap :=
  if next =? NULL then Ok h
  else
    let* fsize := get_size h free_block in
    if u64 (free_block + fsize) =? next then
      let* nsize := get_size h next in
      let h := set_size h free_block (u64 (fsize + nsize)) in
      let* nn := get_next h next in
      let h := set_next h free_block nn in
      Ok (link_prev h nn free_block)
    else Ok h.

Definition tegrabl_heap_merge_blocks h (free_block : Z) : res (Z * kheap) :=
  if free_block =? NULL then Ok (NULL, h)
  else
    let* next := get_next h free_block in
    let* prev := get_prev h free_block in
    let* h := merge_next h free_block next in
    if prev =? NULL then Ok (free_block, h)
    else
      let* psize := get_size h prev in
      if u64 (prev + psize) =? free_block then
        let* fsize := get_size h free_block in
        let h := set_size h prev (u64 (psize + fsize)) in
        let* nn := get_next h free_block in
        let h := set_next h prev nn in
        Ok (prev, link_prev h nn prev)
      else Ok (free_block, h).

(** The blocks before and after the place of [ptr] in the list. *)
Fixpoint free_walk (fuel : nat) h (ptr prev_block free_block : Z) : res (Z * Z) :=
  if (free_block =? NULL) || (ptr <=? free_block) then Ok (prev_block, free_block)
  else
    match fuel with
    | O => Stuck OutOfFuel
    | S fuel =>
        let* next := get_next h free_block in
        free_walk fuel h ptr free_block next
    end.

(** Merging until nothing changes. *)
Fixpoint merge_loop (fuel : nat) h (tmp_free : Z) : res (Z * kheap) :=
  match fuel with
  | O => Stuck OutOfFuel
  | S fuel =>
      let* (free_block, h) := tegrabl_heap_merge_blocks h tmp_free in
      if free_block =? tmp_free then Ok (tmp_free, h) else merge_loop fuel h free_block
  end.

Definition tegrabl_generic_free h (free_block ptr : Z) : res (Z * kheap) :=
  if ptr =? NULL then Ok (NULL, h)
  else
    let alloc_block := ptr - ALLOC_HDR in
    let* magic := get_magic h alloc_block in
    if negb (magic =? ALLOC_MAGIC) then Stuck HeapCorrupt
    else
      let* tmp_free := get_start h alloc_block in
      let* asize := get_size h alloc_block in
      let h := set_size h tmp_free asize in
      let* (prev_block, free_block) := free_walk (list_fuel h) h ptr NULL free_block in
      let h := link_next h prev_block tmp_free in
      let h := set_prev h tmp_free prev_block in
      let h := set_next h tmp_free free_block in
      let h := set_magic h tmp_free FREE_MAGIC in
      let h := link_prev h free_block tmp_free in
      merge_loop (list_fuel h) h tmp_free.

Definition tegrabl_dealloc h (t : heap_type) (ptr : Z) : res kheap :=
  let t :=
    if bool_decide (t = TEGRABL_HEAP_DMA) && negb (free_list h TEGRABL_HEAP_DMA =? NULL)
    then TEGRABL_HEAP_DMA else TEGRABL_HEAP_DEFAULT in
  let* (tmp_free, h) := tegrabl_generic_free h (free_list h t) ptr in
  if tmp_free =? NULL then Ok h
  else if (free_list h t =? NULL) || (tmp_free <? free_list h t)
  then Ok (set_free_list h t tmp_free) else Ok h.

Definition tegrabl_free h (ptr : Z) : res kheap := tegrabl_dealloc h TEGRABL_HEAP_DEFAULT ptr.

(** The address and what the memory there is filled with; the fill destroys
    whatever fields were there. *)
Definition tegrabl_calloc h (nmemb size : Z) : res (Z * list Z * kheap) :=
  let total_size := u64 (size * nmemb) in
  if size =? 0 then Ok (NULL, [], h)
  else if max_heap_size h TEGRABL_HEAP_DEFAULT / size <? nmemb then Ok (NULL, [], h)
  else
    let* _ := tegrabl_assert asserts (total_size / size =? nmemb) in
    let* (mem, h) := tegrabl_malloc h total_size in
    if mem =? NULL then Ok (NULL, [], h)
    else Ok (mem, replicate (Z.to_nat total_size) 0,
             set_mem h (clear mem total_size (kh_mem h))).

Definition is_size_alignment_valid h (t : heap_type) (alignment size : Z) : bool :=
  let max_size := u64 (size + alignment) in
  let limit := max_heap_size h t in
  negb (limit <? size) && negb (limit <? alignment) && negb (limit <? max_size) &&
  negb (max_size <? size) && negb (max_size <? alignment).

(** The gap before the aligned block becomes a free block of its own: the part of
    [tegrabl_memalign_generic] after the test of [align_size]. *)
Definition memalign_gap h (t : heap_type)
    (free_block prev_block next_block ptr align_size alloc_size : Z) : res kheap :=
  let alloc_block := ptr + align_size in
  let* next_block :=
    if (prev_block =? NULL) && (next_block =? NULL) then Ok (free_list h t)
    else if next_block =? NULL then get_next h prev_block
    else
      let* np := get_prev h next_block in
      if negb (np =? prev_block) then Ok np else Ok next_block in
  let h := set_size h alloc_block alloc_size in
  let h := set_start h alloc_block (ptr + align_size) in
  let h := set_next h free_block next_block in
  let h := set_prev h free_block prev_block in
  let h := set_size h free_block align_size in
  let h := set_magic h free_block FREE_MAGIC in
  let h := link_prev h next_block free_block in
  let h := link_next h prev_block free_block in
  if (free_list h t =? NULL) || (free_block <? free_list h t)
  then Ok (set_free_list h t free_block) else Ok h.

(** The body of the loop for a block that is large enough. *)
Definition memalign_take h (t : heap_type) (free_block align_size alloc_size : Z)
    : res (Z * kheap) :=
  let* prev_block := get_prev h free_block in
  let* next_block := get_next h free_block in
  let* (alloc_block, h) :=
    tegrabl_heap_split_block h free_block (u64 (alloc_size + align_size)) in
  if alloc_block =? NULL then Ok (NULL, h)
  else
    let h := set_start h alloc_block alloc_block in
    let ptr := alloc_block in
    let* orig_size := get_size h alloc_block in
    let found := ptr + ALLOC_HDR + align_size in
    let alloc_block := ptr + align_size in
    let h := set_size h alloc_block orig_size in
    let h := set_magic h alloc_block ALLOC_MAGIC in
    let h := set_start h alloc_block ptr in
    if align_size <? MIN_SIZE then Ok (found, h)
    else
      let* h := memalign_gap h t free_block prev_block next_block ptr align_size alloc_size in
      Ok (found, h).

Fixpoint memalign_find (fuel : nat) h (t : heap_type) (free_block alignment alloc_size : Z)
    : res (Z * kheap) :=
  if free_block =? NULL then Ok (NULL, h)
  else
    match fuel with
    | O => Stuck OutOfFuel
    | S fuel =>
        let* block_size := get_size h free_block in
        let* magic := get_magic h free_block in
        let* _ := tegrabl_assert asserts (magic =? FREE_MAGIC) in
        if block_size <? alloc_size then
          let* next := get_next h free_block in
          memalign_find fuel h t next alignment alloc_size
        else if alignment =? 0 then Stuck DivByZero
        else
          let address := u64 (free_block + ALLOC_HDR) in
          let align_size := alignment - address mod alignment in
          if block_size <? u64 (align_size + alloc_size) then
            let* next := get_next h free_block in
            memalign_find fuel h t next alignment alloc_size
          else memalign_take h t free_block align_size alloc_size
    end.

Definition tegrabl_memalign_generic h (t : heap_type) (alignment size : Z)
    : res (Z * kheap) :=
  if size =? 0 then Ok (NULL, h)
  else if negb (is_size_alignment_valid h t alignment size) then Ok (NULL, h)
  else
    let size := ROUND_UP8 size in
    let alloc_size := Z.max (u64 (size + ALLOC_HDR)) MIN_SIZE in
    memalign_find (list_fuel h) h t (free_list h t) alignment alloc_size.

Definition tegrabl_alloc_align h (t : heap_type) (alignment size : Z) : res (Z * kheap) :=
  if bool_decide (t = TEGRABL_HEAP_DMA) && negb (free_list h TEGRABL_HEAP_DMA =? NULL)
  then tegrabl_memalign_generic h TEGRABL_HEAP_DMA alignment size
  else tegrabl_memalign_generic h TEGRABL_HEAP_DEFAULT alignment size.

Definition tegrabl_memalign h (alignment size : Z) : res (Z * kheap) :=
  tegrabl_memalign_generic h TEGRABL_HEAP_DEFAULT alignment size.

End Ops.
