(* ===== verification/MallocFacts.v ===== *)
(** The heap memory seen as two sorted lists of free blocks and a table of
    allocated blocks: the representation, and how the stores of the allocator
    change it. *)

From S2P Require Import Prelude TegraError BlockDev Malloc.

(** ** Loads and stores *)

Lemma clear_lookup a w m k c :
  clear a w m !! k = Some c <-> m !! k = Some c /\ ~ overlaps a w (k, c).
Proof. unfold clear. by rewrite map_lookup_filter_Some. Qed.

Lemma clear_keep a w m k :
  k + 8 <= a \/ a + w <= k -> clear a w m !! k = m !! k.
Proof.
  intros Hk. destruct (m !! k) as [c|] eqn:E.
  - apply clear_lookup. split; [done|]. unfold overlaps. cbn. destruct c; cbn; lia.
  - apply eq_None_not_Some. intros [c Hc]. apply clear_lookup in Hc as [Hc _]. congruence.
Qed.

Lemma clear_keep4 a w m k :
  k + 4 <= a \/ a + w <= k -> ld4 k (clear a w m) = ld4 k m.
Proof.
  intros Hk. unfold ld4. destruct (m !! k) as [[v|v]|] eqn:E.
  - by rewrite (proj2 (clear_lookup a w m k (C4 v))) by (unfold overlaps; cbn; split; [done|lia]).
  - destruct (clear a w m !! k) as [c|] eqn:E2; [|done].
    apply clear_lookup in E2 as [E2 _]. rewrite E in E2. by injection E2 as <-.
  - destruct (clear a w m !! k) as [c|] eqn:E2; [|done].
    apply clear_lookup in E2 as [E2 _]. congruence.
Qed.

Lemma ld8_clear a w m k :
  k + 8 <= a \/ a + w <= k -> ld8 k (clear a w m) = ld8 k m.
Proof. intros Hk. unfold ld8. by rewrite clear_keep. Qed.

Lemma ld8_st8 a v m : ld8 a (st8 a v m) = Ok v.
Proof. unfold ld8, st8. by rewrite lookup_insert_eq. Qed.

Lemma ld4_st4 a v m : ld4 a (st4 a v m) = Ok v.
Proof. unfold ld4, st4. by rewrite lookup_insert_eq. Qed.

Lemma ld8_st8_ne a b v m : b + 8 <= a \/ a + 8 <= b -> ld8 b (st8 a v m) = ld8 b m.
Proof.
  intros Hb. rewrite <- (ld8_clear a 8 m b) by done. unfold ld8, st8.
  by rewrite lookup_insert_ne by lia.
Qed.

Lemma ld8_st4_ne a b v m : b + 8 <= a \/ a + 4 <= b -> ld8 b (st4 a v m) = ld8 b m.
Proof.
  intros Hb. rewrite <- (ld8_clear a 4 m b) by done. unfold ld8, st4.
  by rewrite lookup_insert_ne by lia.
Qed.

Lemma ld4_st8_ne a b v m : b + 4 <= a \/ a + 8 <= b -> ld4 b (st8 a v m) = ld4 b m.
Proof.
  intros Hb. rewrite <- (clear_keep4 a 8 m b) by done. unfold ld4, st8.
  by rewrite lookup_insert_ne by lia.
Qed.

Lemma ld4_st4_ne a b v m : b + 4 <= a \/ a + 4 <= b -> ld4 b (st4 a v m) = ld4 b m.
Proof.
  intros Hb. rewrite <- (clear_keep4 a 4 m b) by done. unfold ld4, st4.
  by rewrite lookup_insert_ne by lia.
Qed.

(** [ldst] evaluates loads from memory with recent stores. *)
Ltac ldst :=
  repeat first
    [ rewrite ld8_st8 | rewrite ld4_st4
    | rewrite ld8_st8_ne by lia | rewrite ld8_st4_ne by lia
    | rewrite ld4_st8_ne by lia | rewrite ld4_st4_ne by lia ].

(** [m'] agrees with [m] on the bytes from [a] on. *)
Definition same_on (m m' : memory) (a w : Z) : Prop :=
  (forall k, a <= k -> k + 8 <= a + w -> ld8 k m' = ld8 k m) /\
  (forall k, a <= k -> k + 4 <= a + w -> ld4 k m' = ld4 k m).

Lemma same_on_refl m a w : same_on m m a w.
Proof. by split. Qed.

Lemma same_on_st8 m m' a v b w :
  same_on m m' b w -> a + 8 <= b \/ b + w <= a -> same_on m (st8 a v m') b w.
Proof.
  intros [H8 H4] Hd. split; intros k Hk Hw.
  - rewrite ld8_st8_ne by lia. auto.
  - rewrite ld4_st8_ne by lia. auto.
Qed.

Lemma same_on_st4 m m' a v b w :
  same_on m m' b w -> a + 4 <= b \/ b + w <= a -> same_on m (st4 a v m') b w.
Proof.
  intros [H8 H4] Hd. split; intros k Hk Hw.
  - rewrite ld8_st4_ne by lia. auto.
  - rewrite ld4_st4_ne by lia. auto.
Qed.

Lemma same_on_clear m m' a l b w :
  same_on m m' b w -> a + l <= b \/ b + w <= a -> same_on m (clear a l m') b w.
Proof.
  intros [H8 H4] Hd. split; intros k Hk Hw.
  - rewrite ld8_clear by lia. auto.
  - rewrite clear_keep4 by lia. auto.
Qed.

Lemma same_on_sub m m' a w b v : same_on m m' a w -> a <= b -> b + v <= a + w -> same_on m m' b v.
Proof. intros [H8 H4] H1 H2. split; intros; [apply H8|apply H4]; lia. Qed.

(** ** Headers *)

Definition free_hdr (m : memory) (a s p n : Z) : Prop :=
  ld4 a m = Ok FREE_MAGIC /\ ld8 (a + 8) m = Ok s /\ ld8 (a + 16) m = Ok p /\
  ld8 (a + 24) m = Ok n.

Definition alloc_hdr (m : memory) (p s start : Z) : Prop :=
  ld4 (p - 24) m = Ok ALLOC_MAGIC /\ ld8 (p - 24 + 8) m = Ok s /\
  ld8 (p - 24 + 16) m = Ok start.

Lemma free_hdr_frame m m' a s p n :
  same_on m m' a 32 -> free_hdr m a s p n -> free_hdr m' a s p n.
Proof.
  intros [H8 H4] (E1 & E2 & E3 & E4).
  split; [rewrite H4 by lia; done|]. repeat split; rewrite H8 by lia; done.
Qed.

Lemma alloc_hdr_frame m m' p s st :
  same_on m m' (p - 24) 24 -> alloc_hdr m p s st -> alloc_hdr m' p s st.
Proof.
  intros [H8 H4] (E1 & E2 & E3).
  split; [rewrite H4 by lia; done|]. split; rewrite H8 by lia; done.
Qed.

(** ** Lists of free blocks: address and size *)

Abbreviation blocks := (list (Z * Z)).

Fixpoint ascending (lo : Z) (L : blocks) : Prop :=
  match L with
  | [] => True
  | (a, s) :: L => lo < a /\ MIN_SIZE <= s /\ ascending (a + s) L
  end.

Fixpoint end_of (lo : Z) (L : blocks) : Z :=
  match L with
  | [] => lo
  | (a, s) :: L => end_of (a + s) L
  end.

Definition first_addr (n : Z) (L : blocks) : Z :=
  match L with [] => n | (a, _) :: _ => a end.

Fixpoint last_addr (p : Z) (L : blocks) : Z :=
  match L with [] => p | (a, _) :: L => last_addr a L end.

(** The doubly linked list from [p] (before it) to [n] (after it). *)
Fixpoint linked (m : memory) (p : Z) (L : blocks) (n : Z) : Prop :=
  match L with
  | [] => True
  | (a, s) :: L => free_hdr m a s p (first_addr n L) /\ linked m a L n
  end.

Lemma first_addr_app n L1 L2 : first_addr n (L1 ++ L2) = first_addr (first_addr n L2) L1.
Proof. by destruct L1 as [|[a s] L1]. Qed.

Lemma last_addr_app p L1 L2 : last_addr p (L1 ++ L2) = last_addr (last_addr p L1) L2.
Proof. revert p. induction L1 as [|[a s] L1 IH]; intros p; cbn; auto. Qed.

Lemma end_of_app lo L1 L2 : end_of lo (L1 ++ L2) = end_of (end_of lo L1) L2.
Proof. revert lo. induction L1 as [|[a s] L1 IH]; intros lo; cbn; auto. Qed.

Lemma ascending_app lo L1 L2 :
  ascending lo (L1 ++ L2) <-> ascending lo L1 /\ ascending (end_of lo L1) L2.
Proof.
  revert lo. induction L1 as [|[a s] L1 IH]; intros lo; cbn; [tauto|]. rewrite IH. tauto.
Qed.

Lemma linked_app m p L1 L2 n :
  linked m p (L1 ++ L2) n <->
  linked m p L1 (first_addr n L2) /\ linked m (last_addr p L1) L2 n.
Proof.
  revert p. induction L1 as [|[a s] L1 IH]; intros p; cbn; [tauto|].
  rewrite IH, first_addr_app. tauto.
Qed.

Lemma ascending_weaken lo lo' L : ascending lo L -> lo' <= lo -> ascending lo' L.
Proof. destruct L as [|[a s] L]; cbn; [done|]. intros (? & ? & ?) ?. repeat split; auto; lia. Qed.

Lemma end_of_ge lo L : ascending lo L -> lo <= end_of lo L.
Proof.
  revert lo. induction L as [|[a s] L IH]; cbn; intros lo; [lia|].
  intros (? & ? & Ha). apply IH in Ha. unfold MIN_SIZE in *. lia.
Qed.

Lemma end_of_base lo lo' L : L <> [] -> end_of lo L = end_of lo' L.
Proof. by destruct L as [|[a s] L]. Qed.

Lemma ascending_in lo L a s :
  ascending lo L -> (a, s) ∈ L -> lo < a /\ MIN_SIZE <= s /\ a + s <= end_of lo L.
Proof.
  revert lo. induction L as [|[b t] L IH]; cbn; intros lo; [by intros _ ?%not_elem_of_nil|].
  intros (H1 & H2 & Ha) Hin. apply elem_of_cons in Hin as [Hin|Hin].
  - injection Hin as -> ->. pose proof (end_of_ge _ _ Ha). lia.
  - specialize (IH _ Ha Hin). unfold MIN_SIZE in *. lia.
Qed.

Lemma last_addr_in p L : last_addr p L = p /\ L = [] \/ exists s, (last_addr p L, s) ∈ L /\
  end_of 0 L = last_addr p L + s.
Proof.
  revert p. induction L as [|[a s] L IH]; intros p; cbn; [by left|]. right.
  destruct (IH a) as [[-> ->]|(t & Ht & E)].
  - exists s. split; [set_solver|done].
  - exists t. split; [set_solver|]. rewrite (end_of_base _ 0); [done|]. by intros ->; apply not_elem_of_nil in Ht.
Qed.

Lemma linked_frame m m' p L n :
  (forall a s, (a, s) ∈ L -> same_on m m' a 32) -> linked m p L n -> linked m' p L n.
Proof.
  revert p. induction L as [|[a s] L IH]; cbn; intros p HS; [done|]. intros [Hh Hl]. split.
  - eapply free_hdr_frame; [|done]. apply (HS a s). set_solver.
  - apply IH; [|done]. intros b t Hb. apply (HS b t). set_solver.
Qed.

(** The list after [next] of its last block, or [prev] of its first, is set. *)
Definition link_next_m (m : memory) (a v : Z) : memory :=
  if a =? NULL then m else st8 (a + 24) v m.
Definition link_prev_m (m : memory) (a v : Z) : memory :=
  if a =? NULL then m else st8 (a + 16) v m.

Lemma linked_set_next m L n v :
  ascending 0 L -> linked m 0 L n -> linked (link_next_m m (last_addr 0 L) v) 0 L v.
Proof.
  destruct L as [|[a s] L _] using rev_ind; [done|].
  rewrite last_addr_app, ascending_app, !linked_app. cbn. intros (A1 & A2 & A3 & _) (L1 & Hh & _).
  unfold link_next_m, NULL. pose proof (end_of_ge _ _ A1).
  destruct (Z.eqb_spec a 0); [lia|]. split; [|split; [|done]].
  - eapply linked_frame; [|exact L1]. intros b t Hb. apply (ascending_in _ _ _ _ A1) in Hb as (? & ? & ?).
    unfold MIN_SIZE in *. apply same_on_st8; [apply same_on_refl|lia].
  - destruct Hh as (E1 & E2 & E3 & E4). repeat split; ldst; done.
Qed.

Lemma linked_set_prev m p L lo v :
  0 <= lo -> ascending lo L -> linked m p L 0 -> linked (link_prev_m m (first_addr 0 L) v) v L 0.
Proof.
  destruct L as [|[a s] L]; [done|]. cbn. intros Hlo (A1 & A2 & A3) (Hh & Hl).
  unfold link_prev_m, NULL. unfold MIN_SIZE in *.
  destruct (Z.eqb_spec a 0); [lia|]. split.
  - destruct Hh as (E1 & E2 & E3 & E4). repeat split; ldst; done.
  - eapply linked_frame; [|exact Hl]. intros b t Hb. apply (ascending_in _ _ _ _ A3) in Hb as (? & ? & ?).
    apply same_on_st8; [apply same_on_refl|lia].
Qed.

Lemma same_on_link_next m m' a v b w :
  same_on m m' b w -> a = 0 \/ a + 32 <= b \/ b + w <= a -> same_on m (link_next_m m' a v) b w.
Proof.
  intros HS Hd. unfold link_next_m, NULL. destruct (Z.eqb_spec a 0); [done|].
  apply same_on_st8; [done|lia].
Qed.

Lemma same_on_link_prev m m' a v b w :
  same_on m m' b w -> a = 0 \/ a + 32 <= b \/ b + w <= a -> same_on m (link_prev_m m' a v) b w.
Proof.
  intros HS Hd. unfold link_prev_m, NULL. destruct (Z.eqb_spec a 0); [done|].
  apply same_on_st8; [done|lia].
Qed.

(** Both neighbours of a gap in a list are linked to what now stands there. *)
Lemma relink m L1 L2 lo n p f g :
  ascending 0 L1 -> end_of 0 L1 <= lo -> ascending lo L2 ->
  linked m 0 L1 n -> linked m p L2 0 ->
  let m' := link_next_m (link_prev_m m (first_addr 0 L2) g) (last_addr 0 L1) f in
  linked m' 0 L1 f /\ linked m' g L2 0.
Proof.
  intros A1 Hlo A2 K1 K2. pose proof (end_of_ge _ _ A1). split.
  - apply (linked_set_next _ _ n); [done|]. eapply linked_frame; [|exact K1]. intros b t Hb.
    apply (ascending_in _ _ _ _ A1) in Hb as (? & ? & ?). apply same_on_link_prev; [apply same_on_refl|].
    destruct L2 as [|[c u] L2]; cbn in *; [by left|]. unfold MIN_SIZE in *. right. right. lia.
  - eapply linked_frame; [|apply (linked_set_prev m p L2 lo); [lia|done|done]]. intros b t Hb.
    apply (ascending_in _ _ _ _ A2) in Hb as (? & ? & ?). apply same_on_link_next; [apply same_on_refl|].
    destruct (last_addr_in 0 L1) as [[-> _]|(u & Hu & E)]; [by left|].
    apply (ascending_in _ _ _ _ A1) in Hu as (? & ? & ?). unfold MIN_SIZE in *. right. left. lia.
Qed.

(** The same with the two stores in the other order. *)
Lemma relink' m L1 L2 lo n p f g :
  ascending 0 L1 -> end_of 0 L1 <= lo -> ascending lo L2 ->
  linked m 0 L1 n -> linked m p L2 0 ->
  let m' := link_prev_m (link_next_m m (last_addr 0 L1) f) (first_addr 0 L2) g in
  linked m' 0 L1 f /\ linked m' g L2 0.
Proof.
  intros A1 Hlo A2 K1 K2. pose proof (end_of_ge _ _ A1). split.
  - eapply linked_frame; [|apply (linked_set_next m L1 n); done]. intros b t Hb.
    apply (ascending_in _ _ _ _ A1) in Hb as (? & ? & ?). apply same_on_link_prev; [apply same_on_refl|].
    destruct L2 as [|[c u] L2]; cbn in *; [by left|]. unfold MIN_SIZE in *. right. right. lia.
  - apply (linked_set_prev _ p L2 lo); [lia|done|]. eapply linked_frame; [|exact K2]. intros b t Hb.
    apply (ascending_in _ _ _ _ A2) in Hb as (? & ? & ?). apply same_on_link_next; [apply same_on_refl|].
    destruct (last_addr_in 0 L1) as [[-> _]|(u & Hu & E)]; [by left|].
    apply (ascending_in _ _ _ _ A1) in Hu as (? & ? & ?). unfold MIN_SIZE in *. right. left. lia.
Qed.

(** ** The invariant *)

Definition disj (x y : Z * Z) : Prop := fst x + snd x <= fst y \/ fst y + snd y <= fst x.

(** A block of [s] bytes at [st] whose user sees [p]. *)
Definition alloc_shape (p s st : Z) : Prop :=
  0 < st /\ st + ALLOC_HDR <= p /\ MIN_SIZE <= s /\ p < st + s /\ st + s < 2 ^ 63.

(** [L] are the free blocks of the two heaps, [A] the allocated blocks by the
    address given to the user: size and start. *)
Record heap_ok (h : kheap) (L : heap_type -> blocks) (A : gmap Z (Z * Z)) : Prop := {
  ko_head : forall t, free_list h t = first_addr 0 (L t);
  ko_linked : forall t, linked (kh_mem h) 0 (L t) 0;
  ko_asc : forall t, ascending 0 (L t);
  ko_top : forall t, end_of 0 (L t) < 2 ^ 63;
  ko_lists : forall t t' x y, t <> t' -> x ∈ L t -> y ∈ L t' -> disj x y;
  ko_alloc : forall p s st, A !! p = Some (s, st) ->
    alloc_hdr (kh_mem h) p s st /\ alloc_shape p s st;
  ko_free_alloc : forall t x p s st, x ∈ L t -> A !! p = Some (s, st) -> disj x (st, s);
  ko_alloc_alloc : forall p q s st s' st', p <> q ->
    A !! p = Some (s, st) -> A !! q = Some (s', st') -> disj (st, s) (st', s')
}.

Definition upd (L : heap_type -> blocks) (t : heap_type) (l : blocks) : heap_type -> blocks :=
  fun t' => if decide (t' = t) then l else L t'.

Lemma upd_same L t l : upd L t l t = l.
Proof. unfold upd. by rewrite decide_True. Qed.

Lemma upd_other L t l t' : t' <> t -> upd L t l t' = L t'.
Proof. intros Hne. unfold upd. by rewrite decide_False. Qed.

(** A change confined to the blocks of list [l] and the region [a, a + s). *)
Definition confined (m m' : memory) (l : blocks) (a s : Z) : Prop :=
  forall b w, 0 < w -> (forall x, x ∈ l -> disj x (b, w)) -> disj (a, s) (b, w) -> same_on m m' b w.

Lemma split_asc lo L1 a s L2 :
  ascending lo (L1 ++ (a, s) :: L2) ->
  ascending lo L1 /\ end_of lo L1 < a /\ MIN_SIZE <= s /\ ascending (a + s) L2 /\
  end_of lo (L1 ++ (a, s) :: L2) = end_of (a + s) L2.
Proof.
  rewrite ascending_app, end_of_app. cbn. tauto.
Qed.

Definition inside (x y : Z * Z) : Prop :=
  0 < snd x /\ fst y <= fst x /\ fst x + snd x <= fst y + snd y.

Lemma disj_sym x y : disj x y -> disj y x.
Proof. unfold disj. tauto. Qed.

Lemma disj_inside x y z : disj x z -> inside y x -> disj y z.
Proof. unfold disj, inside. lia. Qed.

(** The blocks after the replacement of [(a, s)] by [Y]. *)
Lemma carve_blocks L1 a s L2 Y :
  ascending 0 (L1 ++ (a, s) :: L2) -> end_of 0 (L1 ++ (a, s) :: L2) < 2 ^ 63 ->
  ascending (a - 1) Y -> end_of (a - 1) Y <= a + s ->
  ascending 0 (L1 ++ Y ++ L2) /\ end_of 0 (L1 ++ Y ++ L2) < 2 ^ 63 /\
  (forall x, x ∈ L1 ++ Y ++ L2 ->
     (x ∈ L1 ++ (a, s) :: L2 /\ disj x (a, s)) \/ (x ∈ Y /\ inside x (a, s))).
Proof.
  intros As Htop AY HY. apply split_asc in As as (A1 & HL1 & Hs & A2 & Eend). rewrite Eend in Htop.
  pose proof (end_of_ge _ _ A1). pose proof (end_of_ge _ _ A2). pose proof (end_of_ge _ _ AY).
  unfold MIN_SIZE in *. split; [|split].
  - rewrite !ascending_app. split; [done|]. split; [eapply ascending_weaken; [exact AY|lia]|].
    eapply ascending_weaken; [exact A2|]. destruct Y as [|y Y]; [cbn in *; lia|].
    rewrite (end_of_base _ (a - 1)) by done. lia.
  - rewrite !end_of_app. destruct L2 as [|y L2].
    + cbn in *. destruct Y as [|y Y]; [cbn; lia|]. rewrite (end_of_base _ (a - 1)) by done. lia.
    + by rewrite (end_of_base _ (a + s)) by done.
  - intros [b w] Hx. rewrite !elem_of_app in Hx. destruct Hx as [Hx|[Hx|Hx]].
    + left. split; [set_solver|]. apply (ascending_in _ _ _ _ A1) in Hx. unfold disj. cbn. lia.
    + right. split; [done|]. apply (ascending_in _ _ _ _ AY) in Hx. unfold inside, MIN_SIZE in *. cbn. lia.
    + left. split; [set_solver|]. apply (ascending_in _ _ _ _ A2) in Hx. unfold disj. cbn. lia.
Qed.

(** The invariant after list [t] became [l] and the allocations became [A']. *)
Lemma rebuild_ok h h' L A t l A' :
  heap_ok h L A ->
  (forall t', free_list h' t' = first_addr 0 (upd L t l t')) ->
  linked (kh_mem h') 0 l 0 -> ascending 0 l -> end_of 0 l < 2 ^ 63 ->
  (forall t' b w, t' <> t -> (b, w) ∈ L t' -> same_on (kh_mem h) (kh_mem h') b w) ->
  (forall t' x y, t' <> t -> x ∈ l -> y ∈ L t' -> disj x y) ->
  (forall p s st, A' !! p = Some (s, st) -> alloc_hdr (kh_mem h') p s st /\ alloc_shape p s st) ->
  (forall x p s st, x ∈ l -> A' !! p = Some (s, st) -> disj x (st, s)) ->
  (forall t' x p s st, t' <> t -> x ∈ L t' -> A' !! p = Some (s, st) -> disj x (st, s)) ->
  (forall p q s st s' st', p <> q -> A' !! p = Some (s, st) -> A' !! q = Some (s', st') ->
     disj (st, s) (st', s')) ->
  heap_ok h' (upd L t l) A'.
Proof.
  intros K HH KL As Htop HF HD HA HlA HoA HAA. split; try done.
  - intros t'. destruct (decide (t' = t)) as [->|Hne]; [by rewrite upd_same|].
    rewrite upd_other by done. eapply linked_frame; [|apply (ko_linked _ _ _ K)].
    intros b w Hb. pose proof (ascending_in _ _ _ _ (ko_asc _ _ _ K t') Hb) as (? & ? & ?).
    eapply same_on_sub; [by apply (HF t')|lia|unfold MIN_SIZE in *; lia].
  - intros t'. destruct (decide (t' = t)) as [->|Hne]; [by rewrite upd_same|].
    rewrite upd_other by done. apply K.
  - intros t'. destruct (decide (t' = t)) as [->|Hne]; [by rewrite upd_same|].
    rewrite upd_other by done. apply K.
  - intros t1 t2 x y Hne Hx Hy. unfold upd in *.
    destruct (decide (t1 = t)) as [->|], (decide (t2 = t)) as [->|]; [done|by eapply HD| |].
    + by eapply disj_sym, HD.
    + by apply (ko_lists _ _ _ K t1 t2).
  - intros t' x p s st Hx Hp. unfold upd in Hx.
    destruct (decide (t' = t)) as [->|]; [by eapply HlA|by eapply HoA].
Qed.

(** Headers of allocated blocks lie outside of what was changed. *)
Lemma alloc_kept h m' L A t R :
  heap_ok h L A -> confined (kh_mem h) m' (L t) (fst R) (snd R) ->
  forall p s st, A !! p = Some (s, st) -> disj R (st, s) -> alloc_hdr m' p s st /\ alloc_shape p s st.
Proof.
  intros K C p s st Hp HR. destruct (ko_alloc _ _ _ K _ _ _ Hp) as [Hh Hsh]. split; [|done].
  eapply alloc_hdr_frame; [|exact Hh]. unfold alloc_shape, ALLOC_HDR, MIN_SIZE in Hsh.
  eapply same_on_sub; [apply (C st s); [lia|..]|lia|lia].
  - intros x Hx. by apply (ko_free_alloc _ _ _ K t x p).
  - destruct R. done.
Qed.

Lemma others_kept h m' L A t R :
  heap_ok h L A -> confined (kh_mem h) m' (L t) (fst R) (snd R) ->
  forall t' b w, t' <> t -> (b, w) ∈ L t' -> disj R (b, w) -> same_on (kh_mem h) m' b w.
Proof.
  intros K C t' b w Hne Hb HR.
  pose proof (ascending_in _ _ _ _ (ko_asc _ _ _ K t') Hb) as (? & ? & ?).
  apply C; [unfold MIN_SIZE in *; lia| |destruct R; done].
  intros x Hx. by apply (ko_lists _ _ _ K t t').
Qed.

Lemma fresh_block h L A t a s p sz st :
  heap_ok h L A -> (a, s) ∈ L t -> alloc_shape p sz st -> a <= st -> st + sz <= a + s -> A !! p = None.
Proof.
  intros K Hin HS Hst Hsz. apply eq_None_not_Some. intros [[s' st'] Hp].
  pose proof (ko_alloc _ _ _ K _ _ _ Hp) as [_ Hp'].
  pose proof (ko_free_alloc _ _ _ K _ _ _ _ _ Hin Hp) as Hd.
  unfold disj, alloc_shape, ALLOC_HDR in *. cbn in *. lia.
Qed.

(** Blocks [Y] take the place of [(a, s)] in list [t], and part of its space
    becomes an allocated block. *)
Lemma carve_ok h h' L A t L1 a s L2 Y p sz st :
  heap_ok h L A -> L t = L1 ++ (a, s) :: L2 ->
  ascending (a - 1) Y -> end_of (a - 1) Y <= a + s ->
  linked (kh_mem h') 0 (L1 ++ Y ++ L2) 0 ->
  confined (kh_mem h) (kh_mem h') (L t) a s ->
  (forall t', free_list h' t' = first_addr 0 (upd L t (L1 ++ Y ++ L2) t')) ->
  alloc_hdr (kh_mem h') p sz st -> alloc_shape p sz st -> a <= st -> st + sz <= a + s ->
  (forall y, y ∈ Y -> disj y (st, sz)) ->
  heap_ok h' (upd L t (L1 ++ Y ++ L2)) (<[p := (sz, st)]> A) /\ A !! p = None.
Proof.
  intros K EL AY HY KL C HH HA HS Hst Hsz HD.
  assert (Hin : (a, s) ∈ L t) by (rewrite EL; set_solver).
  assert (Hp : A !! p = None) by (by eapply fresh_block).
  pose proof (ko_asc _ _ _ K t) as As. pose proof (ko_top _ _ _ K t) as Htop. rewrite EL in As, Htop.
  destruct (carve_blocks _ _ _ _ _ As Htop AY HY) as (AYL & Htop' & Hnew). rewrite <- EL in Hnew.
  assert (Hi : inside (st, sz) (a, s)) by (unfold inside, alloc_shape, MIN_SIZE in *; cbn; lia).
  assert (HAx : forall q s' st', (<[p:=(sz, st)]> A) !! q = Some (s', st') ->
    q = p /\ s' = sz /\ st' = st \/ q <> p /\ A !! q = Some (s', st') /\ disj (a, s) (st', s')).
  { intros q s' st' Hq. destruct (decide (q = p)) as [->|Hne].
    - rewrite lookup_insert_eq in Hq. injection Hq as <- <-. by left.
    - rewrite lookup_insert_ne in Hq by done. right. split; [done|]. split; [done|].
      by apply (ko_free_alloc _ _ _ K t _ q). }
  split; [|done]. eapply rebuild_ok; try done.
  - intros t' b w Hne Hb. eapply (others_kept _ _ _ _ _ (a, s)); try done.
    by apply (ko_lists _ _ _ K t t').
  - intros t' x y Hne Hx Hy. apply Hnew in Hx as [[Hx _]|[_ Hx]].
    + by apply (ko_lists _ _ _ K t t').
    + eapply disj_inside; [|exact Hx]. by apply (ko_lists _ _ _ K t t').
  - intros q s' st' Hq. apply HAx in Hq as [(-> & -> & ->)|(Hne & Hq & Hd)]; [done|].
    by apply (alloc_kept _ _ _ _ t (a, s) K C).
  - intros x q s' st' Hx Hq. apply HAx in Hq as [(-> & -> & ->)|(Hne & Hq & Hd)].
    + apply Hnew in Hx as [[_ Hx]|[Hx _]]; [|by apply HD].
      apply disj_sym. eapply disj_inside; [by apply disj_sym|done].
    + apply Hnew in Hx as [[Hx _]|[_ Hx]]; [by apply (ko_free_alloc _ _ _ K t _ q)|].
      by eapply disj_inside.
  - intros t' x q s' st' Hne Hx Hq. apply HAx in Hq as [(-> & -> & ->)|(Hneq & Hq & Hd)].
    + apply disj_sym. eapply disj_inside; [|exact Hi]. by apply (ko_lists _ _ _ K t t').
    + by apply (ko_free_alloc _ _ _ K t' _ q).
  - intros q r s1 st1 s2 st2 Hne Hq Hr.
    apply HAx in Hq as [(-> & -> & ->)|(Hnq & Hq & Hdq)], Hr as [(-> & -> & ->)|(Hnr & Hr & Hdr)].
    + done.
    + by eapply disj_inside.
    + apply disj_sym. by eapply disj_inside.
    + by apply (ko_alloc_alloc _ _ _ K q r).
Qed.

(** ** Stores inside a region, and links of the blocks of a list *)

Lemma same_on_trans m1 m2 m3 a w : same_on m1 m2 a w -> same_on m2 m3 a w -> same_on m1 m3 a w.
Proof.
  intros [E8 E4] [F8 F4]. split; intros k Hk Hw.
  - rewrite F8, E8 by done. done.
  - rewrite F4, E4 by done. done.
Qed.

Definition touched (m m' : memory) (a s : Z) : Prop :=
  forall b w, 0 < w -> disj (a, s) (b, w) -> same_on m m' b w.

Lemma touched_refl m a s : touched m m a s.
Proof. intros b w _ _. apply same_on_refl. Qed.

Lemma touched_st8 m m' a s k v :
  touched m m' a s -> a <= k -> k + 8 <= a + s -> touched m (st8 k v m') a s.
Proof.
  intros T H1 H2 b w Hw Hd. apply same_on_st8; [by apply T|]. unfold disj in Hd. cbn in Hd. lia.
Qed.

Lemma touched_st4 m m' a s k v :
  touched m m' a s -> a <= k -> k + 4 <= a + s -> touched m (st4 k v m') a s.
Proof.
  intros T H1 H2 b w Hw Hd. apply same_on_st4; [by apply T|]. unfold disj in Hd. cbn in Hd. lia.
Qed.

Ltac touched_tac :=
  repeat match goal with
    | |- touched _ (st8 _ _ _) _ _ => apply touched_st8; [|lia|lia]
    | |- touched _ (st4 _ _ _) _ _ => apply touched_st4; [|lia|lia]
    | |- touched _ _ _ _ => apply touched_refl
    end.

Lemma linked_touched m m' a s p L n lo :
  touched m m' a s -> ascending lo L -> (forall x, x ∈ L -> disj (a, s) x) ->
  linked m p L n -> linked m' p L n.
Proof.
  intros T As HL. apply linked_frame. intros b w Hb.
  pose proof (ascending_in _ _ _ _ As Hb) as (? & ? & ?). unfold MIN_SIZE in *.
  eapply same_on_sub; [apply (T b w); [lia|by apply HL]|lia|lia].
Qed.

Lemma confined_start m l a s : confined m m l a s.
Proof. intros b w _ _ _. apply same_on_refl. Qed.

Lemma confined_touched m m' m'' l a s :
  confined m m' l a s -> touched m' m'' a s -> confined m m'' l a s.
Proof.
  intros C T b w Hw Hl Hd. eapply same_on_trans; [by apply C|by apply T].
Qed.

Lemma confined_link_next m m' l a s b v :
  confined m m' l a s -> b = 0 \/ (exists t, (b, t) ∈ l /\ MIN_SIZE <= t) ->
  confined m (link_next_m m' b v) l a s.
Proof.
  intros C Hb c w Hw Hl Hd. apply same_on_link_next; [by apply C|].
  destruct Hb as [->|(t & Ht & Hm)]; [by left|]. right. apply Hl in Ht. unfold disj, MIN_SIZE in *.
  cbn in *. lia.
Qed.

Lemma confined_link_prev m m' l a s b v :
  confined m m' l a s -> b = 0 \/ (exists t, (b, t) ∈ l /\ MIN_SIZE <= t) ->
  confined m (link_prev_m m' b v) l a s.
Proof.
  intros C Hb c w Hw Hl Hd. apply same_on_link_prev; [by apply C|].
  destruct Hb as [->|(t & Ht & Hm)]; [by left|]. right. apply Hl in Ht. unfold disj, MIN_SIZE in *.
  cbn in *. lia.
Qed.

Lemma first_addr_in lo L :
  ascending lo L -> first_addr 0 L = 0 \/ exists t, (first_addr 0 L, t) ∈ L /\ MIN_SIZE <= t.
Proof.
  destruct L as [|[a s] L]; cbn; [by left|]. intros (? & ? & _). right. exists s. split; [set_solver|done].
Qed.

Lemma last_addr_in' L :
  ascending 0 L -> last_addr 0 L = 0 \/ exists t, (last_addr 0 L, t) ∈ L /\ MIN_SIZE <= t.
Proof.
  intros As. destruct (last_addr_in 0 L) as [[-> _]|(t & Ht & _)]; [by left|]. right.
  exists t. split; [done|]. by apply (ascending_in _ _ _ _ As) in Ht as (_ & ? & _).
Qed.

(** ** The state around the memory *)

Lemma set_mem_id h : set_mem h (kh_mem h) = h.
Proof. by destruct h. Qed.

Lemma link_prev_mem h a v : link_prev h a v = set_mem h (link_prev_m (kh_mem h) a v).
Proof. unfold link_prev, link_prev_m. destruct (a =? NULL); [by rewrite set_mem_id|done]. Qed.

Lemma link_next_mem h a v : link_next h a v = set_mem h (link_next_m (kh_mem h) a v).
Proof. unfold link_next, link_next_m. destruct (a =? NULL); [by rewrite set_mem_id|done]. Qed.

Lemma set_free_list_mem h t v m : set_free_list (set_mem h m) t v = set_mem (set_free_list h t v) m.
Proof. by destruct t. Qed.

Lemma free_list_set_mem h m t : free_list (set_mem h m) t = free_list h t.
Proof. by destruct t. Qed.

Lemma max_set_mem h m t : max_heap_size (set_mem h m) t = max_heap_size h t.
Proof. by destruct t. Qed.

Lemma kh_mem_set_free_list h t v : kh_mem (set_free_list h t v) = kh_mem h.
Proof. by destruct t. Qed.

Lemma max_set_free_list h t v t' : max_heap_size (set_free_list h t v) t' = max_heap_size h t'.
Proof. by destruct t, t'. Qed.

Lemma free_list_set h t v t' :
  free_list (set_free_list h t v) t' = if decide (t' = t) then v else free_list h t'.
Proof. by destruct t, t'. Qed.

Lemma replace_head_mem h a v m : replace_head (set_mem h m) a v = set_mem (replace_head h a v) m.
Proof.
  unfold replace_head. rewrite !free_list_set_mem, !set_free_list_mem.
  by destruct (_ =? _); [|destruct (_ =? _)].
Qed.

Lemma replace_head_frame h a v :
  kh_mem (replace_head h a v) = kh_mem h /\
  forall t, max_heap_size (replace_head h a v) t = max_heap_size h t.
Proof. unfold replace_head. repeat destruct (_ =? _); split; try done; by intros []. Qed.

(** The address of a block starts the list it is first in, and no other. *)
Lemma replace_head_ok h L A t L1 a s L2 v t' :
  heap_ok h L A -> L t = L1 ++ (a, s) :: L2 ->
  free_list (replace_head h a v) t' = if decide (t' = t) then first_addr v L1 else free_list h t'.
Proof.
  intros K EL. pose proof (ko_asc _ _ _ K t) as As. rewrite EL in As.
  apply split_asc in As as (A1 & H1 & Hs & A2 & _). pose proof (end_of_ge _ _ A1).
  assert (Hin : (a, s) ∈ L t) by (rewrite EL; set_solver). unfold MIN_SIZE in *.
  assert (Hself : a = free_list h t <-> L1 = []).
  { rewrite (ko_head _ _ _ K t), EL, first_addr_app. cbn. destruct L1 as [|[b w] L1]; cbn; [done|].
    split; [|done]. intros ->. cbn in A1, H1. destruct A1 as (? & ? & A1).
    pose proof (end_of_ge _ _ A1). unfold MIN_SIZE in *. lia. }
  assert (Hother : forall u, u <> t -> a <> free_list h u).
  { intros u Hu E. rewrite (ko_head _ _ _ K u) in E. pose proof (ko_asc _ _ _ K u) as Au.
    destruct (L u) as [|[b w] Lu] eqn:ELu; cbn in E, Au; [lia|].
    assert (Hd : disj (a, s) (b, w)) by (apply (ko_lists _ _ _ K t u); [done|done|rewrite ELu; set_solver]).
    unfold disj, MIN_SIZE in *. cbn in Hd. lia. }
  assert (Hkeep : L1 <> [] -> first_addr v L1 = free_list h t).
  { rewrite (ko_head _ _ _ K t), EL, first_addr_app. by destruct L1 as [|[b w] L1]. }
  unfold replace_head.
  destruct (Z.eqb_spec a (free_list h TEGRABL_HEAP_DEFAULT)) as [E|E];
    [|destruct (Z.eqb_spec a (free_list h TEGRABL_HEAP_DMA)) as [E2|E2]];
    rewrite ?free_list_set; destruct t; destruct t'; cbn [decide];
    try (exfalso; eapply Hother; [|eassumption]; done);
    repeat (destruct (decide _); try done);
    try (rewrite (proj1 Hself) by done; done);
    try (symmetry; apply Hkeep; intros HL; by apply Hself in HL).
Qed.
