(* ===== verification/MallocOps.v ===== *)
(** What the routines of the heap do to the lists of free blocks and the table of
    allocated blocks, on every branch. *)

From S2P Require Import Prelude TegraError BlockDev Malloc MallocFacts.

(** A place in the list of heap [t], and what it says about the header there. *)
Lemma place_hdr h L A t L1 a s L2 :
  heap_ok h L A -> L t = L1 ++ (a, s) :: L2 ->
  free_hdr (kh_mem h) a s (last_addr 0 L1) (first_addr 0 L2) /\
  linked (kh_mem h) 0 L1 a /\ linked (kh_mem h) a L2 0.
Proof.
  intros K EL. pose proof (ko_linked _ _ _ K t) as Kl. rewrite EL, linked_app in Kl. cbn in Kl. tauto.
Qed.

Lemma place_asc h L A t L1 a s L2 :
  heap_ok h L A -> L t = L1 ++ (a, s) :: L2 ->
  ascending 0 L1 /\ 0 <= end_of 0 L1 < a /\ MIN_SIZE <= s /\ ascending (a + s) L2 /\ a + s < 2 ^ 63.
Proof.
  intros K EL. pose proof (ko_asc _ _ _ K t) as As. pose proof (ko_top _ _ _ K t) as Htop.
  rewrite EL in As, Htop. apply split_asc in As as (A1 & H1 & Hs & A2 & Ee). rewrite Ee in Htop.
  pose proof (end_of_ge _ _ A1). pose proof (end_of_ge _ _ A2). repeat split; auto; lia.
Qed.

(** The neighbours do not touch the block between them. *)
Lemma neighbours_disj L1 a s L2 x :
  ascending 0 L1 -> end_of 0 L1 < a -> ascending (a + s) L2 -> 0 <= s ->
  x ∈ L1 \/ x ∈ L2 -> disj (a, s) x.
Proof.
  intros A1 H1 A2 Hs. destruct x as [b w]. unfold disj. cbn. intros [Hx|Hx].
  - apply (ascending_in _ _ _ _ A1) in Hx. lia.
  - apply (ascending_in _ _ _ _ A2) in Hx. lia.
Qed.

Lemma neighbour_addr l L1 X L2 lo :
  l = L1 ++ X :: L2 -> ascending 0 L1 -> ascending lo L2 ->
  (last_addr 0 L1 = 0 \/ exists t, (last_addr 0 L1, t) ∈ l /\ MIN_SIZE <= t) /\
  (first_addr 0 L2 = 0 \/ exists t, (first_addr 0 L2, t) ∈ l /\ MIN_SIZE <= t).
Proof.
  intros -> A1 A2. split.
  - destruct (last_addr_in' _ A1) as [->|(t & Ht & Hm)]; [by left|]. right. exists t. split; [set_solver|done].
  - destruct (first_addr_in _ _ A2) as [->|(t & Ht & Hm)]; [by left|]. right. exists t. split; [set_solver|done].
Qed.

(** ** Splitting *)

Section Split.
Context (h : kheap) (L : heap_type -> blocks) (A : gmap Z (Z * Z)) (t : heap_type).
Context (L1 : blocks) (a s : Z) (L2 : blocks) (size : Z).
Hypothesis K : heap_ok h L A.
Hypothesis EL : L t = L1 ++ (a, s) :: L2.
Hypothesis Hsize : MIN_SIZE <= size <= s.

Let prev := last_addr 0 L1.
Let next := first_addr 0 L2.
Let new_free := a + size.
Let m := kh_mem h.

(** What is left of the block in the list, and what is taken out of it. *)
Definition split_rest : blocks :=
  if s - size <=? MIN_SIZE then [] else [(new_free, s - size)].
Definition split_size : Z := if s - size <=? MIN_SIZE then s else size.

Definition split_mem : memory :=
  if s - size <=? MIN_SIZE then link_next_m (link_prev_m m next prev) prev next
  else
    st8 (a + 8) size (st4 new_free FREE_MAGIC (st8 (new_free + 8) (s - size)
      (link_prev_m (link_next_m (st8 (new_free + 24) next (st8 (new_free + 16) prev m))
         prev new_free) next new_free))).

Lemma split_eq :
  tegrabl_heap_split_block h a size =
    Ok (a, set_mem (replace_head h a (first_addr next split_rest)) split_mem).
Proof.
  destruct (place_hdr _ _ _ _ _ _ _ _ K EL) as ((E1 & E2 & E3 & E4) & _).
  destruct (place_asc _ _ _ _ _ _ _ _ K EL) as (_ & H1 & _ & _ & H2). unfold MIN_SIZE in Hsize.
  unfold tegrabl_heap_split_block, NULL. destruct (Z.eqb_spec a 0); [lia|].
  unfold get_size, get_prev, get_next. rewrite E2, E3, E4. cbn [res_bind].
  rewrite u64_small by lia. unfold split_rest, split_mem. destruct (_ <=? _).
  - by rewrite link_prev_mem, link_next_mem, (proj1 (replace_head_frame _ _ _)).
  - rewrite link_next_mem, link_prev_mem.
    unfold set_size, set_magic, set_prev, set_next. by rewrite !replace_head_mem.
Qed.

Lemma split_linked : linked split_mem 0 (L1 ++ split_rest ++ L2) 0.
Proof.
  destruct (place_hdr _ _ _ _ _ _ _ _ K EL) as (_ & K1 & K2).
  destruct (place_asc _ _ _ _ _ _ _ _ K EL) as (A1 & H1 & Hs & A2 & H2). unfold MIN_SIZE in *.
  assert (HN : forall x, x ∈ L1 \/ x ∈ L2 -> disj (a, s) x) by (intros x; apply neighbours_disj; auto; lia).
  unfold split_rest, split_mem. unfold MIN_SIZE. destruct (Z.leb_spec (s - size) 32) as [Hr|Hr].
  - cbn [app]. rewrite linked_app. apply (relink m L1 L2 (a + s) a a); [done|lia|done|done|done].
  - cbn [app]. rewrite linked_app. cbn [first_addr linked].
    set (m1 := st8 (new_free + 24) next (st8 (new_free + 16) prev m)).
    assert (T1 : touched m m1 a s) by (unfold m1, new_free; touched_tac).
    set (m2 := link_prev_m (link_next_m m1 prev new_free) next new_free).
    destruct (relink' m1 L1 L2 (a + s) a a new_free new_free) as [R1 R2]; [done|lia|done| | |].
    { eapply linked_touched; [exact T1|exact A1|auto|done]. }
    { eapply linked_touched; [exact T1|exact A2|auto|done]. }
    fold prev next m2 in R1, R2.
    assert (T3 : touched m2 (st8 (a + 8) size (st4 new_free FREE_MAGIC (st8 (new_free + 8) (s - size) m2))) a s)
      by (unfold new_free; touched_tac).
    split; [eapply linked_touched; [exact T3|exact A1|auto|done]|].
    split; [|eapply linked_touched; [exact T3|exact A2|auto|done]].
    assert (S : same_on m1 m2 (new_free + 16) 16).
    { unfold m2, new_free. destruct (neighbour_addr _ _ _ _ _ EL A1 A2) as [P1 P2].
      destruct (last_addr_in 0 L1) as [[E _]|(u & Hu & E)].
      - apply same_on_link_prev; [apply same_on_link_next; [apply same_on_refl|by left]|].
        unfold next. destruct L2 as [|[c w] L2']; cbn in *; [by left|]. right. right. lia.
      - pose proof (ascending_in _ _ _ _ A1 Hu) as (? & ? & ?). unfold MIN_SIZE in *.
        apply same_on_link_prev; [apply same_on_link_next; [apply same_on_refl|right; left; unfold prev; lia]|].
        unfold next. destruct L2 as [|[c w] L2']; cbn in *; [by left|]. right. right. lia. }
    destruct S as [S8 _]. unfold new_free in *. repeat split; ldst; try done.
    + rewrite S8 by lia. unfold m1. ldst. done.
    + rewrite S8 by lia. unfold m1. ldst. done.
Qed.

Lemma split_confined : confined m split_mem (L t) a s.
Proof.
  destruct (place_asc _ _ _ _ _ _ _ _ K EL) as (A1 & H1 & Hs & A2 & H2). unfold MIN_SIZE in *.
  destruct (neighbour_addr _ _ _ _ _ EL A1 A2) as [P1 P2].
  unfold split_mem. unfold MIN_SIZE. destruct (Z.leb_spec (s - size) 32).
  - by apply confined_link_next; [apply confined_link_prev; [apply confined_start|]|].
  - eapply confined_touched; [|unfold new_free; touched_tac].
    apply confined_link_prev; [apply confined_link_next|]; [|done|done].
    eapply confined_touched; [apply confined_start|]. unfold new_free. touched_tac.
Qed.

Lemma split_heads t' v :
  free_list (set_mem (replace_head h a (first_addr next split_rest)) v) t' =
  first_addr 0 (upd L t (L1 ++ split_rest ++ L2) t').
Proof.
  rewrite free_list_set_mem, (replace_head_ok _ _ _ _ _ _ _ _ _ _ K EL). unfold upd.
  destruct (decide (t' = t)); [|apply K]. by rewrite !first_addr_app.
Qed.

Lemma split_size_field : ld8 (a + 8) split_mem = Ok split_size.
Proof.
  destruct (place_hdr _ _ _ _ _ _ _ _ K EL) as ((_ & E2 & _) & _).
  destruct (place_asc _ _ _ _ _ _ _ _ K EL) as (A1 & H1 & Hs & A2 & H2). unfold MIN_SIZE in *.
  unfold split_mem, split_size. destruct (_ <=? _); [|by rewrite ld8_st8].
  assert (S : same_on m (link_next_m (link_prev_m m next prev) prev next) a 32).
  { apply same_on_link_next.
    - apply same_on_link_prev; [apply same_on_refl|]. unfold next.
      destruct L2 as [|[c w] L2']; cbn in *; [by left|]. right. right. lia.
    - destruct (last_addr_in 0 L1) as [[E _]|(u & Hu & E)]; [by left|].
      pose proof (ascending_in _ _ _ _ A1 Hu) as (? & ? & ?). unfold MIN_SIZE in *.
      right. left. unfold prev. lia. }
  destruct S as [S8 _]. by rewrite S8 by lia.
Qed.

Lemma split_rest_ok :
  ascending (a - 1) split_rest /\ end_of (a - 1) split_rest <= a + s /\
  size <= split_size <= s /\ (forall y, y ∈ split_rest -> y = (a + split_size, s - split_size)).
Proof.
  destruct (place_asc _ _ _ _ _ _ _ _ K EL) as (_ & H1 & Hs & _ & _).
  unfold split_rest, split_size, new_free, MIN_SIZE in *. destruct (Z.leb_spec (s - size) 32); cbn.
  - split; [done|]. split; [lia|]. split; [lia|]. intros y Hy. by apply not_elem_of_nil in Hy.
  - split; [unfold MIN_SIZE; lia|]. split; [lia|]. split; [lia|]. intros y Hy.
    by apply list_elem_of_singleton in Hy.
Qed.

End Split.

(** ** Walking a list *)

Lemma linked_dom m p l n :
  linked m p l n -> (list_to_set (fst <$> l) : gset Z) ⊆ dom m.
Proof.
  revert p. induction l as [|[a s] l IH]; intros p; cbn; [set_solver|].
  intros [(E & _) Kl]. apply IH in Kl. assert (a ∈ dom m); [|set_solver].
  apply elem_of_dom. unfold ld4 in E. destruct (m !! a); [eauto|done].
Qed.

Lemma ascending_nodup lo l : ascending lo l -> NoDup (fst <$> l).
Proof.
  revert lo. induction l as [|[a s] l IH]; intros lo; cbn; [constructor|]. intros (H1 & H2 & As).
  constructor; [|by eapply IH]. intros Hin. apply list_elem_of_fmap in Hin as ([b w] & E & Hb).
  cbn in E. subst b. apply (ascending_in _ _ _ _ As) in Hb. unfold MIN_SIZE in *. lia.
Qed.

Lemma linked_length m l : linked m 0 l 0 -> ascending 0 l -> (length l <= size m)%nat.
Proof.
  intros Kl As. apply linked_dom, subseteq_size in Kl.
  rewrite size_list_to_set in Kl by (by eapply ascending_nodup).
  by rewrite length_fmap, size_dom in Kl.
Qed.

Lemma list_fuel_enough h L A t : heap_ok h L A -> (length (L t) < list_fuel h)%nat.
Proof.
  intros K. unfold list_fuel. apply Nat.lt_succ_r. apply linked_length; apply K.
Qed.

Section Find.
Context (asserts : bool) (h : kheap) (L : heap_type -> blocks) (A : gmap Z (Z * Z)).
Hypothesis K : heap_ok h L A.

(** First fit: the first block that is larger than the request. *)
Lemma malloc_find_spec t L1 L2 fuel sz :
  L t = L1 ++ L2 -> (length L2 <= fuel)%nat ->
  malloc_find asserts fuel h (first_addr 0 L2) sz =
    match list_find (fun x => sz < snd x) L2 with
    | Some (_, (a, _)) => tegrabl_heap_split_block h a sz
    | None => Ok (NULL, h)
    end.
Proof.
  revert L1 fuel. induction L2 as [|[a s] L2 IH]; intros L1 fuel EL Hf; [by destruct fuel|].
  destruct fuel as [|fuel]; [cbn in Hf; lia|].
  destruct (place_hdr _ _ _ _ _ _ _ _ K EL) as ((E1 & E2 & E3 & E4) & _).
  destruct (place_asc _ _ _ _ _ _ _ _ K EL) as (_ & H1 & _).
  cbn [malloc_find first_addr list_find snd]. unfold NULL. destruct (Z.eqb_spec a 0); [lia|].
  unfold get_magic, get_size, get_next, tegrabl_assert. rewrite E1, E2, E4.
  cbn [res_bind]. rewrite Z.eqb_refl. cbn [negb]. rewrite andb_false_r. cbn [res_bind].
  destruct (Z.ltb_spec sz s); [rewrite decide_True by done; done|rewrite decide_False by lia].
  rewrite (IH (L1 ++ [(a, s)])); [|by rewrite <- app_assoc|cbn in Hf; lia].
  by destruct (list_find _ L2) as [[k [b w]]|].
Qed.
End Find.

(** ** Allocation *)

(** Bytes taken from a block for a request of [size]. *)
Definition need (size : Z) : Z := Z.max (ROUND_UP8 size + ALLOC_HDR) MIN_SIZE.

Lemma need_bounds size : 0 < size < 2 ^ 63 ->
  size <= ROUND_UP8 size <= size + 7 /\ size + ALLOC_HDR <= need size <= size + 7 + ALLOC_HDR + 8 /\
  MIN_SIZE <= need size /\ need size mod 8 = 0.
Proof.
  intros Hs. unfold need, ROUND_UP8. rewrite (u64_small (size + 8 - 1)) by lia.
  replace (size + 8 - 1) with (size + 7) by lia.
  pose proof (Z.div_mod (size + 7) 8 ltac:(lia)). pose proof (Z.mod_pos_bound (size + 7) 8 ltac:(lia)).
  rewrite u64_small by lia. unfold ALLOC_HDR, MIN_SIZE. split; [lia|]. split; [lia|]. split; [lia|].
  destruct (Z.max_spec ((size + 7) / 8 * 8 + 24) 32) as [[_ ->]|[_ ->]]; [done|].
  rewrite Z.add_mod, Z.mod_mul by lia. done.
Qed.

Section Malloc.
Context (asserts : bool) (h : kheap) (L : heap_type -> blocks) (A : gmap Z (Z * Z)).
Hypothesis K : heap_ok h L A.

(** The block found is taken out of its list up to what is left of it. *)
Lemma take_block t L1 a s L2 sz :
  L t = L1 ++ (a, s) :: L2 -> MIN_SIZE <= sz <= s ->
  let Y := split_rest a s sz in
  exists h1, tegrabl_heap_split_block h a sz = Ok (a, h1) /\
    let h2 := set_magic (set_start h1 a a) a ALLOC_MAGIC in
    heap_ok h2 (upd L t (L1 ++ Y ++ L2)) (<[a + ALLOC_HDR := (split_size s sz, a)]> A) /\
    A !! (a + ALLOC_HDR) = None /\ (forall t', max_heap_size h2 t' = max_heap_size h t').
Proof.
  intros EL Hsz Y. rewrite (split_eq _ _ _ _ _ _ _ _ _ K EL Hsz). eexists. split; [reflexivity|]. cbv zeta.
  destruct (split_rest_ok _ _ _ _ _ _ _ _ _ K EL Hsz) as (AY & HY & Hss & Yy). fold Y in AY, HY, Yy.
  destruct (place_asc _ _ _ _ _ _ _ _ K EL) as (A1 & H1 & Hs & A2 & H2).
  pose proof (split_linked _ _ _ _ _ _ _ _ _ K EL Hsz) as KL. fold Y in KL.
  pose proof (split_size_field _ _ _ _ _ _ _ _ sz K EL) as Ef.
  set (m1 := split_mem h L1 a s L2 sz) in *. unfold MIN_SIZE, ALLOC_HDR in *.
  set (m2 := st4 a ALLOC_MAGIC (st8 (a + 16) a m1)).
  assert (T : touched m1 m2 a 32) by (unfold m2; touched_tac).
  pose proof (ko_asc _ _ _ K t) as As. pose proof (ko_top _ _ _ K t) as Htop. rewrite EL in As, Htop.
  destruct (carve_blocks _ _ _ _ _ As Htop AY HY) as (AYL & _ & Hnew).
  split; [|split].
  - apply (carve_ok h _ L A t L1 a s L2 Y); try done.
    + cbn [set_magic set_start set_mem kh_mem]. fold m1 m2.
      eapply linked_touched; [exact T|exact AYL| |exact KL].
      intros x Hx. apply Hnew in Hx as [[_ Hx]|[Hx _]].
      * unfold disj in *. cbn in *. lia.
      * apply Yy in Hx as ->. unfold disj. cbn. lia.
    + cbn [set_magic set_start set_mem kh_mem]. fold m1 m2.
      eapply confined_touched; [by apply (split_confined _ _ A)|]. unfold m2. touched_tac.
    + intros t'. unfold set_magic, set_start. rewrite !free_list_set_mem.
      rewrite <- (free_list_set_mem _ m1). apply (split_heads h L A t L1 a s L2 sz K EL).
    + cbn [set_magic set_start set_mem kh_mem]. fold m1 m2. unfold alloc_hdr, m2.
      replace (a + 24 - 24) with a by lia. repeat split; ldst; done.
    + unfold alloc_shape, ALLOC_HDR, MIN_SIZE. lia.
    + lia.
    + intros y Hy. apply Yy in Hy as ->. unfold disj. cbn. lia.
  - eapply fresh_block with (sz := split_size s sz) (st := a); [exact K| | | |].
    + rewrite EL. apply elem_of_app. right. left.
    + unfold alloc_shape, ALLOC_HDR, MIN_SIZE. lia.
    + lia.
    + lia.
  - intros t'. unfold set_magic, set_start. rewrite !max_set_mem. apply replace_head_frame.
Qed.

(** ** [tegrabl_generic_malloc] *)

Lemma generic_malloc_spec t size :
  0 < size < 2 ^ 62 ->
  match list_find (fun x => need size < snd x) (L t) with
  | None => tegrabl_generic_malloc asserts h (free_list h t) size = Ok (NULL, h)
  | Some (k, (a, s)) =>
      exists h', tegrabl_generic_malloc asserts h (free_list h t) size = Ok (a + ALLOC_HDR, h') /\
        heap_ok h'
          (upd L t (take k (L t) ++ split_rest a s (need size) ++ drop (S k) (L t)))
          (<[a + ALLOC_HDR := (split_size s (need size), a)]> A) /\
        A !! (a + ALLOC_HDR) = None /\ (forall t', max_heap_size h' t' = max_heap_size h t')
  end.
Proof.
  intros Hs. destruct (need_bounds size ltac:(lia)) as (Er & Hn1 & Hn2 & _).
  assert (Ea : tegrabl_generic_malloc asserts h (free_list h t) size =
    let* (alloc_block, h) := malloc_find asserts (list_fuel h) h (free_list h t) (need size) in
    if alloc_block =? NULL then Ok (NULL, h)
    else Ok (alloc_block + ALLOC_HDR,
             set_magic (set_start h alloc_block alloc_block) alloc_block ALLOC_MAGIC)).
  { unfold tegrabl_generic_malloc. destruct (Z.eqb_spec size 0); [lia|].
    rewrite u64_small by (unfold ALLOC_HDR; lia).
    destruct (Z.ltb_spec (ROUND_UP8 size + ALLOC_HDR) size); [unfold ALLOC_HDR in *; lia|]. done. }
  rewrite Ea, (ko_head _ _ _ K t).
  rewrite (malloc_find_spec asserts h L A K t [] (L t)); [|done|].
  2:{ pose proof (list_fuel_enough _ _ _ t K). lia. }
  destruct (list_find _ (L t)) as [[k [a s]]|] eqn:Ef; [|done].
  apply list_find_Some in Ef as (Hk & Hlt & _). cbn in Hlt.
  pose proof (take_drop_middle _ _ _ Hk) as EL. symmetry in EL.
  destruct (take_block t _ a s _ (need size) EL ltac:(lia)) as (h1 & E1 & K2 & Hp & Hm).
  destruct (place_asc _ _ _ _ _ _ _ _ K EL) as (_ & H1 & _).
  rewrite E1. cbn [res_bind]. unfold NULL. destruct (Z.eqb_spec a 0); [lia|]. eauto.
Qed.
End Malloc.
