(* ===== verification/MallocFree.v ===== *)
(** Giving a block back: it is put into the sorted list and joined with the blocks
    it touches. *)

From S2P Require Import Prelude TegraError BlockDev Malloc MallocFacts MallocOps.

(** ** The abstract list operation *)

(** Block [(a, s)] in front of [L], joined with the first block of [L] if it ends
    where that begins. *)
Definition join_next (a s : Z) (L : blocks) : blocks :=
  match L with
  | [] => [(a, s)]
  | (b, w) :: L' => if a + s =? b then (a, s + w) :: L' else (a, s) :: L
  end.

(** Insertion of [(a, s)] in a sorted list, joined with both neighbours. *)
Fixpoint coalesce_in (a s : Z) (L : blocks) : blocks :=
  match L with
  | [] => [(a, s)]
  | (b, w) :: L' =>
      if b + w <? a then (b, w) :: coalesce_in a s L'
      else if b + w =? a then join_next b (w + s) L'
      else join_next a s L
  end.

(** The neighbours of the place of [(a, s)]; they may touch it. *)
Record fits (L1 : blocks) (a s : Z) (L2 : blocks) : Prop := {
  ft_before : ascending 0 L1;
  ft_end : end_of 0 L1 <= a;
  ft_pos : 0 < a;
  ft_size : MIN_SIZE <= s;
  ft_after : ascending (a + s - 1) L2;
  ft_top : end_of (a + s) L2 < 2 ^ 63
}.

Lemma coalesce_before L1 a s L2 :
  ascending 0 L1 -> end_of 0 L1 < a -> 0 < a -> MIN_SIZE <= s -> ascending (a + s - 1) L2 ->
  coalesce_in a s (L1 ++ L2) = L1 ++ join_next a s L2.
Proof.
  generalize 0 at 1 2. intros lo A1 He Ha Hs A2. revert lo A1 He.
  induction L1 as [|[b w] L1 IH]; intros lo A1 He.
  - destruct L2 as [|[b w] L2]; [done|]. cbn in A2 |- *. unfold MIN_SIZE in *.
    destruct (Z.ltb_spec (b + w) a); [lia|]. destruct (Z.eqb_spec (b + w) a); [lia|]. done.
  - cbn in A1, He |- *. destruct A1 as (? & ? & A1). pose proof (end_of_ge _ _ A1).
    destruct (Z.ltb_spec (b + w) a); [|lia]. f_equal. by apply (IH (b + w)).
Qed.

Lemma coalesce_touching L1 c v s L2 :
  ascending 0 (L1 ++ [(c, v)]) ->
  coalesce_in (c + v) s ((L1 ++ [(c, v)]) ++ L2) = L1 ++ join_next c (v + s) L2.
Proof.
  generalize 0 at 1. intros lo. revert lo. induction L1 as [|[b w] L1 IH]; intros lo A1.
  - cbn. rewrite Z.ltb_irrefl, Z.eqb_refl. done.
  - cbn in A1 |- *. destruct A1 as (? & ? & A1). pose proof A1 as A1'.
    rewrite ascending_app in A1'. cbn in A1'. destruct A1' as (A3 & ? & ? & _).
    pose proof (end_of_ge _ _ A3). unfold MIN_SIZE in *.
    destruct (Z.ltb_spec (b + w) (c + v)); [|lia]. f_equal. by apply (IH (b + w)).
Qed.

Lemma join_next_ok lo a s L :
  lo < a -> MIN_SIZE <= s -> ascending (a + s - 1) L ->
  ascending lo (join_next a s L) /\ end_of lo (join_next a s L) = end_of (a + s) L /\
  first_addr 0 (join_next a s L) = a /\
  (forall x, x ∈ join_next a s L -> x ∈ L \/ fst x = a /\ s <= snd x) /\
  (exists t, (a, t) ∈ join_next a s L /\ s <= t) /\
  (forall x, x ∈ L -> exists y, y ∈ join_next a s L /\ inside x y).
Proof.
  intros Hlo Hs As. destruct L as [|[b w] L]; cbn.
  { split; [done|]. split; [done|]. split; [done|]. split.
    - intros x Hx. apply list_elem_of_singleton in Hx as ->. right. cbn. lia.
    - split; [exists s; split; [set_solver|lia]|]. intros x Hx. by apply not_elem_of_nil in Hx. }
  cbn in As. destruct As as (H1 & H2 & As). unfold MIN_SIZE in *.
  destruct (Z.eqb_spec (a + s) b) as [<-|Hne]; cbn.
  - split; [unfold MIN_SIZE; rewrite Z.add_assoc; repeat split; [lia|lia|done]|].
    split; [by rewrite Z.add_assoc|]. split; [done|]. split; [|split].
    + intros x Hx. apply elem_of_cons in Hx as [->|Hx]; [right; cbn; lia|left; set_solver].
    + exists (s + w). split; [set_solver|lia].
    + intros x Hx. apply elem_of_cons in Hx as [->|Hx].
      * exists (a, s + w). split; [set_solver|]. unfold inside. cbn. lia.
      * exists x. split; [set_solver|]. destruct x as [c v].
        apply (ascending_in _ _ _ _ As) in Hx. unfold inside, MIN_SIZE in *. cbn. lia.
  - split; [unfold MIN_SIZE; repeat split; try lia; done|]. split; [done|]. split; [done|]. split; [|split].
    + intros x Hx. apply elem_of_cons in Hx as [->|Hx]; [right; cbn; lia|by left].
    + exists s. split; [set_solver|lia].
    + intros x Hx. exists x. split; [set_solver|]. destruct x as [c v].
      apply elem_of_cons in Hx as [[= -> ->]|Hx]; [unfold inside; cbn; lia|].
      apply (ascending_in _ _ _ _ As) in Hx. unfold inside, MIN_SIZE in *. cbn. lia.
Qed.

(** ** Joining two blocks in memory *)

(** The stores that join block [a] with the block behind it: [nn] comes next. *)
Definition join_mem (m : memory) (a size nn : Z) : memory :=
  link_prev_m (st8 (a + 24) nn (st8 (a + 8) size m)) nn a.

Lemma same_on_before_first m L lo v b w :
  ascending lo L -> b + w <= lo + 1 -> same_on m (link_prev_m m (first_addr 0 L) v) b w.
Proof.
  intros As Hb. apply same_on_link_prev; [apply same_on_refl|].
  destruct L as [|[c u] L]; cbn in *; [by left|]. right. right. lia.
Qed.

Lemma join_linked m L1 a s w L2 :
  ascending 0 L1 -> end_of 0 L1 <= a -> 0 < a -> MIN_SIZE <= s -> MIN_SIZE <= w ->
  ascending (a + s + w) L2 ->
  linked m 0 (L1 ++ (a, s) :: (a + s, w) :: L2) 0 ->
  linked (join_mem m a (s + w) (first_addr 0 L2)) 0 (L1 ++ (a, s + w) :: L2) 0.
Proof.
  intros A1 He Ha Hs Hw A2. rewrite !linked_app. cbn [first_addr linked].
  intros (K1 & (E1 & E2 & E3 & E4) & (F1 & F2 & F3 & F4) & K2). unfold MIN_SIZE in *.
  unfold join_mem. set (m1 := st8 (a + 24) (first_addr 0 L2) (st8 (a + 8) (s + w) m)).
  assert (T : touched m m1 a 32) by (unfold m1; touched_tac).
  assert (K2' : linked m1 (a + s) L2 0).
  { eapply linked_touched; [exact T|exact A2| |done]. intros [b u] Hb.
    apply (ascending_in _ _ _ _ A2) in Hb. unfold disj. cbn. lia. }
  split; [|split].
  - assert (K1' : linked m1 0 L1 a).
    { eapply linked_touched; [exact T|exact A1| |done]. intros [b u] Hb.
      apply (ascending_in _ _ _ _ A1) in Hb. unfold disj. cbn. lia. }
    eapply linked_frame; [|exact K1']. intros b u Hb. apply (ascending_in _ _ _ _ A1) in Hb as (? & ? & ?).
    unfold MIN_SIZE in *. eapply same_on_before_first; [done|lia].
  - eapply free_hdr_frame; [eapply same_on_before_first; [done|lia]|].
    unfold m1. repeat split; ldst; done.
  - by apply (linked_set_prev _ (a + s) L2 (a + s + w)); [lia|done|].
Qed.

(** The marks of the blocks stay. *)
Lemma join_mem_magic m c size L lo a :
  a = c \/ c + 32 <= a -> ascending lo L -> a + 4 <= lo + 1 ->
  ld4 a (join_mem m c size (first_addr 0 L)) = ld4 a m.
Proof.
  intros Ha As Hlo. unfold join_mem, link_prev_m, NULL.
  assert (E : ld4 a (st8 (c + 24) (first_addr 0 L) (st8 (c + 8) size m)) = ld4 a m) by (ldst; done).
  destruct (Z.eqb_spec (first_addr 0 L) 0); [done|]. destruct L as [|[b w] L]; [done|]. cbn in As |- *.
  rewrite ld4_st8_ne by lia. exact E.
Qed.

Lemma confined_join m m' l a s b w size nn :
  confined m m' l a s -> b = a /\ MIN_SIZE <= s \/ ((b, w) ∈ l /\ MIN_SIZE <= w) ->
  nn = 0 \/ (exists t, (nn, t) ∈ l /\ MIN_SIZE <= t) ->
  confined m (join_mem m' b size nn) l a s.
Proof.
  intros C Hb Hn. apply confined_link_prev; [|done]. intros c u Hu Hl Hd.
  assert (D : b + 32 <= c \/ c + u <= b).
  { destruct Hb as [[-> Hs]|[Hb Hw]]; [|apply Hl in Hb]; unfold disj, MIN_SIZE in *; cbn in *; lia. }
  apply same_on_st8; [apply same_on_st8; [by apply C|]|]; lia.
Qed.

Lemma join_next_cons a s L2 :
  MIN_SIZE <= s -> ascending (a + s - 1) L2 ->
  exists s' L2', join_next a s L2 = (a, s') :: L2' /\ s <= s' /\ ascending (a + s') L2' /\
    end_of (a + s') L2' = end_of (a + s) L2 /\ (forall x, x ∈ L2' -> x ∈ L2) /\
    (forall c v, c + v = a -> join_next c (v + s) L2 = (c, v + s') :: L2').
Proof.
  intros Hs As. destruct L2 as [|[b w] L2]; cbn.
  { exists s, []. split; [done|]. split; [lia|]. done. }
  cbn in As. destruct As as (H1 & H2 & As). unfold MIN_SIZE in *.
  destruct (Z.eqb_spec (a + s) b) as [<-|Hne].
  - exists (s + w), L2. split; [done|]. split; [lia|]. rewrite Z.add_assoc. split; [done|]. split; [done|].
    split; [set_solver|]. intros c v <-. destruct (Z.eqb_spec (c + (v + s)) (c + v + s)); [|lia].
    by rewrite Z.add_assoc.
  - exists s, ((b, w) :: L2). split; [done|]. split; [lia|]. split; [cbn; unfold MIN_SIZE; repeat split; auto; lia|].
    split; [done|]. split; [done|]. intros c v <-.
    destruct (Z.eqb_spec (c + (v + s)) b); [lia|done].
Qed.

Section Merge.
Context (h : kheap) (L1 : blocks) (a s : Z) (L2 : blocks).
Hypothesis KL : linked (kh_mem h) 0 (L1 ++ (a, s) :: L2) 0.
Hypothesis F : fits L1 a s L2.

Lemma merge_hdr :
  free_hdr (kh_mem h) a s (last_addr 0 L1) (first_addr 0 L2) /\ a <> 0 /\ 0 <= a + s < 2 ^ 63.
Proof.
  rewrite linked_app in KL. cbn in KL. destruct KL as (_ & Hh & _).
  destruct F as [A1 He Hp Hs A2 Ht]. split; [done|]. unfold MIN_SIZE in *.
  destruct L2 as [|[b w] L2']; cbn in A2, Ht; [lia|]. destruct A2 as (? & ? & A2).
  pose proof (end_of_ge _ _ A2). unfold MIN_SIZE in *. lia.
Qed.

(** Joining with the next block. *)
Lemma merge_next_part l :
  (forall x, x ∈ L2 -> x ∈ l) ->
  exists m', merge_next h a (first_addr 0 L2) = Ok (set_mem h m') /\
    linked m' 0 (L1 ++ join_next a s L2) 0 /\ confined (kh_mem h) m' l a s /\
    ld4 a m' = Ok FREE_MAGIC.
Proof.
  intros Hl. destruct merge_hdr as ((E1 & E2 & E3 & E4) & Ha & Hb). unfold merge_next, NULL.
  destruct L2 as [|[b w] L2'] eqn:EL2; cbn [first_addr join_next].
  { exists (kh_mem h). rewrite set_mem_id. cbn. split; [done|]. split; [done|]. split; [apply confined_start|done]. }
  destruct F as [A1 He Hp Hs A2 Ht]. cbn in A2, Ht. destruct A2 as (H1 & H2 & A2). unfold MIN_SIZE in *.
  pose proof (end_of_ge _ _ A2).
  destruct (Z.eqb_spec b 0); [lia|]. unfold get_size at 1. rewrite E2. cbn [res_bind].
  rewrite u64_small by lia. destruct (Z.eqb_spec (a + s) b) as [<-|Hne].
  - pose proof KL as KL'. rewrite linked_app in KL'. cbn in KL'.
    destruct KL' as (K1 & _ & (F1 & F2 & F3 & F4) & K2). unfold get_size at 1. rewrite F2. cbn [res_bind]. rewrite u64_small by lia.
    unfold get_next, set_size. cbn [set_mem kh_mem]. rewrite ld8_st8_ne by lia. rewrite F4. cbn [res_bind].
    rewrite link_prev_mem. unfold set_next. cbn [set_mem kh_mem]. eexists. split; [reflexivity|].
    change (link_prev_m _ _ _) with (join_mem (kh_mem h) a (s + w) (first_addr 0 L2')). split; [|split].
    + apply join_linked; unfold MIN_SIZE; try done; lia.
    + eapply confined_join with (w := w); [apply confined_start|left; unfold MIN_SIZE; done|].
      destruct (first_addr_in _ _ A2) as [->|(t & Ht' & Hm)]; [by left|]. right. exists t. set_solver.
    + rewrite (join_mem_magic _ _ _ L2' (a + s + w)); [done|by left|done|lia].
  - exists (kh_mem h). rewrite set_mem_id. split; [done|]. split; [done|]. split; [apply confined_start|done].
Qed.

(** Nothing to join. *)
Lemma merge_noop :
  end_of 0 L1 < a -> ascending (a + s) L2 -> tegrabl_heap_merge_blocks h a = Ok (a, h).
Proof.
  intros He A2. destruct merge_hdr as ((E1 & E2 & E3 & E4) & Ha & Hb).
  unfold tegrabl_heap_merge_blocks, NULL. destruct (Z.eqb_spec a 0); [lia|].
  unfold get_next at 1. unfold get_prev. rewrite E4, E3. cbn [res_bind].
  assert (En : merge_next h a (first_addr 0 L2) = Ok h).
  { unfold merge_next. destruct (first_addr 0 L2 =? NULL) eqn:Ez; [done|]. unfold get_size at 1.
    rewrite E2. cbn [res_bind]. rewrite u64_small by lia. destruct L2 as [|[b w] L2']; [done|].
    cbn in A2 |- *. destruct (Z.eqb_spec (a + s) b); [lia|done]. }
  rewrite En. cbn [res_bind]. destruct (Z.eqb_spec (last_addr 0 L1) 0); [done|].
  destruct L1 as [|[c v] L1' _] using rev_ind; [done|].
  rewrite last_addr_app. cbn [last_addr]. rewrite !linked_app in KL. cbn in KL.
  destruct KL as ((_ & (F1 & F2 & _) & _) & _). unfold get_size. rewrite F2. cbn [res_bind].
  destruct F as [A1 _ _ Hs _ _]. rewrite ascending_app in A1. rewrite end_of_app in He. cbn in A1, He.
  pose proof (end_of_ge _ _ (proj1 A1)). unfold MIN_SIZE in *.
  rewrite u64_small by lia. destruct (Z.eqb_spec (c + v) a); [lia|done].
Qed.
End Merge.

Lemma fits_next L1 a s L2 s' L2' :
  fits L1 a s L2 -> s <= s' -> ascending (a + s') L2' -> end_of (a + s') L2' = end_of (a + s) L2 ->
  fits L1 a s' L2'.
Proof.
  intros [A1 He Hp Hs A2 Ht] H1 A2' Ee. split; try done; unfold MIN_SIZE in *; try lia.
  eapply ascending_weaken; [exact A2'|lia].
Qed.

Lemma fits_prev L1 c v s L2 :
  fits (L1 ++ [(c, v)]) (c + v) s L2 -> fits L1 c (v + s) L2 /\ end_of 0 L1 < c /\ MIN_SIZE <= v.
Proof.
  intros [A1 He Hp Hs A2 Ht]. rewrite ascending_app in A1. cbn in A1. destruct A1 as (A1 & ? & ? & _).
  pose proof (end_of_ge _ _ A1). unfold MIN_SIZE in *.
  split; [|done]. split; unfold MIN_SIZE; try done; try lia; by rewrite Z.add_assoc.
Qed.

(** One call of [tegrabl_heap_merge_blocks] on a block just inserted. *)
Lemma merge_first h L1 a s L2 l :
  linked (kh_mem h) 0 (L1 ++ (a, s) :: L2) 0 -> fits L1 a s L2 ->
  (forall x, x ∈ L1 \/ x ∈ L2 -> x ∈ l) ->
  exists r m', tegrabl_heap_merge_blocks h a = Ok (r, set_mem h m') /\
    linked m' 0 (coalesce_in a s (L1 ++ L2)) 0 /\ confined (kh_mem h) m' l a s /\
    ld4 a m' = Ok FREE_MAGIC /\
    ((r = a /\ end_of 0 L1 < a) \/
     (exists L1' v, L1 = L1' ++ [(r, v)] /\ r + v = a)).
Proof.
  intros KL F Hl. destruct (merge_hdr _ _ _ _ _ KL F) as ((E1 & E2 & E3 & E4) & Ha & Hb).
  destruct (merge_next_part _ _ _ _ _ KL F l ltac:(auto)) as (m1 & En & KL1 & C1 & M1).
  unfold tegrabl_heap_merge_blocks. destruct (Z.eqb_spec a NULL); [done|].
  unfold get_next at 1. unfold get_prev. rewrite E4, E3. cbn [res_bind]. rewrite En. cbn [res_bind].
  pose proof F as [A1 He Hp Hs A2 Ht].
  destruct (join_next_cons a s L2 Hs A2) as (s' & L2' & Ej & Hs' & A2' & Ee & Hsub & Hj).
  rewrite Ej in KL1. pose proof (fits_next _ _ _ _ _ _ F Hs' A2' Ee) as F'. unfold NULL.
  destruct L1 as [|[c v] L1 _] using rev_ind.
  { cbn [last_addr]. rewrite Z.eqb_refl. exists a, m1. split; [done|].
    cbn in He. rewrite coalesce_before by done. rewrite Ej. split; [done|]. split; [done|]. split; [done|]. by left. }
  rewrite last_addr_app. cbn [last_addr]. rewrite end_of_app in He. cbn in He.
  pose proof A1 as A1'. rewrite ascending_app in A1'. cbn in A1'. destruct A1' as (A3 & Hc & Hv & _).
  pose proof (end_of_ge _ _ A3). unfold MIN_SIZE in Hv. destruct (Z.eqb_spec c 0); [lia|].
  pose proof KL1 as KL1'. rewrite !linked_app in KL1'. cbn in KL1'.
  destruct KL1' as ((K1 & (G1 & G2 & G3 & G4) & _) & (F1 & F2 & F3 & F4) & K2).
  unfold get_size at 1. cbn [set_mem kh_mem]. rewrite G2. cbn [res_bind].
  assert (32 <= s) by (unfold MIN_SIZE in Hs; lia). rewrite u64_small by lia.
  destruct (Z.eqb_spec (c + v) a) as [<-|Hne].
  - unfold get_size. cbn [set_mem kh_mem]. rewrite F2. cbn [res_bind].
    destruct (merge_hdr (set_mem h m1) _ _ _ _ KL1 F') as (_ & _ & Hb'). unfold MIN_SIZE in Hs.
    rewrite u64_small by lia. unfold get_next, set_size. cbn [set_mem kh_mem].
    rewrite ld8_st8_ne by lia. rewrite F4. cbn [res_bind]. rewrite link_prev_mem.
    unfold set_next. cbn [set_mem kh_mem]. eexists c, _. split; [reflexivity|].
    change (link_prev_m _ _ _) with (join_mem m1 c (v + s') (first_addr 0 L2')).
    rewrite coalesce_touching by done. rewrite (Hj c v eq_refl). split; [|split; [|split]].
    + apply join_linked; unfold MIN_SIZE; try done; try lia.
      by rewrite <- app_assoc in KL1.
    + eapply (confined_join _ _ _ _ _ c v); [done|right; split; [apply Hl; set_solver|unfold MIN_SIZE; lia]|].
      destruct (first_addr_in _ _ A2') as [->|(t & Ht' & Hm)]; [by left|]. right. exists t. set_solver.
    + rewrite (join_mem_magic _ _ _ L2' (c + v + s')); [done|right; lia|done|lia].
    + right. eauto.
  - exists a, m1. split; [done|]. rewrite coalesce_before;
      [|done|rewrite end_of_app; cbn [end_of]; lia|done|done|done].
    rewrite Ej. split; [done|]. split; [done|]. split; [done|]. left. rewrite end_of_app. cbn. lia.
Qed.

(** The loop stops after the second round at the latest. *)
Lemma merge_loop_ok h L1 a s L2 l fuel :
  linked (kh_mem h) 0 (L1 ++ (a, s) :: L2) 0 -> fits L1 a s L2 -> (2 <= fuel)%nat ->
  (forall x, x ∈ L1 \/ x ∈ L2 -> x ∈ l) ->
  exists r m', merge_loop fuel h a = Ok (r, set_mem h m') /\
    linked m' 0 (coalesce_in a s (L1 ++ L2)) 0 /\ confined (kh_mem h) m' l a s /\
    ld4 a m' = Ok FREE_MAGIC /\
    (L1 = [] /\ r = a \/ first_addr 0 L1 <> 0 /\ first_addr 0 L1 <= r).
Proof.
  intros KL F Hf Hl. destruct fuel as [|[|fuel]]; try lia.
  destruct (merge_first h L1 a s L2 l KL F Hl) as (r & m' & E & KL' & C & Hm & Hr).
  pose proof F as [A1 He Hp Hs A2 Ht]. exists r, m'.
  destruct Hr as [[-> Hlt]|(L1' & v & -> & <-)].
  - split; [cbn [merge_loop]; rewrite E; cbn [res_bind]; by rewrite Z.eqb_refl|].
    split; [done|]. split; [done|]. split; [done|].
    destruct L1 as [|[b w] L1']; [by left|]. right. cbn in A1, Hlt |- *.
    destruct A1 as (? & ? & A1). pose proof (end_of_ge _ _ A1). unfold MIN_SIZE in *. lia.
  - destruct (fits_prev _ _ _ _ _ F) as (F2 & Hlt & Hv).
    rewrite coalesce_touching in KL' by done. unfold MIN_SIZE in Hv, Hs.
    destruct (join_next_cons (r + v) s L2) as (s' & L2' & Ej & Hs' & A2' & Ee & Hsub & Hj);
      [by unfold MIN_SIZE|done|].
    rewrite (Hj r v eq_refl) in KL'. split; [|split; [|split; [done|split; [done|]]]].
    + cbn [merge_loop]. rewrite E. cbn [res_bind]. destruct (Z.eqb_spec r (r + v)); [lia|].
      rewrite (merge_noop (set_mem h m') L1' r (v + s') L2' KL').
      * cbn [res_bind]. by rewrite Z.eqb_refl.
      * eapply fits_next; [exact F2|lia|by rewrite Z.add_assoc|]. by rewrite !Z.add_assoc.
      * done.
      * by rewrite Z.add_assoc.
    + rewrite coalesce_touching by done. by rewrite (Hj r v eq_refl).
    + right. rewrite first_addr_app. cbn [first_addr]. destruct F2 as [A3 _ Hr0 _ _ _].
      destruct L1' as [|[b w] L1'']; cbn in A3, Hlt |- *; [lia|].
      destruct A3 as (? & ? & A3). pose proof (end_of_ge _ _ A3). unfold MIN_SIZE in *. lia.
Qed.

(** ** The list after the insertion *)

Lemma fits_coalesce L1 a s L2 :
  fits L1 a s L2 ->
  ascending 0 (coalesce_in a s (L1 ++ L2)) /\ end_of 0 (coalesce_in a s (L1 ++ L2)) < 2 ^ 63 /\
  first_addr 0 (coalesce_in a s (L1 ++ L2)) = first_addr a L1.
Proof.
  intros F. pose proof F as [A1 He Hp Hs A2 Ht]. destruct (Z.eq_dec (end_of 0 L1) a) as [E|Hne].
  - destruct L1 as [|[c v] L1 _] using rev_ind; [cbn in E; lia|].
    rewrite end_of_app in E. cbn in E. subst a. destruct (fits_prev _ _ _ _ _ F) as ([A3 _ _ ? A4 ?] & ? & ?).
    rewrite coalesce_touching, !first_addr_app by done.
    destruct (join_next_ok (end_of 0 L1) c (v + s) L2) as (J1 & J2 & J3 & _); try done.
    rewrite ascending_app, end_of_app, J2, J3. done.
  - rewrite coalesce_before, !first_addr_app by (done || lia).
    destruct (join_next_ok (end_of 0 L1) a s L2) as (J1 & J2 & J3 & _); [lia|done|done|].
    rewrite ascending_app, end_of_app, J2, J3. done.
Qed.

Lemma join_next_disj a s L y :
  0 < snd y -> (forall x, x ∈ L -> disj x y) -> disj (a, s) y ->
  forall x, x ∈ join_next a s L -> disj x y.
Proof.
  intros Hy HL Ha x. destruct L as [|[b w] L]; cbn; [set_solver|].
  destruct (Z.eqb_spec (a + s) b) as [<-|]; [|set_solver].
  intros [->|Hx]%elem_of_cons; [|set_solver].
  specialize (HL (a + s, w) ltac:(set_solver)). unfold disj in *. cbn in *. lia.
Qed.

(** The new list covers what the old one and the block cover. *)
Lemma coalesce_disj a s L y :
  0 < snd y -> (forall x, x ∈ L -> disj x y) -> disj (a, s) y ->
  forall x, x ∈ coalesce_in a s L -> disj x y.
Proof.
  intros Hy. induction L as [|[b w] L IH]; intros HL Ha x; cbn; [set_solver|].
  destruct (Z.ltb_spec (b + w) a).
  - intros [->|Hx]%elem_of_cons; [apply HL; set_solver|]. apply IH; set_solver.
  - destruct (Z.eqb_spec (b + w) a) as [<-|].
    + apply join_next_disj; [done|set_solver|]. specialize (HL (b, w) ltac:(set_solver)).
      unfold disj in *. cbn in *. lia.
    + by apply (join_next_disj a s ((b, w) :: L)).
Qed.

(** A block that is disjoint from a sorted list has a place in it. *)
Lemma find_place L a s lo :
  ascending lo L -> end_of lo L < 2 ^ 63 -> (forall x, x ∈ L -> disj x (a, s)) ->
  0 <= lo <= a -> MIN_SIZE <= s -> a + s < 2 ^ 63 ->
  exists L1 L2, L = L1 ++ L2 /\ ascending lo L1 /\ end_of lo L1 <= a /\
    ascending (a + s - 1) L2 /\ end_of (a + s) L2 < 2 ^ 63.
Proof.
  revert lo. induction L as [|[b w] L IH]; intros lo As Ht HD Hlo Hs Hb.
  { exists [], []. cbn. repeat split; try done; lia. }
  cbn in As, Ht. destruct As as (H1 & H2 & As). pose proof (HD (b, w) ltac:(set_solver)) as Hd.
  unfold disj in Hd. cbn in Hd. destruct Hd as [Hd|Hd].
  - destruct (IH (b + w)) as (L1 & L2 & -> & A1 & E1 & A2 & E2); try done; [set_solver|unfold MIN_SIZE in *; lia|].
    exists ((b, w) :: L1), L2. cbn. repeat split; auto.
  - exists [], ((b, w) :: L). cbn. repeat split; auto; lia.
Qed.

Lemma first_addr_pos (L : blocks) n n' : L <> [] -> first_addr n L = first_addr n' L.
Proof. by destruct L as [|[a s] L]. Qed.

(** ** The walk to the place *)

Lemma free_walk_spec h ptr L2 : first_addr 0 L2 = 0 \/ ptr <= first_addr 0 L2 ->
  forall L1 fuel lo p q, linked (kh_mem h) p (L1 ++ L2) 0 -> ascending lo L1 -> 0 <= lo ->
    end_of lo L1 < ptr -> (length L1 <= fuel)%nat ->
    free_walk fuel h ptr q (first_addr 0 (L1 ++ L2)) = Ok (last_addr q L1, first_addr 0 L2).
Proof.
  intros HL2. induction L1 as [|[b w] L1 IH]; intros fuel lo p q KL A1 Hlo He Hf.
  - cbn [app last_addr]. assert (E : (first_addr 0 L2 =? NULL) || (ptr <=? first_addr 0 L2) = true).
    { unfold NULL. apply orb_true_iff. rewrite Z.eqb_eq, Z.leb_le. done. }
    destruct fuel; cbn [free_walk]; by rewrite E.
  - cbn in A1, He, Hf, KL. destruct A1 as (H1 & H2 & A1). destruct KL as [(_ & _ & _ & E4) KL].
    pose proof (end_of_ge _ _ A1). unfold MIN_SIZE in *.
    destruct fuel as [|fuel]; [lia|]. cbn [app first_addr free_walk last_addr]. unfold NULL.
    destruct (Z.eqb_spec b 0); [lia|]. destruct (Z.leb_spec ptr b); [lia|]. cbn [orb].
    unfold get_next. rewrite E4. cbn [res_bind]. eapply IH; [exact KL|exact A1|lia|lia|lia].
Qed.

(** ** The insertion *)

Section Insert.
Context (m : memory) (L1 : blocks) (a s : Z) (L2 : blocks).
Hypothesis KL : linked m 0 (L1 ++ L2) 0.
Hypothesis F : fits L1 a s L2.

Let prev := last_addr 0 L1.
Let next := first_addr 0 L2.

(** The stores of [tegrabl_generic_free] before the merging, in their order. *)
Definition insert_mem : memory :=
  link_prev_m
    (st4 a FREE_MAGIC (st8 (a + 24) next (st8 (a + 16) prev
      (link_next_m (st8 (a + 8) s m) prev a)))) next a.

Lemma around_disj x : x ∈ L1 \/ x ∈ L2 -> disj (a, s) x.
Proof.
  destruct F as [A1 He Hp Hs A2 Ht], x as [b w]. unfold disj. cbn. intros [Hx|Hx].
  - apply (ascending_in _ _ _ _ A1) in Hx. lia.
  - apply (ascending_in _ _ _ _ A2) in Hx. lia.
Qed.

Lemma insert_first : linked (st8 (a + 8) s m) 0 (L1 ++ L2) 0.
Proof.
  destruct F as [A1 He Hp Hs A2 Ht]. unfold MIN_SIZE in *.
  assert (As : ascending 0 (L1 ++ L2)).
  { rewrite ascending_app. split; [done|]. eapply ascending_weaken; [exact A2|lia]. }
  eapply (linked_touched m _ a s); [|exact As| |exact KL].
  - apply touched_st8; [apply touched_refl|lia|lia].
  - intros x Hx. apply around_disj. by apply elem_of_app.
Qed.

Lemma insert_linked : linked insert_mem 0 (L1 ++ (a, s) :: L2) 0.
Proof.
  pose proof insert_first as K0. rewrite linked_app in K0. destruct K0 as [K1 K2].
  pose proof F as [A1 He Hp Hs A2 Ht]. unfold insert_mem.
  set (m0 := st8 (a + 8) s m) in *. set (m1 := link_next_m m0 prev a).
  set (m2 := st4 a FREE_MAGIC _). unfold MIN_SIZE in *.
  assert (T : touched m1 m2 a s) by (unfold m2; touched_tac).
  assert (S01 : same_on m0 m1 a s).
  { apply same_on_link_next; [apply same_on_refl|]. unfold prev.
    destruct (last_addr_in 0 L1) as [[-> _]|(u & Hu & E)]; [by left|].
    pose proof (ascending_in _ _ _ _ A1 Hu) as (? & ? & ?). unfold MIN_SIZE in *. right. left. lia. }
  assert (S12 : forall b w, b + w <= a + s -> same_on m2 (link_prev_m m2 next a) b w).
  { intros b w Hb. eapply same_on_before_first; [exact A2|lia]. }
  rewrite linked_app. cbn [linked first_addr]. split; [|split].
  - eapply linked_frame.
    + intros b w Hb. apply S12. pose proof (ascending_in _ _ _ _ A1 Hb). unfold MIN_SIZE in *. lia.
    + eapply linked_touched; [exact T|exact A1|intros; apply around_disj; by left|].
      apply (linked_set_next m0 L1 (first_addr 0 L2)); done.
  - eapply free_hdr_frame; [apply S12; lia|]. unfold m2. repeat split; ldst; try done.
    destruct S01 as [S8 _]. rewrite S8 by lia. unfold m0. by rewrite ld8_st8.
  - apply (linked_set_prev m2 prev L2 (a + s - 1)); [lia|done|].
    eapply linked_touched; [exact T|exact A2|intros; apply around_disj; by right|].
    eapply linked_frame; [|exact K2]. intros b w Hb. unfold m1.
    pose proof (ascending_in _ _ _ _ A2 Hb) as (? & ? & ?). apply same_on_link_next; [apply same_on_refl|].
    unfold prev. destruct (last_addr_in 0 L1) as [[-> _]|(u & Hu & E)]; [by left|].
    pose proof (ascending_in _ _ _ _ A1 Hu) as (? & ? & ?). unfold MIN_SIZE in *. right. left. lia.
Qed.

Lemma insert_confined : confined m insert_mem (L1 ++ L2) a s.
Proof.
  pose proof F as [A1 He Hp Hs A2 Ht]. unfold MIN_SIZE in Hs. unfold insert_mem.
  apply confined_link_prev.
  - eapply confined_touched; [|touched_tac]. apply confined_link_next.
    + eapply confined_touched; [apply confined_start|]. touched_tac.
    + destruct (last_addr_in' _ A1) as [E|(t & Ht' & Hm)]; [by left|]. right. exists t. set_solver.
  - destruct (first_addr_in _ _ A2) as [E|(t & Ht' & Hm)]; [by left|]. right. exists t. set_solver.
Qed.
End Insert.

Lemma confined_trans m1 m2 m3 l a s :
  confined m1 m2 l a s -> confined m2 m3 l a s -> confined m1 m3 l a s.
Proof. intros C1 C2 b w Hw Hl Hd. eapply same_on_trans; [by apply C1|by apply C2]. Qed.

(** ** [tegrabl_generic_free] and [tegrabl_dealloc] *)

Section Dealloc.
Context (h : kheap) (L : heap_type -> blocks) (A : gmap Z (Z * Z)).
Hypothesis K : heap_ok h L A.

Lemma alloc_place t p s st :
  A !! p = Some (s, st) -> exists L1 L2, L t = L1 ++ L2 /\ fits L1 st s L2.
Proof.
  intros Hp. destruct (ko_alloc _ _ _ K _ _ _ Hp) as (_ & S). unfold alloc_shape, ALLOC_HDR in S.
  destruct (find_place (L t) st s 0) as (L1 & L2 & E & A1 & E1 & A2 & E2).
  - apply K.
  - apply K.
  - intros x Hx. by apply (ko_free_alloc _ _ _ K t x p).
  - lia.
  - lia.
  - lia.
  - exists L1, L2. split; [done|]. split; auto; lia.
Qed.

Lemma generic_free_spec t p s st L1 L2 :
  A !! p = Some (s, st) -> L t = L1 ++ L2 -> fits L1 st s L2 ->
  exists r m', tegrabl_generic_free h (free_list h t) p = Ok (r, set_mem h m') /\
    linked m' 0 (coalesce_in st s (L t)) 0 /\ confined (kh_mem h) m' (L t) st s /\
    ld4 st m' = Ok FREE_MAGIC /\
    (L1 = [] /\ r = st \/ first_addr 0 L1 <> 0 /\ first_addr 0 L1 <= r).
Proof.
  intros Hp EL F. destruct (ko_alloc _ _ _ K _ _ _ Hp) as ((E1 & E2 & E3) & S).
  unfold alloc_shape, ALLOC_HDR, MIN_SIZE in S. pose proof F as [A1 He _ _ A2 _].
  pose proof (ko_linked _ _ _ K t) as KL. pose proof (ko_asc _ _ _ K t) as As. rewrite EL in KL, As.
  unfold tegrabl_generic_free, NULL, ALLOC_HDR. destruct (Z.eqb_spec p 0); [lia|].
  unfold get_magic. rewrite E1. cbn [res_bind]. rewrite Z.eqb_refl. cbn [negb].
  unfold get_start, get_size. rewrite E3, E2. cbn [res_bind].
  pose proof (insert_first _ _ _ _ _ KL F) as K1. unfold set_size. rewrite (ko_head _ _ _ K t), EL.
  rewrite (free_walk_spec (set_mem h (st8 (st + 8) s (kh_mem h))) p L2 ltac:(destruct L2 as [|[c u] L2']; cbn in *; lia)
    L1 _ 0 0 0); [|done|done|done|lia|].
  2:{ unfold list_fuel. cbn [set_mem kh_mem]. apply linked_length in K1; [|done].
      rewrite length_app in K1. lia. }
  cbn [res_bind]. rewrite link_next_mem. unfold set_prev, set_next, set_magic. rewrite link_prev_mem.
  cbn [set_mem kh_mem]. change (link_prev_m _ _ _) with (insert_mem (kh_mem h) L1 st s L2).
  pose proof (insert_linked _ _ _ _ _ KL F) as K2.
  destruct (merge_loop_ok (set_mem h (insert_mem (kh_mem h) L1 st s L2)) L1 st s L2 (L1 ++ L2)
    (list_fuel (set_mem h (insert_mem (kh_mem h) L1 st s L2))) K2 F) as (r & m' & Em & K3 & C & Hm & Hr).
  - unfold list_fuel. cbn [set_mem kh_mem]. apply linked_dom, subseteq_size in K2.
    rewrite size_dom in K2. assert (S1 : (size ({[st]} : gset Z) <= size (insert_mem (kh_mem h) L1 st s L2))%nat).
    { etrans; [|exact K2]. apply subseteq_size. rewrite fmap_app. set_solver. }
    rewrite size_singleton in S1. lia.
  - intros x Hx. by apply elem_of_app.
  - exists r, m'. split; [exact Em|]. split; [done|]. split; [|done].
    eapply confined_trans; [apply (insert_confined _ _ _ _ _ KL F)|exact C].
Qed.

(** The heap a block goes to. *)
Definition dealloc_heap (h : kheap) (t : heap_type) : heap_type :=
  if bool_decide (t = TEGRABL_HEAP_DMA) && negb (free_list h TEGRABL_HEAP_DMA =? NULL)
  then TEGRABL_HEAP_DMA else TEGRABL_HEAP_DEFAULT.

Lemma release_ok t p s st h' :
  A !! p = Some (s, st) ->
  (forall t', free_list h' t' = first_addr 0 (upd L t (coalesce_in st s (L t)) t')) ->
  linked (kh_mem h') 0 (coalesce_in st s (L t)) 0 -> confined (kh_mem h) (kh_mem h') (L t) st s ->
  heap_ok h' (upd L t (coalesce_in st s (L t))) (delete p A).
Proof.
  intros Hp HH KL C. destruct (alloc_place t p s st Hp) as (L1 & L2 & EL & F).
  destruct (fits_coalesce _ _ _ _ F) as (A1 & A2 & _). rewrite <- EL in A1, A2.
  assert (HA : forall q s' st', delete p A !! q = Some (s', st') ->
    A !! q = Some (s', st') /\ q <> p /\ disj (st, s) (st', s') /\ 0 < s').
  { intros q s' st' [Hne Hq]%lookup_delete_Some. split; [done|]. split; [done|].
    split; [by apply (ko_alloc_alloc _ _ _ K p q)|].
    destruct (ko_alloc _ _ _ K _ _ _ Hq) as (_ & S). unfold alloc_shape, MIN_SIZE in S. lia. }
  assert (HF : forall t' y, y ∈ L t' -> disj (st, s) y /\ 0 < snd y).
  { intros t' [b w] Hy. split; [by apply disj_sym, (ko_free_alloc _ _ _ K t' _ p)|].
    apply (ascending_in _ _ _ _ (ko_asc _ _ _ K t')) in Hy. unfold MIN_SIZE in Hy. cbn. lia. }
  eapply rebuild_ok; try done.
  - intros t' b w Hne Hb. apply (others_kept _ _ _ _ _ (st, s) K C t'); [done|done|by eapply HF].
  - intros t' x y Hne Hx Hy. destruct (HF _ _ Hy) as [Hd Hw]. eapply coalesce_disj; try done.
    intros z Hz. by apply (ko_lists _ _ _ K t t').
  - intros q s' st' Hq. apply HA in Hq as (Hq & _ & Hd & _). by apply (alloc_kept _ _ _ _ t (st, s) K C).
  - intros x q s' st' Hx Hq. apply HA in Hq as (Hq & _ & Hd & Hw). eapply coalesce_disj; try done.
    intros z Hz. by apply (ko_free_alloc _ _ _ K t _ q).
  - intros t' x q s' st' _ Hx Hq. apply HA in Hq as (Hq & _). by apply (ko_free_alloc _ _ _ K t' _ q).
  - intros q r s1 st1 s2 st2 Hne Hq Hr. apply HA in Hq as (Hq & _), Hr as (Hr & _).
    by apply (ko_alloc_alloc _ _ _ K q r).
Qed.

Lemma dealloc_spec t p s st :
  A !! p = Some (s, st) ->
  let t' := dealloc_heap h t in
  exists h', tegrabl_dealloc h t p = Ok h' /\
    heap_ok h' (upd L t' (coalesce_in st s (L t'))) (delete p A) /\
    (forall u, max_heap_size h' u = max_heap_size h u) /\ ld4 st (kh_mem h') = Ok FREE_MAGIC.
Proof.
  intros Hp t'. destruct (alloc_place t' p s st Hp) as (L1 & L2 & EL & F).
  destruct (generic_free_spec t' p s st L1 L2 Hp EL F) as (r & m' & E & KL & C & Hm & Hr).
  destruct (fits_coalesce _ _ _ _ F) as (_ & _ & Efirst). rewrite <- EL in Efirst.
  pose proof F as [A1 He Hst Hs A2 _]. unfold tegrabl_dealloc. fold (dealloc_heap h t). fold t'.
  rewrite E. cbn [res_bind]. rewrite free_list_set_mem, (ko_head _ _ _ K t'), EL, first_addr_app.
  assert (Hpos : L1 <> [] -> first_addr 0 L1 = first_addr st L1 /\ 0 < first_addr st L1).
  { destruct L1 as [|[b w] L1']; [done|]. intros _. cbn in A1 |- *. lia. }
  destruct Hr as [[-> ->]|[Hn Hle]].
  - unfold NULL. destruct (Z.eqb_spec st 0); [lia|]. cbn [first_addr] in *.
    replace ((first_addr 0 L2 =? 0) || (st <? first_addr 0 L2)) with true.
    2:{ unfold MIN_SIZE in *. symmetry. apply orb_true_iff. rewrite Z.eqb_eq, Z.ltb_lt.
        destruct L2 as [|[b w] L2']; cbn in *; lia. }
    eexists. split; [reflexivity|]. rewrite set_free_list_mem. rewrite <- EL in *. split; [|split].
    + apply release_ok; [done| |done|done]. intros u. rewrite free_list_set_mem, free_list_set. unfold upd.
      destruct (decide (u = t')); [done|apply K].
    + intros u. by rewrite max_set_mem, max_set_free_list.
    + done.
  - destruct Hpos as [E1 Hpos]; [by intros ->|]. unfold NULL. destruct (Z.eqb_spec r 0); [lia|].
    rewrite (first_addr_pos L1 _ 0 ltac:(by intros ->)). destruct (Z.eqb_spec (first_addr 0 L1) 0); [lia|].
    destruct (Z.ltb_spec r (first_addr 0 L1)); [lia|]. cbn [orb].
    eexists. split; [reflexivity|]. split; [|split; [intros; by rewrite max_set_mem|done]].
    rewrite <- EL. apply release_ok; [done| |done|done]. intros u. rewrite free_list_set_mem. unfold upd.
    destruct (decide (u = t')) as [->|]; [|apply K]. rewrite Efirst, (ko_head _ _ _ K t'), EL, first_addr_app.
    rewrite (first_addr_pos L1 _ st) by (by intros ->). done.
Qed.
End Dealloc.
