(* ===== verification/MallocAlign.v ===== *)
(** Aligned allocation: which block is taken, what becomes of the gap before the
    aligned address, and of the bytes behind the block. *)

From S2P Require Import Prelude TegraError BlockDev Malloc MallocFacts MallocOps.

(** Bytes skipped in a block at [a] so that the user's address is a multiple of
    [al]; never none. *)
Definition pad (al a : Z) : Z := al - (a + ALLOC_HDR) mod al.

Lemma pad_bounds al a : 0 < al -> 0 < pad al a <= al.
Proof. intros Hal. unfold pad. pose proof (Z.mod_pos_bound (a + ALLOC_HDR) al Hal). lia. Qed.

Lemma pad_aligned al a : 0 < al -> (a + ALLOC_HDR + pad al a) mod al = 0.
Proof.
  intros Hal. unfold pad. pose proof (Z.div_mod (a + ALLOC_HDR) al ltac:(lia)).
  replace (a + ALLOC_HDR + (al - (a + ALLOC_HDR) mod al)) with ((1 + (a + ALLOC_HDR) / al) * al) by lia.
  apply Z.mod_mul. lia.
Qed.

(** The block recorded for the user's address. *)
Definition align_alloc (a s pd nd : Z) : Z * Z :=
  if pd <? MIN_SIZE then (split_size s (nd + pd), a) else (nd, a + pd).

(** What is left of the block in the list. *)
Definition align_rest (a s pd nd : Z) : blocks :=
  (if pd <? MIN_SIZE then [] else [(a, pd)]) ++ split_rest a s (nd + pd).

Section Align.
Context (h : kheap) (L : heap_type -> blocks) (A : gmap Z (Z * Z)) (t : heap_type).
Context (L1 : blocks) (a s : Z) (L2 : blocks) (pd nd : Z).
Hypothesis K : heap_ok h L A.
Hypothesis EL : L t = L1 ++ (a, s) :: L2.
Hypothesis Hnd : MIN_SIZE <= nd.
Hypothesis Hpd : 0 < pd.
Hypothesis Hfit : nd + pd <= s.

Let prev := last_addr 0 L1.
Let next := first_addr 0 L2.
Let m := kh_mem h.
Let Y := split_rest a s (nd + pd).
Let z := split_size s (nd + pd).
Let m1 := split_mem h L1 a s L2 (nd + pd).

Let Hsz : MIN_SIZE <= nd + pd <= s.
Proof. lia. Qed.

(** The list between the split and the gap. *)
Lemma rest_facts :
  ascending 0 L1 /\ 0 <= end_of 0 L1 < a /\ ascending (a + z - 1) (Y ++ L2) /\
  nd + pd <= z <= s /\ a + s < 2 ^ 63 /\ linked m1 0 (L1 ++ Y ++ L2) 0 /\
  (forall x, x ∈ L1 ++ Y ++ L2 -> disj (a, z) x).
Proof.
  destruct (split_rest_ok _ _ _ _ _ _ _ _ _ K EL Hsz) as (AY & HY & Hss & Yy).
  destruct (place_asc _ _ _ _ _ _ _ _ K EL) as (A1 & H1 & Hs & A2 & H2).
  pose proof (ko_asc _ _ _ K t) as As. pose proof (ko_top _ _ _ K t) as Htop. rewrite EL in As, Htop.
  destruct (carve_blocks _ _ _ _ _ As Htop AY HY) as (_ & _ & Hnew).
  split; [done|]. split; [done|]. split; [|split; [done|split; [done|]]].
  { unfold Y, z, split_rest, split_size. unfold MIN_SIZE in *.
    destruct (Z.leb_spec (s - (nd + pd)) 32); cbn; [eapply ascending_weaken; [done|lia]|].
    unfold MIN_SIZE. repeat split; [lia|lia|eapply ascending_weaken; [done|lia]]. }
  split; [apply (split_linked _ _ _ _ _ _ _ _ _ K EL Hsz)|].
  intros x Hx. apply Hnew in Hx as [[_ Hx]|[Hx _]].
  - unfold disj, z in *. cbn in *. lia.
  - apply Yy in Hx as ->. unfold disj, z. cbn. lia.
Qed.

(** The stores that make the allocation header. *)
Definition align_mem : memory :=
  st8 (a + pd + 16) a (st4 (a + pd) ALLOC_MAGIC (st8 (a + pd + 8) z (st8 (a + 16) a m1))).

(** ... and those that make the gap a free block. *)
Definition gap_mem : memory :=
  st4 a FREE_MAGIC (st8 (a + 8) pd (st8 (a + 16) prev (st8 (a + 24) (first_addr 0 (Y ++ L2))
    (st8 (a + pd + 16) (a + pd) (st8 (a + pd + 8) nd align_mem))))).

Definition gap_links : memory :=
  link_next_m (link_prev_m gap_mem (first_addr 0 (Y ++ L2)) a) prev a.

Lemma align_touched : touched m1 align_mem a z.
Proof.
  destruct rest_facts as (_ & _ & _ & Hz & _). unfold align_mem. unfold MIN_SIZE in Hnd. touched_tac.
Qed.

Lemma align_linked : linked align_mem 0 (L1 ++ Y ++ L2) 0.
Proof.
  destruct rest_facts as (A1 & H1 & A2 & Hz & _ & KL & HD).
  eapply linked_touched; [exact align_touched| |exact HD|exact KL].
  rewrite ascending_app. split; [done|]. unfold MIN_SIZE in Hnd. eapply ascending_weaken; [exact A2|lia].
Qed.

Lemma align_confined : confined m align_mem (L t) a s.
Proof.
  eapply confined_touched; [apply (split_confined _ _ A _ _ _ _ _ _ K EL Hsz)|].
  destruct rest_facts as (_ & _ & _ & Hz & _). intros b w Hw Hd. apply align_touched; [done|].
  unfold disj in *. cbn in *. lia.
Qed.

Lemma gap_touched : touched align_mem gap_mem a z.
Proof.
  destruct rest_facts as (_ & _ & _ & Hz & _). unfold gap_mem. unfold MIN_SIZE in Hnd.
  touched_tac.
Qed.

Lemma gap_links_frame b w : 0 < w -> (forall x, x ∈ L1 ++ Y ++ L2 -> disj x (b, w)) ->
  same_on gap_mem gap_links b w.
Proof.
  intros Hw HD. destruct rest_facts as (A1 & _ & A2 & _). unfold gap_links.
  apply same_on_link_next; [apply same_on_link_prev; [apply same_on_refl|]|].
  - destruct (first_addr_in _ _ A2) as [->|(u & Hu & Hm)]; [by left|]. right.
    specialize (HD _ ltac:(apply elem_of_app; right; exact Hu)). unfold disj, MIN_SIZE in *. cbn in *. lia.
  - unfold prev. destruct (last_addr_in' _ A1) as [->|(u & Hu & Hm)]; [by left|]. right.
    specialize (HD _ ltac:(apply elem_of_app; left; exact Hu)). unfold disj, MIN_SIZE in *. cbn in *. lia.
Qed.

Lemma gap_linked : MIN_SIZE <= pd -> linked gap_links 0 (L1 ++ (a, pd) :: Y ++ L2) 0.
Proof.
  intros Hp. destruct rest_facts as (A1 & H1 & A2 & Hz & _ & _ & HD).
  pose proof align_linked as KL. rewrite linked_app in KL. destruct KL as [K1 K2].
  assert (K1' : linked gap_mem 0 L1 (first_addr 0 (Y ++ L2))).
  { eapply linked_touched; [exact gap_touched|exact A1| |exact K1]. set_solver. }
  assert (K2' : linked gap_mem prev (Y ++ L2) 0).
  { eapply linked_touched; [exact gap_touched|exact A2| |exact K2]. set_solver. }
  destruct (relink gap_mem L1 (Y ++ L2) (a + z - 1) _ _ a a A1 ltac:(unfold MIN_SIZE in Hnd; lia) A2 K1' K2') as [R1 R2].
  rewrite linked_app. cbn [linked first_addr]. split; [exact R1|]. split; [|exact R2].
  unfold MIN_SIZE in *. eapply free_hdr_frame.
  - apply gap_links_frame; [lia|]. intros x Hx. apply HD in Hx. unfold disj in *. cbn in *. lia.
  - unfold gap_mem. repeat split; ldst; done.
Qed.

Lemma gap_confined : confined m gap_links (L t) a s.
Proof.
  destruct rest_facts as (A1 & H1 & A2 & Hz & _ & _ & HD).
  destruct (split_rest_ok _ _ _ _ _ _ _ _ _ K EL Hsz) as (AY & HY & Hss & Yy).
  assert (C : confined m gap_mem (L t) a s).
  { eapply confined_touched; [exact align_confined|]. intros b w Hw Hd. apply gap_touched; [done|].
    unfold disj in *. cbn in *. lia. }
  intros b w Hw Hl Hd. eapply same_on_trans; [by apply C|]. apply gap_links_frame; [done|].
  intros x Hx. rewrite !elem_of_app in Hx. destruct Hx as [Hx|[Hx|Hx]].
  - apply Hl. rewrite EL. set_solver.
  - apply Yy in Hx as ->. fold z. unfold disj, MIN_SIZE in *. cbn in *. lia.
  - apply Hl. rewrite EL. set_solver.
Qed.

(** Which block comes after the gap is found out again after the split. *)
Lemma gap_next h1 :
  linked (kh_mem h1) 0 (L1 ++ Y ++ L2) 0 -> free_list h1 t = first_addr 0 (L1 ++ Y ++ L2) ->
  (if (prev =? NULL) && (next =? NULL) then Ok (free_list h1 t)
   else if next =? NULL then get_next h1 prev
   else let* np := get_prev h1 next in if negb (np =? prev) then Ok np else Ok next)
  = Ok (first_addr 0 (Y ++ L2)).
Proof.
  intros KL HF. destruct rest_facts as (A1 & H1 & A2 & Hz & _ & _ & HD).
  destruct (place_asc _ _ _ _ _ _ _ _ K EL) as (_ & _ & Hs & A3 & _). unfold prev, next, NULL.
  destruct L2 as [|[b w] L2'] eqn:EL2; cbn [first_addr].
  - rewrite Z.eqb_refl, andb_true_r. rewrite app_nil_r in *.
    destruct L1 as [|[c v] L1' _] using rev_ind; cbn [last_addr].
    + by rewrite Z.eqb_refl, HF.
    + rewrite last_addr_app. cbn [last_addr]. rewrite ascending_app in A1. cbn in A1.
      pose proof (end_of_ge _ _ (proj1 A1)). destruct (Z.eqb_spec c 0); [lia|].
      rewrite !linked_app in KL. cbn in KL. destruct KL as ((_ & (_ & _ & _ & E4) & _) & _).
      unfold get_next. by rewrite E4.
  - cbn in A3. unfold MIN_SIZE in *. destruct (Z.eqb_spec b 0); [lia|]. rewrite andb_false_r.
    rewrite app_assoc, linked_app, last_addr_app in KL. cbn in KL. destruct KL as (_ & (_ & _ & E3 & _) & _).
    unfold get_prev. rewrite E3. cbn [res_bind]. unfold Y, split_rest. destruct (_ <=? _) eqn:Er; cbn.
    + by rewrite Z.eqb_refl.
    + destruct (Z.eqb_spec (a + (nd + pd)) (last_addr 0 L1)) as [E|]; [|done].
      destruct (last_addr_in 0 L1) as [[El _]|(u & Hu & El)]; [lia|].
      apply (ascending_in _ _ _ _ A1) in Hu. unfold MIN_SIZE in *. lia.
Qed.

(** ** The two outcomes *)

Let h1 := replace_head h a (first_addr next Y).

Lemma align_heads t' v :
  free_list (set_mem h1 v) t' = first_addr 0 (upd L t (L1 ++ Y ++ L2) t').
Proof. apply (split_heads h L A t L1 a s L2 (nd + pd) K EL). Qed.

(** A gap that is too small for a block stays part of the allocation. *)
Lemma small_gap_ok :
  heap_ok (set_mem h1 align_mem) (upd L t (L1 ++ Y ++ L2)) (<[a + ALLOC_HDR + pd := (z, a)]> A) /\
  A !! (a + ALLOC_HDR + pd) = None.
Proof.
  destruct rest_facts as (A1 & H1 & A2 & Hz & Htop & _ & HD).
  destruct (split_rest_ok _ _ _ _ _ _ _ _ _ K EL Hsz) as (AY & HY & Hss & Yy).
  apply (carve_ok h _ L A t L1 a s L2 Y); try done.
  - apply align_linked.
  - apply align_confined.
  - intros t'. apply align_heads.
  - unfold alloc_hdr, align_mem, ALLOC_HDR. cbn [set_mem kh_mem].
    replace (a + 24 + pd - 24) with (a + pd) by lia. repeat split; ldst; done.
  - unfold alloc_shape, ALLOC_HDR, MIN_SIZE in *. lia.
  - lia.
  - intros y Hy. apply Yy in Hy as ->. fold z. unfold disj. cbn. lia.
Qed.

(** A larger one becomes a free block. *)
Lemma large_gap_ok h2 :
  MIN_SIZE <= pd -> kh_mem h2 = gap_links ->
  (forall t', free_list h2 t' = first_addr 0 (upd L t (L1 ++ ((a, pd) :: Y) ++ L2) t')) ->
  heap_ok h2 (upd L t (L1 ++ ((a, pd) :: Y) ++ L2)) (<[a + ALLOC_HDR + pd := (nd, a + pd)]> A) /\
  A !! (a + ALLOC_HDR + pd) = None.
Proof.
  intros Hp Em HH. destruct rest_facts as (A1 & H1 & A2 & Hz & Htop & _ & HD).
  destruct (split_rest_ok _ _ _ _ _ _ _ _ _ K EL Hsz) as (AY & HY & Hss & Yy).
  assert (AY' : ascending (a + pd) Y /\ end_of (a + pd) Y <= a + s).
  { unfold Y, split_rest. unfold MIN_SIZE in *. destruct (Z.leb_spec (s - (nd + pd)) 32); cbn in *; [lia|].
    unfold MIN_SIZE. lia. }
  apply (carve_ok h _ L A t L1 a s L2 ((a, pd) :: Y)); try done.
  - cbn. split; [lia|]. split; [done|]. apply AY'.
  - cbn. apply AY'.
  - rewrite Em. apply gap_linked. done.
  - rewrite Em. apply gap_confined.
  - rewrite Em. eapply alloc_hdr_frame.
    + apply gap_links_frame; [lia|]. intros x Hx. apply HD in Hx.
      unfold disj, ALLOC_HDR, MIN_SIZE in *. cbn in *. lia.
    + unfold alloc_hdr, gap_mem, align_mem, ALLOC_HDR, MIN_SIZE in *.
      replace (a + 24 + pd - 24) with (a + pd) by lia. repeat split; ldst; done.
  - unfold alloc_shape, ALLOC_HDR, MIN_SIZE in *. lia.
  - lia.
  - lia.
  - intros y [->|Hy]%elem_of_cons; [unfold disj; cbn; lia|]. apply Yy in Hy as ->. fold z. unfold disj. cbn. lia.
Qed.

Lemma memalign_gap_eq :
  exists h2, memalign_gap (set_mem h1 align_mem) t a prev next a pd nd = Ok h2 /\
    kh_mem h2 = gap_links /\
    (forall t', free_list h2 t' = first_addr 0 (upd L t (L1 ++ ((a, pd) :: Y) ++ L2) t')) /\
    (forall t', max_heap_size h2 t' = max_heap_size h t').
Proof.
  destruct rest_facts as (A1 & H1 & A2 & Hz & Htop & _ & HD).
  pose proof (align_heads t align_mem) as EH. rewrite upd_same in EH.
  unfold memalign_gap. rewrite (gap_next (set_mem h1 align_mem) align_linked EH). cbn [res_bind].
  rewrite link_prev_mem, link_next_mem. unfold set_size, set_start, set_next, set_prev, set_magic.
  cbn [set_mem kh_mem]. rewrite free_list_set_mem in EH. rewrite !free_list_set_mem, EH.
  change (link_next_m _ _ _) with gap_links. unfold NULL.
  assert (Hfirst : (first_addr 0 (L1 ++ Y ++ L2) =? 0) || (a <? first_addr 0 (L1 ++ Y ++ L2)) = true
     /\ L1 = [] \/ (first_addr 0 (L1 ++ Y ++ L2) =? 0) || (a <? first_addr 0 (L1 ++ Y ++ L2)) = false
     /\ L1 <> []).
  { destruct L1 as [|[c v] L1']; cbn [app first_addr] in *.
    - left. split; [|done]. apply orb_true_iff. rewrite Z.eqb_eq, Z.ltb_lt.
      destruct (Y ++ L2) as [|[b w] l] eqn:E; [by left|]. right. cbn [first_addr].
      cbn in A2. unfold MIN_SIZE in *. lia.
    - right. split; [|done]. apply orb_false_iff. rewrite Z.eqb_neq, Z.ltb_ge. cbn in A1, H1.
      destruct A1 as (? & ? & A1). pose proof (end_of_ge _ _ A1). unfold MIN_SIZE in *. lia. }
  assert (HM : forall t', max_heap_size h1 t' = max_heap_size h t') by apply replace_head_frame.
  destruct Hfirst as [[-> E1]|[-> E1]]; (eexists; split; [reflexivity|]).
  - rewrite kh_mem_set_free_list. split; [done|]. split.
    + intros t'. rewrite free_list_set, !free_list_set_mem. pose proof (align_heads t' align_mem) as E2.
      rewrite free_list_set_mem in E2. rewrite E2. unfold upd. rewrite E1. by destruct (decide _).
    + intros t'. by rewrite max_set_free_list, !max_set_mem.
  - split; [done|]. split.
    + intros t'. pose proof (align_heads t' align_mem) as E2. rewrite free_list_set_mem in E2.
      rewrite !free_list_set_mem, E2. unfold upd. destruct (decide (t' = t)); [|done].
      rewrite !first_addr_app. by destruct L1 as [|[c v] L1'].
    + intros t'. by rewrite !max_set_mem.
Qed.

Lemma memalign_take_ok :
  exists h2, memalign_take h t a pd nd = Ok (a + ALLOC_HDR + pd, h2) /\
    heap_ok h2 (upd L t (L1 ++ align_rest a s pd nd ++ L2))
      (<[a + ALLOC_HDR + pd := align_alloc a s pd nd]> A) /\
    A !! (a + ALLOC_HDR + pd) = None /\ (forall t', max_heap_size h2 t' = max_heap_size h t').
Proof.
  destruct rest_facts as (_ & H1 & _ & Hz & Htop & _).
  destruct (place_hdr _ _ _ _ _ _ _ _ K EL) as ((_ & _ & E3 & E4) & _).
  unfold memalign_take. unfold get_prev at 1, get_next at 1. rewrite E3, E4. cbn [res_bind].
  unfold MIN_SIZE in Hnd. rewrite u64_small by lia.
  rewrite (split_eq _ _ _ _ _ _ _ _ _ K EL Hsz). cbn [res_bind]. unfold NULL.
  destruct (Z.eqb_spec a 0); [lia|]. unfold get_size, set_start, set_size, set_magic.
  cbn [set_mem kh_mem]. rewrite ld8_st8_ne by lia.
  rewrite (split_size_field _ _ _ _ _ _ _ _ (nd + pd) K EL). cbn [res_bind].
  change (st8 (a + pd + 16) a _) with align_mem. unfold align_rest, align_alloc. fold Y z.
  change (set_mem _ align_mem) with (set_mem h1 align_mem).
  destruct (Z.ltb_spec pd MIN_SIZE) as [Hlt|Hge].
  - eexists. split; [reflexivity|]. destruct small_gap_ok as [K2 Hp]. split; [exact K2|].
    split; [exact Hp|]. intros t'. rewrite max_set_mem. apply replace_head_frame.
  - destruct memalign_gap_eq as (h2 & E & Em & HH & HM). fold prev next. rewrite E. cbn [res_bind].
    exists h2. split; [done|]. destruct (large_gap_ok h2 Hge Em HH) as [K2 Hp]. done.
Qed.
End Align.

(** ** The search *)

Section Memalign.
Context (asserts : bool) (h : kheap) (L : heap_type -> blocks) (A : gmap Z (Z * Z)).
Hypothesis K : heap_ok h L A.
Context (al : Z).
Hypothesis Hal : 0 < al < 2 ^ 62.

Lemma memalign_find_spec t nd : MIN_SIZE <= nd < 2 ^ 62 ->
  forall L2 L1 fuel, L t = L1 ++ L2 -> (length L2 <= fuel)%nat ->
  memalign_find asserts fuel h t (first_addr 0 L2) al nd =
    match list_find (fun x => nd + pad al (fst x) <= snd x) L2 with
    | Some (_, (a, _)) => memalign_take h t a (pad al a) nd
    | None => Ok (NULL, h)
    end.
Proof.
  intros Hnd. induction L2 as [|[a s] L2 IH]; intros L1 fuel EL Hf; [by destruct fuel|].
  destruct fuel as [|fuel]; [cbn in Hf; lia|].
  destruct (place_hdr _ _ _ _ _ _ _ _ K EL) as ((E1 & E2 & E3 & E4) & _).
  destruct (place_asc _ _ _ _ _ _ _ _ K EL) as (_ & H1 & Hs & _ & H2).
  assert (Enext : memalign_find asserts fuel h t (first_addr 0 L2) al nd =
    match list_find (fun x => nd + pad al (fst x) <= snd x) L2 with
    | Some (_, (a, _)) => memalign_take h t a (pad al a) nd
    | None => Ok (NULL, h)
    end).
  { apply (IH (L1 ++ [(a, s)])); [by rewrite <- app_assoc|cbn in Hf; lia]. }
  pose proof (pad_bounds al a ltac:(lia)) as Hp. unfold MIN_SIZE in *.
  cbn [memalign_find first_addr list_find fst snd]. unfold NULL at 1. destruct (Z.eqb_spec a 0); [lia|].
  unfold get_magic, get_size, get_next, tegrabl_assert. rewrite E1, E2, E4. cbn [res_bind].
  rewrite Z.eqb_refl. cbn [negb]. rewrite andb_false_r. cbn [res_bind].
  destruct (Z.ltb_spec s nd).
  { rewrite decide_False by lia. rewrite Enext. by destruct (list_find _ L2) as [[k [b w]]|]. }
  destruct (Z.eqb_spec al 0); [lia|]. rewrite (u64_small (a + ALLOC_HDR)) by (unfold ALLOC_HDR; lia).
  fold (pad al a). rewrite u64_small by lia. destruct (Z.ltb_spec s (pad al a + nd)).
  - rewrite decide_False by lia. rewrite Enext. by destruct (list_find _ L2) as [[k [b w]]|].
  - by rewrite decide_True by lia.
Qed.

Lemma memalign_generic_spec t size :
  0 < size < 2 ^ 61 -> is_size_alignment_valid h t al size = true ->
  match list_find (fun x => need size + pad al (fst x) <= snd x) (L t) with
  | None => tegrabl_memalign_generic asserts h t al size = Ok (NULL, h)
  | Some (k, (a, s)) =>
      let p := a + ALLOC_HDR + pad al a in
      exists h', tegrabl_memalign_generic asserts h t al size = Ok (p, h') /\
        heap_ok h'
          (upd L t (take k (L t) ++ align_rest a s (pad al a) (need size) ++ drop (S k) (L t)))
          (<[p := align_alloc a s (pad al a) (need size)]> A) /\
        A !! p = None /\ (forall t', max_heap_size h' t' = max_heap_size h t')
  end.
Proof.
  intros Hs Hv. destruct (need_bounds size ltac:(lia)) as (Er & Hn1 & Hn2 & _).
  assert (Ea : tegrabl_memalign_generic asserts h t al size =
    memalign_find asserts (list_fuel h) h t (free_list h t) al (need size)).
  { unfold tegrabl_memalign_generic. destruct (Z.eqb_spec size 0); [lia|]. rewrite Hv. cbn [negb].
    by rewrite u64_small by (unfold ALLOC_HDR; lia). }
  rewrite Ea, (ko_head _ _ _ K t). unfold ALLOC_HDR in Hn1.
  rewrite (memalign_find_spec t (need size) ltac:(lia) (L t) []); [|done|].
  2:{ pose proof (list_fuel_enough _ _ _ t K). lia. }
  destruct (list_find _ (L t)) as [[k [a s]]|] eqn:Ef; [|done].
  apply list_find_Some in Ef as (Hk & Hfit & _). cbn in Hfit.
  pose proof (take_drop_middle _ _ _ Hk) as EL. symmetry in EL. cbv zeta.
  pose proof (pad_bounds al a ltac:(lia)) as Hp.
  apply (memalign_take_ok h L A t _ a s); try done; lia.
Qed.
End Memalign.
