(* ===== verification/MallocSpec.v ===== *)
(** The heap as its clients see it: lists of free blocks and a table of live
    blocks, with the operations on them, and the proof that the routines of
    Malloc.v do exactly that. *)

From S2P Require Import Prelude TegraError BlockDev Malloc MallocFacts MallocOps MallocFree MallocAlign.

(** ** The abstract heap *)

Record aheap := mkAheap {
  ah_free : heap_type -> blocks;
  ah_live : gmap Z (Z * Z);
  ah_max : heap_type -> Z
}.

Definition heap_rel (h : kheap) (x : aheap) : Prop :=
  heap_ok h (ah_free x) (ah_live x) /\
  forall t, max_heap_size h t = ah_max x t /\ 0 <= ah_max x t < 2 ^ 61.

(** Block [k] of list [t] is replaced by [rest], and [blk] handed out at [p]. *)
Definition spec_carve (x : aheap) (t : heap_type) (k : nat) (rest : blocks) (p : Z)
    (blk : Z * Z) : Z * aheap :=
  let l := ah_free x t in
  (p, mkAheap (upd (ah_free x) t (take k l ++ rest ++ drop (S k) l))
        (<[p := blk]> (ah_live x)) (ah_max x)).

(** First fit. *)
Definition spec_malloc (x : aheap) (t : heap_type) (size : Z) : Z * aheap :=
  if (size =? 0) || (ah_max x t <? size) then (NULL, x)
  else
    match list_find (fun b => need size < snd b) (ah_free x t) with
    | Some (k, (a, s)) =>
        spec_carve x t k (split_rest a s (need size)) (a + ALLOC_HDR)
          (split_size s (need size), a)
    | None => (NULL, x)
    end.

Definition spec_align (x : aheap) (t : heap_type) (al size : Z) : Z * aheap :=
  if (size =? 0) || (ah_max x t <? size + al) then (NULL, x)
  else
    match list_find (fun b => need size + pad al (fst b) <= snd b) (ah_free x t) with
    | Some (k, (a, s)) =>
        spec_carve x t k (align_rest a s (pad al a) (need size)) (a + ALLOC_HDR + pad al a)
          (align_alloc a s (pad al a) (need size))
    | None => (NULL, x)
    end.

(** The heap that serves a request: an exhausted DMA heap counts as absent. *)
Definition serving (x : aheap) (t : heap_type) : heap_type :=
  match t, ah_free x TEGRABL_HEAP_DMA with
  | TEGRABL_HEAP_DMA, _ :: _ => TEGRABL_HEAP_DMA
  | _, _ => TEGRABL_HEAP_DEFAULT
  end.

Definition spec_free (x : aheap) (t : heap_type) (p : Z) : aheap :=
  match ah_live x !! p with
  | Some (s, st) =>
      mkAheap (upd (ah_free x) t (coalesce_in st s (ah_free x t))) (delete p (ah_live x)) (ah_max x)
  | None => x
  end.

(** ** Sequences of calls *)

(** The calls of a client, and that it fills a block of its own. *)
Inductive heap_op :=
| OpMalloc (size : Z)
| OpCalloc (nmemb size : Z)
| OpAlloc (t : heap_type) (size : Z)
| OpMemalign (al size : Z)
| OpAlign (t : heap_type) (al size : Z)
| OpUse (p len : Z)
| OpFree (p : Z)
| OpDealloc (t : heap_type) (p : Z).

Definition spec_op (x : aheap) (o : heap_op) : Z * aheap :=
  match o with
  | OpMalloc size => spec_malloc x TEGRABL_HEAP_DEFAULT size
  | OpCalloc nmemb size =>
      if (size =? 0) || (ah_max x TEGRABL_HEAP_DEFAULT / size <? nmemb) then (NULL, x)
      else spec_malloc x TEGRABL_HEAP_DEFAULT (size * nmemb)
  | OpAlloc t size => spec_malloc x (serving x t) size
  | OpMemalign al size => spec_align x TEGRABL_HEAP_DEFAULT al size
  | OpAlign t al size => spec_align x (serving x t) al size
  | OpUse _ _ => (NULL, x)
  | OpFree p => (NULL, spec_free x TEGRABL_HEAP_DEFAULT p)
  | OpDealloc t p => (NULL, spec_free x (serving x t) p)
  end.

(** What the caller has to respect: arguments of type [size_t], an alignment that
    is not zero, stores only inside live blocks, and only those given back, or
    [NULL]. *)
Definition size_t (n : Z) : Prop := 0 <= n < 2 ^ 64.

Definition op_pre (x : aheap) (o : heap_op) : Prop :=
  match o with
  | OpMalloc size | OpAlloc _ size => size_t size
  | OpCalloc nmemb size => size_t nmemb /\ size_t size
  | OpMemalign al size | OpAlign _ al size => size_t size /\ size_t al /\ al <> 0
  | OpUse p len => 0 < len /\ exists s st, ah_live x !! p = Some (s, st) /\ p + len <= st + s
  | OpFree p | OpDealloc _ p => p = NULL \/ is_Some (ah_live x !! p)
  end.

Section Run.
Variable asserts : bool.

Definition run_op (h : kheap) (o : heap_op) : res (Z * kheap) :=
  match o with
  | OpMalloc size => tegrabl_malloc asserts h size
  | OpCalloc nmemb size => let* (p, _, h) := tegrabl_calloc asserts h nmemb size in Ok (p, h)
  | OpAlloc t size => tegrabl_alloc asserts h t size
  | OpMemalign al size => tegrabl_memalign asserts h al size
  | OpAlign t al size => tegrabl_alloc_align asserts h t al size
  | OpUse p len => Ok (NULL, set_mem h (clear p len (kh_mem h)))
  | OpFree p => let* h := tegrabl_free h p in Ok (NULL, h)
  | OpDealloc t p => let* h := tegrabl_dealloc h t p in Ok (NULL, h)
  end.

Fixpoint run_ops (h : kheap) (os : list heap_op) : res (list Z * kheap) :=
  match os with
  | [] => Ok ([], h)
  | o :: os =>
      let* (p, h) := run_op h o in
      let* (ps, h) := run_ops h os in
      Ok (p :: ps, h)
  end.
End Run.

Fixpoint spec_ops (x : aheap) (os : list heap_op) : list Z * aheap :=
  match os with
  | [] => ([], x)
  | o :: os =>
      let '(p, x) := spec_op x o in
      let '(ps, x) := spec_ops x os in (p :: ps, x)
  end.

Fixpoint ops_pre (x : aheap) (os : list heap_op) : Prop :=
  match os with
  | [] => True
  | o :: os => op_pre x o /\ ops_pre (snd (spec_op x o)) os
  end.

(** ** The routines do what the abstract operations say *)

(** The lists count up to pointwise equality. *)
#[export] Instance heap_ok_proper :
  Proper (eq ==> pointwise_relation heap_type eq ==> eq ==> iff) heap_ok.
Proof.
  assert (Half : forall h L L' A, pointwise_relation heap_type eq L L' -> heap_ok h L A -> heap_ok h L' A).
  { intros h L L' A HL [H1 H2 H3 H4 H5 H6 H7 H8]. unfold pointwise_relation in HL.
    split; try done; intros; repeat match goal with H : context [L' ?t] |- _ => rewrite <- (HL t) in H end;
      rewrite <- ?HL; eauto. }
  intros h ? <- L L' HL A ? <-. split; apply Half; [done|by symmetry].
Qed.

Lemma upd_id L t : pointwise_relation heap_type eq (upd L t (L t)) L.
Proof. intros u. unfold upd. by destruct (decide (u = t)) as [->|]. Qed.

Lemma upd_upd L t l l' : pointwise_relation heap_type eq (upd (upd L t l) t l') (upd L t l').
Proof. intros u. unfold upd. by destruct (decide (u = t)). Qed.

(** The owner of a block may overwrite all of it. *)
Lemma heap_ok_use h L A p s st len :
  heap_ok h L A -> A !! p = Some (s, st) -> 0 < len -> p + len <= st + s ->
  heap_ok (set_mem h (clear p len (kh_mem h))) L A.
Proof.
  intros K Hp Hl Hr. destruct (ko_alloc _ _ _ K _ _ _ Hp) as (_ & S). unfold alloc_shape in S.
  assert (SF : forall b w, 0 < w -> disj (b, w) (st, s) -> same_on (kh_mem h) (clear p len (kh_mem h)) b w).
  { intros b w Hw Hd. apply same_on_clear; [apply same_on_refl|]. unfold disj, ALLOC_HDR in *. cbn in *. lia. }
  rewrite <- (upd_id L TEGRABL_HEAP_DEFAULT). set (t := TEGRABL_HEAP_DEFAULT).
  assert (SL : forall t' b w, (b, w) ∈ L t' -> same_on (kh_mem h) (clear p len (kh_mem h)) b w).
  { intros t' b w Hb. apply SF; [|by apply (ko_free_alloc _ _ _ K t' _ p)].
    apply (ascending_in _ _ _ _ (ko_asc _ _ _ K t')) in Hb. unfold MIN_SIZE in Hb. lia. }
  apply (rebuild_ok h _ L A); try done; try apply K.
  - intros t'. rewrite free_list_set_mem, (ko_head _ _ _ K t'). unfold upd. by destruct (decide (t' = t)) as [->|].
  - eapply linked_frame; [|apply (ko_linked _ _ _ K t)]. intros b w Hb.
    eapply same_on_sub; [by apply (SL t)|lia|].
    apply (ascending_in _ _ _ _ (ko_asc _ _ _ K t)) in Hb. unfold MIN_SIZE in Hb. lia.
  - intros. by apply (SL t').
  - intros t' x y Hne Hx Hy. by apply (ko_lists _ _ _ K t t').
  - intros q s' st' Hq. destruct (ko_alloc _ _ _ K _ _ _ Hq) as (Hh & S'). split; [|done].
    eapply alloc_hdr_frame; [|exact Hh]. cbn [set_mem kh_mem]. unfold alloc_shape, ALLOC_HDR, MIN_SIZE in *.
    destruct (decide (q = p)) as [->|Hne].
    + apply same_on_clear; [apply same_on_refl|lia].
    + eapply same_on_sub; [apply (SF st' s'); [lia|]|lia|lia]. by apply (ko_alloc_alloc _ _ _ K q p).
  - intros t' y q s' st' _. apply (ko_free_alloc _ _ _ K t').
Qed.

Section Refine.
Context (asserts : bool) (h : kheap) (x : aheap).
Hypothesis R : heap_rel h x.

Lemma serving_eq t :
  bool_decide (t = TEGRABL_HEAP_DMA) && negb (free_list h TEGRABL_HEAP_DMA =? NULL) =
  bool_decide (serving x t = TEGRABL_HEAP_DMA).
Proof.
  destruct R as [K _]. rewrite (ko_head _ _ _ K TEGRABL_HEAP_DMA). unfold serving, NULL. destruct t; [done|].
  pose proof (ko_asc _ _ _ K TEGRABL_HEAP_DMA) as As.
  destruct (ah_free x TEGRABL_HEAP_DMA) as [|[a s] l]; cbn in As |- *; [done|].
  destruct (Z.eqb_spec a 0); [lia|done].
Qed.

Lemma generic_malloc_refines t size :
  size_t size -> ah_max x t <? size = false ->
  exists h', tegrabl_generic_malloc asserts h (free_list h t) size = Ok (fst (spec_malloc x t size), h') /\
    heap_rel h' (snd (spec_malloc x t size)).
Proof.
  intros Hs Hm. destruct R as [K HM]. destruct (HM t) as [_ Ht]. apply Z.ltb_ge in Hm.
  unfold spec_malloc, size_t in *. destruct (Z.ltb_spec (ah_max x t) size); [lia|]. rewrite orb_false_r.
  destruct (Z.eqb_spec size 0) as [->|Hn]; [by exists h|].
  pose proof (generic_malloc_spec asserts h _ _ K t size ltac:(lia)) as G.
  destruct (list_find _ (ah_free x t)) as [[k [a s]]|]; [|by exists h].
  destruct G as (h' & E & K' & _ & HM'). exists h'. split; [done|]. split; [done|].
  intros u. rewrite HM'. apply HM.
Qed.

Lemma malloc_refines size : size_t size ->
  exists h', tegrabl_malloc asserts h size = Ok (fst (spec_malloc x TEGRABL_HEAP_DEFAULT size), h') /\
    heap_rel h' (snd (spec_malloc x TEGRABL_HEAP_DEFAULT size)).
Proof.
  intros Hs. destruct R as [K HM]. destruct (HM TEGRABL_HEAP_DEFAULT) as [Em Ht].
  unfold tegrabl_malloc. rewrite Em. destruct (_ <? size) eqn:E.
  - exists h. unfold spec_malloc. by rewrite E, orb_true_r.
  - by apply generic_malloc_refines.
Qed.

Lemma alloc_refines t size : size_t size ->
  exists h', tegrabl_alloc asserts h t size = Ok (fst (spec_malloc x (serving x t) size), h') /\
    heap_rel h' (snd (spec_malloc x (serving x t) size)).
Proof.
  intros Hs. unfold tegrabl_alloc. rewrite serving_eq.
  destruct (serving x t); [by apply malloc_refines|]. rewrite bool_decide_true by done.
  destruct R as [K HM]. destruct (HM TEGRABL_HEAP_DMA) as [Em Ht]. rewrite Em.
  destruct (_ <? size) eqn:E.
  - exists h. unfold spec_malloc. by rewrite E, orb_true_r.
  - by apply generic_malloc_refines.
Qed.

(** The test of size and alignment amounts to one comparison. *)
Lemma alignment_valid_eq t al size : size_t size -> size_t al ->
  is_size_alignment_valid h t al size = negb (ah_max x t <? size + al).
Proof.
  intros Hs Ha. destruct R as [K HM]. destruct (HM t) as [Em Ht].
  unfold is_size_alignment_valid. rewrite Em. unfold size_t in *.
  destruct (Z.ltb_spec (ah_max x t) (size + al)); cbn [negb].
  - destruct (Z.ltb_spec (ah_max x t) size); [done|]. destruct (Z.ltb_spec (ah_max x t) al); [done|].
    rewrite u64_small by lia. destruct (Z.ltb_spec (ah_max x t) (size + al)); [done|lia].
  - rewrite u64_small by lia. repeat match goal with |- context [?a <? ?b] => destruct (Z.ltb_spec a b); [lia|] end. done.
Qed.

Lemma align_refines t al size : size_t size -> size_t al -> al <> 0 ->
  exists h', tegrabl_memalign_generic asserts h t al size = Ok (fst (spec_align x t al size), h') /\
    heap_rel h' (snd (spec_align x t al size)).
Proof.
  intros Hs Ha Hn. pose proof (alignment_valid_eq t al size Hs Ha) as Ev.
  destruct R as [K HM]. destruct (HM t) as [Em Ht]. unfold spec_align, size_t in *.
  destruct (Z.eqb_spec size 0) as [->|]; [by exists h|].
  destruct (Z.ltb_spec (ah_max x t) (size + al)); cbn [orb].
  { exists h. split; [|done]. unfold tegrabl_memalign_generic. destruct (Z.eqb_spec size 0); [lia|]. by rewrite Ev. }
  pose proof (memalign_generic_spec asserts h _ _ K al ltac:(lia) t size ltac:(lia) Ev) as G.
  destruct (list_find _ (ah_free x t)) as [[k [a s]]|]; [|by exists h].
  destruct G as (h' & E & K' & _ & HM'). exists h'. split; [done|]. split; [done|].
  intros u. rewrite HM'. apply HM.
Qed.

Lemma dealloc_refines t p : p = NULL \/ is_Some (ah_live x !! p) ->
  exists h', tegrabl_dealloc h t p = Ok h' /\ heap_rel h' (spec_free x (serving x t) p).
Proof.
  intros Hp. destruct R as [K HM].
  assert (Et : dealloc_heap h t = serving x t).
  { unfold dealloc_heap. rewrite serving_eq. by destruct (serving x t). }
  destruct (ah_live x !! p) as [[s st]|] eqn:E.
  - destruct (dealloc_spec _ _ _ K t p s st E) as (h' & Ed & K' & HM' & _). rewrite Et in K'.
    exists h'. split; [done|]. unfold spec_free. rewrite E. split; [done|].
    intros u. rewrite HM'. apply HM.
  - destruct Hp as [->|[? ?]]; [|done]. exists h. unfold spec_free. rewrite E.
    unfold tegrabl_dealloc, tegrabl_generic_free. by rewrite Z.eqb_refl.
Qed.

(** The block handed out holds the request. *)
Lemma spec_malloc_room t size p x' : 0 < size < 2 ^ 61 -> spec_malloc x t size = (p, x') -> p <> NULL ->
  exists s st, ah_live x' !! p = Some (s, st) /\ p + size <= st + s.
Proof.
  intros Hs E Hp. unfold spec_malloc in E. destruct (_ || _); [congruence|].
  destruct (list_find _ (ah_free x t)) as [[k [a s]]|] eqn:Ef; [|congruence].
  apply list_find_Some in Ef as (_ & Hlt & _). cbn in Hlt. unfold spec_carve in E. injection E as <- <-.
  exists (split_size s (need size)), a. split; [apply lookup_insert_eq|].
  destruct (need_bounds size ltac:(lia)) as (_ & Hn & _). unfold split_size, ALLOC_HDR in *.
  destruct (_ <=? _); lia.
Qed.

Lemma calloc_refines nmemb size : size_t nmemb -> size_t size ->
  exists h', (let* (p, _, h) := tegrabl_calloc asserts h nmemb size in Ok (p, h)) =
      Ok (fst (spec_op x (OpCalloc nmemb size)), h') /\
    heap_rel h' (snd (spec_op x (OpCalloc nmemb size))).
Proof.
  intros Hn Hs. pose proof R as [K HM]. destruct (HM TEGRABL_HEAP_DEFAULT) as [Em Ht].
  unfold tegrabl_calloc, size_t in *. cbn [spec_op]. rewrite Em.
  destruct (Z.eqb_spec size 0); [by exists h|]. destruct (Z.ltb_spec (ah_max x TEGRABL_HEAP_DEFAULT / size) nmemb);
    [by exists h|]. cbn [orb].
  pose proof (Z.mul_div_le (ah_max x TEGRABL_HEAP_DEFAULT) size ltac:(lia)).
  assert (size * nmemb <= ah_max x TEGRABL_HEAP_DEFAULT) by nia. rewrite u64_small by nia.
  rewrite (Z.mul_comm size nmemb), Z.div_mul by lia. rewrite Z.eqb_refl. unfold tegrabl_assert.
  cbn [negb]. rewrite andb_false_r. cbn [res_bind]. rewrite (Z.mul_comm nmemb size).
  destruct (malloc_refines (size * nmemb) ltac:(unfold size_t; nia)) as (h' & -> & R').
  destruct (spec_malloc x TEGRABL_HEAP_DEFAULT (size * nmemb)) as [p x'] eqn:E. cbn [fst snd res_bind] in *.
  unfold NULL. destruct (Z.eqb_spec p 0) as [->|Hp]; [by exists h'|]. cbn [res_bind].
  assert (0 < size * nmemb).
  { destruct (Z.eq_dec (size * nmemb) 0) as [E0|]; [|nia]. rewrite E0 in E. unfold spec_malloc in E. cbn in E.
    injection E as <- <-. done. }
  destruct (spec_malloc_room TEGRABL_HEAP_DEFAULT (size * nmemb) p x' ltac:(lia) E Hp) as (s & st & Hl & Hr).
  eexists. split; [reflexivity|]. destruct R' as [K' HM']. split.
  - by eapply heap_ok_use.
  - intros t. rewrite max_set_mem. apply HM'.
Qed.

Lemma op_refines o : op_pre x o ->
  exists h', run_op asserts h o = Ok (fst (spec_op x o), h') /\ heap_rel h' (snd (spec_op x o)).
Proof.
  destruct o as [size|nmemb size|t size|al size|t al size|p len|p|t p]; cbn [op_pre run_op spec_op].
  - apply malloc_refines.
  - intros [Hn Hs]. by apply calloc_refines.
  - apply alloc_refines.
  - intros (Hs & Ha & Hn). by apply align_refines.
  - intros (Hs & Ha & Hn). unfold tegrabl_alloc_align. rewrite serving_eq.
    destruct (serving x t); by apply align_refines.
  - intros (Hl & s & st & Hp & Hr). eexists. split; [reflexivity|]. destruct R as [K HM]. split.
    + by eapply heap_ok_use.
    + intros t. rewrite max_set_mem. apply HM.
  - intros Hp. unfold tegrabl_free. destruct (dealloc_refines TEGRABL_HEAP_DEFAULT p Hp) as (h' & -> & R').
    by exists h'.
  - intros Hp. destruct (dealloc_refines t p Hp) as (h' & -> & R'). by exists h'.
Qed.
End Refine.
