(* ===== verification/MallocProps.v ===== *)
(** The theorems about the heap. *)

From S2P Require Import Prelude TegraError BlockDev Malloc MallocFacts MallocOps MallocFree.
From S2P Require Import MallocAlign MallocSpec.

(** ** Initialisation *)

(** The static state before any heap exists. *)
Definition no_heap : kheap := mkKheap NULL NULL 0 0 ∅.

Lemma no_heap_ok : heap_ok no_heap (fun _ => []) ∅.
Proof.
  split; try done.
  - by intros [].
  - intros t t' x y _ Hx. by apply not_elem_of_nil in Hx.
Qed.

Lemma heap_init_ok h L A t start size :
  heap_ok h L A -> L t = [] -> 0 < start -> MIN_SIZE <= size -> start + size < 2 ^ 63 ->
  (forall t' y, y ∈ L t' -> disj (start, size) y) ->
  (forall p s st, A !! p = Some (s, st) -> disj (start, size) (st, s)) ->
  exists h', tegrabl_heap_init h t start size = (TEGRABL_NO_ERROR, h') /\
    heap_ok h' (upd L t [(start, size)]) A /\
    forall u, max_heap_size h' u = if decide (u = t) then size else max_heap_size h u.
Proof.
  intros K Et Hst Hs Htop HL HA. unfold tegrabl_heap_init. pose proof Hs as Hs'. unfold MIN_SIZE in Hs'.
  destruct (Z.ltb_spec size MIN_SIZE); [lia|].
  rewrite (ko_head _ _ _ K t), Et. cbn [first_addr]. rewrite Z.eqb_refl. cbn [negb].
  unfold set_prev, set_next, set_size, set_magic. cbn [set_mem kh_mem].
  set (m' := st4 _ _ _). assert (T : touched (kh_mem h) m' start size) by (unfold m'; touched_tac).
  set (h' := set_max _ _ _). assert (Em : kh_mem h' = m') by (by destruct t).
  exists h'. split; [reflexivity|]. split.
  - apply (rebuild_ok h h' L A); try done.
    + intros u. unfold upd. pose proof (ko_head _ _ _ K u) as Hu. destruct t, u; exact Hu || done.
    + rewrite Em. unfold m'. cbn. split; [|done].
      repeat split; ldst; done.
    + intros u b w _ Hb. rewrite Em. apply T; [|by apply (HL u)].
      apply (ascending_in _ _ _ _ (ko_asc _ _ _ K u)) in Hb. unfold MIN_SIZE in Hb. lia.
    + intros u x y _ Hx Hy. apply list_elem_of_singleton in Hx as ->. by apply (HL u).
    + intros p s st Hp. destruct (ko_alloc _ _ _ K _ _ _ Hp) as (Hh & S). split; [|done].
      rewrite Em. eapply alloc_hdr_frame; [|exact Hh].
      unfold alloc_shape, ALLOC_HDR, MIN_SIZE in S.
      eapply same_on_sub; [apply (T st s); [lia|by eapply HA]|lia|lia].
    + intros x p s st Hx Hp. apply list_elem_of_singleton in Hx as ->. by eapply HA.
    + intros u x p s st _. apply (ko_free_alloc _ _ _ K u).
    + apply (ko_alloc_alloc _ _ _ K).
  - intros u. by destruct t, u.
Qed.

(** Both heaps, each one free block. *)
Definition two_heaps (d d' : Z * Z) : kheap :=
  let h := snd (tegrabl_heap_init no_heap TEGRABL_HEAP_DEFAULT (fst d) (snd d)) in
  snd (tegrabl_heap_init h TEGRABL_HEAP_DMA (fst d') (snd d')).

Definition arena_of (d d' : Z * Z) (t : heap_type) : Z * Z :=
  match t with TEGRABL_HEAP_DEFAULT => d | TEGRABL_HEAP_DMA => d' end.

Definition two_arenas (d d' : Z * Z) : aheap :=
  mkAheap (fun t => [arena_of d d' t]) ∅ (fun t => snd (arena_of d d' t)).

Definition arenas_ok (d d' : Z * Z) : Prop :=
  disj d d' /\ forall t, let '(a, s) := arena_of d d' t in
    0 < a /\ MIN_SIZE <= s < 2 ^ 61 /\ a + s < 2 ^ 63.

Lemma two_heaps_rel d d' : arenas_ok d d' -> heap_rel (two_heaps d d') (two_arenas d d').
Proof.
  intros [Hd HB]. destruct d as [a s], d' as [a' s'].
  pose proof (HB TEGRABL_HEAP_DEFAULT) as (B1 & B2 & B3). pose proof (HB TEGRABL_HEAP_DMA) as (B4 & B5 & B6).
  cbn in *. unfold two_heaps. cbn [fst snd].
  destruct (heap_init_ok no_heap _ _ TEGRABL_HEAP_DEFAULT a s no_heap_ok) as (h1 & E1 & K1 & M1);
    try done; try lia.
  { intros t y Hy. by apply not_elem_of_nil in Hy. }
  rewrite E1. cbn [snd].
  destruct (heap_init_ok h1 _ _ TEGRABL_HEAP_DMA a' s' K1) as (h2 & E2 & K2 & M2); try done; try lia.
  { intros [] y Hy; [|by apply not_elem_of_nil in Hy]. apply list_elem_of_singleton in Hy as ->.
    by apply disj_sym. }
  rewrite E2. cbn [snd]. split.
  - cbn [two_arenas ah_free ah_live]. eapply heap_ok_proper; [done| |done|exact K2]. by intros [].
  - intros t. rewrite M2, M1. unfold MIN_SIZE in *.
    destruct t; repeat (destruct (decide _); try done); cbn [two_arenas ah_max arena_of snd]; lia.
Qed.

(** ** Refinement *)

Lemma ops_refine asserts os : forall h x, heap_rel h x -> ops_pre x os ->
  exists h', run_ops asserts h os = Ok (fst (spec_ops x os), h') /\ heap_rel h' (snd (spec_ops x os)).
Proof.
  induction os as [|o os IH]; intros h x R; cbn [ops_pre run_ops spec_ops]; [by exists h|].
  intros [Ho Hos]. destruct (op_refines asserts h x R o Ho) as (h1 & E1 & R1). rewrite E1. cbn [res_bind].
  destruct (spec_op x o) as [p x1]. cbn [fst snd] in *.
  destruct (IH h1 x1 R1 Hos) as (h2 & E2 & R2). rewrite E2. cbn [res_bind].
  destruct (spec_ops x1 os) as [ps x2]. by exists h2.
Qed.

(** C11: from two freshly initialised heaps, every sequence of calls of the
    allocation and release routines, with the clients storing to their own
    blocks in between, returns (no walk runs away, no assertion fails, no bad
    address is read) and yields exactly the addresses, the lists of free blocks
    and the live blocks of the abstract heap. *)
Theorem heap_refines_spec asserts d d' os :
  arenas_ok d d' -> ops_pre (two_arenas d d') os ->
  exists h', run_ops asserts (two_heaps d d') os = Ok (fst (spec_ops (two_arenas d d') os), h') /\
    heap_rel h' (snd (spec_ops (two_arenas d d') os)).
Proof. intros HA Hos. apply ops_refine; [by apply two_heaps_rel|done]. Qed.

Definition demo_ops : list heap_op :=
  [OpMalloc 100; OpAlign TEGRABL_HEAP_DMA 4096 512; OpUse 4120 100; OpCalloc 4 10;
   OpFree 4120; OpDealloc TEGRABL_HEAP_DMA 36864; OpMalloc 50].

Lemma demo_arenas : arenas_ok (4096, 8192) (32768, 16384).
Proof. split; [unfold disj; cbn; lia|]. intros []; cbn; unfold MIN_SIZE; lia. Qed.

Lemma demo_ops_pre : ops_pre (two_arenas (4096, 8192) (32768, 16384)) demo_ops.
Proof.
  unfold demo_ops. repeat (cbn [ops_pre]; split); try exact I;
    cbn [op_pre]; unfold size_t; try lia.
  - exists 128, 4096. split; [vm_compute; reflexivity|lia].
  - right. eexists. vm_compute. reflexivity.
  - right. eexists. vm_compute. reflexivity.
Qed.

Lemma heap_refines_spec_witness :
  exists h', run_ops true (two_heaps (4096, 8192) (32768, 16384)) demo_ops =
      Ok ([4120; 36864; 0; 4248; 0; 0; 4120], h') /\
    heap_rel h' (snd (spec_ops (two_arenas (4096, 8192) (32768, 16384)) demo_ops)).
Proof.
  destruct (heap_refines_spec true _ _ demo_ops demo_arenas demo_ops_pre) as (h' & E & R).
  exists h'. split; [|exact R]. rewrite E. vm_compute. reflexivity.
Defined.

(** ** Blocks stay inside the heaps *)

Definition covers (P : Z -> Prop) (y : Z * Z) : Prop := forall b, fst y <= b < fst y + snd y -> P b.

Definition aheap_in (P : Z -> Prop) (x : aheap) : Prop :=
  (forall t y, y ∈ ah_free x t -> covers P y) /\
  (forall p s st, ah_live x !! p = Some (s, st) -> covers P (st, s)).

Lemma covers_inside P y z : covers P y -> fst y <= fst z -> fst z + snd z <= fst y + snd y -> covers P z.
Proof. intros C H1 H2 b Hb. apply C. lia. Qed.

Lemma join_next_covers P a s L : (forall y, y ∈ L -> covers P y) -> covers P (a, s) ->
  forall y, y ∈ join_next a s L -> covers P y.
Proof.
  intros HL Ha y. destruct L as [|[b w] L]; cbn; [set_solver|].
  destruct (Z.eqb_spec (a + s) b) as [<-|]; [|set_solver].
  intros [->|Hy]%elem_of_cons; [|set_solver]. specialize (HL (a + s, w) ltac:(set_solver)).
  intros c Hc. cbn in Hc. destruct (Z_lt_dec c (a + s)); [apply Ha|apply HL]; cbn; lia.
Qed.

Lemma coalesce_covers P a s L : (forall y, y ∈ L -> covers P y) -> covers P (a, s) ->
  forall y, y ∈ coalesce_in a s L -> covers P y.
Proof.
  induction L as [|[b w] L IH]; intros HL Ha y; cbn; [set_solver|].
  destruct (Z.ltb_spec (b + w) a).
  - intros [->|Hy]%elem_of_cons; [apply HL; set_solver|]. apply IH; set_solver.
  - destruct (Z.eqb_spec (b + w) a) as [<-|].
    + apply join_next_covers; [set_solver|]. specialize (HL (b, w) ltac:(set_solver)).
      intros c Hc. cbn in Hc. destruct (Z_lt_dec c (b + w)); [apply HL|apply Ha]; cbn; lia.
    + by apply (join_next_covers P a s ((b, w) :: L)).
Qed.

Lemma carve_in P x t k a s rest p blk :
  aheap_in P x -> ah_free x t !! k = Some (a, s) ->
  (forall y, y ∈ (snd blk, fst blk) :: rest -> a <= fst y /\ fst y + snd y <= a + s) ->
  aheap_in P (snd (spec_carve x t k rest p blk)).
Proof.
  intros [HF HA] Hk HI. assert (Hin : (a, s) ∈ ah_free x t) by (by eapply list_elem_of_lookup_2).
  assert (HC : forall y, y ∈ (snd blk, fst blk) :: rest -> covers P y).
  { intros y Hy. apply HI in Hy as [H1 H2]. by apply (covers_inside P (a, s)); [apply (HF t)|..]. }
  split; cbn [spec_carve snd ah_free ah_live].
  - intros u y. unfold upd. destruct (decide (u = t)) as [->|]; [|apply HF].
    rewrite !elem_of_app. intros [Hy|[Hy|Hy]].
    + apply (HF t). rewrite <- (take_drop k (ah_free x t)). apply elem_of_app. by left.
    + apply HC. by right.
    + apply (HF t). rewrite <- (take_drop (S k) (ah_free x t)). apply elem_of_app. by right.
  - intros q s' st'. destruct (decide (q = p)) as [->|].
    + rewrite lookup_insert_eq. intros [= ->]. apply HC. left.
    + rewrite lookup_insert_ne by done. apply HA.
Qed.

Lemma split_inside a s sz y :
  MIN_SIZE <= sz <= s -> y ∈ (a, split_size s sz) :: split_rest a s sz ->
  a <= fst y /\ fst y + snd y <= a + s.
Proof.
  unfold split_size, split_rest, MIN_SIZE. intros Hs. destruct (Z.leb_spec (s - sz) 32);
    intros [->|Hy]%elem_of_cons; cbn; try lia; try (by apply not_elem_of_nil in Hy).
  apply list_elem_of_singleton in Hy as ->. cbn. lia.
Qed.

Lemma align_inside a s pd nd y :
  MIN_SIZE <= nd -> 0 < pd -> nd + pd <= s ->
  y ∈ (snd (align_alloc a s pd nd), fst (align_alloc a s pd nd)) :: align_rest a s pd nd ->
  a <= fst y /\ fst y + snd y <= a + s.
Proof.
  intros Hn Hp Hs Hy. unfold align_alloc, align_rest in Hy.
  destruct (_ <? _); cbn [fst snd app] in Hy.
  - apply (split_inside a s (nd + pd)); [lia|exact Hy].
  - unfold MIN_SIZE in Hn. apply elem_of_cons in Hy as [->|Hy]; [cbn; lia|].
    apply elem_of_cons in Hy as [->|Hy]; [cbn; lia|].
    apply (split_inside a s (nd + pd)); [unfold MIN_SIZE; lia|by right].
Qed.

Lemma spec_malloc_in P x t size : aheap_in P x -> size_t size -> 0 <= ah_max x t < 2 ^ 61 ->
  aheap_in P (snd (spec_malloc x t size)).
Proof.
  intros HP Hs Ht. unfold spec_malloc, size_t in *.
  destruct (Z.eqb_spec size 0); [done|]. destruct (Z.ltb_spec (ah_max x t) size); [done|]. cbn [orb].
  destruct (list_find _ _) as [[k [a s]]|] eqn:Ef; [|done].
  apply list_find_Some in Ef as (Hk & Hlt & _). cbn in Hlt.
  destruct (need_bounds size ltac:(lia)) as (_ & _ & Hn & _).
  eapply carve_in; [done|exact Hk|]. intros y Hy. by apply (split_inside a s (need size)); [lia|].
Qed.

Lemma spec_align_in P x t al size : aheap_in P x -> size_t size -> size_t al -> al <> 0 ->
  0 <= ah_max x t < 2 ^ 61 -> aheap_in P (snd (spec_align x t al size)).
Proof.
  intros HP Hs Ha Hn0 Ht. unfold spec_align, size_t in *.
  destruct (Z.eqb_spec size 0); [done|]. destruct (Z.ltb_spec (ah_max x t) (size + al)); [done|]. cbn [orb].
  destruct (list_find _ _) as [[k [a s]]|] eqn:Ef; [|done].
  apply list_find_Some in Ef as (Hk & Hlt & _). cbn in Hlt.
  destruct (need_bounds size ltac:(lia)) as (_ & _ & Hn & _). pose proof (pad_bounds al a ltac:(lia)).
  eapply carve_in; [done|exact Hk|]. intros y Hy. eapply align_inside; [exact Hn| | |exact Hy]; lia.
Qed.

Lemma spec_free_in P x t p : aheap_in P x -> aheap_in P (spec_free x t p).
Proof.
  intros [HF HA]. unfold spec_free. destruct (ah_live x !! p) as [[s st]|] eqn:E; [|done].
  split; cbn [ah_free ah_live].
  - intros u y. unfold upd. destruct (decide (u = t)) as [->|]; [|apply HF].
    apply coalesce_covers; [apply HF|by eapply HA].
  - intros q s' st' [_ Hq]%lookup_delete_Some. by eapply HA.
Qed.

Lemma spec_op_in P x o : aheap_in P x -> op_pre x o -> (forall t, 0 <= ah_max x t < 2 ^ 61) ->
  aheap_in P (snd (spec_op x o)).
Proof.
  intros HP Ho HM. destruct o as [size|nmemb size|t size|al size|t al size|p len|p|t p]; cbn [op_pre spec_op] in *.
  - by apply spec_malloc_in.
  - destruct Ho as [Hn Hs]. unfold size_t in *. pose proof (HM TEGRABL_HEAP_DEFAULT).
    destruct (Z.eqb_spec size 0); [done|]. destruct (Z.ltb_spec (ah_max x TEGRABL_HEAP_DEFAULT / size) nmemb); [done|].
    cbn [orb]. apply spec_malloc_in; [done| |done].
    pose proof (Z.mul_div_le (ah_max x TEGRABL_HEAP_DEFAULT) size ltac:(lia)). unfold size_t. nia.
  - by apply spec_malloc_in.
  - destruct Ho as (? & ? & ?). by apply spec_align_in.
  - destruct Ho as (? & ? & ?). by apply spec_align_in.
  - done.
  - by apply spec_free_in.
  - by apply spec_free_in.
Qed.

Lemma spec_ops_in P os : forall h x, heap_rel h x -> ops_pre x os -> aheap_in P x ->
  aheap_in P (snd (spec_ops x os)).
Proof.
  induction os as [|o os IH]; intros h x R; [done|]. cbn [ops_pre spec_ops]. intros [Ho Hos] HP.
  destruct (op_refines true h x R o Ho) as (h1 & _ & R1).
  assert (HP1 : aheap_in P (snd (spec_op x o))) by (apply spec_op_in; [done|done|]; intros t; apply R).
  destruct (spec_op x o) as [p x1]. cbn [snd] in *. specialize (IH _ _ R1 Hos HP1).
  by destruct (spec_ops x1 os).
Qed.

(** C17: after any sequence of calls, the header in front of each live block says
    where the block starts and how long it is; the block lies inside the memory
    given to the heaps, and overlaps neither another live block nor a free
    one. *)
Theorem live_blocks_disjoint asserts d d' os ps h' :
  arenas_ok d d' -> ops_pre (two_arenas d d') os ->
  run_ops asserts (two_heaps d d') os = Ok (ps, h') ->
  let x := snd (spec_ops (two_arenas d d') os) in
  forall p s st, ah_live x !! p = Some (s, st) ->
    get_size h' (p - ALLOC_HDR) = Ok s /\ get_start h' (p - ALLOC_HDR) = Ok st /\
    st + ALLOC_HDR <= p < st + s /\
    (forall b, st <= b < st + s -> exists t, fst (arena_of d d' t) <= b <
       fst (arena_of d d' t) + snd (arena_of d d' t)) /\
    (forall q s' st', q <> p -> ah_live x !! q = Some (s', st') -> disj (st, s) (st', s')) /\
    (forall t y, y ∈ ah_free x t -> disj y (st, s)).
Proof.
  intros HA Hos Hrun x p s st Hp. pose proof (two_heaps_rel _ _ HA) as R0.
  destruct (ops_refine asserts os _ _ R0 Hos) as (h1 & E & [K _]).
  rewrite E in Hrun. injection Hrun as _ ->. fold x in K.
  destruct (ko_alloc _ _ _ K _ _ _ Hp) as ((_ & E2 & E3) & S). unfold alloc_shape in S.
  split; [exact E2|]. split; [exact E3|]. split; [lia|]. split; [|split].
  - set (P b := exists t, fst (arena_of d d' t) <= b < fst (arena_of d d' t) + snd (arena_of d d' t)).
    assert (HI : aheap_in P (two_arenas d d')).
    { split; [|done]. intros t y Hy. apply list_elem_of_singleton in Hy as ->. intros b Hb. by exists t. }
    by apply (proj2 (spec_ops_in P os _ _ R0 Hos HI) p s st).
  - intros q s' st' Hne Hq. by apply (ko_alloc_alloc _ _ _ K p q).
  - intros t y Hy. by apply (ko_free_alloc _ _ _ K t y p).
Qed.

Lemma live_blocks_disjoint_witness :
  exists h', run_ops true (two_heaps (4096, 8192) (32768, 16384)) demo_ops =
      Ok ([4120; 36864; 0; 4248; 0; 0; 4120], h') /\ disj (4096, 80) (4224, 64).
Proof.
  eexists. split; [vm_compute; reflexivity|].
  eapply (live_blocks_disjoint true _ _ demo_ops _ _ demo_arenas demo_ops_pre ltac:(vm_compute; reflexivity)
    4120 80 4096 ltac:(vm_compute; reflexivity)) with (q := 4248); [lia|vm_compute; reflexivity].
Defined.

(** ** Aligned allocation *)

Lemma carve_live x t k rest p blk q s st :
  ah_live x !! p = None -> ah_live x !! q = Some (s, st) ->
  ah_live (snd (spec_carve x t k rest p blk)) !! q = Some (s, st).
Proof. intros Hp Hq. cbn. rewrite lookup_insert_ne; [done|congruence]. Qed.

(** An aligned request is refused exactly when it is empty, larger than the
    heap, or no free block holds it behind its padding, and then nothing
    changes.  Otherwise the address is a multiple of the alignment, the block has
    room for the request, and the blocks that were live stay as they are. *)
Theorem alloc_align_serves asserts h x t al size :
  heap_rel h x -> size_t size -> size_t al -> al <> 0 ->
  let u := serving x t in
  exists p h', tegrabl_alloc_align asserts h t al size = Ok (p, h') /\
    (p = NULL <-> size = 0 \/ ah_max x u < size + al \/
       Forall (fun b => snd b < need size + pad al (fst b)) (ah_free x u)) /\
    (p = NULL -> h' = h) /\
    (p <> NULL -> p mod al = 0 /\ exists x' s st, heap_rel h' x' /\
       ah_live x' !! p = Some (s, st) /\ p + size <= st + s /\ ah_live x !! p = None /\
       forall q y, ah_live x !! q = Some y -> ah_live x' !! q = Some y).
Proof.
  intros R Hs Ha Hn u. unfold tegrabl_alloc_align. rewrite (serving_eq h x R). fold u.
  replace (if bool_decide (u = TEGRABL_HEAP_DMA) then tegrabl_memalign_generic asserts h TEGRABL_HEAP_DMA al size
    else tegrabl_memalign_generic asserts h TEGRABL_HEAP_DEFAULT al size)
    with (tegrabl_memalign_generic asserts h u al size) by (by destruct u).
  destruct (align_refines asserts h x R u al size Hs Ha Hn) as (h' & E & R').
  destruct R as [K HM]. destruct (HM u) as [Em Ht]. unfold size_t in *.
  pose proof (alignment_valid_eq h x (conj K HM) u al size Hs Ha) as Ev.
  unfold spec_align in *.
  destruct (Z.eqb_spec size 0) as [->|H0]; [eexists _, h; split; [reflexivity|]; naive_solver|].
  destruct (Z.ltb_spec (ah_max x u) (size + al)) as [Hm|Hm]; cbn [orb fst snd negb] in *.
  { exists NULL, h. split; [|naive_solver]. unfold tegrabl_memalign_generic.
    destruct (Z.eqb_spec size 0); [done|]. by rewrite Ev. }
  pose proof (memalign_generic_spec asserts h _ _ K al ltac:(lia) u size ltac:(lia) Ev) as G.
  destruct (list_find _ _) as [[k [a s]]|] eqn:Ef; cbn [fst snd spec_carve] in *.
  - apply list_find_Some in Ef as (Hk & Hfit & _). cbn in Hfit. destruct G as (h2 & E2 & _ & Hp & _).
    rewrite E in E2. injection E2 as <-. destruct (place_asc _ _ _ _ _ _ _ _ K (eq_sym (take_drop_middle _ _ _ Hk)))
      as (_ & H1 & _ & _ & H2). pose proof (pad_bounds al a ltac:(lia)).
    destruct (need_bounds size ltac:(lia)) as (_ & Hnd & _).
    eexists _, h'. split; [exact E|]. unfold ALLOC_HDR in *. unfold NULL. split; [|split; [lia|]].
    + split; [lia|]. intros [?|[?|HF]]; [done|lia|]. rewrite Forall_lookup in HF. apply HF in Hk. cbn in Hk. lia.
    + intros _. split; [by apply pad_aligned; lia|].
      eexists _, (fst (align_alloc a s (pad al a) (need size))), (snd (align_alloc a s (pad al a) (need size))).
      split; [exact R'|]. split; [cbn; rewrite lookup_insert_eq; by destruct (align_alloc _ _ _ _)|].
      split; [|split; [done|]].
      * unfold align_alloc, split_size. destruct (_ <? _); cbn; [destruct (_ <=? _)|]; lia.
      * intros q [s' st'] Hq. cbn. rewrite lookup_insert_ne; [done|congruence].
  - apply list_find_None in Ef. exists NULL, h. split; [done|]. split; [|naive_solver]. split; [|done].
    intros _. right. right. eapply Forall_impl; [exact Ef|]. cbn. intros. lia.
Qed.

Lemma alloc_align_serves_witness :
  let h := two_heaps (4096, 8192) (32768, 16384) in
  exists p h', tegrabl_alloc_align true h TEGRABL_HEAP_DMA 4096 512 = Ok (p, h') /\ p mod 4096 = 0.
Proof.
  pose proof (two_heaps_rel _ _ demo_arenas) as R.
  destruct (alloc_align_serves true _ _ TEGRABL_HEAP_DMA 4096 512 R) as (p & h' & E & Hn & _ & Hp);
    [unfold size_t; lia|unfold size_t; lia|done|].
  exists p, h'. split; [exact E|]. apply Hp. intros ->. destruct (proj1 Hn eq_refl) as [?|[Hc|Hc]]; [lia| |].
  - vm_compute in Hc. discriminate.
  - rewrite Forall_lookup in Hc. specialize (Hc 0%nat (32768, 16384) eq_refl). vm_compute in Hc. discriminate.
Defined.

(** ** Giving a block back *)

Lemma split_coalesce L1 a s L2 sz :
  ascending 0 (L1 ++ (a, s) :: L2) -> MIN_SIZE <= sz <= s ->
  coalesce_in a (split_size s sz) (L1 ++ split_rest a s sz ++ L2) = L1 ++ (a, s) :: L2.
Proof.
  intros As Hs. apply split_asc in As as (A1 & He & _ & A2 & _). pose proof (end_of_ge _ _ A1).
  unfold split_size, split_rest, MIN_SIZE in *.
  destruct (Z.leb_spec (s - sz) 32); cbn [app]; (rewrite coalesce_before; [f_equal|done|lia|lia|unfold MIN_SIZE; lia|]).
  - destruct L2 as [|[b w] L2]; cbn in A2 |- *; [done|]. destruct (Z.eqb_spec (a + s) b); [lia|done].
  - eapply ascending_weaken; [exact A2|lia].
  - cbn. rewrite Z.eqb_refl. by replace (sz + (s - sz)) with s by lia.
  - cbn. unfold MIN_SIZE. split; [lia|]. split; [lia|].
    by replace (a + sz + (s - sz)) with (a + s) by lia.
Qed.

(** Giving back a block just obtained from [tegrabl_malloc] succeeds and
    restores the free blocks and the live blocks, even if the client has
    overwritten the block in the meantime. *)
Theorem malloc_free_roundtrip asserts h x size p h1 :
  heap_rel h x -> size_t size -> tegrabl_malloc asserts h size = Ok (p, h1) -> p <> NULL ->
  exists h2, tegrabl_free (set_mem h1 (clear p size (kh_mem h1))) p = Ok h2 /\ heap_rel h2 x.
Proof.
  intros R Hs E Hp. pose proof R as [K HM]. destruct (HM TEGRABL_HEAP_DEFAULT) as [Em Ht].
  destruct (malloc_refines asserts h x R size Hs) as (h' & E' & R'). rewrite E in E'. injection E' as Ep ->.
  destruct (spec_malloc x TEGRABL_HEAP_DEFAULT size) as [p' x'] eqn:Es. cbn [fst snd] in *. subst p'.
  assert (H0 : 0 < size < 2 ^ 61).
  { unfold size_t in Hs. unfold spec_malloc in Es. destruct (Z.eqb_spec size 0); [cbn in Es; congruence|].
    destruct (Z.ltb_spec (ah_max x TEGRABL_HEAP_DEFAULT) size); [cbn in Es; congruence|]. lia. }
  destruct (spec_malloc_room x _ _ _ _ H0 Es Hp) as (s0 & st0 & Hl & Hr).
  assert (R2 : heap_rel (set_mem h' (clear p size (kh_mem h'))) x').
  { split; [eapply heap_ok_use; [apply R'|exact Hl|lia|exact Hr]|]. intros t. rewrite max_set_mem. apply R'. }
  destruct (dealloc_refines _ _ R2 TEGRABL_HEAP_DEFAULT p ltac:(right; eauto)) as (h2 & Ed & R3).
  exists h2. split; [exact Ed|]. unfold spec_malloc in Es. destruct (_ || _); [congruence|].
  pose proof (generic_malloc_spec asserts h _ _ K TEGRABL_HEAP_DEFAULT size ltac:(lia)) as G.
  destruct (list_find _ _) as [[k [a s]]|] eqn:Ef; [|congruence]. apply list_find_Some in Ef as (Hk & Hlt & _).
  cbn in Hlt. destruct G as (_ & _ & _ & Hnone & _). unfold spec_carve in Es. injection Es as <- <-.
  change (serving _ _) with TEGRABL_HEAP_DEFAULT in R3. unfold spec_free in R3.
  cbn [ah_live ah_free ah_max] in R3. rewrite lookup_insert_eq, upd_same, delete_insert_id in R3 by done.
  destruct (need_bounds size ltac:(lia)) as (_ & _ & Hn & _).
  pose proof (ko_asc _ _ _ K TEGRABL_HEAP_DEFAULT) as As. rewrite <- (take_drop_middle _ _ _ Hk) in As.
  rewrite split_coalesce, (take_drop_middle _ _ _ Hk) in R3 by (done || lia).
  destruct R3 as [K3 HM3]. split; [|exact HM3]. cbn [ah_free ah_live] in K3.
  eapply heap_ok_proper; [reflexivity| |reflexivity|exact K3]. intros u. symmetry. etrans; [apply upd_upd|]. apply upd_id.
Qed.

Lemma malloc_free_roundtrip_witness :
  let h := two_heaps (4096, 8192) (32768, 16384) in
  exists h1 h2, tegrabl_malloc true h 100 = Ok (4120, h1) /\
    tegrabl_free (set_mem h1 (clear 4120 100 (kh_mem h1))) 4120 = Ok h2 /\
    heap_rel h2 (two_arenas (4096, 8192) (32768, 16384)).
Proof.
  pose proof (two_heaps_rel _ _ demo_arenas) as R. cbv zeta.
  set (r := tegrabl_malloc true (two_heaps (4096, 8192) (32768, 16384)) 100).
  assert (E : exists h1, r = Ok (4120, h1)) by (eexists; vm_compute; reflexivity).
  destruct E as [h1 E]. exists h1.
  destruct (malloc_free_roundtrip true _ _ 100 4120 h1 R ltac:(unfold size_t; lia) E ltac:(done)) as (h2 & E2 & R2).
  exists h2. split; [exact E|]. split; [exact E2|exact R2].
Defined.

(** A block of [tegrabl_malloc] given back twice is noticed, whatever it was
    merged with the first time. *)
Theorem double_free_detected h x p s t t' :
  heap_rel h x -> ah_live x !! p = Some (s, p - ALLOC_HDR) ->
  exists h', tegrabl_dealloc h t p = Ok h' /\ tegrabl_dealloc h' t' p = Stuck HeapCorrupt.
Proof.
  intros [K _] Hp. destruct (dealloc_spec _ _ _ K t p s _ Hp) as (h' & E & _ & _ & Hm).
  exists h'. split; [exact E|]. unfold tegrabl_dealloc, tegrabl_generic_free.
  destruct (ko_alloc _ _ _ K _ _ _ Hp) as (_ & S). unfold alloc_shape, ALLOC_HDR, NULL in *.
  destruct (Z.eqb_spec p 0); [lia|]. unfold get_magic. by rewrite Hm.
Qed.

Lemma double_free_detected_witness :
  exists h h', run_ops true (two_heaps (4096, 8192) (32768, 16384)) [OpMalloc 100] = Ok ([4120], h) /\
    tegrabl_dealloc h TEGRABL_HEAP_DEFAULT 4120 = Ok h' /\
    tegrabl_dealloc h' TEGRABL_HEAP_DEFAULT 4120 = Stuck HeapCorrupt.
Proof.
  destruct (ops_refine true [OpMalloc 100] _ _ (two_heaps_rel _ _ demo_arenas)) as (h & E & R).
  { split; [cbn; unfold size_t; lia|exact I]. }
  destruct (double_free_detected h _ 4120 128 TEGRABL_HEAP_DEFAULT TEGRABL_HEAP_DEFAULT R) as (h' & E1 & E2).
  { vm_compute. reflexivity. }
  exists h, h'. split; [|split; [exact E1|exact E2]]. rewrite E. vm_compute. reflexivity.
Defined.

Lemma merge_loop_more fuel fuel' : (fuel <= fuel')%nat -> forall h a r,
  merge_loop fuel h a = Ok r -> merge_loop fuel' h a = Ok r.
Proof.
  intros Hle. induction Hle as [|fuel' Hle IH] using le_ind; [done|]. intros h a r E. apply IH in E. clear Hle IH.
  revert h a E. induction fuel' as [|n IH]; intros h a E; [done|]. cbn [merge_loop] in E |- *.
  destruct (tegrabl_heap_merge_blocks h a) as [[b h1]|e]; [|done]. cbn [res_bind] in *.
  destruct (b =? a); [done|]. by apply IH.
Qed.

(** The loop that merges a released block with its neighbours stops after two
    rounds at most, with the block joined to both neighbours it touches and the
    list sorted and without touching blocks. *)
Theorem merge_stops h L1 a s L2 :
  linked (kh_mem h) 0 (L1 ++ (a, s) :: L2) 0 -> fits L1 a s L2 ->
  exists r m', (forall fuel, (2 <= fuel)%nat -> merge_loop fuel h a = Ok (r, set_mem h m')) /\
    linked m' 0 (coalesce_in a s (L1 ++ L2)) 0 /\ ascending 0 (coalesce_in a s (L1 ++ L2)).
Proof.
  intros KL F. destruct (merge_loop_ok h L1 a s L2 (L1 ++ L2) 2 KL F) as (r & m' & E & KL' & _); [done| |].
  { intros y Hy. by apply elem_of_app. }
  exists r, m'. split; [|split; [done|by apply fits_coalesce]]. intros fuel Hf. by apply (merge_loop_more 2).
Qed.

(** Three blocks in a row, each ending where the next begins. *)
Definition touching : kheap :=
  let blk h a s p n := set_magic (set_size (set_next (set_prev h a p) a n) a s) a FREE_MAGIC in
  blk (blk (blk (mkKheap 4096 NULL 192 0 ∅) 4096 64 0 4160) 4160 64 4096 4224) 4224 64 4160 0.

Lemma merge_stops_witness :
  exists m', (forall fuel, (2 <= fuel)%nat -> merge_loop fuel touching 4160 = Ok (4096, set_mem touching m')) /\
    linked m' 0 [(4096, 192)] 0.
Proof.
  destruct (merge_stops touching [(4096, 64)] 4160 64 [(4224, 64)]) as (r & m' & E & KL & _).
  - repeat split; vm_compute; reflexivity.
  - split; cbn; unfold MIN_SIZE; lia.
  - exists m'. assert (Er : r = 4096).
    { specialize (E 2%nat ltac:(lia)). apply (f_equal (fun q => match q with Ok (v, _) => v | _ => 0 end)) in E.
      vm_compute in E. congruence. }
    subst r. done.
Defined.

(** ** Losses *)

(** A heap whose list [t] is one block. *)
Definition one_block (t : heap_type) (a s : Z) (mx : heap_type -> Z) : aheap :=
  mkAheap (fun u => if decide (u = t) then [(a, s)] else []) ∅ mx.

(** When the padding before an aligned block is turned into a free block and
    at most 32 bytes follow the aligned block, those bytes are recorded nowhere:
    after the block is given back the heap is smaller by them. *)
Theorem memalign_loses_bytes asserts h t a s al size mx :
  heap_rel h (one_block t a s mx) -> 0 < size -> 0 < al -> size + al <= mx t ->
  MIN_SIZE <= pad al a -> 0 < s - (need size + pad al a) <= MIN_SIZE ->
  exists p h1 h2, tegrabl_memalign_generic asserts h t al size = Ok (p, h1) /\ p <> NULL /\
    tegrabl_dealloc h1 t p = Ok h2 /\ heap_rel h2 (one_block t a (need size + pad al a) mx).
Proof.
  intros R Hs Ha Hm Hpad Hlost. pose proof R as [K HM]. destruct (HM t) as [_ Ht]. cbn in Ht.
  destruct (align_refines asserts h _ R t al size) as (h1 & E & R1); [unfold size_t; lia..|lia|].
  destruct (need_bounds size ltac:(lia)) as (_ & _ & Hn & _). unfold spec_align in *.
  cbn [one_block ah_max ah_free] in *.
  destruct (Z.eqb_spec size 0); [lia|]. destruct (Z.ltb_spec (mx t) (size + al)); [lia|]. cbn [orb] in *.
  rewrite decide_True in * by done. cbn [list_find snd fst] in *. rewrite decide_True in * by lia.
  cbn [fmap option_fmap option_map prod_map fst snd spec_carve] in *.
  pose proof (ko_asc _ _ _ K t) as As. cbn in As. rewrite decide_True in As by done. cbn in As.
  set (p := a + ALLOC_HDR + pad al a) in *. unfold spec_carve in *. cbn [fst snd] in *.
  assert (E1 : align_alloc a s (pad al a) (need size) = (need size, a + pad al a) /\
    align_rest a s (pad al a) (need size) = [(a, pad al a)]).
  { unfold align_alloc, align_rest, split_rest. destruct (Z.ltb_spec (pad al a) MIN_SIZE); [lia|].
    destruct (Z.leb_spec (s - (need size + pad al a)) MIN_SIZE); [done|lia]. }
  destruct E1 as [E1 E2]. rewrite E1, E2 in R1. cbn [ah_free] in R1.
  destruct (dealloc_refines h1 _ R1 t p) as (h2 & Ed & R2).
  { right. cbn. rewrite lookup_insert_eq. eauto. }
  exists p, h1, h2. split; [done|]. split; [unfold p, NULL, ALLOC_HDR, MIN_SIZE in *; lia|]. split; [done|].
  replace (serving _ t) with t in R2.
  2:{ destruct t; [done|]. unfold serving. cbn [ah_free]. by rewrite upd_same. }
  unfold spec_free in R2. cbn [ah_live ah_free ah_max] in R2.
  rewrite lookup_insert_eq, upd_same, delete_insert_id in R2 by done.
  cbn [one_block ah_free ah_live ah_max] in R2. rewrite decide_True in R2 by done.
  cbn [take drop app coalesce_in] in R2.
  rewrite Z.ltb_irrefl, Z.eqb_refl in R2. destruct R2 as [K2 HM2]. split; [|exact HM2]. cbn [one_block ah_free ah_live] in K2 |- *.
  eapply heap_ok_proper; [reflexivity| |reflexivity|exact K2]. intros u. unfold upd.
  destruct (decide (u = t)); [|done]. cbn. by rewrite Z.add_comm.
Qed.

Lemma memalign_loses_bytes_witness :
  exists p h1 h2,
    tegrabl_memalign_generic true (snd (tegrabl_heap_init no_heap TEGRABL_HEAP_DEFAULT 4096 4216))
      TEGRABL_HEAP_DEFAULT 4096 100 = Ok (p, h1) /\
    tegrabl_dealloc h1 TEGRABL_HEAP_DEFAULT p = Ok h2 /\
    free_list h2 TEGRABL_HEAP_DEFAULT = 4096 /\ get_size h2 4096 = Ok 4200.
Proof.
  set (h := snd _).
  assert (R : heap_rel h (one_block TEGRABL_HEAP_DEFAULT 4096 4216
    (fun t => if decide (t = TEGRABL_HEAP_DEFAULT) then 4216 else 0))).
  { destruct (heap_init_ok no_heap _ _ TEGRABL_HEAP_DEFAULT 4096 4216 no_heap_ok) as (h' & E & K & HM);
      try done; [intros ? ? []%not_elem_of_nil|]. unfold h. rewrite E. split; [exact K|].
    intros t. rewrite HM. cbn. destruct (decide _); [lia|]. destruct t; cbn; lia. }
  destruct (memalign_loses_bytes true h TEGRABL_HEAP_DEFAULT 4096 4216 4096 100 _ R) as (p & h1 & h2 & E1 & _ & E2 & [K2 _]);
    [done|done|done|vm_compute; discriminate|vm_compute; split; [reflexivity|discriminate]|].
  exists p, h1, h2. split; [exact E1|]. split; [exact E2|].
  pose proof (ko_head _ _ _ K2 TEGRABL_HEAP_DEFAULT) as H1.
  pose proof (ko_linked _ _ _ K2 TEGRABL_HEAP_DEFAULT) as [(_ & H2 & _) _].
  split; [exact H1|exact H2].
Defined.

(** A DMA heap whose only free block is handed out counts as absent: the
    block is given back to the default heap, and from then on no request for DMA
    memory is served from the DMA heap. *)
Theorem dma_heap_lost asserts h x a s size :
  heap_rel h x -> ah_free x TEGRABL_HEAP_DMA = [(a, s)] -> 0 < size <= ah_max x TEGRABL_HEAP_DMA ->
  need size < s <= need size + MIN_SIZE ->
  exists h1 h2 x2, tegrabl_alloc asserts h TEGRABL_HEAP_DMA size = Ok (a + ALLOC_HDR, h1) /\
    tegrabl_dealloc h1 TEGRABL_HEAP_DMA (a + ALLOC_HDR) = Ok h2 /\ heap_rel h2 x2 /\
    ah_free x2 TEGRABL_HEAP_DMA = [] /\
    ah_free x2 TEGRABL_HEAP_DEFAULT = coalesce_in a s (ah_free x TEGRABL_HEAP_DEFAULT) /\
    forall n, tegrabl_alloc asserts h2 TEGRABL_HEAP_DMA n = tegrabl_malloc asserts h2 n.
Proof.
  intros R EL Hs Hn. pose proof R as [K HM]. destruct (HM TEGRABL_HEAP_DMA) as [_ Ht].
  destruct (alloc_refines asserts h x R TEGRABL_HEAP_DMA size) as (h1 & E & R1); [unfold size_t; lia|].
  assert (Es : spec_malloc x (serving x TEGRABL_HEAP_DMA) size =
    spec_carve x TEGRABL_HEAP_DMA 0 [] (a + ALLOC_HDR) (s, a)).
  { unfold serving. rewrite EL. unfold spec_malloc. rewrite EL.
    destruct (Z.eqb_spec size 0); [lia|]. destruct (Z.ltb_spec (ah_max x TEGRABL_HEAP_DMA) size); [lia|].
    cbn [orb list_find snd]. rewrite decide_True by lia. unfold split_rest, split_size.
    by destruct (Z.leb_spec (s - need size) MIN_SIZE); [|lia]. }
  rewrite Es in E, R1. cbn [spec_carve fst snd] in E, R1. rewrite EL in R1. cbn [take drop app] in R1.
  destruct (dealloc_refines h1 _ R1 TEGRABL_HEAP_DMA (a + ALLOC_HDR)) as (h2 & Ed & R2).
  { right. cbn. rewrite lookup_insert_eq. eauto. }
  unfold spec_free in R2. cbn [ah_live ah_free ah_max] in R2. rewrite lookup_insert_eq in R2.
  replace (serving _ TEGRABL_HEAP_DMA) with TEGRABL_HEAP_DEFAULT in R2 by done.
  eexists h1, h2, _. split; [exact E|]. split; [exact Ed|]. split; [exact R2|].
  split; [done|]. split; [done|]. intros n. unfold tegrabl_alloc. by rewrite (serving_eq h2 _ R2).
Qed.

Lemma dma_heap_lost_witness :
  let h := two_heaps (4096, 8192) (32768, 152) in
  exists h1 h2, tegrabl_alloc true h TEGRABL_HEAP_DMA 100 = Ok (32792, h1) /\
    tegrabl_dealloc h1 TEGRABL_HEAP_DMA 32792 = Ok h2 /\
    forall n, tegrabl_alloc true h2 TEGRABL_HEAP_DMA n = tegrabl_malloc true h2 n.
Proof.
  assert (HA : arenas_ok (4096, 8192) (32768, 152)).
  { split; [unfold disj; cbn; lia|]. intros []; cbn; unfold MIN_SIZE; lia. }
  destruct (dma_heap_lost true _ _ 32768 152 100 (two_heaps_rel _ _ HA)) as (h1 & h2 & x2 & E1 & E2 & _ & _ & _ & E3).
  - reflexivity.
  - cbn. lia.
  - vm_compute. split; [reflexivity|discriminate].
  - exists h1, h2. split; [exact E1|]. split; [exact E2|exact E3].
Defined.
