(* ===== verification/MallocLaws.v ===== *)
(** The heap keeps the promises the block device layer and its users rely on:
    the instance of [Allocator] and [AllocatorLaws] for tegrabl_malloc.c. *)

From S2P Require Import Prelude TegraError BlockDev BlockDevFacts Models BlockDevProps.
From S2P Require Import Malloc MallocFacts MallocOps MallocFree MallocAlign MallocSpec MallocProps.

(** ** Multiples of eight *)

Definition eights (x : aheap) : Prop :=
  (forall t y, y ∈ ah_free x t -> (8 | fst y) /\ (8 | snd y)) /\
  (forall p s st, ah_live x !! p = Some (s, st) -> (8 | st) /\ (8 | s)).

Lemma need_eights size : 0 < size < 2 ^ 63 -> (8 | need size).
Proof. intros Hs. apply Z.mod_divide; [lia|]. by apply need_bounds. Qed.

Lemma pad_eights al a : 0 < al -> (8 | al) -> (8 | a) -> (8 | pad al a).
Proof.
  intros Hal Ha Hb. unfold pad. apply Z.divide_sub_r; [done|].
  rewrite Z.mod_eq by lia. apply Z.divide_sub_r.
  - apply Z.divide_add_r; [done|]. by exists 3.
  - by apply Z.divide_mul_l.
Qed.

Lemma split_eights a s sz : (8 | a) -> (8 | s) -> (8 | sz) ->
  forall y, y ∈ (a, split_size s sz) :: split_rest a s sz -> (8 | fst y) /\ (8 | snd y).
Proof.
  intros Ha Hs Hz y. unfold split_size, split_rest. destruct (_ <=? _);
    intros [->|Hy]%elem_of_cons; cbn; try done; try (by apply not_elem_of_nil in Hy).
  apply list_elem_of_singleton in Hy as ->. cbn. split; [by apply Z.divide_add_r|by apply Z.divide_sub_r].
Qed.

Lemma align_eights a s pd nd : (8 | a) -> (8 | s) -> (8 | pd) -> (8 | nd) ->
  forall y, y ∈ (snd (align_alloc a s pd nd), fst (align_alloc a s pd nd)) :: align_rest a s pd nd ->
  (8 | fst y) /\ (8 | snd y).
Proof.
  intros Ha Hs Hp Hn y. unfold align_alloc, align_rest. pose proof (Z.divide_add_r _ _ _ Hn Hp) as Hz.
  destruct (_ <? _); cbn [fst snd app]; [by apply split_eights|].
  intros [->|[->|Hy]%elem_of_cons]%elem_of_cons; cbn.
  - split; [by apply Z.divide_add_r|done].
  - done.
  - apply (split_eights a s (nd + pd)); [done..|by right].
Qed.

Lemma coalesce_eights a s L : (forall y, y ∈ (a, s) :: L -> (8 | fst y) /\ (8 | snd y)) ->
  forall y, y ∈ coalesce_in a s L -> (8 | fst y) /\ (8 | snd y).
Proof.
  assert (J : forall b w l, (forall y, y ∈ (b, w) :: l -> (8 | fst y) /\ (8 | snd y)) ->
    forall y, y ∈ join_next b w l -> (8 | fst y) /\ (8 | snd y)).
  { intros b w [|[c v] l] H y; cbn; [apply H|]. destruct (_ =? _); [|apply H].
    intros [->|Hy]%elem_of_cons; [|apply H; set_solver]. cbn.
    pose proof (H (b, w) ltac:(set_solver)) as [? ?]. pose proof (H (c, v) ltac:(set_solver)) as [? ?].
    cbn in *. split; [done|by apply Z.divide_add_r]. }
  induction L as [|[b w] L IH]; intros H y; cbn; [apply H|].
  destruct (_ <? _).
  - intros [->|Hy]%elem_of_cons; [apply H; set_solver|]. apply IH; [|done]. intros z Hz. apply H. set_solver.
  - destruct (_ =? _).
    + apply J. intros z [->|Hz]%elem_of_cons; [|apply H; set_solver]. cbn.
      pose proof (H (b, w) ltac:(set_solver)) as [? ?]. pose proof (H (a, s) ltac:(set_solver)) as [? ?].
      cbn in *. split; [done|by apply Z.divide_add_r].
    + by apply (J a s ((b, w) :: L)).
Qed.

Lemma carve_eights x t k rest p blk :
  eights x -> (forall y, y ∈ (snd blk, fst blk) :: rest -> (8 | fst y) /\ (8 | snd y)) ->
  eights (snd (spec_carve x t k rest p blk)).
Proof.
  intros [HF HA] HI. split; cbn [spec_carve snd ah_free ah_live].
  - intros u y. unfold upd. destruct (decide (u = t)) as [->|]; [|apply HF].
    rewrite !elem_of_app. intros [Hy|[Hy|Hy]].
    + apply (HF t). rewrite <- (take_drop k (ah_free x t)). apply elem_of_app. by left.
    + apply HI. by right.
    + apply (HF t). rewrite <- (take_drop (S k) (ah_free x t)). apply elem_of_app. by right.
  - intros q s' st'. destruct (decide (q = p)) as [->|].
    + rewrite lookup_insert_eq. intros [= ->]. apply (HI (st', s')). left.
    + rewrite lookup_insert_ne by done. apply HA.
Qed.

Lemma free_eights x t p : eights x -> eights (spec_free x t p).
Proof.
  intros [HF HA]. unfold spec_free. destruct (ah_live x !! p) as [[s st]|] eqn:E; [|done].
  split; cbn [ah_free ah_live].
  - intros u y. unfold upd. destruct (decide (u = t)) as [->|]; [|apply HF].
    apply coalesce_eights. intros z [->|Hz]%elem_of_cons; [by eapply HA|by apply (HF t)].
  - intros q s' st' [_ Hq]%lookup_delete_Some. by eapply HA.
Qed.

(** ** Room *)

(** A request that costs up to [n] is served by heap [t]. *)
Definition has_room (x : aheap) (t : heap_type) (n : Z) : Prop :=
  n <= ah_max x t /\ exists y, y ∈ ah_free x t /\ n <= snd y.

Lemma has_room_weaken x t n m : has_room x t n -> m <= n -> has_room x t m.
Proof. intros (Hm & y & Hy & Hn) Hle. split; [lia|]. exists y. split; [done|lia]. Qed.

(** Carving [sz] bytes out of any block costs a big block no more than that. *)
Lemma carve_room x t k a s rest p blk n c :
  has_room x t n -> ah_free x t !! k = Some (a, s) -> 0 <= c ->
  (n <= s -> exists y, y ∈ rest /\ n - c <= snd y) ->
  has_room (snd (spec_carve x t k rest p blk)) t (n - c).
Proof.
  intros (Hm & y & Hy & Hn) Hk Hc Hrest. split; [cbn; lia|]. cbn [spec_carve snd ah_free]. rewrite upd_same.
  rewrite <- (take_drop_middle _ _ _ Hk) in Hy. apply elem_of_app in Hy as [Hy|[->|Hy]%elem_of_cons].
  - exists y. split; [set_solver|lia].
  - destruct (Hrest Hn) as (z & Hz & Hl). exists z. split; [set_solver|done].
  - exists y. split; [set_solver|lia].
Qed.

Lemma coalesce_grows a s L y : 0 <= s -> y ∈ L -> (forall z, z ∈ L -> 0 <= snd z) ->
  exists z, z ∈ coalesce_in a s L /\ snd y <= snd z.
Proof.
  intros Hs.
  assert (J : forall b w l y, 0 <= w -> y ∈ (b, w) :: l -> (forall z, z ∈ l -> 0 <= snd z) ->
    exists z, z ∈ join_next b w l /\ snd y <= snd z).
  { clear y. intros b w [|[c v] l] y Hw Hy Hp; cbn; [exists y; set_solver by lia|].
    pose proof (Hp (c, v) ltac:(set_solver)) as Hv. cbn in Hv. destruct (_ =? _).
    - apply elem_of_cons in Hy as [->|[->|Hy]%elem_of_cons]; [exists (b, w + v)..|exists y]; cbn; split; try lia; set_solver.
    - exists y. split; [done|lia]. }
  revert y. induction L as [|[b w] L IH]; intros y Hy Hp; [by apply not_elem_of_nil in Hy|]. cbn.
  pose proof (Hp (b, w) ltac:(set_solver)) as Hw. cbn in Hw.
  destruct (_ <? _).
  - apply elem_of_cons in Hy as [->|Hy]; [exists (b, w); split; [set_solver|done]|].
    destruct (IH y Hy ltac:(set_solver)) as (z & Hz & Hl). exists z. set_solver.
  - destruct (_ =? _).
    + apply elem_of_cons in Hy as [->|Hy].
      * destruct (J b (w + s) L (b, w + s)) as (z & Hz & Hl); [lia|set_solver|set_solver|]. exists z. cbn in *. split; [done|lia].
      * apply J; [lia|set_solver|set_solver].
    + apply (J a s ((b, w) :: L)); [lia|set_solver|done].
Qed.

(** ** The heap with the table of the blocks its clients hold *)

Record tracked := mkTracked { tk_heap : kheap; tk_live : gmap Z (Z * Z) }.

(** The table grows by the block just handed out, as its header says. *)
Definition track (x : tracked) (r : res (Z * kheap)) : Z * tracked :=
  match r with
  | Ok (p, h) =>
      if p =? NULL then (NULL, mkTracked h (tk_live x))
      else
        match get_size h (p - ALLOC_HDR), get_start h (p - ALLOC_HDR) with
        | Ok s, Ok st => (p, mkTracked h (<[p := (s, st)]> (tk_live x)))
        | _, _ => (NULL, x)
        end
  | Stuck _ => (NULL, x)
  end.

#[export] Instance heap_allocator : Allocator tracked := {
  heap_malloc x sz := track x (tegrabl_malloc true (tk_heap x) sz);
  heap_alloc_align x t al sz := track x (tegrabl_alloc_align true (tk_heap x) t al sz);
  heap_dealloc x t p :=
    let* h := tegrabl_dealloc (tk_heap x) t p in Ok (mkTracked h (delete p (tk_live x)))
}.

(** Room in the default heap, and in the DMA heap unless that counts as absent. *)
Definition tracked_room (x : tracked) (n : Z) : Prop :=
  exists L mx, let a := mkAheap L (tk_live x) mx in
    heap_rel (tk_heap x) a /\ eights a /\ has_room a TEGRABL_HEAP_DEFAULT n /\
    (L TEGRABL_HEAP_DMA <> [] -> has_room a TEGRABL_HEAP_DMA n).

Lemma room_serving L A mx n t :
  has_room (mkAheap L A mx) TEGRABL_HEAP_DEFAULT n ->
  (L TEGRABL_HEAP_DMA <> [] -> has_room (mkAheap L A mx) TEGRABL_HEAP_DMA n) ->
  has_room (mkAheap L A mx) (serving (mkAheap L A mx) t) n.
Proof.
  intros H1 H2. unfold serving. destruct t; [done|]. cbn [ah_free].
  destruct (L TEGRABL_HEAP_DMA); [done|by apply H2].
Qed.

Lemma track_ok x p h L s st :
  heap_ok h L (<[p := (s, st)]> (tk_live x)) ->
  track x (Ok (p, h)) = (p, mkTracked h (<[p := (s, st)]> (tk_live x))) /\ 0 < p < 2 ^ 63.
Proof.
  intros K. destruct (ko_alloc _ _ _ K p s st (lookup_insert_eq _ _ _)) as ((_ & E2 & E3) & S).
  unfold alloc_shape, ALLOC_HDR in S. unfold track, get_size, get_start, ALLOC_HDR, NULL.
  destruct (Z.eqb_spec p 0); [lia|]. rewrite E2, E3. split; [done|lia].
Qed.

(** The room after a block was carved out of list [u]. *)
Lemma carved_room x h L mx u k a s rest p blk n c :
  let y := mkAheap L (tk_live x) mx in
  has_room y TEGRABL_HEAP_DEFAULT n -> (L TEGRABL_HEAP_DMA <> [] -> has_room y TEGRABL_HEAP_DMA n) ->
  eights y -> has_room y u n -> L u !! k = Some (a, s) -> 0 <= c ->
  (n <= s -> exists z, z ∈ rest /\ n - c <= snd z) ->
  (forall z, z ∈ (snd blk, fst blk) :: rest -> (8 | fst z) /\ (8 | snd z)) ->
  heap_rel h (snd (spec_carve y u k rest p blk)) ->
  tracked_room (mkTracked h (<[p := blk]> (tk_live x))) (n - c).
Proof.
  intros y H1 H2 He Hu Hk Hc Hrest H8 R. unfold tracked_room.
  exists (ah_free (snd (spec_carve y u k rest p blk))), mx.
  pose proof (carve_room y u k a s rest p blk n c Hu Hk Hc Hrest) as Hn.
  pose proof (carve_eights y u k rest p blk He H8) as He'. cbv zeta.
  split; [exact R|]. split; [exact He'|].
  assert (Hother : forall t, t <> u -> has_room y t n ->
    has_room (snd (spec_carve y u k rest p blk)) t (n - c)).
  { intros t Hne Ht. apply (has_room_weaken _ _ n); [|lia]. destruct Ht as (Hm & z & Hz & Hl).
    split; [done|]. exists z. cbn. rewrite upd_other by done. done. }
  split.
  - destruct (decide (TEGRABL_HEAP_DEFAULT = u)) as [<-|Hne]; [exact Hn|by apply Hother].
  - intros Hd. destruct (decide (TEGRABL_HEAP_DMA = u)) as [<-|Hne]; [exact Hn|]. apply Hother; [done|].
    apply H2. cbn in Hd. rewrite upd_other in Hd by done. done.
Qed.

Lemma tracked_align x t al sz n :
  tracked_room x n -> 0 < sz -> 0 < al -> al mod 8 = 0 -> alloc_cost al sz <= n ->
  exists p x', track x (tegrabl_alloc_align true (tk_heap x) t al sz) = (p, x') /\ 0 < p < 2 ^ 63 /\
    p mod al = 0 /\ is_Some (tk_live x' !! p) /\ ~ is_Some (tk_live x !! p) /\
    tracked_room x' (n - alloc_cost al sz) /\
    (forall q, is_Some (tk_live x !! q) -> is_Some (tk_live x' !! q)).
Proof.
  intros (L & mx & R & He & H1 & H2) Hs Ha Ha8 Hc. set (y := mkAheap L (tk_live x) mx) in *.
  pose proof (room_serving _ _ _ _ t H1 H2) as Hu. fold y in Hu. unfold alloc_cost in *.
  unfold tegrabl_alloc_align. rewrite (serving_eq _ _ R). set (u := serving y t) in *.
  replace (if bool_decide _ then _ else _) with (tegrabl_memalign_generic true (tk_heap x) u al sz)
    by (by destruct u).
  pose proof R as [K HM]. destruct (HM u) as [_ Hmu]. destruct Hu as (Hm & b & Hb & Hbn).
  destruct (need_bounds sz ltac:(lia)) as (_ & Hn & Hnm & _). unfold ALLOC_HDR in Hn.
  assert (Ev : is_size_alignment_valid (tk_heap x) u al sz = true).
  { rewrite (alignment_valid_eq _ _ R) by (unfold size_t; lia). destruct (Z.ltb_spec (ah_max y u) (sz + al)); [lia|done]. }
  pose proof (memalign_generic_spec true _ _ _ K al ltac:(lia) u sz ltac:(lia) Ev) as G.
  destruct (list_find _ _) as [[k [a s]]|] eqn:Ef.
  2:{ apply list_find_None in Ef. rewrite Forall_forall in Ef. apply Ef in Hb.
      pose proof (pad_bounds al (fst b) Ha). lia. }
  apply list_find_Some in Ef as (Hk & Hfit & _). cbn in Hfit. destruct G as (h' & E & K' & Hp & HM').
  set (p := a + ALLOC_HDR + pad al a) in *. pose proof (pad_bounds al a Ha) as Hpd.
  destruct (proj1 He u (a, s) ltac:(by eapply list_elem_of_lookup_2)) as [Da Ds]. cbn in Da, Ds.
  destruct (align_alloc a s (pad al a) (need sz)) as [bs bst] eqn:Eb.
  destruct (track_ok x p h' _ bs bst K') as [Et Hpp]. rewrite E, Et.
  eexists p, _. split; [reflexivity|]. split; [done|]. split; [apply pad_aligned; lia|].
  cbn [tk_live]. rewrite lookup_insert_eq. split; [by eexists|]. split; [change (tk_live x) with (ah_live y); rewrite Hp; by intros []|]. split.
  - eapply (carved_room x h' L mx u k a s (align_rest a s (pad al a) (need sz)) p (bs, bst)); try done; try lia.
    + split; [done|]. by exists b.
    + intros Hns. exists (a + (need sz + pad al a), s - (need sz + pad al a)). split; [|cbn; lia].
      unfold align_rest, split_rest, MIN_SIZE. apply elem_of_app. right.
      destruct (Z.leb_spec (s - (need sz + pad al a)) 32); [lia|]. set_solver.
    + rewrite <- Eb. apply Z.mod_divide in Ha8; [|lia].
      apply align_eights; [done|done|by apply pad_eights|apply need_eights; lia].
    + split; [exact K'|]. intros v. rewrite HM'. apply HM.
  - intros q [z Hq]. destruct (decide (q = p)) as [->|Hne]; [rewrite lookup_insert_eq; by eexists|].
    rewrite lookup_insert_ne by done. by eexists.
Qed.

Lemma tracked_malloc x sz n :
  tracked_room x n -> 0 < sz -> alloc_cost 8 sz <= n ->
  exists p x', track x (tegrabl_malloc true (tk_heap x) sz) = (p, x') /\ 0 < p < 2 ^ 63 /\
    p mod 8 = 0 /\ is_Some (tk_live x' !! p) /\ ~ is_Some (tk_live x !! p) /\
    tracked_room x' (n - alloc_cost 8 sz) /\
    (forall q, is_Some (tk_live x !! q) -> is_Some (tk_live x' !! q)).
Proof.
  intros (L & mx & R & He & H1 & H2) Hs Hc. set (y := mkAheap L (tk_live x) mx) in *. unfold alloc_cost in *.
  pose proof R as [K HM]. destruct (HM TEGRABL_HEAP_DEFAULT) as [Em Hmu]. pose proof H1 as (Hm & b & Hb & Hbn).
  unfold tegrabl_malloc. rewrite Em. destruct (Z.ltb_spec (ah_max y TEGRABL_HEAP_DEFAULT) sz); [lia|].
  destruct (need_bounds sz ltac:(lia)) as (_ & Hn & Hnm & _). unfold ALLOC_HDR in Hn.
  pose proof (generic_malloc_spec true _ _ _ K TEGRABL_HEAP_DEFAULT sz ltac:(lia)) as G.
  destruct (list_find _ _) as [[k [a s]]|] eqn:Ef.
  2:{ apply list_find_None in Ef. rewrite Forall_forall in Ef. apply Ef in Hb. lia. }
  apply list_find_Some in Ef as (Hk & Hfit & _). cbn in Hfit. destruct G as (h' & E & K' & Hp & HM').
  destruct (proj1 He TEGRABL_HEAP_DEFAULT (a, s) ltac:(by eapply list_elem_of_lookup_2)) as [Da Ds]. cbn in Da, Ds.
  destruct (track_ok x (a + ALLOC_HDR) h' _ _ _ K') as [Et Hpp]. rewrite E, Et.
  eexists (a + ALLOC_HDR), _. split; [reflexivity|]. split; [done|].
  split; [apply Z.mod_divide; [lia|]; apply Z.divide_add_r; [done|]; by exists 3|].
  cbn [tk_live]. rewrite lookup_insert_eq. split; [by eexists|]. split; [change (tk_live x) with (ah_live y); rewrite Hp; by intros []|]. split.
  - eapply (carved_room x h' L mx TEGRABL_HEAP_DEFAULT k a s (split_rest a s (need sz)) (a + ALLOC_HDR)
      (split_size s (need sz), a)); try done; try lia.
    + intros Hns. exists (a + need sz, s - need sz). split; [|cbn; lia].
      unfold split_rest, MIN_SIZE. destruct (Z.leb_spec (s - need sz) 32); [lia|]. set_solver.
    + apply split_eights; [done|done|apply need_eights; lia].
    + split; [exact K'|]. intros v. rewrite HM'. apply HM.
  - intros q [z Hq]. destruct (decide (q = a + ALLOC_HDR)) as [->|Hne]; [rewrite lookup_insert_eq; by eexists|].
    rewrite lookup_insert_ne by done. by eexists.
Qed.

Lemma free_room h x t u p n :
  heap_rel h x -> is_Some (ah_live x !! p) -> has_room x u n -> has_room (spec_free x t p) u n.
Proof.
  intros [K _] [[s st] Hp] (Hm & y & Hy & Hn). unfold spec_free. rewrite Hp. split; [done|]. cbn [ah_free].
  destruct (decide (u = t)) as [->|Hne]; [|rewrite upd_other by done; by exists y]. rewrite upd_same.
  destruct (ko_alloc _ _ _ K _ _ _ Hp) as (_ & S). unfold alloc_shape, MIN_SIZE in S.
  destruct (coalesce_grows st s (ah_free x t) y) as (z & Hz & Hl); [lia|done| |].
  - intros [c v] Hc. apply (ascending_in _ _ _ _ (ko_asc _ _ _ K t)) in Hc. unfold MIN_SIZE in Hc. cbn. lia.
  - exists z. split; [done|lia].
Qed.

Lemma tracked_dealloc x t p n :
  is_Some (tk_live x !! p) -> tracked_room x n ->
  exists x', (let* h := tegrabl_dealloc (tk_heap x) t p in Ok (mkTracked h (delete p (tk_live x)))) = Ok x' /\
    tracked_room x' n /\ (forall q, q <> p -> is_Some (tk_live x !! q) -> is_Some (tk_live x' !! q)).
Proof.
  intros Hp (L & mx & R & He & H1 & H2). set (y := mkAheap L (tk_live x) mx) in *.
  destruct (dealloc_refines _ _ R t p (or_intror Hp)) as (h' & -> & R'). cbn [res_bind].
  eexists. split; [reflexivity|]. set (u := serving y t) in *.
  assert (Ey : spec_free y u p = mkAheap (ah_free (spec_free y u p)) (delete p (tk_live x)) mx).
  { unfold spec_free. cbn [y ah_live]. destruct Hp as [[s st] Hp]. by rewrite Hp. }
  split.
  - exists (ah_free (spec_free y u p)), mx. cbn [tk_heap tk_live]. rewrite <- Ey.
    split; [exact R'|]. split; [by apply free_eights|].
    split; [by eapply free_room|]. intros Hne. eapply free_room; [done|done|]. apply H2. intros EL. apply Hne.
    unfold spec_free. cbn [y ah_live]. destruct Hp as [[s st] Hp]. rewrite Hp. cbn [ah_free].
    assert (u = TEGRABL_HEAP_DEFAULT) as ->.
    { unfold u, serving. cbn [y ah_free]. rewrite EL. by destruct t. }
    by rewrite upd_other.
  - cbn. intros q Hq [z Hz]. exists z. by rewrite lookup_delete_ne.
Qed.

#[export, refine] Instance heap_laws : AllocatorLaws tracked := {
  heap_room := tracked_room;
  heap_live x p := is_Some (tk_live x !! p)
}.
Proof.
  - intros x n m (L & mx & R & He & H1 & H2) Hle. exists L, mx. split; [done|]. split; [done|].
    split; [by eapply has_room_weaken|]. intros Hd. eapply has_room_weaken; [by apply H2|done].
  - intros. by apply tracked_align.
  - intros. by apply tracked_malloc.
  - intros. by apply tracked_dealloc.
Defined.

(** ** Transfers with bounce buffers from this heap *)

Lemma two_heaps_room d d' n :
  arenas_ok d d' -> (forall t, (8 | fst (arena_of d d' t)) /\ (8 | snd (arena_of d d' t))) ->
  n <= snd d -> n <= snd d' -> heap_room (mkTracked (two_heaps d d') ∅) n.
Proof.
  intros HA H8 Hd Hd'. exists (fun t => [arena_of d d' t]), (fun t => snd (arena_of d d' t)). cbn [tk_heap tk_live].
  split; [by apply two_heaps_rel|]. split.
  - split; [|done]. intros t y Hy. apply list_elem_of_singleton in Hy as ->. apply H8.
  - split; [|intros _]; (split; [done|]); eexists; (split; [apply list_elem_of_singleton; reflexivity|done]).
Qed.

(** On two heaps just set up, each large enough for one block and the bytes
    of the transfer with what the allocator adds, a read of any range of an open
    device finds its bounce buffers, gives them back and returns the bytes of
    the medium. *)
Theorem blockdev_read_on_heap {D} `{BlockDriver D, !ReliableDriver D}
    (w : world D tracked) dev b buf offset len d d' :
  heap w = mkTracked (two_heaps d d') ∅ -> arenas_ok d d' ->
  (forall t, (8 | fst (arena_of d d' t)) /\ (8 | snd (arena_of d d' t))) ->
  alloc_cost 8 (2 ^ bd_block_size_log2 b) + alloc_cost 8 len <= Z.min (snd d) (snd d') ->
  devs w !! dev = Some b -> 0 < dev -> geom b -> media b (bd_priv b) ->
  0 < buf -> 0 <= offset -> 0 < len -> offset + len <= bd_size b ->
  exists w', tegrabl_blockdev_read w dev buf offset len =
    Ok (TEGRABL_NO_ERROR, slice offset len (drv_bytes (bd_priv b)), w').
Proof.
  intros Hh HA H8 Hc Hd Ha G M Hb Ho Hl He.
  destruct (blockdev_read_put w dev b buf offset len (Z.min (snd d) (snd d'))) as (x' & h' & E & _); [|eauto].
  split; try done. rewrite Hh. apply two_heaps_room; [done|done|lia|lia].
Qed.

Definition heap_world : world ramdisk tracked :=
  mkWorld (Some [0x100]) {[ 0x100 := demo_dev (mkRam 3 demo_bytes) ]} 0
    (mkTracked (two_heaps (4096, 8192) (32768, 16384)) ∅).

Lemma blockdev_read_on_heap_witness :
  exists w', tegrabl_blockdev_read heap_world 0x100 0x2003 5 30 =
    Ok (TEGRABL_NO_ERROR, slice 5 30 demo_bytes, w').
Proof.
  change demo_bytes with (drv_bytes (bd_priv (demo_dev (mkRam 3 demo_bytes)))) at 1.
  apply (blockdev_read_on_heap heap_world 0x100 (demo_dev (mkRam 3 demo_bytes)) 0x2003 5 30
    (4096, 8192) (32768, 16384)).
  - reflexivity.
  - apply demo_arenas.
  - intros []; cbn; split; by apply Z.mod_divide.
  - vm_compute. discriminate.
  - apply lookup_singleton_eq.
  - lia.
  - apply demo_geom.
  - apply demo_media.
  - lia.
  - lia.
  - lia.
  - cbn. lia.
Defined.
