(* ===== verification/Gpt.v ===== *)
(** The GUID partition table reader (common/lib/gpt/tegrabl_gpt.c).

    The buffer that receives header and table is a byte list of the allocated
    size: one block for the header, then room for 128 entries of 128 bytes.
    [tegrabl_gpt_publish] turns the entries in use into the partition records
    of tegrabl_partition_manager.h. *)

From S2P Require Import Prelude TegraError Utils BlockDev.

Definition GPT_ERR (reason aux : Z) : Z := tegrabl_error_value TEGRABL_ERR_GPT aux reason.

Definition GPT_SET_HIGHEST (error : Z) : Z :=
  tegrabl_err_set_highest_module error TEGRABL_ERR_GPT.

Definition TEGRABL_GPT_MAX_PARTITION_NAME : Z := 36.
Definition TEGRABL_GPT_MAX_PARTITION_ENTRIES : Z := 128.

(** [sizeof(struct tegrabl_gpt_entry)] *)
Definition sizeof_gpt_entry : Z := 128.

(** ** Layout of [struct tegrabl_gpt_header] *)

Definition hdr_signature (b : list Z) : list Z := slice 0 8 b.
Definition hdr_hdr_size (b : list Z) : Z := get_le 12 4 b.
Definition hdr_hdr_crc32 (b : list Z) : Z := get_le 16 4 b.
Definition hdr_first_lba (b : list Z) : Z := get_le 40 8 b.
Definition hdr_last_lba (b : list Z) : Z := get_le 48 8 b.
Definition hdr_table_start_lba (b : list Z) : Z := get_le 72 8 b.
Definition hdr_num_entries (b : list Z) : Z := get_le 80 4 b.
Definition hdr_entry_size (b : list Z) : Z := get_le 84 4 b.
Definition hdr_table_crc32 (b : list Z) : Z := get_le 88 4 b.

Definition set_hdr_crc32 (v : Z) (b : list Z) : list Z := splice 16 (le_bytes 4 v) b.

(** "EFI PART" *)
Definition EFI_PART : list Z := [0x45; 0x46; 0x49; 0x20; 0x50; 0x41; 0x52; 0x54].

(** ** Layout of [struct tegrabl_gpt_entry] *)

Record gpt_entry := mkEntry {
  ptype_guid : list Z;
  unique_guid : list Z;
  first_lba : Z;
  last_lba : Z;
  attribs : Z;
  pname : list Z
}.

(** The entry at index [i] of the table at offset [off] of the buffer. *)
Definition entry_at (buf : list Z) (off i : Z) : gpt_entry :=
  let e := slice (off + i * sizeof_gpt_entry) sizeof_gpt_entry buf in
  mkEntry (slice 0 16 e) (slice 16 16 e) (get_le 32 8 e) (get_le 40 8 e) (get_le 48 8 e)
    ((fun j => get_le (56 + 2 * j) 2 e) <$> seqZ 0 TEGRABL_GPT_MAX_PARTITION_NAME).

Definition table_entries (buf : list Z) (off : Z) : list gpt_entry :=
  entry_at buf off <$> seqZ 0 TEGRABL_GPT_MAX_PARTITION_ENTRIES.

(** [struct tegrabl_partition_info]; the arrays are kept as their bytes. *)
Record partition_info := mkInfo {
  pi_name : list Z;
  pi_guid : list Z;
  pi_ptype_guid : list Z;
  pi_start_sector : Z;
  pi_num_sectors : Z;
  pi_total_size : Z
}.

Definition sizeof_partition_info : Z := 144.

(** ** Header validation *)

(** Returns the error and the buffer; the checksum field is cleared while the
    checksum is computed and stays cleared when it does not match. *)
Definition tegrabl_gpt_validate_header (buf : list Z) (total_blocks : Z) : Z * list Z :=
  if total_blocks =? 0 then (GPT_ERR TEGRABL_ERR_INVALID 0, buf)
  else if negb (strncmp_eq (cstr (hdr_signature buf)) EFI_PART 8)
  then (GPT_ERR TEGRABL_ERR_VERIFY_FAILED 0, buf)
  else if negb (hdr_hdr_size buf =? 0x5C) then (GPT_ERR TEGRABL_ERR_INVALID 1, buf)
  else
    let hdr_crc32 := hdr_hdr_crc32 buf in
    let buf := set_hdr_crc32 0 buf in
    if negb (hdr_crc32 =? Crc32.tegrabl_utils_crc32 0 (slice 0 (hdr_hdr_size buf) buf))
    then (GPT_ERR TEGRABL_ERR_VERIFY_FAILED 1, buf)
    else
      let buf := set_hdr_crc32 hdr_crc32 buf in
      if (total_blocks <=? hdr_first_lba buf) || (total_blocks <=? hdr_last_lba buf)
      then (GPT_ERR TEGRABL_ERR_INVALID 2, buf)
      else (TEGRABL_NO_ERROR, buf).

(** ** GUID text *)

Definition hex_digit (n : Z) : Z := if 9 <? n then 97 + n - 10 else 48 + n.

(** The two characters stored at [hex]. *)
Definition set_hex (guid : Z) : list Z :=
  [hex_digit (Z.shiftr guid 4); hex_digit (Z.land guid 0x0F)].

(** The 37 characters stored at [guid_str]. *)
Definition guid_to_str (guid : list Z) : list Z :=
  let h i := set_hex (nth i guid 0) in
  h 3%nat ++ h 2%nat ++ h 1%nat ++ h 0%nat ++ [45] ++
  h 5%nat ++ h 4%nat ++ [45] ++
  h 7%nat ++ h 6%nat ++ [45] ++
  h 8%nat ++ h 9%nat ++ [45] ++
  h 10%nat ++ h 11%nat ++ h 12%nat ++ h 13%nat ++ h 14%nat ++ h 15%nat ++ [0].

(** ** Entries to partitions *)

(** The loop that counts the entries in use. *)
Fixpoint count_entries (es : list gpt_entry) (num_entries : Z) : Z :=
  match es with
  | [] => num_entries
  | e :: es =>
      count_entries es
        (if first_lba e <? last_lba e then u32 (num_entries + 1) else num_entries)
  end.

Definition make_partition (lg : Z) (e : gpt_entry) : partition_info :=
  let num_sectors := u64 (last_lba e - first_lba e + 1) in
  mkInfo ((fun c => Z.land c 0xFF) <$> pname e ++ [0])
    (guid_to_str (unique_guid e)) (guid_to_str (ptype_guid e))
    (first_lba e) num_sectors (u64 (Z.shiftl num_sectors lg)).

(** The loop that fills the array of [num_entries] records; [parts] are the
    records stored so far, so the index [j] is their number. *)
Fixpoint fill_partitions (es : list gpt_entry) (lg num_entries : Z)
    (parts : list partition_info) : res (list partition_info) :=
  match es with
  | [] => Ok parts
  | e :: es =>
      if last_lba e <=? first_lba e then fill_partitions es lg num_entries parts
      else if num_entries <=? zlen parts then Stuck OutOfBounds
      else
        let parts := parts ++ [make_partition lg e] in
        if zlen parts =? num_entries then Ok parts
        else fill_partitions es lg num_entries parts
  end.

Section Ops.
Context {D H : Type} `{BlockDriver D} `{Allocator H}.
Implicit Types w : world D H.

Definition tegrabl_free w (p : Z) : res (world D H) :=
  if p =? NULL then Ok w
  else let* h := heap_dealloc (heap w) TEGRABL_HEAP_DEFAULT p in Ok (set_heap w h).

(** Bytes of the buffer: the header block and 128 entries. *)
Definition gpt_buffer_size (d : bdev D) : Z :=
  u32 (sizeof_gpt_entry * TEGRABL_GPT_MAX_PARTITION_ENTRIES + TEGRABL_BLOCKDEV_BLOCK_SIZE d).

(** After the buffer is there: header, validation, table, checksum of the table.
    Returns the error and the content of the buffer at address [buffer]. *)
Definition gpt_load w (dev : Z) (d : bdev D) (offset buffer : Z) (content : list Z)
    : res (Z * list Z * world D H) :=
  let lg := bd_block_size_log2 d in
  let bsz := TEGRABL_BLOCKDEV_BLOCK_SIZE d in
  let* (error, data, w) :=
    tegrabl_blockdev_read_block w dev buffer (u32 (DIV_CEIL_LOG2 offset lg)) 1 in
  let* content := store_at 0 data content in
  if negb (error =? TEGRABL_NO_ERROR) then Ok (GPT_SET_HIGHEST error, content, w)
  else
    let '(error, content) := tegrabl_gpt_validate_header content (bd_block_count d) in
    if negb (error =? TEGRABL_NO_ERROR) then Ok (error, content, w)
    else
      let table_size := u32 (hdr_num_entries content * hdr_entry_size content) in
      let* (error, data, w) :=
        tegrabl_blockdev_read_block w dev (buffer + bsz)
          (u32 (hdr_table_start_lba content)) (u32 (DIV_CEIL_LOG2 table_size lg)) in
      let* content := store_at bsz data content in
      if negb (error =? TEGRABL_NO_ERROR) then Ok (GPT_SET_HIGHEST error, content, w)
      else
        let crc32 := Crc32.tegrabl_utils_crc32 0 (slice bsz table_size content) in
        if negb (hdr_table_crc32 content =? crc32)
        then Ok (GPT_ERR TEGRABL_ERR_VERIFY_FAILED 2, content, w)
        else Ok (TEGRABL_NO_ERROR, content, w).

(** [buf] is [*buf] with the content of that memory, [NULL] to have it
    allocated.  Returns the error, [*buf], its content and [*buf_size]. *)
Definition tegrabl_gpt_read_validate w (dev offset buf : Z) (content : list Z)
    (buf_size : Z) : res (Z * Z * list Z * Z * world D H) :=
  if dev =? NULL then Ok (GPT_ERR TEGRABL_ERR_INVALID 3, buf, content, buf_size, w)
  else
    let* d := get_dev w dev in
    let size := gpt_buffer_size d in
    let '(buffer, store, given, w) :=
      if buf =? NULL then
        let '(p, h) := heap_alloc_align (heap w) TEGRABL_HEAP_DMA 4096 size in
        (p, replicate (Z.to_nat size) 0, size, set_heap w h)
      else (buf, content, buf_size, w) in
    if buffer =? NULL then Ok (GPT_ERR TEGRABL_ERR_NO_MEMORY 0, NULL, content, buf_size, w)
    else
      let* (error, store, w) :=
        if given <? size then Ok (GPT_ERR TEGRABL_ERR_OVERFLOW 139, store, w)
        else gpt_load w dev d offset buffer store in
      if negb (error =? TEGRABL_NO_ERROR) then
        let* w := tegrabl_free w buffer in
        Ok (error, buf, content, given, w)
      else Ok (error, buffer, store, given, w).

(** The locations tried, in order. *)
Definition gpt_offsets (d : bdev D) (offset : Z) : list Z :=
  let block_size := u32 (TEGRABL_BLOCKDEV_BLOCK_SIZE d) in
  if 0 <? offset then [offset] else [block_size; u64 (bd_size d - block_size)].

Fixpoint gpt_try w (dev buf : Z) (content : list Z) (buf_size : Z) (offsets : list Z)
    : res (Z * Z * list Z * Z * world D H) :=
  match offsets with
  | [] => Ok (GPT_ERR TEGRABL_ERR_NOT_FOUND 0, buf, content, buf_size, w)
  | o :: offsets =>
      let* (error, buf, content, buf_size, w) :=
        tegrabl_gpt_read_validate w dev o buf content buf_size in
      if error =? TEGRABL_NO_ERROR then Ok (error, buf, content, buf_size, w)
      else gpt_try w dev buf content buf_size offsets
  end.

Definition tegrabl_gpt_read w (dev offset buf : Z) (content : list Z) (buf_size : Z)
    : res (Z * Z * list Z * Z * world D H) :=
  if dev =? NULL then Ok (GPT_ERR TEGRABL_ERR_INVALID 4, buf, content, buf_size, w)
  else
    let* d := get_dev w dev in
    gpt_try w dev buf content buf_size (gpt_offsets d offset).

(** Returns the error, [*partition_list] with the records stored there, and
    [*num_partitions]. *)
Definition tegrabl_gpt_publish w (dev offset : Z)
    : res (Z * Z * list partition_info * Z * world D H) :=
  if dev =? NULL then Ok (GPT_ERR TEGRABL_ERR_INVALID 5, NULL, [], 0, w)
  else
    let* (error, buffer, content, _, w) := tegrabl_gpt_read w dev offset NULL [] 0 in
    if negb (error =? TEGRABL_NO_ERROR) then
      let* w := tegrabl_free w buffer in Ok (error, NULL, [], 0, w)
    else
      let* d := get_dev w dev in
      let entries := table_entries content (TEGRABL_BLOCKDEV_BLOCK_SIZE d) in
      let num_entries := count_entries entries 0 in
      let '(partitions, h) := heap_malloc (heap w) (sizeof_partition_info * num_entries) in
      let w := set_heap w h in
      if partitions =? NULL then
        let* w := tegrabl_free w buffer in
        Ok (GPT_ERR TEGRABL_ERR_NO_MEMORY 1, NULL, [], 0, w)
      else
        let* parts := fill_partitions entries (bd_block_size_log2 d) num_entries [] in
        let* w := tegrabl_free w buffer in
        Ok (TEGRABL_NO_ERROR, partitions, parts, num_entries, w).

End Ops.
