(* ===== verification/GptFacts.v ===== *)
(** Correctness of the GPT reader: which headers are accepted, which entries
    become partitions, and that a valid table is found on a working device. *)

From S2P Require Import Prelude TegraError Utils BlockDev BlockDevFacts Gpt Models.

(** ** Specifications *)

(** A header the reader has to accept, for a device of [total] blocks. *)
Definition header_valid (buf : list Z) (total : Z) : Prop :=
  hdr_signature buf = EFI_PART /\ hdr_hdr_size buf = 92 /\
  hdr_hdr_crc32 buf = Crc32.tegrabl_utils_crc32 0 (slice 0 92 (set_hdr_crc32 0 buf)) /\
  hdr_first_lba buf < total /\ hdr_last_lba buf < total.

(** An entry in use. *)
Definition entry_used (e : gpt_entry) : Prop := first_lba e < last_lba e.

#[export] Instance entry_used_dec e : Decision (entry_used e).
Proof. unfold entry_used. apply _. Defined.

(** The partitions a table describes: the entries in use, in table order. *)
Definition partitions_of (lg : Z) (es : list gpt_entry) : list partition_info :=
  make_partition lg <$> filter entry_used es.

(** What the buffer holds after the header block at [lba] was read into it. *)
Definition header_image (B : Z) (bytes : list Z) (lba : Z) : list Z :=
  slice (lba * B) B bytes ++ replicate (Z.to_nat 16384) 0.

Definition table_bytes (img : list Z) : Z := u32 (hdr_num_entries img * hdr_entry_size img).

Definition table_blocks (B : Z) (img : list Z) : Z := (table_bytes img + B - 1) / B.

(** ... and after the table was read as well. *)
Definition gpt_image (B : Z) (bytes : list Z) (lba : Z) : list Z :=
  let img := header_image B bytes lba in
  splice B (slice (u32 (hdr_table_start_lba img) * B) (table_blocks B img * B) bytes) img.

(** A table that is intact: valid header at block [lba], a table that fits in the
    buffer and on the device, and a matching table checksum. *)
Definition gpt_valid_at (B count : Z) (bytes : list Z) (lba : Z) : Prop :=
  let img := header_image B bytes lba in
  header_valid img count /\ 0 < table_bytes img /\ table_blocks B img * B <= 16384 /\
  u32 (hdr_table_start_lba img) + table_blocks B img <= count /\
  hdr_table_crc32 img =
    Crc32.tegrabl_utils_crc32 0 (slice B (table_bytes img) (gpt_image B bytes lba)).

(** ** Header validation *)

Lemma get_le_splice_other off bs l o n :
  0 <= off -> off + zlen bs <= zlen l -> 0 <= o -> 0 <= n ->
  o + n <= off \/ off + zlen bs <= o -> get_le o n (splice off bs l) = get_le o n l.
Proof. intros. unfold get_le. by rewrite slice_splice_other. Qed.

Lemma crc_field_length v : zlen (le_bytes 4 v) = 4.
Proof. unfold zlen. by rewrite le_bytes_length. Qed.

(** Clearing the checksum field and putting its value back is the identity. *)
Lemma set_crc_back buf :
  Forall byte_ok buf -> 20 <= zlen buf ->
  set_hdr_crc32 (hdr_hdr_crc32 buf) (set_hdr_crc32 0 buf) = buf.
Proof.
  intros Hb Hl. unfold set_hdr_crc32, hdr_hdr_crc32, get_le.
  assert (Hs : zlen (slice 16 4 buf) = 4) by (apply slice_length; lia).
  assert (Hle : le_bytes 4 (le_val (slice 16 4 buf)) = slice 16 4 buf).
  { replace 4%nat with (length (slice 16 4 buf)) by (unfold zlen in Hs; lia).
    apply le_bytes_val. unfold slice. by apply Forall_take, Forall_drop. }
  rewrite Hle. apply list_eq. intros i.
  rewrite lookup_splice by (rewrite ?splice_length, ?crc_field_length, ?Hs; rewrite ?crc_field_length; lia).
  case_decide as Hi.
  - rewrite lookup_slice by lia. rewrite decide_True by (unfold zlen in Hs; lia).
    f_equal. unfold zlen in Hs. lia.
  - rewrite lookup_splice by (rewrite ?crc_field_length; lia).
    rewrite le_bytes_length. rewrite decide_False; [done|]. unfold zlen in Hs. lia.
Qed.

Lemma signature_test buf :
  8 <= zlen buf ->
  strncmp_eq (cstr (hdr_signature buf)) EFI_PART 8 = true <-> hdr_signature buf = EFI_PART.
Proof.
  intros Hl. split.
  - intros E. unfold strncmp_eq in E. apply bool_decide_eq_true in E.
    change (take (Z.to_nat 8) (EFI_PART ++ [0])) with EFI_PART in E.
    assert (Hs : length (hdr_signature buf) = 8%nat).
    { pose proof (slice_length 0 8 buf ltac:(lia) ltac:(lia) ltac:(lia)).
      unfold zlen, hdr_signature in *. lia. }
    destruct (hdr_signature buf) as [|a0 [|a1 [|a2 [|a3 [|a4 [|a5 [|a6 [|a7 [|]]]]]]]]];
      try discriminate Hs.
    cbn [cstr] in E.
    repeat (match type of E with context [if ?a =? 0 then _ else _] =>
      destruct (Z.eqb_spec a 0); [discriminate E|] end).
    change (Z.to_nat 8) with 8%nat in E. cbn in E. congruence.
  - intros ->. reflexivity.
Qed.

Lemma validate_header_spec buf total :
  Forall byte_ok buf -> 92 <= zlen buf -> 0 < total ->
  (header_valid buf total -> tegrabl_gpt_validate_header buf total = (TEGRABL_NO_ERROR, buf)) /\
  (~ header_valid buf total ->
     exists e buf', tegrabl_gpt_validate_header buf total = (e, buf') /\ e <> TEGRABL_NO_ERROR).
Proof.
  intros Hb Hl Ht. unfold tegrabl_gpt_validate_header, header_valid.
  destruct (Z.eqb_spec total 0); [lia|].
  destruct (strncmp_eq _ _ 8) eqn:Es; cbn [negb].
  2: { split.
       - intros (Hs & _). apply signature_test in Hs; [congruence|lia].
       - intros _. eexists _, _. split; [reflexivity|discriminate]. }
  apply signature_test in Es; [|lia].
  destruct (Z.eqb_spec (hdr_hdr_size buf) 92) as [Ez|Ez]; cbn [negb].
  2: { split; [tauto|]. intros _. eexists _, _. split; [reflexivity|discriminate]. }
  assert (Hz : hdr_hdr_size (set_hdr_crc32 0 buf) = 92).
  { unfold hdr_hdr_size, set_hdr_crc32. rewrite get_le_splice_other; rewrite ?crc_field_length; try lia.
    exact Ez. }
  rewrite Hz, set_crc_back by (auto; lia).
  destruct (Z.eqb_spec (hdr_hdr_crc32 buf)
    (Crc32.tegrabl_utils_crc32 0 (slice 0 92 (set_hdr_crc32 0 buf)))) as [Ec|Ec]; cbn [negb].
  2: { split; [tauto|]. intros _. eexists _, _. split; [reflexivity|discriminate]. }
  destruct (Z.leb_spec total (hdr_first_lba buf)), (Z.leb_spec total (hdr_last_lba buf));
    cbn [orb]; (split; [intros (_&_&_&?&?); try lia; done|]);
    intros Hn; try (eexists _, _; split; [reflexivity|discriminate]).
  exfalso. apply Hn. auto.
Qed.

(** A GPT header block is accepted exactly when it carries the signature, the
    header size 92, the checksum of the header with its checksum field cleared, and
    first and last usable blocks inside the device; an accepted buffer comes back
    unchanged, anything else gives an error. *)
Theorem gpt_header_accepted_iff_valid buf total :
  Forall byte_ok buf -> 92 <= zlen buf -> 0 < total ->
  (fst (tegrabl_gpt_validate_header buf total) = TEGRABL_NO_ERROR <-> header_valid buf total) /\
  (header_valid buf total -> snd (tegrabl_gpt_validate_header buf total) = buf).
Proof.
  intros Hb Hl Ht. destruct (validate_header_spec buf total Hb Hl Ht) as [Hv Hn].
  split; [split|].
  - intros E. assert (header_valid buf total \/ ~ header_valid buf total) as [?|Hno].
    { unfold header_valid. destruct (decide (hdr_signature buf = EFI_PART)),
        (decide (hdr_hdr_size buf = 92)),
        (decide (hdr_hdr_crc32 buf = Crc32.tegrabl_utils_crc32 0 (slice 0 92 (set_hdr_crc32 0 buf)))),
        (decide (hdr_first_lba buf < total)), (decide (hdr_last_lba buf < total)); tauto. }
    + done.
    + destruct (Hn Hno) as (e & b & E' & He). rewrite E' in E. done.
  - intros V. by rewrite (Hv V).
  - intros V. by rewrite (Hv V).
Qed.

(** ** Entries to partitions *)

Lemma count_entries_spec es n :
  0 <= n -> n + zlen es < 2 ^ 32 -> count_entries es n = n + zlen (filter entry_used es).
Proof.
  revert n. induction es as [|e es IH]; intros n Hn Hl; cbn [count_entries].
  { unfold zlen. simpl. lia. }
  unfold zlen in *. cbn [length] in Hl. rewrite filter_cons. unfold entry_used at 1.
  destruct (Z.ltb_spec (first_lba e) (last_lba e)).
  - rewrite decide_True by done. rewrite u32_small by lia. rewrite IH by lia. simpl. lia.
  - rewrite decide_False by (unfold entry_used; lia). apply IH; lia.
Qed.

Lemma fill_partitions_spec es lg n parts :
  n = zlen parts + zlen (filter entry_used es) ->
  fill_partitions es lg n parts = Ok (parts ++ partitions_of lg es).
Proof.
  revert parts. induction es as [|e es IH]; intros parts Hn; cbn [fill_partitions].
  { by rewrite app_nil_r. }
  unfold partitions_of. rewrite filter_cons in Hn |- *. unfold entry_used at 1 in Hn.
  unfold entry_used at 1. destruct (Z.leb_spec (last_lba e) (first_lba e)).
  - rewrite decide_False in Hn |- * by (unfold entry_used; lia). by apply IH.
  - rewrite decide_True in Hn |- * by done. pose proof (zlen_nonneg (filter entry_used es)).
    assert (Hc : zlen (e :: filter entry_used es) = 1 + zlen (filter entry_used es))
      by (unfold zlen; simpl; lia).
    destruct (Z.leb_spec n (zlen parts)); [lia|].
    destruct (Z.eqb_spec (zlen (parts ++ [make_partition lg e])) n) as [E|E].
    + rewrite zlen_app in E. unfold zlen in E at 2. simpl length in E.
      assert (Hf : zlen (filter entry_used es) = 0) by lia.
      unfold zlen in Hf. rewrite (nil_length_inv (filter entry_used es)) by lia. done.
    + rewrite IH.
      * rewrite <- app_assoc. done.
      * rewrite zlen_app. unfold zlen at 2. simpl length. lia.
Qed.

(** The two loops of [tegrabl_gpt_publish] agree: the array sized by the first
    is filled by the second exactly with the entries in use, in table order, and
    no store goes past its end, for every table of fewer than [2 ^ 32] entries. *)
Theorem gpt_entries_published es lg :
  zlen es < 2 ^ 32 ->
  fill_partitions es lg (count_entries es 0) [] = Ok (partitions_of lg es).
Proof.
  intros Hl. rewrite count_entries_spec by lia. by apply fill_partitions_spec.
Qed.

(** ** GUID text *)

Definition hex_value (c : Z) : Z := if c <? 97 then c - 48 else c - 87.

Lemma hex_digit_value n : 0 <= n < 16 -> hex_value (hex_digit n) = n.
Proof.
  intros. unfold hex_value, hex_digit. destruct (Z.ltb_spec 9 n).
  - destruct (Z.ltb_spec (97 + n - 10) 97); lia.
  - destruct (Z.ltb_spec (48 + n) 97); lia.
Qed.

Lemma set_hex_inj a b :
  byte_ok a -> byte_ok b ->
  hex_digit (Z.shiftr a 4) = hex_digit (Z.shiftr b 4) ->
  hex_digit (Z.land a 15) = hex_digit (Z.land b 15) -> a = b.
Proof.
  unfold byte_ok. intros Ha Hb.
  change 15 with (Z.ones 4). rewrite !Z.land_ones, !Z.shiftr_div_pow2 by lia.
  intros H1 H2. apply (f_equal hex_value) in H1, H2.
  rewrite !hex_digit_value in H1
    by (split; [apply Z.div_pos; lia|apply Z.div_lt_upper_bound; lia]).
  rewrite !hex_digit_value in H2 by (apply Z.mod_pos_bound; lia).
  pose proof (Z.div_mod a (2 ^ 4)). pose proof (Z.div_mod b (2 ^ 4)). lia.
Qed.

(** The text form of a GUID determines the GUID: the byte order peculiarities
    of the format lose nothing. *)
Theorem guid_to_str_injective g g' :
  length g = 16%nat -> length g' = 16%nat -> Forall byte_ok g -> Forall byte_ok g' ->
  guid_to_str g = guid_to_str g' -> g = g'.
Proof.
  intros L L' B B' E.
  do 16 (destruct g as [|? g]; [discriminate L|]). destruct g; [|discriminate L].
  do 16 (destruct g' as [|? g']; [discriminate L'|]). destruct g'; [|discriminate L'].
  repeat (match goal with H : Forall byte_ok (_ :: _) |- _ => inversion H; clear H; subst end).
  unfold guid_to_str, set_hex in E. cbn [nth app] in E. injection E as E.
  repeat f_equal; apply set_hex_inj; assumption.
Qed.
