(* ===== verification/DemoDisk.v ===== *)
(** A small disk with a partition table, used to evaluate the model: 128-byte
    blocks, the primary table in blocks 1 to 5, the backup in the last blocks. *)

From S2P Require Import Prelude TegraError Utils BlockDev BlockDevFacts Gpt GptFacts.
From S2P Require Import Models.

(** Two bytes for each character, padded to 36 characters. *)
Definition utf16 (s : list Z) : list Z :=
  concat ((fun c => [c; 0]) <$> s) ++ replicate (72 - 2 * length s) 0.

Definition demo_entry (n first last : Z) (name : list Z) : list Z :=
  seqZ n 16 ++ seqZ (n + 16) 16 ++ le_bytes 8 first ++ le_bytes 8 last ++ le_bytes 8 0 ++
  utf16 name.

(** "SMD", "SMD_b", "kernel", "kernel_b" *)
Definition name_SMD : list Z := [83; 77; 68].
Definition name_SMD_b : list Z := [83; 77; 68; 95; 98].
Definition name_kernel : list Z := [107; 101; 114; 110; 101; 108].
Definition name_kernel_b : list Z := name_kernel ++ [95; 98].

Definition demo_table : list Z :=
  demo_entry 1 8 9 name_SMD ++ demo_entry 2 10 11 name_SMD_b ++
  demo_entry 3 12 15 name_kernel ++ demo_entry 4 16 19 name_kernel_b.

(** A header block; the checksum field is filled in last. *)
Definition demo_header (start entries table_crc : Z) : list Z :=
  let h := EFI_PART ++ le_bytes 4 0x10000 ++ le_bytes 4 92 ++ le_bytes 4 0 ++ le_bytes 4 0 ++
    le_bytes 8 1 ++ le_bytes 8 31 ++ le_bytes 8 6 ++ le_bytes 8 24 ++ seqZ 100 16 ++
    le_bytes 8 start ++ le_bytes 4 entries ++ le_bytes 4 128 ++ le_bytes 4 table_crc ++
    replicate 36 0 in
  set_hdr_crc32 (Crc32.tegrabl_utils_crc32 0 (slice 0 92 h)) h.

Definition demo_table_crc : Z := Crc32.tegrabl_utils_crc32 0 demo_table.

(** 32 blocks; [primary] is the content of block 1. *)
Definition gpt_disk (primary : list Z) : list Z :=
  replicate 128 0 ++ primary ++ demo_table ++ replicate (20 * 128) 0 ++ demo_table ++
  replicate 128 0 ++ demo_header 26 4 demo_table_crc.

Definition gpt_dev (bytes : list Z) : bdev ramdisk :=
  mkBdev 2 (TEGRABL_BLOCK_DEVICE_ID 1 3) (zlen bytes) 7 (zlen bytes / 128) false 8
    (mkRam 7 bytes) HookDriver HookDriver HookDriver HookDriver HookDriver HookDriver HookNull.

Definition gpt_world (bytes : list Z) : world ramdisk arena :=
  mkWorld (Some [0x100]) {[ 0x100 := gpt_dev bytes ]} 0 (mkArena 0x1000 0x1000000 ∅).

(** Evaluated once: the intact disk and one with a damaged primary header. *)
Definition intact_disk : list Z := Eval vm_compute in gpt_disk (demo_header 2 4 demo_table_crc).
Definition damaged_disk : list Z := Eval vm_compute in gpt_disk (replicate 128 7).

(** A table of 130 entries, more than the buffer holds, on a disk of 140 blocks. *)
Definition oversized_disk : list Z :=
  replicate 128 0 ++ demo_header 2 130 0 ++ replicate (138 * 128) 0.

Lemma gpt_disk_geom bytes :
  zlen bytes = 4096 -> geom (gpt_dev bytes).
Proof.
  intros E. unfold gpt_dev. rewrite E. change (4096 / 128) with 32.
  split; cbn [bd_ref bd_block_count bd_block_size_log2 bd_size bd_buf_align_size
    bd_read_block bd_write_block]; auto; try lia; try reflexivity.
Qed.

Lemma gpt_disk_media bytes : zlen bytes = 4096 -> media (gpt_dev bytes) (mkRam 7 bytes).
Proof. intros E. split; [reflexivity|]. unfold gpt_dev. cbn. reflexivity. Qed.

Lemma byte_ok_test l : forallb (fun b => (0 <=? b) && (b <? 256)) l = true -> Forall byte_ok l.
Proof.
  intros T. apply Forall_forall. intros b Hb. rewrite forallb_forall in T.
  apply list_elem_of_In in Hb. specialize (T b Hb). zbool. unfold byte_ok. lia.
Qed.

Lemma demo_heap_room h n :
  h = mkArena 0x1000 0x1000000 ∅ -> n <= 0x800000 -> heap_room h n.
Proof.
  intros -> Hn. apply (heap_room_weaken _ 0x800000); [|done].
  apply arena_room_test. vm_compute. reflexivity.
Qed.

(** Fields of a record list are compared by evaluation. *)
Lemma gpt_disk_geom_published bytes b :
  zlen bytes = 4096 -> geom (set_published (gpt_dev bytes) b).
Proof. intros E. by destruct (gpt_disk_geom bytes E). Qed.
