(* ===== verification/GptProps.v ===== *)
(** The GPT reader on a device: a valid primary table is published, a valid
    secondary one when the primary header is damaged. *)

From S2P Require Import Prelude TegraError Utils BlockDev BlockDevFacts Gpt GptFacts.
From S2P Require Import Models DemoDisk.

Section Device.
Context {D H : Type} `{BlockDriver D, !ReliableDriver D} `{Allocator H, !AllocatorLaws H}.
Implicit Types (w : world D H) (d : bdev D) (x : D) (h : H).

Variables (w : world D H) (dev : Z) (d : bdev D) (bytes : list Z).
Hypotheses (G : geom d) (Hdev : 0 < dev) (Hblk : 7 <= bd_block_size_log2 d)
  (Hlen : zlen bytes = bd_size d) (Hok : Forall byte_ok bytes).

Let B := 2 ^ bd_block_size_log2 d.

Lemma block_bounds : 128 <= B <= 2 ^ 31.
Proof.
  pose proof (pow2_lt_32 _ (g_lg _ G)). unfold B. split; [|lia].
  change 128 with (2 ^ 7). apply Z.pow_le_mono_r; lia.
Qed.

Lemma gpt_buffer_size_eq x : gpt_buffer_size (set_priv d x) = 16384 + B.
Proof.
  unfold gpt_buffer_size.
  change (TEGRABL_BLOCKDEV_BLOCK_SIZE (set_priv d x)) with (TEGRABL_BLOCKDEV_BLOCK_SIZE d).
  rewrite (geom_bsz d G). fold B. pose proof block_bounds.
  unfold sizeof_gpt_entry, TEGRABL_GPT_MAX_PARTITION_ENTRIES. rewrite u32_small; lia.
Qed.

Lemma block_of_offset lba :
  0 <= lba < bd_block_count d -> u32 (DIV_CEIL_LOG2 (lba * B) (bd_block_size_log2 d)) = lba.
Proof.
  intros Hl. pose proof block_bounds. pose proof (g_count _ G). pose proof (g_lg _ G).
  unfold DIV_CEIL_LOG2. rewrite shiftl_1_pow by lia. fold B.
  rewrite u64_small by (change (2 ^ 64) with (2 ^ 32 * 2 ^ 32); nia).
  rewrite Z.shiftr_div_pow2 by lia. fold B.
  replace (lba * B + B - 1) with (B - 1 + lba * B) by lia.
  rewrite Z.div_add, Z.div_small by lia. apply u32_small. lia.
Qed.

Lemma aligned_block p : 0 < p -> p mod 4096 = 0 ->
  tegrabl_blockdev_buffer_aligned d p = true /\
  tegrabl_blockdev_buffer_aligned d (p + B) = true.
Proof.
  intros Hp Hm. pose proof block_bounds.
  assert (H8 : p mod 8 = 0).
  { apply Z.mod_divide; [lia|]. apply Z.mod_divide in Hm; [|lia].
    eapply Z.divide_trans; [|exact Hm]. by exists 512. }
  assert (HB8 : B mod 8 = 0).
  { unfold B. replace (bd_block_size_log2 d) with (bd_block_size_log2 d - 3 + 3) by lia.
    rewrite Z.pow_add_r by lia. change (2 ^ 3) with 8. apply Z.mod_mul. lia. }
  split; apply aligned8; auto; try lia.
  rewrite Z.add_mod, H8, HB8 by lia. done.
Qed.

Lemma header_image_shape lba :
  0 <= lba < bd_block_count d ->
  zlen (header_image B bytes lba) = 16384 + B /\ Forall byte_ok (header_image B bytes lba) /\
  splice 0 (slice (lba * B) B bytes) (replicate (Z.to_nat (16384 + B)) 0) =
    header_image B bytes lba.
Proof.
  intros Hl. pose proof block_bounds. pose proof (g_size _ G) as Hs. fold B in Hs.
  assert (Hz : zlen (slice (lba * B) B bytes) = B) by (apply slice_length; nia).
  unfold header_image. split; [|split].
  - rewrite zlen_app, Hz. unfold zlen. rewrite length_replicate. lia.
  - apply Forall_app. split; [by apply Forall_take, Forall_drop|].
    apply Forall_replicate. unfold byte_ok. lia.
  - unfold splice. rewrite drop_replicate. unfold zlen in Hz.
    change (take (Z.to_nat 0) (replicate (Z.to_nat (16384 + B)) 0)) with (@nil Z).
    cbn [app]. do 2 f_equal. lia.
Qed.

Lemma table_blocks_eq img :
  u32 (DIV_CEIL_LOG2 (table_bytes img) (bd_block_size_log2 d)) = table_blocks B img.
Proof.
  pose proof block_bounds. pose proof (g_lg _ G).
  pose proof (u32_range (hdr_num_entries img * hdr_entry_size img)).
  unfold DIV_CEIL_LOG2, table_blocks. rewrite shiftl_1_pow by lia. fold B.
  unfold table_bytes. rewrite u64_small by lia. rewrite Z.shiftr_div_pow2 by lia. fold B.
  apply u32_small. split; [apply Z.div_pos; lia|]. apply Z.div_lt_upper_bound; nia.
Qed.

Lemma load_header x h p lba :
  media d x -> drv_bytes x = bytes -> 0 < p -> p mod 4096 = 0 -> 0 <= lba < bd_block_count d ->
  exists x', media d x' /\ drv_bytes x' = bytes /\
    gpt_load (put w dev d x h) dev (set_priv d x) (lba * B) p
      (replicate (Z.to_nat (16384 + B)) 0) =
    (let img := header_image B bytes lba in
     let '(error, content) := tegrabl_gpt_validate_header img (bd_block_count d) in
     if negb (error =? TEGRABL_NO_ERROR) then Ok (error, content, put w dev d x' h)
     else
      let* (error, data, w) :=
        tegrabl_blockdev_read_block (put w dev d x' h) dev (p + B)
          (u32 (hdr_table_start_lba content)) (table_blocks B content) in
      let* content := store_at B data content in
      if negb (error =? TEGRABL_NO_ERROR) then Ok (GPT_SET_HIGHEST error, content, w)
      else if negb (hdr_table_crc32 content =?
          Crc32.tegrabl_utils_crc32 0 (slice B (u32 (hdr_num_entries (snd
            (tegrabl_gpt_validate_header img (bd_block_count d))) * hdr_entry_size (snd
            (tegrabl_gpt_validate_header img (bd_block_count d))))) content))
        then Ok (GPT_ERR TEGRABL_ERR_VERIFY_FAILED 2, content, w)
        else Ok (TEGRABL_NO_ERROR, content, w)).
Proof.
  intros M Hx Hp Hm Hl. pose proof (g_size _ G) as Hs. fold B in Hs. pose proof block_bounds.
  destruct (aligned_block p Hp Hm) as [Hal _].
  destruct (read_block_ok w dev d x h p lba 1) as (x' & E & M' & Hx'); [done..|lia|lia|lia|].
  exists x'. split; [done|]. split; [congruence|].
  unfold gpt_load. cbn [set_priv bd_block_size_log2 bd_block_count].
  rewrite block_of_offset by done. rewrite E, Hx. fold B. rewrite Z.mul_1_l. cbn [res_bind].
  assert (Hz : zlen (slice (lba * B) B bytes) = B) by (apply slice_length; nia).
  rewrite store_at_ok by (unfold zlen in *; rewrite ?length_replicate; lia).
  cbn [res_bind]. destruct (header_image_shape lba Hl) as (_ & _ & ->).
  change (negb (TEGRABL_NO_ERROR =? TEGRABL_NO_ERROR)) with false. cbv iota.
  change (TEGRABL_BLOCKDEV_BLOCK_SIZE (set_priv d x)) with (TEGRABL_BLOCKDEV_BLOCK_SIZE d).
  rewrite (geom_bsz d G). fold B. cbv zeta.
  destruct (tegrabl_gpt_validate_header _ _) as [e c]. cbn [snd].
  rewrite <- (table_blocks_eq c). reflexivity.
Qed.

Lemma gpt_load_valid x h p lba :
  media d x -> drv_bytes x = bytes -> 0 < p -> p mod 4096 = 0 -> 0 <= lba < bd_block_count d ->
  gpt_valid_at B (bd_block_count d) bytes lba ->
  exists x', media d x' /\ drv_bytes x' = bytes /\
    gpt_load (put w dev d x h) dev (set_priv d x) (lba * B) p
      (replicate (Z.to_nat (16384 + B)) 0) =
    Ok (TEGRABL_NO_ERROR, gpt_image B bytes lba, put w dev d x' h).
Proof.
  intros M Hx Hp Hm Hl (V & Ht & Hfit & Hend & Hcrc). pose proof block_bounds.
  destruct (load_header x h p lba M Hx Hp Hm Hl) as (x1 & M1 & Hx1 & ->).
  destruct (header_image_shape lba Hl) as (Hz & Hb & _).
  destruct (validate_header_spec _ (bd_block_count d) Hb) as [Hv _];
    [lia|pose proof (g_count _ G); lia|].
  cbv zeta. rewrite (Hv V). cbn [snd].
  change (negb (TEGRABL_NO_ERROR =? TEGRABL_NO_ERROR)) with false. cbv iota.
  set (img := header_image B bytes lba) in *.
  assert (Hn : 0 < table_blocks B img).
  { unfold table_blocks. assert (1 <= (table_bytes img + B - 1) / B); [|lia].
    apply Z.div_le_lower_bound; lia. }
  pose proof (u32_range (hdr_table_start_lba img)) as Hu.
  destruct (aligned_block p Hp Hm) as [_ Hal2].
  destruct (read_block_ok w dev d x1 h (p + B) (u32 (hdr_table_start_lba img))
    (table_blocks B img)) as (x2 & -> & M2 & Hx2); [done|done|done|lia|done|lia|done|lia|].
  fold B. rewrite Hx1. cbn [res_bind].
  pose proof (g_size _ G) as Hs. fold B in Hs.
  assert (Hsl : zlen (slice (u32 (hdr_table_start_lba img) * B) (table_blocks B img * B) bytes) =
    table_blocks B img * B) by (apply slice_length; nia).
  rewrite store_at_ok by lia. cbn [res_bind]. fold (gpt_image B bytes lba). fold img.
  change (splice B _ img) with (gpt_image B bytes lba).
  change (negb (TEGRABL_NO_ERROR =? TEGRABL_NO_ERROR)) with false. cbv iota.
  assert (Hc : hdr_table_crc32 (gpt_image B bytes lba) = hdr_table_crc32 img).
  { unfold hdr_table_crc32, gpt_image. fold img. apply get_le_splice_other; lia. }
  rewrite Hc. fold (table_bytes img). rewrite <- Hcrc, Z.eqb_refl. cbn [negb].
  exists x2. split; [done|]. split; [congruence|]. done.
Qed.

Lemma gpt_load_invalid x h p lba :
  media d x -> drv_bytes x = bytes -> 0 < p -> p mod 4096 = 0 -> 0 <= lba < bd_block_count d ->
  ~ header_valid (header_image B bytes lba) (bd_block_count d) ->
  exists x' e c, media d x' /\ drv_bytes x' = bytes /\ e <> TEGRABL_NO_ERROR /\
    gpt_load (put w dev d x h) dev (set_priv d x) (lba * B) p
      (replicate (Z.to_nat (16384 + B)) 0) = Ok (e, c, put w dev d x' h).
Proof.
  intros M Hx Hp Hm Hl V. pose proof block_bounds.
  destruct (load_header x h p lba M Hx Hp Hm Hl) as (x1 & M1 & Hx1 & ->).
  destruct (header_image_shape lba Hl) as (Hz & Hb & _).
  destruct (validate_header_spec _ (bd_block_count d) Hb) as [_ Hn];
    [lia|pose proof (g_count _ G); lia|].
  destruct (Hn V) as (e & c & E & He). cbv zeta. rewrite E.
  destruct (Z.eqb_spec e TEGRABL_NO_ERROR); [done|]. cbn [negb].
  exists x1, e, c. auto.
Qed.

(** The heap a table read needs: the buffer, then the partition array. *)
Definition gpt_room (r : Z) : Prop := alloc_cost 4096 (16384 + B) <= r.

Lemma read_validate_load x h r lba n0 :
  media d x -> drv_bytes x = bytes -> 0 <= lba < bd_block_count d ->
  heap_room h r -> gpt_room r ->
  exists p h1, 0 < p /\ p mod 4096 = 0 /\ heap_live h1 p /\
    heap_room h1 (r - alloc_cost 4096 (16384 + B)) /\
    tegrabl_gpt_read_validate (put w dev d x h) dev (lba * B) NULL [] n0 =
    (let* (error, store, w) := gpt_load (put w dev d x h1) dev (set_priv d x) (lba * B) p
       (replicate (Z.to_nat (16384 + B)) 0) in
     if negb (error =? TEGRABL_NO_ERROR) then
       let* w := tegrabl_free w p in Ok (error, NULL, [], 16384 + B, w)
     else Ok (error, p, store, 16384 + B, w)).
Proof.
  intros M Hx Hl Hr Hc. pose proof block_bounds.
  destruct (alloc_align_granted h TEGRABL_HEAP_DMA 4096 (16384 + B) r)
    as (p & h1 & E & Hp & Hp8 & Hlive & _ & Hr1 & _); [done|lia|lia|done|done|].
  exists p, h1. split; [lia|]. split; [done|]. split; [done|]. split; [done|].
  unfold tegrabl_gpt_read_validate. unfold NULL at 1. destruct (Z.eqb_spec dev 0); [lia|].
  rewrite get_dev_put. cbn [res_bind]. rewrite gpt_buffer_size_eq.
  change (NULL =? NULL) with true. cbv iota. cbn [heap put]. rewrite E.
  unfold NULL at 1. destruct (Z.eqb_spec p 0); [lia|].
  destruct (Z.ltb_spec (16384 + B) (16384 + B)); [lia|]. rewrite set_heap_put. reflexivity.
Qed.

Lemma read_validate_valid x h r lba n0 :
  media d x -> drv_bytes x = bytes -> 0 <= lba < bd_block_count d ->
  heap_room h r -> gpt_room r -> gpt_valid_at B (bd_block_count d) bytes lba ->
  exists p x' h', 0 < p /\ heap_live h' p /\ media d x' /\ drv_bytes x' = bytes /\
    heap_room h' (r - alloc_cost 4096 (16384 + B)) /\
    tegrabl_gpt_read_validate (put w dev d x h) dev (lba * B) NULL [] n0 =
    Ok (TEGRABL_NO_ERROR, p, gpt_image B bytes lba, 16384 + B, put w dev d x' h').
Proof.
  intros M Hx Hl Hr Hc V.
  destruct (read_validate_load x h r lba n0 M Hx Hl Hr Hc) as (p & h1 & Hp & Hm & Hlive & Hr1 & ->).
  destruct (gpt_load_valid x h1 p lba M Hx Hp Hm Hl V) as (x1 & M1 & Hx1 & ->).
  exists p, x1, h1. cbn [res_bind]. split_and?; done.
Qed.

Lemma read_validate_invalid x h r lba n0 :
  media d x -> drv_bytes x = bytes -> 0 <= lba < bd_block_count d ->
  heap_room h r -> gpt_room r ->
  ~ header_valid (header_image B bytes lba) (bd_block_count d) ->
  exists e n x' h', e <> TEGRABL_NO_ERROR /\ media d x' /\ drv_bytes x' = bytes /\
    heap_room h' (r - alloc_cost 4096 (16384 + B)) /\
    tegrabl_gpt_read_validate (put w dev d x h) dev (lba * B) NULL [] n0 =
    Ok (e, NULL, [], n, put w dev d x' h').
Proof.
  intros M Hx Hl Hr Hc V.
  destruct (read_validate_load x h r lba n0 M Hx Hl Hr Hc) as (p & h1 & Hp & Hm & Hlive & Hr1 & ->).
  destruct (gpt_load_invalid x h1 p lba M Hx Hp Hm Hl V) as (x1 & e & c & M1 & Hx1 & He & ->).
  cbn [res_bind]. destruct (Z.eqb_spec e TEGRABL_NO_ERROR); [done|]. cbn [negb].
  destruct (dealloc_accepted h1 TEGRABL_HEAP_DEFAULT p _ Hlive Hr1) as (h2 & E2 & Hr2 & _).
  unfold tegrabl_free, NULL. destruct (Z.eqb_spec p 0); [lia|]. cbn [heap put]. rewrite E2.
  cbn [res_bind]. eexists e, _, x1, h2. split; [done|]. split; [done|]. split; [done|].
  split; [done|]. reflexivity.
Qed.

Lemma gpt_try_publish x h r lba p x' h' :
  0 < p -> heap_live h' p -> media d x' -> drv_bytes x' = bytes ->
  heap_room h' r ->
  let parts := partitions_of (bd_block_size_log2 d) (table_entries (gpt_image B bytes lba) B) in
  parts <> [] -> alloc_cost 8 (sizeof_partition_info * zlen parts) <= r ->
  tegrabl_gpt_read (put w dev d x h) dev 0 NULL [] 0 =
    Ok (TEGRABL_NO_ERROR, p, gpt_image B bytes lba, 16384 + B, put w dev d x' h') ->
  exists q h2, 0 < q /\ heap_live h2 q /\
    heap_room h2 (r - alloc_cost 8 (sizeof_partition_info * zlen parts)) /\
    tegrabl_gpt_publish (put w dev d x h) dev 0 =
    Ok (TEGRABL_NO_ERROR, q, parts, zlen parts, put w dev d x' h2).
Proof.
  intros Hp Hlive M' Hx' Hr parts Hne Hc E.
  unfold tegrabl_gpt_publish. unfold NULL at 1. destruct (Z.eqb_spec dev 0); [lia|].
  rewrite E. cbn [res_bind].
  change (negb (TEGRABL_NO_ERROR =? TEGRABL_NO_ERROR)) with false. cbv iota.
  rewrite get_dev_put. cbn [res_bind].
  change (TEGRABL_BLOCKDEV_BLOCK_SIZE (set_priv d x')) with (TEGRABL_BLOCKDEV_BLOCK_SIZE d).
  rewrite (geom_bsz d G). fold B. set (es := table_entries (gpt_image B bytes lba) B) in *.
  assert (Hes : zlen es = 128)
    by (unfold es, table_entries, zlen; rewrite length_fmap, length_seqZ; reflexivity).
  assert (Hn : zlen (filter entry_used es) = zlen parts)
    by (unfold parts, partitions_of, zlen; by rewrite length_fmap).
  assert (Hpos : 0 < zlen parts) by (unfold zlen; destruct parts; [done|simpl; lia]).
  rewrite count_entries_spec by lia. rewrite Hn, Z.add_0_l.
  destruct (malloc_granted h' (sizeof_partition_info * zlen parts) r)
    as (q & h1 & Em & Hq & _ & Hlq & Hfq & Hr1 & Hkeep); [done|unfold sizeof_partition_info; lia|done|].
  cbn [heap put]. rewrite Em. unfold NULL at 1. destruct (Z.eqb_spec q 0); [lia|].
  cbn [set_priv bd_block_size_log2].
  rewrite (fill_partitions_spec _ _ _ []) by (rewrite Hn; unfold zlen at 2; simpl; lia).
  cbn [res_bind app]. unfold tegrabl_free, NULL. destruct (Z.eqb_spec p 0); [lia|].
  rewrite set_heap_put. cbn [heap put].
  destruct (dealloc_accepted h1 TEGRABL_HEAP_DEFAULT p _ (Hkeep _ Hlive) Hr1)
    as (h2 & E2 & Hr2 & Hk2).
  rewrite E2. cbn [res_bind]. exists q, h2. split; [lia|].
  split; [apply Hk2; [by intros ->|done]|]. split; [done|]. reflexivity.
Qed.

Lemma offsets_eq x :
  2 <= bd_block_count d ->
  gpt_offsets (set_priv d x) 0 = [1 * B; (bd_block_count d - 1) * B].
Proof.
  intros Hc. unfold gpt_offsets. cbn [set_priv bd_size].
  change (TEGRABL_BLOCKDEV_BLOCK_SIZE (set_priv d x)) with (TEGRABL_BLOCKDEV_BLOCK_SIZE d).
  rewrite (geom_bsz d G). fold B. pose proof block_bounds. rewrite u32_small by lia.
  pose proof (geom_size_bound d G). pose proof (g_size _ G) as Hs. fold B in Hs.
  rewrite u64_small by nia. change (0 <? 0) with false. cbv iota. f_equal; [lia|].
  f_equal. lia.
Qed.

Definition parts_at (lba : Z) : list partition_info :=
  partitions_of (bd_block_size_log2 d) (table_entries (gpt_image B bytes lba) B).

(** Heap for up to two buffers and the partition array. *)
Definition publish_room (lba : Z) : Z :=
  2 * alloc_cost 4096 (16384 + B) + alloc_cost 8 (sizeof_partition_info * zlen (parts_at lba)).

Lemma publish_ok x h r lba :
  media d x -> drv_bytes x = bytes -> heap_room h r -> publish_room lba <= r ->
  2 <= bd_block_count d -> parts_at lba <> [] ->
  gpt_valid_at B (bd_block_count d) bytes lba ->
  (lba = 1 \/
   lba = bd_block_count d - 1 /\ ~ header_valid (header_image B bytes 1) (bd_block_count d)) ->
  exists q x' h', 0 < q /\ heap_live h' q /\ media d x' /\ drv_bytes x' = bytes /\
    heap_room h' (r - publish_room lba) /\
    tegrabl_gpt_publish (put w dev d x h) dev 0 =
    Ok (TEGRABL_NO_ERROR, q, parts_at lba, zlen (parts_at lba), put w dev d x' h').
Proof.
  intros M Hx Hr Hroom Hc Hne V Hcase. pose proof (zlen_nonneg (parts_at lba)).
  pose proof block_bounds. unfold publish_room, alloc_cost, sizeof_partition_info in *.
  assert (Hread : exists p x' h', 0 < p /\ heap_live h' p /\ media d x' /\ drv_bytes x' = bytes /\
    heap_room h' (r - 2 * alloc_cost 4096 (16384 + B)) /\
    tegrabl_gpt_read (put w dev d x h) dev 0 NULL [] 0 =
    Ok (TEGRABL_NO_ERROR, p, gpt_image B bytes lba, 16384 + B, put w dev d x' h')).
  { unfold tegrabl_gpt_read. unfold NULL at 1. destruct (Z.eqb_spec dev 0); [lia|].
    rewrite get_dev_put. cbn [res_bind]. rewrite offsets_eq by done. cbn [gpt_try].
    destruct Hcase as [-> | [-> Hbad]].
    - destruct (read_validate_valid x h r 1 0 M Hx ltac:(lia) Hr)
        as (p & x' & h' & Hp & Hlv & M' & Hx' & Hr' & ->);
        [unfold gpt_room, alloc_cost; lia|done|].
      cbn [res_bind]. change (TEGRABL_NO_ERROR =? TEGRABL_NO_ERROR) with true. cbv iota.
      exists p, x', h'. split_and?; try done. eapply heap_room_weaken; [done|].
      unfold alloc_cost. lia.
    - destruct (read_validate_invalid x h r 1 0 M Hx ltac:(lia) Hr)
        as (e & sz & x1 & h1 & He & M1 & Hx1 & Hr1 & ->);
        [unfold gpt_room, alloc_cost; lia|done|].
      cbn [res_bind]. destruct (Z.eqb_spec e TEGRABL_NO_ERROR); [done|].
      destruct (read_validate_valid x1 h1 _ (bd_block_count d - 1) sz M1 Hx1 ltac:(lia) Hr1)
        as (p & x' & h' & Hp & Hlv & M' & Hx' & Hr' & ->);
        [unfold gpt_room, alloc_cost; lia|done|].
      cbn [res_bind]. change (TEGRABL_NO_ERROR =? TEGRABL_NO_ERROR) with true. cbv iota.
      exists p, x', h'. split_and?; try done. eapply heap_room_weaken; [done|].
      unfold alloc_cost. lia. }
  destruct Hread as (p & x' & h' & Hp & Hlv & M' & Hx' & Hr' & E).
  destruct (gpt_try_publish x h _ lba p x' h' Hp Hlv M' Hx' Hr' Hne) as (q & h2 & Hq & Hlq & Hr2 & E2);
    [unfold alloc_cost, sizeof_partition_info, parts_at in *; lia|done|].
  exists q, x', h2. split_and?; try done.
  eapply heap_room_weaken; [done|]. unfold alloc_cost, sizeof_partition_info, parts_at in *. lia.
Qed.

End Device.

Section Published.
Context {D H : Type} `{BlockDriver D, !ReliableDriver D} `{Allocator H, !AllocatorLaws H}.

(** A device with blocks of at least 128 bytes that holds byte data. *)
Record gpt_device (w : world D H) (dev : Z) (d : bdev D) : Prop := {
  gd_dev : devs w !! dev = Some d;
  gd_addr : 0 < dev;
  gd_geom : geom d;
  gd_media : media d (bd_priv d);
  gd_block : 7 <= bd_block_size_log2 d;
  gd_count : 2 <= bd_block_count d;
  gd_bytes : Forall byte_ok (drv_bytes (bd_priv d))
}.

End Published.

(** ** The statements at concrete disks *)

Lemma intact_device :
  gpt_device (gpt_world intact_disk) 0x100 (gpt_dev intact_disk).
Proof.
  split; [reflexivity|lia|by apply gpt_disk_geom|by apply gpt_disk_media|cbn; lia|vm_compute; discriminate|].
  apply byte_ok_test. vm_compute. reflexivity.
Qed.

Lemma damaged_device :
  gpt_device (gpt_world damaged_disk) 0x100 (gpt_dev damaged_disk).
Proof.
  split; [reflexivity|lia|by apply gpt_disk_geom|by apply gpt_disk_media|cbn; lia|vm_compute; discriminate|].
  apply byte_ok_test. vm_compute. reflexivity.
Qed.


Lemma gpt_header_accepted_iff_valid_witness :
  fst (tegrabl_gpt_validate_header (demo_header 2 4 demo_table_crc) 32) = TEGRABL_NO_ERROR.
Proof.
  apply (gpt_header_accepted_iff_valid (demo_header 2 4 demo_table_crc) 32).
  - apply byte_ok_test. vm_compute. reflexivity.
  - vm_compute. discriminate.
  - lia.
  - unfold header_valid. vm_compute. repeat split.
Defined.

Lemma gpt_entries_published_witness :
  fill_partitions (table_entries demo_table 0) 7 (count_entries (table_entries demo_table 0) 0) [] =
  Ok (partitions_of 7 (table_entries demo_table 0)).
Proof. apply (gpt_entries_published (table_entries demo_table 0) 7). vm_compute. reflexivity. Defined.

Lemma guid_to_str_injective_witness :
  guid_to_str (seqZ 1 16) = guid_to_str [1; 2; 3; 4; 5; 6; 7; 8; 9; 10; 11; 12; 13; 14; 15; 16] /\
  seqZ 1 16 = [1; 2; 3; 4; 5; 6; 7; 8; 9; 10; 11; 12; 13; 14; 15; 16].
Proof.
  split; [reflexivity|].
  apply (guid_to_str_injective (seqZ 1 16)); [reflexivity|reflexivity| | |reflexivity];
    apply byte_ok_test; reflexivity.
Defined.

(** ** A table larger than the buffer *)

(** A header with a correct checksum that announces 130 entries makes the
    reader store 130 blocks of 128 bytes into the space for 128: the size of the
    table is taken from the disk and is not compared with the size of the
    buffer. *)
Theorem gpt_table_overruns_buffer :
  tegrabl_gpt_publish (gpt_world oversized_disk) 0x100 0 = Stuck OutOfBounds.
Proof. vm_compute. reflexivity. Qed.
