(* ===== verification/AbNaming.v ===== *)
(** Partition names and the A/B suffixes
    (common/lib/a_b_boot/tegrabl_a_b_partition_naming.c). *)

From S2P Require Import Prelude.

Definition BOOT_CHAIN_SUFFIX_LEN : Z := 2.
Definition BOOT_CHAIN_SUFFIX_A : list Z := [95; 97].   (* "_a" *)
Definition BOOT_CHAIN_SUFFIX_B : list Z := [95; 98].   (* "_b" *)

Definition tegrabl_a_b_match_part_name (part_name full_part_name : list Z) : bool :=
  let len := u32 (zlen part_name) in
  if negb (strncmp_eq part_name full_part_name len) then false
  else
    let suffix := drop (Z.to_nat len) full_part_name in
    (len =? zlen full_part_name) || strcmp_eq suffix BOOT_CHAIN_SUFFIX_A.

Definition tegrabl_a_b_match_part_name_with_suffix (part_name full_part_name : list Z) : bool :=
  let name_length := u32 (zlen full_part_name) in
  if strncmp_eq part_name full_part_name (zlen part_name) then
    let suffix := drop (Z.to_nat (zlen part_name)) full_part_name in
    (name_length =? zlen part_name) || strcmp_eq BOOT_CHAIN_SUFFIX_A suffix ||
    strcmp_eq BOOT_CHAIN_SUFFIX_B suffix
  else false.

(** [None] is a [NULL] argument.  The pointer [&part[strlen(part) - 2]] lies before
    the string when it is shorter than a suffix. *)
Definition tegrabl_a_b_get_part_suffix (asserts : bool) (part : option (list Z))
    : res (list Z) :=
  match part with
  | None => Stuck (if asserts then AssertFail else BadPointer)
  | Some part =>
      if zlen part <? BOOT_CHAIN_SUFFIX_LEN then Stuck OutOfBounds
      else if strcmp_eq (drop (Z.to_nat (zlen part - BOOT_CHAIN_SUFFIX_LEN)) part)
                BOOT_CHAIN_SUFFIX_B
      then Ok BOOT_CHAIN_SUFFIX_B
      else Ok BOOT_CHAIN_SUFFIX_A
  end.

(** ** Facts *)

Lemma match_part_name_spec part full :
  nonzero part -> zlen part < 2 ^ 32 ->
  tegrabl_a_b_match_part_name part full = true <->
  full = part \/ full = part ++ BOOT_CHAIN_SUFFIX_A.
Proof.
  intros Hn Hl. unfold tegrabl_a_b_match_part_name.
  rewrite u32_small by (pose proof (zlen_nonneg part); lia).
  destruct (strncmp_eq part full (zlen part)) eqn:E; cbn [negb].
  - apply strncmp_eq_prefix in E as [k ->]; [|done].
    replace (Z.to_nat (zlen part)) with (length part) by (unfold zlen; lia).
    rewrite drop_app_length, orb_true_iff, Z.eqb_eq. unfold strcmp_eq.
    rewrite bool_decide_eq_true, zlen_app. split.
    + intros [Hz| ->]; [left|by right]. assert (k = []) as -> by
        (apply nil_length_inv; unfold zlen in Hz; lia). by rewrite app_nil_r.
    + intros [E|E].
      * left. apply (f_equal zlen) in E. rewrite zlen_app in E. lia.
      * right. by apply app_inv_head in E.
  - split; [discriminate|]. intros Hc. exfalso.
    assert (part `prefix_of` full) as Hp.
    { destruct Hc as [-> | ->]; [done|]. by exists BOOT_CHAIN_SUFFIX_A. }
    apply strncmp_eq_prefix in Hp; [congruence|done].
Qed.

Lemma match_with_suffix_spec part full :
  nonzero part -> zlen full < 2 ^ 32 ->
  tegrabl_a_b_match_part_name_with_suffix part full = true <->
  full = part \/ full = part ++ BOOT_CHAIN_SUFFIX_A \/ full = part ++ BOOT_CHAIN_SUFFIX_B.
Proof.
  intros Hn Hl. unfold tegrabl_a_b_match_part_name_with_suffix.
  rewrite u32_small by (pose proof (zlen_nonneg full); lia).
  destruct (strncmp_eq part full (zlen part)) eqn:E.
  - apply strncmp_eq_prefix in E as [k ->]; [|done].
    replace (Z.to_nat (zlen part)) with (length part) by (unfold zlen; lia).
    rewrite drop_app_length, !orb_true_iff, Z.eqb_eq. unfold strcmp_eq.
    rewrite !bool_decide_eq_true, zlen_app. split.
    + intros [[Hz|<-]|<-]; [left|auto..]. assert (k = []) as -> by
        (apply nil_length_inv; unfold zlen in Hz; lia). by rewrite app_nil_r.
    + intros [E|[E|E]].
      * left. left. apply (f_equal zlen) in E. rewrite zlen_app in E. lia.
      * left. right. by apply app_inv_head in E.
      * right. by apply app_inv_head in E.
  - split; [discriminate|]. intros Hc. exfalso.
    assert (part `prefix_of` full) as Hp.
    { destruct Hc as [-> | [-> | ->]]; [done| |];
        [by exists BOOT_CHAIN_SUFFIX_A|by exists BOOT_CHAIN_SUFFIX_B]. }
    apply strncmp_eq_prefix in Hp; [congruence|done].
Qed.

(** A table entry [part] answers to a requested name exactly when the name is
    [part] itself or [part] with the suffix of slot A; with slot B's suffix it
    answers only through the routine that accepts both. *)
Theorem part_name_matching part full :
  nonzero part -> zlen part < 2 ^ 31 -> zlen full < 2 ^ 32 ->
  (tegrabl_a_b_match_part_name part full = true <->
     full = part \/ full = part ++ BOOT_CHAIN_SUFFIX_A) /\
  (tegrabl_a_b_match_part_name_with_suffix part full = true <->
     full = part \/ full = part ++ BOOT_CHAIN_SUFFIX_A \/ full = part ++ BOOT_CHAIN_SUFFIX_B).
Proof.
  intros. split; [apply match_part_name_spec|apply match_with_suffix_spec]; auto; lia.
Qed.

Lemma part_name_matching_witness :
  tegrabl_a_b_match_part_name [83; 77; 68] [83; 77; 68; 95; 97] = true.
Proof.
  refine (proj2 (proj1 (part_name_matching [83; 77; 68] [83; 77; 68; 95; 97] _ _ _))
    (or_intror eq_refl)).
  - repeat constructor; lia.
  - vm_compute. reflexivity.
  - vm_compute. reflexivity.
Defined.

(** For every name and either suffix, the suffix that was appended is the
    suffix that is reported; a name of one character or none is outside the
    domain, where the code reads before the string. *)
Theorem part_suffix_recovered asserts name :
  tegrabl_a_b_get_part_suffix asserts (Some (name ++ BOOT_CHAIN_SUFFIX_A)) = Ok BOOT_CHAIN_SUFFIX_A /\
  tegrabl_a_b_get_part_suffix asserts (Some (name ++ BOOT_CHAIN_SUFFIX_B)) = Ok BOOT_CHAIN_SUFFIX_B /\
  tegrabl_a_b_get_part_suffix asserts (Some (take 1 name)) = Stuck OutOfBounds.
Proof.
  unfold tegrabl_a_b_get_part_suffix, BOOT_CHAIN_SUFFIX_LEN.
  assert (Hs : forall s, length s = 2%nat -> (zlen (name ++ s) <? 2) = false /\
    drop (Z.to_nat (zlen (name ++ s) - 2)) (name ++ s) = s).
  { intros s Hs. rewrite zlen_app. unfold zlen. rewrite Hs. split.
    - apply Z.ltb_ge. lia.
    - replace (Z.to_nat _) with (length name) by lia. apply drop_app_length. }
  split; [|split].
  - by destruct (Hs BOOT_CHAIN_SUFFIX_A) as [-> ->].
  - by destruct (Hs BOOT_CHAIN_SUFFIX_B) as [-> ->].
  - destruct (Z.ltb_spec (zlen (take 1 name)) 2); [done|].
    unfold zlen in *. rewrite length_take in *. lia.
Qed.
