(* ===== verification/PartitionManager.v ===== *)
(** The partition manager (common/lib/partition_manager/tegrabl_partition_manager.c).

    The module keeps a list of storage devices with the array of partitions found
    on each.  A client holds a [partition] handle: a pointer into such an array,
    the device, and the current byte offset.  Arrays live in a store indexed by
    address, so that a handle can outlive the array it points into.  The code
    under CONFIG_ENABLE_RECOVERY_VERIFY_WRITE is not part of this build. *)

From S2P Require Import Prelude TegraError BlockDev Gpt AbNaming.

Definition PM_ERR (reason aux : Z) : Z :=
  tegrabl_error_value TEGRABL_ERR_PARTITION_MANAGER aux reason.

Definition PM_SET_HIGHEST (error : Z) : Z :=
  tegrabl_err_set_highest_module error TEGRABL_ERR_PARTITION_MANAGER.

Definition AUX_INFO_PARTITION_LOOKUP_ERR : Z := 20.
Definition AUX_INFO_PARTITION_BOOT_LOOKUP_ERR : Z := 21.
Definition AUX_INFO_PARTITION_NOT_FOUND : Z := 22.
Definition AUX_INFO_PARTITION_NOT_INIT : Z := 23.
Definition AUX_INFO_PARTITION_GUID_NOT_FOUND : Z := 24.

Definition GUID_STR_LEN : Z := 36.
Definition TEGRABL_PARTITION_SEEK_SET : Z := 0.
Definition TEGRABL_PARTITION_SEEK_CUR : Z := 1.
Definition TEGRABL_PARTITION_SEEK_END : Z := 2.

(** [sizeof] of [struct list_node], [struct tegrabl_storage_info] and
    [struct tegrabl_blockdev_xfer_info]. *)
Definition sizeof_list_node : Z := 16.
Definition sizeof_storage_info : Z := 40.
Definition sizeof_xfer_info : Z := 48.

(** [struct tegrabl_storage_info], with its own address. *)
Record storage_info := mkStorage {
  si_addr : Z;
  si_bdev : Z;
  si_num_partitions : Z;
  si_partitions : Z
}.

(** [struct tegrabl_partition]; the pointer is the address of an array and an
    index, [None] for [NULL]. *)
Record partition := mkPartition {
  pt_info : option (Z * nat);
  pt_block_device : Z;
  pt_offset : Z
}.

(** The handle after it is cleared with [memset]. *)
Definition zero_partition : partition := mkPartition None NULL 0.

Definition set_offset (p : partition) (o : Z) : partition :=
  mkPartition (pt_info p) (pt_block_device p) o.

Record pstate (D H : Type) := mkPstate {
  pw : world D H;
  storage_list : option (list storage_info);
  tables : gmap Z (list partition_info)
}.
Arguments mkPstate {D H}.
Arguments pw {D H}. Arguments storage_list {D H}. Arguments tables {D H}.

Definition set_pw {D H} (s : pstate D H) (w : world D H) : pstate D H :=
  mkPstate w (storage_list s) (tables s).

Definition get_table {D H} (s : pstate D H) (a : Z) : res (list partition_info) :=
  match tables s !! a with
  | Some t => Ok t
  | None => Stuck BadPointer
  end.

Definition get_info {D H} (s : pstate D H) (q : Z * nat) : res partition_info :=
  let* t := get_table s (fst q) in
  match t !! snd q with
  | Some i => Ok i
  | None => Stuck OutOfBounds
  end.

Definition match_partition_name (partition_name name : list Z) : bool :=
  tegrabl_a_b_match_part_name partition_name name.

(** [for (i = 0; i < num_partitions; i++) if (f(partition_info[i])) break;] from
    index [i] on, [n] elements left; the final value of the index. *)
Fixpoint find_part (f : partition_info -> bool) (t : list partition_info) (i n : nat)
    : res nat :=
  match n with
  | O => Ok i
  | S n =>
      match t !! i with
      | None => Stuck OutOfBounds
      | Some q => if f q then Ok i else find_part f t (S i) n
      end
  end.

(** [tegrabl_partition_pt_has_3_levels]: no NVPT support in this build. *)
Definition tegrabl_partition_pt_has_3_levels (info : Z) : Z :=
  if info =? NULL then PM_ERR TEGRABL_ERR_BAD_PARAMETER 0
  else PM_ERR TEGRABL_ERR_NOT_SUPPORTED 0.

Section Ops.
Context {D H : Type} `{BlockDriver D} `{Allocator H}.
Implicit Types (s : pstate D H) (w : world D H) (p : option partition).

(** ** Finding a partition *)

(** The walk over the storage list of [tegrabl_partition_open]: stops at the first
    device with a matching partition. *)
Fixpoint scan_storage s (f : partition_info -> bool) (l : list storage_info)
    : res (option (storage_info * nat)) :=
  match l with
  | [] => Ok None
  | e :: l =>
      let* t := get_table s (si_partitions e) in
      let* i := find_part f t 0 (Z.to_nat (si_num_partitions e)) in
      if si_num_partitions e <=? Z.of_nat i then scan_storage s f l
      else Ok (Some (e, i))
  end.

(** The same walk restricted to the entries of one block device. *)
Fixpoint scan_storage_bdev s (f : partition_info -> bool) (bdev : Z) (l : list storage_info)
    : res (option (storage_info * nat)) :=
  match l with
  | [] => Ok None
  | e :: l =>
      if negb (si_bdev e =? bdev) then scan_storage_bdev s f bdev l
      else
        let* t := get_table s (si_partitions e) in
        let* i := find_part f t 0 (Z.to_nat (si_num_partitions e)) in
        if si_num_partitions e <=? Z.of_nat i then scan_storage_bdev s f bdev l
        else Ok (Some (e, i))
  end.

Definition handle_to (e : storage_info) (i : nat) : partition :=
  mkPartition (Some (si_partitions e, i)) (si_bdev e) 0.

(** Returns the error and [*partition]; a [NULL] name or handle is [None]. *)
Definition tegrabl_partition_lookup_bdev s (partition_name : option (list Z)) p (bdev : Z)
    : res (Z * option partition) :=
  match partition_name, p with
  | Some name, Some _ =>
      if bdev =? NULL
      then Ok (PM_ERR TEGRABL_ERR_INVALID AUX_INFO_PARTITION_LOOKUP_ERR, p)
      else
        match storage_list s with
        | None => Ok (PM_ERR TEGRABL_ERR_NOT_INITIALIZED AUX_INFO_PARTITION_NOT_INIT, p)
        | Some l =>
            let* found :=
              scan_storage_bdev s (fun q => strcmp_eq (cstr (pi_name q)) name) bdev l in
            match found with
            | None => Ok (PM_ERR TEGRABL_ERR_NOT_FOUND AUX_INFO_PARTITION_NOT_FOUND,
                          Some zero_partition)
            | Some (e, i) => Ok (TEGRABL_NO_ERROR, Some (handle_to e i))
            end
        end
  | _, _ => Ok (PM_ERR TEGRABL_ERR_INVALID AUX_INFO_PARTITION_LOOKUP_ERR, p)
  end.

(** Outcome of the walk by partition type: a match, or the last array that was
    looked at (none when the device is not listed). *)
Inductive guid_scan :=
| GuidFound (e : storage_info) (i : nat)
| GuidMissed (partition_info : option Z).

Fixpoint scan_guid s (guid : list Z) (bdev : Z) (l : list storage_info) (last : option Z)
    : res guid_scan :=
  match l with
  | [] => Ok (GuidMissed last)
  | e :: l =>
      if negb (si_bdev e =? bdev) then scan_guid s guid bdev l last
      else
        let* t := get_table s (si_partitions e) in
        let* i := find_part (fun q => strncasecmp_eq (cstr (pi_ptype_guid q)) guid GUID_STR_LEN)
                    t 0 (Z.to_nat (si_num_partitions e)) in
        if si_num_partitions e <=? Z.of_nat i
        then scan_guid s guid bdev l (Some (si_partitions e))
        else Ok (GuidFound e i)
  end.

(** When no partition type matches, the fallback to the first partition reads
    [entry->bdev] after the loop, when [entry] is the list head: that lies behind
    the allocated list node. *)
Definition tegrabl_partition_boot_guid_lookup_bdev s (pt_type_guid : list Z) p (bdev : Z)
    : res (Z * option partition) :=
  match p with
  | None => Ok (PM_ERR TEGRABL_ERR_INVALID AUX_INFO_PARTITION_BOOT_LOOKUP_ERR, p)
  | Some _ =>
      if bdev =? NULL
      then Ok (PM_ERR TEGRABL_ERR_INVALID AUX_INFO_PARTITION_BOOT_LOOKUP_ERR, p)
      else
        match storage_list s with
        | None => Stuck BadPointer
        | Some l =>
            let* found := scan_guid s pt_type_guid bdev l None in
            match found with
            | GuidFound e i => Ok (TEGRABL_NO_ERROR, Some (handle_to e i))
            | GuidMissed None =>
                Ok (PM_ERR TEGRABL_ERR_NOT_FOUND AUX_INFO_PARTITION_GUID_NOT_FOUND,
                    Some zero_partition)
            | GuidMissed (Some _) => Stuck OutOfBounds
            end
        end
  end.

Definition tegrabl_partition_open s (partition_name : option (list Z)) p
    : res (Z * option partition) :=
  match partition_name, p with
  | Some name, Some _ =>
      match storage_list s with
      | None => Ok (PM_ERR TEGRABL_ERR_NOT_INITIALIZED AUX_INFO_PARTITION_NOT_INIT, p)
      | Some l =>
          let* found :=
            scan_storage s (fun q => match_partition_name (cstr (pi_name q)) name) l in
          match found with
          | None => Ok (PM_ERR TEGRABL_ERR_NOT_FOUND 0, Some zero_partition)
          | Some (e, i) => Ok (TEGRABL_NO_ERROR, Some (handle_to e i))
          end
      end
  | _, _ => Ok (PM_ERR TEGRABL_ERR_INVALID 19, p)
  end.

(** ** Operations on a handle *)

Definition tegrabl_partition_size s p : res Z :=
  match p with
  | Some (mkPartition (Some q) _ _) => let* i := get_info s q in Ok (pi_total_size i)
  | _ => Ok 0
  end.

Definition tegrabl_partition_close p : option partition :=
  match p with
  | Some _ => Some zero_partition
  | None => None
  end.

(** [partition_info == NULL || block_device == NULL] *)
Definition uninitialized (q : partition) : bool :=
  match pt_info q with
  | None => true
  | Some _ => pt_block_device q =? NULL
  end.

(** The record behind an initialised handle. *)
Definition info_of s (q : partition) : res partition_info :=
  match pt_info q with
  | Some a => get_info s a
  | None => Stuck BadPointer
  end.

Definition tegrabl_partition_erase s p (secure : bool) : res (Z * pstate D H) :=
  match p with
  | None => Ok (PM_ERR TEGRABL_ERR_INVALID 1, s)
  | Some q =>
      if uninitialized q then Ok (PM_ERR TEGRABL_ERR_NOT_INITIALIZED 2, s)
      else
        let* i := info_of s q in
        let* (error, w) := tegrabl_blockdev_erase (pw s) (pt_block_device q)
          (u32 (pi_start_sector i)) (u32 (pi_num_sectors i)) secure in
        Ok (if negb (error =? TEGRABL_NO_ERROR) then PM_SET_HIGHEST error else error,
            set_pw s w)
  end.

(** Byte offset of the handle's position on the device. *)
Definition device_offset (d : bdev D) (i : partition_info) (q : partition) : Z :=
  u64 (pt_offset q + u64 (Z.shiftl (pi_start_sector i) (bd_block_size_log2 d))).

(** The offset advances even when the write fails. *)
Definition tegrabl_partition_write s p (buf : Z) (data : list Z) (num_bytes : Z)
    : res (Z * option partition * pstate D H) :=
  match p with
  | None => Ok (PM_ERR TEGRABL_ERR_INVALID 2, p, s)
  | Some q =>
      if (buf =? NULL) || (num_bytes =? 0) then Ok (PM_ERR TEGRABL_ERR_INVALID 2, p, s)
      else if uninitialized q then Ok (PM_ERR TEGRABL_ERR_NOT_INITIALIZED 3, p, s)
      else
        let* i := info_of s q in
        if pi_total_size i <? u64 (num_bytes + pt_offset q)
        then Ok (PM_ERR TEGRABL_ERR_OVERFLOW 0, p, s)
        else
          let* d := get_dev (pw s) (pt_block_device q) in
          let* (error, w) := tegrabl_blockdev_write (pw s) (pt_block_device q) buf data
            (device_offset d i q) num_bytes in
          Ok (if negb (error =? TEGRABL_NO_ERROR) then PM_SET_HIGHEST error else error,
              Some (set_offset q (u64 (pt_offset q + num_bytes))), set_pw s w)
  end.

(** Returns the error and [*start] if it is stored. *)
Definition tegrabl_partition_start_in_block s p (start : Z) : res (Z * option Z) :=
  match p with
  | None => Ok (PM_ERR TEGRABL_ERR_INVALID 3, None)
  | Some q =>
      if start =? NULL then Ok (PM_ERR TEGRABL_ERR_INVALID 3, None)
      else
        match pt_info q with
        | None => Ok (PM_ERR TEGRABL_ERR_NOT_INITIALIZED 4, None)
        | Some a => let* i := get_info s a in
                    Ok (TEGRABL_NO_ERROR, Some (u32 (pi_start_sector i)))
        end
  end.

(** Returns the error, the bytes stored in the buffer and the handle. *)
Definition tegrabl_partition_read s p (buf num_bytes : Z)
    : res (Z * list Z * option partition * pstate D H) :=
  match p with
  | None => Ok (PM_ERR TEGRABL_ERR_INVALID 4, [], p, s)
  | Some q =>
      if (buf =? NULL) || (num_bytes =? 0) then Ok (PM_ERR TEGRABL_ERR_INVALID 4, [], p, s)
      else if uninitialized q then Ok (PM_ERR TEGRABL_ERR_NOT_INITIALIZED 4, [], p, s)
      else
        let* i := info_of s q in
        if pi_total_size i <? u64 (num_bytes + pt_offset q)
        then Ok (PM_ERR TEGRABL_ERR_OVERFLOW 1, [], p, s)
        else
          let* d := get_dev (pw s) (pt_block_device q) in
          let* (error, data, w) := tegrabl_blockdev_read (pw s) (pt_block_device q) buf
            (device_offset d i q) num_bytes in
          if negb (error =? TEGRABL_NO_ERROR)
          then Ok (PM_SET_HIGHEST error, data, p, set_pw s w)
          else Ok (error, data, Some (set_offset q (u64 (pt_offset q + num_bytes))), set_pw s w)
  end.

(** [offset] is an [int64_t]; the sum is kept in 64 bits. *)
Definition tegrabl_partition_seek s p (offset origin : Z) : res (Z * option partition) :=
  match p with
  | None => Ok (PM_ERR TEGRABL_ERR_INVALID 5, p)
  | Some q =>
      if uninitialized q then Ok (PM_ERR TEGRABL_ERR_NOT_INITIALIZED 5, p)
      else
        let* i := info_of s q in
        let base :=
          if origin =? TEGRABL_PARTITION_SEEK_SET then Some 0
          else if origin =? TEGRABL_PARTITION_SEEK_CUR then Some (s64 (pt_offset q))
          else if origin =? TEGRABL_PARTITION_SEEK_END then Some (s64 (pi_total_size i))
          else None in
        match base with
        | None => Ok (PM_ERR TEGRABL_ERR_INVALID 6, p)
        | Some base =>
            let new_offset := s64 (base + offset) in
            if new_offset <? 0 then Ok (PM_ERR TEGRABL_ERR_UNDERFLOW 0, p)
            else if pi_total_size i <? u64 new_offset
            then Ok (PM_ERR TEGRABL_ERR_OVERFLOW 2, p)
            else Ok (TEGRABL_NO_ERROR, Some (set_offset q (u64 new_offset)))
        end
  end.

Definition tegrabl_partition_tell p : Z :=
  match p with
  | None => -1
  | Some q => if uninitialized q then -1 else s64 (pt_offset q)
  end.

(** ** Asynchronous transfers *)

(** The shared text of the two routines; they differ in their error numbers only.
    [fresh] is what the allocated structure holds before its fields are set. *)
Definition async_transfer s p (fresh : xfer_info) (buf start_sector num_sectors aux : Z)
    : res (Z * option xfer_info * pstate D H) :=
  match p with
  | None => Ok (PM_ERR TEGRABL_ERR_INVALID aux, None, s)
  | Some q =>
      if (buf =? NULL) || (num_sectors =? 0)
      then Ok (PM_ERR TEGRABL_ERR_INVALID aux, None, s)
      else if uninitialized q then Ok (PM_ERR TEGRABL_ERR_INVALID (aux + 1), None, s)
      else
        let* i := info_of s q in
        if pi_num_sectors i <? u64 (start_sector + num_sectors)
        then Ok (PM_ERR TEGRABL_ERR_INVALID (aux + 2), None, s)
        else
          let '(a, h) := heap_malloc (heap (pw s)) sizeof_xfer_info in
          let s := set_pw s (set_heap (pw s) h) in
          if a =? NULL then Ok (PM_ERR TEGRABL_ERR_INVALID (aux + 3), None, s)
          else
            let xfer := mkXfer (pt_block_device q) TEGRABL_BLOCKDEV_READ buf
              (u32 (pi_start_sector i + start_sector)) (u32 num_sectors) true
              (xi_is_secure_erase fresh) (xi_id fresh) (xi_xfer_status fresh) in
            let* (err, xfer, w) := tegrabl_blockdev_xfer (pw s) (Some xfer) in
            Ok (err, xfer, set_pw s w)
  end.

Definition tegrabl_partition_async_read s p fresh (buf start_sector num_sectors : Z) :=
  async_transfer s p fresh buf start_sector num_sectors 7.

(** The transfer type is [TEGRABL_BLOCKDEV_READ] here as well. *)
Definition tegrabl_partition_async_write s p fresh (buf start_sector num_sectors : Z) :=
  async_transfer s p fresh buf start_sector num_sectors 11.

(** ** Publishing devices *)

(** A partition table reader: error, array, its records, their number. *)
Definition publisher : Type :=
  world D H -> Z -> Z -> res (Z * Z * list partition_info * Z * world D H).

Definition publish_partition : list publisher := [tegrabl_gpt_publish].

(** How the loop over the publishers ends. *)
Inductive publish_end :=
| PublishBreak          (* a reader succeeded, the device was added *)
| PublishNoMemory       (* goto fail *)
| PublishExhausted.     (* i >= array_size *)

Fixpoint publish_loop s (dev offset : Z) (ps : list publisher)
    : res (publish_end * pstate D H) :=
  match ps with
  | [] => Ok (PublishExhausted, s)
  | f :: ps =>
      let* (error, a, parts, num, w) := f (pw s) dev offset in
      let s := set_pw s w in
      if negb (error =? TEGRABL_NO_ERROR) then publish_loop s dev offset ps
      else
        let '(e, h) := heap_malloc (heap (pw s)) sizeof_storage_info in
        let s := set_pw s (set_heap (pw s) h) in
        let s := mkPstate (pw s) (storage_list s) (<[a := parts]> (tables s)) in
        if e =? NULL then Ok (PublishNoMemory, s)
        else
          match storage_list s with
          | None => Stuck BadPointer
          | Some l =>
              Ok (PublishBreak,
                  mkPstate (pw s) (Some (mkStorage e dev num a :: l)) (tables s))
          end
  end.

Definition mark_published s (dev : Z) (b : bool) : res (pstate D H) :=
  let* d := get_dev (pw s) dev in
  Ok (set_pw s (set_dev (pw s) dev (set_published d b))).

Definition tegrabl_partition_publish s (dev offset : Z) : res (Z * pstate D H) :=
  if dev =? NULL then Ok (PM_ERR TEGRABL_ERR_INVALID 15, s)
  else
    let* d := get_dev (pw s) dev in
    if bd_published d then Ok (TEGRABL_NO_ERROR, s)
    else
      let* (ended, s) := publish_loop s dev offset publish_partition in
      match ended with
      | PublishNoMemory => Ok (PM_ERR TEGRABL_ERR_NO_MEMORY 0, s)
      | PublishBreak =>
          let* s := mark_published s dev true in Ok (TEGRABL_NO_ERROR, s)
      | PublishExhausted =>
          let* s := mark_published s dev false in
          Ok (PM_ERR TEGRABL_ERR_NOT_SUPPORTED 0, s)
      end.

(** The first entry whose device has the identity of [dev] leaves the list; the
    array and the entry are freed. *)
Fixpoint remove_storage w (id : Z) (l : list storage_info)
    : res (option storage_info * list storage_info) :=
  match l with
  | [] => Ok (None, [])
  | e :: l =>
      let* d := get_dev w (si_bdev e) in
      if bd_device_id d =? id then Ok (Some e, l)
      else let* (r, l) := remove_storage w id l in Ok (r, e :: l)
  end.

Definition tegrabl_partitions_unpublish s (dev : Z) : res (Z * pstate D H) :=
  if dev =? NULL then Ok (PM_ERR TEGRABL_ERR_INVALID 16, s)
  else
    let* d := get_dev (pw s) dev in
    if negb (bd_published d) then Ok (TEGRABL_NO_ERROR, s)
    else
      match storage_list s with
      | None => Ok (PM_ERR TEGRABL_ERR_NOT_INITIALIZED 0, s)
      | Some l =>
          let* (r, l') := remove_storage (pw s) (bd_device_id d) l in
          let* s :=
            match r with
            | None => Ok s
            | Some e =>
                let* w := tegrabl_free (pw s) (si_partitions e) in
                let* w := tegrabl_free w (si_addr e) in
                Ok (mkPstate w (Some l') (delete (si_partitions e) (tables s)))
            end in
          let* s := mark_published s dev false in
          Ok (TEGRABL_NO_ERROR, s)
      end.

(** [while ((dev = tegrabl_blockdev_next_device(dev)) != NULL) body], for at most
    [fuel] devices. *)
Fixpoint each_device (fuel : nat) s (dev : Z) (body : pstate D H -> Z -> res (pstate D H))
    : res (pstate D H) :=
  let* dev := tegrabl_blockdev_next_device (pw s) dev in
  if dev =? NULL then Ok s
  else
    match fuel with
    | O => Stuck OutOfFuel
    | S fuel => let* s := body s dev in each_device fuel s dev body
    end.

(** One round of the loop for each registered device. *)
Definition device_fuel s : nat :=
  match bdevs (pw s) with
  | Some l => length l
  | None => O
  end.

(** The result of publishing a device is dropped. *)
Definition init_body s (dev : Z) : res (pstate D H) :=
  let* t := tegrabl_blockdev_get_storage_type (pw s) dev in
  if negb (t =? TEGRABL_STORAGE_SDMMC_RPMB)
  then let* (_, s) := tegrabl_partition_publish s dev 0 in Ok s
  else Ok s.

Definition tegrabl_partition_manager_init s : res (Z * pstate D H) :=
  let '(a, h) := heap_malloc (heap (pw s)) sizeof_list_node in
  let s := set_pw s (set_heap (pw s) h) in
  if a =? NULL then Ok (PM_ERR TEGRABL_ERR_NO_MEMORY 1, mkPstate (pw s) None (tables s))
  else
    let s := mkPstate (pw s) (Some []) (tables s) in
    let* s := each_device (device_fuel s) s NULL init_body in
    Ok (TEGRABL_NO_ERROR, s).

(** The device itself is passed as the argument of the request. *)
Definition flush_body s (dev : Z) : res (pstate D H) :=
  let* (_, _, w) := tegrabl_blockdev_ioctl (pw s) dev TEGRABL_IOCTL_DEVICE_CACHE_FLUSH dev in
  Ok (set_pw s w).

Definition tegrabl_partition_manager_flush_cache s : res (pstate D H) :=
  each_device (device_fuel s) s NULL flush_body.

End Ops.
