(* ===== verification/PartitionFacts.v ===== *)
(** Correctness of the partition manager: which partition a name opens, how the
    position moves, and that transfers through a handle stay in the partition. *)

From S2P Require Import Prelude TegraError BlockDev BlockDevFacts BlockDevProps Gpt.
From S2P Require Import GptFacts GptProps AbNaming PartitionManager Models DemoDisk.

(** ** Looking a partition up *)

Section Lookup.
Context {D H : Type} `{BlockDriver D} `{Allocator H}.
Implicit Types (s : pstate D H).

(** All partitions in the order of the search: device by device, each array from
    its first record. *)
Definition catalog s (l : list storage_info) : list (storage_info * nat * partition_info) :=
  mbind (fun e => imap (fun i q => (e, i, q)) (default [] (tables s !! si_partitions e))) l.

(** Every listed device has its array in memory, with the announced length. *)
Definition arrays_ok s (l : list storage_info) : Prop :=
  Forall (fun e => exists t, tables s !! si_partitions e = Some t /\
    si_num_partitions e = zlen t) l.

Lemma find_part_spec f t i n :
  (i + n)%nat = length t ->
  find_part f t i n =
    Ok (i + match list_find (fun q => f q = true) (drop i t) with
            | Some (k, _) => k
            | None => n
            end)%nat.
Proof.
  revert i. induction n as [|n IH]; intros i Hi; cbn [find_part].
  { rewrite drop_ge by lia. simpl. f_equal. lia. }
  destruct (lookup_lt_is_Some_2 t i) as [q Eq]; [lia|].
  rewrite Eq, (drop_S _ _ _ Eq). cbn [list_find].
  destruct (f q) eqn:Ef.
  - rewrite decide_True by done. f_equal. lia.
  - rewrite decide_False by congruence. rewrite IH by lia.
    destruct (list_find _ (drop (S i) t)) as [[k q']|]; simpl; f_equal; lia.
Qed.

Lemma find_imap (f : partition_info -> bool) (e : storage_info) (t : list partition_info) (o : nat) :
  find (fun '(_, _, q) => f q) (imap (fun i q => (e, (o + i)%nat, q)) t) =
  match list_find (fun q => f q = true) t with
  | Some (k, q) => Some (e, (o + k)%nat, q)
  | None => None
  end.
Proof.
  revert o. induction t as [|q t IH]; intros o; [done|]. cbn [imap find list_find].
  destruct (f q) eqn:Ef.
  - rewrite decide_True by done. done.
  - rewrite decide_False by congruence.
    rewrite (imap_ext _ (fun i q => (e, (S o + i)%nat, q))) by (intros; simpl; do 2 f_equal; lia).
    rewrite IH. destruct (list_find _ t) as [[k q']|]; simpl; [|done]. do 3 f_equal. lia.
Qed.

Lemma find_app {A} (f : A -> bool) l k :
  find f (l ++ k) = match find f l with Some x => Some x | None => find f k end.
Proof. induction l as [|a l IH]; [done|]. simpl. destruct (f a); [done|apply IH]. Qed.

Lemma scan_storage_spec s f l :
  arrays_ok s l ->
  scan_storage s f l =
    Ok (match find (fun '(_, _, q) => f q) (catalog s l) with
        | Some (e, i, _) => Some (e, i)
        | None => None
        end).
Proof.
  induction 1 as [|e l (t & Et & En) _ IH]; [done|]. cbn [scan_storage].
  unfold get_table. rewrite Et. cbn [res_bind]. rewrite En. unfold zlen at 1. rewrite Nat2Z.id.
  rewrite find_part_spec by lia. cbn [res_bind]. rewrite drop_0.
  unfold catalog. cbn [mbind list_bind]. rewrite Et. cbn [from_option id].
  rewrite find_app. pose proof (find_imap f e t 0) as Hf. cbn [Nat.add] in Hf. rewrite Hf.
  destruct (list_find _ t) as [[k q]|] eqn:Ef.
  - apply list_find_Some in Ef as (Hk & _ & _). apply lookup_lt_Some in Hk.
    destruct (Z.leb_spec (zlen t) (Z.of_nat (0 + k))); [unfold zlen in *; lia|]. done.
  - destruct (Z.leb_spec (zlen t) (Z.of_nat (0 + length t))); [|unfold zlen in *; lia].
    apply IH.
Qed.

(** Opening by name yields the first partition, in the order of the device
    list and then of the table, whose name answers to the request (equal, or equal
    up to slot A's suffix), positioned at offset 0; if there is none the result is
    [TEGRABL_ERR_NOT_FOUND] and the handle is cleared. *)
Theorem partition_open_first_match s l name p0 :
  storage_list s = Some l -> arrays_ok s l ->
  tegrabl_partition_open s (Some name) (Some p0) =
    Ok (match find (fun '(_, _, q) => match_partition_name (cstr (pi_name q)) name)
                   (catalog s l) with
        | Some (e, i, _) => (TEGRABL_NO_ERROR, Some (mkPartition (Some (si_partitions e, i)) (si_bdev e) 0))
        | None => (PM_ERR TEGRABL_ERR_NOT_FOUND 0, Some (mkPartition None NULL 0))
        end).
Proof.
  intros Hl Ha. unfold tegrabl_partition_open. rewrite Hl, scan_storage_spec by done.
  cbn [res_bind]. by destruct (find _ _) as [[[e i] q]|].
Qed.

(** ** The position *)

(** A seek moves the position to origin plus offset exactly when that lies in
    the partition (its end included), and then [tegrabl_partition_tell] reports
    it; below 0 or above the size the handle is unchanged and the error is
    [TEGRABL_ERR_UNDERFLOW] or [TEGRABL_ERR_OVERFLOW].  Sums outside 64 bits are
    excluded. *)
Theorem partition_seek_exact s q i origin offset base :
  uninitialized q = false -> info_of s q = Ok i ->
  0 <= pt_offset q < 2 ^ 63 -> 0 <= pi_total_size i < 2 ^ 63 ->
  (origin, base) ∈ [(TEGRABL_PARTITION_SEEK_SET, 0); (TEGRABL_PARTITION_SEEK_CUR, pt_offset q);
                    (TEGRABL_PARTITION_SEEK_END, pi_total_size i)] ->
  - 2 ^ 63 <= base + offset < 2 ^ 63 ->
  tegrabl_partition_seek s (Some q) offset origin =
    Ok (if base + offset <? 0 then (PM_ERR TEGRABL_ERR_UNDERFLOW 0, Some q)
        else if pi_total_size i <? base + offset then (PM_ERR TEGRABL_ERR_OVERFLOW 2, Some q)
        else (TEGRABL_NO_ERROR, Some (set_offset q (base + offset)))) /\
  (0 <= base + offset -> tegrabl_partition_tell (Some (set_offset q (base + offset))) = base + offset).
Proof.
  intros Hu Hi Ho Ht Hin Hr. split.
  - unfold tegrabl_partition_seek. rewrite Hu, Hi. cbn [res_bind].
    assert (Hb : (if origin =? TEGRABL_PARTITION_SEEK_SET then Some 0
      else if origin =? TEGRABL_PARTITION_SEEK_CUR then Some (s64 (pt_offset q))
      else if origin =? TEGRABL_PARTITION_SEEK_END then Some (s64 (pi_total_size i))
      else None) = Some base).
    { rewrite !s64_small by lia. rewrite !elem_of_cons in Hin.
      destruct Hin as [E|[E|[E|E]]]; [injection E as -> ->..|]; try done.
      by apply not_elem_of_nil in E. }
    rewrite Hb, s64_small by lia. destruct (Z.ltb_spec (base + offset) 0); [done|].
    rewrite u64_small by lia. by destruct (_ <? _).
  - intros Hp. unfold tegrabl_partition_tell.
    change (uninitialized (set_offset q (base + offset))) with (uninitialized q). rewrite Hu.
    cbn. apply s64_small. lia.
Qed.
End Lookup.

(** ** Transfers through a handle *)

Section Transfer.
Context {D H : Type} `{BlockDriver D, !ReliableDriver D} `{Allocator H, !AllocatorLaws H}.
Implicit Types (s : pstate D H) (q : partition) (i : partition_info) (d : bdev D).

(** A handle [q] to the partition [i] of the usable device [d]: the partition lies
    on the device and the record's size is that of its sectors. *)
Record handle_ok s q i d : Prop := {
  ho_init : uninitialized q = false;
  ho_info : info_of s q = Ok i;
  ho_dev : devs (pw s) !! pt_block_device q = Some d;
  ho_addr : 0 < pt_block_device q;
  ho_geom : geom d;
  ho_media : media d (bd_priv d);
  ho_start : 0 <= pi_start_sector i;
  ho_num : 0 <= pi_num_sectors i;
  ho_end : pi_start_sector i + pi_num_sectors i <= bd_block_count d;
  ho_size : pi_total_size i = pi_num_sectors i * 2 ^ bd_block_size_log2 d
}.

(** Bytes of heap a transfer of [len] bytes can need for bounce buffers. *)
Definition bounce_cost d (len : Z) : Z :=
  alloc_cost 8 (2 ^ bd_block_size_log2 d) + alloc_cost 8 len.

(** First byte of the partition on the device. *)
Definition part_start d i : Z := pi_start_sector i * 2 ^ bd_block_size_log2 d.

(** The content of the partition. *)
Definition part_bytes d i : list Z :=
  slice (part_start d i) (pi_total_size i) (drv_bytes (bd_priv d)).

Lemma handle_bounds s q i d :
  handle_ok s q i d ->
  0 <= part_start d i /\ 0 <= pi_total_size i /\
  part_start d i + pi_total_size i <= bd_size d /\ bd_size d < 2 ^ 63 /\
  zlen (drv_bytes (bd_priv d)) = bd_size d.
Proof.
  intros [Hu Hi Hd Ha G M Hs Hn He Hz]. unfold part_start. rewrite Hz.
  pose proof (geom_size_bound _ G). pose proof (g_size _ G) as Hsz.
  pose proof (pow2_pos _ (proj1 (g_lg _ G))). rewrite Hsz in *.
  pose proof (proj2 M). repeat split; nia.
Qed.

Lemma handle_ready s q i d buf len r :
  handle_ok s q i d -> 0 < buf -> 0 <= pt_offset q -> 0 < len ->
  pt_offset q + len <= pi_total_size i -> heap_room (heap (pw s)) r -> bounce_cost d len <= r ->
  device_offset d i q = part_start d i + pt_offset q /\
  (pi_total_size i <? u64 (len + pt_offset q)) = false /\
  u64 (pt_offset q + len) = pt_offset q + len /\
  ready (pw s) (pt_block_device q) d buf (part_start d i + pt_offset q) len r.
Proof.
  intros Hq Hb Ho Hl He Hr Hc. destruct (handle_bounds _ _ _ _ Hq) as (B1 & B2 & B3 & B4 & B5).
  destruct Hq as [Hu Hi Hd Ha G M Hs Hn Hend Hz].
  split; [|split; [|split]].
  - unfold device_offset. rewrite Z.shiftl_mul_pow2 by apply (g_lg _ G).
    fold (part_start d i). rewrite (u64_small (part_start d i)) by lia. rewrite u64_small by lia. lia.
  - rewrite u64_small by lia. apply Z.ltb_ge. lia.
  - apply u64_small. lia.
  - split; auto; lia.
Qed.

Lemma partition_read_ok s q i d buf len r :
  handle_ok s q i d -> 0 < buf -> 0 <= pt_offset q -> 0 < len ->
  pt_offset q + len <= pi_total_size i -> heap_room (heap (pw s)) r -> bounce_cost d len <= r ->
  exists x h, tegrabl_partition_read s (Some q) buf len =
      Ok (TEGRABL_NO_ERROR, slice (part_start d i + pt_offset q) len (drv_bytes (bd_priv d)),
          Some (set_offset q (pt_offset q + len)),
          set_pw s (put (pw s) (pt_block_device q) d x h)) /\
    media d x /\ drv_bytes x = drv_bytes (bd_priv d) /\ heap_room h (r - bounce_cost d len).
Proof.
  intros Hq Hb Ho Hl He Hr Hc.
  destruct (handle_ready _ _ _ _ _ _ _ Hq Hb Ho Hl He Hr Hc) as (E1 & E2 & E3 & R).
  destruct (blockdev_read_put _ _ _ _ _ _ _ R) as (x & h & E & M' & Hx & Hr').
  exists x, h. split.
  - unfold tegrabl_partition_read, NULL. destruct (Z.eqb_spec buf 0); [lia|].
    destruct (Z.eqb_spec len 0); [lia|]. cbn [orb].
    rewrite (ho_init _ _ _ _ Hq), (ho_info _ _ _ _ Hq). cbn [res_bind]. rewrite E2.
    unfold get_dev. rewrite (ho_dev _ _ _ _ Hq). cbn [res_bind]. rewrite E1, E. cbn [res_bind].
    change (negb (TEGRABL_NO_ERROR =? TEGRABL_NO_ERROR)) with false. cbv iota. by rewrite E3.
  - unfold bounce_cost. rewrite Z.sub_add_distr. auto.
Qed.

Lemma partition_write_ok s q i d buf data len r :
  handle_ok s q i d -> 0 < buf -> 0 <= pt_offset q -> 0 < len -> zlen data = len ->
  pt_offset q + len <= pi_total_size i -> heap_room (heap (pw s)) r -> bounce_cost d len <= r ->
  exists x h, tegrabl_partition_write s (Some q) buf data len =
      Ok (TEGRABL_NO_ERROR, Some (set_offset q (pt_offset q + len)),
          set_pw s (put (pw s) (pt_block_device q) d x h)) /\
    media d x /\
    drv_bytes x = splice (part_start d i + pt_offset q) data (drv_bytes (bd_priv d)) /\
    heap_room h (r - bounce_cost d len).
Proof.
  intros Hq Hb Ho Hl Hdl He Hr Hc.
  destruct (handle_ready _ _ _ _ _ _ _ Hq Hb Ho Hl He Hr Hc) as (E1 & E2 & E3 & R).
  destruct (blockdev_write_put _ _ _ _ data _ _ _ R Hdl) as (x & h & E & M' & Hx & Hr').
  exists x, h. split.
  - unfold tegrabl_partition_write, NULL. destruct (Z.eqb_spec buf 0); [lia|].
    destruct (Z.eqb_spec len 0); [lia|]. cbn [orb].
    rewrite (ho_init _ _ _ _ Hq), (ho_info _ _ _ _ Hq). cbn [res_bind]. rewrite E2.
    unfold get_dev. rewrite (ho_dev _ _ _ _ Hq). cbn [res_bind]. rewrite E1, E. cbn [res_bind].
    change (negb (TEGRABL_NO_ERROR =? TEGRABL_NO_ERROR)) with false. cbv iota. by rewrite E3.
  - unfold bounce_cost. rewrite Z.sub_add_distr. auto.
Qed.

(** A handle stays usable when the medium of its device changes. *)
Lemma handle_ok_put s q q' i i' d x h :
  handle_ok s q i d -> handle_ok s q' i' d -> pt_block_device q' = pt_block_device q ->
  media d x ->
  handle_ok (set_pw s (put (pw s) (pt_block_device q) d x h)) q' i' (set_priv d x).
Proof.
  intros Hq [Hu Hi Hd Ha G M Hs Hn He Hz] Ed M'.
  split; try done; [|by destruct G].
  cbn [set_pw pw]. rewrite Ed. apply put_lookup.
Qed.

Lemma handle_ok_offset s q i d o : handle_ok s q i d -> handle_ok s (set_offset q o) i d.
Proof. by intros [? ? ? ? ? ? ? ? ? ?]. Qed.

(** Reading through a handle returns the bytes of the partition at the current
    position and moves the position behind them, for every length that stays in
    the partition. *)
Theorem partition_read_exact s q i d buf len r :
  handle_ok s q i d -> 0 < buf -> 0 <= pt_offset q -> 0 < len ->
  pt_offset q + len <= pi_total_size i -> heap_room (heap (pw s)) r -> bounce_cost d len <= r ->
  exists s', tegrabl_partition_read s (Some q) buf len =
      Ok (TEGRABL_NO_ERROR, slice (pt_offset q) len (part_bytes d i),
          Some (set_offset q (pt_offset q + len)), s').
Proof.
  intros Hq Hb Ho Hl He Hr Hc.
  destruct (partition_read_ok s q i d buf len r Hq Hb Ho Hl He Hr Hc) as (x & h & E & _).
  eexists. rewrite E. unfold part_bytes.
  destruct (handle_bounds _ _ _ _ Hq) as (B1 & _). by rewrite slice_slice by lia.
Qed.

(** C35: after writing [data] through one handle, another handle [q'] on the same
    device reads: the data, if it stands where the first one stood; the old bytes,
    if its partition and the written one do not share a sector. *)
Theorem partition_write_isolated s q i d buf data len q' i' buf' len' r :
  handle_ok s q i d -> 0 < buf -> 0 <= pt_offset q -> 0 < len -> zlen data = len ->
  pt_offset q + len <= pi_total_size i ->
  handle_ok s q' i' d -> pt_block_device q' = pt_block_device q ->
  0 < buf' -> 0 <= pt_offset q' -> 0 < len' -> pt_offset q' + len' <= pi_total_size i' ->
  heap_room (heap (pw s)) r -> bounce_cost d len + bounce_cost d len' <= r ->
  exists s1 p1 s2 p2 read, tegrabl_partition_write s (Some q) buf data len =
      Ok (TEGRABL_NO_ERROR, p1, s1) /\
    tegrabl_partition_read s1 (Some q') buf' len' = Ok (TEGRABL_NO_ERROR, read, p2, s2) /\
    (i' = i -> pt_offset q' = pt_offset q -> len' = len -> read = data) /\
    (pi_start_sector i' + pi_num_sectors i' <= pi_start_sector i \/
     pi_start_sector i + pi_num_sectors i <= pi_start_sector i' ->
     read = slice (pt_offset q') len' (part_bytes d i')).
Proof.
  intros Hq Hb Ho Hl Hdl He Hq' Ed Hb' Ho' Hl' He' Hr Hc.
  assert (Hpos : 0 < bounce_cost d len') by
    (unfold bounce_cost, alloc_cost; pose proof (pow2_pos _ (proj1 (g_lg _ (ho_geom _ _ _ _ Hq)))); lia).
  destruct (partition_write_ok s q i d buf data len r) as (x & h & E & M & Hx & Hr1);
    [done..|lia|].
  destruct (partition_read_ok (set_pw s (put (pw s) (pt_block_device q) d x h)) q' i'
    (set_priv d x) buf' len' (r - bounce_cost d len)) as (x2 & h2 & E2 & _);
    [by eapply handle_ok_put|done|done|done|done|done| |].
  { change (bounce_cost (set_priv d x) len') with (bounce_cost d len'). lia. }
  change (part_start (set_priv d x) i') with (part_start d i') in E2.
  cbn [set_priv bd_priv] in E2. rewrite Hx in E2.
  destruct (handle_bounds _ _ _ _ Hq) as (B1 & B2 & B3 & B4 & B5).
  destruct (handle_bounds _ _ _ _ Hq') as (C1 & C2 & C3 & C4 & C5).
  eexists _, _, _, _, _. split; [exact E|]. split; [exact E2|]. split.
  - intros -> -> ->. rewrite <- Hdl. apply slice_splice_same; lia.
  - intros Hdis. unfold part_bytes. rewrite slice_slice by lia.
    pose proof (ho_size _ _ _ _ Hq) as Z1. pose proof (ho_size _ _ _ _ Hq') as Z2.
    pose proof (pow2_pos _ (proj1 (g_lg _ (ho_geom _ _ _ _ Hq)))).
    apply slice_splice_other; try lia. unfold part_start in *.
    destruct Hdis; [left|right]; nia.
Qed.

(** A read or write that would pass the end of the partition is refused with
    [TEGRABL_ERR_OVERFLOW]; the handle, the medium and all other state stay as they
    were.  The sum of position and length must stay in 64 bits. *)
Theorem partition_overrun_refused s q i buf data len :
  uninitialized q = false -> info_of s q = Ok i -> 0 < buf -> 0 < len ->
  0 <= pt_offset q -> pi_total_size i < pt_offset q + len < 2 ^ 64 ->
  tegrabl_partition_read s (Some q) buf len =
    Ok (PM_ERR TEGRABL_ERR_OVERFLOW 1, [], Some q, s) /\
  tegrabl_partition_write s (Some q) buf data len =
    Ok (PM_ERR TEGRABL_ERR_OVERFLOW 0, Some q, s).
Proof.
  intros Hu Hi Hb Hl Ho Hr. unfold tegrabl_partition_read, tegrabl_partition_write, NULL.
  destruct (Z.eqb_spec buf 0); [lia|]. destruct (Z.eqb_spec len 0); [lia|]. cbn [orb].
  rewrite Hu, Hi. cbn [res_bind]. rewrite u64_small by lia.
  destruct (Z.ltb_spec (pi_total_size i) (len + pt_offset q)); [done|lia].
Qed.
End Transfer.
