(* ===== verification/PartitionProps.v ===== *)
(** Publishing devices: a disk with a valid table becomes visible by name,
    unpublishing takes it away again, and the device loops terminate.  Also the
    statements of the partition manager at concrete inputs. *)

From S2P Require Import Prelude TegraError BlockDev BlockDevFacts BlockDevProps Gpt.
From S2P Require Import GptFacts GptProps AbNaming PartitionManager PartitionFacts.
From S2P Require Import Models DemoDisk.

Section Publish.
Context {D H : Type} `{BlockDriver D, !ReliableDriver D} `{Allocator H, !AllocatorLaws H}.
Implicit Types (s : pstate D H) (d : bdev D).

(** An unpublished device with an intact table at block [lba], the primary one or
    the backup one behind a damaged primary header, and heap to publish it. *)
Record publishable s (l : list storage_info) (dev : Z) d (lba r : Z) : Prop := {
  pb_device : gpt_device (pw s) dev d;
  pb_new : bd_published d = false;
  pb_list : storage_list s = Some l;
  pb_room : heap_room (heap (pw s)) r;
  pb_cost : publish_room d (drv_bytes (bd_priv d)) lba + alloc_cost 8 sizeof_storage_info <= r;
  pb_parts : parts_at d (drv_bytes (bd_priv d)) lba <> [];
  pb_valid : gpt_valid_at (2 ^ bd_block_size_log2 d) (bd_block_count d)
               (drv_bytes (bd_priv d)) lba;
  pb_where : lba = 1 \/ lba = bd_block_count d - 1 /\
    ~ header_valid (header_image (2 ^ bd_block_size_log2 d) (drv_bytes (bd_priv d)) 1)
        (bd_block_count d)
}.

Definition found_parts d (lba : Z) : list partition_info :=
  parts_at d (drv_bytes (bd_priv d)) lba.

Lemma publish_device_ok s l dev d lba r :
  publishable s l dev d lba r ->
  exists e a x h, tegrabl_partition_publish s dev 0 =
      Ok (TEGRABL_NO_ERROR,
          mkPstate (put (pw s) dev (set_published d true) x h)
            (Some (mkStorage e dev (zlen (found_parts d lba)) a :: l))
            (<[a := found_parts d lba]> (tables s))) /\
    0 < e /\ 0 < a /\ e <> a /\ heap_live h e /\ heap_live h a /\ heap_room h 0.
Proof.
  intros [[Hd Ha G M Hb Hc Hok] Hnew Hl Hr Hcost Hne V Hw].
  destruct (publish_ok (pw s) dev d (drv_bytes (bd_priv d)) G Ha Hb (proj2 M) Hok
    (bd_priv d) (heap (pw s)) r lba) as (a & x & h & Hap & Hal & M' & Hx & Hr' & E);
    [done|done|done|unfold alloc_cost, sizeof_storage_info in *; lia|done|done|done|done|].
  rewrite put_id in E by done.
  destruct (malloc_granted h sizeof_storage_info _ Hr')
    as (e & h2 & Ee & Hep & _ & Hel & Hef & Hr2 & Hk);
    [done|unfold alloc_cost, sizeof_storage_info in *; lia|].
  exists e, a, x, h2. split.
  - unfold tegrabl_partition_publish, NULL. destruct (Z.eqb_spec dev 0); [lia|].
    unfold get_dev. rewrite Hd. cbn [res_bind]. rewrite Hnew.
    unfold publish_partition. cbn [publish_loop]. rewrite E. cbn [res_bind].
    change (negb (TEGRABL_NO_ERROR =? TEGRABL_NO_ERROR)) with false. cbv iota.
    cbn [set_pw pw heap put]. rewrite Ee. unfold NULL. destruct (Z.eqb_spec e 0); [lia|].
    cbn [storage_list set_pw tables]. rewrite Hl. cbn [res_bind pw tables].
    unfold mark_published. cbn [pw]. rewrite set_heap_put, get_dev_put. cbn [res_bind]. unfold set_pw, set_dev, put. cbn [bdevs devs heap xfer_id pw].
    rewrite insert_insert_eq. reflexivity.
  - split; [lia|]. split; [lia|]. split; [by intros ->|]. split; [done|]. split; [auto|].
    eapply heap_room_weaken; [done|]. unfold alloc_cost, sizeof_storage_info in *. lia.
Qed.

(** C13: publishing a device with an intact table makes its partitions available:
    opening any name that a record of the table answers to gives a handle to the
    first such record, and the device is marked published. *)
Theorem publish_then_open s l dev d lba r name k q p0 :
  publishable s l dev d lba r ->
  list_find (fun q => match_partition_name (cstr (pi_name q)) name = true)
    (found_parts d lba) = Some (k, q) ->
  exists s' a, tegrabl_partition_publish s dev 0 = Ok (TEGRABL_NO_ERROR, s') /\
    tegrabl_partition_open s' (Some name) (Some p0) =
      Ok (TEGRABL_NO_ERROR, Some (mkPartition (Some (a, k)) dev 0)) /\
    get_info s' (a, k) = Ok q /\
    (exists d', devs (pw s') !! dev = Some d' /\ bd_published d' = true).
Proof.
  intros P Hf. destruct (publish_device_ok _ _ _ _ _ _ P) as (e & a & x & h & E & _).
  pose proof Hf as Hf'. apply list_find_Some in Hf' as (Hk & _ & _).
  pose proof (lookup_lt_Some _ _ _ Hk) as Hlt.
  eexists _, a. split; [exact E|]. split; [|split].
  - unfold tegrabl_partition_open. cbn [storage_list scan_storage si_partitions si_num_partitions].
    unfold get_table. cbn [tables]. rewrite lookup_insert_eq. cbn [res_bind].
    unfold zlen at 1. rewrite Nat2Z.id, find_part_spec by lia. cbn [res_bind].
    rewrite drop_0, Hf. cbn [Nat.add].
    destruct (Z.leb_spec (zlen (found_parts d lba)) (Z.of_nat k)); [unfold zlen in *; lia|]. done.
  - unfold get_info, get_table. cbn [fst snd tables]. rewrite lookup_insert_eq.
    cbn [res_bind]. by rewrite Hk.
  - cbn [pw put devs]. rewrite lookup_insert_eq. eauto.
Qed.

(** Unpublishing right after publishing succeeds, restores the device list and
    clears the mark, so that the device can be published again. *)
Theorem publish_unpublish s l dev d lba r :
  publishable s l dev d lba r ->
  exists s1 s2, tegrabl_partition_publish s dev 0 = Ok (TEGRABL_NO_ERROR, s1) /\
    tegrabl_partitions_unpublish s1 dev = Ok (TEGRABL_NO_ERROR, s2) /\
    storage_list s2 = Some l /\
    (exists d', devs (pw s2) !! dev = Some d' /\ bd_published d' = false).
Proof.
  intros P. destruct (publish_device_ok _ _ _ _ _ _ P)
    as (e & a & x & h & E & Hep & Hap & Hne & Hel & Hal & Hr).
  destruct (dealloc_accepted h TEGRABL_HEAP_DEFAULT a 0 Hal Hr) as (h1 & E1 & Hr1 & Hk1).
  destruct (dealloc_accepted h1 TEGRABL_HEAP_DEFAULT e 0 (Hk1 e Hne Hel) Hr1) as (h2 & E2 & _).
  pose proof (gd_addr _ _ _ (pb_device _ _ _ _ _ _ P)) as Hdev.
  eexists _, _. split; [exact E|]. split; [|split].
  - unfold tegrabl_partitions_unpublish. unfold NULL at 1. destruct (Z.eqb_spec dev 0); [lia|].
    cbn [pw]. rewrite get_dev_put. cbn [res_bind set_priv set_published bd_published negb storage_list].
    cbn [remove_storage si_bdev]. rewrite get_dev_put.
    cbn [res_bind set_priv set_published bd_device_id]. rewrite Z.eqb_refl. cbn [res_bind].
    unfold tegrabl_free, NULL. cbn [si_partitions si_addr pw].
    destruct (Z.eqb_spec a 0); [lia|]. cbn [heap put]. rewrite E1. cbn [res_bind].
    destruct (Z.eqb_spec e 0); [lia|]. rewrite set_heap_put. cbn [heap put]. rewrite E2.
    cbn [res_bind]. unfold mark_published. cbn [pw]. rewrite set_heap_put, get_dev_put.
    cbn [res_bind]. reflexivity.
  - reflexivity.
  - eexists. split; [apply lookup_insert_eq|]. reflexivity.
Qed.
End Publish.

(** ** The device loop *)

Section Loop.
Context {D H : Type} `{BlockDriver D} `{Allocator H}.
Implicit Types (s : pstate D H).

Fixpoint for_each s (l : list Z) (body : pstate D H -> Z -> res (pstate D H))
    : res (pstate D H) :=
  match l with
  | [] => Ok s
  | dev :: l => let* s := body s dev in for_each s l body
  end.

Lemma list_next_app l p k : p ∉ l -> list_next (l ++ p :: k) p = head k.
Proof.
  induction l as [|a l IH]; intros Hn; cbn [app list_next].
  - by rewrite Z.eqb_refl.
  - destruct (Z.eqb_spec a p); [set_solver|]. apply IH. set_solver.
Qed.

Lemma each_device_from s l1 p l2 body :
  bdevs (pw s) = Some (l1 ++ p :: l2) -> NoDup (l1 ++ p :: l2) -> NULL ∉ l1 ++ p :: l2 ->
  (forall s dev s', body s dev = Ok s' -> bdevs (pw s') = bdevs (pw s)) ->
  each_device (length l2) s p body = for_each s l2 body.
Proof.
  revert s l1 p. induction l2 as [|q l2 IH]; intros s l1 p Hb Hnd Hnn Hbody.
  - cbn [length each_device for_each]. unfold tegrabl_blockdev_next_device. rewrite Hb.
    cbn [res_bind]. destruct (Z.eqb_spec p NULL); [set_solver|].
    rewrite list_next_app by (apply NoDup_app in Hnd; set_solver). done.
  - cbn [length each_device for_each]. unfold tegrabl_blockdev_next_device. rewrite Hb.
    cbn [res_bind]. destruct (Z.eqb_spec p NULL); [set_solver|].
    rewrite list_next_app by (apply NoDup_app in Hnd; set_solver). cbn [head from_option id].
    destruct (Z.eqb_spec q NULL) as [->|]; [set_solver|].
    destruct (body s q) as [s'|] eqn:Es; [|done]. cbn [res_bind].
    replace (l1 ++ p :: q :: l2) with ((l1 ++ [p]) ++ q :: l2) in * by (by rewrite <- app_assoc).
    apply (IH s' (l1 ++ [p])); auto. by rewrite (Hbody _ _ _ Es).
Qed.

Lemma each_device_all s l body :
  bdevs (pw s) = Some l -> NoDup l -> NULL ∉ l ->
  (forall s dev s', body s dev = Ok s' -> bdevs (pw s') = bdevs (pw s)) ->
  each_device (length l) s NULL body = for_each s l body.
Proof.
  intros Hb Hnd Hnn Hbody. destruct l as [|p l].
  { cbn. unfold tegrabl_blockdev_next_device. by rewrite Hb. }
  cbn [length each_device for_each]. unfold tegrabl_blockdev_next_device. rewrite Hb.
  cbn [res_bind]. change (NULL =? NULL) with true. cbv iota. cbn [head from_option id].
  destruct (Z.eqb_spec p NULL); [set_solver|].
  destruct (body s p) as [s'|] eqn:Es; [|done]. cbn [res_bind].
  apply (each_device_from s' []); auto. by rewrite (Hbody _ _ _ Es).
Qed.

Lemma flush_body_bdevs s dev s' : flush_body s dev = Ok s' -> bdevs (pw s') = bdevs (pw s).
Proof.
  unfold flush_body, tegrabl_blockdev_ioctl, get_dev. intros E.
  destruct (_ || _); [by inv_ok|]. destruct (devs (pw s) !! dev); [|done].
  cbn [res_bind] in E. destruct (_ =? TEGRABL_IOCTL_BLOCK_SIZE); [by inv_ok|].
  destruct (bd_ioctl b); try done. destruct (drv_ioctl _ _ _) as [e x].
  cbn [res_bind] in E. destruct (negb _); by inv_ok.
Qed.

(** Flushing the caches visits every registered device exactly once, in list
    order, and terminates: the loop equals the fold over the list. *)
Theorem flush_cache_visits_all s l :
  bdevs (pw s) = Some l -> NoDup l -> NULL ∉ l ->
  tegrabl_partition_manager_flush_cache s = for_each s l flush_body.
Proof.
  intros Hb Hnd Hnn. unfold tegrabl_partition_manager_flush_cache, device_fuel. rewrite Hb.
  apply each_device_all; auto. apply flush_body_bdevs.
Qed.
End Loop.

(** ** Behaviours at the edges *)

Section Edges.
Context {D H : Type} `{BlockDriver D} `{Allocator H}.
Implicit Types (s : pstate D H).

(** Whenever [tegrabl_partition_async_write] hands a transfer to a device, its
    type is [TEGRABL_BLOCKDEV_READ]: data that should be written is read over the
    caller's buffer. *)
Theorem async_write_requests_read s q fresh i buf start num e xf s' :
  uninitialized q = false -> info_of s q = Ok i -> 0 < buf -> 0 < num ->
  tegrabl_partition_async_write s (Some q) fresh buf start num = Ok (e, Some xf, s') ->
  xi_xfer_type xf = TEGRABL_BLOCKDEV_READ /\ xi_buf xf = buf.
Proof.
  intros Hu Hi Hb Hn. unfold tegrabl_partition_async_write, async_transfer, NULL.
  destruct (Z.eqb_spec buf 0); [lia|]. destruct (Z.eqb_spec num 0); [lia|]. cbn [orb].
  rewrite Hu, Hi. cbn [res_bind]. destruct (_ <? _); [discriminate|].
  destruct (heap_malloc _ _) as [a h]. destruct (a =? 0); [discriminate|].
  unfold tegrabl_blockdev_xfer. cbn [xi_dev xi_start_block xi_block_count].
  destruct (_ =? NULL); [cbn; intros E; by inv_ok|].
  destruct (get_dev _ _) as [d|]; [|discriminate]. cbn [res_bind].
  destruct (_ || _); [cbn; intros E; by inv_ok|].
  destruct (_ <=? 0); [cbn; intros E; by inv_ok|].
  destruct (bd_xfer d); try discriminate. destruct (drv_xfer _ _) as [er x].
  destruct (negb _); cbn; intros E; by inv_ok.
Qed.

Lemma scan_guid_missed s guid bdev l last :
  arrays_ok s l ->
  (forall e t q, e ∈ l -> si_bdev e = bdev -> tables s !! si_partitions e = Some t -> q ∈ t ->
     strncasecmp_eq (cstr (pi_ptype_guid q)) guid GUID_STR_LEN = false) ->
  (is_Some last \/ exists e, e ∈ l /\ si_bdev e = bdev) ->
  exists a, scan_guid s guid bdev l last = Ok (GuidMissed (Some a)).
Proof.
  intros Ha. revert last. induction Ha as [|e l (t & Et & En) _ IH]; intros last Hno Hex;
    cbn [scan_guid].
  { destruct Hex as [[a ->]|(e & He & _)]; [eauto|]. by apply not_elem_of_nil in He. }
  destruct (Z.eqb_spec (si_bdev e) bdev) as [Eb|Eb]; cbn [negb].
  - unfold get_table. rewrite Et. cbn [res_bind]. rewrite En. unfold zlen at 1. rewrite Nat2Z.id.
    rewrite find_part_spec by lia. cbn [res_bind]. rewrite drop_0.
    destruct (list_find _ t) as [[k q]|] eqn:Ef.
    + apply list_find_Some in Ef as (Hk & Hm & _). apply list_elem_of_lookup_2 in Hk.
      specialize (Hno e t q ltac:(set_solver) Eb Et Hk). congruence.
    + destruct (Z.leb_spec (zlen t) (Z.of_nat (0 + length t))); [|unfold zlen in *; lia].
      apply IH; [|eauto]. intros e' t' q' He'. apply Hno. set_solver.
  - apply IH.
    + intros e' t' q' He'. apply Hno. set_solver.
    + destruct Hex as [?|(e' & He' & Eb')]; [by left|right].
      apply elem_of_cons in He' as [->|He']; [congruence|eauto].
Qed.

(** The fallback to the first partition never works: for a published device
    without a partition of the boot type, [tegrabl_partition_boot_guid_lookup_bdev]
    reads the device from the list head, behind the memory allocated for it. *)
Theorem boot_guid_fallback_invalid s l guid q0 bdev :
  storage_list s = Some l -> arrays_ok s l -> 0 < bdev ->
  (exists e, e ∈ l /\ si_bdev e = bdev) ->
  (forall e t q, e ∈ l -> si_bdev e = bdev -> tables s !! si_partitions e = Some t -> q ∈ t ->
     strncasecmp_eq (cstr (pi_ptype_guid q)) guid GUID_STR_LEN = false) ->
  tegrabl_partition_boot_guid_lookup_bdev s guid (Some q0) bdev = Stuck OutOfBounds.
Proof.
  intros Hl Ha Hb Hex Hno. unfold tegrabl_partition_boot_guid_lookup_bdev, NULL.
  destruct (Z.eqb_spec bdev 0); [lia|]. rewrite Hl.
  destruct (scan_guid_missed s guid bdev l None Ha Hno) as [a ->]; [by right|]. done.
Qed.
End Edges.

(** ** The statements at a concrete system *)

Definition pm_start : pstate ramdisk arena := mkPstate (gpt_world intact_disk) (Some []) ∅.

Definition pm_demo : pstate ramdisk arena :=
  match tegrabl_partition_publish pm_start 0x100 0 with
  | Ok (_, s) => s
  | Stuck _ => pm_start
  end.

(** The address of the published array and the handles to its records. *)
Definition pm_table : Z :=
  match storage_list pm_demo with
  | Some (e :: _) => si_partitions e
  | _ => 0
  end.

Definition pm_handle (k : nat) (offset : Z) : partition :=
  mkPartition (Some (pm_table, k)) 0x100 offset.

Definition pm_info (k : nat) : partition_info :=
  default (mkInfo [] [] [] 0 0 0) (found_parts (gpt_dev intact_disk) 1 !! k).

Lemma pm_publishable : publishable pm_start [] 0x100 (gpt_dev intact_disk) 1 0x800000.
Proof.
  split; [apply intact_device|reflexivity|reflexivity|by apply demo_heap_room
    |vm_compute; discriminate|vm_compute; discriminate| |by left].
  unfold gpt_valid_at, header_valid. vm_compute. repeat split; discriminate.
Qed.

Lemma pm_handle_ok k offset :
  (k < 4)%nat ->
  handle_ok pm_demo (pm_handle k offset) (pm_info k) (set_published (gpt_dev intact_disk) true).
Proof.
  intros Hk.
  assert (T : forall k, (k < 4)%nat ->
    info_of pm_demo (pm_handle k offset) = Ok (pm_info k) /\
    (0 <=? pi_start_sector (pm_info k)) && (0 <=? pi_num_sectors (pm_info k)) &&
    (pi_start_sector (pm_info k) + pi_num_sectors (pm_info k) <=? 32) &&
    (pi_total_size (pm_info k) =? pi_num_sectors (pm_info k) * 128) = true).
  { clear. intros k Hk. do 4 (destruct k as [|k]; [vm_compute; auto|]). lia. }
  destruct (T k Hk) as [Hi Hb]. zbool.
  split; [reflexivity|exact Hi|vm_compute; reflexivity|cbn; lia
    |by apply gpt_disk_geom_published|by apply gpt_disk_media|done|done|done|done].
Qed.

Lemma pm_arrays : exists l, storage_list pm_demo = Some l /\ arrays_ok pm_demo l.
Proof.
  eexists. split; [vm_compute; reflexivity|]. constructor; [|constructor].
  eexists. split; vm_compute; reflexivity.
Qed.

Lemma pm_heap : heap_room (heap (pw pm_demo)) 0x800000.
Proof. apply arena_room_test. vm_compute. reflexivity. Qed.

Lemma partition_open_first_match_witness :
  tegrabl_partition_open pm_demo (Some (name_kernel ++ BOOT_CHAIN_SUFFIX_A)) (Some zero_partition) =
    Ok (TEGRABL_NO_ERROR, Some (pm_handle 2 0)).
Proof.
  destruct pm_arrays as (l & El & Al). etransitivity.
  - exact (partition_open_first_match pm_demo l (name_kernel ++ BOOT_CHAIN_SUFFIX_A)
      zero_partition El Al).
  - vm_compute in El. injection El as <-. vm_compute. reflexivity.
Defined.

Lemma partition_seek_exact_witness :
  tegrabl_partition_seek pm_demo (Some (pm_handle 0 0)) (-6) TEGRABL_PARTITION_SEEK_END =
    Ok (TEGRABL_NO_ERROR, Some (pm_handle 0 250)).
Proof.
  etransitivity.
  - refine (proj1 (partition_seek_exact pm_demo (pm_handle 0 0) (pm_info 0)
      TEGRABL_PARTITION_SEEK_END (-6) 256 eq_refl _ _ _ _ _)).
    + vm_compute. reflexivity.
    + cbn. lia.
    + vm_compute. split; [discriminate|reflexivity].
    + right. right. left.
    + lia.
  - vm_compute. reflexivity.
Defined.

Lemma partition_read_exact_witness :
  exists s', tegrabl_partition_read pm_demo (Some (pm_handle 0 3)) 0x205 10 =
    Ok (TEGRABL_NO_ERROR, replicate 10 0, Some (pm_handle 0 13), s').
Proof.
  refine (partition_read_exact pm_demo (pm_handle 0 3) (pm_info 0) _ 0x205 10 0x800000
    (pm_handle_ok 0 3 _) _ _ _ _ pm_heap _); try lia; try (cbn; lia);
    vm_compute; discriminate.
Defined.

Lemma partition_write_isolated_witness :
  exists s1 p1 s2 p2, tegrabl_partition_write pm_demo (Some (pm_handle 0 100)) 0x205
      (seqZ 1 100) 100 = Ok (TEGRABL_NO_ERROR, p1, s1) /\
    tegrabl_partition_read s1 (Some (pm_handle 0 100)) 0x305 100 =
      Ok (TEGRABL_NO_ERROR, seqZ 1 100, p2, s2).
Proof.
  destruct (partition_write_isolated pm_demo (pm_handle 0 100) (pm_info 0) _ 0x205
    (seqZ 1 100) 100 (pm_handle 0 100) (pm_info 0) 0x305 100 0x800000
    (pm_handle_ok 0 100 ltac:(lia)) ltac:(lia) ltac:(cbn; lia) ltac:(lia) eq_refl
    ltac:(vm_compute; discriminate) (pm_handle_ok 0 100 ltac:(lia)) eq_refl ltac:(lia)
    ltac:(cbn; lia) ltac:(lia) ltac:(vm_compute; discriminate) pm_heap
    ltac:(vm_compute; discriminate)) as (s1 & p1 & s2 & p2 & rd & E1 & E2 & Hsame & _).
  exists s1, p1, s2, p2. rewrite (Hsame eq_refl eq_refl eq_refl) in E2. auto.
Defined.

Lemma partition_overrun_refused_witness :
  tegrabl_partition_read pm_demo (Some (pm_handle 0 250)) 0x205 7 =
    Ok (PM_ERR TEGRABL_ERR_OVERFLOW 1, [], Some (pm_handle 0 250), pm_demo).
Proof.
  refine (proj1 (partition_overrun_refused pm_demo (pm_handle 0 250) (pm_info 0) 0x205
    (replicate 7 1) 7 eq_refl _ _ _ _ _)); try lia; try (cbn; lia).
  - vm_compute. reflexivity.
  - vm_compute. split; reflexivity.
Defined.

Lemma publish_then_open_witness :
  exists s' a, tegrabl_partition_publish pm_start 0x100 0 = Ok (TEGRABL_NO_ERROR, s') /\
    tegrabl_partition_open s' (Some name_SMD_b) (Some zero_partition) =
      Ok (TEGRABL_NO_ERROR, Some (mkPartition (Some (a, 1%nat)) 0x100 0)).
Proof.
  destruct (publish_then_open pm_start [] 0x100 _ 1 _ name_SMD_b 1 (pm_info 1) zero_partition
    pm_publishable) as (s' & a & E1 & E2 & _).
  - vm_compute. reflexivity.
  - eauto.
Defined.

Lemma publish_unpublish_witness :
  exists s1 s2, tegrabl_partition_publish pm_start 0x100 0 = Ok (TEGRABL_NO_ERROR, s1) /\
    tegrabl_partitions_unpublish s1 0x100 = Ok (TEGRABL_NO_ERROR, s2) /\
    storage_list s2 = Some [].
Proof.
  destruct (publish_unpublish pm_start [] 0x100 _ 1 _ pm_publishable)
    as (s1 & s2 & E1 & E2 & E3 & _). eauto.
Defined.

Lemma flush_cache_visits_all_witness :
  tegrabl_partition_manager_flush_cache pm_demo = for_each pm_demo [0x100] flush_body.
Proof.
  apply (flush_cache_visits_all pm_demo [0x100]).
  - vm_compute. reflexivity.
  - apply NoDup_singleton.
  - set_solver.
Defined.

Definition blank_xfer : xfer_info := mkXfer 0 0 0 0 0 false false 0 0.

Lemma async_write_requests_read_witness :
  exists xf s', tegrabl_partition_async_write pm_demo (Some (pm_handle 2 0)) blank_xfer
        0x400 0 2 =
      Ok (TEGRABL_NO_ERROR, Some xf, s') /\ xi_xfer_type xf = TEGRABL_BLOCKDEV_READ.
Proof.
  eexists _, _. split.
  - vm_compute. reflexivity.
  - refine (proj1 (async_write_requests_read pm_demo (pm_handle 2 0) blank_xfer (pm_info 2) 0x400 0 2
      TEGRABL_NO_ERROR _ _ eq_refl _ _ _ _)); try lia; vm_compute; reflexivity.
Defined.

Lemma boot_guid_fallback_invalid_witness :
  tegrabl_partition_boot_guid_lookup_bdev pm_demo (replicate 36 48) (Some zero_partition) 0x100 =
    Stuck OutOfBounds.
Proof.
  destruct pm_arrays as (l & El & Al).
  apply (boot_guid_fallback_invalid pm_demo l (replicate 36 48) zero_partition 0x100 El Al).
  - lia.
  - vm_compute in El. injection El as <-. eexists. split; [left|reflexivity].
  - vm_compute in El. injection El as <-. intros e t q He _ Et Hq.
    apply list_elem_of_singleton in He as ->. vm_compute in Et. injection Et as <-.
    rewrite !elem_of_cons in Hq.
    destruct Hq as [->|[->|[->|[->|Hq]]]]; [vm_compute; reflexivity..|].
    by apply not_elem_of_nil in Hq.
Defined.
