(* ===== verification/AbBoot.v ===== *)
(** A/B boot control: the slot metadata and the scratch register
    (common/lib/a_b_boot/tegrabl_a_b_boot_control.c and
    common/include/lib/tegrabl_a_b_boot_control.h).

    This file holds the part without storage: the register fields, the metadata
    record with its packed layout, slot selection and the per-slot accessors.
    [asserts] says whether the build enables TEGRABL_ASSERT. *)

From S2P Require Import Prelude TegraError Utils AbNaming.

Definition AB_ERR (reason aux : Z) : Z := tegrabl_error_value TEGRABL_ERR_AB_BOOTCTRL aux reason.

(** [TEGRABL_SET_HIGHEST_MODULE(error)] *)
Definition AB_SET_HIGHEST (error : Z) : Z :=
  tegrabl_err_set_highest_module error TEGRABL_ERR_AB_BOOTCTRL.

Definition BOOT_CHAIN_MAGIC : Z := 0x43424E00.
Definition BOOT_CHAIN_VERSION_CRC32 : Z := 2.
Definition BOOT_CHAIN_VERSION_REDUNDANCY : Z := 3.
Definition BOOT_CHAIN_VERSION : Z := BOOT_CHAIN_VERSION_REDUNDANCY.
Definition BOOT_CHAIN_VERSION_MASK : Z := 0xFF.
Definition BOOTCTRL_REDUNDANCY_ENABLE : Z := Z.shiftl 1 8.
Definition BOOTCTRL_REDUNDANCY_USER : Z := Z.shiftl 1 9.

Definition BOOTCTRL_SUPPORT_REDUNDANCY (version : Z) : Z :=
  Z.land version BOOTCTRL_REDUNDANCY_ENABLE.
Definition BOOTCTRL_SUPPORT_REDUNDANCY_USER (version : Z) : Z :=
  Z.land version BOOTCTRL_REDUNDANCY_USER.

Definition SLOT_RETRY_COUNT_DEFAULT : Z := 7.
Definition SLOT_PRIORITY_DEFAULT : Z := 15.
Definition BOOT_SLOT_A : Z := 0.
Definition BOOT_SLOT_B : Z := 1.
Definition MAX_SLOTS : Z := 2.

(** ** The scratch register *)

Definition BOOT_CHAIN_REG_MAGIC : Z := 0xCAFE.
Definition BOOT_CHAIN_REG_MAGIC_SET (reg : Z) : Z := field_set 16 0 BOOT_CHAIN_REG_MAGIC reg.
Definition BOOT_CHAIN_REG_MAGIC_GET (reg : Z) : Z := field_get 16 0 reg.
Definition BOOT_CHAIN_REG_SLOT_NUM_SET (slot reg : Z) : Z := field_set 3 16 slot reg.
Definition BOOT_CHAIN_REG_SLOT_NUM_GET (reg : Z) : Z := field_get 3 16 reg.
Definition BOOT_CHAIN_REG_MAX_SLOTS_SET (max_slots reg : Z) : Z := field_set 3 19 max_slots reg.
Definition BOOT_CHAIN_REG_MAX_SLOTS_GET (reg : Z) : Z := field_get 3 19 reg.
Definition BOOT_CHAIN_REG_B_RETRY_COUNT_SET (count reg : Z) : Z := field_set 4 22 count reg.
Definition BOOT_CHAIN_REG_B_RETRY_COUNT_GET (reg : Z) : Z := field_get 4 22 reg.
Definition BOOT_CHAIN_REG_A_RETRY_COUNT_SET (count reg : Z) : Z := field_set 4 26 count reg.
Definition BOOT_CHAIN_REG_A_RETRY_COUNT_GET (reg : Z) : Z := field_get 4 26 reg.
Definition BOOT_CHAIN_REG_UPDATE_FLAG_SET (flag reg : Z) : Z := field_set 2 30 flag reg.
Definition BOOT_CHAIN_REG_UPDATE_FLAG_GET (reg : Z) : Z := field_get 2 30 reg.

Definition BC_FLAG_OTA_OFF : Z := 0.
Definition BC_FLAG_REDUNDANCY_BOOT : Z := 1.
Definition BC_FLAG_OTA_ON : Z := 3.

Inductive copy_direction : Set := FROM_SMD_TO_REG | FROM_REG_TO_SMD.

(** ** Slot metadata *)

(** [struct boot_slot_info] *)
Record slot := mkSlot {
  priority : Z;
  suffix : list Z;
  retry_count : Z;
  boot_successful : Z
}.

(** [struct slot_meta_data] *)
Record smd := mkSmd {
  magic : Z;
  version : Z;
  num_slots : Z;
  slot_info : list slot;
  smd_crc32 : Z
}.

Definition set_slots (m : smd) (l : list slot) : smd :=
  mkSmd (magic m) (version m) (num_slots m) l (smd_crc32 m).

(** [smd->slot_info[i]]; the array has [MAX_SLOTS] elements. *)
Definition get_slot (m : smd) (i : Z) : res slot :=
  if i <? 0 then Stuck OutOfBounds
  else match slot_info m !! Z.to_nat i with
       | Some s => Ok s
       | None => Stuck OutOfBounds
       end.

Definition put_slot (m : smd) (i : Z) (s : slot) : smd :=
  set_slots m (<[Z.to_nat i := s]> (slot_info m)).

Definition with_priority (s : slot) (v : Z) : slot :=
  mkSlot v (suffix s) (retry_count s) (boot_successful s).
Definition with_retry (s : slot) (v : Z) : slot :=
  mkSlot (priority s) (suffix s) v (boot_successful s).
Definition with_successful (s : slot) (v : Z) : slot :=
  mkSlot (priority s) (suffix s) (retry_count s) v.

(** The packed layout: 4 + 2 + 2 + 2 * 5 + 4 = 22 bytes, little endian. *)
Definition sizeof_smd : Z := 22.

Definition encode_slot (s : slot) : list Z :=
  [u8 (priority s)] ++ suffix s ++ [u8 (retry_count s); u8 (boot_successful s)].

Definition encode_payload (m : smd) : list Z :=
  le_bytes 4 (magic m) ++ le_bytes 2 (version m) ++ le_bytes 2 (num_slots m) ++
  concat (encode_slot <$> slot_info m).

Definition encode_smd (m : smd) : list Z := encode_payload m ++ le_bytes 4 (smd_crc32 m).

Definition decode_slot (b : list Z) : slot :=
  mkSlot (get_le 0 1 b) (slice 1 2 b) (get_le 3 1 b) (get_le 4 1 b).

Definition decode_smd (b : list Z) : smd :=
  mkSmd (get_le 0 4 b) (get_le 4 2 b) (get_le 6 2 b)
    [decode_slot (slice 8 5 b); decode_slot (slice 13 5 b)] (get_le 18 4 b).

Section Ops.
Variable asserts : bool.

(** [TEGRABL_ASSERT(smd != NULL)] and the access that follows. *)
Definition deref (m : option smd) : res smd :=
  let* _ := tegrabl_assert asserts (match m with Some _ => true | None => false end) in
  match m with
  | Some m => Ok m
  | None => Stuck BadPointer
  end.

Definition tegrabl_a_b_get_version (m : option smd) : res Z :=
  let* m := deref m in Ok (version m).

Definition tegrabl_a_b_init (m : option smd) : res smd :=
  let* m := deref m in
  Ok (mkSmd BOOT_CHAIN_MAGIC BOOT_CHAIN_VERSION 1
        [mkSlot 15 BOOT_CHAIN_SUFFIX_A 7 1; mkSlot 0 BOOT_CHAIN_SUFFIX_B 0 0]
        (smd_crc32 m)).

Definition tegrabl_a_b_get_max_num_slots (m : option smd) : res Z :=
  let* m := deref m in Ok (num_slots m).

(** ** Slot selection *)

(** [reg] is the register, [m] the buffer, [None] for [NULL]. *)
Definition tegrabl_a_b_is_valid (reg : Z) (m : option smd) : bool :=
  match m with
  | None => (BOOT_CHAIN_REG_MAGIC_GET reg =? BOOT_CHAIN_REG_MAGIC) &&
            (1 <? BOOT_CHAIN_REG_MAX_SLOTS_GET reg)
  | Some m => (magic m =? BOOT_CHAIN_MAGIC) && (1 <? num_slots m)
  end.

(** Error and [*active_slot]. *)
Definition boot_chain_get_bootslot_from_reg (reg : Z) : Z * Z :=
  if negb (tegrabl_a_b_is_valid reg None)
  then (AB_ERR TEGRABL_ERR_NOT_FOUND 0, BOOT_SLOT_A)
  else (TEGRABL_NO_ERROR, BOOT_CHAIN_REG_SLOT_NUM_GET reg).

(** The loop over the slots: the best priority so far and the slot that has it. *)
Fixpoint select_slot (m : smd) (i : Z) (n : nat) (max_priority : Z) (slot : option Z)
    : res (Z * option Z) :=
  match n with
  | O => Ok (max_priority, slot)
  | S n =>
      let* s := get_slot m i in
      if negb (retry_count s =? 0) && negb (priority s =? 0) && (max_priority <? priority s)
      then select_slot m (i + 1) n (priority s) (Some i)
      else select_slot m (i + 1) n max_priority slot
  end.

(** Error and [*active_slot] if it is stored. *)
Definition boot_chain_get_bootslot_from_smd (m : smd) : res (Z * option Z) :=
  if negb (magic m =? BOOT_CHAIN_MAGIC) then Ok (AB_ERR TEGRABL_ERR_INVALID 0, None)
  else
    let* (max_priority, slot) := select_slot m 0 (Z.to_nat (num_slots m)) 0 None in
    if max_priority =? 0 then Ok (AB_ERR TEGRABL_ERR_INVALID 1, None)
    else Ok (TEGRABL_NO_ERROR, slot).

Definition tegrabl_a_b_get_active_slot (reg : Z) (m : option smd) : res (Z * option Z) :=
  match m with
  | None => let '(err, slot) := boot_chain_get_bootslot_from_reg reg in Ok (err, Some slot)
  | Some m => boot_chain_get_bootslot_from_smd m
  end.

(** ** Retry counts *)

Definition tegrabl_a_b_set_retry_count_reg (reg slot count : Z) : Z :=
  if slot =? BOOT_SLOT_A then BOOT_CHAIN_REG_A_RETRY_COUNT_SET count reg
  else if slot =? BOOT_SLOT_B then BOOT_CHAIN_REG_B_RETRY_COUNT_SET count reg
  else reg.

Definition tegrabl_a_b_get_retry_count_reg (slot reg : Z) : res Z :=
  if slot =? BOOT_SLOT_A then Ok (u8 (BOOT_CHAIN_REG_A_RETRY_COUNT_GET reg))
  else if slot =? BOOT_SLOT_B then Ok (u8 (BOOT_CHAIN_REG_B_RETRY_COUNT_GET reg))
  else let* _ := tegrabl_assert asserts false in Ok 0.

Definition tegrabl_a_b_copy_retry_count (m : option smd) (reg : Z) (direct : copy_direction)
    : res (smd * Z) :=
  let* m := deref m in
  let* a := get_slot m BOOT_SLOT_A in
  let* b := get_slot m BOOT_SLOT_B in
  match direct with
  | FROM_REG_TO_SMD =>
      let m := put_slot m BOOT_SLOT_A (with_retry a (u8 (BOOT_CHAIN_REG_A_RETRY_COUNT_GET reg))) in
      let m := put_slot m BOOT_SLOT_B (with_retry b (u8 (BOOT_CHAIN_REG_B_RETRY_COUNT_GET reg))) in
      Ok (m, reg)
  | FROM_SMD_TO_REG =>
      let reg := BOOT_CHAIN_REG_A_RETRY_COUNT_SET (retry_count a) reg in
      let reg := BOOT_CHAIN_REG_B_RETRY_COUNT_SET (retry_count b) reg in
      Ok (m, reg)
  end.

(** The new content of the register. *)
Definition tegrabl_a_b_save_boot_slot_reg (reg : Z) (m : option smd) (slot : Z) : res Z :=
  let* bootctrl := deref m in
  let reg := BOOT_CHAIN_REG_SLOT_NUM_SET slot reg in
  let* max := tegrabl_a_b_get_max_num_slots m in
  let reg := BOOT_CHAIN_REG_MAX_SLOTS_SET max reg in
  let* (_, reg) := tegrabl_a_b_copy_retry_count m reg FROM_SMD_TO_REG in
  let* s := get_slot bootctrl slot in
  if boot_successful s =? 0
  then Ok (BOOT_CHAIN_REG_UPDATE_FLAG_SET BC_FLAG_OTA_ON reg)
  else if negb (BOOTCTRL_SUPPORT_REDUNDANCY (version bootctrl) =? 0)
  then Ok (BOOT_CHAIN_REG_UPDATE_FLAG_SET BC_FLAG_REDUNDANCY_BOOT reg)
  else Ok reg.

(** Error and register. *)
Definition tegrabl_a_b_init_boot_slot_reg (reg : Z) (m : option smd) : res (Z * Z) :=
  if BOOT_CHAIN_REG_MAGIC_GET reg =? BOOT_CHAIN_REG_MAGIC then Ok (TEGRABL_NO_ERROR, reg)
  else
    let reg := BOOT_CHAIN_REG_MAGIC_SET 0 in
    let* (err, slot) := tegrabl_a_b_get_active_slot reg m in
    if negb (err =? TEGRABL_NO_ERROR) then Ok (err, reg)
    else
      let* reg := tegrabl_a_b_save_boot_slot_reg reg m (default 0 slot) in
      Ok (err, reg).

Definition tegrabl_a_b_check_and_update_retry_count (m : option smd) (slot : Z)
    : res (Z * smd) :=
  let* bootctrl := deref m in
  let* s := get_slot bootctrl slot in
  if negb (BOOTCTRL_SUPPORT_REDUNDANCY (version bootctrl) =? 0) || (boot_successful s =? 0)
  then
    let* _ := tegrabl_assert asserts (negb (retry_count s =? 0)) in
    Ok (TEGRABL_NO_ERROR, put_slot bootctrl slot (with_retry s (u8 (retry_count s - 1))))
  else Ok (TEGRABL_NO_ERROR, bootctrl).

(** ** Suffixes *)

(** Error and the string stored at [suffix]. *)
Definition tegrabl_a_b_get_bootslot_suffix (reg : Z) (full_suffix : bool)
    : Z * option (list Z) :=
  let '(err, slot) := boot_chain_get_bootslot_from_reg reg in
  if negb (err =? TEGRABL_NO_ERROR) && negb (TEGRABL_ERROR_REASON err =? TEGRABL_ERR_NOT_FOUND)
  then (AB_ERR TEGRABL_ERR_INVALID 0, None)
  else if negb full_suffix && (slot =? BOOT_SLOT_A) then (TEGRABL_NO_ERROR, Some [])
  else if slot =? BOOT_SLOT_A then (TEGRABL_NO_ERROR, Some BOOT_CHAIN_SUFFIX_A)
  else (TEGRABL_NO_ERROR, Some BOOT_CHAIN_SUFFIX_B).

(** The new content of the string [partition]. *)
Definition tegrabl_a_b_set_bootslot_suffix (slot : Z) (partition : list Z) (full_suffix : bool)
    : Z * list Z :=
  if negb full_suffix && (slot =? BOOT_SLOT_A) then (TEGRABL_NO_ERROR, partition)
  else
    let suffix := if slot =? BOOT_SLOT_A then BOOT_CHAIN_SUFFIX_A else BOOT_CHAIN_SUFFIX_B in
    (TEGRABL_NO_ERROR, partition ++ suffix).

Definition tegrabl_a_b_get_slot_via_suffix (suffix : list Z) : Z * option Z :=
  if strcmp_eq suffix [] || strcmp_eq suffix BOOT_CHAIN_SUFFIX_A
  then (TEGRABL_NO_ERROR, Some BOOT_SLOT_A)
  else if strcmp_eq suffix BOOT_CHAIN_SUFFIX_B then (TEGRABL_NO_ERROR, Some BOOT_SLOT_B)
  else (AB_ERR TEGRABL_ERR_INVALID 0, None).

(** ** Accessors; the output pointers are never [NULL] *)

Definition tegrabl_a_b_get_slot_num (m : option smd) : Z * option Z :=
  match m with
  | None => (AB_ERR TEGRABL_ERR_INVALID 0, None)
  | Some m => (TEGRABL_NO_ERROR, Some (u8 (num_slots m)))
  end.

Definition get_field (f : slot -> Z) (m : option smd) (slot : Z) : res (Z * option Z) :=
  match m with
  | None => Ok (AB_ERR TEGRABL_ERR_INVALID 0, None)
  | Some m =>
      if MAX_SLOTS <=? slot then Ok (AB_ERR TEGRABL_ERR_INVALID 0, None)
      else let* s := get_slot m slot in Ok (TEGRABL_NO_ERROR, Some (f s))
  end.

Definition tegrabl_a_b_get_successful := get_field boot_successful.
Definition tegrabl_a_b_get_retry_count := get_field retry_count.
Definition tegrabl_a_b_get_priority := get_field priority.

Definition tegrabl_a_b_is_unbootable (m : option smd) (slot : Z) : res (Z * option bool) :=
  match m with
  | None => Ok (AB_ERR TEGRABL_ERR_INVALID 0, None)
  | Some _ =>
      if MAX_SLOTS <=? slot then Ok (AB_ERR TEGRABL_ERR_INVALID 0, None)
      else
        let* (error, p) := tegrabl_a_b_get_priority m slot in
        if negb (error =? TEGRABL_NO_ERROR) then Ok (AB_SET_HIGHEST error, None)
        else
          let* (error, r) := tegrabl_a_b_get_retry_count m slot in
          if negb (error =? TEGRABL_NO_ERROR) then Ok (AB_SET_HIGHEST error, None)
          else Ok (error, Some ((default 0 p =? 0) || (default 0 r =? 0)))
  end.

Definition set_field (f : slot -> Z -> slot) (m : option smd) (slot v : Z)
    : res (Z * option smd) :=
  match m with
  | None => Ok (AB_ERR TEGRABL_ERR_INVALID 0, None)
  | Some x =>
      if MAX_SLOTS <=? slot then Ok (AB_ERR TEGRABL_ERR_INVALID 0, m)
      else
        let* s := get_slot x slot in
        Ok (TEGRABL_NO_ERROR, Some (put_slot x slot (f s v)))
  end.

Definition tegrabl_a_b_set_successful := set_field with_successful.
Definition tegrabl_a_b_set_retry_count := set_field with_retry.
Definition tegrabl_a_b_set_priority := set_field with_priority.

(** [if (priority > 1) priority -= 1], for each of the slots. *)
Definition decrease_priority (s : slot) : slot :=
  if 1 <? priority s then with_priority s (priority s - 1) else s.

Definition tegrabl_a_b_set_active_slot (m : option smd) (slot_id : Z)
    : res (Z * option smd) :=
  match m with
  | None => Ok (AB_ERR TEGRABL_ERR_INVALID 0, None)
  | Some x =>
      if MAX_SLOTS <=? slot_id then Ok (AB_ERR TEGRABL_ERR_INVALID 0, m)
      else
        let m := Some (set_slots x (decrease_priority <$> slot_info x)) in
        let* (error, m) := tegrabl_a_b_set_priority m slot_id SLOT_PRIORITY_DEFAULT in
        if negb (error =? TEGRABL_NO_ERROR) then Ok (AB_SET_HIGHEST error, m)
        else
          let* (error, m) := tegrabl_a_b_set_retry_count m slot_id SLOT_RETRY_COUNT_DEFAULT in
          if negb (error =? TEGRABL_NO_ERROR) then Ok (AB_SET_HIGHEST error, m)
          else
            let* (error, m) := tegrabl_a_b_set_successful m slot_id 0 in
            if negb (error =? TEGRABL_NO_ERROR) then Ok (AB_SET_HIGHEST error, m)
            else Ok (error, m)
  end.

(** ** The redundancy policy *)

(** Error, register and whether the metadata has to be stored. *)
Definition check_non_user_redundancy_status (reg : Z) (m : smd) : res (Z * Z * Z) :=
  let* (error, smd_slot) := tegrabl_a_b_get_active_slot reg (Some m) in
  if negb (error =? TEGRABL_NO_ERROR) then Ok (error, reg, 0)
  else
    let current_slot := BOOT_CHAIN_REG_SLOT_NUM_GET reg in
    if current_slot =? default 0 smd_slot then Ok (error, reg, 0)
    else
      let* retry_count := tegrabl_a_b_get_retry_count_reg current_slot reg in
      let retry_count := u8 (retry_count + 1) in
      Ok (error, tegrabl_a_b_set_retry_count_reg reg current_slot retry_count, 1).

(** [tegrabl_a_b_set_priority] with the result dropped. *)
Definition set_priority_ (m : smd) (slot v : Z) : res smd :=
  let* (_, m') := tegrabl_a_b_set_priority (Some m) slot (u8 v) in
  Ok (default m m').

(** [!current_slot] *)
Definition other_slot (current_slot : Z) : Z := if current_slot =? 0 then 1 else 0.

Definition rotate_slots_priority (m : smd) (current_slot slot1_priority slot2_priority : Z)
    : res smd :=
  if current_slot =? 0 then
    if slot2_priority <? slot1_priority then set_priority_ m current_slot (slot1_priority - 1)
    else if slot2_priority <? SLOT_PRIORITY_DEFAULT
    then set_priority_ m (other_slot current_slot) (slot2_priority + 1)
    else set_priority_ m current_slot (slot2_priority - 1)
  else if slot1_priority =? slot2_priority + 1 then
    if 1 <? slot2_priority then set_priority_ m (other_slot current_slot) (slot2_priority - 1)
    else set_priority_ m current_slot (slot1_priority + 1)
  else
    let* m := set_priority_ m (other_slot current_slot) SLOT_PRIORITY_DEFAULT in
    set_priority_ m current_slot (SLOT_PRIORITY_DEFAULT - 1).

(** Error, register, metadata and whether it has to be stored. *)
Definition check_user_redundancy_status (reg : Z) (m : smd) : res (Z * Z * smd * Z) :=
  let current_slot := BOOT_CHAIN_REG_SLOT_NUM_GET reg in
  let* retry_count := tegrabl_a_b_get_retry_count_reg current_slot reg in
  let reg := tegrabl_a_b_set_retry_count_reg reg current_slot (u8 (retry_count + 1)) in
  let* (error, p1) := tegrabl_a_b_get_priority (Some m) current_slot in
  if negb (error =? TEGRABL_NO_ERROR) then Ok (error, reg, m, 0)
  else
    let* (error, p2) := tegrabl_a_b_get_priority (Some m) (other_slot current_slot) in
    if negb (error =? TEGRABL_NO_ERROR) then Ok (error, reg, m, 0)
    else
      let slot1_priority := default 0 p1 in
      let slot2_priority := default 0 p2 in
      let* other_retry := tegrabl_a_b_get_retry_count_reg (other_slot current_slot) reg in
      if negb (other_retry =? 0) && negb (slot1_priority =? 0) && negb (slot2_priority =? 0)
      then
        let* _ := tegrabl_assert asserts (slot2_priority <=? slot1_priority) in
        let* m := rotate_slots_priority m current_slot slot1_priority slot2_priority in
        Ok (error, reg, m, 1)
      else Ok (error, reg, m, 1).

Definition check_redundancy_status (reg : Z) (m : smd) : res (Z * Z * smd * Z) :=
  let* v := tegrabl_a_b_get_version (Some m) in
  if BOOTCTRL_SUPPORT_REDUNDANCY_USER v =? 0 then
    let* (error, reg, update) := check_non_user_redundancy_status reg m in
    Ok (error, reg, m, update)
  else check_user_redundancy_status reg m.

End Ops.
