(* ===== verification/AbBootFacts.v ===== *)
(** Correctness of slot selection, of the register fields and of the metadata
    layout. *)

From S2P Require Import Prelude TegraError Utils AbNaming AbBoot.

(** ** Well-formed metadata: two slots, every field in its width *)

Record slot_ok (s : slot) : Prop := {
  so_priority : 0 <= priority s < 256;
  so_suffix : length (suffix s) = 2%nat /\ Forall byte_ok (suffix s);
  so_retry : 0 <= retry_count s < 256;
  so_successful : 0 <= boot_successful s < 256
}.

Record smd_ok (m : smd) : Prop := {
  mo_magic : 0 <= magic m < 2 ^ 32;
  mo_version : 0 <= version m < 2 ^ 16;
  mo_num : 0 <= num_slots m < 2 ^ 16;
  mo_slots : exists a b, slot_info m = [a; b] /\ slot_ok a /\ slot_ok b;
  mo_crc : 0 <= smd_crc32 m < 2 ^ 32
}.

(** A slot that may be booted. *)
Definition bootable (s : slot) : Prop := retry_count s <> 0 /\ priority s <> 0.

#[export] Instance bootable_dec s : Decision (bootable s).
Proof. unfold bootable. apply _. Defined.

(** [i] is the slot the specification selects among the first [n]: bootable, of
    the highest priority, and the first of these. *)
Definition best_slot (l : list slot) (n i : Z) : Prop :=
  exists s, 0 <= i < n /\ l !! Z.to_nat i = Some s /\ bootable s /\
    forall j t, 0 <= j < n -> l !! Z.to_nat j = Some t -> bootable t ->
      priority t <= priority s /\ (priority t = priority s -> i <= j).

Definition none_bootable (l : list slot) (n : Z) : Prop :=
  forall j t, 0 <= j < n -> l !! Z.to_nat j = Some t -> ~ bootable t.

(** ** Slot selection *)

Lemma get_slot_Some m i s :
  0 <= i -> slot_info m !! Z.to_nat i = Some s -> get_slot m i = Ok s.
Proof. intros Hi E. unfold get_slot. destruct (Z.ltb_spec i 0); [lia|]. by rewrite E. Qed.

Lemma bootable_test s p :
  0 <= p -> 0 <= priority s ->
  negb (retry_count s =? 0) && negb (priority s =? 0) && (p <? priority s) = true <->
  bootable s /\ p < priority s.
Proof.
  intros. unfold bootable.
  rewrite !andb_true_iff, !negb_true_iff, !Z.eqb_neq, Z.ltb_lt. tauto.
Qed.

(** What the loop knows after [i] slots. *)
Definition select_inv (l : list slot) (i p : Z) (r : option Z) : Prop :=
  match r with
  | None => p = 0 /\ none_bootable l i
  | Some k => best_slot l i k /\ exists s, l !! Z.to_nat k = Some s /\ priority s = p
  end.

Lemma select_step l i p r s :
  0 <= i -> l !! Z.to_nat i = Some s -> 0 <= priority s ->
  (forall j t, l !! j = Some t -> 0 <= priority t) ->
  select_inv l i p r ->
  if decide (bootable s /\ p < priority s)
  then select_inv l (i + 1) (priority s) (Some i)
  else select_inv l (i + 1) p r.
Proof.
  intros Hi Es Hs Hpos Inv. case_decide as Hc.
  - destruct Hc as [Hb Hp]. split; [|eauto]. exists s. split; [lia|]. split; [done|].
    split; [done|]. intros j t Hj Et Ht.
    destruct (Z.eq_dec j i) as [->|Hne].
    { rewrite Es in Et. injection Et as <-. lia. }
    destruct r as [k|].
    + destruct Inv as [(u & Hk & Eu & Hu & Hbest) (u' & Eu' & <-)].
      rewrite Eu in Eu'. injection Eu' as <-.
      destruct (Hbest j t ltac:(lia) Et Ht). lia.
    + destruct Inv as [_ Hnone]. destruct (Hnone j t ltac:(lia) Et Ht).
  - destruct r as [k|].
    + destruct Inv as [(u & Hk & Eu & Hu & Hbest) (u' & Eu' & <-)].
      rewrite Eu in Eu'. injection Eu' as <-. split; [|eauto].
      exists u. split; [lia|]. split; [done|]. split; [done|]. intros j t Hj Et Ht.
      destruct (Z.eq_dec j i) as [->|Hne].
      * rewrite Es in Et. injection Et as <-. destruct (decide (priority u < priority s)); [tauto|lia].
      * apply Hbest; auto. lia.
    + destruct Inv as [-> Hnone]. split; [done|]. intros j t Hj Et Ht.
      destruct (Z.eq_dec j i) as [->|Hne].
      * rewrite Es in Et. injection Et as <-. apply Hc. split; [done|]. destruct Ht. lia.
      * by destruct (Hnone j t ltac:(lia) Et Ht).
Qed.

Lemma select_slot_spec m i n p r :
  0 <= i -> i + Z.of_nat n <= zlen (slot_info m) -> 0 <= p ->
  (forall j t, slot_info m !! j = Some t -> 0 <= priority t) ->
  select_inv (slot_info m) i p r ->
  exists p' r', select_slot m i n p r = Ok (p', r') /\
    select_inv (slot_info m) (i + Z.of_nat n) p' r'.
Proof.
  revert i p r. induction n as [|n IH]; intros i p r Hi Hl Hp Hpos Inv.
  { exists p, r. rewrite Z.add_0_r. done. }
  cbn [select_slot].
  destruct (lookup_lt_is_Some_2 (slot_info m) (Z.to_nat i)) as [s Es]; [unfold zlen in *; lia|].
  rewrite (get_slot_Some m i s Hi Es). cbn [res_bind].
  pose proof (Hpos _ _ Es) as Hs.
  pose proof (select_step _ i p r s Hi Es Hs Hpos Inv) as Hstep.
  destruct (negb _ && _ && _) eqn:Et.
  - apply bootable_test in Et; [|lia..]. rewrite decide_True in Hstep by done.
    destruct (IH (i + 1) (priority s) (Some i)) as (p' & r' & E & Inv'); auto; [lia..|].
    exists p', r'. split; [done|]. by replace (i + Z.of_nat (S n)) with (i + 1 + Z.of_nat n) by lia.
  - rewrite decide_False in Hstep
      by (intros Hc; apply bootable_test in Hc; [congruence|lia..]).
    destruct (IH (i + 1) p r) as (p' & r' & E & Inv'); auto; [lia..|].
    exists p', r'. split; [done|]. by replace (i + Z.of_nat (S n)) with (i + 1 + Z.of_nat n) by lia.
Qed.

Lemma active_slot_cases m :
  magic m = BOOT_CHAIN_MAGIC -> 0 <= num_slots m <= zlen (slot_info m) ->
  (forall j t, slot_info m !! j = Some t -> 0 <= priority t) ->
  (exists i, boot_chain_get_bootslot_from_smd m = Ok (TEGRABL_NO_ERROR, Some i) /\
     best_slot (slot_info m) (num_slots m) i) \/
  (boot_chain_get_bootslot_from_smd m = Ok (AB_ERR TEGRABL_ERR_INVALID 1, None) /\
     none_bootable (slot_info m) (num_slots m)).
Proof.
  intros Hm Hn Hpos. unfold boot_chain_get_bootslot_from_smd. rewrite Hm, Z.eqb_refl. cbn [negb].
  destruct (select_slot_spec m 0 (Z.to_nat (num_slots m)) 0 None) as (p & r & -> & Inv);
    [lia|lia|lia|done| |].
  { split; [done|]. intros j t Hj. lia. }
  rewrite Z.add_0_l, Z2Nat.id in Inv by lia. cbn [res_bind]. destruct r as [i|].
  - destruct Inv as [Hb (s & Es & <-)]. left. exists i. split; [|done].
    pose proof Hb as (s' & _ & Es' & Hbs & _). rewrite Es in Es'. injection Es' as <-.
    destruct (Z.eqb_spec (priority s) 0); [|done]. by destruct Hbs.
  - destruct Inv as [-> Hno]. right. done.
Qed.

Lemma best_slot_unique l n i j : best_slot l n i -> best_slot l n j -> i = j.
Proof.
  intros (s & Hi & Es & Hs & Hbs) (t & Hj & Et & Ht & Hbt).
  destruct (Hbs j t Hj Et Ht), (Hbt i s Hi Es Hs). lia.
Qed.

Lemma active_slot_of_best m i :
  magic m = BOOT_CHAIN_MAGIC -> 0 <= num_slots m <= zlen (slot_info m) ->
  (forall j t, slot_info m !! j = Some t -> 0 <= priority t) ->
  best_slot (slot_info m) (num_slots m) i ->
  boot_chain_get_bootslot_from_smd m = Ok (TEGRABL_NO_ERROR, Some i).
Proof.
  intros Hm Hn Hpos Hi. destruct (active_slot_cases m Hm Hn Hpos) as [(k & -> & Hb)|[_ Hno]].
  - by rewrite (best_slot_unique _ _ _ _ Hb Hi).
  - destruct Hi as (s & Hk & Es & Hs & _). by destruct (Hno i s Hk Es).
Qed.

(** C3: for metadata with the right magic and at most as many slots as the array
    has, the active slot is the bootable slot (retries left, priority not 0) of the
    highest priority, the first one on a tie; without a bootable slot the result
    is an error. *)
Theorem active_slot_is_best m i :
  magic m = BOOT_CHAIN_MAGIC -> 0 <= num_slots m <= zlen (slot_info m) ->
  (forall j t, slot_info m !! j = Some t -> 0 <= priority t) ->
  (boot_chain_get_bootslot_from_smd m = Ok (TEGRABL_NO_ERROR, Some i) <->
     best_slot (slot_info m) (num_slots m) i) /\
  (boot_chain_get_bootslot_from_smd m = Ok (AB_ERR TEGRABL_ERR_INVALID 1, None) <->
     none_bootable (slot_info m) (num_slots m)).
Proof.
  intros Hm Hn Hpos. destruct (active_slot_cases m Hm Hn Hpos) as [(k & -> & Hb)|[-> Hno]].
  - split; split.
    + intros E. by injection E as <-.
    + intros Hi. by rewrite (best_slot_unique _ _ _ _ Hb Hi).
    + intros E. discriminate E.
    + intros Hno. destruct Hb as (s & Hk & Es & Hs & _). by destruct (Hno k s Hk Es).
  - split; split.
    + intros E. discriminate E.
    + intros (s & Hk & Es & Hs & _). by destruct (Hno i s Hk Es).
    + done.
    + done.
Qed.

Lemma select_slot_overrun m i n p r :
  0 <= i <= zlen (slot_info m) -> zlen (slot_info m) < i + Z.of_nat n ->
  select_slot m i n p r = Stuck OutOfBounds.
Proof.
  revert i p r. induction n as [|n IH]; intros i p r Hi Hn; [lia|]. cbn [select_slot].
  destruct (slot_info m !! Z.to_nat i) as [s|] eqn:Es.
  - rewrite (get_slot_Some m i s) by (done || lia). cbn [res_bind].
    apply lookup_lt_Some in Es. unfold zlen in *. by case_test; apply IH; lia.
  - unfold get_slot. rewrite Es. by destruct (i <? 0).
Qed.

(** The number of slots is read from storage and not checked: with the right
    magic and a count above the two slots of the array, selection reads past the
    metadata. *)
Theorem slot_count_unchecked m a b :
  magic m = BOOT_CHAIN_MAGIC -> slot_info m = [a; b] -> 2 < num_slots m ->
  boot_chain_get_bootslot_from_smd m = Stuck OutOfBounds.
Proof.
  intros Hm Hs Hn. unfold boot_chain_get_bootslot_from_smd. rewrite Hm, Z.eqb_refl. cbn [negb].
  rewrite select_slot_overrun; [done| |]; rewrite Hs; unfold zlen; simpl; lia.
Qed.

(** ** Changing the active slot *)

Lemma mo_slots_length m : smd_ok m -> zlen (slot_info m) = 2.
Proof. intros M. destruct (mo_slots _ M) as (a & b & -> & _). done. Qed.

(** After [tegrabl_a_b_set_active_slot] selects slot [k], slot selection on the
    result yields [k], whatever the state before, as long as no priority exceeds the
    documented maximum of 15. *)
Theorem set_active_slot_selects reg m k :
  smd_ok m -> magic m = BOOT_CHAIN_MAGIC -> num_slots m = 2 -> 0 <= k < 2 ->
  (forall t, t ∈ slot_info m -> priority t <= SLOT_PRIORITY_DEFAULT) ->
  exists m', tegrabl_a_b_set_active_slot (Some m) k = Ok (TEGRABL_NO_ERROR, Some m') /\
    tegrabl_a_b_get_active_slot reg (Some m') = Ok (TEGRABL_NO_ERROR, Some k) /\
    tegrabl_a_b_is_unbootable (Some m') k = Ok (TEGRABL_NO_ERROR, Some false).
Proof.
  intros M Hm Hn Hk Hp. destruct (mo_slots _ M) as (a & b & Hs & Ha & Hb).
  assert (priority a <= 15 /\ priority b <= 15) as [Pa Pb]
    by (split; apply Hp; rewrite Hs; set_solver).
  destruct Ha as [Pa' _ _ _], Hb as [Pb' _ _ _].
  destruct m as [mg v n l c]. cbn in Hs, Hm, Hn. subst.
  assert (Hda : 0 <= priority (decrease_priority a) < 15)
    by (unfold decrease_priority; destruct (Z.ltb_spec 1 (priority a)); cbn; lia).
  assert (Hdb : 0 <= priority (decrease_priority b) < 15)
    by (unfold decrease_priority; destruct (Z.ltb_spec 1 (priority b)); cbn; lia).
  set (fresh t := with_successful (with_retry (with_priority t 15) 7) 0).
  assert (Hpos : forall x y j t, 0 <= priority x -> 0 <= priority y ->
    [x; y] !! j = Some t -> 0 <= priority t).
  { intros x y [|[|j]] t Hx Hy Et; [injection Et as <-..|]; done. }
  assert (k = 0 \/ k = 1) as [-> | ->] by lia.
  - exists (mkSmd BOOT_CHAIN_MAGIC v 2 [fresh (decrease_priority a); decrease_priority b] c).
    split; [reflexivity|]. split; [|reflexivity].
    revert Hda Hdb. generalize (decrease_priority a) (decrease_priority b). intros a' b' Hda Hdb.
    apply active_slot_of_best; [done|done|intros j t; apply Hpos; cbn; lia|].
    eexists. split; [cbn; lia|]. split; [reflexivity|]. split; [done|].
    intros j t Hj Et _. cbn in Hj. assert (j = 0 \/ j = 1) as [-> | ->] by lia;
      injection Et as <-; cbn; lia.
  - exists (mkSmd BOOT_CHAIN_MAGIC v 2 [decrease_priority a; fresh (decrease_priority b)] c).
    split; [reflexivity|]. split; [|reflexivity].
    revert Hda Hdb. generalize (decrease_priority a) (decrease_priority b). intros a' b' Hda Hdb.
    apply active_slot_of_best; [done|done|intros j t; apply Hpos; cbn; lia|].
    eexists. split; [cbn; lia|]. split; [reflexivity|]. split; [done|].
    intros j t Hj Et _. cbn in Hj. assert (j = 0 \/ j = 1) as [-> | ->] by lia;
      injection Et as <-; cbn; lia.
Qed.

(** ** The packed layout *)

Lemma get_le_app_l o n a b :
  0 <= o -> 0 <= n -> o + n <= zlen a -> get_le o n (a ++ b) = get_le o n a.
Proof.
  intros. unfold get_le. f_equal. unfold slice, zlen in *.
  rewrite drop_app_le by lia. rewrite take_app_le; [done|]. rewrite length_drop. lia.
Qed.

Lemma slice_app_r o n (a b : list Z) : zlen a <= o -> slice o n (a ++ b) = slice (o - zlen a) n b.
Proof.
  intros. unfold slice, zlen in *. rewrite drop_app_ge by lia. do 2 f_equal. lia.
Qed.

Lemma slice_at (pre x post l : list Z) o n :
  l = pre ++ x ++ post -> o = zlen pre -> n = zlen x -> slice o n l = x.
Proof.
  intros -> -> ->. rewrite slice_app_r by lia. rewrite Z.sub_diag. unfold slice, zlen.
  rewrite Nat2Z.id. change (Z.to_nat 0) with 0%nat. rewrite drop_0. apply take_app_length.
Qed.

Lemma encode_slot_length s : slot_ok s -> zlen (encode_slot s) = 5.
Proof.
  intros [_ [Hl _] _ _]. unfold encode_slot, zlen. rewrite !length_app, Hl. done.
Qed.

Lemma decode_encode_slot s : slot_ok s -> decode_slot (encode_slot s) = s.
Proof.
  intros [Hp [Hl Hb] Hr Hs]. destruct s as [p sfx r b]. cbn in *.
  destruct sfx as [|c0 [|c1 [|]]]; try discriminate Hl.
  unfold decode_slot, encode_slot. cbn [priority suffix retry_count boot_successful].
  rewrite !u8_small by lia. unfold get_le.
  transitivity (mkSlot (le_val [p]) [c0; c1] (le_val [r]) (le_val [b])); [reflexivity|].
  cbn [le_val]. f_equal; lia.
Qed.

Lemma encode_slot_bytes s : slot_ok s -> Forall byte_ok (encode_slot s).
Proof.
  intros [Hp [Hl Hb] Hr Hs]. unfold encode_slot. apply Forall_app. split.
  - constructor; [apply u8_range|constructor].
  - apply Forall_app. split; [done|]. repeat constructor; apply u8_range.
Qed.

Lemma zlen_le_bytes n v : zlen (le_bytes n v) = Z.of_nat n.
Proof. unfold zlen. by rewrite le_bytes_length. Qed.

Lemma encode_payload_length m : smd_ok m -> zlen (encode_payload m) = 18.
Proof.
  intros M. destruct (mo_slots _ M) as (a & b & Hs & Ha & Hb).
  unfold encode_payload. rewrite !zlen_app, !zlen_le_bytes, Hs. cbn [fmap list_fmap concat].
  rewrite !zlen_app, !encode_slot_length by done. reflexivity.
Qed.

Lemma encode_smd_length m : smd_ok m -> zlen (encode_smd m) = sizeof_smd.
Proof.
  intros M. unfold encode_smd. by rewrite zlen_app, zlen_le_bytes, encode_payload_length.
Qed.

Lemma encode_smd_bytes m : smd_ok m -> Forall byte_ok (encode_smd m).
Proof.
  intros M. destruct (mo_slots _ M) as (a & b & Hs & Ha & Hb). unfold encode_smd, encode_payload.
  rewrite Hs. cbn [fmap list_fmap concat].
  rewrite !Forall_app. split_and?; try apply le_bytes_ok; try (by apply encode_slot_bytes); constructor.
Qed.

Lemma decode_encode_smd m : smd_ok m -> decode_smd (encode_smd m) = m.
Proof.
  intros M. destruct (mo_slots _ M) as (a & b & Hs & Ha & Hb).
  pose proof (encode_slot_length a Ha) as La. pose proof (encode_slot_length b Hb) as Lb.
  set (A := le_bytes 4 (magic m)). set (V := le_bytes 2 (version m)).
  set (N := le_bytes 2 (num_slots m)). set (C := le_bytes 4 (smd_crc32 m)).
  assert (LA : zlen A = 4) by apply zlen_le_bytes. assert (LV : zlen V = 2) by apply zlen_le_bytes.
  assert (LN : zlen N = 2) by apply zlen_le_bytes. assert (LC : zlen C = 4) by apply zlen_le_bytes.
  assert (E : encode_smd m = A ++ V ++ N ++ encode_slot a ++ encode_slot b ++ C).
  { unfold encode_smd, encode_payload. rewrite Hs. cbn [fmap list_fmap concat].
    rewrite app_nil_r, <- !app_assoc. reflexivity. }
  destruct M as [M1 M2 M3 _ M5]. destruct m as [mg v n l c].
  cbn in Hs, M1, M2, M3, M5. subst l.
  unfold decode_smd, get_le. rewrite E.
  rewrite (slice_at [] A (V ++ N ++ encode_slot a ++ encode_slot b ++ C)) by done.
  rewrite (slice_at A V (N ++ encode_slot a ++ encode_slot b ++ C)) by done.
  rewrite (slice_at (A ++ V) N (encode_slot a ++ encode_slot b ++ C))
    by (rewrite <- ?app_assoc, ?zlen_app; done || lia).
  rewrite (slice_at (A ++ V ++ N) (encode_slot a) (encode_slot b ++ C))
    by (rewrite <- ?app_assoc, ?zlen_app; done || lia).
  rewrite (slice_at (A ++ V ++ N ++ encode_slot a) (encode_slot b) C)
    by (rewrite <- ?app_assoc, ?zlen_app; done || lia).
  rewrite (slice_at (A ++ V ++ N ++ encode_slot a ++ encode_slot b) C [])
    by (rewrite ?app_nil_r, <- ?app_assoc, ?zlen_app; done || lia).
  rewrite !decode_encode_slot by done. unfold A, V, N, C.
  by rewrite !le_val_bytes by (cbn; lia).
Qed.

(** ** The scratch register *)

(** Reads a field through a sequence of stores to fields. *)
Ltac reg_fields :=
  repeat first
    [ rewrite field_get_set by lia
    | rewrite field_get_set_other by lia ].

(** The register [tegrabl_a_b_save_boot_slot_reg] builds. *)
Definition saved_reg (reg k : Z) (m : smd) (a b : slot) (flag : option Z) : Z :=
  let reg := BOOT_CHAIN_REG_SLOT_NUM_SET k reg in
  let reg := BOOT_CHAIN_REG_MAX_SLOTS_SET (num_slots m) reg in
  let reg := BOOT_CHAIN_REG_A_RETRY_COUNT_SET (retry_count a) reg in
  let reg := BOOT_CHAIN_REG_B_RETRY_COUNT_SET (retry_count b) reg in
  match flag with
  | Some f => BOOT_CHAIN_REG_UPDATE_FLAG_SET f reg
  | None => reg
  end.

(** The update flag for the state of the slot that boots. *)
Definition flag_for (m : smd) (s : slot) : option Z :=
  if boot_successful s =? 0 then Some BC_FLAG_OTA_ON
  else if BOOTCTRL_SUPPORT_REDUNDANCY (version m) =? 0 then None
  else Some BC_FLAG_REDUNDANCY_BOOT.

Lemma save_reg_eq asserts reg m slot a b s :
  slot_info m = [a; b] -> 0 <= slot -> slot_info m !! Z.to_nat slot = Some s ->
  tegrabl_a_b_save_boot_slot_reg asserts reg (Some m) slot =
    Ok (saved_reg reg slot m a b (flag_for m s)).
Proof.
  intros Hs Hp Es. unfold tegrabl_a_b_save_boot_slot_reg, tegrabl_a_b_get_max_num_slots,
    tegrabl_a_b_copy_retry_count, deref, tegrabl_assert. cbn [negb].
  rewrite !andb_false_r. cbn [res_bind].
  rewrite (get_slot_Some m BOOT_SLOT_A a) by (unfold BOOT_SLOT_A; rewrite ?Hs; done).
  rewrite (get_slot_Some m BOOT_SLOT_B b) by (unfold BOOT_SLOT_B; rewrite ?Hs; done).
  cbn [res_bind]. rewrite (get_slot_Some m slot s) by done. cbn [res_bind].
  unfold saved_reg, flag_for. destruct (boot_successful s =? 0); [done|].
  by destruct (BOOTCTRL_SUPPORT_REDUNDANCY (version m) =? 0).
Qed.

Lemma saved_reg_fields reg slot m a b flag :
  let r := saved_reg reg slot m a b flag in
  BOOT_CHAIN_REG_MAGIC_GET r = BOOT_CHAIN_REG_MAGIC_GET reg /\
  BOOT_CHAIN_REG_SLOT_NUM_GET r = slot mod 8 /\
  BOOT_CHAIN_REG_MAX_SLOTS_GET r = num_slots m mod 8 /\
  BOOT_CHAIN_REG_A_RETRY_COUNT_GET r = retry_count a mod 16 /\
  BOOT_CHAIN_REG_B_RETRY_COUNT_GET r = retry_count b mod 16 /\
  BOOT_CHAIN_REG_UPDATE_FLAG_GET r =
    match flag with Some f => f mod 4 | None => BOOT_CHAIN_REG_UPDATE_FLAG_GET reg end.
Proof.
  unfold saved_reg, BOOT_CHAIN_REG_MAGIC_GET, BOOT_CHAIN_REG_SLOT_NUM_GET,
    BOOT_CHAIN_REG_MAX_SLOTS_GET, BOOT_CHAIN_REG_A_RETRY_COUNT_GET,
    BOOT_CHAIN_REG_B_RETRY_COUNT_GET, BOOT_CHAIN_REG_UPDATE_FLAG_GET,
    BOOT_CHAIN_REG_SLOT_NUM_SET, BOOT_CHAIN_REG_MAX_SLOTS_SET,
    BOOT_CHAIN_REG_A_RETRY_COUNT_SET, BOOT_CHAIN_REG_B_RETRY_COUNT_SET,
    BOOT_CHAIN_REG_UPDATE_FLAG_SET.
  destruct flag; split_and!; by reg_fields.
Qed.

(** At power-on (no magic in the register) the register is filled from the
    metadata so that later stages, which only see the register, read back the slot
    that selection chose, the retry counts of both slots, and the update flag that
    belongs to the state of the chosen slot. *)
Theorem boot_slot_reg_reflects_smd asserts reg m i :
  smd_ok m -> magic m = BOOT_CHAIN_MAGIC -> num_slots m = 2 ->
  (forall t, t ∈ slot_info m -> retry_count t < 16) ->
  BOOT_CHAIN_REG_MAGIC_GET reg <> BOOT_CHAIN_REG_MAGIC ->
  best_slot (slot_info m) 2 i ->
  exists reg' s, tegrabl_a_b_init_boot_slot_reg asserts reg (Some m) =
      Ok (TEGRABL_NO_ERROR, reg') /\
    slot_info m !! Z.to_nat i = Some s /\
    tegrabl_a_b_get_active_slot reg' None = Ok (TEGRABL_NO_ERROR, Some i) /\
    (forall k t, 0 <= k < 2 -> slot_info m !! Z.to_nat k = Some t ->
       tegrabl_a_b_get_retry_count_reg asserts k reg' = Ok (retry_count t)) /\
    BOOT_CHAIN_REG_UPDATE_FLAG_GET reg' =
      default BC_FLAG_OTA_OFF (flag_for m s).
Proof.
  intros M Hm Hn Hr Hmg Hb. pose proof (mo_slots_length _ M) as Hl.
  destruct (mo_slots _ M) as (a & b & Hs & Ha & Hbk). pose proof Hb as (s & Hi & Es & _).
  assert (Hpos : forall j t, slot_info m !! j = Some t -> 0 <= priority t).
  { intros j t Et. rewrite Hs in Et. destruct j as [|[|j]]; [injection Et as <-..|done];
      [apply (so_priority _ Ha)|apply (so_priority _ Hbk)]. }
  assert (retry_count a < 16 /\ retry_count b < 16) as [Ra Rb]
    by (split; apply Hr; rewrite Hs; set_solver).
  pose proof (so_retry _ Ha). pose proof (so_retry _ Hbk).
  set (reg0 := BOOT_CHAIN_REG_MAGIC_SET 0).
  destruct (saved_reg_fields reg0 i m a b (flag_for m s)) as (F1 & F2 & F3 & F4 & F5 & F6).
  exists (saved_reg reg0 i m a b (flag_for m s)), s.
  split; [|split; [done|split; [|split]]].
  - unfold tegrabl_a_b_init_boot_slot_reg. fold reg0.
    destruct (Z.eqb_spec (BOOT_CHAIN_REG_MAGIC_GET reg) BOOT_CHAIN_REG_MAGIC); [done|].
    cbn [tegrabl_a_b_get_active_slot].
    rewrite (active_slot_of_best m i) by (rewrite ?Hn; done || lia). cbn [res_bind default].
    change (negb (TEGRABL_NO_ERROR =? TEGRABL_NO_ERROR)) with false. cbv iota.
    cbn [from_option id]. rewrite (save_reg_eq _ _ _ _ a b s) by (done || lia). done.
  - cbn [tegrabl_a_b_get_active_slot]. unfold boot_chain_get_bootslot_from_reg, tegrabl_a_b_is_valid.
    rewrite F1, F2, F3, Hn. change (BOOT_CHAIN_REG_MAGIC_GET reg0 =? BOOT_CHAIN_REG_MAGIC) with true.
    change (1 <? 2 mod 8) with true. cbn [andb negb]. by rewrite Z.mod_small by lia.
  - intros k t Hk Et. unfold tegrabl_a_b_get_retry_count_reg. rewrite Hs in Et.
    assert (k = 0 \/ k = 1) as [-> | ->] by lia; injection Et as <-.
    + cbn [Z.eqb BOOT_SLOT_A]. rewrite F4, Z.mod_small, u8_small by lia. done.
    + change (1 =? BOOT_SLOT_A) with false. change (1 =? BOOT_SLOT_B) with true. cbv iota.
      rewrite F5, Z.mod_small, u8_small by lia. done.
  - rewrite F6. unfold flag_for. destruct (boot_successful s =? 0); [done|].
    by destruct (BOOTCTRL_SUPPORT_REDUNDANCY (version m) =? 0).
Qed.

(** ** Suffixes *)

(** The suffix reported for the slot in the register leads back to that slot,
    in the short and in the full form; without a valid register it is slot A. *)
Theorem bootslot_suffix_roundtrip reg full :
  BOOT_CHAIN_REG_SLOT_NUM_GET reg < 2 ->
  exists sfx, tegrabl_a_b_get_bootslot_suffix reg full = (TEGRABL_NO_ERROR, Some sfx) /\
    tegrabl_a_b_get_slot_via_suffix sfx =
      (TEGRABL_NO_ERROR,
       Some (if tegrabl_a_b_is_valid reg None then BOOT_CHAIN_REG_SLOT_NUM_GET reg
             else BOOT_SLOT_A)).
Proof.
  intros Hlt. assert (Hge : 0 <= BOOT_CHAIN_REG_SLOT_NUM_GET reg)
    by (apply (field_get_range 3 16); lia).
  unfold tegrabl_a_b_get_bootslot_suffix, boot_chain_get_bootslot_from_reg.
  destruct (tegrabl_a_b_is_valid reg None); cbn [negb].
  - change (negb (TEGRABL_NO_ERROR =? TEGRABL_NO_ERROR)) with false. cbn [andb].
    assert (BOOT_CHAIN_REG_SLOT_NUM_GET reg = 0 \/ BOOT_CHAIN_REG_SLOT_NUM_GET reg = 1)
      as [-> | ->] by lia; destruct full; eexists; split; reflexivity.
  - destruct full; eexists; split; reflexivity.
Qed.
