(* ===== verification/AbStore.v ===== *)
(** A/B boot control: loading and storing the slot metadata, and the update before
    the kernel is started (common/lib/a_b_boot/tegrabl_a_b_boot_control.c).

    The state is the scratch register, the loaded copy of the metadata with its
    address ([smd_loadaddress]), and the partition manager below. *)

From S2P Require Import Prelude TegraError Utils BlockDev Gpt AbNaming PartitionManager.
From S2P Require Import AbBoot.

Inductive smd_bin_copy : Set := SMD_COPY_PRIMARY | SMD_COPY_SECONDARY.

(** "SMD" and "SMD_b" *)
Definition smd_part (bin_copy : smd_bin_copy) : list Z :=
  match bin_copy with
  | SMD_COPY_PRIMARY => [83; 77; 68]
  | SMD_COPY_SECONDARY => [83; 77; 68; 95; 98]
  end.

Record abstate (D H : Type) := mkAb {
  ab_reg : Z;
  ab_load : option (Z * smd);
  ab_pm : pstate D H
}.
Arguments mkAb {D H}.
Arguments ab_reg {D H}. Arguments ab_load {D H}. Arguments ab_pm {D H}.

(** [smd->crc32 = v] *)
Definition with_crc (m : smd) (v : Z) : smd :=
  mkSmd (magic m) (version m) (num_slots m) (slot_info m) v.

(** Indeterminate content of freshly allocated memory. *)
Definition blank_smd : smd := decode_smd (replicate 22 0).

Section Ops.
Context {D H : Type} `{BlockDriver D} `{Allocator H}.
Variable asserts : bool.
Implicit Types (s : pstate D H) (st : abstate D H).

(** The checks on a copy that was read: the checksum from version 2 on. *)
Definition smd_sane (data : list Z) : res Z :=
  let m := decode_smd data in
  let* v := tegrabl_a_b_get_version asserts (Some m) in
  if BOOT_CHAIN_VERSION_CRC32 <=? Z.land v BOOT_CHAIN_VERSION_MASK then
    let crc32 := Crc32.tegrabl_utils_crc32 0 (slice 0 (sizeof_smd - 4) data) in
    if negb (crc32 =? smd_crc32 m) then Ok (AB_ERR TEGRABL_ERR_VERIFY_FAILED 0)
    else Ok TEGRABL_NO_ERROR
  else Ok TEGRABL_NO_ERROR.

(** Error and the content of the buffer at [addr], which was [m]; after a failed
    read the content is never looked at. *)
Definition load_smd_bin_copy s (addr : Z) (m : smd) (bin_copy : smd_bin_copy)
    : res (Z * smd * pstate D H) :=
  let* (error, part) := tegrabl_partition_open s (Some (smd_part bin_copy)) (Some zero_partition) in
  if negb (error =? TEGRABL_NO_ERROR) then Ok (AB_SET_HIGHEST error, m, s)
  else
    let* (error, part) := tegrabl_partition_seek s part 0 TEGRABL_PARTITION_SEEK_SET in
    if negb (error =? TEGRABL_NO_ERROR) then Ok (AB_SET_HIGHEST error, m, s)
    else
      let* (error, data, part, s) := tegrabl_partition_read s part addr sizeof_smd in
      if negb (error =? TEGRABL_NO_ERROR) then Ok (AB_SET_HIGHEST error, m, s)
      else
        let* error := smd_sane data in
        Ok (error, decode_smd data, s).

(** Error and [*smd]: the address and what is there. *)
Definition tegrabl_a_b_get_smd st : res (Z * option (Z * smd) * abstate D H) :=
  match ab_load st with
  | Some l => Ok (TEGRABL_NO_ERROR, Some l, st)
  | None =>
      let '(addr, h) := heap_malloc (heap (pw (ab_pm st))) sizeof_smd in
      let s := set_pw (ab_pm st) (set_heap (pw (ab_pm st)) h) in
      if addr =? NULL then Ok (AB_ERR TEGRABL_ERR_NO_MEMORY 0, None, mkAb (ab_reg st) None s)
      else
        let* (error, m, s) := load_smd_bin_copy s addr blank_smd SMD_COPY_PRIMARY in
        if error =? TEGRABL_NO_ERROR
        then Ok (error, Some (addr, m), mkAb (ab_reg st) (Some (addr, m)) s)
        else
          let* (error, m, s) := load_smd_bin_copy s addr m SMD_COPY_SECONDARY in
          if error =? TEGRABL_NO_ERROR
          then Ok (error, Some (addr, m), mkAb (ab_reg st) (Some (addr, m)) s)
          else
            let* w := tegrabl_free (pw s) addr in
            Ok (error, None, mkAb (ab_reg st) None (set_pw s w))
  end.

(** [addr] is where the metadata [m] lies. *)
Definition flush_smd_bin_copy s (addr : Z) (m : smd) (bin_copy : smd_bin_copy)
    : res (Z * pstate D H) :=
  let* (error, part) := tegrabl_partition_open s (Some (smd_part bin_copy)) (Some zero_partition) in
  if negb (error =? TEGRABL_NO_ERROR) then Ok (AB_SET_HIGHEST error, s)
  else
    let dev := pt_block_device (default zero_partition part) in
    let* storage_type := tegrabl_blockdev_get_storage_type (pw s) dev in
    let* (error, s) :=
      if storage_type =? TEGRABL_STORAGE_QSPI_FLASH
      then tegrabl_partition_erase s part false
      else Ok (TEGRABL_NO_ERROR, s) in
    if negb (error =? TEGRABL_NO_ERROR) then Ok (AB_SET_HIGHEST error, s)
    else
      let* (error, part) := tegrabl_partition_seek s part 0 TEGRABL_PARTITION_SEEK_SET in
      if negb (error =? TEGRABL_NO_ERROR) then Ok (AB_SET_HIGHEST error, s)
      else
        let* (error, part, s) :=
          tegrabl_partition_write s part addr (encode_smd m) sizeof_smd in
        if negb (error =? TEGRABL_NO_ERROR) then Ok (AB_SET_HIGHEST error, s)
        else Ok (error, s).

(** The error is that of the second copy. *)
Definition tegrabl_a_b_flush_smd s (l : option (Z * smd))
    : res (Z * option (Z * smd) * pstate D H) :=
  match l with
  | None => Ok (AB_ERR TEGRABL_ERR_INVALID 0, None, s)
  | Some (addr, m) =>
      let m := with_crc m (Crc32.tegrabl_utils_crc32 0 (slice 0 (sizeof_smd - 4) (encode_smd m))) in
      let* (_, s) := flush_smd_bin_copy s addr m SMD_COPY_PRIMARY in
      let* (error, s) := flush_smd_bin_copy s addr m SMD_COPY_SECONDARY in
      Ok (error, Some (addr, m), s)
  end.

(** The part between the test of the flag and the label [done]: error, the local
    [reg], and the state. *)
Definition update_smd_body st (reg bc_flag : Z) : res (Z * Z * abstate D H) :=
  let* (error, l, st) := tegrabl_a_b_get_smd st in
  if negb (error =? TEGRABL_NO_ERROR) then Ok (AB_SET_HIGHEST error, reg, st)
  else
    match l with
    | None => Stuck BadPointer
    | Some (addr, m) =>
        let* v := tegrabl_a_b_get_version asserts (Some m) in
        let* (error, st_reg, m, update_smd) :=
          if (bc_flag =? BC_FLAG_REDUNDANCY_BOOT) && negb (BOOTCTRL_SUPPORT_REDUNDANCY v =? 0)
          then check_redundancy_status asserts reg m
          else Ok (TEGRABL_NO_ERROR, reg, m, 1) in
        let st := mkAb st_reg (Some (addr, m)) (ab_pm st) in
        if negb (error =? TEGRABL_NO_ERROR) || (update_smd =? 0)
        then Ok (error, reg, st)
        else
          let reg := ab_reg st in
          let* (m, reg) := tegrabl_a_b_copy_retry_count asserts (Some m) reg FROM_REG_TO_SMD in
          let* (error, l, s) := tegrabl_a_b_flush_smd (ab_pm st) (Some (addr, m)) in
          let st := mkAb (ab_reg st) l s in
          if negb (error =? TEGRABL_NO_ERROR) then Ok (AB_SET_HIGHEST error, reg, st)
          else Ok (error, reg, st)
    end.

Definition tegrabl_a_b_update_smd st : res (Z * abstate D H) :=
  let reg := ab_reg st in
  let bc_flag := u8 (BOOT_CHAIN_REG_UPDATE_FLAG_GET reg) in
  let* (error, reg, st) :=
    if (BOOT_CHAIN_REG_MAGIC_GET reg =? BOOT_CHAIN_REG_MAGIC) &&
       ((bc_flag =? BC_FLAG_OTA_ON) || (bc_flag =? BC_FLAG_REDUNDANCY_BOOT))
    then update_smd_body st reg bc_flag
    else Ok (TEGRABL_NO_ERROR, reg, st) in
  let st :=
    if BOOT_CHAIN_REG_MAGIC_GET reg =? BOOT_CHAIN_REG_MAGIC
    then mkAb 0 (ab_load st) (ab_pm st) else st in
  Ok (if negb (error =? TEGRABL_NO_ERROR) then AB_SET_HIGHEST error else error, st).

End Ops.
