(* ===== verification/AbStoreFacts.v ===== *)
(** The slot metadata on storage: what is flushed is what is loaded, a damaged
    first copy is replaced by the second, and the register is cleared before the
    kernel runs. *)

From S2P Require Import Prelude TegraError Utils BlockDev BlockDevFacts BlockDevProps.
From S2P Require Import Gpt GptFacts AbNaming PartitionManager PartitionFacts AbBoot.
From S2P Require Import AbBootFacts AbStore.

(** ** The checksum of a copy *)

Lemma slice_payload m : smd_ok m -> slice 0 (sizeof_smd - 4) (encode_smd m) = encode_payload m.
Proof.
  intros M. apply (slice_at [] _ (le_bytes 4 (smd_crc32 m))); [done|done|].
  by rewrite encode_payload_length.
Qed.

Lemma with_crc_ok m v : smd_ok m -> 0 <= v < 2 ^ 32 -> smd_ok (with_crc m v).
Proof. intros [? ? ? ? ?] Hv. by split. Qed.

(** The copy that a flush stores. *)
Definition stamped (m : smd) : smd :=
  with_crc m (Crc32.tegrabl_utils_crc32 0 (encode_payload m)).

Lemma stamped_ok m : smd_ok m -> smd_ok (stamped m).
Proof.
  intros M. apply with_crc_ok; [done|]. apply Crc32Facts.crc32_range; [lia|].
  pose proof (encode_smd_bytes m M) as Hb. by apply Forall_app in Hb as [Hb _].
Qed.

Lemma smd_sane_stamped asserts m :
  smd_ok (stamped m) -> smd_sane asserts (encode_smd (stamped m)) = Ok TEGRABL_NO_ERROR.
Proof.
  intros M. unfold smd_sane. rewrite decode_encode_smd, slice_payload by done.
  unfold tegrabl_a_b_get_version, deref, tegrabl_assert. cbn [negb].
  rewrite andb_false_r. cbn [res_bind].
  change (encode_payload (stamped m)) with (encode_payload m).
  cbn [smd_crc32 stamped with_crc]. rewrite Z.eqb_refl. cbn [negb].
  by destruct (_ <=? _).
Qed.

(** ** The two copies on a device *)

Section Store.
Context {D H : Type} `{BlockDriver D, !ReliableDriver D} `{Allocator H, !AllocatorLaws H}.
Variable asserts : bool.
Implicit Types (s : pstate D H) (d : bdev D) (i : partition_info).

Lemma scan_storage_pw s w f l : scan_storage (set_pw s w) f l = scan_storage s f l.
Proof. induction l as [|e l IH]; [done|]. cbn [scan_storage]. by rewrite IH. Qed.

Lemma open_pw s w name p :
  tegrabl_partition_open (set_pw s w) name p = tegrabl_partition_open s name p.
Proof.
  unfold tegrabl_partition_open. destruct name, p; try done. cbn [set_pw storage_list].
  destruct (storage_list s); [|done]. by rewrite scan_storage_pw.
Qed.

(** The partition of copy [c] is [i] on device [d] at address [dev]. *)
Definition copy_ok s d (dev : Z) (c : smd_bin_copy) i : Prop :=
  exists q, tegrabl_partition_open s (Some (smd_part c)) (Some zero_partition) =
      Ok (TEGRABL_NO_ERROR, Some q) /\
    pt_offset q = 0 /\ pt_block_device q = dev /\ handle_ok s q i d /\
    sizeof_smd <= pi_total_size i.

Lemma copy_ok_put s d dev c i x h :
  copy_ok s d dev c i -> media d x ->
  copy_ok (set_pw s (put (pw s) dev d x h)) (set_priv d x) dev c i.
Proof.
  intros (q & E & Ho & Ed & Hq & Hz) M. exists q. rewrite open_pw.
  split; [done|]. split; [done|]. split; [done|]. split; [|done].
  rewrite <- Ed. by apply (handle_ok_put s q q i i).
Qed.

Lemma seek_start s q i d :
  handle_ok s q i d -> pt_offset q = 0 ->
  tegrabl_partition_seek s (Some q) 0 TEGRABL_PARTITION_SEEK_SET = Ok (TEGRABL_NO_ERROR, Some q).
Proof.
  intros Hq Ho. destruct (handle_bounds _ _ _ _ Hq) as (_ & B2 & _).
  unfold tegrabl_partition_seek. rewrite (ho_init _ _ _ _ Hq), (ho_info _ _ _ _ Hq).
  cbn [res_bind]. change (TEGRABL_PARTITION_SEEK_SET =? TEGRABL_PARTITION_SEEK_SET) with true.
  cbv iota. change (s64 (0 + 0)) with 0. change (0 <? 0) with false. cbv iota.
  change (u64 0) with 0. destruct (Z.ltb_spec (pi_total_size i) 0); [lia|].
  destruct q as [a b o]. cbn in Ho. by subst o.
Qed.

Definition copy_bytes d i : list Z := slice (part_start d i) sizeof_smd (drv_bytes (bd_priv d)).

Lemma load_copy_ok s d dev c i addr m r :
  copy_ok s d dev c i -> 0 < addr -> heap_room (heap (pw s)) r -> bounce_cost d sizeof_smd <= r ->
  exists x h, media d x /\ drv_bytes x = drv_bytes (bd_priv d) /\
    heap_room h (r - bounce_cost d sizeof_smd) /\
    load_smd_bin_copy asserts s addr m c =
    (let* e := smd_sane asserts (copy_bytes d i) in
     Ok (e, decode_smd (copy_bytes d i), set_pw s (put (pw s) dev d x h))).
Proof.
  intros (q & E & Ho & Ed & Hq & Hz) Ha Hr Hc.
  destruct (partition_read_ok s q i d addr sizeof_smd r) as (x & h & Er & M & Hx & Hr');
    [done|done|rewrite Ho; lia|done|rewrite Ho; lia|done|done|].
  exists x, h. split; [done|]. split; [done|]. split; [done|].
  unfold load_smd_bin_copy. rewrite E. cbn [res_bind].
  change (negb (TEGRABL_NO_ERROR =? TEGRABL_NO_ERROR)) with false. cbv iota.
  rewrite (seek_start s q i d) by done. cbn [res_bind].
  change (negb (TEGRABL_NO_ERROR =? TEGRABL_NO_ERROR)) with false. cbv iota.
  rewrite Er. cbn [res_bind].
  change (negb (TEGRABL_NO_ERROR =? TEGRABL_NO_ERROR)) with false. cbv iota.
  rewrite Ho, Z.add_0_r, Ed. reflexivity.
Qed.

(** The device is not QSPI flash, which would be erased first. *)
Definition not_qspi d : Prop :=
  u16 (Z.min (Z.land (Z.shiftr (bd_device_id d) 16) 0xFF) TEGRABL_STORAGE_INVALID) <>
  TEGRABL_STORAGE_QSPI_FLASH.

Lemma flush_copy_ok s d dev c i addr m r :
  copy_ok s d dev c i -> not_qspi d -> smd_ok m -> 0 < addr ->
  heap_room (heap (pw s)) r -> bounce_cost d sizeof_smd <= r ->
  exists x h, flush_smd_bin_copy s addr m c =
      Ok (TEGRABL_NO_ERROR, set_pw s (put (pw s) dev d x h)) /\ media d x /\
    drv_bytes x = splice (part_start d i) (encode_smd m) (drv_bytes (bd_priv d)) /\
    heap_room h (r - bounce_cost d sizeof_smd).
Proof.
  intros (q & E & Ho & Ed & Hq & Hz) Hnq M Ha Hr Hc.
  destruct (partition_write_ok s q i d addr (encode_smd m) sizeof_smd r)
    as (x & h & Ew & Mx & Hx & Hr');
    [done|done|rewrite Ho; lia|done|by apply encode_smd_length|rewrite Ho; lia|done|done|].
  exists x, h. split; [|split; [done|split; [|done]]].
  - unfold flush_smd_bin_copy. rewrite E. cbn [res_bind].
    change (negb (TEGRABL_NO_ERROR =? TEGRABL_NO_ERROR)) with false. cbv iota.
    cbn [from_option id]. unfold tegrabl_blockdev_get_storage_type, get_dev, NULL.
    pose proof (ho_addr _ _ _ _ Hq). destruct (Z.eqb_spec (pt_block_device q) 0); [lia|].
    rewrite (ho_dev _ _ _ _ Hq). cbn [res_bind].
    destruct (Z.eqb_spec (u16 (Z.min (Z.land (Z.shiftr (bd_device_id d) 16) 255)
      TEGRABL_STORAGE_INVALID)) TEGRABL_STORAGE_QSPI_FLASH); [by destruct Hnq|].
    cbn [res_bind]. change (negb (TEGRABL_NO_ERROR =? TEGRABL_NO_ERROR)) with false. cbv iota.
    rewrite (seek_start s q i d) by done. cbn [res_bind].
    change (negb (TEGRABL_NO_ERROR =? TEGRABL_NO_ERROR)) with false. cbv iota.
    rewrite Ew. cbn [res_bind].
    change (negb (TEGRABL_NO_ERROR =? TEGRABL_NO_ERROR)) with false. cbv iota. by rewrite Ed.
  - by rewrite Hx, Ho, Z.add_0_r.
Qed.

(** Both copies on one device, on partitions that do not overlap, and heap for
    [n] transfers and the buffer. *)
Record store_ok s d (dev : Z) (i1 i2 : partition_info) (r : Z) (n : Z) : Prop := {
  st_primary : copy_ok s d dev SMD_COPY_PRIMARY i1;
  st_secondary : copy_ok s d dev SMD_COPY_SECONDARY i2;
  st_disjoint : part_start d i1 + pi_total_size i1 <= part_start d i2 \/
                part_start d i2 + pi_total_size i2 <= part_start d i1;
  st_device : not_qspi d;
  st_room : heap_room (heap (pw s)) r;
  st_cost : n * bounce_cost d sizeof_smd + alloc_cost 8 sizeof_smd <= r
}.

Lemma bounce_pos d len : geom d -> 0 <= len -> 0 < bounce_cost d len.
Proof.
  intros G Hl. unfold bounce_cost, alloc_cost. pose proof (pow2_pos _ (proj1 (g_lg _ G))). lia.
Qed.

Lemma copy_geom s d dev c i : copy_ok s d dev c i -> geom d.
Proof. intros (q & _ & _ & _ & Hq & _). apply Hq. Qed.

Lemma copy_bounds s d dev c i :
  copy_ok s d dev c i ->
  0 <= part_start d i /\ part_start d i + pi_total_size i <= zlen (drv_bytes (bd_priv d)) /\
  sizeof_smd <= pi_total_size i.
Proof.
  intros (q & _ & _ & _ & Hq & Hz). destruct (handle_bounds _ _ _ _ Hq) as (? & ? & ? & ? & ->).
  auto.
Qed.

Lemma flush_ok s d dev i1 i2 r n addr m :
  store_ok s d dev i1 i2 r n -> 2 <= n -> smd_ok m -> smd_ok (stamped m) -> 0 < addr ->
  exists x h, tegrabl_a_b_flush_smd s (Some (addr, m)) =
      Ok (TEGRABL_NO_ERROR, Some (addr, stamped m), set_pw s (put (pw s) dev d x h)) /\
    store_ok (set_pw s (put (pw s) dev d x h)) (set_priv d x) dev i1 i2
      (r - 2 * bounce_cost d sizeof_smd) (n - 2) /\
    copy_bytes (set_priv d x) i1 = encode_smd (stamped m) /\
    copy_bytes (set_priv d x) i2 = encode_smd (stamped m).
Proof.
  intros [C1 C2 Hdis Hnq Hr Hc] Hn M Ms Ha.
  pose proof (bounce_pos d sizeof_smd (copy_geom _ _ _ _ _ C1) ltac:(done)) as Hb.
  destruct (copy_bounds _ _ _ _ _ C1) as (B1 & B2 & B3).
  destruct (copy_bounds _ _ _ _ _ C2) as (D1 & D2 & D3).
  assert (alloc_cost 8 sizeof_smd = 158) as Hac by reflexivity.
  destruct (flush_copy_ok s d dev _ i1 addr (stamped m) r C1 Hnq Ms Ha Hr)
    as (x1 & h1 & E1 & M1 & Hx1 & Hr1); [nia|].
  pose proof (copy_ok_put _ _ _ _ _ x1 h1 C1 M1) as C1'.
  pose proof (copy_ok_put _ _ _ _ _ x1 h1 C2 M1) as C2'.
  destruct (flush_copy_ok (set_pw s (put (pw s) dev d x1 h1)) (set_priv d x1) dev _ i2 addr
    (stamped m) (r - bounce_cost d sizeof_smd) C2' Hnq Ms Ha Hr1) as (x2 & h2 & E2 & M2 & Hx2 & Hr2).
  { change (bounce_cost (set_priv d x1) sizeof_smd) with (bounce_cost d sizeof_smd). nia. }
  cbn [set_pw pw] in E2. change (part_start (set_priv d x1) i2) with (part_start d i2) in Hx2.
  cbn [set_priv bd_priv] in Hx2. rewrite Hx1 in Hx2.
  assert (Eput : put (put (pw s) dev d x1 h1) dev (set_priv d x1) x2 h2 = put (pw s) dev d x2 h2).
  { unfold put. cbn. f_equal. apply insert_insert_eq. }
  assert (Epw : forall w1 w2, set_pw (set_pw s w1) w2 = set_pw s w2) by done.
  rewrite Eput in E2. unfold set_pw at 3 in E2. cbn in E2.
  pose proof (encode_smd_length (stamped m) Ms) as Hel. unfold sizeof_smd in *.
  pose proof (splice_length (part_start d i1) (encode_smd (stamped m)) (drv_bytes (bd_priv d)))
    as Hsl. specialize (Hsl ltac:(lia) ltac:(lia)).
  exists x2, h2. split; [|split; [|split]].
  - unfold tegrabl_a_b_flush_smd, sizeof_smd. fold (stamped m).
    change (22 - 4) with (sizeof_smd - 4). rewrite slice_payload by done.
    fold (stamped m). rewrite E1. cbn [res_bind]. rewrite E2. done.
  - assert (M2' : media d x2) by done.
    split; [by apply copy_ok_put|by apply copy_ok_put|done|done| |].
    + eapply heap_room_weaken; [exact Hr2|].
      change (bounce_cost (set_priv d x1) 22) with (bounce_cost d 22). lia.
    + change (bounce_cost (set_priv d x2) sizeof_smd) with (bounce_cost d 22).
      change (bounce_cost d sizeof_smd) with (bounce_cost d 22).
      change (alloc_cost 8 sizeof_smd) with (alloc_cost 8 22). lia.
  - unfold copy_bytes. change (part_start (set_priv d x2) i1) with (part_start d i1).
    cbn [set_priv bd_priv]. rewrite Hx2. unfold sizeof_smd.
    rewrite slice_splice_other by (rewrite ?Hsl; lia). rewrite <- Hel.
    apply slice_splice_same; lia.
  - unfold copy_bytes. change (part_start (set_priv d x2) i2) with (part_start d i2).
    cbn [set_priv bd_priv]. rewrite Hx2. unfold sizeof_smd. rewrite <- Hel.
    apply slice_splice_same; rewrite ?Hsl; lia.
Qed.

Lemma set_heap_as_put (w : world D H) dev d h :
  devs w !! dev = Some d -> set_heap w h = put w dev d (bd_priv d) h.
Proof.
  intros Hd. unfold set_heap, put. f_equal. symmetry. apply insert_id. rewrite Hd. by destruct d.
Qed.

Lemma copy_ok_heap s d dev c i h :
  copy_ok s d dev c i -> copy_ok (set_pw s (set_heap (pw s) h)) d dev c i.
Proof.
  intros C. pose proof C as (q & _ & _ & Ed & Hq & _).
  pose proof (ho_dev _ _ _ _ Hq) as Hd. rewrite Ed in Hd.
  rewrite (set_heap_as_put _ _ _ _ Hd).
  pose proof (copy_ok_put s d dev c i (bd_priv d) h C (ho_media _ _ _ _ Hq)) as C'.
  replace (set_priv d (bd_priv d)) with d in C' by (by destruct d). done.
Qed.

(** The metadata survives operations that leave the bytes of the medium alone. *)
Lemma store_ok_same s d dev i1 i2 r n x h r' n' :
  store_ok s d dev i1 i2 r n -> media d x -> heap_room h r' ->
  n' * bounce_cost d sizeof_smd + alloc_cost 8 sizeof_smd <= r' ->
  store_ok (set_pw s (put (pw s) dev d x h)) (set_priv d x) dev i1 i2 r' n'.
Proof.
  intros [C1 C2 Hd Hq _ _] M Hr Hc. by split; try apply copy_ok_put.
Qed.

Lemma store_ok_heap s d dev i1 i2 r n h r' n' :
  store_ok s d dev i1 i2 r n -> heap_room h r' ->
  n' * bounce_cost d sizeof_smd + alloc_cost 8 sizeof_smd <= r' ->
  store_ok (set_pw s (set_heap (pw s) h)) d dev i1 i2 r' n'.
Proof.
  intros [C1 C2 Hd Hq _ _] Hr Hc. by split; try apply copy_ok_heap.
Qed.

Lemma copy_bytes_same d x i :
  drv_bytes x = drv_bytes (bd_priv d) -> copy_bytes (set_priv d x) i = copy_bytes d i.
Proof.
  intros Hx. unfold copy_bytes. change (part_start (set_priv d x) i) with (part_start d i).
  cbn [set_priv bd_priv]. by rewrite Hx.
Qed.

(** Loading: the first copy if it is sane, else the second; the stored copies stay
    as they are. *)
Lemma get_smd_cases s d dev i1 i2 r n reg e1 :
  store_ok s d dev i1 i2 r n -> 3 <= n ->
  smd_sane asserts (copy_bytes d i1) = Ok e1 ->
  (e1 <> TEGRABL_NO_ERROR -> smd_sane asserts (copy_bytes d i2) = Ok TEGRABL_NO_ERROR) ->
  let m := decode_smd (copy_bytes d (if e1 =? TEGRABL_NO_ERROR then i1 else i2)) in
  exists addr st' d' r', tegrabl_a_b_get_smd asserts (mkAb reg None s) =
      Ok (TEGRABL_NO_ERROR, Some (addr, m), st') /\
    0 < addr /\ ab_reg st' = reg /\ ab_load st' = Some (addr, m) /\
    store_ok (ab_pm st') d' dev i1 i2 r' (n - 3).
Proof.
  intros S Hn E1 E2 m. pose proof S as [C1 C2 _ _ Hr Hc]. pose proof (copy_geom _ _ _ _ _ C1) as G.
  assert (Hb : alloc_cost 8 sizeof_smd < bounce_cost d sizeof_smd).
  { unfold bounce_cost, alloc_cost. pose proof (pow2_pos _ (proj1 (g_lg _ G))). lia. }
  assert (0 < alloc_cost 8 sizeof_smd) by done.
  destruct (malloc_granted (heap (pw s)) sizeof_smd r Hr)
    as (addr & h & Em & Ha & _ & Hlive & _ & Hr1 & _); [done|nia|].
  assert (S1 := store_ok_heap _ _ _ _ _ _ _ h _ (n - 1) S Hr1 ltac:(nia)).
  set (s1 := set_pw s (set_heap (pw s) h)) in *.
  destruct (load_copy_ok s1 d dev _ i1 addr blank_smd (r - alloc_cost 8 sizeof_smd) (st_primary _ _ _ _ _ _ _ S1))
    as (x1 & h1 & M1 & Hx1 & Hr2 & L1); [lia|done|nia|].
  unfold tegrabl_a_b_get_smd. cbn [ab_load ab_pm ab_reg]. rewrite Em. unfold NULL.
  destruct (Z.eqb_spec addr 0); [lia|]. fold s1. rewrite L1, E1. cbn [res_bind].
  assert (S2 := store_ok_same _ _ _ _ _ _ _ x1 h1 _ (n - 2) S1 M1 Hr2 ltac:(nia)).
  destruct (Z.eqb_spec e1 TEGRABL_NO_ERROR) as [->|Hne].
  { eexists addr, _, _, _. split; [reflexivity|]. split; [lia|]. split; [done|]. split; [done|].
    destruct S2. split; try done. change (bounce_cost (set_priv d x1)) with (bounce_cost d). nia. }
  destruct (load_copy_ok (set_pw s1 (put (pw s1) dev d x1 h1)) (set_priv d x1) dev _ i2 addr
    (decode_smd (copy_bytes d i1)) (r - alloc_cost 8 sizeof_smd - bounce_cost d sizeof_smd)
    (st_secondary _ _ _ _ _ _ _ S2)) as (x2 & h2 & M2 & Hx2 & Hr3 & L2); [lia|done|
    change (bounce_cost (set_priv d x1) sizeof_smd) with (bounce_cost d sizeof_smd); nia|].
  rewrite copy_bytes_same in L2 by done. rewrite L2, (E2 Hne). cbn [res_bind].
  change (TEGRABL_NO_ERROR =? TEGRABL_NO_ERROR) with true. cbv iota.
  eexists addr, _, _, _. split; [reflexivity|]. split; [lia|]. split; [done|]. split; [done|].
  apply (store_ok_same _ _ _ _ _ _ _ x2 h2 _ (n - 3) S2 M2 Hr3).
  change (bounce_cost (set_priv d x1)) with (bounce_cost d). nia.
Qed.


(** When the first copy is damaged (checksum mismatch) and the second is
    intact, [tegrabl_a_b_get_smd] returns the second without an error. *)
Theorem smd_secondary_recovers s d dev i1 i2 r reg e1 :
  store_ok s d dev i1 i2 r 3 ->
  smd_sane asserts (copy_bytes d i1) = Ok e1 -> e1 <> TEGRABL_NO_ERROR ->
  smd_sane asserts (copy_bytes d i2) = Ok TEGRABL_NO_ERROR ->
  exists addr st', tegrabl_a_b_get_smd asserts (mkAb reg None s) =
      Ok (TEGRABL_NO_ERROR, Some (addr, decode_smd (copy_bytes d i2)), st') /\
    ab_load st' = Some (addr, decode_smd (copy_bytes d i2)).
Proof.
  intros S E1 Hne E2.
  destruct (get_smd_cases s d dev i1 i2 r 3 reg e1 S) as (addr & st & _ & _ & E & _ & _ & El & _); try done.
  destruct (Z.eqb_spec e1 TEGRABL_NO_ERROR); [done|]. eauto.
Qed.
End Store.
