(* ===== verification/AbPolicy.v ===== *)
(** The redundancy policy over a sequence of boots that fail after cboot, and the
    hand-over of the scratch register.

    The stages before cboot are not in this repository; they use the same routines:
    select a slot, fill the register, spend one retry of the slot in the register.
    cboot then runs [check_redundancy_status] and takes the retry counts over from
    the register. *)

From S2P Require Import Prelude TegraError Utils BlockDev BlockDevFacts PartitionManager.
From S2P Require Import AbNaming AbBoot AbBootFacts AbStore.

(** ** A boot that fails after cboot *)

Section Boot.
Variable asserts : bool.

(** The slot that boots and the register it leaves for cboot. *)
Definition earlier_stage (m : smd) : res (Z * Z) :=
  let* (_, slot) := tegrabl_a_b_get_active_slot 0 (Some m) in
  let slot := default 0 slot in
  let* (_, reg) := tegrabl_a_b_init_boot_slot_reg asserts 0 (Some m) in
  let* count := tegrabl_a_b_get_retry_count_reg asserts slot reg in
  Ok (slot, tegrabl_a_b_set_retry_count_reg reg slot (u8 (count - 1))).

Definition failed_boot (m : smd) : res (Z * smd) :=
  let* (slot, reg) := earlier_stage m in
  let* (_, reg, m, _) := check_redundancy_status asserts reg m in
  let* (m, _) := tegrabl_a_b_copy_retry_count asserts (Some m) reg FROM_REG_TO_SMD in
  Ok (slot, m).

(** The slots of [n] boots in a row and the metadata after them. *)
Fixpoint failed_boots (n : nat) (m : smd) : res (list Z * smd) :=
  match n with
  | O => Ok ([], m)
  | S n =>
      let* (slot, m) := failed_boot m in
      let* (slots, m) := failed_boots n m in
      Ok (slot :: slots, m)
  end.
End Boot.

(** ** The policy on priorities alone *)

Definition next_slot (p : Z * Z) : Z := if snd p <=? fst p then 0 else 1.

Definition next_priorities (p : Z * Z) : Z * Z :=
  let '(p0, p1) := p in
  if p1 <=? p0 then
    if p1 <? p0 then (p0 - 1, p1)
    else if p1 <? 15 then (p0, p1 + 1) else (p1 - 1, p1)
  else if p1 =? p0 + 1 then
    if 1 <? p0 then (p0 - 1, p1) else (p0, p1 + 1)
  else (15, 14).

Fixpoint run_priorities (n : nat) (p : Z * Z) : list Z * (Z * Z) :=
  match n with
  | O => ([], p)
  | S n => let '(slots, q) := run_priorities n (next_priorities p) in (next_slot p :: slots, q)
  end.

Definition in_range (p : Z * Z) : Prop := 1 <= fst p <= 15 /\ 1 <= snd p <= 15.

Lemma next_in_range p : in_range p -> in_range (next_priorities p).
Proof.
  destruct p as [p0 p1]. unfold in_range, next_priorities. cbn [fst snd]. intros.
  repeat case_test; zbool; cbn [fst snd]; lia.
Qed.

(** ** The code follows the policy *)

Section Policy.
Variables (asserts : bool) (v crc r0 r1 b0 b1 : Z) (sa sb : list Z).
Hypotheses (Hv : 0 <= v < 2 ^ 16) (Hen : BOOTCTRL_SUPPORT_REDUNDANCY v <> 0)
  (Hus : BOOTCTRL_SUPPORT_REDUNDANCY_USER v <> 0)
  (Hr0 : 1 <= r0 < 16) (Hr1 : 1 <= r1 < 16) (Hb0 : b0 <> 0) (Hb1 : b1 <> 0).

(** Metadata with two healthy slots of the given priorities. *)
Definition meta (p : Z * Z) : smd :=
  mkSmd BOOT_CHAIN_MAGIC v 2 [mkSlot (fst p) sa r0 b0; mkSlot (snd p) sb r1 b1] crc.

Lemma meta_active p :
  in_range p -> boot_chain_get_bootslot_from_smd (meta p) = Ok (TEGRABL_NO_ERROR, Some (next_slot p)).
Proof.
  destruct p as [p0 p1]. unfold in_range. cbn [fst snd]. intros Hp.
  apply active_slot_of_best; [done|done| |].
  { intros [|[|j]] t Et; [injection Et as <-; cbn; lia..|done]. }
  unfold next_slot. cbn [fst snd].
  destruct (Z.leb_spec p1 p0); eexists; (split; [cbn; lia|]); (split; [reflexivity|]);
    (split; [split; cbn; lia|]); intros j t Hj Et _; cbn in Hj;
    assert (j = 0 \/ j = 1) as [-> | ->] by lia; injection Et as <-; cbn; lia.
Qed.

(** The register as cboot finds it: the slot, and one retry less for it. *)
Definition stage_reg (p : Z * Z) : Z :=
  let m := meta p in
  let a := mkSlot (fst p) sa r0 b0 in
  let b := mkSlot (snd p) sb r1 b1 in
  let k := next_slot p in
  let reg := saved_reg (BOOT_CHAIN_REG_MAGIC_SET 0) k m a b (Some BC_FLAG_REDUNDANCY_BOOT) in
  tegrabl_a_b_set_retry_count_reg reg k (if k =? 0 then r0 - 1 else r1 - 1).

Lemma earlier_stage_meta p : in_range p -> earlier_stage asserts (meta p) = Ok (next_slot p, stage_reg p).
Proof.
  intros Hp. unfold earlier_stage, tegrabl_a_b_get_active_slot. rewrite meta_active by done.
  cbn [res_bind from_option id]. unfold tegrabl_a_b_init_boot_slot_reg.
  change (BOOT_CHAIN_REG_MAGIC_GET 0 =? BOOT_CHAIN_REG_MAGIC) with false. cbv iota.
  cbn [tegrabl_a_b_get_active_slot]. rewrite meta_active by done. cbn [res_bind].
  change (negb (TEGRABL_NO_ERROR =? TEGRABL_NO_ERROR)) with false. cbv iota. cbn [from_option id].
  unfold stage_reg. set (a := mkSlot (fst p) sa r0 b0). set (b := mkSlot (snd p) sb r1 b1).
  assert (Hfl : forall s, s = a \/ s = b -> flag_for (meta p) s = Some BC_FLAG_REDUNDANCY_BOOT).
  { intros s Hs. unfold flag_for. cbn [version meta].
    assert (boot_successful s <> 0) by (by destruct Hs as [-> | ->]).
    destruct (Z.eqb_spec (boot_successful s) 0); [done|].
    destruct (Z.eqb_spec (BOOTCTRL_SUPPORT_REDUNDANCY v) 0); done. }
  assert (next_slot p = 0 \/ next_slot p = 1) as [-> | ->]
    by (unfold next_slot; destruct (_ <=? _); auto).
  - rewrite (save_reg_eq _ _ (meta p) 0 a b a) by (done || lia). rewrite Hfl by auto.
    cbn [res_bind]. unfold tegrabl_a_b_get_retry_count_reg.
    change (0 =? BOOT_SLOT_A) with true. cbv iota. cbn [res_bind].
    destruct (saved_reg_fields (BOOT_CHAIN_REG_MAGIC_SET 0) 0 (meta p) a b
      (Some BC_FLAG_REDUNDANCY_BOOT)) as (_ & _ & _ & -> & _).
    cbn [retry_count a]. rewrite Z.mod_small, (u8_small r0), u8_small by lia. done.
  - rewrite (save_reg_eq _ _ (meta p) 1 a b b) by (done || lia). rewrite Hfl by auto.
    cbn [res_bind]. unfold tegrabl_a_b_get_retry_count_reg.
    change (1 =? BOOT_SLOT_A) with false. change (1 =? BOOT_SLOT_B) with true. cbv iota.
    cbn [res_bind].
    destruct (saved_reg_fields (BOOT_CHAIN_REG_MAGIC_SET 0) 1 (meta p) a b
      (Some BC_FLAG_REDUNDANCY_BOOT)) as (_ & _ & _ & _ & -> & _).
    cbn [retry_count b]. rewrite Z.mod_small, (u8_small r1), u8_small by lia. done.
Qed.

Lemma set_retry_fields reg k c :
  0 <= c < 16 ->
  let r := tegrabl_a_b_set_retry_count_reg reg k c in
  BOOT_CHAIN_REG_SLOT_NUM_GET r = BOOT_CHAIN_REG_SLOT_NUM_GET reg /\
  BOOT_CHAIN_REG_MAGIC_GET r = BOOT_CHAIN_REG_MAGIC_GET reg /\
  BOOT_CHAIN_REG_A_RETRY_COUNT_GET r = (if k =? 0 then c else BOOT_CHAIN_REG_A_RETRY_COUNT_GET reg) /\
  BOOT_CHAIN_REG_B_RETRY_COUNT_GET r = (if k =? 1 then c else BOOT_CHAIN_REG_B_RETRY_COUNT_GET reg).
Proof.
  intros Hc. unfold tegrabl_a_b_set_retry_count_reg, BOOT_SLOT_A, BOOT_SLOT_B,
    BOOT_CHAIN_REG_MAGIC_GET, BOOT_CHAIN_REG_SLOT_NUM_GET, BOOT_CHAIN_REG_A_RETRY_COUNT_GET,
    BOOT_CHAIN_REG_B_RETRY_COUNT_GET, BOOT_CHAIN_REG_A_RETRY_COUNT_SET,
    BOOT_CHAIN_REG_B_RETRY_COUNT_SET.
  destruct (Z.eqb_spec k 0) as [->|].
  - change (0 =? 1) with false. split_and!; reg_fields; try done. by apply Z.mod_small.
  - destruct (Z.eqb_spec k 1); split_and!; reg_fields; try done. by apply Z.mod_small.
Qed.

(** The retry counts, read from the register. *)
Lemma retry_reg reg k :
  k = 0 \/ k = 1 ->
  tegrabl_a_b_get_retry_count_reg asserts k reg =
    Ok (if k =? 0 then BOOT_CHAIN_REG_A_RETRY_COUNT_GET reg else BOOT_CHAIN_REG_B_RETRY_COUNT_GET reg).
Proof.
  assert (Ha : 0 <= BOOT_CHAIN_REG_A_RETRY_COUNT_GET reg < 2 ^ 4)
    by (apply field_get_range; lia).
  assert (Hb : 0 <= BOOT_CHAIN_REG_B_RETRY_COUNT_GET reg < 2 ^ 4)
    by (apply field_get_range; lia).
  intros [-> | ->]; unfold tegrabl_a_b_get_retry_count_reg; cbn [Z.eqb BOOT_SLOT_A BOOT_SLOT_B];
    rewrite u8_small by lia; reflexivity.
Qed.

Lemma stage_reg_fields p :
  in_range p ->
  BOOT_CHAIN_REG_SLOT_NUM_GET (stage_reg p) = next_slot p /\
  BOOT_CHAIN_REG_A_RETRY_COUNT_GET (stage_reg p) = (if next_slot p =? 0 then r0 - 1 else r0) /\
  BOOT_CHAIN_REG_B_RETRY_COUNT_GET (stage_reg p) = (if next_slot p =? 0 then r1 else r1 - 1).
Proof.
  intros Hp. unfold stage_reg.
  set (a := mkSlot (fst p) sa r0 b0). set (b := mkSlot (snd p) sb r1 b1).
  destruct (saved_reg_fields (BOOT_CHAIN_REG_MAGIC_SET 0) (next_slot p) (meta p) a b
    (Some BC_FLAG_REDUNDANCY_BOOT)) as (_ & F2 & _ & F4 & F5 & _).
  cbn [retry_count a b] in F4, F5. rewrite Z.mod_small in F4 by lia. rewrite Z.mod_small in F5 by lia.
  assert (next_slot p = 0 \/ next_slot p = 1) as Hk by (unfold next_slot; destruct (_ <=? _); auto).
  destruct (set_retry_fields (saved_reg (BOOT_CHAIN_REG_MAGIC_SET 0) (next_slot p) (meta p) a b
    (Some BC_FLAG_REDUNDANCY_BOOT)) (next_slot p) (if next_slot p =? 0 then r0 - 1 else r1 - 1))
    as (G1 & _ & G2 & G3); [destruct (next_slot p =? 0); lia|].
  rewrite G1, G2, G3, F2, F4, F5. destruct Hk as [-> | ->]; done.
Qed.

Lemma set_priority_meta p k q :
  k = 0 \/ k = 1 -> 0 <= q < 256 ->
  set_priority_ (meta p) k q = Ok (meta (if k =? 0 then (q, snd p) else (fst p, q))).
Proof.
  intros Hk Hq. unfold set_priority_. rewrite u8_small by lia.
  destruct Hk as [-> | ->]; reflexivity.
Qed.

Lemma rotate_meta p :
  in_range p ->
  rotate_slots_priority (meta p) (next_slot p)
    (if next_slot p =? 0 then fst p else snd p) (if next_slot p =? 0 then snd p else fst p) =
  Ok (meta (next_priorities p)).
Proof.
  destruct p as [p0 p1]. unfold in_range, next_slot, rotate_slots_priority, next_priorities,
    SLOT_PRIORITY_DEFAULT. cbn [fst snd]. intros Hp.
  destruct (Z.leb_spec p1 p0); cbn [Z.eqb Pos.eqb].
  - change (other_slot 0) with 1.
    destruct (Z.ltb_spec p1 p0); [by rewrite set_priority_meta by (auto; lia)|].
    destruct (Z.ltb_spec p1 15); by rewrite set_priority_meta by (auto; lia).
  - change (other_slot 1) with 0. destruct (Z.eqb_spec p1 (p0 + 1)).
    + destruct (Z.ltb_spec 1 p0); by rewrite set_priority_meta by (auto; lia).
    + rewrite set_priority_meta by (auto; lia). cbn [res_bind].
      by rewrite set_priority_meta by (auto; lia).
Qed.

Lemma get_priority_meta p k :
  k = 0 \/ k = 1 ->
  tegrabl_a_b_get_priority (Some (meta p)) k =
    Ok (TEGRABL_NO_ERROR, Some (if k =? 0 then fst p else snd p)).
Proof. intros [-> | ->]; reflexivity. Qed.

Lemma check_status_meta p :
  in_range p ->
  exists reg, check_redundancy_status asserts (stage_reg p) (meta p) =
      Ok (TEGRABL_NO_ERROR, reg, meta (next_priorities p), 1) /\
    BOOT_CHAIN_REG_A_RETRY_COUNT_GET reg = r0 /\ BOOT_CHAIN_REG_B_RETRY_COUNT_GET reg = r1.
Proof.
  intros Hp. destruct (stage_reg_fields p Hp) as (S1 & S2 & S3).
  pose proof (rotate_meta p Hp) as Hrot.
  assert (Hord : (if next_slot p =? 0 then snd p else fst p) <= (if next_slot p =? 0 then fst p else snd p))
    by (unfold next_slot; destruct (Z.leb_spec (snd p) (fst p)); cbn; lia).
  assert (Hk : next_slot p = 0 \/ next_slot p = 1) by (unfold next_slot; destruct (_ <=? _); auto).
  unfold check_redundancy_status, tegrabl_a_b_get_version, deref, tegrabl_assert.
  cbn [negb]. rewrite andb_false_r. cbn [res_bind]. change (version (meta p)) with v.
  destruct (Z.eqb_spec (BOOTCTRL_SUPPORT_REDUNDANCY_USER v) 0); [done|].
  unfold check_user_redundancy_status. rewrite S1, retry_reg, S2, S3 by done. cbn [res_bind].
  set (c := if next_slot p =? 0 then if next_slot p =? 0 then r0 - 1 else r0
            else if next_slot p =? 0 then r1 else r1 - 1).
  assert (Hc : u8 (c + 1) = if next_slot p =? 0 then r0 else r1)
    by (unfold c; destruct (next_slot p =? 0); rewrite u8_small; lia).
  rewrite Hc.
  destruct (set_retry_fields (stage_reg p) (next_slot p) (if next_slot p =? 0 then r0 else r1))
    as (_ & _ & G2 & G3); [destruct (next_slot p =? 0); lia|].
  set (reg := tegrabl_a_b_set_retry_count_reg _ _ _) in *.
  assert (Ho : other_slot (next_slot p) = 0 \/ other_slot (next_slot p) = 1)
    by (destruct Hk as [-> | ->]; auto).
  rewrite !get_priority_meta by done. cbn [res_bind].
  change (negb (TEGRABL_NO_ERROR =? TEGRABL_NO_ERROR)) with false. cbv iota. cbn [res_bind].
  change (negb (TEGRABL_NO_ERROR =? TEGRABL_NO_ERROR)) with false. cbv iota. cbn [from_option id].
  rewrite retry_reg by done. cbn [res_bind].
  assert (A1 : BOOT_CHAIN_REG_A_RETRY_COUNT_GET reg = r0)
    by (rewrite G2, S2; destruct Hk as [-> | ->]; done).
  assert (A2 : BOOT_CHAIN_REG_B_RETRY_COUNT_GET reg = r1)
    by (rewrite G3, S3; destruct Hk as [-> | ->]; done).
  exists reg. clearbody reg c. split; [|done]. rewrite A1, A2. unfold in_range in Hp.
  destruct Hk as [Ek | Ek]; rewrite Ek in *; cbn [other_slot Z.eqb] in *.
  - destruct (Z.eqb_spec r1 0); [lia|]. destruct (Z.eqb_spec (fst p) 0); [lia|].
    destruct (Z.eqb_spec (snd p) 0); [lia|]. cbn [negb andb].
    destruct (Z.leb_spec (snd p) (fst p)); [|lia]. unfold tegrabl_assert. cbn [negb].
    rewrite andb_false_r. cbn [res_bind]. rewrite Hrot. cbn [res_bind]. reflexivity.
  - destruct (Z.eqb_spec r0 0); [lia|]. destruct (Z.eqb_spec (snd p) 0); [lia|].
    destruct (Z.eqb_spec (fst p) 0); [lia|]. cbn [negb andb].
    destruct (Z.leb_spec (fst p) (snd p)); [|lia]. unfold tegrabl_assert. cbn [negb].
    rewrite andb_false_r. cbn [res_bind]. rewrite Hrot. cbn [res_bind]. reflexivity.
Qed.

Lemma failed_boot_meta p :
  in_range p -> failed_boot asserts (meta p) = Ok (next_slot p, meta (next_priorities p)).
Proof.
  intros Hp. unfold failed_boot. rewrite earlier_stage_meta by done. cbn [res_bind].
  destruct (check_status_meta p Hp) as (reg & -> & Ra & Rb). cbn [res_bind].
  unfold tegrabl_a_b_copy_retry_count, deref, tegrabl_assert. cbn [negb].
  rewrite andb_false_r. cbn [res_bind].
  change (get_slot (meta (next_priorities p)) BOOT_SLOT_A)
    with (@Ok slot (mkSlot (fst (next_priorities p)) sa r0 b0)).
  change (get_slot (meta (next_priorities p)) BOOT_SLOT_B)
    with (@Ok slot (mkSlot (snd (next_priorities p)) sb r1 b1)).
  cbn [res_bind]. rewrite Ra, Rb, (u8_small r0), (u8_small r1) by lia. reflexivity.
Qed.

Lemma failed_boots_meta n p :
  in_range p ->
  failed_boots asserts n (meta p) =
    Ok (fst (run_priorities n p), meta (snd (run_priorities n p))).
Proof.
  revert p. induction n as [|n IH]; intros p Hp; [done|]. cbn [failed_boots run_priorities].
  rewrite failed_boot_meta by done. cbn [res_bind]. rewrite IH by (by apply next_in_range).
  cbn [res_bind]. by destruct (run_priorities n (next_priorities p)).
Qed.
End Policy.

(** ** Convergence of the policy *)

(** Boots until the priorities are (15, 14), at most [n]. *)
Fixpoint settle (n : nat) (p : Z * Z) : option nat :=
  if (fst p =? 15) && (snd p =? 14) then Some O
  else match n with
       | O => None
       | S n => S <$> settle n (next_priorities p)
       end.

Lemma settle_run n p k :
  settle n p = Some k -> snd (run_priorities k p) = (15, 14) /\ (k <= n)%nat.
Proof.
  revert p k. induction n as [|n IH]; intros p k E; cbn [settle] in E.
  - destruct (_ && _) eqn:T; [|discriminate]. injection E as <-. zbool.
    destruct p; cbn in *. subst. split; [done|lia].
  - destruct (_ && _) eqn:T.
    + injection E as <-. zbool. destruct p; cbn in *. subst. split; [done|lia].
    + destruct (settle n (next_priorities p)) as [j|] eqn:Ej; [|discriminate].
      injection E as <-. apply IH in Ej as [E Hj]. cbn [run_priorities].
      destruct (run_priorities j (next_priorities p)). cbn in *. split; [done|lia].
Qed.

Definition settles_all : bool :=
  forallb (fun p0 => forallb (fun p1 =>
    match settle 17 (p0, p1) with Some _ => true | None => false end) (seqZ 1 15)) (seqZ 1 15).

Lemma settle_bound p : in_range p -> exists k, settle 17 p = Some k.
Proof.
  destruct p as [p0 p1]. unfold in_range. cbn [fst snd]. intros [H0 H1].
  assert (T : settles_all = true) by (vm_compute; reflexivity).
  unfold settles_all in T. rewrite forallb_forall in T.
  specialize (T p0). rewrite forallb_forall in T.
  specialize (T ltac:(apply list_elem_of_In, elem_of_seqZ; lia) p1
    ltac:(apply list_elem_of_In, elem_of_seqZ; lia)).
  destruct (settle 17 (p0, p1)); [eauto|discriminate].
Qed.

Lemma run_priorities_add a b p :
  run_priorities (a + b) p =
    let '(s, q) := run_priorities a p in
    let '(t, r) := run_priorities b q in (s ++ t, r).
Proof.
  revert p. induction a as [|a IH]; intros p; cbn [run_priorities Nat.add].
  - by destruct (run_priorities b p).
  - rewrite IH. destruct (run_priorities a (next_priorities p)) as [s q].
    by destruct (run_priorities b q).
Qed.

Lemma run_cycle n :
  run_priorities (4 * n) (15, 14) = (concat (replicate n [0; 0; 1; 1]), (15, 14)).
Proof.
  induction n as [|n IH]; [done|].
  replace (4 * S n)%nat with (4 + 4 * n)%nat by lia.
  rewrite run_priorities_add.
  change (run_priorities 4 (15, 14)) with ([0; 0; 1; 1], (15, 14)).
  cbv iota beta. rewrite IH. reflexivity.
Qed.



(** ** The register is cleared before the kernel runs *)

Section Clear.
Context {D H : Type} `{BlockDriver D} `{Allocator H}.
Variable asserts : bool.
Implicit Types st : abstate D H.

Lemma set_retry_magic reg k c :
  BOOT_CHAIN_REG_MAGIC_GET (tegrabl_a_b_set_retry_count_reg reg k c) = BOOT_CHAIN_REG_MAGIC_GET reg.
Proof.
  unfold tegrabl_a_b_set_retry_count_reg, BOOT_CHAIN_REG_MAGIC_GET,
    BOOT_CHAIN_REG_A_RETRY_COUNT_SET, BOOT_CHAIN_REG_B_RETRY_COUNT_SET.
  repeat case_test; by reg_fields.
Qed.

Lemma check_status_magic reg m e reg' m' u :
  check_redundancy_status asserts reg m = Ok (e, reg', m', u) ->
  BOOT_CHAIN_REG_MAGIC_GET reg' = BOOT_CHAIN_REG_MAGIC_GET reg.
Proof.
  unfold check_redundancy_status, check_non_user_redundancy_status, check_user_redundancy_status.
  intros E. repeat (inv_ok; try (rewrite set_retry_magic); try done;
    repeat match goal with
    | H : (if ?b then _ else _) = Ok _ |- _ => destruct b
    | H : match ?x with pair _ _ => _ end = Ok _ |- _ => destruct x
    end).
Qed.

Lemma get_smd_reg st e l st' :
  tegrabl_a_b_get_smd asserts st = Ok (e, l, st') -> ab_reg st' = ab_reg st.
Proof.
  unfold tegrabl_a_b_get_smd. destruct (ab_load st); [intros E; by inv_ok|].
  destruct (heap_malloc _ _) as [a h]. destruct (a =? NULL); [intros E; by inv_ok|].
  intros E. apply res_bind_Ok in E as ([[e1 m1] s1] & _ & E).
  destruct (e1 =? TEGRABL_NO_ERROR); [by inv_ok|].
  apply res_bind_Ok in E as ([[e2 m2] s2] & _ & E).
  destruct (e2 =? TEGRABL_NO_ERROR); [by inv_ok|].
  apply res_bind_Ok in E as (w & _ & E). by inv_ok.
Qed.

Lemma update_body_magic st flag e reg' st' :
  update_smd_body asserts st (ab_reg st) flag = Ok (e, reg', st') ->
  BOOT_CHAIN_REG_MAGIC_GET reg' = BOOT_CHAIN_REG_MAGIC_GET (ab_reg st).
Proof.
  unfold update_smd_body. intros E. apply res_bind_Ok in E as ([[e1 l] st1] & Eg & E).
  destruct (negb _); [by inv_ok|]. destruct l as [[addr m]|]; [|discriminate].
  apply res_bind_Ok in E as (v & _ & E).
  apply res_bind_Ok in E as ([[[e2 r2] m2] u2] & Ec & E).
  assert (Hr : BOOT_CHAIN_REG_MAGIC_GET r2 = BOOT_CHAIN_REG_MAGIC_GET (ab_reg st)).
  { destruct (_ && _); [by eapply check_status_magic|]. by inv_ok. }
  destruct (_ || _); [by inv_ok|].
  apply res_bind_Ok in E as ([m3 r3] & Ecp & E).
  assert (r3 = r2) as ->.
  { unfold tegrabl_a_b_copy_retry_count in Ecp. cbn [ab_reg] in Ecp.
    apply res_bind_Ok in Ecp as (m4 & _ & Ecp). apply res_bind_Ok in Ecp as (a & _ & Ecp).
    apply res_bind_Ok in Ecp as (b & _ & Ecp). by inv_ok. }
  apply res_bind_Ok in E as ([[e3 l3] s3] & _ & E). destruct (negb (e3 =? TEGRABL_NO_ERROR)); by inv_ok.
Qed.

(** Whenever [tegrabl_a_b_update_smd] returns, with or without an error, a
    register that carried the boot chain magic is cleared, and one that did not
    leaves everything untouched. *)
Theorem update_smd_clears_register st e st' :
  tegrabl_a_b_update_smd asserts st = Ok (e, st') ->
  (BOOT_CHAIN_REG_MAGIC_GET (ab_reg st) = BOOT_CHAIN_REG_MAGIC -> ab_reg st' = 0) /\
  (BOOT_CHAIN_REG_MAGIC_GET (ab_reg st) <> BOOT_CHAIN_REG_MAGIC ->
     e = TEGRABL_NO_ERROR /\ st' = st).
Proof.
  unfold tegrabl_a_b_update_smd. intros E. apply res_bind_Ok in E as ([[e1 r1] st1] & Eb & E).
  destruct (Z.eqb_spec (BOOT_CHAIN_REG_MAGIC_GET (ab_reg st)) BOOT_CHAIN_REG_MAGIC) as [Hm|Hm].
  - assert (Hr : BOOT_CHAIN_REG_MAGIC_GET r1 = BOOT_CHAIN_REG_MAGIC).
    { cbn [andb] in Eb. destruct (_ || _); [|by inv_ok].
      rewrite (update_body_magic _ _ _ _ _ Eb). done. }
    rewrite Hr, Z.eqb_refl in E. split; [|done]. intros _. by inv_ok.
  - cbn [andb] in Eb. inv_ok. split; [done|]. intros _.
    destruct (Z.eqb_spec (BOOT_CHAIN_REG_MAGIC_GET (ab_reg st1)) BOOT_CHAIN_REG_MAGIC); [done|].
    done.
Qed.
End Clear.
