(* ===== verification/AbUpdate.v ===== *)
(** The update of the slot metadata before the kernel is started
    ([tegrabl_a_b_update_smd]), from end to end: what the register and the policy
    decided is what a later boot loads. *)

From S2P Require Import Prelude TegraError Utils BlockDev BlockDevFacts BlockDevProps.
From S2P Require Import Gpt GptFacts AbNaming PartitionManager PartitionFacts AbBoot.
From S2P Require Import AbBootFacts AbStore AbStoreFacts AbPolicy.

(** ** Well-formed metadata stays well-formed *)

Lemma put_slot_ok m i s : smd_ok m -> slot_ok s -> smd_ok (put_slot m i s).
Proof.
  intros [M1 M2 M3 (a & b & Es & Sa & Sb) M5] Ss. split; try done.
  cbn [put_slot set_slots slot_info]. rewrite Es.
  destruct (Z.to_nat i) as [|[|k]]; cbn; eauto.
Qed.

Lemma get_slot_ok m i s : smd_ok m -> get_slot m i = Ok s -> slot_ok s.
Proof.
  intros [_ _ _ (a & b & Es & Sa & Sb) _]. unfold get_slot. rewrite Es.
  destruct (i <? 0); [done|].
  destruct (Z.to_nat i) as [|[|k]]; cbn; intros E; by inv_ok.
Qed.

Lemma set_priority_ok m i v m' : smd_ok m -> set_priority_ m i v = Ok m' -> smd_ok m'.
Proof.
  intros M. unfold set_priority_, tegrabl_a_b_set_priority, set_field.
  destruct (MAX_SLOTS <=? i); [intros E; by inv_ok|].
  destruct (get_slot m i) as [s|] eqn:Es; [|done]. cbn [res_bind from_option id].
  intros E. inv_ok. apply put_slot_ok; [done|]. destruct (get_slot_ok _ _ _ M Es).
  split; try done. apply u8_range.
Qed.

Lemma rotate_ok m k p q m' : smd_ok m -> rotate_slots_priority m k p q = Ok m' -> smd_ok m'.
Proof.
  intros M. unfold rotate_slots_priority.
  repeat match goal with |- (if ?b then _ else _) = _ -> _ => destruct b end;
    try (apply set_priority_ok; done).
  intros E. inv_ok. eapply set_priority_ok; [|done]. by eapply set_priority_ok.
Qed.

Lemma check_status_ok asserts reg m e reg' m' u :
  smd_ok m -> check_redundancy_status asserts reg m = Ok (e, reg', m', u) -> smd_ok m'.
Proof.
  intros M. unfold check_redundancy_status. intros E.
  apply res_bind_Ok in E as (v & _ & E). destruct (_ =? 0).
  { apply res_bind_Ok in E as ([[e1 r1] u1] & _ & E). by inv_ok. }
  unfold check_user_redundancy_status in E.
  apply res_bind_Ok in E as (rc & _ & E). apply res_bind_Ok in E as ([e1 p1] & _ & E).
  destruct (negb (e1 =? _)); [by inv_ok|].
  apply res_bind_Ok in E as ([e2 p2] & _ & E). destruct (negb (e2 =? _)); [by inv_ok|].
  apply res_bind_Ok in E as (o & _ & E). destruct (_ && _); [|by inv_ok].
  apply res_bind_Ok in E as (? & _ & E). apply res_bind_Ok in E as (m1 & Er & E).
  inv_ok. by eapply rotate_ok.
Qed.

(** ** The retry counts of the register *)

(** [m] with the retry counts that [reg] carries. *)
Definition saved (reg : Z) (m : smd) : smd :=
  set_slots m
    (zip_with with_retry (slot_info m)
       [BOOT_CHAIN_REG_A_RETRY_COUNT_GET reg; BOOT_CHAIN_REG_B_RETRY_COUNT_GET reg]).

Lemma retry_range w reg : 0 <= field_get 4 w reg < 16.
Proof. apply (field_get_range 4 w reg); lia. Qed.

Lemma copy_retry_saved asserts reg m :
  smd_ok m ->
  tegrabl_a_b_copy_retry_count asserts (Some m) reg FROM_REG_TO_SMD = Ok (saved reg m, reg) /\
  smd_ok (saved reg m).
Proof.
  intros M. pose proof (retry_range 26 reg) as Ra. pose proof (retry_range 22 reg) as Rb.
  pose proof M as [M1 M2 M3 (a & b & Es & Sa & Sb) M5].
  unfold saved, tegrabl_a_b_copy_retry_count, deref, tegrabl_assert.
  cbn [negb]. rewrite andb_false_r. cbn [res_bind].
  unfold get_slot. rewrite Es.
  change (BOOT_SLOT_A <? 0) with false. change (BOOT_SLOT_B <? 0) with false. cbv iota.
  change (Z.to_nat BOOT_SLOT_A) with 0%nat. change (Z.to_nat BOOT_SLOT_B) with 1%nat.
  cbn [lookup list_lookup res_bind].
  unfold BOOT_CHAIN_REG_A_RETRY_COUNT_GET, BOOT_CHAIN_REG_B_RETRY_COUNT_GET.
  rewrite !u8_small by lia. split.
  - unfold put_slot. cbn [set_slots slot_info]. rewrite Es. done.
  - split; try done. cbn [set_slots slot_info zip_with].
    eexists _, _. split; [reflexivity|]. destruct Sa, Sb. by split; split; try (cbn; lia).
Qed.

(** ** The update *)

Section Update.
Context {D H : Type} `{BlockDriver D, !ReliableDriver D} `{Allocator H, !AllocatorLaws H}.
Variable asserts : bool.
Implicit Types (s : pstate D H) (d : bdev D).

(** What is stored in the end: the register and metadata after the policy. *)
Definition decided (reg : Z) (m : smd) (reg' : Z) (m' : smd) : Prop :=
  let flag := BOOT_CHAIN_REG_UPDATE_FLAG_GET reg in
  (flag = BC_FLAG_OTA_ON \/
   flag = BC_FLAG_REDUNDANCY_BOOT /\ BOOTCTRL_SUPPORT_REDUNDANCY (version m) = 0) /\
    reg' = reg /\ m' = m \/
  flag = BC_FLAG_REDUNDANCY_BOOT /\ BOOTCTRL_SUPPORT_REDUNDANCY (version m) <> 0 /\
    check_redundancy_status asserts reg m = Ok (TEGRABL_NO_ERROR, reg', m', 1).

Lemma decided_ok reg m reg' m' : smd_ok m -> decided reg m reg' m' -> smd_ok m'.
Proof.
  intros M [(_ & _ & ->)|(_ & _ & E)]; [done|]. by eapply check_status_ok.
Qed.

Lemma update_body_ok st addr m st1 reg reg' m' d dev i1 i2 r n :
  tegrabl_a_b_get_smd asserts st = Ok (TEGRABL_NO_ERROR, Some (addr, m), st1) ->
  ab_reg st1 = reg -> 0 < addr -> smd_ok m -> decided reg m reg' m' ->
  store_ok (ab_pm st1) d dev i1 i2 r n -> 2 <= n ->
  exists st2 d2 r2,
    update_smd_body asserts st reg (u8 (BOOT_CHAIN_REG_UPDATE_FLAG_GET reg)) =
      Ok (TEGRABL_NO_ERROR, reg', st2) /\
    store_ok (ab_pm st2) d2 dev i1 i2 r2 (n - 2) /\
    copy_bytes d2 i1 = encode_smd (stamped (saved reg' m')).
Proof.
  intros Eg Er Ha M Hdec S Hn. pose proof (decided_ok _ _ _ _ M Hdec) as M'.
  destruct (copy_retry_saved asserts reg' m' M') as [Ecp Ms].
  destruct (flush_ok _ _ _ _ _ _ _ addr (saved reg' m') S Hn Ms (stamped_ok _ Ms) Ha)
    as (x & h & Ef & S' & B1 & _).
  exists (mkAb reg' (Some (addr, stamped (saved reg' m')))
            (set_pw (ab_pm st1) (put (pw (ab_pm st1)) dev d x h))).
  eexists _, _. split; [|split; [exact S'|exact B1]].
  unfold update_smd_body. rewrite Eg. cbn [res_bind].
  change (negb (TEGRABL_NO_ERROR =? TEGRABL_NO_ERROR)) with false. cbv iota.
  unfold tegrabl_a_b_get_version, deref, tegrabl_assert at 1. cbn [negb].
  rewrite andb_false_r. cbn [res_bind].
  assert (Hcase : (if (u8 (BOOT_CHAIN_REG_UPDATE_FLAG_GET reg) =? BC_FLAG_REDUNDANCY_BOOT) &&
                      negb (BOOTCTRL_SUPPORT_REDUNDANCY (version m) =? 0)
                   then check_redundancy_status asserts reg m
                   else Ok (TEGRABL_NO_ERROR, reg, m, 1)) = Ok (TEGRABL_NO_ERROR, reg', m', 1)).
  { destruct Hdec as [([Ef1|[Ef1 Ev]] & -> & ->)|(Ef1 & Ev & Ec)]; rewrite Ef1.
    - done.
    - rewrite Ev. done.
    - destruct (Z.eqb_spec (BOOTCTRL_SUPPORT_REDUNDANCY (version m)) 0); [done|]. exact Ec. }
  rewrite Hcase. cbn [res_bind].
  change (negb (TEGRABL_NO_ERROR =? TEGRABL_NO_ERROR) || (1 =? 0)) with false. cbv iota.
  cbn [ab_reg ab_pm]. rewrite Ecp. cbn [res_bind]. rewrite Ef. reflexivity.
Qed.

End Update.
