(* ===== verification/AbProps.v ===== *)
(** The statements about A/B boot control at concrete inputs, and a failure of the
    first metadata copy that is not reported. *)

From S2P Require Import Prelude TegraError Utils BlockDev BlockDevFacts BlockDevProps.
From S2P Require Import Gpt GptFacts GptProps AbNaming PartitionManager PartitionFacts.
From S2P Require Import PartitionProps AbBoot AbBootFacts AbStore AbStoreFacts AbPolicy.
From S2P Require Import AbUpdate.
From S2P Require Import Models DemoDisk.

(** Slot A active, slot B second, redundancy for bootloader and user. *)
Definition demo_smd : smd :=
  mkSmd BOOT_CHAIN_MAGIC 0x303 2
    [mkSlot 15 BOOT_CHAIN_SUFFIX_A 7 1; mkSlot 14 BOOT_CHAIN_SUFFIX_B 7 1] 0.

Lemma demo_smd_ok : smd_ok demo_smd.
Proof.
  split; try (vm_compute; split; [discriminate|reflexivity]).
  eexists _, _. split; [reflexivity|].
  split; split; cbn; try lia; (split; [reflexivity|]); repeat constructor; lia.
Qed.

Lemma demo_smd_pos j t : slot_info demo_smd !! j = Some t -> 0 <= priority t.
Proof. intros Et. destruct j as [|[|j]]; [injection Et as <-; cbn; lia..|done]. Qed.

Lemma demo_best : best_slot (slot_info demo_smd) 2 0.
Proof.
  eexists. split; [lia|]. split; [reflexivity|]. split; [split; cbn; lia|].
  intros j t Hj Et _. assert (j = 0 \/ j = 1) as [-> | ->] by lia; injection Et as <-; cbn; lia.
Qed.

Lemma active_slot_is_best_witness :
  boot_chain_get_bootslot_from_smd demo_smd = Ok (TEGRABL_NO_ERROR, Some 0).
Proof.
  refine (proj2 (proj1 (active_slot_is_best demo_smd 0 eq_refl _ demo_smd_pos)) demo_best).
  vm_compute. split; discriminate.
Defined.

Lemma slot_count_unchecked_witness :
  boot_chain_get_bootslot_from_smd (mkSmd BOOT_CHAIN_MAGIC 3 5 (slot_info demo_smd) 0) =
    Stuck OutOfBounds.
Proof.
  apply (slot_count_unchecked (mkSmd BOOT_CHAIN_MAGIC 3 5 (slot_info demo_smd) 0)
    (mkSlot 15 BOOT_CHAIN_SUFFIX_A 7 1) (mkSlot 14 BOOT_CHAIN_SUFFIX_B 7 1)); [done|done|].
  cbn. lia.
Defined.

Lemma set_active_slot_selects_witness :
  exists m', tegrabl_a_b_set_active_slot (Some demo_smd) 1 = Ok (TEGRABL_NO_ERROR, Some m') /\
    tegrabl_a_b_get_active_slot 0 (Some m') = Ok (TEGRABL_NO_ERROR, Some 1).
Proof.
  destruct (set_active_slot_selects 0 demo_smd 1 demo_smd_ok eq_refl eq_refl ltac:(lia))
    as (m' & E1 & E2 & _).
  - intros t Ht. cbn in Ht. rewrite !elem_of_cons in Ht.
    destruct Ht as [->|[->|Ht]]; [cbn; unfold SLOT_PRIORITY_DEFAULT; lia..|].
    by apply not_elem_of_nil in Ht.
  - eauto.
Defined.

Lemma boot_slot_reg_reflects_smd_witness :
  exists reg', tegrabl_a_b_init_boot_slot_reg true 0 (Some demo_smd) = Ok (TEGRABL_NO_ERROR, reg') /\
    tegrabl_a_b_get_active_slot reg' None = Ok (TEGRABL_NO_ERROR, Some 0).
Proof.
  destruct (boot_slot_reg_reflects_smd true 0 demo_smd 0 demo_smd_ok eq_refl eq_refl)
    as (reg' & s & E1 & _ & E2 & _).
  - intros t Ht. cbn in Ht. rewrite !elem_of_cons in Ht.
    destruct Ht as [->|[->|Ht]]; [cbn; lia..|]. by apply not_elem_of_nil in Ht.
  - vm_compute. discriminate.
  - exact demo_best.
  - eauto.
Defined.

Lemma bootslot_suffix_roundtrip_witness :
  exists sfx, tegrabl_a_b_get_bootslot_suffix 0x11CAFE true = (TEGRABL_NO_ERROR, Some sfx) /\
    tegrabl_a_b_get_slot_via_suffix sfx = (TEGRABL_NO_ERROR, Some 1).
Proof.
  exact (bootslot_suffix_roundtrip 0x11CAFE true eq_refl).
Defined.

(** ** Storage *)

Lemma pm_copy_ok c k :
  smd_part c = cstr (pi_name (pm_info k)) -> (k = 0 \/ k = 1)%nat ->
  copy_ok pm_demo (set_published (gpt_dev intact_disk) true) 0x100 c (pm_info k).
Proof.
  intros Hc Hk. exists (pm_handle k 0).
  split; [|split; [done|split; [done|split; [apply pm_handle_ok; lia|]]]].
  - rewrite Hc. destruct Hk as [-> | ->]; vm_compute; reflexivity.
  - destruct Hk as [-> | ->]; vm_compute; discriminate.
Qed.

Lemma pm_store_ok n :
  n <= 10 ->
  store_ok pm_demo (set_published (gpt_dev intact_disk) true) 0x100 (pm_info 0) (pm_info 1)
    0x800000 n.
Proof.
  intros Hn. split.
  - by apply pm_copy_ok; auto.
  - by apply pm_copy_ok; auto.
  - left. vm_compute. discriminate.
  - vm_compute. discriminate.
  - exact pm_heap.
  - change (bounce_cost (set_published (gpt_dev intact_disk) true) sizeof_smd) with 422.
    change (alloc_cost 8 sizeof_smd) with 158. lia.
Qed.


(** A disk whose first copy is damaged: the second copy is intact. *)
Definition damaged_copy_disk : list Z :=
  Eval vm_compute in
    splice (8 * 128) [1; 2; 3; 4; 3; 3] (splice (10 * 128) (encode_smd (stamped demo_smd)) intact_disk).

Definition damaged_dev : bdev ramdisk := set_published (gpt_dev damaged_copy_disk) true.

Definition damaged_pm : pstate ramdisk arena :=
  mkPstate (set_dev (pw pm_demo) 0x100 damaged_dev) (storage_list pm_demo) (tables pm_demo).

Lemma damaged_copy_ok c k :
  smd_part c = cstr (pi_name (pm_info k)) -> (k = 0 \/ k = 1)%nat ->
  copy_ok damaged_pm damaged_dev 0x100 c (pm_info k).
Proof.
  intros Hc Hk. exists (pm_handle k 0).
  assert (G : geom damaged_dev) by (by apply gpt_disk_geom_published).
  assert (M : media damaged_dev (bd_priv damaged_dev)) by (by apply gpt_disk_media).
  assert (Hd : devs (pw damaged_pm) !! 0x100 = Some damaged_dev)
    by (unfold damaged_pm, set_dev; cbn [pw devs]; apply lookup_insert_eq).
  split; [rewrite Hc; destruct Hk as [-> | ->]; vm_compute; reflexivity|].
  split; [done|]. split; [done|]. split.
  - destruct Hk as [-> | ->]; (split; [reflexivity|vm_compute; reflexivity|exact Hd|cbn; lia
      |exact G|exact M|vm_compute; discriminate..|vm_compute; reflexivity]).
  - destruct Hk as [-> | ->]; vm_compute; discriminate.
Qed.

Lemma damaged_store_ok n :
  n <= 10 -> store_ok damaged_pm damaged_dev 0x100 (pm_info 0) (pm_info 1) 0x800000 n.
Proof.
  intros Hn. split.
  - by apply damaged_copy_ok; auto.
  - by apply damaged_copy_ok; auto.
  - left. vm_compute. discriminate.
  - vm_compute. discriminate.
  - exact pm_heap.
  - change (bounce_cost damaged_dev sizeof_smd) with 422.
    change (alloc_cost 8 sizeof_smd) with 158. lia.
Qed.

Lemma smd_secondary_recovers_witness :
  exists addr st', tegrabl_a_b_get_smd true (mkAb 0 None damaged_pm) =
      Ok (TEGRABL_NO_ERROR, Some (addr, stamped demo_smd), st').
Proof.
  destruct (smd_secondary_recovers true damaged_pm damaged_dev 0x100 (pm_info 0) (pm_info 1)
    0x800000 0 (AB_ERR TEGRABL_ERR_VERIFY_FAILED 0) (damaged_store_ok 3 ltac:(lia))) as (addr & st' & E & _).
  - vm_compute. reflexivity.
  - discriminate.
  - vm_compute. reflexivity.
  - exists addr, st'. rewrite E. vm_compute. reflexivity.
Defined.

(** A register with magic, slot A, two slots, retry counts 6 and 7, and the
    redundancy flag. *)
Definition demo_reg : Z := 0x59D0CAFE.

Definition demo_state : abstate ramdisk arena := mkAb demo_reg None damaged_pm.

Lemma update_smd_clears_register_witness :
  exists e st', tegrabl_a_b_update_smd true demo_state = Ok (e, st') /\ ab_reg st' = 0.
Proof.
  eexists _, _. split; [vm_compute; reflexivity|].
  refine (proj1 (update_smd_clears_register true demo_state _ _ _) _);
    vm_compute; reflexivity.
Defined.

(** The same state, followed to the next boot: the policy lowers the priority of
    slot A and the register's retry counts are stored. *)
Definition demo_next : smd :=
  mkSmd BOOT_CHAIN_MAGIC 0x303 2
    [mkSlot 14 BOOT_CHAIN_SUFFIX_A 7 1; mkSlot 14 BOOT_CHAIN_SUFFIX_B 7 1] 0.


(** ** A lost first copy *)

(** A system that has only the partition of the second copy. *)
Definition second_only : pstate ramdisk arena :=
  mkPstate (pw pm_demo) (Some [mkStorage 0x10 0x100 1 0x20]) {[ 0x20 := [pm_info 1] ]}.

(** [tegrabl_a_b_flush_smd] reports the result of the second copy only: on a
    system without a partition for the first copy, storing that copy fails and the
    flush still returns [TEGRABL_NO_ERROR]. *)
Theorem primary_flush_failure_hidden :
  (exists e s, flush_smd_bin_copy second_only 0x700 demo_smd SMD_COPY_PRIMARY = Ok (e, s) /\
     e <> TEGRABL_NO_ERROR) /\
  (exists l s, tegrabl_a_b_flush_smd second_only (Some (0x700, demo_smd)) =
     Ok (TEGRABL_NO_ERROR, l, s)).
Proof.
  split.
  - eexists _, _. split; [vm_compute; reflexivity|]. vm_compute. discriminate.
  - eexists _, _. vm_compute. reflexivity.
Qed.
