(* ===== verification/Ivc.v ===== *)
(** Inter-processor queues (lib/ipc/tegra-ivc.c).

    Two processors share two channels, one for each direction.  A channel has a
    header, of which the transmitting end owns the counter [w_count] and the
    synchronisation state and the receiving end the counter [r_count], and a ring
    of frames.  A routine is a program that accesses the shared memory step by
    step, so that the accesses of the two ends can be interleaved; the endpoint
    structure is private to its end and passed along.  The cache maintenance
    hooks do nothing in this source (weak definitions), and the barriers order
    accesses that are in order here anyway. *)

From S2P Require Import Prelude.

(** ** Shared memory *)

Inductive field : Set := FW | FS | FR.

(** [struct ivc_channel_header] and the frames behind it. *)
Record channel := mkChan { ch_w : Z; ch_s : Z; ch_r : Z; ch_frames : list (list Z) }.

Definition get_field (c : channel) (f : field) : Z :=
  match f with FW => ch_w c | FS => ch_s c | FR => ch_r c end.

Definition set_field (c : channel) (f : field) (v : Z) : channel :=
  match f with
  | FW => mkChan v (ch_s c) (ch_r c) (ch_frames c)
  | FS => mkChan (ch_w c) v (ch_r c) (ch_frames c)
  | FR => mkChan (ch_w c) (ch_s c) v (ch_frames c)
  end.

(** Channels by the address of their header. *)
Abbreviation shmem := (gmap Z channel).

(** ** Programs on shared memory *)

Inductive prog (A : Type) : Type :=
| Ret (a : A)
| Load (ch : Z) (f : field) (k : Z -> prog A)
| Store (ch : Z) (f : field) (v : Z) (k : prog A)
| LoadFrame (ch frame off count : Z) (k : list Z -> prog A)
| StoreFrame (ch frame off : Z) (bs : list Z) (k : prog A)
| Notify (k : prog A).
Arguments Ret {A} a.
Arguments Load {A} ch f k.
Arguments Store {A} ch f v k.
Arguments LoadFrame {A} ch frame off count k.
Arguments StoreFrame {A} ch frame off bs k.
Arguments Notify {A} k.

Fixpoint prog_bind {A B} (p : prog A) (q : A -> prog B) : prog B :=
  match p with
  | Ret a => q a
  | Load ch f k => Load ch f (fun v => prog_bind (k v) q)
  | Store ch f v k => Store ch f v (prog_bind k q)
  | LoadFrame ch frame off count k => LoadFrame ch frame off count (fun bs => prog_bind (k bs) q)
  | StoreFrame ch frame off bs k => StoreFrame ch frame off bs (prog_bind k q)
  | Notify k => Notify (prog_bind k q)
  end.

Declare Scope ivc_scope.
Delimit Scope ivc_scope with ivc.
Notation "'do*' x ':=' p 'in' q" := (prog_bind p (fun x => q))
  (at level 10, x pattern, p at level 100, q at level 200) : ivc_scope.
#[local] Open Scope ivc_scope.

Definition load (ch : Z) (f : field) : prog Z := Load ch f Ret.
Definition store (ch : Z) (f : field) (v : Z) : prog unit := Store ch f v (Ret tt).
Definition notify : prog unit := Notify (Ret tt).

(** One access.  The second component of the result counts notifications. *)
Definition pstep {A} (m : shmem) (p : prog A) : res (shmem * prog A * bool) :=
  match p with
  | Ret a => Ok (m, p, false)
  | Load ch f k =>
      match m !! ch with
      | Some c => Ok (m, k (get_field c f), false)
      | None => Stuck BadPointer
      end
  | Store ch f v k =>
      match m !! ch with
      | Some c => Ok (<[ch := set_field c f v]> m, k, false)
      | None => Stuck BadPointer
      end
  | LoadFrame ch frame off count k =>
      match m !! ch with
      | None => Stuck BadPointer
      | Some c =>
          match ch_frames c !! Z.to_nat frame with
          | Some bs =>
              if (0 <=? frame) && (0 <=? off) && (off + count <=? zlen bs)
              then Ok (m, k (slice off count bs), false) else Stuck OutOfBounds
          | None => Stuck OutOfBounds
          end
      end
  | StoreFrame ch frame off bs k =>
      match m !! ch with
      | None => Stuck BadPointer
      | Some c =>
          match ch_frames c !! Z.to_nat frame with
          | Some old =>
              if (0 <=? frame) && (0 <=? off) && (off + zlen bs <=? zlen old)
              then Ok (<[ch := mkChan (ch_w c) (ch_s c) (ch_r c)
                          (<[Z.to_nat frame := splice off bs old]> (ch_frames c))]> m, k, false)
              else Stuck OutOfBounds
          | None => Stuck OutOfBounds
          end
      end
  | Notify k => Ok (m, k, true)
  end.

(** A program on its own, with the number of notifications. *)
Fixpoint run {A} (p : prog A) (m : shmem) (n : nat) : res (A * shmem * nat) :=
  match p with
  | Ret a => Ok (a, m, n)
  | Load ch f k =>
      match m !! ch with
      | Some c => run (k (get_field c f)) m n
      | None => Stuck BadPointer
      end
  | Store ch f v k =>
      match m !! ch with
      | Some c => run k (<[ch := set_field c f v]> m) n
      | None => Stuck BadPointer
      end
  | LoadFrame ch frame off count k =>
      match m !! ch with
      | None => Stuck BadPointer
      | Some c =>
          match ch_frames c !! Z.to_nat frame with
          | Some bs =>
              if (0 <=? frame) && (0 <=? off) && (off + count <=? zlen bs)
              then run (k (slice off count bs)) m n else Stuck OutOfBounds
          | None => Stuck OutOfBounds
          end
      end
  | StoreFrame ch frame off bs k =>
      match m !! ch with
      | None => Stuck BadPointer
      | Some c =>
          match ch_frames c !! Z.to_nat frame with
          | Some old =>
              if (0 <=? frame) && (0 <=? off) && (off + zlen bs <=? zlen old)
              then run k (<[ch := mkChan (ch_w c) (ch_s c) (ch_r c)
                            (<[Z.to_nat frame := splice off bs old]> (ch_frames c))]> m) n
              else Stuck OutOfBounds
          | None => Stuck OutOfBounds
          end
      end
  | Notify k => run k m (S n)
  end.

(** ** The endpoint *)

Definition ivc_state_established : Z := 0.
Definition ivc_state_sync : Z := 1.
Definition ivc_state_ack : Z := 2.

Definition E2BIG : Z := 7.
Definition EAGAIN : Z := 11.
Definition ENOMEM : Z := 12.
Definition EINVAL : Z := 22.
Definition ECONNRESET : Z := 104.

Definition IVC_ALIGN : Z := 64.

(** [sizeof(struct ivc_channel_header)]: two parts of [IVC_ALIGN] bytes. *)
Definition sizeof_header : Z := 128.

Record ivc := mkIvc {
  rx_channel : Z; tx_channel : Z; w_pos : Z; r_pos : Z; nframes : Z; frame_size : Z
}.

Definition set_pos (v : ivc) (w r : Z) : ivc :=
  mkIvc (rx_channel v) (tx_channel v) w r (nframes v) (frame_size v).

Section Ops.
Implicit Types v : ivc.

Definition ivc_channel_empty v (ch : Z) : prog bool :=
  do* w_count := load ch FW in
  do* r_count := load ch FR in
  Ret (if nframes v <? u32 (w_count - r_count) then true else w_count =? r_count).

Definition ivc_channel_full v (ch : Z) : prog bool :=
  do* w_count := load ch FW in
  do* r_count := load ch FR in
  Ret (nframes v <=? u32 (w_count - r_count)).

Definition ivc_channel_avail_count (ch : Z) : prog Z :=
  do* w_count := load ch FW in
  do* r_count := load ch FR in
  Ret (u32 (w_count - r_count)).

Definition ivc_advance_tx v : prog ivc :=
  do* w_count := load (tx_channel v) FW in
  do* _ := store (tx_channel v) FW (u32 (w_count + 1)) in
  Ret (set_pos v (if w_pos v =? u32 (nframes v - 1) then 0 else u32 (w_pos v + 1)) (r_pos v)).

Definition ivc_advance_rx v : prog ivc :=
  do* r_count := load (rx_channel v) FR in
  do* _ := store (rx_channel v) FR (u32 (r_count + 1)) in
  Ret (set_pos v (w_pos v) (if r_pos v =? u32 (nframes v - 1) then 0 else u32 (r_pos v + 1))).

Definition ivc_check_read v : prog Z :=
  do* state := load (tx_channel v) FS in
  if negb (state =? ivc_state_established) then Ret (- ECONNRESET)
  else
    do* empty := ivc_channel_empty v (rx_channel v) in
    if negb empty then Ret 0
    else
      do* empty := ivc_channel_empty v (rx_channel v) in
      Ret (if empty then - ENOMEM else 0).

Definition ivc_check_write v : prog Z :=
  do* state := load (tx_channel v) FS in
  if negb (state =? ivc_state_established) then Ret (- ECONNRESET)
  else
    do* full := ivc_channel_full v (tx_channel v) in
    if negb full then Ret 0
    else
      do* full := ivc_channel_full v (tx_channel v) in
      Ret (if full then - ENOMEM else 0).

Definition tegra_ivc_can_read v : prog bool :=
  do* r := ivc_check_read v in Ret (r =? 0).

Definition tegra_ivc_can_write v : prog bool :=
  do* r := ivc_check_write v in Ret (r =? 0).

Definition tegra_ivc_tx_empty v : prog bool := ivc_channel_empty v (tx_channel v).

(** The address of a frame; the assertion on [frame] is compiled out. *)
Definition ivc_frame_pointer v (ch frame : Z) : Z :=
  ch + sizeof_header + u32 (frame_size v * frame).

(** "Notify only upon transition from full to non-full", and from empty to
    non-empty. *)
Definition notify_rx v : prog unit :=
  do* avail := ivc_channel_avail_count (rx_channel v) in
  if avail =? u32 (nframes v - 1) then notify else Ret tt.

Definition notify_tx v : prog unit :=
  do* avail := ivc_channel_avail_count (tx_channel v) in
  if avail =? 1 then notify else Ret tt.

(** The result, the bytes stored to the caller's buffer, and the endpoint. *)
Definition tegra_ivc_read v (max_read : Z) : prog (Z * list Z * ivc) :=
  if frame_size v <? max_read then Ret (- E2BIG, [], v)
  else
    do* result := ivc_check_read v in
    if negb (result =? 0) then Ret (result, [], v)
    else
      do* buf := LoadFrame (rx_channel v) (r_pos v) 0 max_read Ret in
      do* v := ivc_advance_rx v in
      do* _ := notify_rx v in
      Ret (s32 max_read, buf, v).

Definition tegra_ivc_read_peek v (off count : Z) : prog (Z * list Z * ivc) :=
  if (frame_size v <? off) || (frame_size v <? u64 (off + count)) then Ret (- E2BIG, [], v)
  else
    do* result := ivc_check_read v in
    if negb (result =? 0) then Ret (result, [], v)
    else
      do* buf := LoadFrame (rx_channel v) (r_pos v) off count Ret in
      Ret (s32 count, buf, v).

(** A frame is given by its channel and its number. *)
Definition tegra_ivc_read_get_next_frame v : prog (option (Z * Z)) :=
  do* result := ivc_check_read v in
  if negb (result =? 0) then Ret None else Ret (Some (rx_channel v, r_pos v)).

Definition tegra_ivc_read_advance v : prog (Z * ivc) :=
  do* result := ivc_check_read v in
  if negb (result =? 0) then Ret (result, v)
  else
    do* v := ivc_advance_rx v in
    do* _ := notify_rx v in
    Ret (0, v).

Definition tegra_ivc_write v (buf : list Z) : prog (Z * ivc) :=
  if frame_size v <? zlen buf then Ret (- E2BIG, v)
  else
    do* result := ivc_check_write v in
    if negb (result =? 0) then Ret (result, v)
    else
      do* _ := StoreFrame (tx_channel v) (w_pos v) 0 buf (Ret tt) in
      do* _ := StoreFrame (tx_channel v) (w_pos v) (zlen buf)
                 (replicate (Z.to_nat (frame_size v - zlen buf)) 0) (Ret tt) in
      do* v := ivc_advance_tx v in
      do* _ := notify_tx v in
      Ret (s32 (zlen buf), v).

Definition tegra_ivc_write_poke v (off : Z) (buf : list Z) : prog (Z * ivc) :=
  if (frame_size v <? off) || (frame_size v <? u64 (off + zlen buf)) then Ret (- E2BIG, v)
  else
    do* result := ivc_check_write v in
    if negb (result =? 0) then Ret (result, v)
    else
      do* _ := StoreFrame (tx_channel v) (w_pos v) off buf (Ret tt) in
      Ret (s32 (zlen buf), v).

Definition tegra_ivc_write_get_next_frame v : prog (option (Z * Z)) :=
  do* result := ivc_check_write v in
  if negb (result =? 0) then Ret None else Ret (Some (tx_channel v, w_pos v)).

Definition tegra_ivc_write_advance v : prog (Z * ivc) :=
  do* result := ivc_check_write v in
  if negb (result =? 0) then Ret (result, v)
  else
    do* v := ivc_advance_tx v in
    do* _ := notify_tx v in
    Ret (0, v).

(** ** The reset protocol *)

Definition tegra_ivc_channel_reset v : prog unit :=
  do* _ := store (tx_channel v) FS ivc_state_sync in
  notify.

(** "Reset tx_channel counters", then the new state. *)
Definition clear_counters v (state : Z) : prog ivc :=
  do* _ := store (tx_channel v) FW 0 in
  do* _ := store (rx_channel v) FR 0 in
  do* _ := store (tx_channel v) FS state in
  do* _ := notify in
  Ret (set_pos v 0 0).

Definition tegra_ivc_channel_notified v : prog (Z * ivc) :=
  do* peer_state := load (rx_channel v) FS in
  do* v :=
    if peer_state =? ivc_state_sync then clear_counters v ivc_state_ack
    else
      do* state := load (tx_channel v) FS in
      if (state =? ivc_state_sync) && (peer_state =? ivc_state_ack)
      then clear_counters v ivc_state_established
      else
        do* state := load (tx_channel v) FS in
        if state =? ivc_state_ack then
          do* _ := store (tx_channel v) FS ivc_state_established in
          do* _ := notify in
          Ret v
        else Ret v in
  do* state := load (tx_channel v) FS in
  Ret (if state =? ivc_state_established then 0 else - EAGAIN, v).

Definition tegra_ivc_channel_sync v : prog (Z * ivc) :=
  if nframes v =? 0 then Ret (- EINVAL, v)
  else
    do* w_count := load (tx_channel v) FW in
    do* r_count := load (rx_channel v) FR in
    Ret (0, set_pos v (w_count mod nframes v) (r_count mod nframes v)).

(** ** Set-up *)

Definition tegra_ivc_align (size : Z) : Z :=
  Z.land (u64 (size + (IVC_ALIGN - 1))) (u64 (Z.lnot (IVC_ALIGN - 1))).

Definition tegra_ivc_total_queue_size (queue_size : Z) : Z :=
  if negb (Z.land queue_size (IVC_ALIGN - 1) =? 0) then 0
  else u32 (queue_size + sizeof_header).

(** The second base lies behind the frames of the first, if that is lower. *)
Definition queues_overlap (base1 base2 nframes frame_size : Z) : bool :=
  if base1 <? base2 then base2 <? u64 (base1 + u32 (frame_size * nframes))
  else base1 <? u64 (base2 + u32 (frame_size * nframes)).

Definition check_ivc_params (queue_base1 queue_base2 nframes frame_size : Z) : Z :=
  if 0x100000000 <=? u64 (nframes * frame_size) then - EINVAL
  else if negb (Z.land queue_base1 (IVC_ALIGN - 1) =? 0) then - EINVAL
  else if negb (Z.land queue_base2 (IVC_ALIGN - 1) =? 0) then - EINVAL
  else if negb (Z.land frame_size (IVC_ALIGN - 1) =? 0) then - EINVAL
  else if queues_overlap queue_base1 queue_base2 nframes frame_size then - EINVAL
  else 0.

Definition tegra_ivc_init v (rx_base tx_base nframes frame_size : Z) : Z * ivc :=
  let result := check_ivc_params rx_base tx_base nframes frame_size in
  if negb (result =? 0) then (result, v)
  else if 2 ^ 31 <? frame_size then (- E2BIG, v)
  else (0, mkIvc rx_base tx_base 0 0 nframes frame_size).
End Ops.

(** ** Two ends *)

Inductive call :=
| CRead (max_read : Z)
| CPeek (off count : Z)
| CReadAdvance
| CWrite (buf : list Z)
| CPoke (off : Z) (buf : list Z)
| CWriteAdvance
| CCanRead
| CCanWrite
| CTxEmpty
| CReset
| CNotified.

(** The result of a call and the bytes it read. *)
Definition call_prog (v : ivc) (c : call) : prog (Z * list Z * ivc) :=
  match c with
  | CRead n => tegra_ivc_read v n
  | CPeek off count => tegra_ivc_read_peek v off count
  | CReadAdvance => do* (r, v) := tegra_ivc_read_advance v in Ret (r, [], v)
  | CWrite buf => do* (r, v) := tegra_ivc_write v buf in Ret (r, [], v)
  | CPoke off buf => do* (r, v) := tegra_ivc_write_poke v off buf in Ret (r, [], v)
  | CWriteAdvance => do* (r, v) := tegra_ivc_write_advance v in Ret (r, [], v)
  | CCanRead => do* b := tegra_ivc_can_read v in Ret (Z.b2z b, [], v)
  | CCanWrite => do* b := tegra_ivc_can_write v in Ret (Z.b2z b, [], v)
  | CTxEmpty => do* b := tegra_ivc_tx_empty v in Ret (Z.b2z b, [], v)
  | CReset => do* _ := tegra_ivc_channel_reset v in Ret (0, [], v)
  | CNotified => do* (r, v) := tegra_ivc_channel_notified v in Ret (r, [], v)
  end.

Abbreviation history := (list (call * (Z * list Z))).

(** A processor: the call it is executing, the calls to come, and the calls that
    have returned, with their results. *)
Record thread := mkThread {
  th_call : call; th_prog : prog (Z * list Z * ivc); th_rest : list call; th_log : history
}.

(** Whether the call has returned: then the next one starts. *)
Definition thread_step (m : shmem) (t : thread) : res (shmem * thread) :=
  match th_prog t with
  | Ret (r, bs, v) =>
      match th_rest t with
      | [] => Ok (m, t)
      | c :: cs => Ok (m, mkThread c (call_prog v c) cs (th_log t ++ [(th_call t, (r, bs))]))
      end
  | p =>
      let* (m, p, _) := pstep m p in
      Ok (m, mkThread (th_call t) p (th_rest t) (th_log t))
  end.

Record system := mkSystem { sy_mem : shmem; sy_a : thread; sy_b : thread }.

Inductive side : Set := SideA | SideB.

Definition system_step (s : system) (x : side) : res system :=
  match x with
  | SideA => let* (m, t) := thread_step (sy_mem s) (sy_a s) in Ok (mkSystem m t (sy_b s))
  | SideB => let* (m, t) := thread_step (sy_mem s) (sy_b s) in Ok (mkSystem m (sy_a s) t)
  end.

Fixpoint schedule (s : system) (xs : list side) : res system :=
  match xs with
  | [] => Ok s
  | x :: xs => let* s := system_step s x in schedule s xs
  end.
