(* ===== verification/IvcLogic.v ===== *)
(** A proof method for two processors that share queues: what each end knows and
    may do at every moment ([ok]), and that the accesses of the two ends, in
    whatever order they happen, keep what both know true. *)

From S2P Require Import Prelude Ivc.

(** ** What an end knows *)

(** Where an end is in the reset protocol.  One end, the initiator, resets the
    channel at most once; [PEst false] is before, [PEst true] after the reset.
    - [PSync]: the initiator has asked for the reset;
    - [PClr w r]: it has seen the acknowledgement and has cleared its counter in
      the channel to the peer ([w]) and in the one from the peer ([r]);
    - [PSaw w r]: the responder has seen the request, and cleared as above;
    - [PAck]: it has acknowledged; [PAckE]: it has seen the initiator go on. *)
Inductive phase : Set :=
| PEst (new : bool) | PSync | PClr (w r : bool) | PSaw (w r : bool) | PAck | PAckE.

Definition state_of (ph : phase) : Z :=
  match ph with
  | PEst _ | PSaw _ _ => ivc_state_established
  | PSync | PClr _ _ => ivc_state_sync
  | PAck | PAckE => ivc_state_ack
  end.

(** The frames an end has published, how many of them it knows the peer to have
    taken, what it has put into the next frame so far, the frames of the peer it
    knows of, and how many of those it has taken. *)
Record know := mkKnow {
  k_ph : phase; k_out : list (list Z); k_rlow : Z; k_slot : option (list Z);
  k_in : list (list Z); k_nin : Z
}.

Definition fresh (ph : phase) : know := mkKnow ph [] 0 None [] 0.

Definition set_ph (K : know) (ph : phase) : know :=
  mkKnow ph (k_out K) (k_rlow K) (k_slot K) (k_in K) (k_nin K).
Definition set_rlow (K : know) (n : Z) : know :=
  mkKnow (k_ph K) (k_out K) n (k_slot K) (k_in K) (k_nin K).
Definition set_slot (K : know) (fr : list Z) : know :=
  mkKnow (k_ph K) (k_out K) (k_rlow K) (Some fr) (k_in K) (k_nin K).
Definition set_in (K : know) (l : list (list Z)) : know :=
  mkKnow (k_ph K) (k_out K) (k_rlow K) (k_slot K) l (k_nin K).
Definition publish (K : know) (fr : list Z) : know :=
  mkKnow (k_ph K) (k_out K ++ [fr]) (k_rlow K) None (k_in K) (k_nin K).
Definition consume (K : know) : know :=
  mkKnow (k_ph K) (k_out K) (k_rlow K) (k_slot K) (k_in K) (k_nin K + 1).

Section Logic.
(** The number of frames of a channel and their size. *)
Context (N F : Z).
Hypothesis HN : 0 < N < 2 ^ 32.
Hypothesis HF : 0 <= F < 2 ^ 31.

(** The content of the next frame, if it is known. *)
Definition slot_is (K : know) (fr : list Z) : Prop :=
  match k_slot K with Some s => fr = s | None => zlen fr = F end.

(** ** Accesses an end may make *)

(** States of the peer that an end in phase [ph] can observe, and its phase once
    it has. *)
Definition sees (init : bool) (ph : phase) (v : Z) (ph' : phase) : Prop :=
  match init, ph with
  | true, PSync =>
      v = ivc_state_established /\ ph' = ph \/ v = ivc_state_ack /\ ph' = PClr false false
  | true, PClr _ _ => v = ivc_state_ack /\ ph' = ph
  | true, PEst true => (v = ivc_state_ack \/ v = ivc_state_established) /\ ph' = ph
  | true, _ => v = ivc_state_established /\ ph' = ph
  | false, PEst false =>
      v = ivc_state_established /\ ph' = ph \/ v = ivc_state_sync /\ ph' = PSaw false false
  | false, PSaw _ _ => v = ivc_state_sync /\ ph' = ph
  | false, PAck =>
      v = ivc_state_sync /\ ph' = ph \/ v = ivc_state_established /\ ph' = PAckE
  | false, _ => v = ivc_state_established /\ ph' = ph
  end.

(** Changes of its own state. *)
Definition moves (init : bool) (K : know) (v : Z) (K' : know) : Prop :=
  match init, k_ph K with
  | true, PEst false => v = ivc_state_sync /\ K' = set_ph K PSync
  | true, PClr true true => v = ivc_state_established /\ K' = fresh (PEst true)
  | false, PSaw true true => v = ivc_state_ack /\ K' = fresh PAck
  | false, PAck => v = ivc_state_ack /\ K' = K
  | false, PAckE => v = ivc_state_established /\ K' = set_ph K (PEst true)
  | _, _ => False
  end.

(** Counters are cleared before the state is changed. *)
Definition clears (ph : phase) (f : field) : option phase :=
  match ph, f with
  | PClr _ r, FW => Some (PClr true r)
  | PClr w _, FR => Some (PClr w true)
  | PSaw _ r, FW => Some (PSaw true r)
  | PSaw w _, FR => Some (PSaw w true)
  | PAck, (FW | FR) => Some PAck
  | _, _ => None
  end.

Section Ok.
Context (init : bool) (tx rx : Z).

Definition est (K : know) : Prop := exists b, k_ph K = PEst b.

(** [Φ] holds of every value a load may give. *)
Definition load_ok (K : know) (ch : Z) (f : field) (Φ : know -> Z -> Prop) : Prop :=
  if ch =? tx then
    match f with
    | FS => Φ K (state_of (k_ph K))
    | FW => match k_ph K with PEst _ => Φ K (u32 (zlen (k_out K))) | _ => forall v, Φ K v end
    | FR =>
        match k_ph K with
        | PEst _ => forall n, k_rlow K <= n <= zlen (k_out K) -> Φ (set_rlow K n) (u32 n)
        | _ => forall v, Φ K v
        end
    end
  else if ch =? rx then
    match f with
    | FS => forall v ph, sees init (k_ph K) v ph -> Φ (set_ph K ph) v
    | FR => match k_ph K with PEst _ => Φ K (u32 (k_nin K)) | _ => forall v, Φ K v end
    | FW =>
        match k_ph K with
        | PEst _ => forall l, k_in K `prefix_of` l -> zlen l <= k_nin K + N ->
            Φ (set_in K l) (u32 (zlen l))
        | _ => forall v, Φ K v
        end
    end
  else False.

Definition store_ok (K : know) (ch : Z) (f : field) (v : Z) (Φ : know -> Prop) : Prop :=
  if ch =? tx then
    match f with
    | FS => exists K', moves init K v K' /\ Φ K'
    | FW =>
        match k_ph K with
        | PEst _ =>
            zlen (k_out K) < k_rlow K + N /\ v = u32 (zlen (k_out K) + 1) /\
            forall fr, slot_is K fr -> Φ (publish K fr)
        | ph => v = 0 /\ exists ph', clears ph FW = Some ph' /\ Φ (set_ph K ph')
        end
    | FR => False
    end
  else if ch =? rx then
    match f with
    | FR =>
        match k_ph K with
        | PEst _ => k_nin K < zlen (k_in K) /\ v = u32 (k_nin K + 1) /\ Φ (consume K)
        | ph => v = 0 /\ exists ph', clears ph FR = Some ph' /\ Φ (set_ph K ph')
        end
    | _ => False
    end
  else False.

Fixpoint ok {A} (K : know) (p : prog A) (Q : know -> A -> Prop) : Prop :=
  match p with
  | Ret a => Q K a
  | Load ch f k => load_ok K ch f (fun K v => ok K (k v) Q)
  | Store ch f v k => store_ok K ch f v (fun K => ok K k Q)
  | LoadFrame ch frame off count k =>
      ch = rx /\ est K /\ frame = k_nin K mod N /\ k_nin K < zlen (k_in K) /\
      0 <= off /\ 0 <= count /\ off + count <= F /\
      forall fr, k_in K !! Z.to_nat (k_nin K) = Some fr -> ok K (k (slice off count fr)) Q
  | StoreFrame ch frame off bs k =>
      ch = tx /\ est K /\ frame = zlen (k_out K) mod N /\ zlen (k_out K) < k_rlow K + N /\
      0 <= off /\ off + zlen bs <= F /\
      forall fr, slot_is K fr -> ok (set_slot K (splice off bs fr)) k Q
  | Notify k => ok K k Q
  end.

Lemma ok_bind {A B} (p : prog A) (q : A -> prog B) K Q :
  ok K p (fun K a => ok K (q a) Q) -> ok K (prog_bind p q) Q.
Proof.
  clear HN HF. revert K. induction p as [a|ch f k IH|ch f v k IH|ch fr off n k IH|ch fr off bs k IH|k IH]; intros K;
    cbn [prog_bind ok]; auto.
  - unfold load_ok. repeat case_match; try tauto; auto.
  - unfold store_ok. repeat case_match; try tauto; naive_solver.
  - naive_solver.
  - naive_solver.
Qed.

Lemma ok_mono {A} (p : prog A) K (Q Q' : know -> A -> Prop) :
  (forall K a, Q K a -> Q' K a) -> ok K p Q -> ok K p Q'.
Proof.
  clear HN HF. intros HQ. revert K. induction p as [a|ch f k IH|ch f v k IH|ch fr off n k IH|ch fr off bs k IH|k IH]; intros K;
    cbn [ok]; auto.
  - unfold load_ok. repeat case_match; try tauto; auto.
  - unfold store_ok. repeat case_match; try tauto; naive_solver.
  - naive_solver.
  - naive_solver.
Qed.
End Ok.

(** ** What is true of a channel *)

(** [W] is the end that transmits, [R] the one that receives. *)
Record link (c : channel) (W R : know) : Prop := {
  lk_w : ch_w c = u32 (zlen (k_out W));
  lk_r : ch_r c = u32 (k_nin R);
  lk_low : 0 <= k_rlow W <= k_nin R;
  lk_nin : k_nin R <= zlen (k_in R);
  lk_in : k_in R `prefix_of` k_out W;
  lk_cap : zlen (k_out W) <= k_nin R + N;
  lk_win : forall i, k_nin R <= i < zlen (k_out W) ->
    ch_frames c !! Z.to_nat (i mod N) = k_out W !! Z.to_nat i;
  lk_slot : forall s, k_slot W = Some s -> zlen (k_out W) < k_rlow W + N /\
    ch_frames c !! Z.to_nat (zlen (k_out W) mod N) = Some s
}.

Definition shape (c : channel) : Prop :=
  zlen (ch_frames c) = N /\ Forall (fun fr => zlen fr = F) (ch_frames c).

Lemma prefix_zlen {X} (l k : list X) : l `prefix_of` k -> zlen l <= zlen k.
Proof. intros H. apply prefix_length in H. unfold zlen. lia. Qed.

Lemma link_bounds c W R : link c W R ->
  0 <= k_rlow W /\ k_rlow W <= k_nin R /\ k_nin R <= zlen (k_in R) /\ zlen (k_in R) <= zlen (k_out W) /\
  zlen (k_out W) <= k_nin R + N.
Proof. intros [? ? ? ? Hin ? ? ?]. apply prefix_zlen in Hin. lia. Qed.

(** A link depends on the transmitting part of one end and the receiving part of
    the other. *)
Lemma link_ext c c' W W' R R' :
  link c W R -> ch_w c' = ch_w c -> ch_r c' = ch_r c -> ch_frames c' = ch_frames c ->
  k_out W' = k_out W -> k_rlow W' = k_rlow W -> k_slot W' = k_slot W ->
  k_in R' = k_in R -> k_nin R' = k_nin R -> link c' W' R'.
Proof.
  intros [H1 H2 H3 H4 H5 H6 H7 H8] E1 E2 E3 E4 E5 E6 E7 E8.
  split; rewrite ?E1, ?E2, ?E3, ?E4, ?E5, ?E6, ?E7, ?E8; auto.
Qed.

Lemma link_rlow c W R : link c W R -> link c (set_rlow W (k_nin R)) R.
Proof.
  intros L. pose proof (link_bounds _ _ _ L). destruct L as [H1 H2 H3 H4 H5 H6 H7 H8].
  split; cbn; auto; [lia|]. intros s Hs. destruct (H8 s Hs). split; [lia|done].
Qed.

Lemma link_in c W R : link c W R -> link c W (set_in R (k_out W)).
Proof.
  intros L. pose proof (link_bounds _ _ _ L). destruct L as [H1 H2 H3 H4 H5 H6 H7 H8].
  split; cbn; auto. lia.
Qed.

(** The frame the transmitting end is about to fill is not waiting to be read. *)
Lemma slot_apart i n : n - N < i < n -> i mod N <> n mod N.
Proof.
  intros Hi E. assert (H : (n - i) mod N = 0).
  { rewrite Zminus_mod, E, Z.sub_diag. apply Z.mod_0_l. lia. }
  rewrite Z.mod_small in H by lia. lia.
Qed.

Lemma mod_index n : 0 <= n -> (Z.to_nat (n mod N) < Z.to_nat N)%nat.
Proof. intros Hn. pose proof (Z.mod_pos_bound n N ltac:(lia)). lia. Qed.

Lemma mod_index_ne i n : 0 <= i -> 0 <= n -> i mod N <> n mod N ->
  Z.to_nat (i mod N) <> Z.to_nat (n mod N).
Proof.
  intros Hi Hn Hne. pose proof (Z.mod_pos_bound i N ltac:(lia)). pose proof (Z.mod_pos_bound n N ltac:(lia)). lia.
Qed.

Lemma shape_lookup c n : shape c -> 0 <= n -> exists fr, ch_frames c !! Z.to_nat (n mod N) = Some fr /\ zlen fr = F.
Proof.
  intros [Hl Hf] Hn. destruct (lookup_lt_is_Some_2 (ch_frames c) (Z.to_nat (n mod N))) as [fr E].
  { pose proof (mod_index n Hn). unfold zlen in Hl. lia. }
  exists fr. split; [done|]. rewrite Forall_lookup in Hf. by eapply Hf.
Qed.

Lemma link_slot c W R : link c W R -> shape c ->
  exists fr, ch_frames c !! Z.to_nat (zlen (k_out W) mod N) = Some fr /\ slot_is W fr /\ zlen fr = F.
Proof.
  intros L S. destruct (shape_lookup c (zlen (k_out W)) S ltac:(apply zlen_nonneg)) as (fr & E & Hz).
  exists fr. split; [done|]. split; [|done]. unfold slot_is. destruct (k_slot W) as [s|] eqn:Es; [|done].
  destruct (lk_slot _ _ _ L s Es) as [_ E2]. congruence.
Qed.

Lemma link_publish c W R fr v s :
  link c W R -> zlen (k_out W) < k_rlow W + N -> v = u32 (zlen (k_out W) + 1) ->
  ch_frames c !! Z.to_nat (zlen (k_out W) mod N) = Some fr ->
  link (mkChan v s (ch_r c) (ch_frames c)) (publish W fr) R.
Proof.
  intros L Hlt -> Hfr. pose proof (link_bounds _ _ _ L). destruct L as [H1 H2 H3 H4 H5 H6 H7 H8].
  pose proof (zlen_nonneg (k_out W)).
  split; cbn; rewrite ?zlen_app; change (zlen [fr]) with 1; auto; try lia.
  - by apply prefix_app_r.
  - intros i Hi. destruct (Z.eq_dec i (zlen (k_out W))) as [->|Hne].
    + rewrite Hfr. unfold zlen. rewrite Nat2Z.id. by rewrite list_lookup_middle.
    + rewrite H7 by lia. rewrite lookup_app_l; [done|]. unfold zlen in *. lia.
  - discriminate.
Qed.

Lemma link_consume c W R v s :
  link c W R -> k_nin R < zlen (k_in R) -> v = u32 (k_nin R + 1) ->
  link (mkChan (ch_w c) s v (ch_frames c)) W (consume R).
Proof.
  intros [H1 H2 H3 H4 H5 H6 H7 H8] Hlt ->. split; cbn; auto; try lia. intros i Hi. apply H7. lia.
Qed.

Lemma link_read c W R : link c W R -> shape c -> k_nin R < zlen (k_in R) ->
  exists fr, ch_frames c !! Z.to_nat (k_nin R mod N) = Some fr /\
    k_in R !! Z.to_nat (k_nin R) = Some fr /\ zlen fr = F.
Proof.
  intros L S Hlt. pose proof (link_bounds _ _ _ L).
  destruct (shape_lookup c (k_nin R) S ltac:(lia)) as (fr & E & Hz). exists fr. split; [done|]. split; [|done].
  rewrite (lk_win _ _ _ L) in E by lia. pose proof (lk_in _ _ _ L) as Hp.
  destruct (lookup_lt_is_Some_2 (k_in R) (Z.to_nat (k_nin R))) as [x Ex]; [unfold zlen in *; lia|].
  rewrite Ex. rewrite (prefix_lookup_Some _ _ _ _ Ex Hp) in E. congruence.
Qed.

Lemma link_fill c W R fr off bs s :
  link c W R -> shape c -> zlen (k_out W) < k_rlow W + N ->
  ch_frames c !! Z.to_nat (zlen (k_out W) mod N) = Some fr ->
  link (mkChan (ch_w c) s (ch_r c)
         (<[Z.to_nat (zlen (k_out W) mod N) := splice off bs fr]> (ch_frames c)))
    (set_slot W (splice off bs fr)) R.
Proof.
  intros L S Hlt Hfr. pose proof (link_bounds _ _ _ L). destruct L as [H1 H2 H3 H4 H5 H6 H7 H8].
  split; cbn; auto.
  - intros i Hi. rewrite list_lookup_insert_ne; [by apply H7|].
    apply not_eq_sym, mod_index_ne; [lia|lia|]. apply slot_apart. lia.
  - intros s' [= <-]. split; [done|]. apply list_lookup_insert_eq. eapply lookup_lt_Some. exact Hfr.
Qed.

Lemma shape_fill c i fr off bs w s r :
  shape c -> ch_frames c !! i = Some fr -> 0 <= off -> off + zlen bs <= F ->
  shape (mkChan w s r (<[i := splice off bs fr]> (ch_frames c))).
Proof.
  intros [Hl Hf] Hi Ho Hb. pose proof (proj1 (Forall_lookup _ _) Hf _ _ Hi) as Hz. cbn in Hz. split; cbn.
  - unfold zlen in *. by rewrite length_insert.
  - apply Forall_insert; [done|]. rewrite splice_length; lia.
Qed.
End Logic.
