(* ===== verification/IvcSteps.v ===== *)
(** Every access of either end keeps the two channels and what both ends know
    about them in agreement. *)

From S2P Require Import Prelude Ivc IvcLogic.

Section Steps.
Context (N F : Z).
Hypothesis HN : 0 < N < 2 ^ 32.
Hypothesis HF : 0 <= F < 2 ^ 31.

(** [cA] is the channel from the initiator to the responder, [cB] the other. *)
Definition agree (cA cB : channel) (KA KB : know) : Prop :=
  match k_ph KA, k_ph KB with
  | PEst false, PEst false | PSync, PEst false | PEst true, PEst true =>
      link N cA KA KB /\ link N cB KB KA
  | PEst true, (PAck | PAckE) =>
      link N cA KA KB /\ link N cB KB KA /\ KB = fresh (k_ph KB)
  | PSync, PSaw w r => (w = true -> ch_w cB = 0) /\ (r = true -> ch_r cA = 0)
  | PSync, PAck => ch_w cB = 0 /\ ch_r cA = 0 /\ KB = fresh PAck
  | PClr w r, PAck =>
      ch_w cB = 0 /\ ch_r cA = 0 /\ KB = fresh PAck /\
      (w = true -> ch_w cA = 0) /\ (r = true -> ch_r cB = 0)
  | _, _ => False
  end.

Definition joint (cA cB : channel) (KA KB : know) : Prop :=
  ch_s cA = state_of (k_ph KA) /\ ch_s cB = state_of (k_ph KB) /\
  shape N F cA /\ shape N F cB /\ agree cA cB KA KB.

Lemma link_fresh c ph ph' : ch_w c = 0 -> ch_r c = 0 -> link N c (fresh ph) (fresh ph').
Proof.
  intros Hw Hr. split; cbn; try done; try (unfold zlen; cbn; lia).
Qed.

Lemma set_ph_id K : set_ph K (k_ph K) = K.
Proof. by destruct K. Qed.

(** ** Established ends *)

Lemma agree_est_A cA cB KA KB x : k_ph KA = PEst x -> agree cA cB KA KB ->
  link N cA KA KB /\ link N cB KB KA.
Proof. clear HN HF. intros E. unfold agree. rewrite E. destruct x, (k_ph KB) as [[]| | | | |]; tauto. Qed.

Lemma agree_est_B cA cB KA KB x : k_ph KB = PEst x -> agree cA cB KA KB ->
  link N cA KA KB /\ link N cB KB KA.
Proof. clear HN HF. intros E. unfold agree. rewrite E. destruct (k_ph KA) as [[]| | | | |], x; tauto. Qed.

Lemma agree_keep_A cA cB KA KB cA' cB' K x :
  k_ph KA = PEst x -> agree cA cB KA KB -> k_ph K = PEst x ->
  link N cA' K KB -> link N cB' KB K -> agree cA' cB' K KB.
Proof. intros E H E'. unfold agree in *. rewrite E in H. rewrite E'. destruct x, (k_ph KB) as [[]| | | | |]; tauto. Qed.

Lemma agree_keep_B cA cB KA KB cA' cB' K x :
  k_ph KB = PEst x -> agree cA cB KA KB -> k_ph K = PEst x ->
  link N cA' KA K -> link N cB' K KA -> agree cA' cB' KA K.
Proof. intros E H E'. unfold agree in *. rewrite E in H. rewrite E'. destruct (k_ph KA) as [[]| | | | |], x; tauto. Qed.

Ltac same_link :=
  match goal with H : link _ ?c _ _ |- link _ ?c _ _ => eapply link_ext; [exact H|reflexivity..] end.

(** The states and shapes of [joint]. *)
Ltac states :=
  do 4 (split; [ first [ done |
    repeat match goal with H : ch_s _ = _ |- _ => rewrite H end; cbn;
    repeat match goal with H : k_ph _ = _ |- _ => rewrite H end; done ] | ]).

(** ** Loads *)

Lemma joint_see_A cA cB KA KB : joint cA cB KA KB ->
  exists ph, sees true (k_ph KA) (ch_s cB) ph /\ joint cA cB (set_ph KA ph) KB.
Proof.
  intros J. pose proof J as (SA & SB & ShA & ShB & Ag). rewrite SB. unfold agree in Ag.
  destruct (k_ph KA) as [[]| | | | |] eqn:E, (k_ph KB) as [[]| | | | |] eqn:E'; try done; cbn;
    try (exists (k_ph KA); rewrite set_ph_id, E; split; [by auto|done]).
  exists (PClr false false). split; [by right|]. states.
  unfold agree. cbn. rewrite E'. naive_solver.
Qed.

Lemma joint_see_B cA cB KA KB : joint cA cB KA KB ->
  exists ph, sees false (k_ph KB) (ch_s cA) ph /\ joint cA cB KA (set_ph KB ph).
Proof.
  intros J. pose proof J as (SA & SB & ShA & ShB & Ag). rewrite SA. unfold agree in Ag.
  destruct (k_ph KA) as [[]| | | | |] eqn:E, (k_ph KB) as [[]| | | | |] eqn:E'; try done; cbn;
    try (exists (k_ph KB); rewrite set_ph_id, E'; split; [by auto|done]).
  - exists PAckE. split; [by right|]. states. unfold agree. cbn. rewrite E.
    destruct Ag as (L1 & L2 & ->). split; [same_link|]. split; [same_link|done].
  - exists (PSaw false false). split; [by right|]. states. unfold agree. cbn. by rewrite E.
Qed.

Lemma load_A a b cA cB KA KB ch f Φ :
  joint cA cB KA KB -> load_ok N true a b KA ch f Φ ->
  exists K c, (ch = a /\ c = cA \/ ch = b /\ c = cB) /\ joint cA cB K KB /\ Φ K (get_field c f).
Proof.
  intros J. pose proof J as (SA & SB & ShA & ShB & Ag). unfold load_ok.
  destruct (Z.eqb_spec ch a) as [->|]; [|destruct (Z.eqb_spec ch b) as [->|]; [|done]].
  - destruct f; cbn [get_field].
    + destruct (k_ph KA) eqn:E; intros H; exists KA, cA; (split; [by left|]); (split; [done|]); try apply H.
      destruct (agree_est_A _ _ _ _ _ E Ag) as [L _]. by rewrite (lk_w _ _ _ _ L).
    + intros H. exists KA, cA. rewrite SA. auto.
    + destruct (k_ph KA) eqn:E; intros H; try (exists KA, cA; split; [by left|]; split; [done|]; apply H).
      destruct (agree_est_A _ _ _ _ _ E Ag) as [L L']. exists (set_rlow KA (k_nin KB)), cA. split; [by left|].
      rewrite (lk_r _ _ _ _ L). split; [|apply H; pose proof (link_bounds _ _ _ _ L); lia].
      states. eapply agree_keep_A; [exact E|exact Ag|done|by apply link_rlow|same_link].
  - destruct f; cbn [get_field].
    + destruct (k_ph KA) eqn:E; intros H; try (exists KA, cB; split; [by right|]; split; [done|]; apply H).
      destruct (agree_est_A _ _ _ _ _ E Ag) as [L L']. exists (set_in KA (k_out KB)), cB. split; [by right|].
      rewrite (lk_w _ _ _ _ L'). split; [|apply H; [apply (lk_in _ _ _ _ L')|apply (lk_cap _ _ _ _ L')]].
      states. eapply agree_keep_A; [exact E|exact Ag|done|same_link|by apply link_in].
    + intros H. destruct (joint_see_A _ _ _ _ J) as (ph & Hs & J'). exists (set_ph KA ph), cB. auto.
    + destruct (k_ph KA) eqn:E; intros H; exists KA, cB; (split; [by right|]); (split; [done|]); try apply H.
      destruct (agree_est_A _ _ _ _ _ E Ag) as [_ L]. by rewrite (lk_r _ _ _ _ L).
Qed.

Lemma load_B a b cA cB KA KB ch f Φ :
  joint cA cB KA KB -> load_ok N false b a KB ch f Φ ->
  exists K c, (ch = b /\ c = cB \/ ch = a /\ c = cA) /\ joint cA cB KA K /\ Φ K (get_field c f).
Proof.
  intros J. pose proof J as (SA & SB & ShA & ShB & Ag). unfold load_ok.
  destruct (Z.eqb_spec ch b) as [->|]; [|destruct (Z.eqb_spec ch a) as [->|]; [|done]].
  - destruct f; cbn [get_field].
    + destruct (k_ph KB) eqn:E; intros H; exists KB, cB; (split; [by left|]); (split; [done|]); try apply H.
      destruct (agree_est_B _ _ _ _ _ E Ag) as [_ L]. by rewrite (lk_w _ _ _ _ L).
    + intros H. exists KB, cB. rewrite SB. auto.
    + destruct (k_ph KB) eqn:E; intros H; try (exists KB, cB; split; [by left|]; split; [done|]; apply H).
      destruct (agree_est_B _ _ _ _ _ E Ag) as [L' L]. exists (set_rlow KB (k_nin KA)), cB. split; [by left|].
      rewrite (lk_r _ _ _ _ L). split; [|apply H; pose proof (link_bounds _ _ _ _ L); lia].
      states. eapply agree_keep_B; [exact E|exact Ag|done|same_link|by apply link_rlow].
  - destruct f; cbn [get_field].
    + destruct (k_ph KB) eqn:E; intros H; try (exists KB, cA; split; [by right|]; split; [done|]; apply H).
      destruct (agree_est_B _ _ _ _ _ E Ag) as [L' L]. exists (set_in KB (k_out KA)), cA. split; [by right|].
      rewrite (lk_w _ _ _ _ L'). split; [|apply H; [apply (lk_in _ _ _ _ L')|apply (lk_cap _ _ _ _ L')]].
      states. eapply agree_keep_B; [exact E|exact Ag|done|by apply link_in|same_link].
    + intros H. destruct (joint_see_B _ _ _ _ J) as (ph & Hs & J'). exists (set_ph KB ph), cA. auto.
    + destruct (k_ph KB) eqn:E; intros H; exists KB, cA; (split; [by right|]); (split; [done|]); try apply H.
      destruct (agree_est_B _ _ _ _ _ E Ag) as [L _]. by rewrite (lk_r _ _ _ _ L).
Qed.

(** ** Stores *)

Lemma shape_set c f v : shape N F c -> shape N F (set_field c f v).
Proof. by destruct f. Qed.

Lemma set_state_A cA cB KA KB v K : joint cA cB KA KB -> moves true KA v K ->
  joint (set_field cA FS v) cB K KB.
Proof.
  intros (SA & SB & ShA & ShB & Ag) Hm. unfold moves in Hm. unfold agree in Ag.
  destruct (k_ph KA) as [[]| |[] []| | |] eqn:E; try done; destruct Hm as [-> ->];
    destruct (k_ph KB) as [[]| | | | |] eqn:E'; try done.
  - states. unfold agree. cbn. rewrite E'. destruct Ag as [L1 L2].
    split; [eapply link_ext; [exact L1|reflexivity..]|eapply link_ext; [exact L2|reflexivity..]].
  - states. unfold agree. cbn. rewrite E'. destruct Ag as (H1 & H2 & -> & H3 & H4).
    split; [apply link_fresh; auto|]. split; [apply link_fresh; auto|done].
Qed.

Lemma set_state_B cA cB KA KB v K : joint cA cB KA KB -> moves false KB v K ->
  joint cA (set_field cB FS v) KA K.
Proof.
  intros (SA & SB & ShA & ShB & Ag) Hm. unfold moves in Hm. unfold agree in Ag.
  destruct (k_ph KA) as [[]| | | | |] eqn:E, (k_ph KB) as [[]| | |[] []| |] eqn:E'; try done; destruct Hm as [-> ->].
  - states. unfold agree. rewrite E, E'. destruct Ag as (L1 & L2 & Hf).
    split; [done|]. split; [eapply link_ext; [exact L2|reflexivity..]|done].
  - states. unfold agree. cbn. rewrite E. destruct Ag as (L1 & L2 & Hf).
    split; [eapply link_ext; [exact L1|reflexivity..]|eapply link_ext; [exact L2|reflexivity..]].
  - states. unfold agree. cbn. rewrite E. destruct Ag as [H1 H2]. auto.
  - states. unfold agree. rewrite E, E'. done.
  - states. unfold agree. rewrite E, E'. done.
Qed.

Lemma clear_A cA cB KA KB f ph : joint cA cB KA KB -> (forall x, k_ph KA <> PEst x) ->
  clears (k_ph KA) f = Some ph ->
  (f = FW -> joint (set_field cA FW 0) cB (set_ph KA ph) KB) /\
  (f = FR -> joint cA (set_field cB FR 0) (set_ph KA ph) KB).
Proof.
  intros (SA & SB & ShA & ShB & Ag) Hne Hc. unfold agree in Ag.
  destruct (k_ph KA) as [[]| | | | |] eqn:E; try (by destruct (Hne _ eq_refl)); try done;
    destruct (k_ph KB) as [[]| | | | |] eqn:E'; try done.
  destruct f; try done; injection Hc as <-; (split; [|done]) || (split; [done|]); intros _;
    states; unfold agree; cbn; rewrite E'; naive_solver.
Qed.

Lemma clear_B cA cB KA KB f ph : joint cA cB KA KB -> (forall x, k_ph KB <> PEst x) ->
  clears (k_ph KB) f = Some ph ->
  (f = FW -> joint cA (set_field cB FW 0) KA (set_ph KB ph)) /\
  (f = FR -> joint (set_field cA FR 0) cB KA (set_ph KB ph)).
Proof.
  intros (SA & SB & ShA & ShB & Ag) Hne Hc. unfold agree in Ag.
  destruct (k_ph KA) as [[]| | | | |] eqn:E, (k_ph KB) as [[]| | | | |] eqn:E'; try (by destruct (Hne _ eq_refl)); try done;
    destruct f; try done; injection Hc as <-; (split; [|done]) || (split; [done|]); intros _;
    states; unfold agree; cbn; rewrite E; try naive_solver.
  - destruct Ag as (L1 & L2 & ->). split; [eapply link_ext; [exact L1|reflexivity..]|].
    split; [|done]. eapply link_ext; [exact L2|cbn; by rewrite (lk_w _ _ _ _ L2)|reflexivity..].
  - destruct Ag as (L1 & L2 & ->). split; [|split; [|done]].
    + eapply link_ext; [exact L1|reflexivity|cbn; by rewrite (lk_r _ _ _ _ L1)|reflexivity..].
    + eapply link_ext; [exact L2|reflexivity..].
Qed.

Lemma store_A a b cA cB KA KB ch f v Φ :
  joint cA cB KA KB -> store_ok N F true a b KA ch f v Φ ->
  exists K, (ch = a /\ joint (set_field cA f v) cB K KB \/ ch = b /\ joint cA (set_field cB f v) K KB) /\ Φ K.
Proof.
  intros J. pose proof J as (SA & SB & ShA & ShB & Ag). unfold store_ok.
  destruct (Z.eqb_spec ch a) as [->|]; [|destruct (Z.eqb_spec ch b) as [->|]; [|done]]; destruct f; try done.
  - destruct (k_ph KA) as [x| | | | |] eqn:E; [|intros (-> & ph & Hc & H); rewrite <- E in Hc;
      destruct (clear_A _ _ _ _ _ _ J ltac:(congruence) Hc) as [J' _]; exists (set_ph KA ph); auto..].
    intros (Hlt & -> & H). destruct (agree_est_A _ _ _ _ _ E Ag) as [L L'].
    destruct (link_slot N F HN _ _ _ L ShA) as (fr & Hfr & Hs & _). exists (publish KA fr). split; [|by apply H].
    left. split; [done|]. states. eapply agree_keep_A; [exact E|exact Ag|done|by apply link_publish|same_link].
  - intros (K & Hm & H). exists K. split; [|done]. left. split; [done|]. by eapply set_state_A.
  - destruct (k_ph KA) as [x| | | | |] eqn:E; [|intros (-> & ph & Hc & H); rewrite <- E in Hc;
      destruct (clear_A _ _ _ _ _ _ J ltac:(congruence) Hc) as [_ J']; exists (set_ph KA ph); auto..].
    intros (Hlt & -> & H). destruct (agree_est_A _ _ _ _ _ E Ag) as [L L']. exists (consume KA). split; [|done].
    right. split; [done|]. states. eapply agree_keep_A; [exact E|exact Ag|done|same_link|by apply link_consume].
Qed.

Lemma store_B a b cA cB KA KB ch f v Φ :
  joint cA cB KA KB -> store_ok N F false b a KB ch f v Φ ->
  exists K, (ch = b /\ joint cA (set_field cB f v) KA K \/ ch = a /\ joint (set_field cA f v) cB KA K) /\ Φ K.
Proof.
  intros J. pose proof J as (SA & SB & ShA & ShB & Ag). unfold store_ok.
  destruct (Z.eqb_spec ch b) as [->|]; [|destruct (Z.eqb_spec ch a) as [->|]; [|done]]; destruct f; try done.
  - destruct (k_ph KB) as [x| | | | |] eqn:E; [|intros (-> & ph & Hc & H); rewrite <- E in Hc;
      destruct (clear_B _ _ _ _ _ _ J ltac:(congruence) Hc) as [J' _]; exists (set_ph KB ph); auto..].
    intros (Hlt & -> & H). destruct (agree_est_B _ _ _ _ _ E Ag) as [L' L].
    destruct (link_slot N F HN _ _ _ L ShB) as (fr & Hfr & Hs & _). exists (publish KB fr). split; [|by apply H].
    left. split; [done|]. states. eapply agree_keep_B; [exact E|exact Ag|done|same_link|by apply link_publish].
  - intros (K & Hm & H). exists K. split; [|done]. left. split; [done|]. by eapply set_state_B.
  - destruct (k_ph KB) as [x| | | | |] eqn:E; [|intros (-> & ph & Hc & H); rewrite <- E in Hc;
      destruct (clear_B _ _ _ _ _ _ J ltac:(congruence) Hc) as [_ J']; exists (set_ph KB ph); auto..].
    intros (Hlt & -> & H). destruct (agree_est_B _ _ _ _ _ E Ag) as [L' L]. exists (consume KB). split; [|done].
    right. split; [done|]. states. eapply agree_keep_B; [exact E|exact Ag|done|by apply link_consume|same_link].
Qed.

(** ** One access of one end *)

Section Access.
Context (a b : Z).
Hypothesis Hab : a <> b.

Definition shared (m : shmem) (KA KB : know) : Prop :=
  exists cA cB, m !! a = Some cA /\ m !! b = Some cB /\ joint cA cB KA KB.

Lemma frame_index n : 0 <= n -> (0 <=? n mod N) = true.
Proof. intros Hn. apply Z.leb_le. apply Z.mod_pos_bound. lia. Qed.

Lemma access_A {X} m KA KB (p : prog X) Q :
  shared m KA KB -> ok N F true a b KA p Q ->
  exists m' p' n K, pstep m p = Ok (m', p', n) /\ shared m' K KB /\ ok N F true a b K p' Q.
Proof.
  intros (cA & cB & EA & EB & J) Hok. pose proof J as (SA & SB & ShA & ShB & Ag).
  destruct p as [x|ch f k|ch f v k|ch fr off n k|ch fr off bs k|k]; cbn [ok pstep] in *.
  - exists m, (Ret x), false, KA. split; [done|]. split; [by exists cA, cB|done].
  - destruct (load_A _ _ _ _ _ _ _ _ _ J Hok) as (K & c & Hc & J' & H).
    assert (m !! ch = Some c) as -> by (destruct Hc as [[-> ->]|[-> ->]]; done).
    eexists m, _, false, K. split; [reflexivity|]. split; [by exists cA, cB|done].
  - destruct (store_A _ _ _ _ _ _ _ _ _ _ J Hok) as (K & [[-> J']|[-> J']] & H).
    + rewrite EA. eexists _, k, false, K. split; [reflexivity|]. split; [|done].
      exists (set_field cA f v), cB. rewrite lookup_insert_eq, lookup_insert_ne by done. done.
    + rewrite EB. eexists _, k, false, K. split; [reflexivity|]. split; [|done].
      exists cA, (set_field cB f v). rewrite lookup_insert_eq, lookup_insert_ne by done. done.
  - destruct Hok as (-> & [x E] & -> & Hlt & H1 & H2 & H3 & H).
    destruct (agree_est_A _ _ _ _ _ E Ag) as [_ L]. destruct (link_read N F HN _ _ _ L ShB Hlt) as (fr & E1 & E2 & Hz).
    pose proof (link_bounds _ _ _ _ L). rewrite EB, E1, frame_index by lia.
    destruct (Z.leb_spec 0 off); [|lia]. destruct (Z.leb_spec (off + n) (zlen fr)); [|lia]. cbn [andb].
    eexists m, _, false, KA. split; [reflexivity|]. split; [by exists cA, cB|by apply H].
  - destruct Hok as (-> & [x E] & -> & Hlt & H1 & H2 & H).
    destruct (agree_est_A _ _ _ _ _ E Ag) as [L L']. destruct (link_slot N F HN _ _ _ L ShA) as (fr & E1 & Hs & Hz).
    pose proof (zlen_nonneg (k_out KA)). rewrite EA, E1, frame_index by lia.
    destruct (Z.leb_spec 0 off); [|lia]. destruct (Z.leb_spec (off + zlen bs) (zlen fr)); [|lia]. cbn [andb].
    eexists _, k, false, (set_slot KA (splice off bs fr)). split; [reflexivity|]. split; [|by apply H].
    eexists _, cB. rewrite lookup_insert_eq, lookup_insert_ne by done. split; [reflexivity|]. split; [done|].
    split; [by rewrite SA|]. split; [done|]. split; [by eapply shape_fill|]. split; [done|].
    eapply agree_keep_A; [exact E|exact Ag|done|by apply (link_fill N F)|same_link].
  - exists m, k, true, KA. split; [done|]. split; [by exists cA, cB|done].
Qed.

Lemma access_B {X} m KA KB (p : prog X) Q :
  shared m KA KB -> ok N F false b a KB p Q ->
  exists m' p' n K, pstep m p = Ok (m', p', n) /\ shared m' KA K /\ ok N F false b a K p' Q.
Proof.
  intros (cA & cB & EA & EB & J) Hok. pose proof J as (SA & SB & ShA & ShB & Ag).
  destruct p as [x|ch f k|ch f v k|ch fr off n k|ch fr off bs k|k]; cbn [ok pstep] in *.
  - exists m, (Ret x), false, KB. split; [done|]. split; [by exists cA, cB|done].
  - destruct (load_B _ _ _ _ _ _ _ _ _ J Hok) as (K & c & Hc & J' & H).
    assert (m !! ch = Some c) as -> by (destruct Hc as [[-> ->]|[-> ->]]; done).
    eexists m, _, false, K. split; [reflexivity|]. split; [by exists cA, cB|done].
  - destruct (store_B _ _ _ _ _ _ _ _ _ _ J Hok) as (K & [[-> J']|[-> J']] & H).
    + rewrite EB. eexists _, k, false, K. split; [reflexivity|]. split; [|done].
      exists cA, (set_field cB f v). rewrite lookup_insert_eq, lookup_insert_ne by done. done.
    + rewrite EA. eexists _, k, false, K. split; [reflexivity|]. split; [|done].
      exists (set_field cA f v), cB. rewrite lookup_insert_eq, lookup_insert_ne by done. done.
  - destruct Hok as (-> & [x E] & -> & Hlt & H1 & H2 & H3 & H).
    destruct (agree_est_B _ _ _ _ _ E Ag) as [L _]. destruct (link_read N F HN _ _ _ L ShA Hlt) as (fr & E1 & E2 & Hz).
    pose proof (link_bounds _ _ _ _ L). rewrite EA, E1, frame_index by lia.
    destruct (Z.leb_spec 0 off); [|lia]. destruct (Z.leb_spec (off + n) (zlen fr)); [|lia]. cbn [andb].
    eexists m, _, false, KB. split; [reflexivity|]. split; [by exists cA, cB|by apply H].
  - destruct Hok as (-> & [x E] & -> & Hlt & H1 & H2 & H).
    destruct (agree_est_B _ _ _ _ _ E Ag) as [L' L]. destruct (link_slot N F HN _ _ _ L ShB) as (fr & E1 & Hs & Hz).
    pose proof (zlen_nonneg (k_out KB)). rewrite EB, E1, frame_index by lia.
    destruct (Z.leb_spec 0 off); [|lia]. destruct (Z.leb_spec (off + zlen bs) (zlen fr)); [|lia]. cbn [andb].
    eexists _, k, false, (set_slot KB (splice off bs fr)). split; [reflexivity|]. split; [|by apply H].
    eexists cA, _. rewrite lookup_insert_eq, lookup_insert_ne by done. split; [done|]. split; [reflexivity|].
    split; [done|]. split; [by rewrite SB|]. split; [done|]. split; [by eapply shape_fill|].
    eapply agree_keep_B; [exact E|exact Ag|done|same_link|by apply (link_fill N F)].
  - exists m, k, true, KB. split; [done|]. split; [by exists cA, cB|done].
Qed.
End Access.
End Steps.
