(* ===== verification/IvcCalls.v ===== *)
(** What each call does, as its client sees it, whatever the peer does in the
    meantime. *)

From S2P Require Import Prelude Ivc IvcLogic.

(** ** Transcripts *)

(** Frames published, what has been put into the next one, frames consumed. *)
Abbreviation hstate := (list (list Z) * option (list Z) * Z)%type.

Definition no_traffic : hstate := ([], None, 0).

Inductive transfer : call -> Prop :=
| tr_read n : transfer (CRead n)
| tr_peek o n : transfer (CPeek o n)
| tr_radv : transfer CReadAdvance
| tr_write bs : transfer (CWrite bs)
| tr_poke o bs : transfer (CPoke o bs)
| tr_wadv : transfer CWriteAdvance.

Inductive query : call -> Prop :=
| q_can_read : query CCanRead
| q_can_write : query CCanWrite
| q_tx_empty : query CTxEmpty.

(** A frame as [tegra_ivc_write] fills it. *)
Definition padded (F : Z) (buf : list Z) : list Z :=
  buf ++ replicate (Z.to_nat (F - zlen buf)) 0.

(** A call with its result and the bytes it read, where [inn] are the frames of
    the peer: reads give the next frame of the peer, writes publish one. *)
Inductive hstep (F : Z) (inn : list (list Z)) : hstate -> call -> Z -> list Z -> hstate -> Prop :=
| hs_read out slot nin n fr : inn !! Z.to_nat nin = Some fr ->
    hstep F inn (out, slot, nin) (CRead n) n (slice 0 n fr) (out, slot, nin + 1)
| hs_peek out slot nin off n fr : inn !! Z.to_nat nin = Some fr ->
    hstep F inn (out, slot, nin) (CPeek off n) n (slice off n fr) (out, slot, nin)
| hs_radv out slot nin : nin < zlen inn ->
    hstep F inn (out, slot, nin) CReadAdvance 0 [] (out, slot, nin + 1)
| hs_write out slot nin buf :
    hstep F inn (out, slot, nin) (CWrite buf) (zlen buf) [] (out ++ [padded F buf], None, nin)
| hs_poke out slot nin off buf fr : match slot with Some s => fr = s | None => zlen fr = F end ->
    hstep F inn (out, slot, nin) (CPoke off buf) (zlen buf) [] (out, Some (splice off buf fr), nin)
| hs_wadv out slot nin fr : match slot with Some s => fr = s | None => zlen fr = F end ->
    hstep F inn (out, slot, nin) CWriteAdvance 0 [] (out ++ [fr], None, nin)
| hs_fail h c r : transfer c -> r < 0 -> hstep F inn h c r [] h
| hs_query h c r : query c -> hstep F inn h c r [] h
| hs_est h : hstep F inn h CNotified 0 [] h
| hs_again h : hstep F inn h CNotified (- EAGAIN) [] no_traffic
| hs_reset h : hstep F inn h CReset 0 [] no_traffic.

(** Calls after which the traffic starts from nothing. *)
Definition restarts (c : call) (r : Z) : Prop := c = CReset \/ c = CNotified /\ r <> 0.

Inductive transcript (F : Z) (base : hstate) : history -> list (list Z) -> hstate -> Prop :=
| ts_nil inn : transcript F base [] inn base
| ts_call log inn inn' h c r bs h' :
    transcript F base log inn h -> inn `prefix_of` inn' \/ restarts c r ->
    hstep F inn' h c r bs h' -> transcript F base (log ++ [(c, (r, bs))]) inn' h'.

Lemma hstep_more F inn inn' h c r bs h' :
  hstep F inn h c r bs h' -> inn `prefix_of` inn' -> hstep F inn' h c r bs h'.
Proof.
  intros H Hp. destruct H; try (by econstructor); try (econstructor; by eapply prefix_lookup_Some).
  constructor. apply prefix_zlen in Hp. lia.
Qed.

Lemma transcript_more F base log inn inn' h :
  transcript F base log inn h -> inn `prefix_of` inn' -> transcript F base log inn' h.
Proof.
  intros H. revert inn'. induction H as [inn|log inn inn1 h c r bs h' H IH Hr Hs]; intros inn' Hp; [constructor|].
  eapply ts_call; [exact H| |by eapply hstep_more]. destruct Hr as [Hr|Hr]; [left; by etrans|by right].
Qed.

(** ** Between calls *)

Section Calls.
Context (N F : Z).
Hypothesis HN : 0 < N < 2 ^ 32.
Hypothesis HF : 0 <= F < 2 ^ 31.
Context (init : bool) (tx rx : Z).
Hypothesis Htr : tx <> rx.

Notation ok := (ok N F init tx rx).

Definition hs_of (K : know) : hstate :=
  match k_ph K with PSync => no_traffic | _ => (k_out K, k_slot K, k_nin K) end.

Definition inn_of (K : know) : list (list Z) :=
  match k_ph K with PSync => [] | _ => k_in K end.

Record wf (K : know) : Prop := {
  wf_low : 0 <= k_rlow K <= zlen (k_out K);
  wf_cap : zlen (k_out K) <= k_rlow K + N;
  wf_nin : 0 <= k_nin K <= zlen (k_in K);
  wf_in : zlen (k_in K) <= k_nin K + N;
  wf_slot : forall s, k_slot K = Some s -> zlen s = F
}.

Definition boundary (K : know) : Prop :=
  match k_ph K with
  | PEst _ => True
  | PSync => init = true
  | PAck => init = false /\ K = fresh PAck
  | _ => False
  end.

Record pos_ok (v : ivc) (K : know) : Prop := {
  po_rx : rx_channel v = rx;
  po_tx : tx_channel v = tx;
  po_n : nframes v = N;
  po_f : frame_size v = F;
  po_pos : k_ph K = PSync \/ w_pos v = zlen (k_out K) mod N /\ r_pos v = k_nin K mod N
}.

(** The same traffic, with more known of the peer. *)
Record grow (K K' : know) : Prop := {
  gr_ph : k_ph K' = k_ph K;
  gr_out : k_out K' = k_out K;
  gr_slot : k_slot K' = k_slot K;
  gr_nin : k_nin K' = k_nin K;
  gr_low : k_rlow K <= k_rlow K';
  gr_in : k_in K `prefix_of` k_in K';
  gr_wf : wf K';
  gr_est : est K \/ K' = K
}.

Lemma grow_refl K : wf K -> grow K K.
Proof. intros. split; try done; try lia; by right. Qed.

Lemma grow_trans K1 K2 K3 : grow K1 K2 -> grow K2 K3 -> grow K1 K3.
Proof.
  intros [A1 A2 A3 A4 A5 A6 A7 A8] [B1 B2 B3 B4 B5 B6 B7 B8]. split; try congruence; try done; try lia; [by etrans|].
  destruct A8 as [?| -> ]; [by left|done].
Qed.

Lemma grow_rlow K x n : k_ph K = PEst x -> wf K -> k_rlow K <= n <= zlen (k_out K) -> grow K (set_rlow K n).
Proof. intros E [H1 H2 H3 H4 H5] Hn.
  split; cbn; try done; try lia; [split; cbn; try lia; done|left; by exists x]. Qed.

Lemma grow_in K x l : k_ph K = PEst x -> wf K -> k_in K `prefix_of` l -> zlen l <= k_nin K + N -> grow K (set_in K l).
Proof.
  intros E [H1 H2 H3 H4 H5] Hp Hl. pose proof (prefix_zlen _ _ Hp).
  split; cbn; try done; try lia; [split; cbn; try lia; done|left; by exists x].
Qed.

Lemma u32_diff x y : 0 <= x - y < 2 ^ 32 -> u32 (u32 x - u32 y) = x - y.
Proof. intros H. unfold u32. rewrite <- Zminus_mod. by apply Z.mod_small. Qed.

Lemma u32_eq x y : 0 <= x - y < 2 ^ 32 -> (u32 x =? u32 y) = (x =? y).
Proof.
  intros H. destruct (Z.eqb_spec x y) as [->|Hne]; [apply Z.eqb_refl|]. apply Z.eqb_neq. intros E.
  pose proof (u32_diff x y H) as D. rewrite E, Z.sub_diag in D. change (u32 0) with 0 in D. lia.
Qed.

Lemma slot_len K fr : wf K -> slot_is F K fr -> zlen fr = F.
Proof. intros W. unfold slot_is. destruct (k_slot K) as [s|] eqn:E; [|done]. intros ->. by apply (wf_slot _ W). Qed.

Lemma wf_fill K off bs fr : wf K -> slot_is F K fr -> 0 <= off -> off + zlen bs <= F ->
  wf (set_slot K (splice off bs fr)).
Proof.
  intros W Hs Ho Hb. pose proof (slot_len _ _ W Hs) as Hz. destruct W as [W1 W2 W3 W4 W5]. split; cbn; try done.
  intros s [= <-]. rewrite splice_length; lia.
Qed.

(** Position of the next frame in the ring. *)
Lemma next_pos x : 0 <= x -> (if x mod N =? u32 (N - 1) then 0 else u32 (x mod N + 1)) = (x + 1) mod N.
Proof.
  intros Hx. pose proof (Z.mod_pos_bound x N ltac:(lia)) as B. rewrite u32_small by lia.
  rewrite <- (Z.add_mod_idemp_l x 1 N) by lia. destruct (Z.eqb_spec (x mod N) (N - 1)) as [->|].
  - by rewrite Z.sub_add, Z.mod_same by lia.
  - rewrite u32_small by lia. symmetry. apply Z.mod_small. lia.
Qed.

Lemma load_ok_tx K f Φ : load_ok N init tx rx K tx f Φ =
  match f with
  | FS => Φ K (state_of (k_ph K))
  | FW => match k_ph K with PEst _ => Φ K (u32 (zlen (k_out K))) | _ => forall v, Φ K v end
  | FR =>
      match k_ph K with
      | PEst _ => forall n, k_rlow K <= n <= zlen (k_out K) -> Φ (set_rlow K n) (u32 n)
      | _ => forall v, Φ K v
      end
  end.
Proof. unfold load_ok. by rewrite Z.eqb_refl. Qed.

Lemma load_ok_rx K f Φ : load_ok N init tx rx K rx f Φ =
  match f with
  | FS => forall v ph, sees init (k_ph K) v ph -> Φ (set_ph K ph) v
  | FR => match k_ph K with PEst _ => Φ K (u32 (k_nin K)) | _ => forall v, Φ K v end
  | FW =>
      match k_ph K with
      | PEst _ => forall l, k_in K `prefix_of` l -> zlen l <= k_nin K + N ->
          Φ (set_in K l) (u32 (zlen l))
      | _ => forall v, Φ K v
      end
  end.
Proof. unfold load_ok. destruct (Z.eqb_spec rx tx); [done|]. by rewrite Z.eqb_refl. Qed.

(** ** The tests *)

Ltac est_load H := rewrite ?load_ok_tx, ?load_ok_rx; cbn; rewrite ?H.

Lemma full_spec v K x : k_ph K = PEst x -> wf K -> nframes v = N ->
  ok K (ivc_channel_full v tx) (fun K' full => grow K K' /\ (full = false -> zlen (k_out K) < k_rlow K' + N)).
Proof.
  intros E W En. cbn [ivc_channel_full load prog_bind IvcLogic.ok]. rewrite load_ok_tx, E.
  cbn [prog_bind IvcLogic.ok]. rewrite load_ok_tx, E. intros n Hn. cbn [prog_bind IvcLogic.ok].
  split; [by eapply grow_rlow|]. destruct W as [W1 W2 _ _ _]. rewrite En, u32_diff by lia. cbn.
  intros Hf. apply Z.leb_gt in Hf. lia.
Qed.

Lemma empty_spec v K x : k_ph K = PEst x -> wf K -> nframes v = N ->
  ok K (ivc_channel_empty v rx) (fun K' empty => grow K K' /\ (empty = false -> k_nin K < zlen (k_in K'))).
Proof.
  intros E W En. cbn [ivc_channel_empty load prog_bind IvcLogic.ok]. rewrite load_ok_rx, E. intros l Hp Hl.
  pose proof W as [_ _ W3 W4 _]. pose proof (prefix_zlen _ _ Hp).
  cbn [prog_bind IvcLogic.ok]. rewrite load_ok_rx. cbn [set_in k_ph k_nin]. rewrite E. cbn [prog_bind IvcLogic.ok].
  split; [by eapply grow_in|]. rewrite En, u32_diff, u32_eq by lia. cbn.
  destruct (Z.ltb_spec N (zlen l - k_nin K)); [done|]. intros Hf. apply Z.eqb_neq in Hf. lia.
Qed.

Lemma check_write_spec v K : boundary K -> wf K -> nframes v = N -> tx_channel v = tx ->
  ok K (ivc_check_write v) (fun K' r => grow K K' /\
    (r = 0 /\ est K /\ zlen (k_out K) < k_rlow K' + N \/ r < 0)).
Proof.
  intros B W En Et. unfold ivc_check_write. cbn [load prog_bind IvcLogic.ok]. rewrite Et, load_ok_tx.
  unfold boundary in B. destruct (k_ph K) as [x| | | | |] eqn:E; cbn [state_of]; try done; cbn [negb];
    try (cbn; split; [by apply grow_refl|right; unfold ECONNRESET; lia]).
  rewrite Z.eqb_refl. cbn [negb]. apply ok_bind. eapply ok_mono; [|by eapply full_spec].
  intros K1 full [G H]. destruct full; cbn [negb IvcLogic.ok].
  - apply ok_bind. eapply ok_mono; [|eapply (full_spec v K1 x); [by rewrite (gr_ph _ _ G)|apply G|done]].
    intros K2 full [G2 H2]. cbn. split; [by eapply grow_trans|]. destruct full; [right; unfold ENOMEM; lia|].
    left. split; [done|]. split; [by exists x|]. specialize (H2 eq_refl). by rewrite (gr_out _ _ G) in H2.
  - split; [done|]. left. split; [done|]. split; [by exists x|]. by apply H.
Qed.

Lemma check_read_spec v K : boundary K -> wf K -> nframes v = N -> tx_channel v = tx -> rx_channel v = rx ->
  ok K (ivc_check_read v) (fun K' r => grow K K' /\
    (r = 0 /\ est K /\ k_nin K < zlen (k_in K') \/ r < 0)).
Proof.
  intros B W En Et Er. unfold ivc_check_read. cbn [load prog_bind IvcLogic.ok]. rewrite Et, load_ok_tx, Er.
  unfold boundary in B. destruct (k_ph K) as [x| | | | |] eqn:E; cbn [state_of]; try done; cbn [negb];
    try (cbn; split; [by apply grow_refl|right; unfold ECONNRESET; lia]).
  rewrite Z.eqb_refl. cbn [negb]. apply ok_bind. eapply ok_mono; [|by eapply empty_spec].
  intros K1 empty [G H]. destruct empty; cbn [negb IvcLogic.ok].
  - apply ok_bind. eapply ok_mono; [|eapply (empty_spec v K1 x); [by rewrite (gr_ph _ _ G)|apply G|done]].
    intros K2 empty [G2 H2]. cbn. split; [by eapply grow_trans|]. destruct empty; [right; unfold ENOMEM; lia|].
    left. split; [done|]. split; [by exists x|]. specialize (H2 eq_refl). by rewrite (gr_nin _ _ G) in H2.
  - split; [done|]. left. split; [done|]. split; [by exists x|]. by apply H.
Qed.

(** ** Publishing and consuming a frame *)

Lemma notify_tx_spec v K x : k_ph K = PEst x -> wf K -> tx_channel v = tx ->
  ok K (notify_tx v) (fun K' _ => grow K K').
Proof.
  intros E W Et. unfold notify_tx, ivc_channel_avail_count. cbn [load prog_bind IvcLogic.ok].
  rewrite Et, load_ok_tx, E. cbn [prog_bind IvcLogic.ok]. rewrite load_ok_tx, E. intros n Hn.
  cbn [prog_bind IvcLogic.ok]. destruct (_ =? 1); cbn; by eapply grow_rlow.
Qed.

Lemma notify_rx_spec v K x : k_ph K = PEst x -> wf K -> rx_channel v = rx ->
  ok K (notify_rx v) (fun K' _ => grow K K').
Proof.
  intros E W Er. unfold notify_rx, ivc_channel_avail_count. cbn [load prog_bind IvcLogic.ok].
  rewrite Er, load_ok_rx, E. intros l Hp Hl. cbn [prog_bind IvcLogic.ok]. rewrite load_ok_rx.
  cbn [set_in k_ph]. rewrite E. cbn [prog_bind IvcLogic.ok]. destruct (_ =? _); cbn; by eapply grow_in.
Qed.

Definition same_static (v v' : ivc) : Prop :=
  rx_channel v' = rx_channel v /\ tx_channel v' = tx_channel v /\ nframes v' = nframes v /\
  frame_size v' = frame_size v.

Lemma publish_spec {X} v K x (k : ivc -> prog X) Q :
  k_ph K = PEst x -> wf K -> pos_ok v K -> zlen (k_out K) < k_rlow K + N ->
  (forall K' v' fr, slot_is F K fr -> grow (publish K fr) K' -> pos_ok v' K' -> ok K' (k v') Q) ->
  ok K (do* v := ivc_advance_tx v in do* _ := notify_tx v in k v)%ivc Q.
Proof.
  intros E W P Hlt HQ. destruct P as [Pr Pt Pn Pf Pp]. unfold ivc_advance_tx.
  cbn [load store prog_bind IvcLogic.ok]. rewrite Pt, load_ok_tx, E. cbn [prog_bind IvcLogic.ok].
  unfold store_ok. rewrite Z.eqb_refl, E. split; [done|]. split.
  { unfold u32. by rewrite Z.add_mod_idemp_l by lia. }
  intros fr Hs. apply ok_bind.
  assert (W' : wf (publish K fr)).
  { destruct W as [W1 W2 W3 W4 W5]. split; cbn; rewrite ?zlen_app; change (zlen [fr]) with 1; try lia. done. }
  eapply ok_mono; [|eapply notify_tx_spec; [exact E|exact W'|exact Pt]]. intros K' ? G. cbn in G.
  apply (HQ _ _ fr Hs G). split; cbn; try done.
  right. rewrite (gr_out _ _ G), (gr_nin _ _ G). destruct Pp as [Pp|[Pw Pr']]; [congruence|].
  rewrite Pw, Pn. split; [|done]. cbn. rewrite zlen_app. change (zlen [fr]) with 1.
  apply next_pos. apply zlen_nonneg.
Qed.

Lemma consume_spec {X} v K x (k : ivc -> prog X) Q :
  k_ph K = PEst x -> wf K -> pos_ok v K -> k_nin K < zlen (k_in K) ->
  (forall K' v', grow (consume K) K' -> pos_ok v' K' -> ok K' (k v') Q) ->
  ok K (do* v := ivc_advance_rx v in do* _ := notify_rx v in k v)%ivc Q.
Proof.
  intros E W P Hlt HQ. destruct P as [Pr Pt Pn Pf Pp]. unfold ivc_advance_rx.
  cbn [load store prog_bind IvcLogic.ok]. rewrite Pr, load_ok_rx, E. cbn [prog_bind IvcLogic.ok].
  unfold store_ok. destruct (Z.eqb_spec rx tx); [done|]. rewrite Z.eqb_refl, E. split; [done|]. split.
  { unfold u32. by rewrite Z.add_mod_idemp_l by lia. }
  apply ok_bind. destruct W as [W1 W2 W3 W4 W5].
  assert (W' : wf (consume K)) by (split; cbn; try lia; done).
  eapply ok_mono; [|eapply notify_rx_spec; [exact E|exact W'|exact Pr]]. intros K' ? G. cbn in G.
  apply (HQ _ _ G). split; cbn; try done.
  right. rewrite (gr_out _ _ G), (gr_nin _ _ G). destruct Pp as [Pp|[Pw Pr']]; [congruence|].
  split; [done|]. rewrite Pr', Pn. apply next_pos. lia.
Qed.

(** ** The calls *)

(** What holds when a call returns. *)
Definition post (K0 : know) (c : call) (K : know) (x : Z * list Z * ivc) : Prop :=
  let '(r, bs, v) := x in
  pos_ok v K /\ wf K /\ boundary K /\
  (inn_of K0 `prefix_of` inn_of K \/ restarts c r) /\
  hstep F (inn_of K) (hs_of K0) c r bs (hs_of K) /\
  (init = true -> c <> CReset -> k_ph K0 = PEst false -> k_ph K = PEst false).

Lemma grow_pos v K K' : grow K K' -> pos_ok v K -> pos_ok v K'.
Proof. intros G [H1 H2 H3 H4 H5]. split; try done. by rewrite (gr_ph _ _ G), (gr_out _ _ G), (gr_nin _ _ G). Qed.

Lemma grow_boundary K K' : grow K K' -> boundary K -> boundary K'.
Proof.
  intros G B. unfold boundary in *. rewrite (gr_ph _ _ G). destruct (gr_est _ _ G) as [[x E]| -> ]; [|done].
  by rewrite E.
Qed.

Lemma grow_hs K K' : grow K K' -> hs_of K' = hs_of K.
Proof. intros G. unfold hs_of. by rewrite (gr_ph _ _ G), (gr_out _ _ G), (gr_slot _ _ G), (gr_nin _ _ G). Qed.

Lemma grow_inn K K' : grow K K' -> inn_of K `prefix_of` inn_of K'.
Proof. intros G. unfold inn_of. rewrite (gr_ph _ _ G). destruct (k_ph K); try done; apply (gr_in _ _ G). Qed.

(** Calls that leave the traffic as it is. *)
Lemma post_idle v K K' c r bs : grow K K' -> pos_ok v K -> boundary K ->
  hstep F (inn_of K') (hs_of K) c r bs (hs_of K) -> post K c K' (r, bs, v).
Proof.
  intros G P B Hs. split; [by eapply grow_pos|]. split; [apply G|]. split; [by eapply grow_boundary|].
  split; [left; by apply grow_inn|]. split; [by rewrite (grow_hs _ _ G)|]. intros _ _ E. by rewrite (gr_ph _ _ G).
Qed.

Lemma est_state K x : k_ph K = PEst x ->
  hs_of K = (k_out K, k_slot K, k_nin K) /\ inn_of K = k_in K /\ boundary K.
Proof. intros E. unfold hs_of, inn_of, boundary. by rewrite E. Qed.

(** A call that publishes a frame, or consumes one. *)
Lemma post_moved v K K1 K2 c r bs x : k_ph K = PEst x -> grow K1 K2 -> k_ph K1 = PEst x ->
  k_in K `prefix_of` k_in K1 -> pos_ok v K2 ->
  hstep F (k_in K2) (k_out K, k_slot K, k_nin K) c r bs (k_out K1, k_slot K1, k_nin K1) ->
  post K c K2 (r, bs, v).
Proof.
  intros E G E1 Hp P Hs. assert (E2 : k_ph K2 = PEst x) by (by rewrite (gr_ph _ _ G)).
  destruct (est_state _ _ E) as (H1 & H2 & _). destruct (est_state _ _ E2) as (H3 & H4 & H5).
  split; [done|]. split; [apply G|]. split; [done|]. rewrite H1, H2, H3, H4.
  split; [left; etrans; [exact Hp|apply (gr_in _ _ G)]|]. rewrite (gr_out _ _ G), (gr_slot _ _ G), (gr_nin _ _ G).
  split; [done|]. congruence.
Qed.

(** Sizes are of type [size_t]; an end resets the channel as [sees] expects. *)
Definition call_ok (K : know) (c : call) : Prop :=
  match c with
  | CRead n => 0 <= n
  | CPeek off n => 0 <= off /\ 0 <= n /\ off + n < 2 ^ 64
  | CPoke off bs => 0 <= off /\ off + zlen bs < 2 ^ 64
  | CReset => init = true /\ k_ph K = PEst false
  | _ => True
  end.

Lemma s32_frame x : 0 <= x <= F -> s32 x = x.
Proof. intros Hx. unfold s32. rewrite Z.mod_small by lia. lia. Qed.

Lemma read_spec v K n : boundary K -> wf K -> pos_ok v K -> 0 <= n ->
  ok K (tegra_ivc_read v n) (post K (CRead n)).
Proof.
  intros B W P Hn. destruct P as [Pr Pt Pn Pf Pp]. assert (P : pos_ok v K) by done.
  unfold tegra_ivc_read. rewrite Pf. destruct (Z.ltb_spec F n).
  { cbn. apply post_idle; [by apply grow_refl|done|done|]. constructor; [constructor|unfold E2BIG; lia]. }
  apply ok_bind. eapply ok_mono; [|by apply check_read_spec]. intros K1 r [G [(-> & [x E] & Hlt)|Hr]].
  2:{ destruct (Z.eqb_spec r 0); [lia|]. cbn. apply post_idle; [done..|]. by constructor; [constructor|]. }
  cbn [negb Z.eqb prog_bind IvcLogic.ok].
  assert (E1 : k_ph K1 = PEst x) by (by rewrite (gr_ph _ _ G)).
  pose proof (grow_pos _ _ _ G P) as P1. destruct (po_pos _ _ P1) as [?|[_ Epos]]; [congruence|].
  pose proof (gr_nin _ _ G) as En. split; [done|]. split; [by exists x|]. split; [done|]. split; [lia|].
  split; [lia|]. split; [done|]. split; [lia|]. intros fr Hfr.
  eapply consume_spec; [exact E1|apply G|exact P1|lia|]. intros K2 v2 G2 P2. cbn. rewrite s32_frame by lia.
  eapply (post_moved _ _ _ _ _ _ _ _ E G2); [done|apply G|done|]. cbn.
  rewrite (gr_out _ _ G), (gr_slot _ _ G), En. constructor. rewrite <- En.
  eapply prefix_lookup_Some; [exact Hfr|]. apply (gr_in _ _ G2).
Qed.

Lemma peek_spec v K off n : boundary K -> wf K -> pos_ok v K -> 0 <= off -> 0 <= n -> off + n < 2 ^ 64 ->
  ok K (tegra_ivc_read_peek v off n) (post K (CPeek off n)).
Proof.
  intros B W P Ho Hn Hw. destruct P as [Pr Pt Pn Pf Pp]. assert (P : pos_ok v K) by done.
  unfold tegra_ivc_read_peek. rewrite Pf, u64_small by lia.
  destruct (Z.ltb_spec F off), (Z.ltb_spec F (off + n)); cbn [orb];
    try (cbn; apply post_idle; [by apply grow_refl|done|done|]; constructor; [constructor|unfold E2BIG; lia]).
  apply ok_bind. eapply ok_mono; [|by apply check_read_spec]. intros K1 r [G [(-> & [x E] & Hlt)|Hr]].
  2:{ destruct (Z.eqb_spec r 0); [lia|]. cbn. apply post_idle; [done..|]. by constructor; [constructor|]. }
  cbn [negb Z.eqb prog_bind IvcLogic.ok].
  assert (E1 : k_ph K1 = PEst x) by (by rewrite (gr_ph _ _ G)).
  pose proof (grow_pos _ _ _ G P) as P1. destruct (po_pos _ _ P1) as [?|[_ Epos]]; [congruence|].
  pose proof (gr_nin _ _ G) as En. split; [done|]. split; [by exists x|]. split; [done|]. split; [lia|].
  split; [done|]. split; [done|]. split; [lia|]. intros fr Hfr. rewrite s32_frame by lia.
  apply post_idle; [done..|]. destruct (est_state _ _ E) as (-> & _ & _). destruct (est_state _ _ E1) as (_ & -> & _).
  constructor. by rewrite <- En.
Qed.

Lemma read_advance_spec v K : boundary K -> wf K -> pos_ok v K ->
  ok K (call_prog v CReadAdvance) (post K CReadAdvance).
Proof.
  intros B W P. destruct P as [Pr Pt Pn Pf Pp]. assert (P : pos_ok v K) by done.
  cbn [call_prog]. apply ok_bind. unfold tegra_ivc_read_advance.
  apply ok_bind. eapply ok_mono; [|by apply check_read_spec]. intros K1 r [G [(-> & [x E] & Hlt)|Hr]].
  2:{ destruct (Z.eqb_spec r 0); [lia|]. cbn. apply post_idle; [done..|]. by constructor; [constructor|]. }
  cbn [negb Z.eqb]. assert (E1 : k_ph K1 = PEst x) by (by rewrite (gr_ph _ _ G)).
  pose proof (grow_pos _ _ _ G P) as P1. pose proof (gr_nin _ _ G) as En.
  eapply consume_spec; [exact E1|apply G|exact P1|lia|]. intros K2 v2 G2 P2. cbn.
  eapply (post_moved _ _ _ _ _ _ _ _ E G2); [done|apply G|done|]. cbn.
  rewrite (gr_out _ _ G), (gr_slot _ _ G), En. constructor.
  pose proof (prefix_zlen _ _ (gr_in _ _ G2)) as Hz. cbn in Hz. lia.
Qed.

Lemma write_spec v K buf : boundary K -> wf K -> pos_ok v K ->
  ok K (call_prog v (CWrite buf)) (post K (CWrite buf)).
Proof.
  intros B W P. destruct P as [Pr Pt Pn Pf Pp]. assert (P : pos_ok v K) by done. pose proof (zlen_nonneg buf).
  cbn [call_prog]. apply ok_bind. unfold tegra_ivc_write. rewrite Pf. destruct (Z.ltb_spec F (zlen buf)).
  { cbn. apply post_idle; [by apply grow_refl|done|done|]. constructor; [constructor|unfold E2BIG; lia]. }
  apply ok_bind. eapply ok_mono; [|by apply check_write_spec]. intros K1 r [G [(-> & [x E] & Hlt)|Hr]].
  2:{ destruct (Z.eqb_spec r 0); [lia|]. cbn. apply post_idle; [done..|]. by constructor; [constructor|]. }
  cbn [negb Z.eqb prog_bind IvcLogic.ok].
  assert (E1 : k_ph K1 = PEst x) by (by rewrite (gr_ph _ _ G)).
  pose proof (grow_pos _ _ _ G P) as P1. destruct (po_pos _ _ P1) as [?|[Epos _]]; [congruence|].
  pose proof (gr_out _ _ G) as Eo. rewrite <- Eo in Hlt. split; [done|]. split; [by exists x|]. split; [done|].
  split; [done|]. split; [lia|]. split; [lia|]. intros fr Hfr.
  assert (Hz : zlen (replicate (Z.to_nat (F - zlen buf)) 0) = F - zlen buf).
  { unfold zlen at 1. rewrite length_replicate. lia. }
  split; [done|]. split; [by exists x|]. split; [done|]. split; [done|]. split; [lia|]. split; [lia|].
  intros fr2 Hs2. cbn in Hs2. subst fr2. pose proof (slot_len _ _ (gr_wf _ _ G) Hfr) as Hlen.
  assert (Epad : splice (zlen buf) (replicate (Z.to_nat (F - zlen buf)) 0) (splice 0 buf fr) = padded F buf).
  { rewrite <- (Z.add_0_l (zlen buf)) at 1. rewrite splice_app by lia. apply splice_whole.
    unfold padded. rewrite zlen_app. lia. }
  rewrite Epad. eapply publish_spec; [exact E1| | |done|].
  - destruct (gr_wf _ _ G) as [W1 W2 W3 W4 W5]. split; cbn; try done. intros s [= <-]. unfold padded.
    rewrite zlen_app. lia.
  - destruct P1 as [Q1 Q2 Q3 Q4 Q5]. by split.
  - intros K4 v4 fr4 Hs4 G4 P4. cbn. rewrite s32_frame by lia. cbn in Hs4. subst fr4.
    eapply (post_moved _ _ _ _ _ _ _ _ E G4); [done|apply G|done|]. cbn.
    rewrite Eo, (gr_nin _ _ G). constructor.
Qed.

Lemma poke_spec v K off buf : boundary K -> wf K -> pos_ok v K -> 0 <= off -> off + zlen buf < 2 ^ 64 ->
  ok K (call_prog v (CPoke off buf)) (post K (CPoke off buf)).
Proof.
  intros B W P Ho Hw. destruct P as [Pr Pt Pn Pf Pp]. assert (P : pos_ok v K) by done. pose proof (zlen_nonneg buf).
  cbn [call_prog]. apply ok_bind. unfold tegra_ivc_write_poke. rewrite Pf, u64_small by lia.
  destruct (Z.ltb_spec F off), (Z.ltb_spec F (off + zlen buf)); cbn [orb];
    try (cbn; apply post_idle; [by apply grow_refl|done|done|]; constructor; [constructor|unfold E2BIG; lia]).
  apply ok_bind. eapply ok_mono; [|by apply check_write_spec]. intros K1 r [G [(-> & [x E] & Hlt)|Hr]].
  2:{ destruct (Z.eqb_spec r 0); [lia|]. cbn. apply post_idle; [done..|]. by constructor; [constructor|]. }
  cbn [negb Z.eqb prog_bind IvcLogic.ok].
  assert (E1 : k_ph K1 = PEst x) by (by rewrite (gr_ph _ _ G)).
  pose proof (grow_pos _ _ _ G P) as P1. destruct (po_pos _ _ P1) as [?|[Epos _]]; [congruence|].
  pose proof (gr_out _ _ G) as Eo. rewrite <- Eo in Hlt. split; [done|]. split; [by exists x|]. split; [done|].
  split; [done|]. split; [lia|]. split; [lia|]. intros fr Hfr. rewrite s32_frame by lia.
  assert (W2 : wf (set_slot K1 (splice off buf fr))) by (apply wf_fill; [apply G|done|lia|lia]).
  eapply (post_moved _ _ _ _ _ _ _ _ E (grow_refl _ W2)); [done|apply G| |].
  - destruct P1 as [Q1 Q2 Q3 Q4 Q5]. by split.
  - cbn. rewrite Eo, (gr_nin _ _ G). constructor. by rewrite <- (gr_slot _ _ G).
Qed.

Lemma write_advance_spec v K : boundary K -> wf K -> pos_ok v K ->
  ok K (call_prog v CWriteAdvance) (post K CWriteAdvance).
Proof.
  intros B W P. destruct P as [Pr Pt Pn Pf Pp]. assert (P : pos_ok v K) by done.
  cbn [call_prog]. apply ok_bind. unfold tegra_ivc_write_advance.
  apply ok_bind. eapply ok_mono; [|by apply check_write_spec]. intros K1 r [G [(-> & [x E] & Hlt)|Hr]].
  2:{ destruct (Z.eqb_spec r 0); [lia|]. cbn. apply post_idle; [done..|]. by constructor; [constructor|]. }
  cbn [negb Z.eqb]. assert (E1 : k_ph K1 = PEst x) by (by rewrite (gr_ph _ _ G)).
  pose proof (grow_pos _ _ _ G P) as P1. rewrite <- (gr_out _ _ G) in Hlt.
  eapply publish_spec; [exact E1|apply G|exact P1|lia|]. intros K2 v2 fr Hs G2 P2. cbn.
  eapply (post_moved _ _ _ _ _ _ _ _ E G2); [done|apply G|done|]. cbn.
  rewrite (gr_out _ _ G), (gr_nin _ _ G). constructor. by rewrite <- (gr_slot _ _ G).
Qed.

(** ** Queries and the reset protocol *)

Lemma query_spec v K c : query c -> boundary K -> wf K -> pos_ok v K ->
  ok K (call_prog v c) (post K c).
Proof.
  intros Hq B W P. destruct P as [Pr Pt Pn Pf Pp]. assert (P : pos_ok v K) by done.
  assert (Hidle : forall K' r, grow K K' -> post K c K' (r, [], v)) by (intros; apply post_idle; [done..|by constructor]).
  destruct Hq; cbn [call_prog]; apply ok_bind.
  - unfold tegra_ivc_can_read. apply ok_bind. eapply ok_mono; [|by apply check_read_spec].
    intros K1 r [G _]. cbn. by apply Hidle.
  - unfold tegra_ivc_can_write. apply ok_bind. eapply ok_mono; [|by apply check_write_spec].
    intros K1 r [G _]. cbn. by apply Hidle.
  - unfold tegra_ivc_tx_empty, ivc_channel_empty. cbn [load prog_bind IvcLogic.ok]. rewrite Pt, load_ok_tx.
    destruct (k_ph K) as [x| | | | |] eqn:E;
      [|intros ?; cbn [prog_bind IvcLogic.ok]; rewrite load_ok_tx, E; intros ?; cbn [prog_bind IvcLogic.ok];
        apply Hidle; by apply grow_refl..].
    cbn [prog_bind IvcLogic.ok]. rewrite load_ok_tx, E. intros n Hn. cbn [prog_bind IvcLogic.ok].
    apply Hidle. by eapply grow_rlow.
Qed.

Lemma reset_spec v K : init = true -> k_ph K = PEst false -> wf K -> pos_ok v K ->
  ok K (call_prog v CReset) (post K CReset).
Proof.
  intros Hi E W [Pr Pt Pn Pf Pp]. cbn. rewrite Pt. unfold store_ok. rewrite Z.eqb_refl.
  exists (set_ph K PSync). split; [unfold moves; by rewrite Hi, E|].
  split; [split; try done; by left|]. split; [by destruct W|]. split; [done|]. split; [right; by left|].
  split; [constructor|done].
Qed.

Lemma wf_fresh ph : wf (fresh ph).
Proof. split; cbn; try (unfold zlen; cbn; lia). done. Qed.

Lemma fresh_pos v ph : rx_channel v = rx -> tx_channel v = tx -> nframes v = N -> frame_size v = F ->
  pos_ok (set_pos v 0 0) (fresh ph).
Proof. intros. split; try done. right. cbn. by rewrite Z.mod_0_l by lia. Qed.

(** The stores of [clear_counters] in a phase that allows them. *)
Lemma clear_spec {X} v K st ph1 ph2 K' (k : ivc -> prog X) Q :
  tx_channel v = tx -> rx_channel v = rx -> (forall x, k_ph K <> PEst x) ->
  clears (k_ph K) FW = Some ph1 -> (forall x, ph1 <> PEst x) -> clears ph1 FR = Some ph2 ->
  moves init (set_ph K ph2) st K' -> ok K' (k (set_pos v 0 0)) Q ->
  ok K (prog_bind (clear_counters v st) k) Q.
Proof.
  intros Et Er H1 C1 H2 C2 Hm HQ. unfold clear_counters. cbn [store notify prog_bind IvcLogic.ok]. rewrite Et, Er.
  unfold store_ok. rewrite Z.eqb_refl. destruct (Z.eqb_spec rx tx); [done|]. rewrite Z.eqb_refl.
  destruct (k_ph K) as [x| | | | |] eqn:E; [by destruct (H1 x)|..];
    (split; [done|]); exists ph1; (split; [done|]); cbn;
    (destruct ph1 as [x| | | | |]; [by destruct (H2 x)|..]); (split; [done|]); exists ph2; (split; [done|]);
    exists K'; done.
Qed.

(** [tegra_ivc_channel_notified] once the state [ps] of the peer is read. *)
Definition notified_tail (v : ivc) (ps : Z) : prog (Z * ivc) :=
  (do* v :=
     if ps =? ivc_state_sync then clear_counters v ivc_state_ack
     else
       do* state := load (tx_channel v) FS in
       if (state =? ivc_state_sync) && (ps =? ivc_state_ack)
       then clear_counters v ivc_state_established
       else
         do* state := load (tx_channel v) FS in
         if state =? ivc_state_ack then
           do* _ := store (tx_channel v) FS ivc_state_established in
           do* _ := notify in
           Ret v
         else Ret v in
   do* state := load (tx_channel v) FS in
   Ret (if state =? ivc_state_established then 0 else - EAGAIN, v))%ivc.

(** Nothing to do: the end is established, or waits for the peer. *)
Lemma tail_none v K ps (Q : know -> Z * ivc -> Prop) : tx_channel v = tx -> ps <> ivc_state_sync ->
  (state_of (k_ph K) = ivc_state_sync -> ps <> ivc_state_ack) -> state_of (k_ph K) <> ivc_state_ack ->
  Q K (if state_of (k_ph K) =? ivc_state_established then 0 else - EAGAIN, v) ->
  ok K (notified_tail v ps) Q.
Proof.
  intros Et H1 H2 H3 HQ. unfold notified_tail. destruct (Z.eqb_spec ps ivc_state_sync); [done|].
  cbn [load prog_bind IvcLogic.ok]. rewrite Et, load_ok_tx.
  replace ((state_of (k_ph K) =? ivc_state_sync) && (ps =? ivc_state_ack)) with false.
  2:{ symmetry. apply andb_false_iff. rewrite !Z.eqb_neq. destruct (Z.eq_dec (state_of (k_ph K)) ivc_state_sync); auto. }
  cbn [load prog_bind IvcLogic.ok]. rewrite load_ok_tx. destruct (Z.eqb_spec (state_of (k_ph K)) ivc_state_ack); [done|].
  cbn [load prog_bind IvcLogic.ok]. by rewrite Et, load_ok_tx.
Qed.

(** The peer asks for a reset. *)
Lemma tail_ack v K ph1 ph2 K' Q : tx_channel v = tx -> rx_channel v = rx -> (forall x, k_ph K <> PEst x) ->
  clears (k_ph K) FW = Some ph1 -> (forall x, ph1 <> PEst x) -> clears ph1 FR = Some ph2 ->
  moves init (set_ph K ph2) ivc_state_ack K' ->
  Q K' (if state_of (k_ph K') =? ivc_state_established then 0 else - EAGAIN, set_pos v 0 0) ->
  ok K (notified_tail v ivc_state_sync) Q.
Proof.
  intros Et Er H1 C1 H2 C2 Hm HQ. unfold notified_tail. rewrite Z.eqb_refl.
  eapply clear_spec; try done. cbn. by rewrite Et, load_ok_tx.
Qed.

(** The peer has acknowledged the reset. *)
Lemma tail_clear v K ph1 ph2 K' Q : tx_channel v = tx -> rx_channel v = rx -> (forall x, k_ph K <> PEst x) ->
  state_of (k_ph K) = ivc_state_sync ->
  clears (k_ph K) FW = Some ph1 -> (forall x, ph1 <> PEst x) -> clears ph1 FR = Some ph2 ->
  moves init (set_ph K ph2) ivc_state_established K' ->
  Q K' (if state_of (k_ph K') =? ivc_state_established then 0 else - EAGAIN, set_pos v 0 0) ->
  ok K (notified_tail v ivc_state_ack) Q.
Proof.
  intros Et Er H1 Es C1 H2 C2 Hm HQ. unfold notified_tail. change (ivc_state_ack =? ivc_state_sync) with false. cbv iota.
  apply ok_bind. cbn [load prog_bind IvcLogic.ok]. rewrite Et, load_ok_tx, Es, !Z.eqb_refl. cbn [andb].
  apply ok_mono with (Q := fun K v => ok K (do* state := load (tx_channel v) FS in
    Ret (if state =? ivc_state_established then 0 else - EAGAIN, v))%ivc Q); [done|].
  match goal with |- IvcLogic.ok _ _ _ _ _ _ ?p ?q =>
    cut (ok K (prog_bind p Ret) q); [|eapply clear_spec; try done; cbn; by rewrite Et, load_ok_tx] end.
  clear. unfold clear_counters. done.
Qed.

Lemma tail_est v K K' ps Q : tx_channel v = tx -> ps <> ivc_state_sync -> state_of (k_ph K) = ivc_state_ack ->
  moves init K ivc_state_established K' ->
  Q K' (if state_of (k_ph K') =? ivc_state_established then 0 else - EAGAIN, v) ->
  ok K (notified_tail v ps) Q.
Proof.
  intros Et H1 Es Hm HQ. unfold notified_tail. destruct (Z.eqb_spec ps ivc_state_sync); [done|].
  cbn [load prog_bind IvcLogic.ok]. rewrite Et, load_ok_tx, Es. cbn [andb Z.eqb load prog_bind IvcLogic.ok].
  change (ivc_state_ack =? ivc_state_sync) with false. cbn [andb load prog_bind IvcLogic.ok].
  rewrite load_ok_tx, Es, Z.eqb_refl. cbn [store notify prog_bind IvcLogic.ok]. unfold store_ok. rewrite Z.eqb_refl.
  exists K'. split; [done|]. cbn [load prog_bind IvcLogic.ok]. by rewrite Et, load_ok_tx.
Qed.

(** An end whose state does not change. *)
Lemma stay_spec v K ps r : boundary K -> wf K -> pos_ok v K -> ps <> ivc_state_sync ->
  (state_of (k_ph K) = ivc_state_sync -> ps <> ivc_state_ack) -> state_of (k_ph K) <> ivc_state_ack ->
  r = (if state_of (k_ph K) =? ivc_state_established then 0 else - EAGAIN) ->
  ok K (notified_tail v ps) (fun K' '(r, v) => post K CNotified K' (r, [], v)).
Proof.
  intros B W P H1 H2 H3 ->. apply tail_none; [apply P|done|done|done|].
  split; [done|]. split; [done|]. split; [done|]. split; [by left|]. split; [|done].
  unfold boundary in B. unfold hs_of. destruct (k_ph K); try done; [apply hs_est|apply hs_again].
Qed.

(** The traffic starts afresh. *)
Lemma post_fresh v K ph r : rx_channel v = rx -> tx_channel v = tx -> nframes v = N -> frame_size v = F ->
  boundary (fresh ph) -> inn_of K = [] \/ r <> 0 ->
  hstep F [] (hs_of K) CNotified r [] no_traffic -> k_ph K <> PEst false \/ init = false ->
  k_ph (fresh ph) <> PSync -> post K CNotified (fresh ph) (r, [], set_pos v 0 0).
Proof.
  intros Er Et En Ef B Hinn Hs Hne Hns. split; [by apply fresh_pos|]. split; [apply wf_fresh|]. split; [done|].
  assert (inn_of (fresh ph) = []) as -> by (unfold inn_of; by destruct (k_ph (fresh ph))).
  assert (hs_of (fresh ph) = no_traffic) as -> by (unfold hs_of; by destruct (k_ph (fresh ph))).
  split; [destruct Hinn as [-> |]; [by left|right; by right]|]. split; [done|]. intros Hi _ E. destruct Hne; congruence.
Qed.

Lemma notified_init v K ps ph : init = true -> boundary K -> wf K -> pos_ok v K -> sees true (k_ph K) ps ph ->
  ok (set_ph K ph) (notified_tail v ps) (fun K' '(r, v) => post K CNotified K' (r, [], v)).
Proof.
  intros Hi B W P Hsee. pose proof P as [Pr Pt Pn Pf Pp]. pose proof B as B'. unfold boundary in B'.
  assert (Hsame : set_ph K (k_ph K) = K) by (by destruct K).
  destruct (k_ph K) as [[]| | | | |] eqn:E; cbn in Hsee.
  - destruct Hsee as [[-> | -> ] ->]; rewrite Hsame; (eapply stay_spec; [done..| | | |reflexivity]); rewrite ?E; done.
  - destruct Hsee as [-> ->]. rewrite Hsame. (eapply stay_spec; [done..| | | |reflexivity]); rewrite ?E; done.
  - destruct Hsee as [[-> ->]|[-> ->]].
    + rewrite Hsame. (eapply stay_spec; [done..| | | |reflexivity]); rewrite ?E; done.
    + eapply tail_clear; try done.
      * unfold moves. rewrite Hi. cbn. done.
      * apply post_fresh; try done; [left; unfold inn_of; by rewrite E| |left; by rewrite E].
        unfold hs_of. rewrite E. apply hs_est.
  - done.
  - done.
  - destruct B'. congruence.
  - done.
Qed.

Lemma notified_resp v K ps ph : init = false -> boundary K -> wf K -> pos_ok v K -> sees false (k_ph K) ps ph ->
  ok (set_ph K ph) (notified_tail v ps) (fun K' '(r, v) => post K CNotified K' (r, [], v)).
Proof.
  intros Hi B W P Hsee. pose proof P as [Pr Pt Pn Pf Pp]. pose proof B as B'. unfold boundary in B'.
  assert (Hsame : set_ph K (k_ph K) = K) by (by destruct K).
  destruct (k_ph K) as [[]| | | | |] eqn:E; cbn in Hsee.
  - destruct Hsee as [-> ->]. rewrite Hsame. (eapply stay_spec; [done..| | | |reflexivity]); rewrite ?E; done.
  - destruct Hsee as [[-> ->]|[-> ->]].
    + rewrite Hsame. (eapply stay_spec; [done..| | | |reflexivity]); rewrite ?E; done.
    + eapply tail_ack; try done.
      * unfold moves. rewrite Hi. cbn. done.
      * apply post_fresh; try done; [by right|apply hs_again|by right].
  - congruence.
  - done.
  - done.
  - destruct B' as [_ ->]. destruct Hsee as [[-> ->]|[-> ->]].
    + eapply tail_ack; try done.
      * unfold moves. rewrite Hi. cbn. done.
      * apply post_fresh; try done; [by right|apply hs_again|by right].
    + eapply tail_est; [done|done|done|unfold moves; rewrite Hi; cbn; done|].
      cbn. split; [|split; [apply (wf_fresh (PEst true))|]].
      * destruct Pp as [?|[Pw Pr']]; [done|]. split; try done. right. done.
      * split; [done|]. split; [by left|]. split; [apply hs_est|]. congruence.
  - done.
Qed.

Lemma notified_spec v K : boundary K -> wf K -> pos_ok v K ->
  ok K (call_prog v CNotified) (post K CNotified).
Proof.
  intros B W P. cbn [call_prog]. apply ok_bind.
  change (tegra_ivc_channel_notified v) with (Load (rx_channel v) FS (notified_tail v)). cbn [IvcLogic.ok].
  rewrite (po_rx _ _ P), load_ok_rx. intros ps ph Hsee.
  assert (Hi : init = true \/ init = false) by (destruct init; auto).
  destruct Hi as [Hi|Hi]; rewrite Hi in Hsee.
  - eapply ok_mono; [|eapply (notified_init v K); eassumption]. by intros K' [r v'] H.
  - eapply ok_mono; [|eapply (notified_resp v K); eassumption]. by intros K' [r v'] H.
Qed.

Lemma call_spec v K c : boundary K -> wf K -> pos_ok v K -> call_ok K c ->
  ok K (call_prog v c) (post K c).
Proof.
  intros B W P Hc. destruct c; cbn [call_ok] in Hc.
  - by apply read_spec.
  - destruct Hc as (? & ? & ?). by apply peek_spec.
  - by apply read_advance_spec.
  - by apply write_spec.
  - destruct Hc as (? & ?). by apply poke_spec.
  - by apply write_advance_spec.
  - apply query_spec; try done. constructor.
  - apply query_spec; try done. constructor.
  - apply query_spec; try done. constructor.
  - destruct Hc. by apply reset_spec.
  - by apply notified_spec.
Qed.
End Calls.
