(* ===== verification/IvcSystem.v ===== *)
(** Two processors at work on a pair of channels: under every schedule of their
    accesses, no access goes astray and the results of the calls are those of two
    queues; and every call returns after a bounded number of its own steps. *)

From S2P Require Import Prelude Ivc IvcLogic IvcSteps IvcCalls.

(** ** The calls of an end *)

Definition is_reset (c : call) : bool := match c with CReset => true | _ => false end.

Definition resets (cs : list call) : nat := length (List.filter is_reset cs).

(** Sizes are of type [size_t], and sums of an offset and a size do not wrap. *)
Definition size_ok (c : call) : Prop :=
  match c with
  | CRead n => 0 <= n
  | CPeek off n => 0 <= off /\ 0 <= n /\ off + n < 2 ^ 64
  | CPoke off bs => 0 <= off /\ off + zlen bs < 2 ^ 64
  | _ => True
  end.

(** The thread that starts with the first of its calls. *)
Definition start (v : ivc) (c : call) (cs : list call) : thread := mkThread c (call_prog v c) cs [].

(** The calls of a thread, in the order in which it makes them. *)
Definition calls_of (t : thread) : list call := map fst (th_log t) ++ th_call t :: th_rest t.

Section Threads.
Context (N F : Z).
Hypothesis HN : 0 < N < 2 ^ 32.
Hypothesis HF : 0 <= F < 2 ^ 31.

Section End.
Context (init : bool) (tx rx : Z).
Hypothesis Htr : tx <> rx.

Definition budget : nat := if init then 1 else 0.

(** [K0] is what the end knew when the current call started. *)
Record thread_at (K0 K : know) (t : thread) : Prop := {
  ta_log : transcript F no_traffic (th_log t) (inn_of K0) (hs_of K0);
  ta_prog : ok N F init tx rx K (th_prog t) (post N F init tx rx K0 (th_call t));
  ta_sizes : Forall size_ok (th_rest t);
  ta_resets : (resets (th_call t :: th_rest t) <= budget)%nat;
  ta_first : (0 < resets (th_rest t))%nat -> k_ph K0 = PEst false;
  ta_never : init = true -> resets (calls_of t) = 0%nat -> k_ph K0 = PEst false
}.

Definition thread_ok (K : know) (t : thread) : Prop := exists K0, thread_at K0 K t.

Lemma resets_cons c cs : resets (c :: cs) = ((if is_reset c then 1 else 0) + resets cs)%nat.
Proof. unfold resets. cbn. by destruct (is_reset c). Qed.

Lemma resets_app cs cs' : resets (cs ++ cs') = (resets cs + resets cs')%nat.
Proof. unfold resets. by rewrite List.filter_app, length_app. Qed.

(** The current call is not a reset if no call is. *)
Lemma no_reset_call t : resets (calls_of t) = 0%nat -> th_call t <> CReset.
Proof. unfold calls_of. rewrite resets_app, resets_cons. intros H E. rewrite E in H. cbn [is_reset] in H. lia. Qed.

Lemma allowed K c cs : size_ok c -> (resets (c :: cs) <= budget)%nat ->
  ((0 < resets (c :: cs))%nat -> k_ph K = PEst false) -> call_ok init K c.
Proof.
  clear HN HF Htr. intros Hs Hr Hf. rewrite resets_cons in Hr, Hf. unfold budget in Hr. destruct c; try done. cbn in *.
  destruct init; [|lia]. split; [done|]. apply Hf. lia.
Qed.

(** A thread whose call has returned. *)
Lemma thread_returned K t r bs v : thread_ok K t -> th_prog t = Ret (r, bs, v) ->
  transcript F no_traffic (th_log t ++ [(th_call t, (r, bs))]) (inn_of K) (hs_of K) /\
  pos_ok N F tx rx v K /\ wf N F K /\ boundary init K /\
  (init = true -> resets (calls_of t) = 0%nat -> k_ph K = PEst false).
Proof.
  clear HN HF Htr. intros (K0 & [Hlog Hp _ _ _ Hne]) E. rewrite E in Hp. cbn in Hp.
  destruct Hp as (P & W & B & Hin & Hs & Hkeep). split; [by eapply ts_call|]. do 3 (split; [done|]).
  intros Hi H0. apply Hkeep; auto using no_reset_call.
Qed.

Lemma next_call K t r bs v c cs : thread_ok K t -> th_prog t = Ret (r, bs, v) -> th_rest t = c :: cs ->
  thread_ok K (mkThread c (call_prog v c) cs (th_log t ++ [(th_call t, (r, bs))])).
Proof.
  intros T E Er. destruct (thread_returned _ _ _ _ _ T E) as (Hlog & P & W & B & Hne).
  destruct T as (K0 & [_ Hp Hsz Hre Hfi _]). rewrite E in Hp. cbn in Hp. destruct Hp as (_ & _ & _ & _ & _ & Hkeep).
  rewrite Er in Hsz, Hre, Hfi. apply Forall_cons in Hsz as [Hc Hsz].
  assert (Hph : (0 < resets (c :: cs))%nat -> k_ph K = PEst false).
  { intros Hpos. rewrite resets_cons in Hre. unfold budget in Hre. destruct init; cbv iota in Hre; [|lia].
    apply Hkeep; [done| |by apply Hfi]. intros Ec. rewrite Ec in Hre. cbn [is_reset] in Hre. lia. }
  assert (Hre' : (resets (c :: cs) <= budget)%nat) by (rewrite resets_cons in Hre; lia).
  exists K. split; cbn [th_log th_prog th_rest th_call]; try done.
  - apply call_spec; try done. by eapply allowed.
  - intros Hpos. apply Hph. rewrite resets_cons. lia.
  - unfold calls_of in *. cbn [th_log th_call th_rest]. rewrite map_app, <- app_assoc. by rewrite Er in Hne.
Qed.

Lemma start_ok v c cs : pos_ok N F tx rx v (fresh (PEst false)) -> Forall size_ok (c :: cs) ->
  (resets (c :: cs) <= budget)%nat -> thread_ok (fresh (PEst false)) (start v c cs).
Proof.
  intros P Hsz Hre. apply Forall_cons in Hsz as [Hc Hsz]. exists (fresh (PEst false)).
  split; cbn [th_log th_prog th_rest th_call start]; try done; [constructor|].
  apply call_spec; try done; [by apply wf_fresh|]. by eapply allowed.
Qed.
End End.

(** ** The two ends *)

Section Pair.
Context (a b : Z).
Hypothesis Hab : a <> b.

(** End A transmits on [a] and is the one that may reset the channel. *)
Definition system_ok (s : system) : Prop :=
  exists KA KB, shared N F a b (sy_mem s) KA KB /\ thread_ok true a b KA (sy_a s) /\ thread_ok false b a KB (sy_b s).

Lemma thread_step_A m t KA KB : shared N F a b m KA KB -> thread_ok true a b KA t ->
  exists m' t' K, thread_step m t = Ok (m', t') /\ shared N F a b m' K KB /\ thread_ok true a b K t'.
Proof.
  intros S T. destruct (th_prog t) as [[[r bs] v]| | | | |] eqn:E.
  { unfold thread_step. rewrite E. destruct (th_rest t) as [|c cs] eqn:Er; [by eexists m, t, KA|].
    eexists m, _, KA. split; [reflexivity|]. split; [done|]. by apply next_call. }
  all: destruct T as (K0 & [Hlog Hp Hsz Hre Hfi Hne]);
    destruct (access_A N F HN HF a b Hab _ _ _ _ _ S Hp) as (m' & p' & n & K & Hstep & S' & Hok');
    exists m', (mkThread (th_call t) p' (th_rest t) (th_log t)), K;
    (split; [unfold thread_step; rewrite E in Hstep |- *; rewrite Hstep; reflexivity|]); (split; [done|]);
    exists K0; split; done.
Qed.

Lemma thread_step_B m t KA KB : shared N F a b m KA KB -> thread_ok false b a KB t ->
  exists m' t' K, thread_step m t = Ok (m', t') /\ shared N F a b m' KA K /\ thread_ok false b a K t'.
Proof.
  intros S T. destruct (th_prog t) as [[[r bs] v]| | | | |] eqn:E.
  { unfold thread_step. rewrite E. destruct (th_rest t) as [|c cs] eqn:Er; [by eexists m, t, KB|].
    eexists m, _, KB. split; [reflexivity|]. split; [done|]. by apply next_call. }
  all: destruct T as (K0 & [Hlog Hp Hsz Hre Hfi Hne]);
    destruct (access_B N F HN HF a b Hab _ _ _ _ _ S Hp) as (m' & p' & n & K & Hstep & S' & Hok');
    exists m', (mkThread (th_call t) p' (th_rest t) (th_log t)), K;
    (split; [unfold thread_step; rewrite E in Hstep |- *; rewrite Hstep; reflexivity|]); (split; [done|]);
    exists K0; split; done.
Qed.

Lemma system_step_ok s x : system_ok s -> exists s', system_step s x = Ok s' /\ system_ok s'.
Proof.
  intros (KA & KB & S & TA & TB). destruct x.
  - destruct (thread_step_A _ _ _ _ S TA) as (m & t & K & H & S' & T'). cbn. rewrite H. eexists. split; [reflexivity|].
    by exists K, KB.
  - destruct (thread_step_B _ _ _ _ S TB) as (m & t & K & H & S' & T'). cbn. rewrite H. eexists. split; [reflexivity|].
    by exists KA, K.
Qed.

Lemma schedule_ok xs s : system_ok s -> exists s', schedule s xs = Ok s' /\ system_ok s'.
Proof.
  revert s. induction xs as [|x xs IH]; intros s H; [by exists s|].
  destruct (system_step_ok s x H) as (s' & E & H'). cbn. rewrite E. by apply IH.
Qed.
End Pair.
End Threads.

(** ** Every call returns *)

(** The program returns after at most [n] accesses, whatever it loads. *)
Fixpoint within {A} (n : nat) (p : prog A) {struct p} : Prop :=
  match p, n with
  | Ret _, _ => True
  | Load _ _ k, S n => forall v, within n (k v)
  | LoadFrame _ _ _ _ k, S n => forall bs, within n (k bs)
  | (Store _ _ _ k | StoreFrame _ _ _ _ k | Notify k), S n => within n k
  | _, O => False
  end.

(** The longest call, a write, makes twelve; one more step starts the next. *)
Definition call_bound : nat := 12.

Lemma within_mono {A} n k (p : prog A) : within n p -> (n <= k)%nat -> within k p.
Proof.
  revert n k. induction p; intros [|n] [|k']; cbn; try done; try lia; intros; eauto with lia.
Qed.

Lemma within_bind {A B} n k (p : prog A) (q : A -> prog B) :
  within n p -> (forall x, within k (q x)) -> within (n + k) (prog_bind p q).
Proof.
  intros Hp Hq. revert n Hp. induction p; intros n Hp; [cbn; eapply within_mono; [apply Hq|lia]|..];
    destruct n; cbn in *; try done; auto.
Qed.

(** Runs through the branches of a routine. *)
Ltac branches :=
  cbn [within prog_bind load store notify];
  repeat first
    [ progress intros
    | match goal with |- context [if ?b then _ else _] => destruct b end;
      cbn [within prog_bind load store notify] ]; try exact I.

Lemma within_check_read v : within 5 (ivc_check_read v).
Proof. unfold ivc_check_read, ivc_channel_empty. branches. Qed.

Lemma within_check_write v : within 5 (ivc_check_write v).
Proof. unfold ivc_check_write, ivc_channel_full. branches. Qed.

Lemma within_advance_rx {A} v (k : ivc -> A) :
  within 5 (do* v := ivc_advance_rx v in do* _ := notify_rx v in Ret (k v))%ivc.
Proof. unfold ivc_advance_rx, notify_rx, ivc_channel_avail_count. branches. Qed.

Lemma within_advance_tx {A} v (k : ivc -> A) :
  within 5 (do* v := ivc_advance_tx v in do* _ := notify_tx v in Ret (k v))%ivc.
Proof. unfold ivc_advance_tx, notify_tx, ivc_channel_avail_count. branches. Qed.

Lemma within_notified v : within 7 (tegra_ivc_channel_notified v).
Proof. unfold tegra_ivc_channel_notified, clear_counters. branches. Qed.

Lemma within_if {A} n (b : bool) (p q : prog A) : within n p -> within n q -> within n (if b then p else q).
Proof. by destruct b. Qed.

(** A check, and what follows it if it succeeds. *)
Lemma within_checked {A B} k n (p : prog Z) (x : Z -> A) (q : prog A) (f : A -> prog B) :
  within 5 p -> within n q -> (forall a, within 0 (f a)) -> (5 + n <= k)%nat ->
  within k (prog_bind (do* r := p in if negb (r =? 0) then Ret (x r) else q)%ivc f).
Proof.
  intros Hp Hq Hf Hk. eapply within_mono; [eapply (within_bind (5 + n) 0); [|done]|lia].
  apply within_bind; [done|]. intros r. by apply within_if.
Qed.

Lemma within_plain {A B} k n (p : prog A) (f : A -> prog B) :
  within n p -> (forall a, within 0 (f a)) -> (n <= k)%nat -> within k (prog_bind p f).
Proof. intros Hp Hf Hk. eapply within_mono; [by eapply (within_bind n 0)|lia]. Qed.

Lemma prog_bind_ret {A} (p : prog A) n : within n (prog_bind p Ret) -> within n p.
Proof. revert n. induction p; intros [|n]; cbn; auto. Qed.

Lemma call_within v c : within call_bound (call_prog v c).
Proof.
  assert (Hf : forall x : Z * ivc, within 0 (let '(r, v) := x in Ret (r, @nil Z, v))) by (by intros []).
  unfold call_bound. destruct c; cbn [call_prog].
  - apply prog_bind_ret. unfold tegra_ivc_read. destruct (_ <? _); [exact I|].
    apply (within_checked _ 6); [apply within_check_read| |done|lia].
    apply (within_bind 1 5); [done|]. intros buf. apply within_advance_rx.
  - apply prog_bind_ret. unfold tegra_ivc_read_peek. destruct (_ || _); [done|].
    apply (within_checked _ 1); [apply within_check_read|done|done|lia].
  - apply (within_checked _ 5); [apply within_check_read|apply within_advance_rx|done|lia].
  - unfold tegra_ivc_write. destruct (_ <? _); [done|].
    apply (within_checked _ 7); [apply within_check_write| |done|lia]. cbn [within prog_bind].
    apply within_advance_tx.
  - unfold tegra_ivc_write_poke. destruct (_ || _); [done|].
    apply (within_checked _ 1); [apply within_check_write|done|done|lia].
  - apply (within_checked _ 5); [apply within_check_write|apply within_advance_tx|done|lia].
  - apply (within_plain _ 5); [|done|lia]. apply (within_plain _ 5); [apply within_check_read|done|lia].
  - apply (within_plain _ 5); [|done|lia]. apply (within_plain _ 5); [apply within_check_write|done|lia].
  - apply (within_plain _ 2); [done|done|lia].
  - done.
  - apply (within_plain _ 7); [apply within_notified|done|lia].
Qed.

Definition bounded (n : nat) (t : thread) : Prop :=
  exists k, within k (th_prog t) /\ (k + S call_bound * length (th_rest t) <= n)%nat.

Lemma pstep_within {A} m (p : prog A) m' p' b k : pstep m p = Ok (m', p', b) -> within (S k) p -> within k p'.
Proof.
  destruct p; cbn [pstep within]; repeat case_match; intros Hst W; try discriminate; injection Hst as <- <- <-; try done;
    apply W.
Qed.

Lemma within_ret {A} k (p : prog A) : within k p -> k = 0%nat -> exists x, p = Ret x.
Proof. intros H ->. destruct p; try done. by eexists. Qed.

Lemma thread_step_bounded m t m' t' n : thread_step m t = Ok (m', t') -> bounded n t -> bounded (pred n) t'.
Proof.
  intros H (k & W & Hk). unfold thread_step in H.
  assert (Hret : forall r bs v, th_prog t = Ret (r, bs, v) -> bounded (pred n) t').
  { intros r bs v E. rewrite E in H. destruct (th_rest t) as [|c cs] eqn:Er; injection H as <- <-.
    - exists 0%nat. rewrite E, Er. cbn. split; [done|lia].
    - exists call_bound. split; [apply call_within|]. cbn [th_rest length] in *. lia. }
  destruct (th_prog t) as [[[r bs] v]| | | | |] eqn:E; [by eapply Hret|..];
    (destruct k as [|k]; [by destruct (within_ret _ _ W eq_refl)|]);
    match type of H with res_bind ?x _ = _ => destruct x as [[[m1 p1] b1]|] eqn:Hp; [|discriminate] end;
    cbn in H; injection H as <- <-; exists k; (split; [by eapply pstep_within|cbn [th_rest]; lia]).
Qed.

Lemma thread_step_calls m t m' t' : thread_step m t = Ok (m', t') -> calls_of t' = calls_of t.
Proof.
  unfold thread_step, calls_of. intros H. destruct (th_prog t) as [[[r bs] v]| | | | |] eqn:E.
  1: destruct (th_rest t) as [|c cs] eqn:Er; injection H as <- <-; [by rewrite Er|].
  1: cbn [th_log th_call th_rest]; by rewrite map_app, <- app_assoc.
  all: match type of H with res_bind ?x _ = _ => destruct x as [[[m1 p1] b1]|] eqn:Hp; [|discriminate] end;
    cbn in H; by injection H as <- <-.
Qed.

Lemma bounded_done t : bounded 0 t -> th_rest t = [] /\ exists x, th_prog t = Ret x.
Proof.
  intros (k & W & Hk). destruct (th_rest t) as [|c cs]; cbn in Hk; [|lia]. split; [done|]. eapply within_ret; [done|lia].
Qed.

Definition at_side (s : system) (x : side) : thread := match x with SideA => sy_a s | SideB => sy_b s end.

Definition side_eqb (x y : side) : bool :=
  match x, y with SideA, SideA | SideB, SideB => true | _, _ => false end.

(** How often a schedule lets an end make a step. *)
Definition turns (x : side) (xs : list side) : nat := length (List.filter (side_eqb x) xs).

Lemma system_step_side s x s' y : system_step s x = Ok s' ->
  calls_of (at_side s' y) = calls_of (at_side s y) /\
  forall n, bounded n (at_side s y) -> bounded (if side_eqb y x then pred n else n) (at_side s' y).
Proof.
  intros H. destruct x; cbn in H;
    match type of H with res_bind ?x _ = _ => destruct x as [[m t]|] eqn:E; [|discriminate] end;
    cbn in H; injection H as <-; destruct y; cbn; (split; [|intros n]); try done;
    by first [eapply thread_step_calls|eapply thread_step_bounded].
Qed.

Lemma schedule_side xs s s' y : schedule s xs = Ok s' ->
  calls_of (at_side s' y) = calls_of (at_side s y) /\
  forall n, bounded n (at_side s y) -> bounded (n - turns y xs) (at_side s' y).
Proof.
  revert s. induction xs as [|x xs IH]; intros s H.
  - injection H as <-. split; [done|]. intros n. by rewrite Nat.sub_0_r.
  - cbn [schedule] in H. destruct (system_step s x) as [s1|] eqn:E; [|discriminate]. cbn in H.
    destruct (system_step_side _ _ _ y E) as [C B]. destruct (IH _ H) as [C' B']. split; [congruence|].
    intros n Hn. apply B, B' in Hn. replace (n - turns y (x :: xs))%nat with
      ((if side_eqb y x then pred n else n) - turns y xs)%nat; [done|]. unfold turns. cbn.
    destruct (side_eqb y x); cbn [length]; lia.
Qed.

Lemma start_bounded v c cs : bounded (S call_bound * length (c :: cs)) (start v c cs).
Proof. exists call_bound. split; [apply call_within|]. cbn [th_rest start length]. lia. Qed.
