(* ===== verification/IvcProps.v ===== *)
(** Properties of the inter-processor queues. *)

From S2P Require Import Prelude Ivc IvcLogic IvcSteps IvcCalls IvcSystem.

(** ** Two processors at once *)

Definition endpoint (rx tx N F : Z) : ivc := mkIvc rx tx 0 0 N F.

(** A channel without frames to read, as both ends find it at first. *)
Definition idle (N F : Z) (c : channel) : Prop :=
  ch_w c = 0 /\ ch_s c = ivc_state_established /\ ch_r c = 0 /\ shape N F c.

Definition two_ends (a b N F : Z) (m : shmem) (ca : call) (csA : list call) (cb : call) (csB : list call) : system :=
  mkSystem m (start (endpoint b a N F) ca csA) (start (endpoint a b N F) cb csB).

(** The calls that have returned, when the end is between calls. *)
Definition finished (t : thread) : option history :=
  match th_prog t with Ret (r, bs, _) => Some (th_log t ++ [(th_call t, (r, bs))]) | _ => None end.

Section Traffic.
Context (N F a b : Z) (m : shmem) (ca cb : call) (csA csB : list call) (cA cB : channel).
Hypothesis HN : 0 < N < 2 ^ 32.
Hypothesis HF : 0 <= F < 2 ^ 31.
Hypothesis Hab : a <> b.
Hypothesis HmA : m !! a = Some cA.
Hypothesis HmB : m !! b = Some cB.
Hypothesis HiA : idle N F cA.
Hypothesis HiB : idle N F cB.
Hypothesis HsA : Forall size_ok (ca :: csA).
Hypothesis HsB : Forall size_ok (cb :: csB).
Hypothesis HrA : (resets (ca :: csA) <= 1)%nat.
Hypothesis HrB : resets (cb :: csB) = 0%nat.

Lemma two_ends_ok : system_ok N F a b (two_ends a b N F m ca csA cb csB).
Proof.
  destruct HiA as (A1 & A2 & A3 & A4), HiB as (B1 & B2 & B3 & B4).
  exists (fresh (PEst false)), (fresh (PEst false)). split; [|split].
  - exists cA, cB. split; [done|]. split; [done|]. split; [done|]. split; [done|]. split; [done|]. split; [done|].
    unfold agree. cbn. split; by apply link_fresh.
  - apply start_ok; try done. split; try done. by right.
  - apply start_ok; try done; [split; try done; by right|by rewrite HrB].
Qed.

(** What has been sent and received when both ends are between calls. *)
Lemma quiet_traffic xs : exists s, schedule (two_ends a b N F m ca csA cb csB) xs = Ok s /\
  forall logA logB, finished (sy_a s) = Some logA -> finished (sy_b s) = Some logB ->
  (exists c, sy_mem s !! a = Some c /\ ch_s c = ivc_state_established) \/ resets (ca :: csA) = 0%nat ->
  exists outA slotA ninA outB slotB ninB,
    transcript F no_traffic logA outB (outA, slotA, ninA) /\
    transcript F no_traffic logB outA (outB, slotB, ninB) /\
    ninB <= zlen outA <= ninB + N /\ ninA <= zlen outB <= ninA + N.
Proof.
  destruct (schedule_ok N F HN HF a b Hab xs _ two_ends_ok) as (s & E & (KA & KB & S & TA & TB)).
  exists s. split; [done|]. intros logA logB FA FB Hest. unfold finished in FA, FB.
  destruct (th_prog (sy_a s)) as [[[rA bsA] vA]| | | | |] eqn:EA; try done. injection FA as <-.
  destruct (th_prog (sy_b s)) as [[[rB bsB] vB]| | | | |] eqn:EB; try done. injection FB as <-.
  destruct (thread_returned _ _ _ _ _ _ _ _ _ _ TA EA) as (LA & _ & _ & BA & NA).
  destruct (thread_returned _ _ _ _ _ _ _ _ _ _ TB EB) as (LB & _ & _ & BB & _).
  destruct (schedule_side _ _ _ SideA E) as [CA _]. cbn in CA. rewrite CA in NA.
  destruct S as (dA & dB & DA & DB & SA & SB & _ & _ & Ag).
  assert (Hph : exists x, k_ph KA = PEst x).
  { destruct Hest as [(c & Hc & Hs)|Hn]; [|exists false; by apply NA]. rewrite DA in Hc. injection Hc as <-.
    rewrite SA in Hs. unfold boundary in BA. destruct (k_ph KA) as [x| | | | |]; try done. by exists x. }
  destruct Hph as [x Hph]. destruct (agree_est_A _ _ _ _ _ _ Hph Ag) as [L1 L2].
  assert (HB : hs_of KB = (k_out KB, k_slot KB, k_nin KB) /\ inn_of KB = k_in KB).
  { unfold boundary in BB. unfold hs_of, inn_of. by destruct (k_ph KB). }
  destruct HB as [HB1 HB2]. destruct (est_state true _ _ Hph) as (HA1 & HA2 & _).
  rewrite HA1, HA2 in LA. rewrite HB1, HB2 in LB.
  exists (k_out KA), (k_slot KA), (k_nin KA), (k_out KB), (k_slot KB), (k_nin KB).
  pose proof (link_bounds _ _ _ _ L1). pose proof (link_bounds _ _ _ _ L2).
  split; [eapply transcript_more; [exact LA|apply L2]|]. split; [eapply transcript_more; [exact LB|apply L1]|]. lia.
Qed.
End Traffic.

(** ** Sending and receiving *)

(** Calls that send or receive a message, or ask for the state of a queue. *)
Definition plain (c : call) : Prop :=
  match c with CRead _ | CWrite _ | CCanRead | CCanWrite | CTxEmpty => True | _ => False end.

(** The frames of the writes that succeeded, in order. *)
Definition sent (F : Z) (log : history) : list (list Z) :=
  omap (fun '(c, (r, _)) =>
    match c with CWrite buf => if r <? 0 then None else Some (padded F buf) | _ => None end) log.

(** The sizes and results of the reads that succeeded. *)
Definition received (log : history) : list (Z * list Z) :=
  omap (fun '(c, (r, bs)) =>
    match c with CRead n => if r <? 0 then None else Some (n, bs) | _ => None end) log.

Lemma sent_snoc F log c r bs : sent F (log ++ [(c, (r, bs))]) = sent F log ++
  match c with CWrite buf => if r <? 0 then [] else [padded F buf] | _ => [] end.
Proof. unfold sent. rewrite omap_app. cbn. repeat case_match; simplify_eq; done. Qed.

Lemma received_snoc log c r bs : received (log ++ [(c, (r, bs))]) = received log ++
  match c with CRead n => if r <? 0 then [] else [(n, bs)] | _ => [] end.
Proof. unfold received. rewrite omap_app. cbn. repeat case_match; simplify_eq; done. Qed.

(** Every message received is a frame of the peer, in order. *)
Definition matches (inn : list (list Z)) (rs : list (Z * list Z)) : Prop :=
  forall i n bs, rs !! i = Some (n, bs) -> exists fr, inn !! i = Some fr /\ bs = slice 0 n fr.

Lemma matches_more inn inn' rs : matches inn rs -> inn `prefix_of` inn' -> matches inn' rs.
Proof. intros H Hp i n bs E. destruct (H _ _ _ E) as (fr & E' & Hb). exists fr. split; [by eapply prefix_lookup_Some|done]. Qed.

Lemma matches_snoc inn rs n fr : matches inn rs -> inn !! length rs = Some fr -> matches inn (rs ++ [(n, slice 0 n fr)]).
Proof.
  intros H Hfr i k bs E. destruct (lookup_app_Some rs [(n, slice 0 n fr)] i (k, bs)) as [D _].
  destruct (D E) as [E'|[Hge E']]; [by apply H in E'|]. apply list_lookup_singleton_Some in E' as [Hi [= <- <-]].
  exists fr. split; [|done]. replace i with (length rs) by lia. done.
Qed.

Lemma transcript_plain F log inn h : transcript F no_traffic log inn h ->
  Forall (fun c => plain c /\ size_ok c) (map fst log) ->
  h.1.1 = sent F log /\ h.2 = zlen (received log) /\ matches inn (received log).
Proof.
  induction 1 as [inn|log inn inn' h c r bs h' H IH Hin Hs]; intros Hp; [done|].
  rewrite map_app, Forall_app in Hp. destruct Hp as [Hp Hc]. destruct (IH Hp) as (E1 & E2 & M).
  apply Forall_cons in Hc as [[Hc Hsz] _]. cbn [fst] in Hc, Hsz.
  assert (M' : matches inn' (received log)).
  { eapply matches_more; [exact M|]. destruct Hin as [Hin|[Ec|[Ec _]]]; [done|subst c; done..]. }
  rewrite sent_snoc, received_snoc, zlen_app. clear H IH Hp M Hin.
  destruct Hs; try done; cbn [fst snd] in *; rewrite ?app_nil_r.
  - cbn in Hsz. destruct (Z.ltb_spec n 0); [lia|]. split; [done|]. split; [by rewrite E2|]. apply matches_snoc; [done|].
    rewrite <- H, E2. unfold zlen. by rewrite Nat2Z.id.
  - destruct (Z.ltb_spec (zlen buf) 0); [pose proof (zlen_nonneg buf); lia|].
    rewrite E1, E2. change (zlen (@nil (Z * list Z))) with 0. rewrite ?app_nil_r, Z.add_0_r. done.
  - destruct H; try done; destruct (Z.ltb_spec r 0); try lia;
      change (zlen (@nil (Z * list Z))) with 0; rewrite ?app_nil_r, Z.add_0_r; done.
  - destruct H; change (zlen (@nil (Z * list Z))) with 0; rewrite ?app_nil_r, Z.add_0_r; done.
Qed.

Lemma finished_calls s t log : finished t = Some log -> calls_of t = s -> exists rest, s = map fst log ++ rest.
Proof.
  unfold finished, calls_of. destruct (th_prog t) as [[[r bs] v]| | | | |]; try done. intros [= <-] <-.
  exists (th_rest t). rewrite map_app, <- app_assoc. done.
Qed.


(** C12: as long as the queues are not reset, every message that is read is the
    message written in the same place of the sequence, padded with zeros and cut
    to the size asked for: none is lost, duplicated, reordered or torn, whatever
    the interleaving, and no more than the capacity is under way. *)
Theorem ivc_delivery N F a b m ca csA cb csB cA cB xs :
  0 < N < 2 ^ 32 -> 0 <= F < 2 ^ 31 -> a <> b ->
  m !! a = Some cA -> m !! b = Some cB -> idle N F cA -> idle N F cB ->
  Forall (fun c => plain c /\ size_ok c) (ca :: csA) -> Forall (fun c => plain c /\ size_ok c) (cb :: csB) ->
  exists s, schedule (two_ends a b N F m ca csA cb csB) xs = Ok s /\
    forall logA logB, finished (sy_a s) = Some logA -> finished (sy_b s) = Some logB ->
      matches (sent F logA) (received logB) /\ matches (sent F logB) (received logA) /\
      0 <= zlen (sent F logA) - zlen (received logB) <= N /\
      0 <= zlen (sent F logB) - zlen (received logA) <= N.
Proof.
  intros HN HF Hab HmA HmB HiA HiB HpA HpB.
  assert (Hno : forall cs, Forall (fun c => plain c /\ size_ok c) cs -> resets cs = 0%nat /\ Forall size_ok cs).
  { clear. induction 1 as [|c cs [Hp Hs] _ [IH1 IH2]]; [done|]. rewrite resets_cons, IH1. split; [by destruct c|by constructor]. }
  destruct (Hno _ HpA) as [RA SA], (Hno _ HpB) as [RB SB].
  edestruct (quiet_traffic N F a b m ca cb csA csB cA cB) with (xs := xs) as (s & E & H'); try done; [lia|].
  exists s. split; [done|]. intros logA logB FA FB.
  destruct (H' logA logB FA FB (or_intror RA)) as (outA & slotA & ninA & outB & slotB & ninB & TA & TB & BA & BB).
  destruct (schedule_side _ _ _ SideA E) as [CA _], (schedule_side _ _ _ SideB E) as [CB _].
  destruct (finished_calls _ _ _ FA CA) as [restA EA], (finished_calls _ _ _ FB CB) as [restB EB]. cbn in EA, EB.
  rewrite EA, Forall_app in HpA. rewrite EB, Forall_app in HpB.
  destruct (transcript_plain _ _ _ _ TA (proj1 HpA)) as (A1 & A2 & A3).
  destruct (transcript_plain _ _ _ _ TB (proj1 HpB)) as (B1 & B2 & B3). cbn in A1, A2, B1, B2. subst.
  split; [done|]. split; [done|]. lia.
Qed.


(** ** A pair of queues with two frames of four bytes *)

Definition demo_chan : channel := mkChan 0 0 0 [[0; 0; 0; 0]; [0; 0; 0; 0]].
Definition demo_mem : shmem := {[ 4096 := demo_chan; 8192 := demo_chan ]}.

Lemma demo_idle : idle 2 4 demo_chan.
Proof. repeat split. repeat constructor. Qed.

(** Both ends in turn. *)
Definition alternate (n : nat) : list side := concat (replicate n [SideA; SideB]).

Definition demo_sys : system :=
  two_ends 4096 8192 2 4 demo_mem (CWrite [1; 2]) [CWrite [3]; CRead 4; CWrite [4]]
    (CRead 2) [CWrite [9]; CRead 4; CRead 4].

Example demo_run :
  (let* s := schedule demo_sys (alternate 52) in Ok (finished (sy_a s), finished (sy_b s))) =
  Ok (Some [(CWrite [1; 2], (2, [])); (CWrite [3], (1, [])); (CRead 4, (4, [9; 0; 0; 0])); (CWrite [4], (1, []))],
      Some [(CRead 2, (- ENOMEM, [])); (CWrite [9], (1, [])); (CRead 4, (4, [1; 2; 0; 0])); (CRead 4, (4, [3; 0; 0; 0]))]).
Proof. vm_compute. reflexivity. Qed.

Lemma ivc_delivery_witness : exists s, schedule demo_sys (alternate 52) = Ok s /\
  forall logA logB, finished (sy_a s) = Some logA -> finished (sy_b s) = Some logB ->
    matches (sent 4 logA) (received logB) /\ matches (sent 4 logB) (received logA) /\
    0 <= zlen (sent 4 logA) - zlen (received logB) <= 2 /\
    0 <= zlen (sent 4 logB) - zlen (received logA) <= 2.
Proof.
  apply (ivc_delivery 2 4 4096 8192 demo_mem _ _ _ _ demo_chan demo_chan (alternate 52)); try lia; try reflexivity;
    [exact demo_idle|exact demo_idle|repeat constructor; cbn; lia..].
Defined.


