(* ===== verification/IvcQueue.v ===== *)
(** The queues when the calls of the two ends follow each other: a channel is a
    bounded queue of frames, a reset brings it back from any state, and what the
    checks of sizes and addresses leave open. *)

From S2P Require Import Prelude Ivc IvcLogic IvcSteps IvcCalls IvcSystem IvcProps.

(** ** A channel as a queue *)

Lemma run_bind {A B} (p : prog A) (q : A -> prog B) m n :
  run (prog_bind p q) m n = let* (a, m, n) := run p m n in run (q a) m n.
Proof.
  revert m n. induction p; intros m n; cbn [prog_bind run res_bind]; try done; repeat case_match; auto.
Qed.

(** The frames [l] wait in channel [c] between the positions of the two ends. *)
Record holds (N F : Z) (c : channel) (wp rp : Z) (l : list (list Z)) : Prop := {
  hd_range : 0 <= ch_w c < 2 ^ 32 /\ 0 <= ch_r c < 2 ^ 32;
  hd_count : u32 (ch_w c - ch_r c) = zlen l;
  hd_cap : zlen l <= N;
  hd_rp : 0 <= rp < N;
  hd_wp : wp = (rp + zlen l) mod N;
  hd_shape : shape N F c;
  hd_frames : forall i, 0 <= i < zlen l -> ch_frames c !! Z.to_nat ((rp + i) mod N) = l !! Z.to_nat i
}.

Section Queue.
Context (N F : Z).
Hypothesis HN : 0 < N < 2 ^ 32.
Hypothesis HF : 0 <= F < 2 ^ 31.

Lemma u32_zero_diff w r : 0 <= w < 2 ^ 32 -> 0 <= r < 2 ^ 32 -> u32 (w - r) = 0 -> w = r.
Proof.
  intros Hw Hr H. unfold u32 in H. destruct (Z.lt_ge_cases w r) as [Hlt|Hge].
  - rewrite <- (Z.mod_add _ 1), Z.mod_small in H by lia. lia.
  - rewrite Z.mod_small in H by lia. lia.
Qed.

Lemma u32_succ_diff w r : u32 (u32 (w + 1) - r) = u32 (u32 (w - r) + 1).
Proof. unfold u32. rewrite Zminus_mod_idemp_l, Z.add_mod_idemp_l by lia. f_equal. lia. Qed.

Lemma u32_pred_diff w r : u32 (w - u32 (r + 1)) = u32 (u32 (w - r) - 1).
Proof. unfold u32. rewrite Zminus_mod_idemp_r, Zminus_mod_idemp_l. f_equal. lia. Qed.

Lemma holds_send c wp rp l buf s : holds N F c wp rp l -> zlen l < N -> zlen buf <= F ->
  holds N F (mkChan (u32 (ch_w c + 1)) s (ch_r c) (<[Z.to_nat wp := padded F buf]> (ch_frames c)))
    ((wp + 1) mod N) rp (l ++ [padded F buf]).
Proof.
  intros [H0 H1 H2 H3 H4 H5 H6] Hlt Hb. pose proof (zlen_nonneg l).
  assert (Hpad : zlen (padded F buf) = F).
  { unfold padded. rewrite zlen_app. unfold zlen at 2. rewrite length_replicate. lia. }
  assert (Hlen : length (ch_frames c) = Z.to_nat N) by (destruct H5 as [E _]; unfold zlen in E; lia).
  split; cbn [ch_w ch_r ch_frames]; rewrite ?zlen_app; change (zlen [padded F buf]) with 1; try lia.
  - split; [apply u32_range|apply H0].
  - rewrite u32_succ_diff, H1. apply u32_small. lia.
  - rewrite H4, Z.add_mod_idemp_l by lia. f_equal. lia.
  - destruct H5 as [E Hf]. split; cbn; [unfold zlen in *; by rewrite length_insert|]. apply Forall_insert; [done|lia].
  - intros i Hi. destruct (Z.eq_dec i (zlen l)) as [-> |Hne].
    + rewrite H4, list_lookup_insert_eq by (rewrite Hlen; apply mod_index; lia).
      unfold zlen. rewrite Nat2Z.id. by rewrite list_lookup_middle.
    + rewrite list_lookup_insert_ne, H6; [|lia|].
      * rewrite lookup_app_l; [done|]. unfold zlen in *. lia.
      * rewrite H4. apply not_eq_sym, mod_index_ne; [lia|lia|lia|]. apply slot_apart; lia.
Qed.

Lemma holds_receive c wp rp x l s : holds N F c wp rp (x :: l) ->
  ch_frames c !! Z.to_nat rp = Some x /\ zlen x = F /\
  holds N F (mkChan (ch_w c) s (u32 (ch_r c + 1)) (ch_frames c)) wp ((rp + 1) mod N) l.
Proof.
  intros [H0 H1 H2 H3 H4 H5 H6]. change (zlen (x :: l)) with (Z.of_nat (S (length l))) in *. rewrite Nat2Z.inj_succ in *.
  fold (zlen l) in *. pose proof (zlen_nonneg l).
  pose proof (H6 0 ltac:(lia)) as E0. rewrite Z.add_0_r, Z.mod_small in E0 by lia. cbn in E0. split; [done|].
  split; [destruct H5 as [_ Hf]; by eapply (proj1 (Forall_lookup _ _) Hf)|].
  split; cbn [ch_w ch_r ch_frames]; try lia.
  - split; [apply H0|apply u32_range].
  - rewrite u32_pred_diff, H1. rewrite u32_small; lia.
  - apply Z.mod_pos_bound. lia.
  - rewrite H4, Z.add_mod_idemp_l by lia. f_equal. lia.
  - done.
  - intros i Hi. rewrite Z.add_mod_idemp_l by lia. replace (rp + 1 + i) with (rp + (i + 1)) by lia.
    rewrite H6 by lia. replace (Z.to_nat (i + 1)) with (S (Z.to_nat i)) by lia. done.
Qed.

(** ** The calls of one end while the other is idle *)

Lemma run_load {A} ch f (q : Z -> prog A) m n c : m !! ch = Some c ->
  run (prog_bind (load ch f) q) m n = run (q (get_field c f)) m n.
Proof. intros H. cbn [load prog_bind run]. by rewrite H. Qed.

Lemma run_store {A} ch f v (q : unit -> prog A) m n c : m !! ch = Some c ->
  run (prog_bind (store ch f v) q) m n = run (q tt) (<[ch := set_field c f v]> m) n.
Proof. intros H. cbn [store prog_bind run]. by rewrite H. Qed.

(** Both counters of a channel. *)
Lemma run_counts {A} ch (q : Z -> Z -> prog A) m n c : m !! ch = Some c ->
  run (do* w := load ch FW in do* r := load ch FR in q w r)%ivc m n = run (q (ch_w c) (ch_r c)) m n.
Proof. intros H. by do 2 rewrite (run_load _ _ _ _ _ _ H). Qed.

Lemma run_full v m n c : m !! tx_channel v = Some c ->
  run (ivc_channel_full v (tx_channel v)) m n = Ok (nframes v <=? u32 (ch_w c - ch_r c), m, n).
Proof. intros H. apply (run_counts _ (fun w r => Ret _) _ _ _ H). Qed.

Lemma run_empty v m n c : m !! rx_channel v = Some c ->
  run (ivc_channel_empty v (rx_channel v)) m n =
  Ok (if nframes v <? u32 (ch_w c - ch_r c) then true else ch_w c =? ch_r c, m, n).
Proof. intros H. apply (run_counts _ (fun w r => Ret _) _ _ _ H). Qed.

Lemma run_check_write v m n c : m !! tx_channel v = Some c -> nframes v = N ->
  run (ivc_check_write v) m n =
  Ok (if ch_s c =? ivc_state_established then if u32 (ch_w c - ch_r c) <? N then 0 else - ENOMEM else - ECONNRESET, m, n).
Proof.
  intros Hm Hn. unfold ivc_check_write. rewrite (run_load _ _ _ _ _ _ Hm). cbn [get_field].
  destruct (ch_s c =? ivc_state_established); cbn [negb]; [|done].
  rewrite run_bind, (run_full _ _ _ _ Hm), Hn. cbn [res_bind]. rewrite Z.leb_antisym.
  destruct (u32 (ch_w c - ch_r c) <? N) eqn:E; cbn [negb]; [done|].
  rewrite run_bind, (run_full _ _ _ _ Hm), Hn. cbn [res_bind run]. by rewrite Z.leb_antisym, E.
Qed.

Lemma run_check_read v m n c d : m !! tx_channel v = Some d -> m !! rx_channel v = Some c -> nframes v = N ->
  u32 (ch_w c - ch_r c) <= N ->
  run (ivc_check_read v) m n =
  Ok (if ch_s d =? ivc_state_established then if ch_w c =? ch_r c then - ENOMEM else 0 else - ECONNRESET, m, n).
Proof.
  intros Hd Hm Hn Hle. unfold ivc_check_read. rewrite (run_load _ _ _ _ _ _ Hd). cbn [get_field].
  destruct (ch_s d =? ivc_state_established); cbn [negb]; [|done].
  assert (E : forall n, run (ivc_channel_empty v (rx_channel v)) m n = Ok (ch_w c =? ch_r c, m, n)).
  { intros k. rewrite (run_empty _ _ _ _ Hm), Hn. by destruct (Z.ltb_spec N (u32 (ch_w c - ch_r c))); [lia|]. }
  rewrite run_bind, E. cbn [res_bind]. destruct (ch_w c =? ch_r c) eqn:Ec; cbn [negb]; [|done].
  rewrite run_bind, E. done.
Qed.

Lemma run_advance_tx {X} v m n c len (k : ivc -> X) : m !! tx_channel v = Some c -> nframes v = N ->
  u32 (ch_w c - ch_r c) = len -> 0 <= len < N -> 0 <= w_pos v < N ->
  run (do* v := ivc_advance_tx v in do* _ := notify_tx v in Ret (k v))%ivc m n =
  Ok (k (set_pos v ((w_pos v + 1) mod N) (r_pos v)),
      <[tx_channel v := mkChan (u32 (ch_w c + 1)) (ch_s c) (ch_r c) (ch_frames c)]> m,
      if len =? 0 then S n else n).
Proof.
  intros Hm Hn H1 Hlen Hw. unfold ivc_advance_tx.
  rewrite run_bind, (run_load _ _ _ _ _ _ Hm), (run_store _ _ _ _ _ _ _ Hm). cbn [run res_bind get_field set_field].
  rewrite run_bind. unfold notify_tx, ivc_channel_avail_count. rewrite run_bind. cbn [set_pos tx_channel].
  rewrite (run_counts _ (fun w r => Ret _) _ _ _ (lookup_insert_eq _ _ _)). cbn [run res_bind ch_w ch_r].
  rewrite u32_succ_diff, H1, Hn.
  pose proof (next_pos N HN (w_pos v) ltac:(lia)) as Hp. rewrite (Z.mod_small (w_pos v)) in Hp by lia. rewrite Hp.
  rewrite (u32_small (len + 1)) by lia.
  replace (len + 1 =? 1) with (len =? 0) by (destruct (Z.eqb_spec len 0), (Z.eqb_spec (len + 1) 1); lia).
  by destruct (len =? 0).
Qed.

Lemma run_advance_rx {X} v m n c len (k : ivc -> X) : m !! rx_channel v = Some c -> nframes v = N ->
  u32 (ch_w c - ch_r c) = len -> 0 < len <= N -> 0 <= r_pos v < N ->
  run (do* v := ivc_advance_rx v in do* _ := notify_rx v in Ret (k v))%ivc m n =
  Ok (k (set_pos v (w_pos v) ((r_pos v + 1) mod N)),
      <[rx_channel v := mkChan (ch_w c) (ch_s c) (u32 (ch_r c + 1)) (ch_frames c)]> m,
      if len =? N then S n else n).
Proof.
  intros Hm Hn H1 Hlen Hr. unfold ivc_advance_rx.
  rewrite run_bind, (run_load _ _ _ _ _ _ Hm), (run_store _ _ _ _ _ _ _ Hm). cbn [run res_bind get_field set_field].
  rewrite run_bind. unfold notify_rx, ivc_channel_avail_count. rewrite run_bind. cbn [set_pos rx_channel].
  rewrite (run_counts _ (fun w r => Ret _) _ _ _ (lookup_insert_eq _ _ _)). cbn [run res_bind ch_w ch_r nframes].
  rewrite u32_pred_diff, H1, Hn.
  pose proof (next_pos N HN (r_pos v) ltac:(lia)) as Hp. rewrite (Z.mod_small (r_pos v)) in Hp by lia. rewrite Hp.
  cbn [set_pos nframes]. rewrite Hn, (u32_small (len - 1)), (u32_small (N - 1)) by lia. fold (set_pos v (w_pos v) ((r_pos v + 1) mod N)).
  replace (len - 1 =? N - 1) with (len =? N) by (destruct (Z.eqb_spec len N), (Z.eqb_spec (len - 1) (N - 1)); lia).
  by destruct (len =? N).
Qed.

Lemma run_write v m n c rp l buf : m !! tx_channel v = Some c -> ch_s c = ivc_state_established ->
  nframes v = N -> frame_size v = F -> holds N F c (w_pos v) rp l -> zlen l < N -> zlen buf <= F ->
  run (tegra_ivc_write v buf) m n =
  Ok (zlen buf, set_pos v ((w_pos v + 1) mod N) (r_pos v),
      <[tx_channel v := mkChan (u32 (ch_w c + 1)) (ch_s c) (ch_r c)
          (<[Z.to_nat (w_pos v) := padded F buf]> (ch_frames c))]> m,
      if zlen l =? 0 then S n else n).
Proof.
  intros Hm Hs Hn Hf H Hlt Hb. pose proof H as [H0 H1 H2 H3 H4 H5 H6]. pose proof (zlen_nonneg buf). pose proof (zlen_nonneg l).
  assert (Hw : 0 <= w_pos v < N) by (rewrite H4; apply Z.mod_pos_bound; lia).
  destruct (shape_lookup N F HN c (w_pos v) H5 ltac:(lia)) as (fr & Hfr & Hz). rewrite Z.mod_small in Hfr by lia.
  assert (Hrep : zlen (replicate (Z.to_nat (F - zlen buf)) 0) = F - zlen buf)
    by (unfold zlen at 1; rewrite length_replicate; lia).
  unfold tegra_ivc_write. rewrite Hf. destruct (Z.ltb_spec F (zlen buf)); [lia|].
  rewrite run_bind, (run_check_write _ _ _ _ Hm Hn), Hs, Z.eqb_refl, H1. destruct (Z.ltb_spec (zlen l) N); [|lia].
  cbn [res_bind Z.eqb negb prog_bind run]. rewrite Hm, Hfr, Hz.
  replace ((0 <=? w_pos v) && (0 <=? 0) && (0 + zlen buf <=? F)) with true
    by (symmetry; rewrite !andb_true_iff, !Z.leb_le; lia).
  rewrite lookup_insert_eq. cbn [ch_frames]. rewrite list_lookup_insert_eq by (by eapply lookup_lt_Some).
  rewrite splice_length, Hz, Hrep by lia.
  replace ((0 <=? w_pos v) && (0 <=? zlen buf) && (zlen buf + (F - zlen buf) <=? F)) with true
    by (symmetry; rewrite !andb_true_iff, !Z.leb_le; lia).
  assert (Epad : splice (zlen buf) (replicate (Z.to_nat (F - zlen buf)) 0) (splice 0 buf fr) = padded F buf).
  { rewrite <- (Z.add_0_l (zlen buf)) at 1. rewrite splice_app by lia. apply splice_whole.
    unfold padded. rewrite zlen_app. lia. }
  rewrite insert_insert_eq, list_insert_insert_eq, Epad. cbn [ch_w ch_s ch_r ch_frames].
  rewrite (run_advance_tx v _ n _ (zlen l) (fun v => (s32 (zlen buf), v)) (lookup_insert_eq _ _ _) Hn) by (cbn; lia).
  rewrite insert_insert_eq. rewrite (s32_frame F HF) by lia. cbn [ch_w ch_s ch_r ch_frames]. rewrite Hs. reflexivity.
Qed.

Lemma run_read v m n c d wp x l k : m !! tx_channel v = Some d -> ch_s d = ivc_state_established ->
  m !! rx_channel v = Some c -> nframes v = N -> frame_size v = F -> holds N F c wp (r_pos v) (x :: l) -> 0 <= k <= F ->
  run (tegra_ivc_read v k) m n =
  Ok (k, slice 0 k x, set_pos v (w_pos v) ((r_pos v + 1) mod N),
      <[rx_channel v := mkChan (ch_w c) (ch_s c) (u32 (ch_r c + 1)) (ch_frames c)]> m,
      if zlen (x :: l) =? N then S n else n).
Proof.
  intros Hd Hs Hm Hn Hf H Hk. pose proof H as [H0 H1 H2 H3 H4 H5 H6].
  destruct (holds_receive _ _ _ _ _ (ch_s c) H) as (Hfr & Hz & _).
  assert (Hpos : 0 < zlen (x :: l)) by (unfold zlen; cbn; lia).
  unfold tegra_ivc_read. rewrite Hf. destruct (Z.ltb_spec F k); [lia|].
  rewrite run_bind, (run_check_read _ _ _ _ _ Hd Hm Hn), Hs, Z.eqb_refl by lia.
  destruct (Z.eqb_spec (ch_w c) (ch_r c)) as [E|_]; [rewrite E, Z.sub_diag in H1; change (u32 0) with 0 in H1; lia|].
  cbn [res_bind Z.eqb negb prog_bind run]. rewrite Hm, Hfr, Hz.
  replace ((0 <=? r_pos v) && (0 <=? 0) && (0 + k <=? F)) with true
    by (symmetry; rewrite !andb_true_iff, !Z.leb_le; lia).
  rewrite (run_advance_rx v _ n _ _ (fun v => (s32 k, slice 0 k x, v)) Hm Hn H1) by lia.
  by rewrite (s32_frame F HF) by lia.
Qed.
End Queue.

(** ** Sequences of messages *)

Inductive qop := QSend (buf : list Z) | QRecv (n : Z).

Abbreviation outcome := (list (Z * list Z) * nat)%type.

(** One end sends, the other receives; results and notifications. *)
Fixpoint run_ops (va vb : ivc) (m : shmem) (k : nat) (ops : list qop) : res outcome :=
  match ops with
  | [] => Ok ([], k)
  | QSend buf :: ops =>
      let* (r, va, m, k) := run (tegra_ivc_write va buf) m k in
      let* (rs, k) := run_ops va vb m k ops in Ok ((r, []) :: rs, k)
  | QRecv n :: ops =>
      let* (r, bs, vb, m, k) := run (tegra_ivc_read vb n) m k in
      let* (rs, k) := run_ops va vb m k ops in Ok ((r, bs) :: rs, k)
  end.

(** A queue of at most [N] frames of size [F]: the specification. *)
Fixpoint queue_ops (N F : Z) (l : list (list Z)) (k : nat) (ops : list qop) : outcome :=
  match ops with
  | [] => ([], k)
  | QSend buf :: ops =>
      let '(r, l', k') :=
        if F <? zlen buf then (- E2BIG, l, k)
        else if zlen l <? N then (zlen buf, l ++ [padded F buf], if zlen l =? 0 then S k else k)
        else (- ENOMEM, l, k) in
      let '(rs, k') := queue_ops N F l' k' ops in ((r, []) :: rs, k')
  | QRecv n :: ops =>
      let '(r, bs, l', k') :=
        if F <? n then (- E2BIG, [], l, k)
        else match l with
             | x :: l' => (n, slice 0 n x, l', if zlen l =? N then S k else k)
             | [] => (- ENOMEM, [], l, k)
             end in
      let '(rs, k') := queue_ops N F l' k' ops in ((r, bs) :: rs, k')
  end.

Definition qop_ok (o : qop) : Prop := match o with QSend _ => True | QRecv n => 0 <= n end.

Section Refine.
Context (N F a b : Z).
Hypothesis HN : 0 < N < 2 ^ 32.
Hypothesis HF : 0 <= F < 2 ^ 31.
Hypothesis Hab : a <> b.

(** The sender's and the receiver's view of channel [a] that holds [l]. *)
Record ready (va vb : ivc) (m : shmem) (l : list (list Z)) : Prop := {
  rd_va : tx_channel va = a /\ nframes va = N /\ frame_size va = F;
  rd_vb : rx_channel vb = a /\ tx_channel vb = b /\ nframes vb = N /\ frame_size vb = F;
  rd_peer : exists d, m !! b = Some d /\ ch_s d = ivc_state_established;
  rd_chan : exists c, m !! a = Some c /\ ch_s c = ivc_state_established /\ holds N F c (w_pos va) (r_pos vb) l
}.

Lemma ready_set va vb m l va' vb' c l' : ready va vb m l ->
  tx_channel va' = tx_channel va -> nframes va' = nframes va -> frame_size va' = frame_size va ->
  rx_channel vb' = rx_channel vb -> tx_channel vb' = tx_channel vb -> nframes vb' = nframes vb ->
  frame_size vb' = frame_size vb -> ch_s c = ivc_state_established -> holds N F c (w_pos va') (r_pos vb') l' ->
  ready va' vb' (<[a := c]> m) l'.
Proof.
  intros [HA HB [d [Hd Sd]] _] A1 A2 A3 E1 E2 E3 E4 Hs H. split; [by rewrite A1, A2, A3| | |].
  - by rewrite E1, E2, E3, E4.
  - exists d. by rewrite lookup_insert_ne.
  - exists c. by rewrite lookup_insert_eq.
Qed.

Lemma send_refines va vb m l buf k : ready va vb m l -> exists r va' m' l' k',
  run (tegra_ivc_write va buf) m k = Ok (r, va', m', k') /\ ready va' vb m' l' /\
  (if F <? zlen buf then (- E2BIG, l, k)
   else if zlen l <? N then (zlen buf, l ++ [padded F buf], if zlen l =? 0 then S k else k)
   else (- ENOMEM, l, k)) = (r, l', k').
Proof.
  intros R. pose proof R as [(A1 & A2 & A3) _ _ (c & Hc & Hs & H)]. rewrite <- A1 in Hc.
  destruct (Z.ltb_spec F (zlen buf)) as [Hb|Hb].
  { unfold tegra_ivc_write. rewrite A3. destruct (Z.ltb_spec F (zlen buf)); [|lia]. by eexists _, _, _, _, _. }
  destruct (Z.ltb_spec (zlen l) N) as [Hl|Hl].
  - eexists _, _, _, _, _. split; [by eapply (run_write N F HN HF)|]. split; [|reflexivity]. rewrite A1.
    eapply ready_set; [exact R|done..|]. cbn. by apply holds_send.
  - eexists _, _, _, _, _. split; [|split; [exact R|reflexivity]]. unfold tegra_ivc_write. rewrite A3.
    destruct (Z.ltb_spec F (zlen buf)); [lia|]. rewrite run_bind, (run_check_write N _ _ _ _ Hc A2), Hs, Z.eqb_refl.
    rewrite (hd_count _ _ _ _ _ _ H). by destruct (Z.ltb_spec (zlen l) N); [lia|].
Qed.

Lemma receive_refines va vb m l n k : ready va vb m l -> 0 <= n -> exists r bs vb' m' l' k',
  run (tegra_ivc_read vb n) m k = Ok (r, bs, vb', m', k') /\ ready va vb' m' l' /\
  (if F <? n then (- E2BIG, [], l, k)
   else match l with
        | x :: l' => (n, slice 0 n x, l', if zlen l =? N then S k else k)
        | [] => (- ENOMEM, [], l, k)
        end) = (r, bs, l', k').
Proof.
  intros R Hn. pose proof R as [_ (B1 & B2 & B3 & B4) (d & Hd & Sd) (c & Hc & Hs & H)]. rewrite <- B1 in Hc. rewrite <- B2 in Hd.
  destruct (Z.ltb_spec F n) as [Hb|Hb].
  { unfold tegra_ivc_read. rewrite B4. destruct (Z.ltb_spec F n); [|lia]. by eexists _, _, _, _, _, _. }
  destruct l as [|x l].
  - eexists _, _, _, _, _, _. split; [|split; [exact R|reflexivity]]. unfold tegra_ivc_read. rewrite B4.
    destruct (Z.ltb_spec F n); [lia|]. pose proof (hd_count _ _ _ _ _ _ H) as H1. change (zlen []) with 0 in H1.
    rewrite run_bind, (run_check_read N _ _ _ _ _ Hd Hc B3), Sd, Z.eqb_refl by lia.
    replace (ch_w c =? ch_r c) with true; [done|]. symmetry. apply Z.eqb_eq.
    destruct (hd_range _ _ _ _ _ _ H) as [Rw Rr]. apply u32_zero_diff; lia.
  - eexists _, _, _, _, _, _. split; [by eapply (run_read N F HN HF)|]. split; [|reflexivity]. rewrite B1.
    eapply ready_set; [exact R|done..|]. cbn. by eapply holds_receive.
Qed.
End Refine.

(** While the calls of the two ends follow each other, a channel whose ends
    are connected is a queue: any sequence of writes of one end and reads of the
    other gives the results of a queue of [nframes] frames, refuses what is too
    long or does not fit, and notifies the peer when the queue stops being empty
    or full, whatever the counters (which wrap) and positions are. *)
Theorem ivc_refines_queue N F a b va vb m l k ops :
  0 < N < 2 ^ 32 -> 0 <= F < 2 ^ 31 -> a <> b -> ready N F a b va vb m l -> Forall qop_ok ops ->
  run_ops va vb m k ops = Ok (queue_ops N F l k ops).
Proof.
  intros HN HF Hab R Hops. revert va vb m l k R. induction Hops as [|o ops Ho _ IH]; intros va vb m l k R; [done|].
  destruct o as [buf|n]; cbn [run_ops queue_ops].
  - destruct (send_refines N F a b HN HF Hab _ _ _ _ buf k R) as (r & va' & m' & l' & k' & E & R' & Eq).
    rewrite E, Eq. cbn [res_bind]. rewrite (IH _ _ _ _ _ R'). by destruct (queue_ops N F l' k' ops).
  - destruct (receive_refines N F a b HN HF Hab _ _ _ _ n k R Ho) as (r & bs & vb' & m' & l' & k' & E & R' & Eq).
    rewrite E, Eq. cbn [res_bind]. rewrite (IH _ _ _ _ _ R'). by destruct (queue_ops N F l' k' ops).
Qed.

(** Counters about to wrap, one frame waiting. *)
Definition wrap_mem : shmem :=
  {[ 4096 := mkChan 0 0 (2 ^ 32 - 1) [[7; 7; 7; 7]; [5; 6; 0; 0]]; 8192 := demo_chan ]}.

Lemma wrap_ready : ready 2 4 4096 8192 (mkIvc 8192 4096 0 1 2 4) (mkIvc 4096 8192 0 1 2 4) wrap_mem [[5; 6; 0; 0]].
Proof.
  split; [done|done|by exists demo_chan|]. eexists. split; [reflexivity|]. split; [done|].
  split; try done; [repeat constructor|]. intros i Hi. change (zlen [[5; 6; 0; 0]]) with 1 in Hi.
  by assert (i = 0) as -> by lia.
Qed.

Lemma ivc_refines_queue_witness :
  run_ops (mkIvc 8192 4096 0 1 2 4) (mkIvc 4096 8192 0 1 2 4) wrap_mem 0
    [QSend [1]; QSend [2]; QRecv 4; QSend [1; 2; 3; 4; 5]; QRecv 2; QRecv 1] =
  Ok ([(1, []); (- ENOMEM, []); (4, [5; 6; 0; 0]); (- E2BIG, []); (2, [1; 0]); (- ENOMEM, [])], 1%nat).
Proof.
  etransitivity; [apply (ivc_refines_queue 2 4 4096 8192 _ _ _ [[5; 6; 0; 0]]); [lia|lia|lia|exact wrap_ready|]|].
  - repeat constructor; cbn; lia.
  - reflexivity.
Defined.
