(* ===== verification/IvcReset.v ===== *)
(** Resetting and setting up the queues, and what the checks there leave open. *)

From S2P Require Import Prelude Ivc IvcLogic IvcCalls IvcSystem IvcProps IvcQueue.

(** ** The reset protocol *)

Lemma run_clear v st m n c d : tx_channel v <> rx_channel v -> m !! tx_channel v = Some c -> m !! rx_channel v = Some d ->
  run (clear_counters v st) m n =
  Ok (set_pos v 0 0, <[tx_channel v := mkChan 0 st (ch_r c) (ch_frames c)]>
        (<[rx_channel v := mkChan (ch_w d) (ch_s d) 0 (ch_frames d)]> m), S n).
Proof.
  intros Hne Hc Hd. unfold clear_counters. rewrite (run_store _ _ _ _ _ _ _ Hc).
  rewrite (run_store _ _ _ _ _ _ d) by (by rewrite lookup_insert_ne).
  rewrite (run_store _ _ _ _ _ _ (set_field c FW 0)) by (by rewrite lookup_insert_ne, lookup_insert_eq).
  cbn [notify prog_bind run set_field ch_w ch_s ch_r ch_frames]. do 2 f_equal.
  rewrite (insert_insert_ne m) by done. by rewrite insert_insert_eq.
Qed.

(** What a notification does, by the states of the two ends. *)
Lemma run_notified v m n c d : tx_channel v <> rx_channel v -> m !! tx_channel v = Some c -> m !! rx_channel v = Some d ->
  run (tegra_ivc_channel_notified v) m n =
  if ch_s d =? ivc_state_sync then
    Ok (- EAGAIN, set_pos v 0 0, <[tx_channel v := mkChan 0 ivc_state_ack (ch_r c) (ch_frames c)]>
      (<[rx_channel v := mkChan (ch_w d) (ch_s d) 0 (ch_frames d)]> m), S n)
  else if (ch_s c =? ivc_state_sync) && (ch_s d =? ivc_state_ack) then
    Ok (0, set_pos v 0 0, <[tx_channel v := mkChan 0 ivc_state_established (ch_r c) (ch_frames c)]>
      (<[rx_channel v := mkChan (ch_w d) (ch_s d) 0 (ch_frames d)]> m), S n)
  else if ch_s c =? ivc_state_ack then
    Ok (0, v, <[tx_channel v := mkChan (ch_w c) ivc_state_established (ch_r c) (ch_frames c)]> m, S n)
  else Ok (if ch_s c =? ivc_state_established then 0 else - EAGAIN, v, m, n).
Proof.
  intros Hne Hc Hd. unfold tegra_ivc_channel_notified. rewrite (run_load _ _ _ _ _ _ Hd), run_bind. cbn [get_field].
  destruct (ch_s d =? ivc_state_sync).
  { rewrite (run_clear _ _ _ _ _ _ Hne Hc Hd). cbn [res_bind].
    by rewrite (run_load _ _ _ _ _ _ (lookup_insert_eq _ _ _)). }
  rewrite (run_load _ _ _ _ _ _ Hc). cbn [get_field]. destruct (_ && _).
  { rewrite (run_clear _ _ _ _ _ _ Hne Hc Hd). cbn [res_bind].
    by rewrite (run_load _ _ _ _ _ _ (lookup_insert_eq _ _ _)). }
  rewrite (run_load _ _ _ _ _ _ Hc). cbn [get_field]. destruct (ch_s c =? ivc_state_ack).
  - rewrite (run_store _ _ _ _ _ _ _ Hc). cbn [notify prog_bind run res_bind].
    by rewrite (run_load _ _ _ _ _ _ (lookup_insert_eq _ _ _)).
  - cbn [run res_bind]. by rewrite (run_load _ _ _ _ _ _ Hc).
Qed.

(** The results of the calls of both ends, one after the other. *)
Fixpoint run_calls (va vb : ivc) (m : shmem) (cs : list (side * call)) : res (list Z * ivc * ivc * shmem) :=
  match cs with
  | [] => Ok ([], va, vb, m)
  | (SideA, c) :: cs =>
      let* (r, _, va, m, _) := run (call_prog va c) m 0 in
      let* (rs, va, vb, m) := run_calls va vb m cs in Ok (r :: rs, va, vb, m)
  | (SideB, c) :: cs =>
      let* (r, _, vb, m, _) := run (call_prog vb c) m 0 in
      let* (rs, va, vb, m) := run_calls va vb m cs in Ok (r :: rs, va, vb, m)
  end.

(** A channel after a reset: only the frames are as before. *)
Definition cleared (c : channel) : channel := mkChan 0 ivc_state_established 0 (ch_frames c).

(** Both ends reset, and the channels of the pair. *)
Definition reset_result (va vb : ivc) (m : shmem) (a b : Z) (cA cB : channel) (rs : list Z) :
    res (list Z * ivc * ivc * shmem) :=
  Ok (rs, set_pos va 0 0, set_pos vb 0 0, <[b := cleared cB]> (<[a := cleared cA]> m)).

Section Pair.
Context (m : shmem) (a b : Z).
Hypothesis Hab : a <> b.

(** The memory with given contents of the two channels. *)
Definition pair_mem (c d : channel) : shmem := <[b := d]> (<[a := c]> m).

Lemma pair_a c d : pair_mem c d !! a = Some c.
Proof. unfold pair_mem. by rewrite lookup_insert_ne, lookup_insert_eq. Qed.

Lemma pair_b c d : pair_mem c d !! b = Some d.
Proof. apply lookup_insert_eq. Qed.

Lemma pair_set_a c d c' : <[a := c']> (pair_mem c d) = pair_mem c' d.
Proof. unfold pair_mem. rewrite insert_insert_ne by done. by rewrite insert_insert_eq. Qed.

Lemma pair_set_b c d d' : <[b := d']> (pair_mem c d) = pair_mem c d'.
Proof. apply insert_insert_eq. Qed.

Lemma pair_id cA cB : m !! a = Some cA -> m !! b = Some cB -> m = pair_mem cA cB.
Proof. intros HA HB. unfold pair_mem. rewrite (insert_id m a) by done. by rewrite insert_id. Qed.

(** The channel an end transmits on, the other one, and the end's positions after
    a notification. *)
Definition handle (c d : channel) (v : ivc) : Z * channel * channel * ivc :=
  if ch_s d =? ivc_state_sync then
    (- EAGAIN, mkChan 0 ivc_state_ack (ch_r c) (ch_frames c), mkChan (ch_w d) (ch_s d) 0 (ch_frames d), set_pos v 0 0)
  else if (ch_s c =? ivc_state_sync) && (ch_s d =? ivc_state_ack) then
    (0, mkChan 0 ivc_state_established (ch_r c) (ch_frames c), mkChan (ch_w d) (ch_s d) 0 (ch_frames d), set_pos v 0 0)
  else if ch_s c =? ivc_state_ack then
    (0, mkChan (ch_w c) ivc_state_established (ch_r c) (ch_frames c), d, v)
  else (if ch_s c =? ivc_state_established then 0 else - EAGAIN, c, d, v).

Lemma notified_A va vb c d cs : tx_channel va = a -> rx_channel va = b ->
  run_calls va vb (pair_mem c d) ((SideA, CNotified) :: cs) =
  let '(x, c', d', v') := handle c d va in
  let* (rs, va, vb, m) := run_calls v' vb (pair_mem c' d') cs in Ok (x :: rs, va, vb, m).
Proof.
  intros Et Er. cbn [run_calls call_prog]. rewrite run_bind.
  rewrite (run_notified _ _ _ c d); rewrite ?Et, ?Er, ?pair_a, ?pair_b; try done.
  unfold handle. repeat case_match; cbn [res_bind run]; simplify_eq; rewrite ?pair_set_b, ?pair_set_a; done.
Qed.

Lemma notified_B va vb c d cs : tx_channel vb = b -> rx_channel vb = a ->
  run_calls va vb (pair_mem c d) ((SideB, CNotified) :: cs) =
  let '(x, d', c', v') := handle d c vb in
  let* (rs, va, vb, m) := run_calls va v' (pair_mem c' d') cs in Ok (x :: rs, va, vb, m).
Proof.
  intros Et Er. cbn [run_calls call_prog]. rewrite run_bind.
  rewrite (run_notified _ _ _ d c); rewrite ?Et, ?Er, ?pair_a, ?pair_b; try done.
  unfold handle. repeat case_match; cbn [res_bind run]; simplify_eq; rewrite ?pair_set_a, ?pair_set_b; done.
Qed.

Lemma reset_A va vb c d cs : tx_channel va = a -> run_calls va vb (pair_mem c d) ((SideA, CReset) :: cs) =
  let* (rs, va, vb, m) := run_calls va vb (pair_mem (set_field c FS ivc_state_sync) d) cs in Ok (0 :: rs, va, vb, m).
Proof. intros Et. cbn. by rewrite Et, pair_a, pair_set_a. Qed.

Lemma reset_B va vb c d cs : tx_channel vb = b -> run_calls va vb (pair_mem c d) ((SideB, CReset) :: cs) =
  let* (rs, va, vb, m) := run_calls va vb (pair_mem c (set_field d FS ivc_state_sync)) cs in Ok (0 :: rs, va, vb, m).
Proof. intros Et. cbn. by rewrite Et, pair_b, pair_set_b. Qed.
End Pair.

(** Decides the branch of [handle]. *)
Ltac handled :=
  cbv beta iota zeta delta [handle set_field ch_w ch_s ch_r ch_frames ivc_state_sync ivc_state_ack
    ivc_state_established Z.eqb Pos.eqb andb].

(** C18: A reset brings both ends back to empty queues from any state of the
    counters, positions and state words: when one end asks for it, after three
    notifications handled in turn; and also when both ends ask for it. *)
Theorem ivc_reset_recovers va vb m a b cA cB :
  a <> b -> tx_channel va = a -> rx_channel va = b -> tx_channel vb = b -> rx_channel vb = a ->
  m !! a = Some cA -> m !! b = Some cB ->
  run_calls va vb m [(SideA, CReset); (SideB, CNotified); (SideA, CNotified); (SideB, CNotified)] =
    reset_result va vb m a b cA cB [0; - EAGAIN; 0; 0] /\
  run_calls va vb m [(SideA, CReset); (SideB, CReset); (SideB, CNotified); (SideA, CNotified); (SideB, CNotified)] =
    reset_result va vb m a b cA cB [0; 0; - EAGAIN; 0; 0].
Proof.
  intros Hab T1 R1 T2 R2 HA HB. unfold reset_result. rewrite (pair_id m a b cA cB HA HB) at 1 3.
  split.
  - rewrite reset_A, notified_B by done. handled. rewrite notified_A by done. handled.
    rewrite notified_B by done. handled. reflexivity.
  - rewrite reset_A, reset_B, notified_B by done. handled. rewrite notified_A by done. handled.
    rewrite notified_B by done. handled. reflexivity.
Qed.

(** Arbitrary counters, positions and states. *)
Lemma ivc_reset_recovers_witness :
  let m := {[ 4096 := mkChan 17 2 (2 ^ 32 - 1) [[1]]; 8192 := mkChan 3 99 5 [[2]] ]} in
  let va := mkIvc 8192 4096 5 6 1 1 in let vb := mkIvc 4096 8192 7 8 1 1 in
  run_calls va vb m [(SideA, CReset); (SideB, CNotified); (SideA, CNotified); (SideB, CNotified)] =
    reset_result va vb m 4096 8192 (mkChan 17 2 (2 ^ 32 - 1) [[1]]) (mkChan 3 99 5 [[2]]) [0; - EAGAIN; 0; 0].
Proof.
  intros m va vb.
  apply (ivc_reset_recovers va vb m 4096 8192 (mkChan 17 2 (2 ^ 32 - 1) [[1]]) (mkChan 3 99 5 [[2]])); done.
Defined.

(** ** A second reset *)

Definition turns_of (x : side) (n : nat) : list side := replicate n x.

(** B, which has acknowledged the first reset, sees A connected; before B connects
    as well, A resets the channel again, finds B's old acknowledgement and
    connects. *)
Definition race : list side :=
  turns_of SideA 3 ++ turns_of SideB 7 ++ turns_of SideA 19 ++ turns_of SideB 1 ++ turns_of SideA 4 ++
  turns_of SideB 15 ++ turns_of SideA 27 ++ turns_of SideB 20.

(** The protocol relies on a single reset: in one interleaving of a second one
    with the connection of the peer, both ends end up connected, with all calls
    returned, but the counters of the channel contradict each other for good: B
    has taken a frame that A no longer counts, so that for A the channel is full
    and for B it is empty. *)
Theorem ivc_second_reset_disagrees : exists s cA cB logB,
  schedule (two_ends 4096 8192 2 4 demo_mem
    CReset [CNotified; CWrite [7; 7]; CReset; CNotified; CWrite [1]; CCanWrite]
    CNotified [CNotified; CRead 4; CCanRead]) race = Ok s /\
  sy_mem s !! 4096 = Some cA /\ sy_mem s !! 8192 = Some cB /\
  ch_s cA = ivc_state_established /\ ch_s cB = ivc_state_established /\
  ch_w cA = 0 /\ ch_r cA = 1 /\
  finished (sy_a s) = Some [(CReset, (0, [])); (CNotified, (0, [])); (CWrite [7; 7], (2, [])); (CReset, (0, []));
    (CNotified, (0, [])); (CWrite [1], (- ENOMEM, [])); (CCanWrite, (0, []))] /\
  finished (sy_b s) = Some (logB ++ [(CRead 4, (4, [7; 7; 0; 0])); (CCanRead, (0, []))]).
Proof.
  eexists _, _, _, [(CNotified, (- EAGAIN, [])); (CNotified, (0, []))]. split; [vm_compute; reflexivity|].
  repeat (split; [vm_compute; reflexivity|]). vm_compute. reflexivity.
Qed.

(** ** Checks of sizes and addresses *)

(** The sum of offset and size in the check of [tegra_ivc_read_peek] wraps: with
    a frame waiting, a size of 2^64 - off passes it and the copy leaves the frame. *)
Theorem ivc_peek_wraps N F a b va vb m x l off k :
  0 < N < 2 ^ 32 -> 0 <= F < 2 ^ 31 -> ready N F a b va vb m (x :: l) -> 0 < off <= F ->
  run (tegra_ivc_read_peek vb off (2 ^ 64 - off)) m k = Stuck OutOfBounds.
Proof.
  intros HN HF [_ (B1 & B2 & B3 & B4) (d & Hd & Sd) (c & Hc & Hs & H)] Hoff. rewrite <- B1 in Hc. rewrite <- B2 in Hd.
  pose proof H as [H0 H1 H2 H3 H4 H5 H6]. destruct (holds_receive N F HN _ _ _ _ _ (ch_s c) H) as (Hfr & Hz & _).
  assert (Hpos : 0 < zlen (x :: l)) by (unfold zlen; cbn; lia).
  unfold tegra_ivc_read_peek. rewrite B4. replace (off + (2 ^ 64 - off)) with (2 ^ 64) by lia.
  change (u64 (2 ^ 64)) with 0. destruct (Z.ltb_spec F off), (Z.ltb_spec F 0); try lia. cbn [orb].
  rewrite run_bind, (run_check_read N _ _ _ _ _ Hd Hc B3), Sd, Z.eqb_refl by lia.
  destruct (Z.eqb_spec (ch_w c) (ch_r c)) as [E|_]; [rewrite E, Z.sub_diag in H1; change (u32 0) with 0 in H1; lia|].
  cbn [res_bind Z.eqb negb prog_bind run]. rewrite Hc, Hfr, Hz.
  destruct (Z.leb_spec (off + (2 ^ 64 - off)) F); [lia|]. by rewrite andb_false_r.
Qed.

Lemma ivc_peek_wraps_witness :
  run (tegra_ivc_read_peek (mkIvc 4096 8192 0 1 2 4) 4 (2 ^ 64 - 4)) wrap_mem 0 = Stuck OutOfBounds.
Proof.
  apply (ivc_peek_wraps 2 4 4096 8192 (mkIvc 8192 4096 0 1 2 4) _ _ [5; 6; 0; 0] []); [lia|lia|exact wrap_ready|lia].
Defined.

Lemma land63 x : Z.land x (IVC_ALIGN - 1) = x mod 64.
Proof. change (IVC_ALIGN - 1) with (Z.ones 6). by rewrite Z.land_ones. Qed.

(** An endpoint is set up only for aligned channels and frames of a size that
    fits, whose frame areas would not overlap if they started at the channels. *)
Theorem ivc_init_checks v rx tx n f v' :
  0 <= n < 2 ^ 32 -> 0 <= f < 2 ^ 32 -> 0 <= rx < 2 ^ 63 -> 0 <= tx < 2 ^ 63 ->
  tegra_ivc_init v rx tx n f = (0, v') ->
  v' = mkIvc rx tx 0 0 n f /\ n * f < 2 ^ 32 /\ f <= 2 ^ 31 /\ n * f <= Z.abs (rx - tx) /\
  rx mod IVC_ALIGN = 0 /\ tx mod IVC_ALIGN = 0 /\ f mod IVC_ALIGN = 0.
Proof.
  intros Hn Hf Hr Ht. unfold tegra_ivc_init, check_ivc_params. assert (Hnf : 0 <= n * f < 2 ^ 64) by nia.
  rewrite !land63, (u64_small (n * f)) by lia.
  destruct (Z.leb_spec 0x100000000 (n * f)); [done|].
  destruct (Z.eqb_spec (rx mod 64) 0); [cbn [negb]|done]. destruct (Z.eqb_spec (tx mod 64) 0); [cbn [negb]|done].
  destruct (Z.eqb_spec (f mod 64) 0); [cbn [negb]|done]. destruct (queues_overlap rx tx n f) eqn:Q; [done|].
  cbn [Z.eqb negb]. destruct (Z.ltb_spec (2 ^ 31) f); [done|]. intros [= <-].
  unfold queues_overlap in Q. rewrite (u32_small (f * n)) in Q by lia. rewrite !u64_small in Q by lia.
  destruct (Z.ltb_spec rx tx); apply Z.ltb_ge in Q; unfold IVC_ALIGN; repeat split; try lia.
Qed.

Lemma ivc_init_checks_witness :
  128 * 64 < 2 ^ 32 /\ 128 * 64 <= Z.abs (0x10000 - 0x20000).
Proof.
  destruct (ivc_init_checks (mkIvc 0 0 0 0 0 0) 0x10000 0x20000 128 64 (mkIvc 0x10000 0x20000 0 0 128 64))
    as (_ & H1 & _ & H2 & _); [lia|lia|lia|lia|reflexivity|]. split; assumption.
Defined.

(** The check leaves out the headers: two channels of one frame each are
    accepted although the second starts inside the first, whose size is that of
    [tegra_ivc_total_queue_size]. *)
Theorem ivc_init_overlap v :
  exists rx tx, tegra_ivc_init v rx tx 1 64 = (0, mkIvc rx tx 0 0 1 64) /\
    rx < tx < rx + tegra_ivc_total_queue_size 64 /\ tx < ivc_frame_pointer (mkIvc rx tx 0 0 1 64) rx 0.
Proof. exists 0x1000, 0x1040. vm_compute. repeat split. Qed.
