(* ===== verification/Bpmp.v ===== *)
(** Requests to the power management processor
    (lib/ipc/tegrabl_bpmp_fw_interface.c): the client of the queues of Ivc.v.

    A request is written into the frame of one channel and the answer read from
    the other.  There is a single channel pair; the table of callbacks is set once
    by [tegrabl_ipc_init], so that they are called directly here, and the pointers
    to the current frames, which the source keeps in [s_channels] between two
    callbacks, are passed on.  Delays and messages on the console are left out. *)

From S2P Require Import Prelude TegraError Ivc.

#[local] Open Scope ivc_scope.

Definition NO_OF_CHANNELS : Z := 1.
Definition MSG_SZ : Z := 256.
Definition IPC_CPU_MASTER_PHYS_BASE : Z := 0x4004e000.
Definition IPC_CPU_MASTER_SIZE : Z := 4 * 1024.
Definition IPC_CPU_SLAVE_PHYS_BASE : Z := 0x4004f000.

Definition FLAG_DO_ACK : Z := 1.
Definition TIMEOUT_RESPONSE_FROM_BPMP : Z := 1000000.

(** [offsetof(struct frame_data, flags)] and [offsetof(struct frame_data, data)]. *)
Definition offset_flags : Z := 4.
Definition offset_data : Z := 8.

(** A frame, or [NULL]. *)
Definition tegrabl_ccplex_bpmp_getnext_outframe (v : ivc) : prog (option (Z * Z)) :=
  tegra_ivc_write_get_next_frame v.

(** "tegra_ivc_write_advance", its result ignored. *)
Definition tegrabl_ccpelx_bpmp_signal_slave (v : ivc) : prog ivc :=
  do* (_, v) := tegra_ivc_write_advance v in Ret v.

Definition tegrabl_ccplex_bpmp_free_master (v : ivc) : prog (Z * ivc) :=
  do* (e, v) := tegra_ivc_read_advance v in
  Ret (if negb (u32 e =? 0) then TEGRABL_ERR_INVALID_STATE else TEGRABL_NO_ERROR, v).

Definition tegrabl_ccplex_bpmp_slave_acked (v : ivc) : prog (Z * option (Z * Z)) :=
  do* ib := tegra_ivc_read_get_next_frame v in
  Ret (match ib with None => TEGRABL_ERR_INVALID_STATE | Some _ => TEGRABL_NO_ERROR end, ib).

(** The loop runs its body at least once; [timeout] is one less than the counter. *)
Fixpoint wait_loop (v : ivc) (timeout : nat) : prog (Z * option (Z * Z)) :=
  do* (e, ib) := tegrabl_ccplex_bpmp_slave_acked v in
  if e =? TEGRABL_NO_ERROR then Ret (TEGRABL_NO_ERROR, ib)
  else match timeout with
       | O => Ret (TEGRABL_ERR_TIMEOUT, ib)
       | S timeout => wait_loop v timeout
       end.

Definition tegrabl_ccplex_bpmp_wait_for_slave_ack (v : ivc) : prog (Z * option (Z * Z)) :=
  wait_loop v (Z.to_nat (TIMEOUT_RESPONSE_FROM_BPMP - 1)).

(** The call once the request is in its frame. *)
Definition xfer_finish (wait : ivc -> prog (Z * option (Z * Z))) (v : ivc) (size_in : Z) (p_in : bool) :
    prog (Z * list Z * ivc) :=
  do* v := tegrabl_ccpelx_bpmp_signal_slave v in
  do* (e, ib) := wait v in
  if negb (e =? TEGRABL_NO_ERROR) then Ret (TEGRABL_ERR_INVALID, [], v)
  else
    match ib with
    | None => Ret (TEGRABL_ERR_INVALID, [], v)
    | Some (ch, frame) =>
        do* buf :=
          if negb (size_in =? 0) && p_in then LoadFrame ch frame offset_data size_in Ret else Ret [] in
        do* (e, v) := tegrabl_ccplex_bpmp_free_master v in
        if negb (e =? TEGRABL_NO_ERROR) then Ret (TEGRABL_ERR_INVALID, buf, v)
        else Ret (TEGRABL_NO_ERROR, buf, v)
    end.

(** [p_out] is the buffer with [size_out] bytes, or [NULL]; [p_in] whether there is
    a buffer for the answer.  The error, the bytes stored there, the endpoint. *)
Definition bpmp_xfer (wait : ivc -> prog (Z * option (Z * Z))) (v : ivc) (p_out : option (list Z)) (p_in : bool)
    (size_in mrq : Z) : prog (Z * list Z * ivc) :=
  match p_out with
  | None => Ret (u32 (-1), [], v)
  | Some out =>
      do* p := tegrabl_ccplex_bpmp_getnext_outframe v in
      match p with
      | None => Ret (TEGRABL_ERR_INVALID, [], v)
      | Some (ch, frame) =>
          do* _ := StoreFrame ch frame 0 (le_bytes 4 mrq) (Ret tt) in
          do* _ := StoreFrame ch frame offset_flags (le_bytes 4 FLAG_DO_ACK) (Ret tt) in
          do* _ := StoreFrame ch frame offset_data out (Ret tt) in
          xfer_finish wait v size_in p_in
      end
  end.

Definition tegrabl_ccplex_bpmp_xfer : ivc -> option (list Z) -> bool -> Z -> Z -> prog (Z * list Z * ivc) :=
  bpmp_xfer tegrabl_ccplex_bpmp_wait_for_slave_ack.

(** ** Connecting *)

(** "while (tegra_ivc_channel_notified(...))", at most [polls] times. *)
Fixpoint poll_notified (v : ivc) (polls : nat) : prog (option ivc) :=
  match polls with
  | O => Ret None
  | S polls =>
      do* (r, v) := tegra_ivc_channel_notified v in
      if r =? 0 then Ret (Some v) else poll_notified v polls
  end.

(** The set-up of channel 0, once the firmware is known to run; [None] as long as
    the peer has not connected. *)
Definition tegrabl_connect_bpmp (v : ivc) (polls : nat) : prog (option (Z * ivc)) :=
  let msg_size := u32 (tegra_ivc_align MSG_SZ) in
  let frame_size := tegra_ivc_total_queue_size msg_size in
  if IPC_CPU_MASTER_SIZE <? u32 (frame_size * NO_OF_CHANNELS) then Ret (Some (TEGRABL_ERR_NO_ACCESS, v))
  else
    let rx_base := u32 (IPC_CPU_SLAVE_PHYS_BASE + u32 (frame_size * 0)) in
    let tx_base := u32 (IPC_CPU_MASTER_PHYS_BASE + u32 (frame_size * 0)) in
    let (error, v) := tegra_ivc_init v rx_base tx_base 1 msg_size in
    if negb (u32 error =? 0) then Ret (Some (TEGRABL_ERR_BUSY, v))
    else
      do* _ := tegra_ivc_channel_reset v in
      do* r := poll_notified v polls in
      match r with None => Ret None | Some v => Ret (Some (TEGRABL_NO_ERROR, v)) end.
