(* ===== verification/BpmpFacts.v ===== *)
(** What a request to the power management processor does, whatever the other end
    of the queues does in the meantime. *)

From S2P Require Import Prelude TegraError Ivc IvcLogic IvcSteps IvcCalls Bpmp.

(** The frame of a request, where [fr] was in the frame before. *)
Definition request (mrq : Z) (out fr : list Z) : list Z :=
  splice offset_data out (splice offset_flags (le_bytes 4 FLAG_DO_ACK) (splice 0 (le_bytes 4 mrq) fr)).

Section Xfer.
Context (N F : Z).
Hypothesis HN : 0 < N < 2 ^ 32.
Hypothesis HF : 0 <= F < 2 ^ 31.
Context (init : bool) (tx rx : Z).
Hypothesis Htr : tx <> rx.

Notation ok := (ok N F init tx rx).
Notation wf := (wf N F).
Notation boundary := (boundary init).
Notation pos_ok := (pos_ok N F tx rx).
Notation grow := (grow N F).

(** ** Tests whose result is known *)

Lemma check_write_room v K x : k_ph K = PEst x -> wf K -> nframes v = N -> tx_channel v = tx ->
  zlen (k_out K) < k_rlow K + N -> ok K (ivc_check_write v) (fun K' r => grow K K' /\ r = 0).
Proof.
  intros E W En Et Hlt. unfold ivc_check_write. cbn [load prog_bind IvcLogic.ok]. rewrite Et, (load_ok_tx N init), E.
  cbn [state_of]. rewrite Z.eqb_refl. cbn [negb ivc_channel_full load prog_bind IvcLogic.ok].
  rewrite (load_ok_tx N init), E. cbn [prog_bind IvcLogic.ok]. rewrite (load_ok_tx N init), E. intros n Hn.
  cbn [prog_bind IvcLogic.ok]. rewrite En, u32_diff by (destruct W; lia).
  destruct (Z.leb_spec N (zlen (k_out K) - n)); [lia|]. cbn. split; [by eapply grow_rlow|done].
Qed.

Lemma check_read_ready v K x : k_ph K = PEst x -> wf K -> nframes v = N -> tx_channel v = tx -> rx_channel v = rx ->
  k_nin K < zlen (k_in K) -> ok K (ivc_check_read v) (fun K' r => grow K K' /\ r = 0).
Proof.
  intros E W En Et Er Hlt. unfold ivc_check_read. cbn [load prog_bind IvcLogic.ok]. rewrite Et, (load_ok_tx N init), E.
  cbn [state_of]. rewrite Z.eqb_refl, Er. cbn [negb ivc_channel_empty load prog_bind IvcLogic.ok].
  rewrite (load_ok_rx N init tx rx Htr), E. intros l Hp Hl. cbn [prog_bind IvcLogic.ok].
  rewrite (load_ok_rx N init tx rx Htr). cbn [set_in k_ph k_nin]. rewrite E. cbn [prog_bind IvcLogic.ok].
  pose proof (prefix_zlen _ _ Hp). pose proof W as [_ _ W3 W4 _]. rewrite En, u32_diff, u32_eq by lia.
  destruct (Z.ltb_spec N (zlen l - k_nin K)); [lia|]. destruct (Z.eqb_spec (zlen l) (k_nin K)); [lia|].
  cbn. split; [by eapply grow_in|done].
Qed.

(** ** The steps of a request *)

Lemma grow_publish K K1 K2 x fr : k_ph K = PEst x -> grow K K1 -> grow (publish K1 fr) K2 -> grow (publish K fr) K2.
Proof.
  intros E [A1 A2 A3 A4 A5 A6 A7 A8] [B1 B2 B3 B4 B5 B6 B7 B8]. cbn in *. split; cbn; try congruence; try lia; try done;
    [by etrans|left; by exists x].
Qed.

Lemma grow_consume K K1 K2 x : k_ph K = PEst x -> grow K K1 -> grow (consume K1) K2 -> grow (consume K) K2.
Proof.
  intros E [A1 A2 A3 A4 A5 A6 A7 A8] [B1 B2 B3 B4 B5 B6 B7 B8]. cbn in *. split; cbn; try congruence; try lia; try done;
    [by etrans|left; by exists x].
Qed.

Lemma outframe_spec v K : boundary K -> wf K -> pos_ok v K ->
  ok K (tegrabl_ccplex_bpmp_getnext_outframe v) (fun K' p => grow K K' /\
    (p = None \/ p = Some (tx, w_pos v) /\ est K /\ zlen (k_out K) < k_rlow K' + N)).
Proof.
  intros B W P. unfold tegrabl_ccplex_bpmp_getnext_outframe, tegra_ivc_write_get_next_frame. apply ok_bind.
  eapply ok_mono; [|eapply check_write_spec; [done..|apply P|apply P]].
  intros K1 r [G [(-> & Hest & Hlt)|Hr]].
  - cbn. split; [done|]. right. by rewrite (po_tx _ _ _ _ _ _ P).
  - destruct (Z.eqb_spec r 0); [lia|]. cbn. auto.
Qed.

Lemma signal_spec v K x : k_ph K = PEst x -> wf K -> pos_ok v K -> zlen (k_out K) < k_rlow K + N ->
  ok K (tegrabl_ccpelx_bpmp_signal_slave v) (fun K' v' => exists fr, slot_is F K fr /\ grow (publish K fr) K' /\ pos_ok v' K').
Proof.
  intros E W P Hlt. unfold tegrabl_ccpelx_bpmp_signal_slave, tegra_ivc_write_advance. apply ok_bind, ok_bind.
  eapply ok_mono; [|eapply (check_write_room v K x); [done|done|apply P|apply P|done]]. intros K1 r [G ->].
  cbn [negb Z.eqb]. eapply publish_spec; [done..| | | | |]; [by rewrite (gr_ph _ _ _ _ G)|apply G|by eapply grow_pos| |].
  - rewrite (gr_out _ _ _ _ G). pose proof (gr_low _ _ _ _ G). lia.
  - intros K2 v2 fr Hs G2 P2. cbn. exists fr. split; [|split; [|done]].
    + unfold slot_is in *. by rewrite (gr_slot _ _ _ _ G) in Hs.
    + by eapply grow_publish.
Qed.

Lemma wait_spec v K n : boundary K -> wf K -> pos_ok v K ->
  ok K (wait_loop v n) (fun K' '(e, ib) => grow K K' /\
    (e = TEGRABL_NO_ERROR /\ ib = Some (rx, r_pos v) /\ est K /\ k_nin K < zlen (k_in K') \/ e = TEGRABL_ERR_TIMEOUT)).
Proof.
  revert K. induction n as [|n IH]; intros K B W P; pose proof P as [Pr Pt Pn Pf Pp]; cbn [wait_loop];
    apply ok_bind; unfold tegrabl_ccplex_bpmp_slave_acked, tegra_ivc_read_get_next_frame; apply ok_bind, ok_bind;
    (eapply ok_mono; [|by eapply check_read_spec]);
    intros K1 r [G [(-> & Hest & Hlt)|Hr]]; try (destruct (Z.eqb_spec r 0); [lia|]); cbn [negb Z.eqb IvcLogic.ok].
  - change (TEGRABL_NO_ERROR =? TEGRABL_NO_ERROR) with true. cbn. split; [done|]. left.
    by rewrite (po_rx _ _ _ _ _ _ P).
  - cbn. auto.
  - change (TEGRABL_NO_ERROR =? TEGRABL_NO_ERROR) with true. cbn. split; [done|]. left.
    by rewrite (po_rx _ _ _ _ _ _ P).
  - change (TEGRABL_ERR_INVALID_STATE =? TEGRABL_NO_ERROR) with false. cbv iota.
    eapply ok_mono; [|apply IH; [by eapply grow_boundary|apply G|by eapply grow_pos]].
    intros K2 [e ib] [G2 H]. split; [by eapply grow_trans|]. destruct H as [(-> & -> & [x E] & Hlt)|H]; [|by right].
    left. rewrite (gr_nin _ _ _ _ G) in Hlt. rewrite (gr_ph _ _ _ _ G) in E.
    split; [done|]. split; [done|]. split; [by exists x|done].
Qed.

Lemma free_spec v K x : k_ph K = PEst x -> wf K -> pos_ok v K -> k_nin K < zlen (k_in K) ->
  ok K (tegrabl_ccplex_bpmp_free_master v) (fun K' '(e, v') => e = TEGRABL_NO_ERROR /\ grow (consume K) K' /\ pos_ok v' K').
Proof.
  intros E W P Hlt. unfold tegrabl_ccplex_bpmp_free_master, tegra_ivc_read_advance. apply ok_bind, ok_bind.
  eapply ok_mono; [|eapply (check_read_ready v K x); [done|done|apply P|apply P|apply P|done]]. intros K1 r [G ->].
  cbn [negb Z.eqb]. eapply consume_spec; [done..| | | | |];
    [by rewrite (gr_ph _ _ _ _ G)|apply G|by eapply grow_pos| |].
  - rewrite (gr_nin _ _ _ _ G). pose proof (prefix_zlen _ _ (gr_in _ _ _ _ G)). lia.
  - intros K2 v2 G2 P2. cbn. split; [done|]. split; [by eapply grow_consume|done].
Qed.

(** What a request leaves behind. *)
Definition answered (K : know) (p_in : bool) (size_in : Z) (K' : know) (e : Z) (bs : list Z) : Prop :=
  e = TEGRABL_ERR_INVALID /\ bs = [] /\ k_nin K' = k_nin K \/
  e = TEGRABL_NO_ERROR /\ k_nin K' = k_nin K + 1 /\
  exists resp, k_in K' !! Z.to_nat (k_nin K) = Some resp /\
    bs = if negb (size_in =? 0) && p_in then slice offset_data size_in resp else [].

Definition xfer_post (K : know) (mrq : Z) (out : list Z) (p_in : bool) (size_in : Z) (K' : know)
    (x : Z * list Z * ivc) : Prop :=
  let '(e, bs, v) := x in
  pos_ok v K' /\ wf K' /\ boundary K' /\ k_ph K' = k_ph K /\ k_in K `prefix_of` k_in K' /\
  (e = TEGRABL_ERR_INVALID /\ bs = [] /\ grow K K' \/
   exists fr, slot_is F K fr /\ k_out K' = k_out K ++ [request mrq out fr] /\ answered K p_in size_in K' e bs).

Lemma finish_spec wait v K x size_in p_in :
  (forall v K, boundary K -> wf K -> pos_ok v K ->
    ok K (wait v) (fun K' '(e, ib) => grow K K' /\
      (e = TEGRABL_NO_ERROR /\ ib = Some (rx, r_pos v) /\ est K /\ k_nin K < zlen (k_in K') \/ e = TEGRABL_ERR_TIMEOUT))) ->
  k_ph K = PEst x -> wf K -> pos_ok v K -> zlen (k_out K) < k_rlow K + N -> 0 <= size_in -> offset_data + size_in <= F ->
  ok K (xfer_finish wait v size_in p_in) (fun K' '(e, bs, v') =>
    pos_ok v' K' /\ wf K' /\ k_ph K' = PEst x /\ k_in K `prefix_of` k_in K' /\
    exists fr, slot_is F K fr /\ k_out K' = k_out K ++ [fr] /\ answered K p_in size_in K' e bs).
Proof.
  intros Hwait E W P Hlt Hsz Hsz'. unfold xfer_finish. apply ok_bind.
  eapply ok_mono; [|by eapply signal_spec]. intros K1 v1 (fr & Hs & G1 & P1).
  assert (E1 : k_ph K1 = PEst x) by (by rewrite (gr_ph _ _ _ _ G1)).
  apply ok_bind. eapply ok_mono; [|apply Hwait; [unfold IvcCalls.boundary; by rewrite E1|apply G1|done]].
  intros K2 [e ib] [G2 H]. pose proof (grow_trans _ _ _ _ _ G1 G2) as G.
  destruct H as [(-> & -> & _ & Hav)|Ht].
  2:{ subst e. change (TEGRABL_ERR_TIMEOUT =? TEGRABL_NO_ERROR) with false. cbn [negb IvcLogic.ok].
      split; [eapply grow_pos; [exact G2|exact P1]|]. split; [apply G2|]. split; [by rewrite (gr_ph _ _ _ _ G2)|].
      split; [apply (gr_in _ _ _ _ G)|]. exists fr. split; [done|]. split; [apply (gr_out _ _ _ _ G)|].
      left. split; [done|]. split; [done|]. apply (gr_nin _ _ _ _ G). }
  rewrite Z.eqb_refl. cbn [negb].
  assert (E2 : k_ph K2 = PEst x) by (by rewrite (gr_ph _ _ _ _ G2)).
  assert (P2 : pos_ok v1 K2) by (eapply grow_pos; [exact G2|exact P1]). pose proof (gr_nin _ _ _ _ G) as En. cbn in En.
  assert (Hav2 : k_nin K2 < zlen (k_in K2)) by (by rewrite (gr_nin _ _ _ _ G2)).
  assert (Hfin : forall resp buf, k_in K2 !! Z.to_nat (k_nin K) = Some resp ->
    buf = (if negb (size_in =? 0) && p_in then slice offset_data size_in resp else []) ->
    ok K2 (do* (e, v) := tegrabl_ccplex_bpmp_free_master v1 in
      if negb (e =? TEGRABL_NO_ERROR) then Ret (TEGRABL_ERR_INVALID, buf, v) else Ret (TEGRABL_NO_ERROR, buf, v))%ivc
      (fun K' '(e, bs, v') => pos_ok v' K' /\ wf K' /\ k_ph K' = PEst x /\ k_in K `prefix_of` k_in K' /\
         exists fr, slot_is F K fr /\ k_out K' = k_out K ++ [fr] /\ answered K p_in size_in K' e bs)).
  { intros resp buf Hresp Hbuf. apply ok_bind. eapply ok_mono; [|eapply (free_spec v1 K2 x); [done|apply G2|done|done]].
    intros K3 [e v3] (-> & G3 & P3). rewrite Z.eqb_refl. cbn [negb IvcLogic.ok].
    split; [done|]. split; [apply G3|]. split; [by rewrite (gr_ph _ _ _ _ G3)|].
    split; [etrans; [apply (gr_in _ _ _ _ G)|apply (gr_in _ _ _ _ G3)]|]. exists fr. split; [done|].
    split; [rewrite (gr_out _ _ _ _ G3); apply (gr_out _ _ _ _ G)|].
    right. split; [done|]. split; [rewrite (gr_nin _ _ _ _ G3); cbn; by rewrite En|]. exists resp. split; [|done].
    eapply prefix_lookup_Some; [exact Hresp|apply (gr_in _ _ _ _ G3)]. }
  destruct (lookup_lt_is_Some_2 (k_in K2) (Z.to_nat (k_nin K))) as [resp Hresp].
  { rewrite <- En. pose proof (wf_nin _ _ _ (gr_wf _ _ _ _ G2)). unfold zlen in Hav2. lia. }
  destruct (negb (size_in =? 0) && p_in) eqn:Eb; [|by eapply Hfin].
  cbn [prog_bind IvcLogic.ok]. split; [done|]. split; [by exists x|].
  split; [rewrite (gr_nin _ _ _ _ G2); by destruct (po_pos _ _ _ _ _ _ P1) as [?|[_ ?]]; [congruence|]|].
  split; [done|]. split; [unfold offset_data; lia|]. split; [done|]. split; [done|].
  intros fr2 Hfr2. eapply Hfin; [exact Hresp|]. rewrite En in Hfr2. congruence.
Qed.

(** Puts the three parts of a request into the frame. *)
Lemma fill_spec {X} K x ch frame mrq out (k : prog X) Q :
  k_ph K = PEst x -> wf K -> ch = tx -> frame = zlen (k_out K) mod N -> zlen (k_out K) < k_rlow K + N ->
  offset_data + zlen out <= F ->
  (forall fr, slot_is F K fr -> ok (set_slot K (request mrq out fr)) k Q) ->
  ok K (do* _ := StoreFrame ch frame 0 (le_bytes 4 mrq) (Ret tt) in
        do* _ := StoreFrame ch frame offset_flags (le_bytes 4 FLAG_DO_ACK) (Ret tt) in
        do* _ := StoreFrame ch frame offset_data out (Ret tt) in k)%ivc Q.
Proof.
  intros E W -> -> Hlt Hsz HQ. pose proof (zlen_nonneg out).
  assert (H4 : forall v, zlen (le_bytes 4 v) = 4) by (intros; unfold zlen; by rewrite le_bytes_length).
  assert (Hest : est K) by (by exists x). unfold offset_data, offset_flags in *.
  cbn [prog_bind IvcLogic.ok]. rewrite H4. do 4 (split; [done|]). split; [lia|]. split; [lia|]. intros fr Hfr.
  rewrite H4. do 4 (split; [done|]). split; [lia|]. split; [lia|]. intros fr1 H1. cbn in H1. subst fr1.
  do 4 (split; [done|]). split; [lia|]. split; [lia|]. intros fr2 H2. cbn in H2. subst fr2.
  by apply HQ.
Qed.

Lemma request_len mrq out fr : zlen fr = F -> offset_data + zlen out <= F -> zlen (request mrq out fr) = F.
Proof.
  intros Hz Hsz. unfold request, offset_data, offset_flags in *. pose proof (zlen_nonneg out).
  assert (H4 : forall v, zlen (le_bytes 4 v) = 4) by (intros; unfold zlen; by rewrite le_bytes_length).
  assert (L1 : zlen (splice 0 (le_bytes 4 mrq) fr) = F) by (rewrite splice_length; rewrite ?H4; lia).
  assert (L2 : zlen (splice 4 (le_bytes 4 FLAG_DO_ACK) (splice 0 (le_bytes 4 mrq) fr)) = F)
    by (rewrite splice_length; rewrite ?H4, ?L1; lia).
  by rewrite splice_length by (rewrite ?L2; lia).
Qed.

Lemma xfer_spec v K out p_in size_in mrq : boundary K -> wf K -> pos_ok v K ->
  offset_data + zlen out <= F -> 0 <= size_in -> offset_data + size_in <= F ->
  ok K (tegrabl_ccplex_bpmp_xfer v (Some out) p_in size_in mrq) (xfer_post K mrq out p_in size_in).
Proof.
  intros B W P Ho Hi Hi'. unfold tegrabl_ccplex_bpmp_xfer, bpmp_xfer. apply ok_bind.
  eapply ok_mono; [|by apply outframe_spec]. intros K1 p [G [-> |(-> & [x E] & Hlt)]].
  { cbn. split; [by eapply grow_pos|]. split; [apply G|]. split; [by eapply grow_boundary|].
    split; [apply (gr_ph _ _ _ _ G)|]. split; [apply (gr_in _ _ _ _ G)|]. by left. }
  assert (E1 : k_ph K1 = PEst x) by (by rewrite (gr_ph _ _ _ _ G)). pose proof (gr_out _ _ _ _ G) as Eo.
  assert (P1 : pos_ok v K1) by (by eapply grow_pos).
  eapply (fill_spec K1 x); [done|apply G|done| |by rewrite Eo|done|].
  { destruct (po_pos _ _ _ _ _ _ P1) as [?|[? _]]; [congruence|done]. }
  intros fr Hs. assert (Hz : zlen (request mrq out fr) = F) by (apply request_len; [eapply slot_len; [apply G|done]|done]).
  eapply ok_mono; [|apply (finish_spec _ v _ x); [intros; by apply wait_spec|done| | |cbn; by rewrite Eo|done|done]].
  - intros K2 [[e bs] v2] (P2 & W2 & E2 & Hp & fr2 & Hs2 & Ho2 & Ha). cbn in Hs2, Ho2, Hp. subst fr2.
    split; [done|]. split; [done|]. split; [unfold IvcCalls.boundary; by rewrite E2|]. split; [congruence|].
    split; [etrans; [apply (gr_in _ _ _ _ G)|done]|]. right. exists fr.
    split; [unfold slot_is in *; by rewrite (gr_slot _ _ _ _ G) in Hs|]. split; [by rewrite <- Eo|].
    unfold answered in *. cbn in Ha. by rewrite (gr_nin _ _ _ _ G) in Ha.
  - destruct (gr_wf _ _ _ _ G) as [W1 W2 W3 W4 W5]. split; cbn; try done. by intros s [= <-].
  - destruct P1 as [Q1 Q2 Q3 Q4 Q5]. by split.
Qed.
End Xfer.

(** ** Connecting *)

Section Connect.
Context (N F : Z).
Hypothesis HN : 0 < N < 2 ^ 32.
Hypothesis HF : 0 <= F < 2 ^ 31.
Context (tx rx : Z).
Hypothesis Htr : tx <> rx.

Notation ok := (ok N F true tx rx).

(** A connected end with nothing sent or received. *)
Definition connected (K : know) (r : option ivc) : Prop :=
  match r with
  | None => k_ph K = PSync
  | Some v => K = fresh (PEst true) /\ v = mkIvc rx tx 0 0 N F
  end.

Lemma poll_spec v K polls : tx_channel v = tx -> rx_channel v = rx -> nframes v = N -> frame_size v = F -> k_ph K = PSync ->
  ok K (poll_notified v polls) connected.
Proof.
  intros Et Er En Ef. revert K. induction polls as [|polls IH]; intros K E; [done|]. cbn [poll_notified].
  change (tegra_ivc_channel_notified v) with (Load (rx_channel v) FS (notified_tail v)).
  cbn [prog_bind IvcLogic.ok]. rewrite Er, (load_ok_rx N true tx rx Htr), E. intros ps ph Hsee. cbn in Hsee. apply ok_bind.
  destruct Hsee as [[-> ->]|[-> ->]].
  - eapply tail_none; [done..|]. cbn [k_ph set_ph state_of]. by apply IH.
  - eapply tail_clear; try done.
    cbn. split; [done|]. unfold set_pos. by rewrite Et, Er, En, Ef.
Qed.
End Connect.

(** The endpoint of the channel that the configuration describes. *)
Definition bpmp_endpoint : ivc := mkIvc IPC_CPU_SLAVE_PHYS_BASE IPC_CPU_MASTER_PHYS_BASE 0 0 1 256.

Lemma connect_eq v polls : tegrabl_connect_bpmp v polls =
  (do* _ := tegra_ivc_channel_reset bpmp_endpoint in
   do* r := poll_notified bpmp_endpoint polls in
   match r with None => Ret None | Some v => Ret (Some (TEGRABL_NO_ERROR, v)) end)%ivc.
Proof. reflexivity. Qed.

Lemma connect_spec K v polls : k_ph K = PEst false ->
  ok 1 256 true IPC_CPU_MASTER_PHYS_BASE IPC_CPU_SLAVE_PHYS_BASE K (tegrabl_connect_bpmp v polls)
    (fun K' r => match r with
     | None => k_ph K' = PSync
     | Some (e, v') => e = TEGRABL_NO_ERROR /\ K' = fresh (PEst true) /\ v' = bpmp_endpoint
     end).
Proof.
  intros E. rewrite connect_eq. cbn [tegra_ivc_channel_reset store notify prog_bind IvcLogic.ok].
  unfold store_ok. cbn [bpmp_endpoint tx_channel]. rewrite Z.eqb_refl. exists (set_ph K PSync).
  split; [unfold moves; by rewrite E|]. apply ok_bind.
  eapply ok_mono; [|apply (poll_spec 1 256 IPC_CPU_MASTER_PHYS_BASE IPC_CPU_SLAVE_PHYS_BASE); done].
  intros K' [v'|] H; cbn; [|done]. destruct H as [-> ->]. done.
Qed.
