(* ===== verification/BpmpProps.v ===== *)
(** Requests to the power management processor: connecting and one call, with the
    firmware at the other end as a parameter. *)

From S2P Require Import Prelude TegraError Ivc IvcLogic IvcSteps IvcCalls IvcSystem IvcProps Bpmp BpmpFacts.

(** ** Two programs at once *)

Fixpoint interleave {A B} (m : shmem) (p : prog A) (q : prog B) (xs : list side) : res (shmem * prog A * prog B) :=
  match xs with
  | [] => Ok (m, p, q)
  | SideA :: xs => let* (m, p, _) := pstep m p in interleave m p q xs
  | SideB :: xs => let* (m, q, _) := pstep m q in interleave m p q xs
  end.

Lemma interleave_ok {A B} N F a b m (p : prog A) (q : prog B) KA KB QA QB xs :
  0 < N < 2 ^ 32 -> 0 <= F < 2 ^ 31 -> a <> b ->
  shared N F a b m KA KB -> ok N F true a b KA p QA -> ok N F false b a KB q QB ->
  exists m' p' q' KA' KB', interleave m p q xs = Ok (m', p', q') /\
    shared N F a b m' KA' KB' /\ ok N F true a b KA' p' QA /\ ok N F false b a KB' q' QB.
Proof.
  intros HN HF Hab. revert m p q KA KB. induction xs as [|[] xs IH]; intros m p q KA KB S OA OB.
  - by exists m, p, q, KA, KB.
  - destruct (access_A N F HN HF a b Hab _ _ _ _ _ S OA) as (m' & p' & n & K & E & S' & O'). cbn. rewrite E.
    by eapply IH.
  - destruct (access_B N F HN HF a b Hab _ _ _ _ _ S OB) as (m' & p' & n & K & E & S' & O'). cbn. rewrite E.
    by eapply IH.
Qed.

(** A program that makes at most [n] accesses returns after [n] steps of its own. *)
Lemma interleave_within {A B} m (p : prog A) (q : prog B) m' p' q' xs n :
  interleave m p q xs = Ok (m', p', q') -> within n p -> within (n - turns SideA xs) p'.
Proof.
  revert m p q n. induction xs as [|[] xs IH]; intros m p q n H W; cbn [interleave] in H.
  - injection H as <- <- <-. by rewrite Nat.sub_0_r.
  - destruct (pstep m p) as [[[m1 p1] b1]|] eqn:E; [|discriminate]. cbn in H.
    assert (W1 : within (pred n) p1).
    { destruct n as [|n]; [|by eapply pstep_within]. destruct (within_ret _ _ W eq_refl) as [x ->].
      cbn in E. by injection E as <- <- <-. }
    eapply IH in H; [|exact W1]. eapply within_mono; [exact H|]. unfold turns. cbn. lia.
  - destruct (pstep m q) as [[[m1 q1] b1]|] eqn:E; [|discriminate]. cbn in H. by eapply IH in H.
Qed.

(** ** A session: connecting, and one request *)

Definition session (v : ivc) (polls : nat) (out : list Z) (p_in : bool) (size_in mrq : Z) : prog (option (Z * list Z)) :=
  (do* r := tegrabl_connect_bpmp v polls in
   match r with
   | None => Ret None
   | Some (e, v) =>
       if negb (e =? TEGRABL_NO_ERROR) then Ret None
       else do* (e, bs, _) := tegrabl_ccplex_bpmp_xfer v (Some out) p_in size_in mrq in Ret (Some (e, bs))
   end)%ivc.

Notation MASTER := IPC_CPU_MASTER_PHYS_BASE.
Notation SLAVE := IPC_CPU_SLAVE_PHYS_BASE.

(** What the firmware has to show for itself: it has sent nothing, or one frame
    with the answer [f] to the first frame it has received. *)
Definition answers (f : list Z -> list Z) (K : know) : Prop :=
  boundary false K /\
  (k_out K = [] \/ exists fr, k_in K !! 0%nat = Some fr /\ k_out K = [padded 256 (f (slice 0 256 fr))]).

(** A client that got an answer: its request and the answer to it. *)
Definition session_post (out : list Z) (p_in : bool) (size_in mrq : Z) (K : know) (r : option (Z * list Z)) : Prop :=
  match r with
  | None => True
  | Some (e, bs) =>
      k_ph K = PEst true /\
      (e = TEGRABL_ERR_INVALID /\ bs = [] \/
       e = TEGRABL_NO_ERROR /\ exists fr resp, zlen fr = 256 /\ k_out K = [request mrq out fr] /\
         k_in K !! 0%nat = Some resp /\
         bs = if negb (size_in =? 0) && p_in then slice offset_data size_in resp else [])
  end.

Lemma session_spec v polls out p_in size_in mrq :
  offset_data + zlen out <= 256 -> 0 <= size_in -> offset_data + size_in <= 256 ->
  ok 1 256 true MASTER SLAVE (fresh (PEst false)) (session v polls out p_in size_in mrq)
    (session_post out p_in size_in mrq).
Proof.
  intros Ho Hi Hi'. unfold session. apply ok_bind. eapply ok_mono; [|by apply connect_spec].
  intros K [[e v1]|] H; [|done]. destruct H as (-> & -> & ->). rewrite Z.eqb_refl. cbn [negb]. apply ok_bind.
  eapply ok_mono; [|eapply (xfer_spec 1 256); try done].
  - intros K2 [[e bs] v2] (_ & _ & _ & Eph & _ & H). cbn [IvcLogic.ok session_post]. split; [done|].
    destruct H as [(-> & -> & _)|(fr & Hs & Eo & Ha)]; [by left|]. destruct Ha as [(-> & -> & _)|(-> & _ & resp & Hr & Hb)];
      [by left|]. right. split; [done|]. exists fr, resp. done.
  - split; try done. by right.
Qed.

Lemma request_slice mrq out fr : offset_data + zlen out <= zlen fr ->
  slice 0 (offset_data + zlen out) (request mrq out fr) = le_bytes 4 mrq ++ le_bytes 4 FLAG_DO_ACK ++ out.
Proof.
  intros Hz. pose proof (zlen_nonneg out). unfold request, offset_data, offset_flags in *.
  assert (H4 : forall v, zlen (le_bytes 4 v) = 4) by (intros; unfold zlen; by rewrite le_bytes_length).
  replace 4 with (0 + zlen (le_bytes 4 mrq)) at 1 by (by rewrite H4).
  rewrite splice_app by (rewrite ?H4; lia).
  replace 8 with (0 + zlen (le_bytes 4 mrq ++ le_bytes 4 FLAG_DO_ACK)) at 2 by (by rewrite zlen_app, !H4).
  rewrite splice_app by (rewrite ?zlen_app, ?H4; lia).
  rewrite <- app_assoc.
  replace (8 + zlen out) with (zlen (le_bytes 4 mrq ++ le_bytes 4 FLAG_DO_ACK ++ out)) by (rewrite !zlen_app, !H4; lia).
  apply slice_splice_same; rewrite ?zlen_app, ?H4; lia.
Qed.

(** ** A session returns *)

Lemma within_getnext v : within 5 (tegrabl_ccplex_bpmp_getnext_outframe v).
Proof. apply (within_plain _ 5); [apply within_check_write|intros r; by destruct (negb (r =? 0))|lia]. Qed.

Lemma within_wait v n : within (5 * S n) (wait_loop v n).
Proof.
  assert (Ha : within 5 (tegrabl_ccplex_bpmp_slave_acked v)).
  { apply (within_plain _ 5); [|by intros|lia].
    apply (within_plain _ 5); [apply within_check_read|intros r; by destruct (negb (r =? 0))|lia]. }
  induction n as [|n IH]; cbn [wait_loop].
  - apply (within_plain _ 5); [done| |lia]. intros [e ib]. by destruct (e =? TEGRABL_NO_ERROR).
  - replace (5 * S (S n))%nat with (5 + 5 * S n)%nat by lia. apply within_bind; [done|]. intros [e ib].
    by apply within_if.
Qed.

Lemma within_advance_call {A} (p : prog Z) (x : Z -> A) (q : prog A) :
  within 5 p -> within 5 q -> within 10 (do* r := p in if negb (r =? 0) then Ret (x r) else q)%ivc.
Proof. intros Hp Hq. apply (within_bind 5 5); [done|]. intros r. by apply within_if. Qed.

Lemma within_xfer v out p_in size_in mrq n :
  within (29 + 5 * S n) (bpmp_xfer (fun v => wait_loop v n) v (Some out) p_in size_in mrq).
Proof.
  unfold bpmp_xfer. replace (29 + 5 * S n)%nat with (5 + (3 + (10 + (5 * S n + 11))))%nat by lia.
  apply within_bind; [apply within_getnext|]. intros [[ch frame]|]; [|done]. cbn [within prog_bind plus].
  unfold xfer_finish. apply (within_bind 10).
  { apply (within_plain _ 10); [|by intros []|lia].
    apply (within_advance_call (ivc_check_write v)); [apply within_check_write|apply within_advance_tx]. }
  intros v1. apply within_bind; [apply within_wait|]. intros [e ib]. apply within_if; [done|].
  destruct ib as [[ch' fr']|]; [|done]. apply (within_bind 1 10); [by apply within_if|]. intros buf.
  apply (within_plain _ 10); [|intros [e' v2]; by apply within_if|lia]. apply (within_plain _ 10); [|by intros []|lia].
  apply (within_advance_call (ivc_check_read v1)); [apply within_check_read|apply within_advance_rx].
Qed.

Lemma within_poll v polls : within (7 * polls) (poll_notified v polls).
Proof.
  revert v. induction polls as [|polls IH]; intros v; [done|]. cbn [poll_notified].
  replace (7 * S polls)%nat with (7 + 7 * polls)%nat by lia. apply within_bind; [apply within_notified|].
  intros [r v']. by apply within_if.
Qed.

(** The accesses of a session that polls [polls] times for the connection. *)
Definition session_bound (polls : nat) : Z := 31 + 5 * TIMEOUT_RESPONSE_FROM_BPMP + 7 * Z.of_nat polls.

Lemma session_within v polls out p_in size_in mrq n : session_bound polls <= Z.of_nat n ->
  within n (session v polls out p_in size_in mrq).
Proof.
  intros Hn. unfold session_bound, TIMEOUT_RESPONSE_FROM_BPMP in Hn.
  set (t := Z.to_nat (TIMEOUT_RESPONSE_FROM_BPMP - 1)).
  assert (Ht : (5 * S t)%nat = Z.to_nat (5 * 1000000)).
  { unfold t, TIMEOUT_RESPONSE_FROM_BPMP. lia. }
  apply (within_mono ((2 + 7 * polls) + (29 + 5 * S t))); [|rewrite Ht; lia].
  unfold session. apply within_bind.
  - rewrite connect_eq. apply (within_bind 2); [done|]. intros _.
    apply (within_plain _ (7 * polls)); [apply within_poll|by intros []|lia].
  - intros [[e v1]|]; [|done]. apply within_if; [done|].
    apply (within_plain _ (29 + 5 * S t)); [apply within_xfer|by intros [[]]|lia].
Qed.

Section Session.
Context (f : list Z -> list Z) {B : Type} (firmware : prog B).
(** The firmware keeps to the protocol of the queues, as the end that does not
    reset them, and answers with [f]. *)
Hypothesis firmware_answers :
  ok 1 256 false SLAVE MASTER (fresh (PEst false)) firmware (fun K _ => answers f K).

Lemma session_traffic m cA cB v polls out p_in size_in mrq xs :
  m !! MASTER = Some cA -> m !! SLAVE = Some cB -> idle 1 256 cA -> idle 1 256 cB ->
  offset_data + zlen out <= 256 -> 0 <= size_in -> offset_data + size_in <= 256 ->
  exists m' p q KA KB, interleave m (session v polls out p_in size_in mrq) firmware xs = Ok (m', p, q) /\
    shared 1 256 MASTER SLAVE m' KA KB /\
    (forall r, p = Ret r -> session_post out p_in size_in mrq KA r) /\
    (forall u, q = Ret u -> answers f KB).
Proof.
  intros HA HB (A1 & A2 & A3 & A4) (B1 & B2 & B3 & B4) Ho Hi Hi'.
  destruct (interleave_ok 1 256 MASTER SLAVE m (session v polls out p_in size_in mrq) firmware
    (fresh (PEst false)) (fresh (PEst false)) (session_post out p_in size_in mrq) (fun K _ => answers f K) xs)
    as (m' & p & q & KA & KB & E & S & OA & OB); [lia|lia|done| |by apply session_spec|exact firmware_answers|].
  - exists cA, cB. do 2 (split; [done|]). do 4 (split; [done|]). unfold agree. cbn. split; by apply link_fresh.
  - exists m', p, q, KA, KB. do 2 (split; [done|]). split; [by intros r ->|by intros u ->].
Qed.
End Session.


(** ** A firmware *)

(** Handles notifications until connected, then waits for a request and answers. *)
Fixpoint serve (f : list Z -> list Z) (v : ivc) (polls : nat) : prog (option Z) :=
  match polls with
  | O => Ret None
  | S polls =>
      (do* (r, _, v) := call_prog v CNotified in
       if negb (r =? 0) then serve f v polls
       else
         do* (r, req, v) := call_prog v (CRead 256) in
         if r <? 0 then serve f v polls
         else do* (r, _, _) := call_prog v (CWrite (f req)) in Ret (Some r))%ivc
  end.

Section Serve.
Context (f : list Z -> list Z).

Notation ok := (ok 1 256 false SLAVE MASTER).
Notation wf := (wf 1 256).
Notation pos_ok := (pos_ok 1 256 SLAVE MASTER).

Lemma hs_out K : boundary false K -> hs_of K = (k_out K, k_slot K, k_nin K) /\ inn_of K = k_in K.
Proof. unfold boundary, hs_of, inn_of. by destruct (k_ph K). Qed.

Lemma idle_answers K : boundary false K -> hs_of K = no_traffic -> answers f K.
Proof. intros B H. split; [done|]. left. destruct (hs_out _ B) as [E _]. rewrite E in H. unfold no_traffic in H. congruence. Qed.

Lemma ok_call {X} K c Q (k : Z * list Z * ivc -> prog X) v : boundary false K -> wf K -> pos_ok v K -> call_ok false K c ->
  (forall K' r bs v', post 1 256 false SLAVE MASTER K c K' (r, bs, v') -> ok K' (k (r, bs, v')) Q) ->
  ok K (prog_bind (call_prog v c) k) Q.
Proof.
  intros B W P C HQ. apply ok_bind. eapply ok_mono; [|eapply call_spec; try done]. by intros K' [[r bs] v'] Hp; apply HQ.
Qed.

(** The answer to a request that has been read. *)
Lemma answer_spec v K fr : boundary false K -> wf K -> pos_ok v K -> hs_of K = ([], None, 1) -> k_in K !! 0%nat = Some fr ->
  ok K (do* (r, _, _) := call_prog v (CWrite (f (slice 0 256 fr))) in Ret (Some r))%ivc (fun K _ => answers f K).
Proof.
  intros B W P H Hfr. apply ok_call; try done. intros K' r bs v' (_ & _ & B' & Hin & Hs & _). cbn. split; [done|].
  destruct (hs_out _ B) as [_ E2], (hs_out _ B') as [E3 E4]. rewrite H, E3 in Hs. rewrite E2, E4 in Hin.
  destruct Hin as [Hin|[?|[? _]]]; [|done..]. inversion Hs as [| | |? ? ? ? Hc|? ? ? ? ? ? Hc|? ? ? ? Hc|? ? ? Ht|? ? ? Hq| | |]; subst.
  - right. exists fr. split; [by eapply prefix_lookup_Some|done].
  - by left.
  - by inversion Hq.
Qed.

Lemma serve_spec v K polls : boundary false K -> wf K -> pos_ok v K -> hs_of K = no_traffic ->
  ok K (serve f v polls) (fun K _ => answers f K).
Proof.
  revert v K. induction polls as [|polls IH]; intros v K B W P H; [by apply idle_answers|]. cbn [serve].
  apply ok_call; try done. intros K1 r bs v1 (P1 & W1 & B1 & _ & Hs1 & _). rewrite H in Hs1.
  assert (H1 : hs_of K1 = no_traffic) by (inversion Hs1; subst; try done; by inversion H0).
  destruct (negb (r =? 0)); [by apply IH|].
  apply ok_call; try done. intros K2 r2 req v2 (P2 & W2 & B2 & Hin2 & Hs2 & _). rewrite H1 in Hs2.
  destruct (hs_out _ B2) as [E3 E4]. rewrite E4 in Hs2.
  remember (hs_of K2) as h2 eqn:Eh2. inversion Hs2; subst; try done.
  - change (256 <? 0) with false. cbv iota. by apply answer_spec.
  - destruct (Z.ltb_spec r2 0); [|lia]. by apply IH.
  - by inversion H0.
Qed.

Lemma serve_answers polls : ok (fresh (PEst false)) (serve f (endpoint MASTER SLAVE 1 256) polls) (fun K _ => answers f K).
Proof. apply serve_spec; try done. split; try done. by right. Qed.
End Serve.

Definition bpmp_chan : channel := mkChan 0 0 0 [replicate 256 0].
Definition bpmp_mem : shmem := {[ MASTER := bpmp_chan; SLAVE := bpmp_chan ]}.

Lemma bpmp_idle : idle 1 256 bpmp_chan.
Proof. repeat split. repeat constructor. Qed.


(** The session above, step by step in turn: the answer arrives. *)
Example session_run :
  (let* (_, p, q) := interleave bpmp_mem (session bpmp_endpoint 9 [1; 2; 3; 4] true 4 22)
    (serve (fun req => slice 0 8 req ++ [5; 6; 7; 8]) (endpoint MASTER SLAVE 1 256) 9) (alternate 90) in
   match p, q with Ret r, Ret u => Ok (r, u) | _, _ => Ok (None, None) end) =
  Ok (Some (TEGRABL_NO_ERROR, [5; 6; 7; 8]), Some 12).
Proof. vm_compute. reflexivity. Qed.
