(* ===== verification/BpmpLate.v ===== *)
(** A request whose answer comes too late, and requests that are too long. *)

From S2P Require Import Prelude TegraError Ivc IvcLogic IvcCalls IvcSystem IvcProps IvcQueue Bpmp BpmpFacts BpmpProps.

(** ** Requests while the other end is idle *)

Section Late.
Context (N F : Z).
Hypothesis HN : 0 < N < 2 ^ 32.
Hypothesis HF : 0 <= F < 2 ^ 31.

(** A connected endpoint of the pair with channels [c], to the peer, and [d]. *)
Record linked (v : ivc) (m : shmem) (c d : channel) (l l' : list (list Z)) : Prop := {
  ln_n : nframes v = N;
  ln_f : frame_size v = F;
  ln_ne : tx_channel v <> rx_channel v;
  ln_c : m !! tx_channel v = Some c;
  ln_d : m !! rx_channel v = Some d;
  ln_s : ch_s c = ivc_state_established;
  ln_tx : exists rp, holds N F c (w_pos v) rp l;
  ln_rx : exists wp, holds N F d wp (r_pos v) l'
}.

(** The channel with one more frame. *)
Definition sent_chan (c : channel) (wp : Z) (fr : list Z) : channel :=
  mkChan (u32 (ch_w c + 1)) (ch_s c) (ch_r c) (<[Z.to_nat wp := fr]> (ch_frames c)).

(** The test of the waiting loop. *)
Lemma run_acked v m n c d l l' : linked v m c d l l' ->
  run (tegrabl_ccplex_bpmp_slave_acked v) m n =
  Ok (match l' with [] => (TEGRABL_ERR_INVALID_STATE, None) | _ => (TEGRABL_NO_ERROR, Some (rx_channel v, r_pos v)) end, m, n).
Proof.
  intros [Hn Hf Hne Hc Hd Hs _ [wp H]]. unfold tegrabl_ccplex_bpmp_slave_acked, tegra_ivc_read_get_next_frame.
  pose proof (hd_count _ _ _ _ _ _ H) as H1. pose proof (hd_cap _ _ _ _ _ _ H).
  rewrite run_bind, run_bind, (run_check_read N _ _ _ _ _ Hc Hd Hn), Hs, Z.eqb_refl by lia.
  destruct (hd_range _ _ _ _ _ _ H) as [Rw Rr]. destruct l' as [|x l'].
  - rewrite (u32_zero_diff _ _ Rw Rr H1), Z.eqb_refl. done.
  - destruct (Z.eqb_spec (ch_w d) (ch_r d)) as [E|_]; [|done].
    rewrite E, Z.sub_diag in H1. change (u32 0) with 0 in H1. unfold zlen in H1. cbn in H1. lia.
Qed.

Lemma run_wait v m n c d l l' k : linked v m c d l l' ->
  run (wait_loop v k) m n =
  Ok (match l' with [] => (TEGRABL_ERR_TIMEOUT, None) | _ => (TEGRABL_NO_ERROR, Some (rx_channel v, r_pos v)) end, m, n).
Proof.
  intros L. induction k as [|k IH]; cbn [wait_loop]; rewrite run_bind, (run_acked _ _ _ _ _ _ _ L); by destruct l'.
Qed.

Lemma run_outframe v m n c d l l' : linked v m c d l l' -> zlen l < N ->
  run (tegrabl_ccplex_bpmp_getnext_outframe v) m n = Ok (Some (tx_channel v, w_pos v), m, n).
Proof.
  intros [Hn Hf Hne Hc Hd Hs [rp H] _] Hl. unfold tegrabl_ccplex_bpmp_getnext_outframe, tegra_ivc_write_get_next_frame.
  rewrite run_bind, (run_check_write N _ _ _ _ Hc Hn), Hs, Z.eqb_refl, (hd_count _ _ _ _ _ _ H).
  by destruct (Z.ltb_spec (zlen l) N); [|lia].
Qed.

Lemma run_store_frame {X} ch frame off bs (q : unit -> prog X) m n c old : m !! ch = Some c ->
  ch_frames c !! Z.to_nat frame = Some old -> 0 <= frame -> 0 <= off -> off + zlen bs <= zlen old ->
  run (prog_bind (StoreFrame ch frame off bs (Ret tt)) q) m n =
  run (q tt) (<[ch := mkChan (ch_w c) (ch_s c) (ch_r c) (<[Z.to_nat frame := splice off bs old]> (ch_frames c))]> m) n.
Proof.
  intros Hm Hf H0 Ho Hb. cbn [prog_bind run]. rewrite Hm, Hf.
  by rewrite !(proj2 (Z.leb_le _ _)) by lia.
Qed.

Lemma run_fill {X} ch frame mrq out (q : prog X) m n c old : m !! ch = Some c ->
  ch_frames c !! Z.to_nat frame = Some old -> 0 <= frame -> zlen old = F -> offset_data + zlen out <= F ->
  run (do* _ := StoreFrame ch frame 0 (le_bytes 4 mrq) (Ret tt) in
       do* _ := StoreFrame ch frame offset_flags (le_bytes 4 FLAG_DO_ACK) (Ret tt) in
       do* _ := StoreFrame ch frame offset_data out (Ret tt) in q)%ivc m n =
  run q (<[ch := mkChan (ch_w c) (ch_s c) (ch_r c) (<[Z.to_nat frame := request mrq out old]> (ch_frames c))]> m) n.
Proof.
  intros Hm Hf H0 Hz Ho. pose proof (zlen_nonneg out). pose proof (lookup_lt_Some _ _ _ Hf) as Hlt.
  assert (H4 : forall v, zlen (le_bytes 4 v) = 4) by (intros; unfold zlen; by rewrite le_bytes_length).
  unfold offset_data, offset_flags in *.
  rewrite (run_store_frame _ _ _ _ _ _ _ _ _ Hm Hf) by (rewrite ?H4; lia).
  rewrite (run_store_frame _ _ _ _ _ _ _ _ (splice 0 (le_bytes 4 mrq) old) (lookup_insert_eq _ _ _));
    cbn [ch_frames ch_w ch_s ch_r]; rewrite ?list_lookup_insert_eq, ?H4, ?splice_length, ?H4 by (rewrite ?H4; done || lia);
    try done; try lia.
  rewrite (run_store_frame _ _ _ _ _ _ _ _ (splice 4 (le_bytes 4 FLAG_DO_ACK) (splice 0 (le_bytes 4 mrq) old)) (lookup_insert_eq _ _ _));
    cbn [ch_frames ch_w ch_s ch_r].
  - by rewrite !insert_insert_eq, !list_insert_insert_eq.
  - by rewrite list_lookup_insert_eq by (by rewrite length_insert).
  - done.
  - lia.
  - rewrite splice_length; rewrite ?splice_length, ?H4; rewrite ?H4; lia.
Qed.

Lemma padded_full fr : zlen fr = F -> padded F fr = fr.
Proof. intros Hz. unfold padded. rewrite Hz, Z.sub_diag. cbn. by rewrite app_nil_r. Qed.

(** The part of a request before the wait. *)
Lemma run_send wait v m n c d l l' out p_in size_in mrq : linked v m c d l l' -> zlen l < N -> offset_data + zlen out <= F ->
  exists req, zlen req = F /\
    slice 0 (offset_data + zlen out) req = le_bytes 4 mrq ++ le_bytes 4 FLAG_DO_ACK ++ out /\
    let v' := set_pos v ((w_pos v + 1) mod N) (r_pos v) in
    let m' := <[tx_channel v := sent_chan c (w_pos v) req]> m in
    linked v' m' (sent_chan c (w_pos v) req) d (l ++ [req]) l' /\
    exists k, run (bpmp_xfer wait v (Some out) p_in size_in mrq) m n =
      run (do* (e, ib) := wait v' in
           if negb (e =? TEGRABL_NO_ERROR) then Ret (TEGRABL_ERR_INVALID, [], v')
           else
             match ib with
             | None => Ret (TEGRABL_ERR_INVALID, [], v')
             | Some (ch, frame) =>
                 do* buf := if negb (size_in =? 0) && p_in then LoadFrame ch frame offset_data size_in Ret else Ret [] in
                 do* (e, v) := tegrabl_ccplex_bpmp_free_master v' in
                 if negb (e =? TEGRABL_NO_ERROR) then Ret (TEGRABL_ERR_INVALID, buf, v)
                 else Ret (TEGRABL_NO_ERROR, buf, v)
             end)%ivc m' k.
Proof.
  intros L Hl Ho. pose proof L as [Hn Hf Hne Hc Hd Hs [rp H] [wp H']]. pose proof H as [H0 H1 H2 H3 H4 H5 H6].
  pose proof (zlen_nonneg l).
  assert (Hw : 0 <= w_pos v < N) by (rewrite H4; apply Z.mod_pos_bound; lia).
  destruct (shape_lookup N F HN c (w_pos v) H5 ltac:(lia)) as (fr & Hfr & Hz). rewrite Z.mod_small in Hfr by lia.
  pose proof (request_len F mrq out fr Hz Ho) as Hreq. exists (request mrq out fr).
  split; [done|]. split; [apply request_slice; lia|]. cbv zeta. split.
  - split; cbn [set_pos nframes frame_size tx_channel rx_channel w_pos r_pos]; try done.
    + apply lookup_insert_eq.
    + by rewrite lookup_insert_ne.
    + exists rp. rewrite <- (padded_full _ Hreq). apply holds_send; [done|done|done|lia].
    + by exists wp.
  - eexists. unfold bpmp_xfer. rewrite run_bind, (run_outframe _ _ _ _ _ _ _ L Hl). cbn [res_bind].
    rewrite (run_fill _ _ _ _ _ _ _ c fr) by (done || lia).
    unfold xfer_finish, tegrabl_ccpelx_bpmp_signal_slave, tegra_ivc_write_advance.
    rewrite run_bind, run_bind, run_bind, (run_check_write N _ _ _ _ (lookup_insert_eq _ _ _) Hn).
    cbn [ch_s ch_w ch_r]. rewrite Hs, Z.eqb_refl, H1. destruct (Z.ltb_spec (zlen l) N); [|lia].
    cbn [res_bind Z.eqb negb].
    rewrite (run_advance_tx N HN v _ _ _ (zlen l) (fun v => (0, v)) (lookup_insert_eq _ _ _) Hn) by (cbn; lia).
    cbn [res_bind run ch_w ch_s ch_r ch_frames]. rewrite insert_insert_eq. unfold sent_chan. rewrite Hs. reflexivity.
Qed.

(** No answer: the request stays in its frame. *)
Lemma run_xfer_silent v m n c d l out p_in size_in mrq : linked v m c d l [] -> zlen l < N -> offset_data + zlen out <= F ->
  exists req k, zlen req = F /\
    slice 0 (offset_data + zlen out) req = le_bytes 4 mrq ++ le_bytes 4 FLAG_DO_ACK ++ out /\
    let v' := set_pos v ((w_pos v + 1) mod N) (r_pos v) in
    let m' := <[tx_channel v := sent_chan c (w_pos v) req]> m in
    linked v' m' (sent_chan c (w_pos v) req) d (l ++ [req]) [] /\
    run (tegrabl_ccplex_bpmp_xfer v (Some out) p_in size_in mrq) m n = Ok (TEGRABL_ERR_INVALID, [], v', m', k).
Proof.
  intros L Hl Ho. destruct (run_send tegrabl_ccplex_bpmp_wait_for_slave_ack v m n c d l [] out p_in size_in mrq L Hl Ho)
    as (req & Hz & Hsl & L' & k & E). exists req, k. split; [done|]. split; [done|]. cbv zeta in *. split; [done|].
  unfold tegrabl_ccplex_bpmp_xfer. rewrite E, run_bind. unfold tegrabl_ccplex_bpmp_wait_for_slave_ack.
  by rewrite (run_wait _ _ _ _ _ _ _ _ L').
Qed.

(** A frame of the peer waits: it is taken for the answer. *)
Lemma run_xfer_waiting v m n c d l x l' out size_in mrq : linked v m c d l (x :: l') -> zlen l < N ->
  offset_data + zlen out <= F -> 0 < size_in -> offset_data + size_in <= F ->
  exists v' m' k, run (tegrabl_ccplex_bpmp_xfer v (Some out) true size_in mrq) m n =
    Ok (TEGRABL_NO_ERROR, slice offset_data size_in x, v', m', k).
Proof.
  intros L Hl Ho Hsz Hsz'.
  destruct (run_send tegrabl_ccplex_bpmp_wait_for_slave_ack v m n c d l (x :: l') out true size_in mrq L Hl Ho)
    as (req & Hz & Hsl & L' & k & E). cbv zeta in *. unfold tegrabl_ccplex_bpmp_xfer. rewrite E, run_bind.
  unfold tegrabl_ccplex_bpmp_wait_for_slave_ack. rewrite (run_wait _ _ _ _ _ _ _ _ L'). clear E.
  destruct L' as [Hn Hf Hne Hc Hd Hs _ [wp H]]. set (v' := set_pos v _ _) in *. set (m' := <[tx_channel v := _]> m) in *.
  destruct (holds_receive N F HN _ _ _ _ _ (ch_s d) H) as (Hfr & Hx & _). pose proof H as [H0 H1 H2 H3 H4 H5 H6].
  assert (Hpos : 0 < zlen (x :: l')) by (unfold zlen; cbn; lia).
  cbn [res_bind]. rewrite Z.eqb_refl. cbn [negb]. destruct (Z.eqb_spec size_in 0); [lia|]. cbn [negb andb prog_bind run].
  rewrite Hd, Hfr, Hx. rewrite !(proj2 (Z.leb_le _ _)) by (unfold offset_data in *; lia). cbn [andb].
  unfold tegrabl_ccplex_bpmp_free_master, tegra_ivc_read_advance.
  rewrite run_bind, run_bind, run_bind, (run_check_read N _ _ _ _ _ Hc Hd Hn), Hs, Z.eqb_refl by lia.
  destruct (Z.eqb_spec (ch_w d) (ch_r d)) as [E|_]; [rewrite E, Z.sub_diag in H1; change (u32 0) with 0 in H1; lia|].
  cbn [res_bind Z.eqb negb]. rewrite (run_advance_rx N HN v' _ _ d _ (fun v => (0, v)) Hd Hn H1) by lia.
  cbn. by eexists _, _, _.
Qed.
End Late.

(** ** The answer to another request *)

(** The firmware takes the request and answers it. *)
Definition firmware_turn (f : list Z -> list Z) (v : ivc) : prog (Z * ivc) :=
  (do* (_, req, v) := tegra_ivc_read v 256 in tegra_ivc_write v (f req))%ivc.

Lemma idle_holds N F c : 0 < N -> idle N F c -> holds N F c 0 0 [].
Proof.
  intros HN (A1 & A2 & A3 & A4). split; rewrite ?A1, ?A3; try done; try (change (zlen []) with 0; lia).
Qed.

Lemma one_frame F c wp rp l : holds 1 F c wp rp l -> wp = 0 /\ rp = 0.
Proof. intros [H0 H1 H2 H3 H4 H5 H6]. rewrite H4, Z.mod_1_r. lia. Qed.

(** The firmware has read the frame of one channel and filled that of the other. *)
Lemma run_firmware f v m c d req : linked 1 256 v m c d [req] [] -> ch_s d = ivc_state_established ->
  tx_channel v = MASTER -> rx_channel v = SLAVE -> zlen (f (slice 0 256 req)) <= 256 ->
  exists r vf m2 k2 c' d', run (firmware_turn f (endpoint MASTER SLAVE 1 256)) m 0 = Ok (r, vf, m2, k2) /\
    linked 1 256 v m2 c' d' [] [padded 256 (f (slice 0 256 req))].
Proof.
  intros L Hsd Et Er Hf. pose proof L as [Hn Hfs Hne Hc Hd Hs [rp H] [wp H']].
  destruct (one_frame _ _ _ _ _ H) as [Ew ->], (one_frame _ _ _ _ _ H') as [-> Erp]. rewrite Et in Hc. rewrite Er in Hd.
  rewrite Ew in H. rewrite Erp in H'.
  destruct (holds_receive 1 256 ltac:(lia) _ _ _ _ _ (ch_s c) H) as (_ & _ & H2).
  unfold firmware_turn. set (vb := endpoint MASTER SLAVE 1 256).
  rewrite run_bind, (run_read 1 256 ltac:(lia) ltac:(lia) vb m 0 c d 0 req [] 256 Hd Hsd Hc eq_refl eq_refl H) by lia.
  cbn [res_bind]. set (vb' := set_pos vb _ _). cbn [rx_channel vb endpoint]. set (m1 := <[MASTER := _]> m).
  assert (Hd1 : m1 !! tx_channel vb' = Some d) by (unfold m1; by rewrite lookup_insert_ne).
  rewrite (run_write 1 256 ltac:(lia) ltac:(lia) vb' m1 _ d 0 [] (f (slice 0 256 req)) Hd1 Hsd eq_refl eq_refl H') by done.
  pose proof (holds_send 1 256 ltac:(lia) d 0 0 [] (f (slice 0 256 req)) (ch_s d) H' ltac:(done) Hf) as H3.
  eexists _, _, _, _, (mkChan (ch_w c) (ch_s c) (u32 (ch_r c + 1)) (ch_frames c)), _.
  split; [reflexivity|]. split; try done.
  - rewrite Et, lookup_insert_ne by done. apply lookup_insert_eq.
  - rewrite Er. apply lookup_insert_eq.
  - exists 0. rewrite Ew. exact H2.
  - exists 0. rewrite Erp. exact H3.
Qed.

(** A call that follows one whose answer came too late gets that answer: when
    the firmware answers the first request only after the client has given up, the
    second call returns without an error and with the answer to the first. *)
Theorem bpmp_late_answer f m cA cB out1 out2 mrq1 mrq2 size_in :
  m !! MASTER = Some cA -> m !! SLAVE = Some cB -> idle 1 256 cA -> idle 1 256 cB ->
  offset_data + zlen out1 <= 256 -> offset_data + zlen out2 <= 256 -> (forall req, zlen (f req) <= 256) ->
  0 < size_in -> offset_data + size_in <= 256 ->
  exists req v1 m1 k1 r vf m2 k2 v3 m3 k3,
    run (tegrabl_ccplex_bpmp_xfer bpmp_endpoint (Some out1) true size_in mrq1) m 0 = Ok (TEGRABL_ERR_INVALID, [], v1, m1, k1) /\
    slice 0 (offset_data + zlen out1) req = le_bytes 4 mrq1 ++ le_bytes 4 FLAG_DO_ACK ++ out1 /\
    run (firmware_turn f (endpoint MASTER SLAVE 1 256)) m1 0 = Ok (r, vf, m2, k2) /\
    run (tegrabl_ccplex_bpmp_xfer v1 (Some out2) true size_in mrq2) m2 0 =
      Ok (TEGRABL_NO_ERROR, slice offset_data size_in (padded 256 (f req)), v3, m3, k3).
Proof.
  intros HA HB IA IB Ho1 Ho2 Hf Hsz Hsz'.
  assert (L0 : linked 1 256 bpmp_endpoint m cA cB [] []).
  { split; try done; [apply IA|exists 0|exists 0]; by apply idle_holds. }
  destruct (run_xfer_silent 1 256 ltac:(lia) _ _ 0 _ _ _ out1 true size_in mrq1 L0 ltac:(done) Ho1)
    as (req & k1 & Hz & Hsl & L1 & E1). cbv zeta in L1, E1.
  destruct (run_firmware f _ _ _ _ _ L1) as (r & vf & m2 & k2 & c' & d' & E2 & L2); [apply IB|done|done|apply Hf|].
  destruct (run_xfer_waiting 1 256 ltac:(lia) _ _ 0 _ _ _ _ _ out2 size_in mrq2 L2 ltac:(done) Ho2 Hsz Hsz')
    as (v3 & m3 & k3 & E3).
  assert (Ereq : slice 0 256 req = req) by (rewrite <- Hz at 1; apply slice_all). rewrite Ereq in E3.
  by exists req; do 10 eexists; eauto.
Qed.

Lemma bpmp_late_answer_witness : exists req v1 m1 k1 r vf m2 k2 v3 m3 k3,
  run (tegrabl_ccplex_bpmp_xfer bpmp_endpoint (Some [1; 2]) true 2 22) bpmp_mem 0 = Ok (TEGRABL_ERR_INVALID, [], v1, m1, k1) /\
  slice 0 (offset_data + zlen [1; 2]) req = le_bytes 4 22 ++ le_bytes 4 FLAG_DO_ACK ++ [1; 2] /\
  run (firmware_turn (firstn 12) (endpoint MASTER SLAVE 1 256)) m1 0 = Ok (r, vf, m2, k2) /\
  run (tegrabl_ccplex_bpmp_xfer v1 (Some [3; 4]) true 2 23) m2 0 =
    Ok (TEGRABL_NO_ERROR, slice offset_data 2 (padded 256 (firstn 12 req)), v3, m3, k3).
Proof.
  apply (bpmp_late_answer (firstn 12) bpmp_mem bpmp_chan bpmp_chan [1; 2] [3; 4] 22 23 2);
    try reflexivity; try exact bpmp_idle; try (unfold offset_data, zlen; cbn; lia).
  intros req. unfold zlen. rewrite length_firstn. lia.
Defined.

(** The size of a request is not compared with the frame: the copy of one of
    more than [frame_size] - 8 bytes leaves the frame. *)
Theorem bpmp_request_overruns N F v m n c d l l' out p_in size_in mrq :
  0 < N < 2 ^ 32 -> 0 <= F < 2 ^ 31 -> linked N F v m c d l l' -> zlen l < N -> offset_data <= F < offset_data + zlen out ->
  run (tegrabl_ccplex_bpmp_xfer v (Some out) p_in size_in mrq) m n = Stuck OutOfBounds.
Proof.
  intros HN HF L Hl Ho. pose proof L as [Hn Hf Hne Hc Hd Hs [rp H] _]. pose proof H as [H0 H1 H2 H3 H4 H5 H6].
  pose proof (zlen_nonneg l).
  assert (Hw : 0 <= w_pos v < N) by (rewrite H4; apply Z.mod_pos_bound; lia).
  destruct (shape_lookup N F HN c (w_pos v) H5 ltac:(lia)) as (fr & Hfr & Hz). rewrite Z.mod_small in Hfr by lia.
  pose proof (lookup_lt_Some _ _ _ Hfr) as Hlt. unfold offset_data in Ho.
  assert (B4 : forall x, zlen (le_bytes 4 x) = 4) by (intros; unfold zlen; by rewrite le_bytes_length).
  unfold tegrabl_ccplex_bpmp_xfer, bpmp_xfer. rewrite run_bind, (run_outframe N F _ _ _ _ _ _ _ L Hl). cbn [res_bind].
  rewrite (run_store_frame _ _ _ _ _ _ _ c fr Hc Hfr) by (rewrite ?B4; lia).
  erewrite (run_store_frame _ _ _ _ _ _ _ _ (splice 0 (le_bytes 4 mrq) fr) (lookup_insert_eq _ _ _));
    [|cbn; by rewrite list_lookup_insert_eq|lia|unfold offset_flags; lia|
      unfold offset_flags; rewrite ?splice_length, ?B4; rewrite ?B4; lia].
  cbn [prog_bind run ch_w ch_s ch_r ch_frames]. rewrite lookup_insert_eq. cbn [ch_frames].
  rewrite list_lookup_insert_eq by (by rewrite length_insert).
  rewrite splice_length; rewrite ?splice_length, ?B4; rewrite ?B4; unfold offset_flags, offset_data; try lia.
  destruct (Z.leb_spec (8 + zlen out) (zlen fr)); [lia|]. by rewrite andb_false_r.
Qed.

Lemma bpmp_request_overruns_witness :
  run (tegrabl_ccplex_bpmp_xfer bpmp_endpoint (Some (replicate 249 7)) false 0 22) bpmp_mem 0 = Stuck OutOfBounds.
Proof.
  apply (bpmp_request_overruns 1 256 bpmp_endpoint bpmp_mem 0 bpmp_chan bpmp_chan [] []); try (unfold offset_data, zlen; cbn; lia).
  split; try reflexivity; [discriminate|exists 0|exists 0]; apply idle_holds; try lia; exact bpmp_idle.
Defined.
