(* ===== verification/Sparse.v ===== *)
(** Sparse images (lib/sparse): the state machine that unpacks an image as its
    bytes arrive (tegrabl_unsparse.c) and the routines that build one
    (tegrabl_sparse.c).

    The headers are kept as the bytes that are copied into them.  Where the
    unpacked data goes is the caller's business: a writer and a seeker, the class
    [ImageSink].  The CRC of an image is compiled out (TEGRABL_CONFIG_ENABLE_SPARSE_CRC32
    is not set anywhere). *)

From S2P Require Import Prelude TegraError Utils.

(** [TEGRABL_ERROR] and [TEGRABL_SET_HIGHEST_MODULE] of this module. *)
Definition SP_ERR (reason aux : Z) : Z := tegrabl_error_value TEGRABL_ERR_SPARSE aux reason.
Definition SP_SET_HIGHEST (error : Z) : Z := tegrabl_err_set_highest_module error TEGRABL_ERR_SPARSE.

Definition TEGRABL_SPARSE_HEADER_MAGIC : Z := 0xED26FF3A.
Definition TEGRABL_SPARSE_HEADER_MAJOR_VERSION : Z := 1.
Definition SPARSE_MAX_LOCAL_BUFFER : Z := 1024.

Definition TEGRABL_SPARSE_CHUNK_TYPE_RAW : Z := 0xCAC1.
Definition TEGRABL_SPARSE_CHUNK_TYPE_FILL : Z := 0xCAC2.
Definition TEGRABL_SPARSE_CHUNK_TYPE_DONT_CARE : Z := 0xCAC3.
Definition TEGRABL_SPARSE_CHUNK_TYPE_CRC : Z := 0xCAC4.

Definition TEGRABL_UNSPARSE_PARTIAL_IMAGE_HEADER : Z := 1.
Definition TEGRABL_UNSPARSE_PARTIAL_CHUNK_HEADER : Z := 2.
Definition TEGRABL_UNSPARSE_PARTIAL_CHUNK_RAW : Z := 3.
Definition TEGRABL_UNSPARSE_PARTIAL_CHUNK_FILL : Z := 4.
Definition TEGRABL_UNSPARSE_PARTIAL_CHUNK_DONT_CARE : Z := 5.
Definition TEGRABL_UNSPARSE_PARTIAL_CHUNK_CRC : Z := 6.

(** ** The headers *)

Definition sizeof_image_header : Z := 28.
Definition sizeof_chunk_header : Z := 12.

Definition ih_magic (h : list Z) : Z := le_val (slice 0 4 h).
Definition ih_major_version (h : list Z) : Z := le_val (slice 4 2 h).
Definition ih_chunk_hdr_sz (h : list Z) : Z := le_val (slice 10 2 h).
Definition ih_blk_sz (h : list Z) : Z := le_val (slice 12 4 h).
Definition ih_total_blks (h : list Z) : Z := le_val (slice 16 4 h).
Definition ih_total_chunks (h : list Z) : Z := le_val (slice 20 4 h).

Definition ch_chunk_type (h : list Z) : Z := le_val (slice 0 2 h).
Definition ch_chunk_sz (h : list Z) : Z := le_val (slice 4 4 h).
Definition ch_total_sz (h : list Z) : Z := le_val (slice 8 4 h).

Definition zero_image : list Z := replicate 28 0.
Definition zero_chunk : list Z := replicate 12 0.

(** "Checks if buffer passed has sparse image header." *)
Definition tegrabl_sparse_image_check (data : list Z) : bool :=
  if zlen data <? 4 then false else le_val (slice 0 4 data) =? TEGRABL_SPARSE_HEADER_MAGIC.

Definition tegrabl_sparse_validate_header (image_header : list Z) (max_unsparse_size : Z) : Z :=
  if negb (ih_major_version image_header =? TEGRABL_SPARSE_HEADER_MAJOR_VERSION)
  then SP_ERR TEGRABL_ERR_INVALID_VERSION 0
  else if max_unsparse_size <? u64 (ih_blk_sz image_header * ih_total_blks image_header)
  then SP_ERR TEGRABL_ERR_OVERFLOW 0
  else TEGRABL_NO_ERROR.

Definition tegrabl_sparse_validate_chunk_header (image_header chunk_header : list Z) : Z :=
  let type := ch_chunk_type chunk_header in
  if type =? TEGRABL_SPARSE_CHUNK_TYPE_RAW then
    if negb (ch_total_sz chunk_header =?
             u32 (ih_chunk_hdr_sz image_header + u32 (ch_chunk_sz chunk_header * ih_blk_sz image_header)))
    then SP_ERR TEGRABL_ERR_INVALID_CONFIG 0 else TEGRABL_NO_ERROR
  else if type =? TEGRABL_SPARSE_CHUNK_TYPE_DONT_CARE then
    if negb (ch_total_sz chunk_header =? ih_chunk_hdr_sz image_header)
    then SP_ERR TEGRABL_ERR_INVALID_CONFIG 1 else TEGRABL_NO_ERROR
  else if type =? TEGRABL_SPARSE_CHUNK_TYPE_FILL then
    if negb (ch_total_sz chunk_header =? ih_chunk_hdr_sz image_header + 4)
    then SP_ERR TEGRABL_ERR_INVALID_CONFIG 2 else TEGRABL_NO_ERROR
  else if type =? TEGRABL_SPARSE_CHUNK_TYPE_CRC then TEGRABL_NO_ERROR
  else SP_ERR TEGRABL_ERR_INVALID 0.

(** ** Where the data goes *)

(** The functions [writer] and [seeker] with what they keep. *)
Class ImageSink (W : Type) := {
  sk_write : W -> Z -> list Z -> Z -> res (Z * W);
  sk_seek : W -> Z -> res (Z * W)
}.

(** ** The state machine *)

(** [struct tegrabl_unsparse_state]; whether the functions are set. *)
Record unsparse_state := mkUnsparse {
  us_state : Z; us_image : list Z; us_chunk : list Z; us_offset : Z; us_remaining : Z;
  us_max_unsparse_size : Z; us_fill : list Z; us_processed : Z; us_writer : bool; us_seeker : bool
}.

(** The error, and the state unless the parameters are bad. *)
Definition tegrabl_sparse_init_unsparse_state (us : bool) (max_unsparse_size : Z) (writer seeker : bool) :
    Z * option unsparse_state :=
  if negb us || negb writer || negb seeker || (max_unsparse_size =? 0)
  then (SP_ERR TEGRABL_ERR_BAD_PARAMETER 0, None)
  else
    (TEGRABL_NO_ERROR, Some (mkUnsparse TEGRABL_UNSPARSE_PARTIAL_IMAGE_HEADER zero_image zero_chunk 0
       sizeof_image_header max_unsparse_size [0; 0; 0; 0] 0 writer seeker)).

(** [memcpy] of the first [size] bytes of [src] to offset [off] of an object. *)
Definition copy_to (obj : list Z) (off : Z) (src : list Z) (size : Z) : res (list Z) :=
  if (0 <=? off) && (off + size <=? zlen obj) then Ok (splice off (slice 0 size src) obj) else Stuck OutOfBounds.

Section Machine.
Context {W : Type} `{ImageSink W}.
(** The address of the array [buffer] of the routine. *)
Context (local_buffer : Z).

(** The variables of the loop, the objects it changes, and the sink. *)
Record vars := mkVars {
  lv_state : Z; lv_remaining : Z; lv_offset : Z; lv_processed : Z; lv_buf : Z; lv_data : list Z;
  lv_image : list Z; lv_chunk : list Z; lv_fill : list Z; lv_sink : W
}.

(** The next chunk header is expected. *)
Definition expect_header (v : vars) (remaining : Z) (w : W) : vars :=
  mkVars TEGRABL_UNSPARSE_PARTIAL_CHUNK_HEADER remaining 0 (lv_processed v) (lv_buf v) (lv_data v)
    (lv_image v) zero_chunk (lv_fill v) w.

(** "remaining -= size; length -= size; offset += size; sparse_buffer += size" *)
Definition consume_input (v : vars) (size : Z) : vars :=
  mkVars (lv_state v) (u64 (lv_remaining v - size)) (u64 (lv_offset v + size)) (lv_processed v) (lv_buf v + size)
    (drop (Z.to_nat size) (lv_data v)) (lv_image v) (lv_chunk v) (lv_fill v) (lv_sink v).

Definition set_headers (v : vars) (image chunk : list Z) : vars :=
  mkVars (lv_state v) (lv_remaining v) (lv_offset v) (lv_processed v) (lv_buf v) (lv_data v) image chunk
    (lv_fill v) (lv_sink v).

(** The outcome of an iteration: leaving with an error, or going on. *)
Abbreviation verdict := ((Z * vars) + vars)%type.

Definition step_image_header (max_unsparse_size : Z) (v : vars) : res verdict :=
  let size := Z.min (zlen (lv_data v)) (lv_remaining v) in
  let* image := copy_to (lv_image v) (lv_offset v) (lv_data v) size in
  let v := consume_input (set_headers v image (lv_chunk v)) size in
  if negb (lv_remaining v =? 0) then Ok (inr v)
  else
    let error := tegrabl_sparse_validate_header (lv_image v) max_unsparse_size in
    if negb (error =? TEGRABL_NO_ERROR) then Ok (inl (error, v))
    else Ok (inr (expect_header v (ih_chunk_hdr_sz (lv_image v)) (lv_sink v))).

Definition step_chunk_header (v : vars) : res verdict :=
  let size := Z.min (zlen (lv_data v)) (lv_remaining v) in
  let* chunk :=
    if lv_offset v <? sizeof_chunk_header then copy_to (lv_chunk v) (lv_offset v) (lv_data v) size
    else Ok (lv_chunk v) in
  let v := consume_input (set_headers v (lv_image v) chunk) size in
  if negb (lv_remaining v =? 0) then Ok (inr v)
  else
    let error := tegrabl_sparse_validate_chunk_header (lv_image v) (lv_chunk v) in
    if negb (error =? TEGRABL_NO_ERROR) then Ok (inl (error, v))
    else
      let processed := u64 (lv_processed v + 1) in
      let set state offset remaining :=
        mkVars state remaining offset processed (lv_buf v) (lv_data v) (lv_image v) (lv_chunk v) (lv_fill v) (lv_sink v) in
      if ih_total_chunks (lv_image v) <? processed
      then Ok (inl (SP_ERR TEGRABL_ERR_OUT_OF_RANGE 0, set (lv_state v) (lv_offset v) (lv_remaining v)))
      else
        Ok (inr (set (ch_chunk_type (lv_chunk v) - TEGRABL_SPARSE_CHUNK_TYPE_RAW + TEGRABL_UNSPARSE_PARTIAL_CHUNK_RAW) 0
          (u64 (ch_chunk_sz (lv_chunk v) * ih_blk_sz (lv_image v))))).

Definition set_sink (v : vars) (w : W) : vars :=
  mkVars (lv_state v) (lv_remaining v) (lv_offset v) (lv_processed v) (lv_buf v) (lv_data v) (lv_image v) (lv_chunk v)
    (lv_fill v) w.

Definition step_raw (v : vars) : res verdict :=
  let size := Z.min (zlen (lv_data v)) (lv_remaining v) in
  let* (error, w) := sk_write (lv_sink v) (lv_buf v) (slice 0 size (lv_data v)) size in
  let v := set_sink v w in
  if negb (error =? TEGRABL_NO_ERROR) then Ok (inl (SP_SET_HIGHEST error, v))
  else
    let v := consume_input v size in
    if lv_remaining v =? 0 then Ok (inr (expect_header v sizeof_chunk_header (lv_sink v))) else Ok (inr v).

(** "while (remaining)": the array is written until nothing remains; [n] bounds the
    number of times. *)
Fixpoint fill_loop (n : nat) (buffer : list Z) (remaining : Z) (w : W) : res (Z * W) :=
  match n with
  | O => Ok (TEGRABL_NO_ERROR, w)
  | S n =>
      let size := Z.min remaining SPARSE_MAX_LOCAL_BUFFER in
      let* (error, w) := sk_write w local_buffer (slice 0 size buffer) size in
      if negb (error =? TEGRABL_NO_ERROR) then Ok (SP_SET_HIGHEST error, w)
      else fill_loop n buffer (remaining - size) w
  end.

(** The array filled with the word. *)
Definition fill_buffer (word : list Z) : list Z := concat (replicate 256 word).

Definition fill_rounds (remaining : Z) : nat := Z.to_nat ((remaining + 1023) / SPARSE_MAX_LOCAL_BUFFER).

Definition step_fill (v : vars) : res verdict :=
  let* v' :=
    if lv_offset v <? 4 then
      let size := Z.min (zlen (lv_data v)) 4 in
      let* word := copy_to (lv_fill v) (lv_offset v) (lv_data v) size in
      Ok (mkVars (lv_state v) (lv_remaining v) (u64 (lv_offset v + size)) (lv_processed v) (lv_buf v + size)
            (drop (Z.to_nat size) (lv_data v)) (lv_image v) (lv_chunk v) word (lv_sink v))
    else Ok v in
  if lv_offset v' <? 4 then Ok (inr v')
  else
    let* (error, w) := fill_loop (fill_rounds (lv_remaining v')) (fill_buffer (lv_fill v')) (lv_remaining v') (lv_sink v') in
    if negb (error =? TEGRABL_NO_ERROR) then Ok (inl (error, set_sink v' w))
    else Ok (inr (expect_header v' sizeof_chunk_header w)).

Definition step_dont_care (v : vars) : res verdict :=
  let* (error, w) := sk_seek (lv_sink v) (lv_remaining v) in
  if negb (error =? TEGRABL_NO_ERROR) then Ok (inl (SP_SET_HIGHEST error, set_sink v w))
  else Ok (inr (expect_header v sizeof_chunk_header w)).

(** An iteration.  The state of a CRC chunk only prints a message. *)
Definition unsparse_step (max_unsparse_size : Z) (v : vars) : res verdict :=
  if lv_state v =? TEGRABL_UNSPARSE_PARTIAL_IMAGE_HEADER then step_image_header max_unsparse_size v
  else if lv_state v =? TEGRABL_UNSPARSE_PARTIAL_CHUNK_HEADER then step_chunk_header v
  else if lv_state v =? TEGRABL_UNSPARSE_PARTIAL_CHUNK_RAW then step_raw v
  else if lv_state v =? TEGRABL_UNSPARSE_PARTIAL_CHUNK_FILL then step_fill v
  else if lv_state v =? TEGRABL_UNSPARSE_PARTIAL_CHUNK_DONT_CARE then step_dont_care v
  else if lv_state v =? TEGRABL_UNSPARSE_PARTIAL_CHUNK_CRC then Ok (inr v)
  else Ok (inl (SP_ERR TEGRABL_ERR_INVALID_STATE 0, v)).

(** "while (length || TEGRABL_UNSPARSE_PARTIAL_CHUNK_DONT_CARE == state)" *)
Definition goes_on (v : vars) : bool :=
  negb (zlen (lv_data v) =? 0) || (lv_state v =? TEGRABL_UNSPARSE_PARTIAL_CHUNK_DONT_CARE).

Fixpoint unsparse_loop (fuel : nat) (max_unsparse_size : Z) (v : vars) : res verdict :=
  if negb (goes_on v) then Ok (inr v)
  else
    match fuel with
    | O => Stuck OutOfFuel
    | S fuel =>
        let* o := unsparse_step max_unsparse_size v in
        match o with
        | inl e => Ok (inl e)
        | inr v => unsparse_loop fuel max_unsparse_size v
        end
    end.

(** The state and the sink after the call; the locals are stored only when the loop
    ends without an error. *)
Definition tegrabl_sparse_unsparse (fuel : nat) (us : option unsparse_state) (buff : Z) (data : list Z) (w : W) :
    res (Z * option unsparse_state * W) :=
  match us with
  | None => Ok (SP_ERR TEGRABL_ERR_BAD_PARAMETER 1, us, w)
  | Some s =>
      if (buff =? 0) || (zlen data =? 0) then Ok (SP_ERR TEGRABL_ERR_BAD_PARAMETER 1, us, w)
      else if negb (us_writer s) || negb (us_seeker s) then Ok (SP_ERR TEGRABL_ERR_NOT_INITIALIZED 0, us, w)
      else
        let* o := unsparse_loop fuel (us_max_unsparse_size s)
          (mkVars (us_state s) (us_remaining s) (us_offset s) (us_processed s) buff data (us_image s) (us_chunk s)
             (us_fill s) w) in
        match o with
        | inl (error, v) =>
            Ok (error, Some (mkUnsparse (us_state s) (lv_image v) (lv_chunk v) (us_offset s) (us_remaining s)
                  (us_max_unsparse_size s) (lv_fill v) (us_processed s) (us_writer s) (us_seeker s)), lv_sink v)
        | inr v =>
            Ok (TEGRABL_NO_ERROR, Some (mkUnsparse (lv_state v) (lv_image v) (lv_chunk v) (lv_offset v) (lv_remaining v)
                  (us_max_unsparse_size s) (lv_fill v) (lv_processed v) (us_writer s) (us_seeker s)), lv_sink v)
        end
  end.

(** Two iterations for every byte, and one for a chunk without data at the end. *)
Definition unsparse_fuel (data : list Z) : nat := 2 * length data + 2.
End Machine.

(** ** Building an image *)

(** [struct tegrabl_sparse_state]; the buffer as its bytes. *)
Record sparse_state := mkSparse { ss_buffer : option (list Z); ss_buffer_size : Z; ss_image_size : Z }.

Definition DIV_CEIL (n d : Z) : res Z := if d =? 0 then Stuck DivByZero else Ok (u32 (n + d - 1) / d).
Definition ROUND_UP (n w : Z) : res Z := let* c := DIV_CEIL n w in Ok (u32 (c * w)).

Definition new_header (block_size : Z) : list Z :=
  splice 12 (le_bytes 4 block_size) (splice 10 (le_bytes 2 sizeof_chunk_header)
    (splice 8 (le_bytes 2 sizeof_image_header) (splice 4 (le_bytes 2 1)
      (splice 0 (le_bytes 4 TEGRABL_SPARSE_HEADER_MAGIC) zero_image)))).

(** [allocated]: whether the heap has the memory. *)
Definition tegrabl_sparse_init (allocated : bool) (s : option sparse_state) (block_size : Z) : Z * option sparse_state :=
  match s with
  | None => (SP_ERR TEGRABL_ERR_INVALID 0, s)
  | Some _ =>
      if negb (block_size mod 4096 =? 0) then (SP_ERR TEGRABL_ERR_INVALID 0, s)
      else if negb allocated then (SP_ERR TEGRABL_ERR_NO_MEMORY 0, Some (mkSparse None 0 0))
      else (TEGRABL_NO_ERROR, Some (mkSparse (Some (new_header block_size)) sizeof_image_header 0))
  end.

(** The size of a chunk with its header, or [None] where the data does not fit the
    type. *)
Definition chunk_buffer_size (header : list Z) (type data_size write_size : Z) : res (option Z) :=
  let hdr := ih_chunk_hdr_sz header in
  if type =? TEGRABL_SPARSE_CHUNK_TYPE_RAW then
    let* r := ROUND_UP write_size (ih_blk_sz header) in
    Ok (if negb (data_size =? write_size) then None else Some (u32 (hdr + r)))
  else if (type =? TEGRABL_SPARSE_CHUNK_TYPE_FILL) || (type =? TEGRABL_SPARSE_CHUNK_TYPE_CRC) then
    Ok (if negb (data_size =? 4) then None else Some (u32 (hdr + 4)))
  else if type =? TEGRABL_SPARSE_CHUNK_TYPE_DONT_CARE then
    Ok (if negb (data_size =? 0) then None else Some hdr)
  else Ok None.

Definition new_chunk (type chunk_sz total_sz : Z) (buffer_size : Z) : list Z :=
  splice 8 (le_bytes 4 total_sz) (splice 4 (le_bytes 4 chunk_sz)
    (splice 0 (le_bytes 2 type) (replicate (Z.to_nat buffer_size) 0))).

(** The image header with one chunk more. *)
Definition count_chunk (image : list Z) (chunk_sz : Z) : list Z :=
  let image := splice 16 (le_bytes 4 (u32 (ih_total_blks image + chunk_sz))) image in
  splice 20 (le_bytes 4 (u32 (ih_total_chunks image + 1))) image.

(** [data] has [data_size] bytes.  [tegrabl_realloc] keeps the old content. *)
Definition tegrabl_sparse_add_chunk (allocated : bool) (s : option sparse_state) (type : Z) (data : list Z)
    (write_size : Z) : res (Z * option sparse_state) :=
  match s with
  | Some (mkSparse (Some buffer) size image_size) =>
      if (write_size =? 0) || (size =? 0) then Ok (SP_ERR TEGRABL_ERR_INVALID 0, s)
      else
        let* sz := chunk_buffer_size buffer type (zlen data) write_size in
        match sz with
        | None => Ok (SP_ERR TEGRABL_ERR_INVALID 0, s)
        | Some buffer_size =>
            if negb allocated then Ok (SP_ERR TEGRABL_ERR_NO_MEMORY 0, s)
            else
              let* chunk_sz := DIV_CEIL write_size (ih_blk_sz buffer) in
              if negb (12 <=? buffer_size) then Stuck OutOfBounds
              else
                let chunk := new_chunk type chunk_sz buffer_size buffer_size in
                let* chunk := copy_to chunk (ih_chunk_hdr_sz buffer) data (zlen data) in
                let* rounded := ROUND_UP write_size (ih_blk_sz buffer) in
                Ok (TEGRABL_NO_ERROR, Some (mkSparse (Some (count_chunk buffer chunk_sz ++ chunk))
                      (u64 (size + buffer_size)) (u64 (image_size + rounded))))
        end
  | _ => Ok (SP_ERR TEGRABL_ERR_INVALID 0, s)
  end.

(** The error, and [*buffer] and [*buffer_size]. *)
Definition tegrabl_sparse_get_buffer (s : option sparse_state) (buffer buffer_size : bool) : Z * option (list Z * Z) :=
  match s with
  | Some (mkSparse (Some b) size _) =>
      if (size =? 0) || negb buffer || negb buffer_size then (SP_ERR TEGRABL_ERR_INVALID 0, None)
      else (TEGRABL_NO_ERROR, Some (b, size))
  | _ => (SP_ERR TEGRABL_ERR_INVALID 0, None)
  end.
