(* ===== verification/SparseFacts.v ===== *)
(** What a sparse image stands for, and how the state machine gets there byte by
    byte. *)

From S2P Require Import Prelude TegraError Sparse.

(** ** Images *)

(** Data of [n] blocks; a word repeated over [n] blocks; [n] blocks left alone. *)
Inductive chunk := CRaw (bs : list Z) (n : Z) | CFill (word : list Z) (n : Z) | CSkip (n : Z).

Definition chunk_blocks (c : chunk) : Z := match c with CRaw _ n | CFill _ n | CSkip n => n end.
Definition payload (c : chunk) : list Z := match c with CRaw bs _ => bs | CFill w _ => w | CSkip _ => [] end.
Definition chunk_type (c : chunk) : Z :=
  match c with
  | CRaw _ _ => TEGRABL_SPARSE_CHUNK_TYPE_RAW
  | CFill _ _ => TEGRABL_SPARSE_CHUNK_TYPE_FILL
  | CSkip _ => TEGRABL_SPARSE_CHUNK_TYPE_DONT_CARE
  end.

Definition chunk_header (type reserved chunk_sz total_sz : Z) : list Z :=
  le_bytes 2 type ++ le_bytes 2 reserved ++ le_bytes 4 chunk_sz ++ le_bytes 4 total_sz.

Definition header_of (c : chunk) : list Z :=
  chunk_header (chunk_type c) 0 (chunk_blocks c) (sizeof_chunk_header + zlen (payload c)).

Definition encode_chunk (c : chunk) : list Z := header_of c ++ payload c.

Definition encode_chunks (cs : list chunk) : list Z := concat (map encode_chunk cs).

Definition image_header (minor blk total_blks total_chunks checksum : Z) : list Z :=
  le_bytes 4 TEGRABL_SPARSE_HEADER_MAGIC ++ le_bytes 2 1 ++ le_bytes 2 minor ++ le_bytes 2 sizeof_image_header ++
  le_bytes 2 sizeof_chunk_header ++ le_bytes 4 blk ++ le_bytes 4 total_blks ++ le_bytes 4 total_chunks ++
  le_bytes 4 checksum.

Definition total_blocks (cs : list chunk) : Z := foldr (fun c n => chunk_blocks c + n) 0 cs.

Definition encode_image (minor blk checksum : Z) (cs : list chunk) : list Z :=
  image_header minor blk (total_blocks cs) (zlen cs) checksum ++ encode_chunks cs.

(** A chunk of an image with blocks of [blk] bytes. *)
Definition chunk_ok (blk : Z) (c : chunk) : Prop :=
  0 <= chunk_blocks c < 2 ^ 32 /\
  match c with
  | CRaw bs n => 0 < n /\ zlen bs = n * blk /\ sizeof_chunk_header + zlen bs < 2 ^ 32
  | CFill w n => zlen w = 4
  | CSkip n => True
  end.

Record image_ok (blk : Z) (cs : list chunk) : Prop := {
  io_blk : 0 < blk < 2 ^ 32;
  io_align : blk mod 4 = 0;
  io_chunks : Forall (chunk_ok blk) cs;
  io_count : zlen cs < 2 ^ 32;
  io_blocks : total_blocks cs < 2 ^ 32
}.

(** ** What an image does to the data it is unpacked over *)

(** [k] bytes of a repeated word. *)
Definition pattern (word : list Z) (k : Z) : list Z := slice 0 k (concat (replicate (Z.to_nat ((k + 3) / 4)) word)).

Inductive effect := EWrite (bs : list Z) | EFill (word : list Z) (k : Z) | ESkip (k : Z).

Definition effect_of (blk : Z) (c : chunk) : effect :=
  match c with
  | CRaw bs _ => EWrite bs
  | CFill w n => EFill w (n * blk)
  | CSkip n => ESkip (n * blk)
  end.

Definition effect_size (e : effect) : Z := match e with EWrite bs => zlen bs | EFill _ k | ESkip k => k end.

(** The data and the position after an effect. *)
Definition apply_effect (x : list Z * Z) (e : effect) : list Z * Z :=
  let (l, pos) := x in
  match e with
  | EWrite bs => (splice pos bs l, pos + zlen bs)
  | EFill w k => (splice pos (pattern w k) l, pos + k)
  | ESkip k => (l, pos + k)
  end.

Definition apply_effects (x : list Z * Z) (es : list effect) : list Z * Z := foldl apply_effect x es.

(** [l] with the image unpacked over it from position [pos] on. *)
Definition unpacked (blk : Z) (cs : list chunk) (l : list Z) (pos : Z) : list Z :=
  (apply_effects (l, pos) (map (effect_of blk) cs)).1.

(** The bytes all effects cover, and the writes they take. *)
Definition effects_size (es : list effect) : Z := foldr (fun e n => effect_size e + n) 0 es.

Definition effect_writes (e : effect) : Z :=
  match e with EWrite _ => 1 | EFill _ k => Z.of_nat (fill_rounds k) | ESkip _ => 0 end.
Definition writes (es : list effect) : Z := foldr (fun e n => effect_writes e + n) 0 es.

(** ** A sink that keeps its promises *)

(** [sk_holds w r l pos]: the sink stands at [pos] of the data [l], with means [r]
    for writing, of which a write takes [sk_cost]. *)
Class SinkLaws (W : Type) `{ImageSink W} := {
  sk_holds : W -> Z -> list Z -> Z -> Prop;
  sk_cost : Z;
  sk_cost_nonneg : 0 <= sk_cost;
  sk_pos_nonneg w r l pos : sk_holds w r l pos -> 0 <= pos;
  sk_write_law w r l pos buf data len : sk_holds w r l pos -> 0 < buf -> 0 < len -> zlen data = len ->
    pos + len <= zlen l -> sk_cost <= r ->
    exists w', sk_write w buf data len = Ok (TEGRABL_NO_ERROR, w') /\
      sk_holds w' (r - sk_cost) (splice pos data l) (pos + len);
  sk_seek_law w r l pos n : sk_holds w r l pos -> 0 <= n -> pos + n <= zlen l ->
    exists w', sk_seek w n = Ok (TEGRABL_NO_ERROR, w') /\ sk_holds w' r l (pos + n)
}.

(** ** The fields of encoded headers *)

Section Headers.
Context (type reserved chunk_sz total_sz : Z).
Hypothesis Ht : 0 <= type < 2 ^ 16.
Hypothesis Hc : 0 <= chunk_sz < 2 ^ 32.
Hypothesis Hz : 0 <= total_sz < 2 ^ 32.

Lemma chunk_header_len : zlen (chunk_header type reserved chunk_sz total_sz) = 12.
Proof. reflexivity. Qed.

Lemma get_type : ch_chunk_type (chunk_header type reserved chunk_sz total_sz) = type.
Proof. apply (le_val_bytes 2). done. Qed.

Lemma get_chunk_sz : ch_chunk_sz (chunk_header type reserved chunk_sz total_sz) = chunk_sz.
Proof. apply (le_val_bytes 4). done. Qed.

Lemma get_total_sz : ch_total_sz (chunk_header type reserved chunk_sz total_sz) = total_sz.
Proof. apply (le_val_bytes 4). done. Qed.
End Headers.

Section ImageHeader.
Context (minor blk total count checksum : Z).
Hypothesis Hb : 0 <= blk < 2 ^ 32.
Hypothesis Ht : 0 <= total < 2 ^ 32.
Hypothesis Hc : 0 <= count < 2 ^ 32.

Notation H := (image_header minor blk total count checksum).

Lemma image_header_len : zlen H = 28.
Proof. reflexivity. Qed.

Lemma get_version : ih_major_version H = 1.
Proof. reflexivity. Qed.

Lemma get_chunk_hdr_sz : ih_chunk_hdr_sz H = 12.
Proof. reflexivity. Qed.

Lemma get_blk_sz : ih_blk_sz H = blk.
Proof. apply (le_val_bytes 4). done. Qed.

Lemma get_total_blks : ih_total_blks H = total.
Proof. apply (le_val_bytes 4). done. Qed.

Lemma get_total_chunks : ih_total_chunks H = count.
Proof. apply (le_val_bytes 4). done. Qed.

Lemma get_magic : ih_magic H = TEGRABL_SPARSE_HEADER_MAGIC.
Proof. reflexivity. Qed.
End ImageHeader.

(** ** Bytes *)

Lemma take_slice n (l : list Z) : slice 0 n l = take (Z.to_nat n) l.
Proof. unfold slice. by rewrite drop_0. Qed.

(** The input [d] and what follows it is [x] and what follows that. *)
Lemma input_take (d r x y : list Z) size : d ++ r = x ++ y -> 0 <= size <= zlen d -> size <= zlen x ->
  slice 0 size d = slice 0 size x /\ drop (Z.to_nat size) d ++ r = drop (Z.to_nat size) x ++ y.
Proof.
  intros E Hd Hx. unfold zlen in *. rewrite !take_slice.
  assert (E1 : take (Z.to_nat size) (d ++ r) = take (Z.to_nat size) (x ++ y)) by (by rewrite E).
  assert (E2 : drop (Z.to_nat size) (d ++ r) = drop (Z.to_nat size) (x ++ y)) by (by rewrite E).
  rewrite !take_app_le in E1 by lia. rewrite !drop_app_le in E2 by lia. done.
Qed.

(** An object of which the first [j] bytes have been received. *)
Definition received_part (h z : list Z) (j : Z) : list Z := take (Z.to_nat j) h ++ drop (Z.to_nat j) z.

Lemma received_len h z j : zlen h = zlen z -> zlen (received_part h z j) = zlen z.
Proof. intros E. unfold received_part, zlen in *. rewrite length_app, length_take, length_drop. lia. Qed.

Lemma received_all h z : zlen h = zlen z -> received_part h z (zlen h) = h.
Proof.
  intros E. unfold received_part, zlen in *. rewrite Nat2Z.id, firstn_all, drop_ge by lia. apply app_nil_r.
Qed.

Lemma received_more h z j size : zlen h = zlen z -> 0 <= j -> 0 <= size -> j + size <= zlen h ->
  splice j (slice j size h) (received_part h z j) = received_part h z (j + size).
Proof.
  intros E Hj Hs Hle. unfold received_part, splice, slice, zlen in *.
  assert (L1 : length (take (Z.to_nat j) h) = Z.to_nat j) by (rewrite length_take; lia).
  assert (L2 : length (take (Z.to_nat size) (drop (Z.to_nat j) h)) = Z.to_nat size)
    by (rewrite length_take, length_drop; lia).
  rewrite L2, take_app_le, take_ge, drop_app_ge, L1 by lia. rewrite drop_drop.
  replace (Z.to_nat (j + size)) with (Z.to_nat j + Z.to_nat size)%nat by lia.
  rewrite <- (take_take_drop h (Z.to_nat j) (Z.to_nat size)), <- app_assoc. do 3 f_equal. lia.
Qed.

(** A copy that continues an object. *)
Lemma copy_more h z j d r y : zlen h = zlen z -> 0 <= j -> drop (Z.to_nat j) h ++ y = d ++ r ->
  let size := Z.min (zlen d) (zlen h - j) in j <= zlen h ->
  copy_to (received_part h z j) j d size = Ok (received_part h z (j + size)) /\
  drop (Z.to_nat (j + size)) h ++ y = drop (Z.to_nat size) d ++ r.
Proof.
  intros E Hj Hd size Hle. pose proof (zlen_nonneg d).
  assert (Hl : zlen (drop (Z.to_nat j) h) = zlen h - j) by (unfold zlen in *; rewrite length_drop; lia).
  destruct (input_take d r (drop (Z.to_nat j) h) y size) as [E1 E2]; [done|lia|lia|].
  unfold copy_to. rewrite received_len by done. rewrite !(proj2 (Z.leb_le _ _)) by lia. cbn [andb]. split.
  - f_equal. rewrite E1. unfold slice at 1. rewrite drop_0. apply received_more; lia.
  - rewrite E2, drop_drop. do 2 f_equal. lia.
Qed.

(** ** Repeated words *)

Lemma length_repeated (w : list Z) n : length (concat (replicate n w)) = (n * length w)%nat.
Proof. induction n as [|n IH]; cbn; [done|]. rewrite length_app, IH. lia. Qed.

Lemma lookup_repeated (w : list Z) n i : length w = 4%nat -> (i < 4 * n)%nat ->
  concat (replicate n w) !! i = w !! (i mod 4)%nat.
Proof.
  intros Hw. revert i. induction n as [|n IH]; intros i Hi; [lia|]. cbn [replicate concat].
  destruct (decide (i < 4)%nat) as [Hlt|Hge].
  - rewrite lookup_app_l by lia. by rewrite Nat.mod_small.
  - rewrite lookup_app_r, IH by lia. rewrite Hw. f_equal.
    replace i with ((i - 4) + 1 * 4)%nat at 2 by lia. by rewrite Nat.Div0.mod_add.
Qed.

Lemma lookup_pattern w k i : zlen w = 4 -> pattern w k !! i = if decide (i < Z.to_nat k)%nat then w !! (i mod 4)%nat else None.
Proof.
  intros Hw. unfold pattern. rewrite lookup_slice by lia. case_decide as Hi; [|done].
  apply lookup_repeated; unfold zlen in Hw; [lia|].
  pose proof (Z.div_mod (k + 3) 4 ltac:(lia)). pose proof (Z.mod_pos_bound (k + 3) 4 ltac:(lia)). lia.
Qed.

Lemma pattern_len w k : zlen w = 4 -> 0 <= k -> zlen (pattern w k) = k.
Proof.
  intros Hw Hk. unfold pattern. apply slice_length; [lia|done|]. unfold zlen in *. rewrite length_repeated.
  pose proof (Z.div_mod (k + 3) 4 ltac:(lia)). pose proof (Z.mod_pos_bound (k + 3) 4 ltac:(lia)). lia.
Qed.

(** The array of the routine holds 1024 bytes of the pattern. *)
Lemma pattern_split w k : zlen w = 4 -> 0 <= k ->
  let size := Z.min k SPARSE_MAX_LOCAL_BUFFER in
  pattern w k = slice 0 size (fill_buffer w) ++ pattern w (k - size).
Proof.
  intros Hw Hk size. unfold SPARSE_MAX_LOCAL_BUFFER in size.
  assert (Hl : zlen (slice 0 size (fill_buffer w)) = size).
  { apply slice_length; [lia|lia|]. unfold fill_buffer, zlen in *. rewrite length_repeated. lia. }
  apply list_eq. intros i. rewrite lookup_pattern by done. destruct (decide (i < Z.to_nat size)%nat) as [Hi|Hi].
  - rewrite lookup_app_l by (unfold zlen in Hl; lia). rewrite lookup_slice by lia.
    rewrite decide_True, decide_True by lia. symmetry. apply lookup_repeated; unfold zlen in Hw; lia.
  - rewrite lookup_app_r by (unfold zlen in Hl; lia). rewrite lookup_pattern by done.
    replace (length (slice 0 size (fill_buffer w))) with (Z.to_nat size) by (unfold zlen in Hl; lia).
    destruct (decide (i < Z.to_nat k)%nat) as [Hk1|Hk1]; [|rewrite decide_False by lia; done].
    rewrite decide_True by lia. assert (size = 1024) as -> by lia. f_equal.
    change (Z.to_nat 1024) with (256 * 4)%nat in *.
    replace i with ((i - 256 * 4) + 256 * 4)%nat at 1 by lia. by rewrite Nat.Div0.mod_add.
Qed.

Lemma fill_rounds_0 : fill_rounds 0 = 0%nat.
Proof. reflexivity. Qed.

Lemma fill_rounds_S k : 0 < k -> fill_rounds k = S (fill_rounds (k - Z.min k SPARSE_MAX_LOCAL_BUFFER)).
Proof.
  intros Hk. unfold fill_rounds, SPARSE_MAX_LOCAL_BUFFER. destruct (Z.le_gt_cases k 1024).
  - rewrite Z.min_l, Z.sub_diag by lia. change (Z.to_nat ((0 + 1023) / 1024)) with 0%nat.
    replace (k + 1023) with (k - 1 + 1 * 1024) by lia. rewrite Z.div_add, Z.div_small by lia. done.
  - rewrite Z.min_r by lia. replace (k + 1023) with (k - 1024 + 1023 + 1 * 1024) by lia. rewrite Z.div_add by lia.
    assert (0 <= (k - 1024 + 1023) / 1024) by (apply Z.div_pos; lia). lia.
Qed.
