(* ===== verification/SparseSteps.v ===== *)
(** The state machine on the bytes of a valid image: one iteration at a time, one
    call at a time, and call after call. *)

From S2P Require Import Prelude TegraError Sparse SparseFacts.

Section Steps.
Context {W : Type} {IS : ImageSink W} {SL : SinkLaws W}.
Implicit Types (v : vars (W := W)) (w : W).
Context (local_buffer : Z).
Hypothesis Hlocal : 0 < local_buffer.

Lemma fill_loop_spec word k w r l pos : zlen word = 4 -> 0 <= k -> sk_holds w r l pos -> pos + k <= zlen l ->
  sk_cost * Z.of_nat (fill_rounds k) <= r ->
  exists w', fill_loop local_buffer (fill_rounds k) (fill_buffer word) k w = Ok (TEGRABL_NO_ERROR, w') /\
    sk_holds w' (r - sk_cost * Z.of_nat (fill_rounds k)) (splice pos (pattern word k) l) (pos + k).
Proof.
  intros Hw. remember (fill_rounds k) as n eqn:En. revert k w r l pos En.
  induction n as [|n IH]; intros k w r l pos En Hk Hh Hp Hr.
  - assert (k = 0) as -> by (destruct (Z.eq_dec k 0); [done|rewrite fill_rounds_S in En by lia; done]).
    exists w. split; [done|]. change (pattern word 0) with (@nil Z). rewrite splice_nil.
    by rewrite Z.mul_0_r, Z.sub_0_r, Z.add_0_r.
  - assert (Hk0 : 0 < k) by (destruct (Z.eq_dec k 0) as [->|]; [done|lia]).
    rewrite fill_rounds_S in En by done. injection En as En. cbn [fill_loop].
    set (size := Z.min k SPARSE_MAX_LOCAL_BUFFER) in *.
    assert (Hs : 0 < size <= k) by (unfold size, SPARSE_MAX_LOCAL_BUFFER; lia).
    assert (Hl : zlen (slice 0 size (fill_buffer word)) = size).
    { apply slice_length; [lia|lia|]. unfold fill_buffer, zlen in *. rewrite length_repeated.
      unfold size, SPARSE_MAX_LOCAL_BUFFER. lia. }
    pose proof (sk_pos_nonneg _ _ _ _ Hh) as Hpos. pose proof sk_cost_nonneg.
    destruct (sk_write_law w r l pos local_buffer (slice 0 size (fill_buffer word)) size) as (w1 & E1 & H1);
      [done|done|lia|done|lia|nia|].
    rewrite E1. cbn [res_bind]. rewrite Z.eqb_refl. cbn [negb].
    destruct (IH (k - size) w1 _ _ _ En ltac:(lia) H1) as (w2 & E2 & H2); [rewrite splice_length; lia|lia|].
    exists w2. split; [done|]. rewrite (pattern_split word k) by (done || lia). fold size.
    rewrite <- splice_app by (rewrite ?Hl, ?pattern_len; lia). rewrite Hl.
    replace (r - sk_cost * Z.of_nat (S n)) with (r - sk_cost - sk_cost * Z.of_nat n) by lia.
    by replace (pos + k) with (pos + size + (k - size)) by lia.
Qed.

(** ** Where the machine is in an image *)

Context (minor blk checksum : Z) (all : list chunk).
Hypothesis Hok : image_ok blk all.

Definition HDR : list Z := image_header minor blk (total_blocks all) (zlen all) checksum.

(** [pending v rest es]: in state [v], the machine waits for the bytes [rest] and
    will make the effects [es]. *)
Inductive pending (v : vars (W := W)) : list Z -> list effect -> Prop :=
| pd_head j : 0 <= j < 28 -> j mod 4 = 0 ->
    lv_state v = TEGRABL_UNSPARSE_PARTIAL_IMAGE_HEADER -> lv_offset v = j -> lv_remaining v = 28 - j ->
    lv_processed v = 0 -> lv_image v = received_part HDR zero_image j -> zlen (lv_fill v) = 4 ->
    pending v (drop (Z.to_nat j) HDR ++ encode_chunks all) (map (effect_of blk) all)
| pd_end : lv_state v = TEGRABL_UNSPARSE_PARTIAL_CHUNK_HEADER -> pending v [] []
| pd_next c cs j : 0 <= j < 12 -> j mod 4 = 0 -> chunk_ok blk c -> Forall (chunk_ok blk) cs ->
    lv_state v = TEGRABL_UNSPARSE_PARTIAL_CHUNK_HEADER -> lv_offset v = j -> lv_remaining v = 12 - j ->
    0 <= lv_processed v -> lv_processed v + zlen (c :: cs) = zlen all -> lv_image v = HDR ->
    lv_chunk v = received_part (header_of c) zero_chunk j -> zlen (lv_fill v) = 4 ->
    pending v (drop (Z.to_nat j) (header_of c) ++ payload c ++ encode_chunks cs) (map (effect_of blk) (c :: cs))
| pd_raw bs cs : bs <> [] -> zlen bs mod 4 = 0 -> Forall (chunk_ok blk) cs ->
    lv_state v = TEGRABL_UNSPARSE_PARTIAL_CHUNK_RAW -> lv_remaining v = zlen bs -> zlen bs < 2 ^ 64 ->
    0 <= lv_processed v -> lv_processed v + zlen cs = zlen all -> lv_image v = HDR -> zlen (lv_fill v) = 4 ->
    pending v (bs ++ encode_chunks cs) (EWrite bs :: map (effect_of blk) cs)
| pd_fill word k cs : zlen word = 4 -> 0 <= k -> Forall (chunk_ok blk) cs ->
    lv_state v = TEGRABL_UNSPARSE_PARTIAL_CHUNK_FILL -> lv_offset v = 0 -> lv_remaining v = k ->
    0 <= lv_processed v -> lv_processed v + zlen cs = zlen all -> lv_image v = HDR -> zlen (lv_fill v) = 4 ->
    pending v (word ++ encode_chunks cs) (EFill word k :: map (effect_of blk) cs)
| pd_skip k cs : 0 <= k -> Forall (chunk_ok blk) cs ->
    lv_state v = TEGRABL_UNSPARSE_PARTIAL_CHUNK_DONT_CARE -> lv_remaining v = k ->
    0 <= lv_processed v -> lv_processed v + zlen cs = zlen all -> lv_image v = HDR -> zlen (lv_fill v) = 4 ->
    pending v (encode_chunks cs) (ESkip k :: map (effect_of blk) cs).

(** The machine and the sink; [goal] is the data and position at the end of the
    image, [later] the input of later calls, of which there are at most [calls]. *)
Record inv (v : vars (W := W)) (calls : Z) (goal : list Z * Z) (later : list Z) : Prop := {
  in_state : exists rest es r l pos, pending v rest es /\ lv_data v ++ later = rest /\
    sk_holds (lv_sink v) r l pos /\ apply_effects (l, pos) es = goal /\ pos + effects_size es <= zlen l /\
    sk_cost * (writes es + calls + (if zlen (lv_data v) =? 0 then 0 else 1)) <= r;
  in_align : zlen (lv_data v) mod 4 = 0;
  in_buf : 0 < lv_buf v
}.

Definition measure (v : vars (W := W)) : Z :=
  2 * zlen (lv_data v) + (if lv_state v =? TEGRABL_UNSPARSE_PARTIAL_CHUNK_DONT_CARE then 1 else 0).

Context (max_size : Z).
Hypothesis Hmax : blk * total_blocks all <= max_size.

Lemma zlen_drop {A} n (l : list A) : 0 <= n <= zlen l -> zlen (drop (Z.to_nat n) l) = zlen l - n.
Proof. intros Hn. unfold zlen in *. rewrite length_drop. lia. Qed.

Lemma min_align a b : a mod 4 = 0 -> b mod 4 = 0 -> Z.min a b mod 4 = 0.
Proof. intros Ha Hb. by destruct (Z.min_spec a b) as [[_ ->]|[_ ->]]. Qed.

Lemma sub_align a b : a mod 4 = 0 -> b mod 4 = 0 -> (a - b) mod 4 = 0.
Proof. intros Ha Hb. rewrite Zminus_mod, Ha, Hb. done. Qed.

Lemma total_blocks_nonneg cs : Forall (chunk_ok blk) cs -> 0 <= total_blocks cs.
Proof.
  clear. induction 1 as [|c cs Hc _ IH]; [done|]. change (total_blocks (c :: cs)) with (chunk_blocks c + total_blocks cs).
  destruct Hc as [Hc _]. lia.
Qed.

(** The fields of the image header. *)
Lemma HDR_fields : ih_chunk_hdr_sz HDR = 12 /\ ih_blk_sz HDR = blk /\ ih_total_blks HDR = total_blocks all /\
  ih_total_chunks HDR = zlen all /\ tegrabl_sparse_validate_header HDR max_size = TEGRABL_NO_ERROR.
Proof.
  destruct Hok as [Hb Ha Hc Hn Ht]. pose proof (total_blocks_nonneg _ Hc). pose proof (zlen_nonneg all).
  unfold HDR. rewrite get_blk_sz, get_total_blks, get_total_chunks by lia. do 4 (split; [done|]).
  unfold tegrabl_sparse_validate_header. rewrite get_version, get_blk_sz, get_total_blks by lia.
  change (negb (1 =? TEGRABL_SPARSE_HEADER_MAJOR_VERSION)) with false. cbv iota. rewrite u64_small by nia.
  by destruct (Z.ltb_spec max_size (blk * total_blocks all)); [lia|].
Qed.

Lemma header_valid c : chunk_ok blk c ->
  tegrabl_sparse_validate_chunk_header HDR (header_of c) = TEGRABL_NO_ERROR /\
  ch_chunk_type (header_of c) = chunk_type c /\ ch_chunk_sz (header_of c) = chunk_blocks c.
Proof.
  intros [Hn Hc]. destruct HDR_fields as (F1 & F2 & _). destruct Hok as [Hb _ _ _ _].
  assert (Hz : 0 <= sizeof_chunk_header + zlen (payload c) < 2 ^ 32).
  { unfold sizeof_chunk_header. pose proof (zlen_nonneg (payload c)).
    destruct c; cbn [payload] in *; unfold sizeof_chunk_header in Hc; try lia. change (zlen (@nil Z)) with 0. lia. }
  assert (Ht : 0 <= chunk_type c < 2 ^ 16) by (by destruct c).
  unfold header_of. rewrite get_type, get_chunk_sz by done. split; [|done].
  unfold tegrabl_sparse_validate_chunk_header. rewrite get_type, get_chunk_sz, get_total_sz, F1, F2 by done.
  destruct c as [bs n|w n|n]; cbn [chunk_type payload chunk_blocks] in *.
  - destruct Hc as (Hn0 & Hl & Hlt). rewrite Z.eqb_refl. rewrite Hl in *. unfold sizeof_chunk_header in *.
    rewrite (u32_small (n * blk)), u32_small by lia. by rewrite Z.eqb_refl.
  - change (TEGRABL_SPARSE_CHUNK_TYPE_FILL =? TEGRABL_SPARSE_CHUNK_TYPE_RAW) with false.
    change (TEGRABL_SPARSE_CHUNK_TYPE_FILL =? TEGRABL_SPARSE_CHUNK_TYPE_DONT_CARE) with false. rewrite Z.eqb_refl, Hc. done.
  - done.
Qed.

(** The next chunk, or the end of the image. *)
Lemma next_pending v cs : Forall (chunk_ok blk) cs -> lv_state v = TEGRABL_UNSPARSE_PARTIAL_CHUNK_HEADER ->
  lv_offset v = 0 -> lv_remaining v = 12 -> 0 <= lv_processed v -> lv_processed v + zlen cs = zlen all ->
  lv_image v = HDR -> lv_chunk v = zero_chunk -> zlen (lv_fill v) = 4 ->
  pending v (encode_chunks cs) (map (effect_of blk) cs).
Proof.
  intros Hcs E1 E2 E3 Hp E4 E5 E6 E7. destruct cs as [|c cs]; [by apply pd_end|]. apply Forall_cons in Hcs as [Hc Hcs].
  replace (encode_chunks (c :: cs)) with (drop (Z.to_nat 0) (header_of c) ++ payload c ++ encode_chunks cs)
    by (unfold encode_chunks; cbn [map concat]; unfold encode_chunk at 2; by rewrite <- app_assoc).
  by apply pd_next; try done; lia.
Qed.

(** A step that leaves the sink alone. *)
Lemma inv_input v v' calls goal later rest es r l pos :
  pending v' rest es -> lv_data v' ++ later = rest -> sk_holds (lv_sink v) r l pos -> lv_sink v' = lv_sink v ->
  apply_effects (l, pos) es = goal -> pos + effects_size es <= zlen l ->
  sk_cost * (writes es + calls + (if zlen (lv_data v) =? 0 then 0 else 1)) <= r ->
  zlen (lv_data v) <> 0 -> zlen (lv_data v') mod 4 = 0 -> 0 < lv_buf v' -> inv v' calls goal later.
Proof.
  intros P E Hh Es Hg Hp Hr Hd Ha Hb. split; [|done|done]. exists rest, es, r, l, pos. rewrite Es. do 5 (split; [done|]).
  pose proof sk_cost_nonneg. destruct (Z.eqb_spec (zlen (lv_data v)) 0); [done|]. destruct (zlen (lv_data v') =? 0); nia.
Qed.

Definition advances v calls goal later : Prop :=
  exists v', unsparse_step local_buffer max_size v = Ok (inr v') /\ inv v' calls goal later /\ measure v' < measure v.

Lemma step_head v j calls goal later r l pos :
  0 <= j < 28 -> j mod 4 = 0 -> lv_state v = TEGRABL_UNSPARSE_PARTIAL_IMAGE_HEADER -> lv_offset v = j ->
  lv_remaining v = 28 - j -> lv_processed v = 0 -> lv_image v = received_part HDR zero_image j -> zlen (lv_fill v) = 4 ->
  lv_data v ++ later = drop (Z.to_nat j) HDR ++ encode_chunks all ->
  sk_holds (lv_sink v) r l pos -> apply_effects (l, pos) (map (effect_of blk) all) = goal ->
  pos + effects_size (map (effect_of blk) all) <= zlen l ->
  sk_cost * (writes (map (effect_of blk) all) + calls + (if zlen (lv_data v) =? 0 then 0 else 1)) <= r ->
  zlen (lv_data v) <> 0 -> zlen (lv_data v) mod 4 = 0 -> 0 < lv_buf v -> advances v calls goal later.
Proof.
  intros Hj Ja Es Eo Er Ep Ei Ef E Hh Hg Hp Hr Hd Ha Hb. pose proof (zlen_nonneg (lv_data v)).
  destruct (copy_more HDR zero_image j (lv_data v) later (encode_chunks all) eq_refl ltac:(lia) (eq_sym E)) as [C1 C2];
    [change (zlen HDR) with 28; lia|]. change (zlen HDR) with 28 in C1, C2.
  unfold advances, unsparse_step. rewrite Es. change (TEGRABL_UNSPARSE_PARTIAL_IMAGE_HEADER =? TEGRABL_UNSPARSE_PARTIAL_IMAGE_HEADER) with true.
  cbv iota. unfold step_image_header. rewrite Ei, Eo, Er. set (size := Z.min (zlen (lv_data v)) (28 - j)) in *.
  rewrite C1. cbn [res_bind consume_input set_headers lv_remaining lv_image lv_sink]. rewrite Er.
  assert (Hs : 0 < size <= 28 - j /\ size <= zlen (lv_data v)) by (unfold size; lia).
  assert (Hda : size mod 4 = 0) by (apply min_align; [done|by apply sub_align]).
  rewrite u64_small by lia. destruct (Z.eqb_spec (28 - j - size) 0) as [Hz|Hz]; cbn [negb].
  - replace (j + size) with (zlen HDR) in * by (change (zlen HDR) with 28; lia). rewrite received_all by done.
    destruct HDR_fields as (F1 & _ & _ & _ & F5). rewrite F5, F1. change (negb (TEGRABL_NO_ERROR =? TEGRABL_NO_ERROR)) with false.
    cbv iota. eexists. split; [reflexivity|]. split.
    + eapply (inv_input v); [apply (next_pending _ all)|..]; cbn; try done; try lia.
      * apply Hok.
      * rewrite zlen_drop by lia. by apply sub_align.
    + unfold measure. cbn. rewrite Es, zlen_drop by lia. cbn. lia.
  - eexists. split; [reflexivity|]. split.
    + eapply (inv_input v); [apply (pd_head _ (j + size))|..]; cbn; try done; try lia.
      * rewrite Z.add_mod, Ja, Hda by lia. done.
      * rewrite Eo. apply u64_small. lia.
      * rewrite Er, u64_small by lia. lia.
      * rewrite zlen_drop by lia. by apply sub_align.
    + unfold measure. cbn. rewrite Es, zlen_drop by lia. cbn. lia.
Qed.

(** The chunk of a header that is complete. *)
Lemma enter_chunk v c cs : chunk_ok blk c -> Forall (chunk_ok blk) cs ->
  lv_state v = chunk_type c - TEGRABL_SPARSE_CHUNK_TYPE_RAW + TEGRABL_UNSPARSE_PARTIAL_CHUNK_RAW ->
  lv_offset v = 0 -> lv_remaining v = chunk_blocks c * blk -> 0 <= lv_processed v ->
  lv_processed v + zlen cs = zlen all -> lv_image v = HDR -> zlen (lv_fill v) = 4 ->
  pending v (payload c ++ encode_chunks cs) (map (effect_of blk) (c :: cs)).
Proof.
  intros [Hn Hc] Hcs Es Eo Er Hp Ep Ei Ef. destruct Hok as [Hb Ha _ _ _].
  destruct c as [bs n|word n|n]; cbn [chunk_type chunk_blocks payload map effect_of] in *.
  - destruct Hc as (Hn0 & Hl & Hlt). unfold sizeof_chunk_header in Hlt.
    apply pd_raw; try done; try lia.
    + intros ->. change (zlen (@nil Z)) with 0 in Hl. nia.
    + rewrite Hl, Z.mul_mod, Ha, Z.mul_0_r by lia. done.
  - apply pd_fill; try done. nia.
  - rewrite app_nil_l. apply pd_skip; try done. nia.
Qed.

Lemma measure_drop v v' size : lv_data v' = drop (Z.to_nat size) (lv_data v) -> 0 < size <= zlen (lv_data v) ->
  measure v' < measure v.
Proof. intros E Hs. unfold measure. rewrite E, zlen_drop by lia. repeat case_match; lia. Qed.

Lemma step_next v c cs j calls goal later r l pos :
  0 <= j < 12 -> j mod 4 = 0 -> chunk_ok blk c -> Forall (chunk_ok blk) cs ->
  lv_state v = TEGRABL_UNSPARSE_PARTIAL_CHUNK_HEADER -> lv_offset v = j -> lv_remaining v = 12 - j ->
  0 <= lv_processed v -> lv_processed v + zlen (c :: cs) = zlen all -> lv_image v = HDR ->
  lv_chunk v = received_part (header_of c) zero_chunk j -> zlen (lv_fill v) = 4 ->
  lv_data v ++ later = drop (Z.to_nat j) (header_of c) ++ payload c ++ encode_chunks cs ->
  sk_holds (lv_sink v) r l pos -> apply_effects (l, pos) (map (effect_of blk) (c :: cs)) = goal ->
  pos + effects_size (map (effect_of blk) (c :: cs)) <= zlen l ->
  sk_cost * (writes (map (effect_of blk) (c :: cs)) + calls + (if zlen (lv_data v) =? 0 then 0 else 1)) <= r ->
  zlen (lv_data v) <> 0 -> zlen (lv_data v) mod 4 = 0 -> 0 < lv_buf v -> advances v calls goal later.
Proof.
  intros Hj Ja Hc Hcs Es Eo Er Hp0 Ep Ei Ec Ef E Hh Hg Hp Hr Hd Ha Hb. pose proof (zlen_nonneg (lv_data v)).
  destruct (copy_more (header_of c) zero_chunk j (lv_data v) later (payload c ++ encode_chunks cs) eq_refl ltac:(lia) (eq_sym E))
    as [C1 C2]; [change (zlen (header_of c)) with 12; lia|]. change (zlen (header_of c)) with 12 in C1, C2.
  unfold advances, unsparse_step. rewrite Es. cbn [Z.eqb Pos.eqb TEGRABL_UNSPARSE_PARTIAL_CHUNK_HEADER TEGRABL_UNSPARSE_PARTIAL_IMAGE_HEADER].
  unfold step_chunk_header. rewrite Ec, Eo, Er. set (size := Z.min (zlen (lv_data v)) (12 - j)) in *.
  destruct (Z.ltb_spec j sizeof_chunk_header) as [_|Hx]; [|unfold sizeof_chunk_header in Hx; lia].
  rewrite C1. cbn [res_bind consume_input set_headers lv_remaining lv_image lv_chunk lv_processed lv_state lv_offset lv_sink lv_fill lv_data lv_buf].
  rewrite Er.
  assert (Hs : 0 < size <= 12 - j /\ size <= zlen (lv_data v)) by (unfold size; lia).
  assert (Hda : size mod 4 = 0) by (apply min_align; [done|by apply sub_align]).
  rewrite u64_small by lia. destruct (Z.eqb_spec (12 - j - size) 0) as [Hz|Hz]; cbn [negb].
  - replace (j + size) with (zlen (header_of c)) in * by (change (zlen (header_of c)) with 12; lia). rewrite received_all by done.
    rewrite Ei. destruct HDR_fields as (_ & F2 & _ & F4 & _). destruct (header_valid c Hc) as (V1 & V2 & V3).
    rewrite V1, V2, V3, F2, F4. change (negb (TEGRABL_NO_ERROR =? TEGRABL_NO_ERROR)) with false. cbv iota.
    assert (zlen (c :: cs) = 1 + zlen cs) by (unfold zlen; cbn [length]; lia). pose proof (zlen_nonneg cs). destruct Hok as [Hb1 _ _ Hcnt _]. destruct (proj1 Hc) as [Hn1 Hn2].
    rewrite (u64_small (lv_processed v + 1)), (u64_small (chunk_blocks c * blk)) by nia.
    destruct (Z.ltb_spec (zlen all) (lv_processed v + 1)); [lia|]. eexists. split; [reflexivity|]. split.
    + eapply (inv_input v); [apply (enter_chunk _ c cs)|..]; cbn; try done; try lia.
      rewrite zlen_drop by lia. by apply sub_align.
    + apply (measure_drop v _ size); [done|lia].
  - eexists. split; [reflexivity|]. split.
    + eapply (inv_input v); [apply (pd_next _ c cs (j + size))|..]; cbn; try done; try lia.
      * rewrite Z.add_mod, Ja, Hda by lia. done.
      * rewrite Eo. apply u64_small. lia.
      * rewrite Er, u64_small by lia. lia.
      * rewrite zlen_drop by lia. by apply sub_align.
    + apply (measure_drop v _ size); [done|lia].
Qed.

(** The effects that remain, and the writes they take. *)
Lemma effects_size_nonneg cs : Forall (chunk_ok blk) cs -> 0 <= effects_size (map (effect_of blk) cs).
Proof.
  destruct Hok as [Hb _ _ _ _]. clear -Hb. induction 1 as [|c cs [Hn Hc] _ IH]; [done|].
  change (effects_size (map (effect_of blk) (c :: cs)))
    with (effect_size (effect_of blk c) + effects_size (map (effect_of blk) cs)).
  destruct c as [bs n|word n|n]; cbn [effect_of effect_size chunk_blocks] in *; [pose proof (zlen_nonneg bs); lia|nia|nia].
Qed.

Lemma writes_nonneg es : 0 <= writes es.
Proof.
  clear. induction es as [|e es IH]; [done|]. change (writes (e :: es)) with (effect_writes e + writes es).
  destruct e; cbn [effect_writes]; lia.
Qed.

Lemma cost_le a b r : sk_cost * a <= r -> b <= a -> sk_cost * b <= r.
Proof. intros Hr Hb. pose proof sk_cost_nonneg. nia. Qed.

Lemma cost_pay a b d r : sk_cost * a <= r -> b + d <= a -> sk_cost * b <= r - sk_cost * d.
Proof. intros Hr Hb. pose proof (cost_le a (b + d) r Hr Hb). lia. Qed.

(** A chunk that is complete: the next one follows. *)
Lemma inv_next v cs n w calls goal later r l pos :
  Forall (chunk_ok blk) cs -> n = 12 -> 0 <= lv_processed v -> lv_processed v + zlen cs = zlen all ->
  lv_image v = HDR -> zlen (lv_fill v) = 4 -> lv_data v ++ later = encode_chunks cs ->
  sk_holds w r l pos -> apply_effects (l, pos) (map (effect_of blk) cs) = goal ->
  pos + effects_size (map (effect_of blk) cs) <= zlen l ->
  sk_cost * (writes (map (effect_of blk) cs) + calls + (if zlen (lv_data v) =? 0 then 0 else 1)) <= r ->
  zlen (lv_data v) mod 4 = 0 -> 0 < lv_buf v -> inv (expect_header v n w) calls goal later.
Proof.
  intros Hcs -> Hp Ep Ei Ef E Hh Hg Hs Hr Ha Hb. split; [|done|done].
  exists (encode_chunks cs), (map (effect_of blk) cs), r, l, pos. split; [|done]. by apply next_pending.
Qed.

Lemma step_raw_advances v bs cs calls goal later r l pos :
  bs <> [] -> zlen bs mod 4 = 0 -> Forall (chunk_ok blk) cs ->
  lv_state v = TEGRABL_UNSPARSE_PARTIAL_CHUNK_RAW -> lv_remaining v = zlen bs -> zlen bs < 2 ^ 64 ->
  0 <= lv_processed v -> lv_processed v + zlen cs = zlen all -> lv_image v = HDR -> zlen (lv_fill v) = 4 ->
  lv_data v ++ later = bs ++ encode_chunks cs ->
  sk_holds (lv_sink v) r l pos -> apply_effects (l, pos) (EWrite bs :: map (effect_of blk) cs) = goal ->
  pos + effects_size (EWrite bs :: map (effect_of blk) cs) <= zlen l ->
  sk_cost * (writes (EWrite bs :: map (effect_of blk) cs) + calls + (if zlen (lv_data v) =? 0 then 0 else 1)) <= r ->
  0 <= calls -> zlen (lv_data v) <> 0 -> zlen (lv_data v) mod 4 = 0 -> 0 < lv_buf v -> advances v calls goal later.
Proof.
  intros Hne Ba Hcs Es Er Hlt Hp0 Ep Ei Ef E Hh Hg Hp Hr Hca Hd Ha Hb. pose proof (zlen_nonneg (lv_data v)).
  pose proof (effects_size_nonneg cs Hcs) as Hes. pose proof (sk_pos_nonneg _ _ _ _ Hh).
  pose proof (writes_nonneg (map (effect_of blk) cs)) as Hwn.
  assert (Hbs : 0 < zlen bs) by (destruct bs; [done|unfold zlen; cbn [length]; lia]).
  change (effects_size (EWrite bs :: map (effect_of blk) cs)) with (zlen bs + effects_size (map (effect_of blk) cs)) in Hp.
  change (writes (EWrite bs :: map (effect_of blk) cs)) with (1 + writes (map (effect_of blk) cs)) in Hr.
  destruct (Z.eqb_spec (zlen (lv_data v)) 0); [done|].
  unfold advances, unsparse_step. rewrite Es. cbn [Z.eqb Pos.eqb TEGRABL_UNSPARSE_PARTIAL_CHUNK_HEADER TEGRABL_UNSPARSE_PARTIAL_IMAGE_HEADER TEGRABL_UNSPARSE_PARTIAL_CHUNK_RAW].
  unfold step_raw. rewrite Er. set (size := Z.min (zlen (lv_data v)) (zlen bs)) in *.
  assert (Hs : 0 < size <= zlen bs /\ size <= zlen (lv_data v)) by (unfold size; lia).
  assert (Hda : size mod 4 = 0) by (by apply min_align).
  destruct (input_take _ _ _ _ size E) as [C1 C2]; [lia|lia|]. rewrite C1.
  assert (Hsl : zlen (slice 0 size bs) = size) by (apply slice_length; lia).
  destruct (sk_write_law (lv_sink v) r l pos (lv_buf v) (slice 0 size bs) size) as (w1 & E1 & H1);
    [done|done|lia|done|lia|rewrite <- (Z.mul_1_r sk_cost); apply (cost_le _ _ _ Hr); lia|].
  rewrite E1. cbn [res_bind]. rewrite Z.eqb_refl. cbn [negb].
  cbn [consume_input set_sink lv_remaining lv_image lv_chunk lv_processed lv_state lv_offset lv_sink lv_fill lv_data lv_buf].
  rewrite Er, u64_small by lia. rewrite <- (Z.mul_1_r sk_cost) in H1.
  assert (Hdl : zlen (drop (Z.to_nat size) (lv_data v)) mod 4 = 0) by (rewrite zlen_drop by lia; by apply sub_align).
  destruct (Z.eqb_spec (zlen bs - size) 0) as [Hz|Hz].
  - eexists. split; [reflexivity|]. split; [|apply (measure_drop v _ size); [done|lia]].
    assert (size = zlen bs) as Esz by lia. rewrite Esz, slice_all in H1.
    eapply (inv_next _ cs); cbn; try done; try lia.
    + rewrite C2, Esz. unfold zlen. rewrite Nat2Z.id, drop_all. done.
    + rewrite splice_length; lia.
    + apply (cost_pay _ _ _ _ Hr). destruct (zlen (drop _ _) =? 0); lia.
  - eexists. split; [reflexivity|]. split; [|apply (measure_drop v _ size); [done|lia]].
    assert (Edz : size = zlen (lv_data v)) by (unfold size in *; lia).
    assert (Hrest : zlen (drop (Z.to_nat size) bs) = zlen bs - size) by (apply zlen_drop; lia).
    assert (Hdz : zlen (drop (Z.to_nat size) (lv_data v)) = 0) by (rewrite zlen_drop by lia; lia).
    split; cbn; [|done|lia].
    exists (drop (Z.to_nat size) bs ++ encode_chunks cs), (EWrite (drop (Z.to_nat size) bs) :: map (effect_of blk) cs),
      (r - sk_cost * 1), (splice pos (slice 0 size bs) l), (pos + size).
    split; [apply pd_raw; cbn; try done; try lia|].
    + intros En. rewrite En in Hrest. change (zlen (@nil Z)) with 0 in Hrest. lia.
    + rewrite Hrest. by apply sub_align.
    + rewrite Er, Hrest. apply u64_small. lia.
    + split; [done|]. split; [done|]. split; [|split].
      * rewrite <- Hg. unfold apply_effects. cbn [foldl apply_effect]. rewrite Hrest.
        pose proof (splice_app pos (slice 0 size bs) (drop (Z.to_nat size) bs) l ltac:(lia) ltac:(lia)) as Hsp.
        rewrite Hsl in Hsp. rewrite Hsp, take_slice, take_drop. do 2 f_equal. lia.
      * cbn [effects_size foldr effect_size]. fold (effects_size (map (effect_of blk) cs)). rewrite splice_length; lia.
      * apply (cost_pay _ _ _ _ Hr). cbn [writes foldr effect_writes]. fold (writes (map (effect_of blk) cs)).
        rewrite Hdz, Z.eqb_refl. lia.
Qed.

Lemma step_fill_advances v word k cs calls goal later r l pos :
  zlen word = 4 -> 0 <= k -> Forall (chunk_ok blk) cs ->
  lv_state v = TEGRABL_UNSPARSE_PARTIAL_CHUNK_FILL -> lv_offset v = 0 -> lv_remaining v = k ->
  0 <= lv_processed v -> lv_processed v + zlen cs = zlen all -> lv_image v = HDR -> zlen (lv_fill v) = 4 ->
  lv_data v ++ later = word ++ encode_chunks cs ->
  sk_holds (lv_sink v) r l pos -> apply_effects (l, pos) (EFill word k :: map (effect_of blk) cs) = goal ->
  pos + effects_size (EFill word k :: map (effect_of blk) cs) <= zlen l ->
  sk_cost * (writes (EFill word k :: map (effect_of blk) cs) + calls + (if zlen (lv_data v) =? 0 then 0 else 1)) <= r ->
  0 <= calls -> zlen (lv_data v) <> 0 -> zlen (lv_data v) mod 4 = 0 -> 0 < lv_buf v -> advances v calls goal later.
Proof.
  intros Hw Hk Hcs Es Eo Er Hp0 Ep Ei Ef E Hh Hg Hp Hr Hca Hd Ha Hb. pose proof (zlen_nonneg (lv_data v)).
  pose proof (effects_size_nonneg cs Hcs) as Hes. pose proof (sk_pos_nonneg _ _ _ _ Hh).
  pose proof (writes_nonneg (map (effect_of blk) cs)) as Hwn.
  change (effects_size (EFill word k :: map (effect_of blk) cs)) with (k + effects_size (map (effect_of blk) cs)) in Hp.
  change (writes (EFill word k :: map (effect_of blk) cs)) with (Z.of_nat (fill_rounds k) + writes (map (effect_of blk) cs)) in Hr.
  assert (Hd4 : 4 <= zlen (lv_data v)) by (pose proof (Z.div_mod (zlen (lv_data v)) 4 ltac:(lia)); lia).
  destruct (Z.eqb_spec (zlen (lv_data v)) 0); [done|].
  destruct (input_take _ _ _ _ 4 E) as [C1 C2]; [lia|lia|].
  unfold advances, unsparse_step. rewrite Es. cbn [Z.eqb Pos.eqb TEGRABL_UNSPARSE_PARTIAL_CHUNK_HEADER TEGRABL_UNSPARSE_PARTIAL_IMAGE_HEADER TEGRABL_UNSPARSE_PARTIAL_CHUNK_RAW TEGRABL_UNSPARSE_PARTIAL_CHUNK_FILL].
  unfold step_fill, copy_to. rewrite Eo, Ef, Z.min_r by lia. change (0 <? 4) with true.
  change ((0 <=? 0) && (0 + 4 <=? 4)) with true. cbv iota.
  assert (Ew : splice 0 (slice 0 4 (lv_data v)) (lv_fill v) = word).
  { rewrite C1. replace (slice 0 4 word) with word by (rewrite <- Hw; symmetry; apply slice_all).
    apply splice_whole. lia. }
  rewrite Ew. cbn [res_bind lv_offset lv_remaining lv_fill lv_sink]. change (u64 (0 + 4) <? 4) with false. cbv iota. rewrite Er.
  destruct (fill_loop_spec word k (lv_sink v) r l pos) as (w1 & E1 & H1); [done|done|done|lia|apply (cost_le _ _ _ Hr); lia|].
  rewrite E1. cbn [res_bind]. change (negb (TEGRABL_NO_ERROR =? TEGRABL_NO_ERROR)) with false. cbv iota.
  assert (Hdl : zlen (drop (Z.to_nat 4) (lv_data v)) mod 4 = 0) by (rewrite zlen_drop by lia; by apply sub_align).
  eexists. split; [reflexivity|]. split; [|apply (measure_drop v _ 4); [done|lia]].
  eapply (inv_next _ cs); cbn; try done; try lia.
  - rewrite C2. rewrite drop_ge by (unfold zlen in Hw; lia). done.
  - rewrite splice_length; rewrite ?pattern_len; lia.
  - apply (cost_pay _ _ _ _ Hr). destruct (zlen _ =? 0); lia.
Qed.

Lemma step_skip_advances v k cs calls goal later r l pos :
  0 <= k -> Forall (chunk_ok blk) cs ->
  lv_state v = TEGRABL_UNSPARSE_PARTIAL_CHUNK_DONT_CARE -> lv_remaining v = k ->
  0 <= lv_processed v -> lv_processed v + zlen cs = zlen all -> lv_image v = HDR -> zlen (lv_fill v) = 4 ->
  lv_data v ++ later = encode_chunks cs ->
  sk_holds (lv_sink v) r l pos -> apply_effects (l, pos) (ESkip k :: map (effect_of blk) cs) = goal ->
  pos + effects_size (ESkip k :: map (effect_of blk) cs) <= zlen l ->
  sk_cost * (writes (ESkip k :: map (effect_of blk) cs) + calls + (if zlen (lv_data v) =? 0 then 0 else 1)) <= r ->
  zlen (lv_data v) mod 4 = 0 -> 0 < lv_buf v -> advances v calls goal later.
Proof.
  intros Hk Hcs Es Er Hp0 Ep Ei Ef E Hh Hg Hp Hr Ha Hb. pose proof (effects_size_nonneg cs Hcs) as Hes.
  change (effects_size (ESkip k :: map (effect_of blk) cs)) with (k + effects_size (map (effect_of blk) cs)) in Hp.
  unfold advances, unsparse_step. rewrite Es. cbn [Z.eqb Pos.eqb TEGRABL_UNSPARSE_PARTIAL_CHUNK_HEADER TEGRABL_UNSPARSE_PARTIAL_IMAGE_HEADER TEGRABL_UNSPARSE_PARTIAL_CHUNK_RAW TEGRABL_UNSPARSE_PARTIAL_CHUNK_FILL TEGRABL_UNSPARSE_PARTIAL_CHUNK_DONT_CARE].
  unfold step_dont_care. rewrite Er.
  destruct (sk_seek_law (lv_sink v) r l pos k) as (w1 & E1 & H1); [done|done|lia|]. rewrite E1. cbn [res_bind].
  change (negb (TEGRABL_NO_ERROR =? TEGRABL_NO_ERROR)) with false. cbv iota. eexists. split; [reflexivity|]. split.
  - eapply (inv_next _ cs); try done. lia.
  - unfold measure. rewrite Es. cbn. lia.
Qed.

(** ** Iterations *)

Lemma step_advances v calls goal later : inv v calls goal later -> 0 <= calls -> goes_on v = true ->
  advances v calls goal later.
Proof.
  intros [(rest & es & r & l & pos & P & E & Hh & Hg & Hp & Hr) Ha Hb] Hca Hgo. unfold goes_on in Hgo.
  assert (Hz : lv_state v <> TEGRABL_UNSPARSE_PARTIAL_CHUNK_DONT_CARE -> zlen (lv_data v) <> 0).
  { intros Hs. apply Z.eqb_neq in Hs. rewrite Hs, orb_false_r in Hgo. by destruct (Z.eqb_spec (zlen (lv_data v)) 0). }
  destruct P as [j Hj Ja Es|Es|c cs j Hj Ja Hc Hcs Es|bs cs Hne Ba Hcs Es|word k cs Hw Hk Hcs Es|k cs Hk Hcs Es].
  - eapply step_head; try done. apply Hz. by rewrite Es.
  - apply app_eq_nil in E as [E _]. rewrite E in Hz. exfalso. apply Hz; [by rewrite Es|done].
  - eapply step_next; try done. apply Hz. by rewrite Es.
  - eapply step_raw_advances; try done. apply Hz. by rewrite Es.
  - eapply (step_fill_advances v word k cs); try done. apply Hz. by rewrite Es.
  - eapply (step_skip_advances v k cs); done.
Qed.

Lemma measure_nonneg v : 0 <= measure v.
Proof. unfold measure. pose proof (zlen_nonneg (lv_data v)). case_match; lia. Qed.

(** The loop: enough iterations reach a state in which it ends. *)
Lemma loop_ends fuel v calls goal later : inv v calls goal later -> 0 <= calls -> measure v <= Z.of_nat fuel ->
  exists v', unsparse_loop local_buffer fuel max_size v = Ok (inr v') /\ goes_on v' = false /\ inv v' calls goal later.
Proof.
  intros Hi Hca. revert v Hi. induction fuel as [|fuel IH]; intros v Hi Hm.
  - assert (Hgo : goes_on v = false).
    { pose proof (zlen_nonneg (lv_data v)). unfold measure, goes_on in *.
      destruct (lv_state v =? TEGRABL_UNSPARSE_PARTIAL_CHUNK_DONT_CARE); [lia|].
      destruct (Z.eqb_spec (zlen (lv_data v)) 0); [done|lia]. }
    exists v. cbn [unsparse_loop]. by rewrite Hgo.
  - cbn [unsparse_loop]. destruct (goes_on v) eqn:Hgo; cbn [negb]; [|by exists v].
    destruct (step_advances v calls goal later Hi Hca Hgo) as (v1 & E1 & I1 & M1). rewrite E1. cbn [res_bind].
    apply IH; [done|]. lia.
Qed.
End Steps.
