(* ===== verification/SparseProps.v ===== *)
(** Sparse images: an image unpacks to what it stands for, in however many pieces
    it arrives. *)

From S2P Require Import Prelude TegraError Sparse SparseFacts SparseSteps.

Section Pieces.
Context {W : Type} {IS : ImageSink W}.
Context (local_buffer : Z).

(** The pieces of an image, each with the address it is at, one call after the
    other; the first error ends it. *)
Fixpoint unsparse_pieces (us : option unsparse_state) (pieces : list (Z * list Z)) (w : W) :
    res (Z * option unsparse_state * W) :=
  match pieces with
  | [] => Ok (TEGRABL_NO_ERROR, us, w)
  | (buff, data) :: pieces =>
      let* (eu, w) := tegrabl_sparse_unsparse local_buffer (unsparse_fuel data) us buff data w in
      let (error, us) := eu in
      if negb (error =? TEGRABL_NO_ERROR) then Ok (error, us, w) else unsparse_pieces us pieces w
  end.

Context {SL : SinkLaws W}.
Hypothesis Hlocal : 0 < local_buffer.
Context (minor blk checksum : Z) (all : list chunk) (max_size : Z).
Hypothesis Hok : image_ok blk all.
Hypothesis Hmax : blk * total_blocks all <= max_size.

(** The variables at the start of a call. *)
Definition call_vars (s : unsparse_state) (buff : Z) (data : list Z) (w : W) : vars :=
  mkVars (us_state s) (us_remaining s) (us_offset s) (us_processed s) buff data (us_image s) (us_chunk s) (us_fill s) w.

(** Between two calls. *)
Definition waiting (s : unsparse_state) (w : W) (calls : Z) (goal : list Z * Z) (later : list Z) : Prop :=
  inv minor blk checksum all (call_vars s 1 [] w) calls goal later /\ us_max_unsparse_size s = max_size /\
  us_writer s = true /\ us_seeker s = true.

Definition piece_ok (p : Z * list Z) : Prop := 0 < p.1 /\ p.2 <> [] /\ zlen p.2 mod 4 = 0.

Lemma effects_size_total cs : Forall (chunk_ok blk) cs -> effects_size (map (effect_of blk) cs) = blk * total_blocks cs.
Proof using.
  induction 1 as [|c cs [_ Hc] _ IH]; [cbn; lia|].
  change (effects_size (map (effect_of blk) (c :: cs)))
    with (effect_size (effect_of blk c) + effects_size (map (effect_of blk) cs)).
  change (total_blocks (c :: cs)) with (chunk_blocks c + total_blocks cs). rewrite IH.
  destruct c; cbn [effect_of effect_size chunk_blocks] in *; [destruct Hc as (_ & -> & _)|..]; lia.
Qed.

Lemma pending_moved (v v' : vars (W := W)) rest es :
  lv_state v' = lv_state v -> lv_offset v' = lv_offset v -> lv_remaining v' = lv_remaining v ->
  lv_processed v' = lv_processed v -> lv_image v' = lv_image v -> lv_chunk v' = lv_chunk v -> lv_fill v' = lv_fill v ->
  pending minor blk checksum all v rest es -> pending minor blk checksum all v' rest es.
Proof using. intros E1 E2 E3 E4 E5 E6 E7 P. destruct P; constructor; congruence. Qed.

(** One more piece. *)
Lemma unsparse_call s w calls goal buff data later : waiting s w calls goal (data ++ later) -> 1 <= calls ->
  piece_ok (buff, data) ->
  exists s' w', tegrabl_sparse_unsparse local_buffer (unsparse_fuel data) (Some s) buff data w =
      Ok (TEGRABL_NO_ERROR, Some s', w') /\ waiting s' w' (calls - 1) goal later /\
    us_state s' <> TEGRABL_UNSPARSE_PARTIAL_CHUNK_DONT_CARE.
Proof using SL Hlocal Hok Hmax.
  intros ([(rest & es & r & l & pos & P & E & Hh & Hg & Hp & Hr) _ _] & Em & Ew & Es) Hc (Hb & Hne & Ha). cbn [fst snd] in *.
  assert (Hdata : 0 < zlen data) by (destruct data; [done|unfold zlen; cbn [length]; lia]).
  assert (I : inv minor blk checksum all (call_vars s buff data w) (calls - 1) goal later).
  { split; [|done|done]. exists rest, es, r, l, pos. split; [by eapply pending_moved; [..|exact P]|].
    do 4 (split; [done|]). cbn [lv_data call_vars] in *. change (zlen (@nil Z) =? 0) with true in Hr.
    destruct (Z.eqb_spec (zlen data) 0); [lia|]. by replace (writes es + (calls - 1) + 1) with (writes es + calls + 0) by lia. }
  destruct (loop_ends local_buffer Hlocal minor blk checksum all Hok max_size Hmax (unsparse_fuel data) _ _ _ _ I) as
    (v' & E1 & G1 & [(rest1 & es1 & r1 & l1 & pos1 & P1 & E2 & Hh1 & Hg1 & Hp1 & Hr1) Ha1 Hb1]); [lia| |].
  { unfold measure, unsparse_fuel. change (lv_data (call_vars s buff data w)) with data. unfold zlen.
    destruct (_ =? TEGRABL_UNSPARSE_PARTIAL_CHUNK_DONT_CARE); lia. }
  unfold tegrabl_sparse_unsparse. rewrite (proj2 (Z.eqb_neq buff 0)), (proj2 (Z.eqb_neq (zlen data) 0)), Ew, Es by lia.
  cbn [orb negb]. fold (call_vars s buff data w). rewrite Em, E1. cbn [res_bind].
  apply orb_false_iff in G1 as [G1 G2]. destruct (Z.eqb_spec (zlen (lv_data v')) 0) as [Hz|]; [|done].
  assert (lv_data v' = []) as Ed by (destruct (lv_data v'); [done|unfold zlen in Hz; cbn [length] in Hz; lia]).
  eexists _, _. split; [reflexivity|]. split; [|by apply Z.eqb_neq]. split; [|done].
  split; [|done|done]. exists rest1, es1, r1, l1, pos1. split; [by eapply pending_moved; [..|exact P1]|].
  rewrite Ed in E2. do 4 (split; [done|]). exact Hr1.
Qed.

(** Nothing is left to do when the image is complete. *)
Lemma pending_nil (v : vars (W := W)) rest es : pending minor blk checksum all v rest es -> rest = [] ->
  lv_state v <> TEGRABL_UNSPARSE_PARTIAL_CHUNK_DONT_CARE ->
  es = [] /\ lv_state v = TEGRABL_UNSPARSE_PARTIAL_CHUNK_HEADER.
Proof using.
  assert (Hd : forall j (h x : list Z), 0 <= j < zlen h -> drop (Z.to_nat j) h ++ x <> []).
  { intros j h x Hj Hx. apply app_eq_nil in Hx as [Hx _]. apply (f_equal length) in Hx.
    rewrite length_drop in Hx. unfold zlen in Hj. cbn in Hx. lia. }
  destruct 1 as [j Hj|Es|c cs j Hj|bs cs Hne|word k cs Hw|k cs _ _ Es]; intros Hx Hs.
  - by destruct (Hd j (HDR minor blk checksum all) _ Hj Hx).
  - done.
  - by destruct (Hd j (header_of c) _ Hj Hx).
  - by apply app_eq_nil in Hx as [Hx _].
  - apply app_eq_nil in Hx as [-> _]. done.
  - done.
Qed.

Lemma waiting_done s w calls goal : waiting s w calls goal [] ->
  us_state s <> TEGRABL_UNSPARSE_PARTIAL_CHUNK_DONT_CARE ->
  exists r, sk_holds w r goal.1 goal.2 /\ us_state s = TEGRABL_UNSPARSE_PARTIAL_CHUNK_HEADER.
Proof using.
  intros ([(rest & es & r & l & pos & P & E & Hh & Hg & Hp & Hr) _ _] & _) Hs.
  destruct (pending_nil _ _ _ P (eq_sym E) Hs) as [-> Hst]. exists r. rewrite <- Hg. done.
Qed.

Lemma unsparse_rest pieces s w goal : Forall piece_ok pieces -> waiting s w (zlen pieces) goal (concat (map snd pieces)) ->
  us_state s <> TEGRABL_UNSPARSE_PARTIAL_CHUNK_DONT_CARE ->
  exists s' w' r, unsparse_pieces (Some s) pieces w = Ok (TEGRABL_NO_ERROR, Some s', w') /\ sk_holds w' r goal.1 goal.2 /\
    us_state s' = TEGRABL_UNSPARSE_PARTIAL_CHUNK_HEADER.
Proof using SL Hlocal Hok Hmax.
  intros Hp. revert s w. induction Hp as [|[buff data] pieces Hpc _ IH]; intros s w Hw Hs.
  - destruct (waiting_done _ _ _ _ Hw Hs) as (r & Hh & E). by exists s, w, r.
  - assert (Hz : zlen ((buff, data) :: pieces) - 1 = zlen pieces) by (unfold zlen; cbn [length]; lia).
    destruct (unsparse_call _ _ _ _ buff data _ Hw) as (s1 & w1 & E1 & W1 & N1); [pose proof (zlen_nonneg pieces); lia|done|].
    rewrite Hz in W1. cbn [unsparse_pieces]. rewrite E1. cbn [res_bind]. rewrite Z.eqb_refl. by apply IH.
Qed.

(** The state [tegrabl_sparse_init_unsparse_state] leaves. *)
Definition fresh_state : unsparse_state :=
  mkUnsparse TEGRABL_UNSPARSE_PARTIAL_IMAGE_HEADER zero_image zero_chunk 0 sizeof_image_header max_size [0; 0; 0; 0] 0 true true.

Lemma fresh_waiting w r l pos calls : sk_holds w r l pos -> pos + blk * total_blocks all <= zlen l ->
  sk_cost * (writes (map (effect_of blk) all) + calls) <= r ->
  waiting fresh_state w calls (apply_effects (l, pos) (map (effect_of blk) all)) (encode_image minor blk checksum all).
Proof using Hok.
  intros Hh Hp Hr. split; [|done]. split; [|done|done].
  exists (encode_image minor blk checksum all), (map (effect_of blk) all), r, l, pos.
  split; [by apply (pd_head _ _ _ _ _ 0)|]. do 3 (split; [done|]).
  rewrite effects_size_total by apply Hok. split; [done|]. by rewrite Z.add_0_r.
Qed.

Lemma apply_position cs l pos : Forall (chunk_ok blk) cs ->
  (apply_effects (l, pos) (map (effect_of blk) cs)).2 = pos + blk * total_blocks cs.
Proof using.
  intros Hcs. rewrite <- effects_size_total by done. clear Hcs. revert l pos.
  induction cs as [|c cs IH]; intros l pos; [cbn; lia|]. unfold apply_effects in *. cbn [map foldl effects_size foldr].
  fold (effects_size (map (effect_of blk) cs)). destruct c; cbn [effect_of apply_effect effect_size]; rewrite IH; lia.
Qed.
End Pieces.

(** The pieces of an image unpack to what it stands for. *)
Lemma image_unpacks {W} {IS : ImageSink W} {SL : SinkLaws W} local_buffer minor blk checksum cs max_size pieces
    (w : W) r l pos us :
  0 < local_buffer -> image_ok blk cs -> blk * total_blocks cs <= max_size ->
  tegrabl_sparse_init_unsparse_state true max_size true true = (TEGRABL_NO_ERROR, Some us) ->
  Forall piece_ok pieces -> concat (map snd pieces) = encode_image minor blk checksum cs ->
  sk_holds w r l pos -> pos + blk * total_blocks cs <= zlen l ->
  sk_cost * (writes (map (effect_of blk) cs) + zlen pieces) <= r ->
  exists us' w' r', unsparse_pieces local_buffer (Some us) pieces w = Ok (TEGRABL_NO_ERROR, Some us', w') /\
    sk_holds w' r' (unpacked blk cs l pos) (pos + blk * total_blocks cs) /\
    us_state us' = TEGRABL_UNSPARSE_PARTIAL_CHUNK_HEADER.
Proof.
  intros Hlocal Hok Hmax Hinit Hp E Hh Hl Hr.
  assert (us = fresh_state max_size) as ->.
  { unfold tegrabl_sparse_init_unsparse_state in Hinit. cbn [negb orb] in Hinit.
    destruct (max_size =? 0); [done|]. by injection Hinit as <-. }
  pose proof (fresh_waiting minor blk checksum cs max_size Hok w r l pos (zlen pieces) Hh Hl Hr) as Hw. rewrite <- E in Hw.
  destruct (unsparse_rest local_buffer Hlocal minor blk checksum cs max_size Hok Hmax _ _ _ _ Hp Hw) as
    (s' & w' & r' & E1 & H1 & S1); [done|].
  exists s', w', r'. rewrite apply_position in H1 by apply Hok. done.
Qed.

(** C20: A sparse image unpacks to what it stands for.  The image has any raw, fill and
    don't-care chunks, its blocks have a multiple of four bytes, it fits the limit given
    at initialisation and the space behind the position of the sink.  It arrives in any
    number of pieces of any sizes that are multiples of four bytes, cut anywhere: in the image
    header, in a chunk header, in the data of a raw chunk.  Every call returns without an error,
    and at the end the sink holds the old data with every chunk laid over it and stands
    behind the last block, and the machine expects another chunk. *)
Theorem sparse_image_unpacked {W} {IS : ImageSink W} {SL : SinkLaws W} local_buffer minor blk checksum cs max_size pieces
    (w : W) r l pos us :
  0 < local_buffer -> image_ok blk cs -> blk * total_blocks cs <= max_size ->
  tegrabl_sparse_init_unsparse_state true max_size true true = (TEGRABL_NO_ERROR, Some us) ->
  Forall piece_ok pieces -> concat (map snd pieces) = encode_image minor blk checksum cs ->
  sk_holds w r l pos -> pos + blk * total_blocks cs <= zlen l ->
  sk_cost * (writes (map (effect_of blk) cs) + zlen pieces) <= r ->
  exists us' w' r', unsparse_pieces local_buffer (Some us) pieces w = Ok (TEGRABL_NO_ERROR, Some us', w') /\
    sk_holds w' r' (unpacked blk cs l pos) (pos + blk * total_blocks cs) /\
    us_state us' = TEGRABL_UNSPARSE_PARTIAL_CHUNK_HEADER.
Proof. apply image_unpacks. Qed.

(** ** A sink in memory *)

(** The data and the position. *)
#[export] Instance mem_sink : ImageSink (list Z * Z) := {
  sk_write w buf data len := Ok (TEGRABL_NO_ERROR, (splice w.2 data w.1, w.2 + len));
  sk_seek w n := Ok (TEGRABL_NO_ERROR, (w.1, w.2 + n))
}.

#[export] Instance mem_sink_laws : SinkLaws (list Z * Z).
Proof.
  refine {| sk_holds := fun w r l pos => w = (l, pos) /\ 0 <= pos; sk_cost := 0 |}; [lia|by intros ? ? ? ? [_ ?]|..].
  - intros w r l pos buf data len [-> Hp] _ Hlen _ _ _. cbn. eexists. split; [done|]. split; [done|lia].
  - intros w r l pos n [-> Hp] Hn _. cbn. eexists. split; [done|]. split; [done|lia].
Defined.

(** An image of one block of each kind, cut inside the header, the chunk headers and
    the raw data. *)
Definition demo_chunks : list chunk := [CRaw [1; 2; 3; 4; 5; 6; 7; 8] 1; CSkip 1; CFill [9; 10; 11; 12] 2].
Definition demo_image : list Z := encode_image 0 8 0 demo_chunks.
Definition demo_pieces : list (Z * list Z) :=
  [(4096, slice 0 8 demo_image); (8192, slice 8 24 demo_image); (4096, slice 32 12 demo_image); (64, slice 44 40 demo_image)].

Lemma sparse_image_unpacked_witness : exists us us' w' r',
  tegrabl_sparse_init_unsparse_state true 64 true true = (TEGRABL_NO_ERROR, Some us) /\
  unsparse_pieces 512 (Some us) demo_pieces (replicate 40 0, 4) = Ok (TEGRABL_NO_ERROR, Some us', w') /\
  sk_holds w' r' ([0; 0; 0; 0; 1; 2; 3; 4; 5; 6; 7; 8; 0; 0; 0; 0; 0; 0; 0; 0; 9; 10; 11; 12; 9; 10; 11; 12;
    9; 10; 11; 12; 9; 10; 11; 12; 0; 0; 0; 0]) 36 /\ us_state us' = TEGRABL_UNSPARSE_PARTIAL_CHUNK_HEADER.
Proof.
  eexists. 
  destruct (sparse_image_unpacked 512 0 8 0 demo_chunks 64 demo_pieces (replicate 40 0, 4) 0 (replicate 40 0) 4
    (fresh_state 64)) as (us' & w' & r' & H); [lia| |done|done| |reflexivity|done|vm_compute; congruence|vm_compute; congruence|].
  - split; try done. unfold demo_chunks. repeat constructor; done.
  - unfold demo_pieces, piece_ok. repeat constructor; done.
  - exists us', w', r'. split; [reflexivity|exact H].
Defined.
