(* ===== verification/SparseBuild.v ===== *)
(** Building a sparse image: the buffer after any sequence of chunks, and what it unpacks to. *)

From S2P Require Import Prelude TegraError Utils Sparse SparseFacts SparseSteps SparseProps.

(** One call of [tegrabl_sparse_add_chunk]: type, data, and the bytes to write. *)
Record build_op := mkOp { op_type : Z; op_data : list Z; op_write_size : Z }.

(** The calls in order; an error ends them. *)
Fixpoint build_chunks (s : option sparse_state) (ops : list build_op) : res (Z * option sparse_state) :=
  match ops with
  | [] => Ok (TEGRABL_NO_ERROR, s)
  | o :: ops =>
      let* (error, s) := tegrabl_sparse_add_chunk true s (op_type o) (op_data o) (op_write_size o) in
      if negb (error =? TEGRABL_NO_ERROR) then Ok (error, s) else build_chunks s ops
  end.

(** Bytes rounded up to blocks. *)
Definition blocks_of (blk n : Z) : Z := (n + blk - 1) / blk.

(** The chunk a call stands for: raw data is padded with zeros to whole blocks. *)
Definition chunk_of (blk : Z) (o : build_op) : chunk :=
  let n := blocks_of blk (op_write_size o) in
  if op_type o =? TEGRABL_SPARSE_CHUNK_TYPE_RAW
  then CRaw (op_data o ++ replicate (Z.to_nat (n * blk - zlen (op_data o))) 0) n
  else if op_type o =? TEGRABL_SPARSE_CHUNK_TYPE_FILL then CFill (op_data o) n
  else CSkip n.

(** Arguments that are accepted and within 32 bits. *)
Definition op_ok (blk : Z) (o : build_op) : Prop :=
  0 < op_write_size o /\ op_write_size o + blk - 1 < 2 ^ 32 /\
  (op_type o = TEGRABL_SPARSE_CHUNK_TYPE_RAW /\ zlen (op_data o) = op_write_size o /\
     12 + blocks_of blk (op_write_size o) * blk < 2 ^ 32 \/
   op_type o = TEGRABL_SPARSE_CHUNK_TYPE_FILL /\ zlen (op_data o) = 4 \/
   op_type o = TEGRABL_SPARSE_CHUNK_TYPE_DONT_CARE /\ op_data o = []).

Section Build.
Context (blk : Z).
Hypothesis Hblk : 0 < blk < 2 ^ 32.

Lemma blocks_of_bounds n : 0 < n -> n + blk - 1 < 2 ^ 32 -> 0 < blocks_of blk n < 2 ^ 32 /\ n <= blocks_of blk n * blk < n + blk.
Proof.
  intros Hn Hm. unfold blocks_of. pose proof (Z.div_mod (n + blk - 1) blk ltac:(lia)).
  pose proof (Z.mod_pos_bound (n + blk - 1) blk ltac:(lia)).
  assert (0 < (n + blk - 1) / blk) by (apply Z.div_str_pos; lia).
  assert ((n + blk - 1) / blk <= n + blk - 1) by (apply Z.div_le_upper_bound; nia). nia.
Qed.

(** The fields of a header with chunks behind it. *)
Lemma built_fields total count ck rest : 0 <= total < 2 ^ 32 -> 0 <= count < 2 ^ 32 ->
  let b := image_header 0 blk total count ck ++ rest in
  ih_chunk_hdr_sz b = 12 /\ ih_blk_sz b = blk /\ ih_total_blks b = total /\ ih_total_chunks b = count.
Proof.
  intros Ht Hc b. split; [reflexivity|]. split; [|split]; apply (le_val_bytes 4); lia.
Qed.

Lemma count_chunk_header total count ck rest n : 0 <= total -> 0 <= n -> total + n < 2 ^ 32 -> 0 <= count < 2 ^ 32 - 1 ->
  count_chunk (image_header 0 blk total count ck ++ rest) n = image_header 0 blk (total + n) (count + 1) ck ++ rest.
Proof.
  intros Ht Hn Hs Hc. unfold count_chunk.
  destruct (built_fields total count ck rest) as (_ & _ & E1 & E2); [lia|lia|]. rewrite E1, (u32_small (total + n)) by lia.
  assert (E3 : splice 16 (le_bytes 4 (total + n)) (image_header 0 blk total count ck ++ rest) =
    image_header 0 blk (total + n) count ck ++ rest) by reflexivity.
  rewrite E3. destruct (built_fields (total + n) count ck rest) as (_ & _ & _ & E4); [lia|lia|].
  rewrite E4, u32_small by lia. reflexivity.
Qed.

Lemma total_blocks_app cs c : total_blocks (cs ++ [c]) = total_blocks cs + chunk_blocks c.
Proof.
  induction cs as [|d cs IH]; [cbn; lia|]. cbn [app]. change (total_blocks (d :: cs ++ [c])) with (chunk_blocks d + total_blocks (cs ++ [c])).
  change (total_blocks (d :: cs)) with (chunk_blocks d + total_blocks cs). rewrite IH. lia.
Qed.

(** A new chunk, with the data copied into it, is the encoding of the chunk. *)
Lemma new_chunk_encoded type n data size : 12 + zlen data <= size ->
  copy_to (new_chunk type n size size) 12 data (zlen data) =
  Ok (chunk_header type 0 n size ++ data ++ replicate (Z.to_nat (size - 12 - zlen data)) 0).
Proof.
  intros Hs. pose proof (zlen_nonneg data).
  assert (E : new_chunk type n size size = chunk_header type 0 n size ++ replicate (Z.to_nat (size - 12)) 0).
  { unfold new_chunk. replace (Z.to_nat size) with (12 + Z.to_nat (size - 12))%nat by lia.
    rewrite replicate_add. reflexivity. }
  rewrite E. unfold copy_to. rewrite zlen_app. change (zlen (chunk_header type 0 n size)) with 12.
  unfold zlen at 2. rewrite length_replicate, Z2Nat.id by lia.
  rewrite (proj2 (Z.leb_le (12 + zlen data) _)) by lia. change (0 <=? 12) with true. cbn [andb]. f_equal.
  rewrite slice_all. unfold splice. rewrite take_app_length' by reflexivity. f_equal. f_equal.
  rewrite drop_app_ge by (change (length (chunk_header type 0 n size)) with 12%nat; lia).
  change (length (chunk_header type 0 n size)) with 12%nat. rewrite drop_replicate. f_equal. unfold zlen. lia.
Qed.

(** The size the routine computes, and the encoding it produces. *)
Lemma op_encoded o : op_ok blk o -> let c := chunk_of blk o in let size := 12 + zlen (payload c) in
  chunk_ok blk c /\ chunk_blocks c = blocks_of blk (op_write_size o) /\
  (forall b, ih_chunk_hdr_sz b = 12 -> ih_blk_sz b = blk ->
     chunk_buffer_size b (op_type o) (zlen (op_data o)) (op_write_size o) = Ok (Some size)) /\
  copy_to (new_chunk (op_type o) (chunk_blocks c) size size) 12 (op_data o) (zlen (op_data o)) = Ok (encode_chunk c).
Proof.
  intros (Hw & Hm & Ho). pose proof (blocks_of_bounds (op_write_size o) Hw Hm) as [[Hn1 Hn2] Hn3].
  set (n := blocks_of blk (op_write_size o)) in *.
  destruct Ho as [(Et & Ed & Hs)|[(Et & Ed)|(Et & Ed)]]; unfold chunk_of; rewrite Et; fold n.
  - rewrite Z.eqb_refl. set (k := Z.to_nat (n * blk - zlen (op_data o))).
    assert (Hz : zlen (op_data o ++ replicate k 0) = n * blk).
    { rewrite zlen_app. unfold k, zlen at 2. rewrite length_replicate. lia. }
    cbn [chunk_blocks payload]. rewrite Hz. split; [split; cbn [chunk_blocks]; unfold sizeof_chunk_header; lia|]. split; [done|]. split.
    + intros b E1 E2. unfold chunk_buffer_size. rewrite E1, E2. change (TEGRABL_SPARSE_CHUNK_TYPE_RAW =? TEGRABL_SPARSE_CHUNK_TYPE_RAW) with true.
      cbv iota. unfold ROUND_UP, DIV_CEIL. rewrite (proj2 (Z.eqb_neq blk 0)) by lia. cbn [res_bind].
      rewrite (u32_small (op_write_size o + blk - 1)) by lia. fold (blocks_of blk (op_write_size o)). fold n.
      rewrite (u32_small (n * blk)), Ed, Z.eqb_refl by lia. cbn [negb]. by rewrite u32_small by lia.
    + rewrite new_chunk_encoded by lia. f_equal. unfold encode_chunk, header_of. cbn [payload chunk_type chunk_blocks].
      unfold sizeof_chunk_header. rewrite Hz. do 3 f_equal. unfold k. lia.
  - change (TEGRABL_SPARSE_CHUNK_TYPE_FILL =? TEGRABL_SPARSE_CHUNK_TYPE_RAW) with false.
    change (TEGRABL_SPARSE_CHUNK_TYPE_FILL =? TEGRABL_SPARSE_CHUNK_TYPE_FILL) with true. cbv iota.
    cbn [chunk_blocks payload]. split; [split; cbn [chunk_blocks]; lia|]. split; [done|]. split.
    + intros b E1 E2. unfold chunk_buffer_size. rewrite E1, Ed. reflexivity.
    + rewrite Ed, <- Ed at 1. rewrite new_chunk_encoded by lia. f_equal. unfold encode_chunk, header_of.
      cbn [payload chunk_type chunk_blocks]. unfold sizeof_chunk_header. rewrite Ed. f_equal.
      change (Z.to_nat (12 + 4 - 12 - 4)) with 0%nat. apply app_nil_r.
  - rewrite Ed. cbn [chunk_blocks payload TEGRABL_SPARSE_CHUNK_TYPE_RAW TEGRABL_SPARSE_CHUNK_TYPE_FILL TEGRABL_SPARSE_CHUNK_TYPE_DONT_CARE Z.eqb Pos.eqb].
    split; [split; cbn [chunk_blocks]; [lia|done]|]. split; [done|]. split.
    + intros b E1 E2. unfold chunk_buffer_size. rewrite E1. reflexivity.
    + rewrite new_chunk_encoded by (cbn; lia). reflexivity.
Qed.

(** The state after the chunks [cs]. *)
Definition built (cs : list chunk) : sparse_state :=
  mkSparse (Some (encode_image 0 blk 0 cs)) (zlen (encode_image 0 blk 0 cs)) (blk * total_blocks cs).

Lemma encode_image_app cs c : encode_image 0 blk 0 (cs ++ [c]) =
  image_header 0 blk (total_blocks cs + chunk_blocks c) (zlen cs + 1) 0 ++ encode_chunks cs ++ encode_chunk c.
Proof.
  unfold encode_image, encode_chunks. rewrite total_blocks_app, zlen_app, map_app, concat_app. cbn [map concat].
  by rewrite app_nil_r.
Qed.

Lemma add_chunk_built cs o : Forall (chunk_ok blk) cs -> op_ok blk o ->
  total_blocks cs + chunk_blocks (chunk_of blk o) < 2 ^ 32 -> zlen cs + 1 < 2 ^ 32 ->
  zlen (encode_image 0 blk 0 (cs ++ [chunk_of blk o])) < 2 ^ 64 ->
  tegrabl_sparse_add_chunk true (Some (built cs)) (op_type o) (op_data o) (op_write_size o) =
    Ok (TEGRABL_NO_ERROR, Some (built (cs ++ [chunk_of blk o]))).
Proof.
  intros Hcs Ho Ht Hc Hl. destruct (op_encoded o Ho) as (Hk & En & Es & Ec). set (c := chunk_of blk o) in *.
  pose proof (total_blocks_nonneg blk cs Hcs) as Ht0. destruct (proj1 Hk) as [Hn0 _].
  pose proof (zlen_nonneg cs). destruct Ho as (Hw & Hm & _).
  pose proof (blocks_of_bounds (op_write_size o) Hw Hm) as [Hb1 Hb2]. rewrite encode_image_app in Hl.
  destruct (built_fields (total_blocks cs) (zlen cs) 0 (encode_chunks cs)) as (F1 & F2 & _ & _); [lia|lia|].
  unfold tegrabl_sparse_add_chunk, built. fold (encode_image 0 blk 0 cs) in F1, F2.
  assert (Hz : 0 < zlen (encode_image 0 blk 0 cs)).
  { unfold encode_image. rewrite zlen_app. change (zlen (image_header _ _ _ _ _)) with 28. pose proof (zlen_nonneg (encode_chunks cs)). lia. }
  rewrite (proj2 (Z.eqb_neq (op_write_size o) 0)), (proj2 (Z.eqb_neq (zlen (encode_image 0 blk 0 cs)) 0)) by lia. cbn [orb].
  rewrite (Es _ F1 F2). cbn [res_bind negb]. unfold DIV_CEIL, ROUND_UP, DIV_CEIL. rewrite F2, F1.
  rewrite (proj2 (Z.eqb_neq blk 0)) by lia. cbn [res_bind]. rewrite (u32_small (op_write_size o + blk - 1)) by lia.
  fold (blocks_of blk (op_write_size o)). rewrite <- En. pose proof (zlen_nonneg (payload c)) as Hp.
  rewrite (proj2 (Z.leb_le 12 _)) by lia. cbn [negb]. rewrite Ec. cbn [res_bind].
  assert (Hec : zlen (encode_chunk c) = 12 + zlen (payload c)).
  { unfold encode_chunk. rewrite zlen_app. reflexivity. }
  rewrite encode_image_app. unfold encode_image in *. rewrite count_chunk_header by lia.
  rewrite !zlen_app, Hec in *. change (zlen (image_header _ _ _ _ _)) with 28 in *.
  rewrite total_blocks_app. do 4 f_equal; [rewrite u64_small; lia|].
  rewrite En in *. rewrite (u32_small (blocks_of blk (op_write_size o) * blk)) by lia. rewrite u64_small; nia.
Qed.

Lemma total_blocks_mono cs ds : Forall (chunk_ok blk) ds -> total_blocks cs <= total_blocks (cs ++ ds).
Proof.
  intros Hd. induction cs as [|c cs IH]; [by apply total_blocks_nonneg with blk|].
  change (chunk_blocks c + total_blocks cs <= chunk_blocks c + total_blocks (cs ++ ds)). lia.
Qed.

Lemma encode_mono cs ds : zlen (encode_image 0 blk 0 cs) <= zlen (encode_image 0 blk 0 (cs ++ ds)).
Proof.
  unfold encode_image, encode_chunks. rewrite !zlen_app, map_app, concat_app, zlen_app.
  change (zlen (image_header _ _ _ _ _)) with 28. pose proof (zlen_nonneg (concat (map encode_chunk ds))). lia.
Qed.

Lemma build_chunks_built ops cs : Forall (op_ok blk) ops -> Forall (chunk_ok blk) cs ->
  let all := cs ++ map (chunk_of blk) ops in
  total_blocks all < 2 ^ 32 -> zlen all < 2 ^ 32 -> zlen (encode_image 0 blk 0 all) < 2 ^ 64 ->
  build_chunks (Some (built cs)) ops = Ok (TEGRABL_NO_ERROR, Some (built all)).
Proof.
  intros Ho. revert cs. induction Ho as [|o ops Hoo Hos IH]; intros cs Hcs all Ht Hc Hl.
  - unfold all. cbn [map]. by rewrite app_nil_r.
  - assert (Eall : all = (cs ++ [chunk_of blk o]) ++ map (chunk_of blk) ops) by (unfold all; by rewrite <- app_assoc).
    destruct (op_encoded o Hoo) as (Hk & _).
    assert (Hks : Forall (chunk_ok blk) (map (chunk_of blk) ops)).
    { apply Forall_map. eapply Forall_impl; [exact Hos|]. intros x Hx. by apply op_encoded. }
    pose proof (total_blocks_mono (cs ++ [chunk_of blk o]) _ Hks). pose proof (encode_mono (cs ++ [chunk_of blk o]) (map (chunk_of blk) ops)).
    rewrite <- Eall in *. rewrite total_blocks_app in *. 
    assert (zlen all = zlen cs + 1 + zlen ops).
    { rewrite Eall, !zlen_app. unfold zlen. cbn [length]. rewrite length_map. lia. }
    pose proof (zlen_nonneg ops). cbn [build_chunks]. rewrite add_chunk_built by (done || lia). cbn [res_bind].
    rewrite Z.eqb_refl. cbn [negb]. rewrite IH; [by rewrite Eall|..].
    + apply Forall_app. split; [done|]. by apply Forall_singleton.
    + by rewrite <- Eall.
    + by rewrite <- Eall.
    + by rewrite <- Eall.
Qed.

Lemma init_built s : blk mod 4096 = 0 ->
  tegrabl_sparse_init true (Some s) blk = (TEGRABL_NO_ERROR, Some (built [])).
Proof. intros Hm. unfold tegrabl_sparse_init. unfold built. change (total_blocks []) with 0. by rewrite Hm, Z.eqb_refl, Z.mul_0_r. Qed.

(** The bytes of an image come in words. *)
Lemma encode_align cs : blk mod 4 = 0 -> Forall (chunk_ok blk) cs -> zlen (encode_chunks cs) mod 4 = 0.
Proof.
  intros Hb. induction 1 as [|c cs [_ Hc] _ IH]; [done|]. unfold encode_chunks. cbn [map concat].
  fold (encode_chunks cs). unfold encode_chunk. rewrite !zlen_app. change (zlen (header_of c)) with 12.
  assert (Hp : zlen (payload c) mod 4 = 0).
  { destruct c as [bs n|w n|n]; cbn [payload].
    - destruct Hc as (_ & -> & _). rewrite Z.mul_mod, Hb, Z.mul_0_r by lia. done.
    - by rewrite Hc.
    - done. }
  rewrite Z.add_mod, IH, Z.add_0_r, Z.mod_mod by lia. by rewrite Z.add_mod, Hp.
Qed.
End Build.

(** An image in one piece. *)
Lemma image_unpacks_once {W} {IS : ImageSink W} {SL : SinkLaws W} local_buffer minor blk checksum cs max_size buff (w : W) r l pos us :
  0 < local_buffer -> 0 < buff -> image_ok blk cs -> blk * total_blocks cs <= max_size ->
  tegrabl_sparse_init_unsparse_state true max_size true true = (TEGRABL_NO_ERROR, Some us) ->
  sk_holds w r l pos -> pos + blk * total_blocks cs <= zlen l -> sk_cost * (writes (map (effect_of blk) cs) + 1) <= r ->
  let b := encode_image minor blk checksum cs in
  exists us' w' r', tegrabl_sparse_unsparse local_buffer (unsparse_fuel b) (Some us) buff b w = Ok (TEGRABL_NO_ERROR, us', w') /\
    sk_holds w' r' (unpacked blk cs l pos) (pos + blk * total_blocks cs).
Proof.
  intros Hlb Hbf Hok Hmax Hus Hh Hp Hr b.
  assert (Hbl : zlen b = 28 + zlen (encode_chunks cs)) by (unfold b, encode_image; by rewrite zlen_app).
  pose proof (zlen_nonneg (encode_chunks cs)) as Hn.
  destruct (image_unpacks local_buffer minor blk checksum cs max_size [(buff, b)] w r l pos us) as (us' & w' & r' & E & H1 & _); try done.
  { repeat constructor; cbn [fst snd]; [done| |].
    - intros Eb. rewrite Eb in Hbl. change (zlen (@nil Z)) with 0 in Hbl. lia.
    - rewrite Hbl, Z.add_mod, (encode_align blk) by (done || apply Hok). done. }
  { cbn [map concat]. apply app_nil_r. }
  cbn [unsparse_pieces] in E. exists (Some us'), w', r'. split; [|done].
  destruct (tegrabl_sparse_unsparse _ _ _ _ _ _) as [[[e u] w1]|]; [|done]. cbn [res_bind] in E.
  destruct (Z.eqb_spec e TEGRABL_NO_ERROR) as [->|He]; cbn [negb] in E; [by injection E as -> ->|].
  by injection E as -> _ _.
Qed.

(** C21: building an image and unpacking it.  After initialisation with a block size that is a multiple
    of 4096, any sequence of raw, fill and don't-care chunks with acceptable arguments and sizes
    within 32 bits is added without an error; the buffer handed out is recognised as a
    sparse image, has the size reported, and unpacked in one call by a fresh machine leaves the
    chunks, raw data padded with zeros to whole blocks, over the old data. *)
Theorem sparse_build_unpack {W} {IS : ImageSink W} {SL : SinkLaws W} local_buffer blk ops s0 buff max_size (w : W) r l pos us :
  0 < local_buffer -> 0 < buff -> 0 < blk < 2 ^ 32 -> blk mod 4096 = 0 -> Forall (op_ok blk) ops ->
  let cs := map (chunk_of blk) ops in
  total_blocks cs < 2 ^ 32 -> zlen cs < 2 ^ 32 -> zlen (encode_image 0 blk 0 cs) < 2 ^ 64 ->
  blk * total_blocks cs <= max_size ->
  tegrabl_sparse_init_unsparse_state true max_size true true = (TEGRABL_NO_ERROR, Some us) ->
  sk_holds w r l pos -> pos + blk * total_blocks cs <= zlen l -> sk_cost * (writes (map (effect_of blk) cs) + 1) <= r ->
  exists s1 s2 b us' w' r',
    tegrabl_sparse_init true (Some s0) blk = (TEGRABL_NO_ERROR, s1) /\
    build_chunks s1 ops = Ok (TEGRABL_NO_ERROR, s2) /\
    tegrabl_sparse_get_buffer s2 true true = (TEGRABL_NO_ERROR, Some (b, zlen b)) /\
    tegrabl_sparse_image_check b = true /\
    tegrabl_sparse_unsparse local_buffer (unsparse_fuel b) (Some us) buff b w = Ok (TEGRABL_NO_ERROR, us', w') /\
    sk_holds w' r' (unpacked blk cs l pos) (pos + blk * total_blocks cs).
Proof.
  intros Hlb Hbf Hb Hm Ho cs Ht Hc Hl Hmax Hus Hh Hp Hr.
  assert (Hks : Forall (chunk_ok blk) cs).
  { apply Forall_map. eapply Forall_impl; [exact Ho|]. intros x Hx. by apply op_encoded. }
  assert (Hok : image_ok blk cs).
  { split; try done. rewrite (Z.div_mod blk 4096), Hm by lia. rewrite Z.add_0_r.
    change 4096 with (4 * 1024). rewrite <- Z.mul_assoc. by rewrite Z.mul_comm, Z.mod_mul. }
  set (b := encode_image 0 blk 0 cs) in *.
  assert (Hbl : zlen b = 28 + zlen (encode_chunks cs)) by (unfold b, encode_image; by rewrite zlen_app).
  pose proof (zlen_nonneg (encode_chunks cs)) as Hn.
  destruct (image_unpacks_once local_buffer 0 blk 0 cs max_size buff w r l pos us) as (us' & w' & r' & E & H1); try done.
  exists (Some (built blk [])), (Some (built blk cs)), b, us', w', r'.
  split; [by apply init_built|]. split; [by apply (build_chunks_built blk Hb ops [])|].
  split; [unfold tegrabl_sparse_get_buffer, built; fold b; by rewrite (proj2 (Z.eqb_neq (zlen b) 0)) by lia|].
  split; [unfold tegrabl_sparse_image_check; rewrite (proj2 (Z.ltb_ge (zlen b) 4)) by lia; reflexivity|]. done.
Qed.

(** Two blocks of raw data, one of them half full, and a hole. *)
Definition demo_ops : list build_op :=
  [mkOp TEGRABL_SPARSE_CHUNK_TYPE_RAW (replicate 6144 7) 6144; mkOp TEGRABL_SPARSE_CHUNK_TYPE_FILL [1; 2; 3; 4] 4096;
   mkOp TEGRABL_SPARSE_CHUNK_TYPE_DONT_CARE [] 100].

Lemma sparse_build_unpack_witness : exists s1 s2 b us us' w' r',
  tegrabl_sparse_init true (Some (mkSparse None 0 0)) 4096 = (TEGRABL_NO_ERROR, s1) /\
  build_chunks s1 demo_ops = Ok (TEGRABL_NO_ERROR, s2) /\
  tegrabl_sparse_get_buffer s2 true true = (TEGRABL_NO_ERROR, Some (b, zlen b)) /\
  tegrabl_sparse_image_check b = true /\
  tegrabl_sparse_unsparse 512 (unsparse_fuel b) us 4096 b (replicate 16384 0, 0) = Ok (TEGRABL_NO_ERROR, us', w') /\
  sk_holds w' r' (unpacked 4096 (map (chunk_of 4096) demo_ops) (replicate 16384 0) 0) 16384.
Proof.
  destruct (sparse_build_unpack 512 4096 demo_ops (mkSparse None 0 0) 4096 16384 (replicate 16384 0, 0) 0 (replicate 16384 0) 0
    (fresh_state 16384)) as (s1 & s2 & b & us' & w' & r' & H);
    [lia|lia|lia|done| |vm_compute; done|vm_compute; done|vm_compute; done|vm_compute; congruence|done|done|vm_compute; congruence|vm_compute; congruence|].
  - unfold demo_ops, op_ok. repeat (apply Forall_cons; split); [..|constructor]; cbn [op_type op_data op_write_size].
    + split; [lia|]. split; [lia|]. left. done.
    + split; [lia|]. split; [lia|]. right. left. done.
    + split; [lia|]. split; [lia|]. right. right. done.
  - exists s1, s2, b, (Some (fresh_state 16384)), us', w', r'. exact H.
Defined.
