(* ===== verification/SparseLimits.v ===== *)
(** Sparse images the machine does not expect: chunk headers longer than its own, a
    CRC chunk, a fill word cut in two, data beyond the size in the header. *)

From S2P Require Import Prelude TegraError Sparse SparseFacts.

Section Limits.
Context {W : Type} {IS : ImageSink W}.
Implicit Types (w : W) (v : vars (W := W)).
Context (local_buffer : Z).

(** An image header that gives [hdr_sz] as the size of a chunk header. *)
Definition header_with (hdr_sz blk total_blks total_chunks : Z) : list Z :=
  le_bytes 4 TEGRABL_SPARSE_HEADER_MAGIC ++ le_bytes 2 1 ++ le_bytes 2 0 ++ le_bytes 2 sizeof_image_header ++
  le_bytes 2 hdr_sz ++ le_bytes 4 blk ++ le_bytes 4 total_blks ++ le_bytes 4 total_chunks ++ le_bytes 4 0.

(** The machine before anything has arrived. *)
Definition start_state (max_size : Z) : unsparse_state :=
  mkUnsparse TEGRABL_UNSPARSE_PARTIAL_IMAGE_HEADER zero_image zero_chunk 0 sizeof_image_header max_size [0; 0; 0; 0] 0 true true.

Lemma header_with_len hdr_sz blk total count : zlen (header_with hdr_sz blk total count) = 28.
Proof. reflexivity. Qed.

(** The header of an image is accepted, and the chunk header it announces expected. *)
Lemma first_step max_size hdr_sz blk total count buff rest w :
  0 <= hdr_sz < 2 ^ 16 -> 0 <= blk < 2 ^ 32 -> 0 <= total < 2 ^ 32 -> blk * total <= max_size ->
  unsparse_step local_buffer max_size
    (mkVars TEGRABL_UNSPARSE_PARTIAL_IMAGE_HEADER 28 0 0 buff (header_with hdr_sz blk total count ++ rest) zero_image
       zero_chunk [0; 0; 0; 0] w) =
  Ok (inr (mkVars TEGRABL_UNSPARSE_PARTIAL_CHUNK_HEADER hdr_sz 0 0 (buff + 28) rest (header_with hdr_sz blk total count)
       zero_chunk [0; 0; 0; 0] w)).
Proof.
  intros Hh Hb Ht Hm. unfold unsparse_step. cbn [lv_state]. rewrite Z.eqb_refl.
  unfold step_image_header. cbn [lv_data lv_remaining lv_offset lv_image]. rewrite zlen_app, header_with_len.
  pose proof (zlen_nonneg rest). rewrite Z.min_r by lia. unfold copy_to. change (zlen zero_image) with 28.
  change ((0 <=? 0) && (0 + 28 <=? 28)) with true. cbv iota. cbn [res_bind].
  assert (E : slice 0 28 (header_with hdr_sz blk total count ++ rest) = header_with hdr_sz blk total count).
  { unfold slice. rewrite drop_0. apply take_app_length'. reflexivity. }
  rewrite E, splice_whole by reflexivity.
  cbn [consume_input set_headers lv_remaining lv_image lv_sink lv_processed lv_buf lv_data lv_fill].
  change (u64 (28 - 28)) with 0. rewrite Z.eqb_refl. cbn [negb]. unfold tegrabl_sparse_validate_header.
  assert (E1 : ih_blk_sz (header_with hdr_sz blk total count) = blk) by (apply (le_val_bytes 4); done).
  assert (E2 : ih_total_blks (header_with hdr_sz blk total count) = total) by (apply (le_val_bytes 4); done).
  assert (E3 : ih_chunk_hdr_sz (header_with hdr_sz blk total count) = hdr_sz) by (apply (le_val_bytes 2); done).
  change (ih_major_version (header_with hdr_sz blk total count)) with 1. rewrite E1, E2, E3, u64_small by nia.
  destruct (Z.ltb_spec max_size (blk * total)); [lia|]. unfold expect_header.
  cbn [Z.eqb Pos.eqb negb TEGRABL_SPARSE_HEADER_MAJOR_VERSION TEGRABL_NO_ERROR lv_processed lv_buf lv_data lv_image lv_fill lv_sink].
  done.
Qed.

Lemma loop_step fuel max_size v v' : goes_on v = true -> unsparse_step local_buffer max_size v = Ok (inr v') ->
  unsparse_loop local_buffer (S fuel) max_size v = unsparse_loop local_buffer fuel max_size v'.
Proof. intros G E. cbn [unsparse_loop]. by rewrite G, E. Qed.

Lemma input_goes_on v : lv_data v <> [] -> goes_on v = true.
Proof.
  intros Hd. unfold goes_on, zlen. destruct (lv_data v) as [|b l]; [done|]. cbn [length].
  destruct (Z.eqb_spec (Z.of_nat (S (length l))) 0); [lia|done].
Qed.

(** The first iteration of a call on a new image. *)
Lemma unsparse_first fuel max_size hdr_sz blk total count buff rest w :
  buff <> 0 -> 0 <= hdr_sz < 2 ^ 16 -> 0 <= blk < 2 ^ 32 -> 0 <= total < 2 ^ 32 -> blk * total <= max_size ->
  forall x, unsparse_loop local_buffer fuel max_size
    (mkVars TEGRABL_UNSPARSE_PARTIAL_CHUNK_HEADER hdr_sz 0 0 (buff + 28) rest (header_with hdr_sz blk total count)
       zero_chunk [0; 0; 0; 0] w) = Stuck x ->
  tegrabl_sparse_unsparse local_buffer (S fuel) (Some (start_state max_size)) buff
    (header_with hdr_sz blk total count ++ rest) w = Stuck x.
Proof.
  intros Hbf Hh Hb Ht Hm x E. unfold tegrabl_sparse_unsparse. cbn [start_state us_writer us_seeker negb orb].
  rewrite zlen_app, header_with_len. pose proof (zlen_nonneg rest).
  rewrite (proj2 (Z.eqb_neq buff 0)), (proj2 (Z.eqb_neq (28 + zlen rest) 0)) by lia. cbn [orb].
  cbn [us_max_unsparse_size us_state us_remaining us_offset us_processed us_image us_chunk us_fill].
  erewrite loop_step; [|by apply input_goes_on|by apply first_step].
  change (us_max_unsparse_size (start_state max_size)) with max_size. by rewrite E.
Qed.

(** The chunk header of an image is received into [struct tegrabl_sparse_chunk_header], of
    twelve bytes; how many bytes is what the image says.  An image that says more
    than twelve and has them makes the first call write behind the structure. *)
Theorem chunk_header_overrun fuel max_size hdr_sz blk total count buff rest w :
  buff <> 0 -> 12 < hdr_sz < 2 ^ 16 -> 12 < zlen rest -> 0 <= blk < 2 ^ 32 -> 0 <= total < 2 ^ 32 ->
  blk * total <= max_size ->
  tegrabl_sparse_unsparse local_buffer (S (S fuel)) (Some (start_state max_size)) buff
    (header_with hdr_sz blk total count ++ rest) w = Stuck OutOfBounds.
Proof.
  intros Hbf Hh Hr Hb Ht Hm. apply unsparse_first; try done; [lia|]. cbn [unsparse_loop]. unfold goes_on.
  cbn [lv_data lv_state]. rewrite (proj2 (Z.eqb_neq (zlen rest) 0)) by lia. cbn [orb negb].
  unfold unsparse_step, step_chunk_header, copy_to. cbn [lv_state lv_offset lv_data lv_remaining lv_chunk Z.eqb Pos.eqb
    TEGRABL_UNSPARSE_PARTIAL_IMAGE_HEADER TEGRABL_UNSPARSE_PARTIAL_CHUNK_HEADER].
  change (0 <? sizeof_chunk_header) with true. cbv iota. change (zlen zero_chunk) with 12. change (0 <=? 0) with true.
  destruct (Z.leb_spec (0 + Z.min (zlen rest) hdr_sz) 12); [lia|]. done.
Qed.

(** A chunk of type CRC with data behind its header is never left: however many
    iterations are allowed, they are used up. *)
Lemma crc_state_stays fuel max_size v : lv_state v = TEGRABL_UNSPARSE_PARTIAL_CHUNK_CRC -> lv_data v <> [] ->
  unsparse_loop local_buffer fuel max_size v = Stuck OutOfFuel.
Proof.
  intros Es Hd. pose proof (input_goes_on v Hd) as Hg.
  induction fuel as [|fuel IH]; cbn [unsparse_loop]; rewrite Hg; [done|]. unfold unsparse_step. rewrite Es.
  cbn [negb Z.eqb Pos.eqb TEGRABL_UNSPARSE_PARTIAL_CHUNK_CRC TEGRABL_UNSPARSE_PARTIAL_IMAGE_HEADER TEGRABL_UNSPARSE_PARTIAL_CHUNK_HEADER
    TEGRABL_UNSPARSE_PARTIAL_CHUNK_RAW TEGRABL_UNSPARSE_PARTIAL_CHUNK_FILL TEGRABL_UNSPARSE_PARTIAL_CHUNK_DONT_CARE res_bind].
  exact IH.
Qed.

Theorem crc_chunk_never_ends fuel max_size blk count total_sz crc buff w :
  buff <> 0 -> 0 <= blk < 2 ^ 32 -> 0 < count < 2 ^ 32 -> 0 <= total_sz < 2 ^ 32 -> 0 < max_size -> crc <> [] ->
  tegrabl_sparse_unsparse local_buffer fuel (Some (start_state max_size)) buff
    (header_with 12 blk 0 count ++ chunk_header TEGRABL_SPARSE_CHUNK_TYPE_CRC 0 0 total_sz ++ crc) w = Stuck OutOfFuel.
Proof.
  intros Hbf Hb Hc Ht Hm Hcrc. set (h := chunk_header TEGRABL_SPARSE_CHUNK_TYPE_CRC 0 0 total_sz).
  assert (Hcl : 0 < zlen crc) by (destruct crc; [done|unfold zlen; cbn [length]; lia]).
  destruct fuel as [|fuel].
  { unfold tegrabl_sparse_unsparse. cbn [start_state us_writer us_seeker negb orb].
    rewrite (proj2 (Z.eqb_neq buff 0)) by lia. reflexivity. }
  apply unsparse_first; try done; [lia|]. destruct fuel as [|fuel]; [reflexivity|]. cbn [unsparse_loop]. unfold goes_on.
  cbn [lv_data lv_state]. rewrite zlen_app. change (zlen h) with 12. rewrite (proj2 (Z.eqb_neq (12 + zlen crc) 0)) by lia.
  cbn [orb negb]. unfold unsparse_step, step_chunk_header, copy_to.
  cbn [lv_state lv_offset lv_data lv_remaining lv_chunk Z.eqb Pos.eqb TEGRABL_UNSPARSE_PARTIAL_IMAGE_HEADER
    TEGRABL_UNSPARSE_PARTIAL_CHUNK_HEADER].
  change (0 <? sizeof_chunk_header) with true. cbv iota. change (zlen zero_chunk) with 12. rewrite zlen_app.
  change (zlen h) with 12. rewrite Z.min_r by lia. change ((0 <=? 0) && (0 + 12 <=? 12)) with true. cbv iota. cbn [res_bind].
  assert (E : slice 0 12 (h ++ crc) = h) by (unfold slice; rewrite drop_0; by apply take_app_length').
  rewrite E, splice_whole by reflexivity.
  cbn [consume_input set_headers lv_remaining lv_image lv_chunk lv_sink lv_processed lv_buf lv_data lv_fill lv_state lv_offset].
  change (u64 (12 - 12) =? 0) with true. change (tegrabl_sparse_validate_chunk_header _ h) with TEGRABL_NO_ERROR.
  cbn [negb]. change (negb (TEGRABL_NO_ERROR =? TEGRABL_NO_ERROR)) with false. cbv iota.
  assert (E1 : ih_total_chunks (header_with 12 blk 0 count) = count) by (apply (le_val_bytes 4); lia).
  rewrite E1. change (u64 (0 + 1)) with 1. destruct (Z.ltb_spec count 1); [lia|]. cbn [res_bind].
  apply crc_state_stays; [reflexivity|]. cbn [lv_data]. rewrite drop_app_length' by reflexivity. done.
Qed.

(** Part of a fill word has arrived in an earlier call; the copy of the rest takes up to
    four bytes again, and goes behind the word. *)
Theorem fill_word_overrun v max_size : lv_state v = TEGRABL_UNSPARSE_PARTIAL_CHUNK_FILL -> zlen (lv_fill v) = 4 ->
  0 < lv_offset v < 4 -> 4 <= zlen (lv_data v) -> unsparse_step local_buffer max_size v = Stuck OutOfBounds.
Proof.
  intros Es Ef Ho Hd. unfold unsparse_step. rewrite Es.
  cbn [Z.eqb Pos.eqb TEGRABL_UNSPARSE_PARTIAL_IMAGE_HEADER TEGRABL_UNSPARSE_PARTIAL_CHUNK_HEADER
    TEGRABL_UNSPARSE_PARTIAL_CHUNK_RAW TEGRABL_UNSPARSE_PARTIAL_CHUNK_FILL].
  unfold step_fill, copy_to. rewrite (proj2 (Z.ltb_lt _ 4)), Ef, Z.min_r by lia.
  rewrite (proj2 (Z.leb_gt (lv_offset v + 4) 4)), andb_false_r by lia. done.
Qed.
End Limits.
