(* ===== verification/Fastboot.v ===== *)
(** Fastboot (lib/fastboot): the state of the server and what its commands are made of:
    replies, the names of partitions, lock state and board information
    (tegrabl_fastboot_oem.c), partition information (tegrabl_fastboot_partinfo.c), and the
    variables of the A/B slots (tegrabl_fastboot_a_b.c).  The commands are in
    FastbootCmd.v.

    What lies outside of the library is the class [Platform]: the USB transport, the hooks the
    board registers (lock state, slots), the routines that start a kernel, update the
    bootloader or reset the board. *)

From S2P Require Import Prelude TegraError Utils BlockDev Gpt AbNaming PartitionManager Sparse.

Definition FB_ERR (reason aux : Z) : Z := tegrabl_error_value TEGRABL_ERR_FASTBOOT aux reason.

Definition MAX_DOWNLOAD_SIZE : Z := 0x2000000.
Definition MAX_RESPONSE_SIZE : Z := 64.
Definition STATE_OFFLINE : Z := 0.
Definition STATE_COMMAND : Z := 1.
Definition STATE_COMPLETE : Z := 2.
Definition STATE_ERROR : Z := 3.
Definition USB_BUFFER_ALIGNMENT : Z := 4096.
Definition FASTBOOT_CMD_RCV_BUF_SIZE : Z := 512.
Definition FASTBOOT_LOCK : Z := 0.
Definition FASTBOOT_UNLOCK : Z := 1.
Definition MAX_PART_NAME_LEN : Z := 16.
Definition MAX_BOOT_CHAIN_SUFFIX_LEN : Z := 16.

(** ** Strings *)

(** [memcmp(arg, var, strlen(var)) == 0] on a string [arg]: the comparison ends at the
    latest at the zero behind it. *)
Definition IS_VAR_TYPE (arg var : list Z) : bool := bool_decide (take (length var) (arg ++ [0]) = var).

(** [COPY_RESPONSE]: appended as far as there is room in a response. *)
Definition COPY_RESPONSE (response msg : list Z) : list Z := take 63 (response ++ msg).

(** [sprintf] behind a string in an array of [room] characters. *)
Definition append_to (room : Z) (dst s : list Z) : res (list Z) :=
  if room <? zlen dst + zlen s + 1 then Stuck OutOfBounds else Ok (dst ++ s).

Definition hex_digit (d : Z) : Z := if d <? 10 then 48 + d else 87 + d.

(** [%0nx] and the digits of [%x] and [%u]. *)
Fixpoint hex_digits (n : nat) (x : Z) : list Z :=
  match n with O => [] | S n => hex_digits n (x / 16) ++ [hex_digit (x mod 16)] end.
Fixpoint strip_zeros (l : list Z) : list Z :=
  match l with d :: (_ :: _) as t => if d =? 48 then strip_zeros t else l | _ => l end.
Definition fmt_x (x : Z) : list Z := strip_zeros (hex_digits 16 x).
Fixpoint dec_digits (n : nat) (x : Z) : list Z :=
  match n with O => [] | S n => dec_digits n (x / 10) ++ [48 + x mod 10] end.
Definition fmt_u (x : Z) : list Z := strip_zeros (dec_digits 10 x).

(** The value of hexadecimal digits up to the first other character. *)
Fixpoint hex_loop (n : Z) (x : list Z) : Z :=
  match x with
  | [] => n
  | c :: x =>
      let next d := hex_loop (u32 (Z.lor (u32 (Z.shiftl n 4)) d)) x in
      if (48 <=? c) && (c <=? 57) then next (c - 48)
      else if (97 <=? c) && (c <=? 102) then next (c - 97 + 10)
      else if (65 <=? c) && (c <=? 70) then next (c - 65 + 10)
      else n
  end.
Definition hex2uint32_t (x : list Z) : Z := hex_loop 0 x.

(** ** Partition information *)

(** [struct tegrabl_fastboot_partition_info]; a [NULL] name is [None]. *)
Record partinfo := mkPartinfo {
  fastboot_part_name : list Z; tegra_part_name : list Z; tegra_part_name_b : option (list Z); fastboot_part_type : list Z
}.

Definition FASTBOOT_FS_TYPE_BASIC : list Z := str "basic".
Definition FASTBOOT_FS_TYPE_EXT4 : list Z := str "ext4".

Definition fastboot_partition_map_table : list partinfo :=
  [ mkPartinfo (str "recovery") (str "SOS") (Some (str "SOS_b")) FASTBOOT_FS_TYPE_BASIC;
    mkPartinfo (str "boot") (str "kernel") (Some (str "kernel_b")) FASTBOOT_FS_TYPE_BASIC;
    mkPartinfo (str "dtb") (str "kernel-dtb") (Some (str "kernel-dtb_b")) FASTBOOT_FS_TYPE_BASIC;
    mkPartinfo (str "system") (str "APP") (Some (str "APP_b")) FASTBOOT_FS_TYPE_EXT4;
    mkPartinfo (str "userdata") (str "UDA") None FASTBOOT_FS_TYPE_EXT4;
    mkPartinfo (str "vendor") (str "vendor") (Some (str "vendor_b")) FASTBOOT_FS_TYPE_EXT4;
    mkPartinfo (str "bmp") (str "BMP") (Some (str "BMP_b")) FASTBOOT_FS_TYPE_BASIC;
    mkPartinfo (str "rpb") (str "RPB") None FASTBOOT_FS_TYPE_BASIC;
    mkPartinfo (str "odm") (str "odm") (Some (str "odm_b")) FASTBOOT_FS_TYPE_EXT4 ].

Definition tegrabl_nv_private_partition_list : list (list Z) :=
  [ str "BCT"; str "MB1_BCT"; str "mb1"; str "mts-preboot"; str "mts-bootpack"; str "sce-fw"; str "eks"; str "sc7";
    str "bpmp-fw"; str "NCT"; str "primary_gpt"; str "secondary_gpt" ].

Definition fastboot_var_list : list (list Z) :=
  [ str "version-bootloader"; str "serialno"; str "product"; str "secure"; str "unlocked"; str "current-slot";
    str "slot-suffixes" ].
Definition fastboot_partition_var_list : list (list Z) := [ str "partition-size:"; str "partition-type:"; str "has-slot:" ].

(** [None] is the [NULL] of a name that is not to be touched. *)
Definition tegrabl_fastboot_get_partinfo (partition_name : list Z) : option partinfo :=
  match List.find (fun p => tegrabl_a_b_match_part_name_with_suffix (fastboot_part_name p) partition_name)
          fastboot_partition_map_table with
  | Some p => Some p
  | None =>
      if existsb (fun n => tegrabl_a_b_match_part_name_with_suffix n partition_name) tegrabl_nv_private_partition_list
      then None
      else Some (mkPartinfo partition_name partition_name (Some partition_name) FASTBOOT_FS_TYPE_BASIC)
  end.

Definition tegrabl_fastboot_get_tegra_part_name (suffix : list Z) (part_info : option partinfo) : option (list Z) :=
  match part_info with
  | None => None
  | Some p => if strcmp_eq BOOT_CHAIN_SUFFIX_B suffix then tegra_part_name_b p else Some (tegra_part_name p)
  end.

(** ** The platform *)

(** Around the library: [P] is the state of the board, and the partition manager may be used by
    its hooks.  A hook that the board did not register is [None]; a call returns an error,
    a value and the new state. *)
Class Platform (P D H : Type) := {
  usb_send : P -> list Z -> Z * P;
  usb_receive : P -> Z -> Z * list Z * P;
  is_device_unlocked_hook : option (P -> bool);
  change_device_state_hook :
    option (P -> pstate D H -> Z -> res (Z * list (list Z * list Z) * (P * pstate D H)));
  get_fuse_ecid_hook : option (P -> Z * list Z);
  get_slot_num_hook : option (P -> pstate D H -> res (Z * Z * (P * pstate D H)));
  get_current_slot_hook : option (P -> pstate D H -> res (Z * list Z * (P * pstate D H)));
  get_slot_suffix_hook : option (P -> pstate D H -> Z -> res (Z * list Z * (P * pstate D H)));
  is_slot_successful_hook : option (P -> pstate D H -> list Z -> res (Z * bool * (P * pstate D H)));
  is_slot_unbootable_hook : option (P -> pstate D H -> list Z -> res (Z * bool * (P * pstate D H)));
  get_slot_retry_count_hook : option (P -> pstate D H -> list Z -> res (Z * Z * (P * pstate D H)));
  slot_set_active_hook : option (P -> pstate D H -> list Z -> res (Z * (P * pstate D H)));
  (** "nvidia,dtsfilename" of the kernel's device tree *)
  dts_filename : P -> Z * list Z;
  get_serial_no : P -> Z * list Z;
  update_bl_payload : P -> pstate D H -> list Z -> list Z -> res (Z * (P * pstate D H));
  load_kernel : P -> pstate D H -> list Z -> res (Z * (P * pstate D H));
  reset_board : P -> P;
  reboot_to_fastboot : P -> P;
  product_name : list Z
}.

(** ** The state of the server *)

Inductive command :=
| CmdReboot | CmdRebootBootloader | CmdGetvar | CmdErase | CmdDownload | CmdFlash | CmdBoot | CmdContinue | CmdOem
| CmdFlashing | CmdSetActiveSlot.

(** The static variables; [fb_room] is the size of the block at [download_base] and [fb_data] what it
    holds; [fb_log] collects what is handed to the transport. *)
Record fb (P D H : Type) := mkFb {
  fb_plat : P; fb_pm : pstate D H; fastboot_state : Z; cmdlist : list (list Z * command); download_base : Z;
  fb_room : Z; fb_data : list Z; download_size : Z; is_allocated : bool; fb_log : list (list Z)
}.
Arguments mkFb {P D H}. Arguments fb_plat {P D H}. Arguments fb_pm {P D H}. Arguments fastboot_state {P D H}.
Arguments cmdlist {P D H}. Arguments download_base {P D H}. Arguments fb_room {P D H}. Arguments fb_data {P D H}.
Arguments download_size {P D H}. Arguments is_allocated {P D H}. Arguments fb_log {P D H}.

Section Server.
Context {P D H : Type} `{BlockDriver D} `{Allocator H} `{Platform P D H}.
Implicit Types (s : fb P D H).

Definition set_env s (p : P) (m : pstate D H) : fb P D H :=
  mkFb p m (fastboot_state s) (cmdlist s) (download_base s) (fb_room s) (fb_data s) (download_size s) (is_allocated s) (fb_log s).
Definition set_state s (x : Z) : fb P D H :=
  mkFb (fb_plat s) (fb_pm s) x (cmdlist s) (download_base s) (fb_room s) (fb_data s) (download_size s) (is_allocated s) (fb_log s).
Definition set_size s (n : Z) : fb P D H :=
  mkFb (fb_plat s) (fb_pm s) (fastboot_state s) (cmdlist s) (download_base s) (fb_room s) (fb_data s) n (is_allocated s) (fb_log s).

(** ** Replies *)

(** [tegrabl_transport_usbf_send]: the error, and the message in the log. *)
Definition send s (msg : list Z) : Z * fb P D H :=
  let (error, p) := usb_send (fb_plat s) msg in
  (error, mkFb p (fb_pm s) (fastboot_state s) (cmdlist s) (download_base s) (fb_room s) (fb_data s) (download_size s)
    (is_allocated s) (fb_log s ++ [msg])).

Definition fastboot_ack s (code reason : list Z) : fb P D H :=
  if negb (fastboot_state s =? STATE_COMMAND) then s
  else
    let response := take 63 (code ++ reason) in
    let s := if strcmp_eq code (str "INFO") then s else set_state s STATE_COMPLETE in
    (send s response).2.

Definition fastboot_fail s (reason : list Z) : fb P D H := fastboot_ack s (str "FAIL") reason.
Definition fastboot_okay s (info : list Z) : fb P D H := fastboot_ack s (str "OKAY") info.

(** ** Board information and lock state *)

(** The error, and [*is_unlocked]. *)
Definition tegrabl_is_device_unlocked s : Z * bool :=
  match is_device_unlocked_hook (D := D) (H := H) with
  | None => (FB_ERR TEGRABL_ERR_NOT_SUPPORTED 0, false)
  | Some f => (TEGRABL_NO_ERROR, f (fb_plat s))
  end.

Definition tegrabl_change_device_state s (cmd : Z) : res (Z * fb P D H) :=
  match change_device_state_hook with
  | None => Ok (FB_ERR TEGRABL_ERR_NOT_SUPPORTED 0, s)
  | Some f =>
      let* (ea, pm) := f (fb_plat s) (fb_pm s) cmd in
      let s := set_env s pm.1 pm.2 in
      Ok (ea.1, foldl (fun s a => fastboot_ack s a.1 a.2) s ea.2)
  end.

(** What follows the last slash. *)
Fixpoint get_dts_basename (path : list Z) : list Z :=
  match path with
  | [] => []
  | c :: t => if existsb (Z.eqb 47) t then get_dts_basename t else if c =? 47 then t else path
  end.

Definition tegrabl_fastboot_oem_handler s (arg : list Z) : res (Z * fb P D H) :=
  if IS_VAR_TYPE arg (str "lock") then tegrabl_change_device_state s FASTBOOT_LOCK
  else if IS_VAR_TYPE arg (str "unlock") then tegrabl_change_device_state s FASTBOOT_UNLOCK
  else if IS_VAR_TYPE arg (str "dtbname") then
    let (ret, path) := dts_filename (D := D) (H := H) (fb_plat s) in
    if negb (ret =? TEGRABL_NO_ERROR) then Ok (ret, fastboot_fail s (str "DTB name not found!"))
    else
      let dtb_fname := take 63 (get_dts_basename path) in
      match dtb_fname with
      | [] => Stuck OutOfBounds
      | _ => Ok (ret, fastboot_ack s (str "INFO") (take (length dtb_fname - 1) dtb_fname ++ [98]))
      end
  else if IS_VAR_TYPE arg (str "ecid") then
    match get_fuse_ecid_hook (D := D) (H := H) with
    | None => Ok (FB_ERR TEGRABL_ERR_NOT_SUPPORTED 0, fastboot_fail s (str "Get ecid failed!"))
    | Some f =>
        let (ret, ecid) := f (fb_plat s) in
        if negb (ret =? TEGRABL_NO_ERROR) then Ok (ret, fastboot_fail s (str "Get ecid failed!"))
        else Ok (ret, fastboot_ack s (str "INFO") ecid)
    end
  else Ok (TEGRABL_NO_ERROR, s).
End Server.
