(* ===== verification/FastbootCmd.v ===== *)
(** Fastboot: the variables of the A/B slots (tegrabl_fastboot_a_b.c), the commands and the loop that
    receives them (tegrabl_fastboot_protocol.c). *)

From S2P Require Import Prelude TegraError Utils BlockDev Gpt AbNaming PartitionManager Sparse Fastboot.

Definition fastboot_a_b_var_list : list (list Z) :=
  [ str "slot-successful:"; str "slot-unbootable:"; str "slot-retry-count:"; str "current-slot"; str "slot-suffixes";
    str "has-slot" ].
Definition fastboot_a_b_slot_var_list : list (list Z) := [ str "slot-successful:"; str "slot-unbootable:"; str "slot-retry-count:" ].

Definition is_a_b_var_type (arg : list Z) : bool := existsb (IS_VAR_TYPE arg) fastboot_a_b_var_list.

(** The string behind a prefix of [var]. *)
Definition behind (var arg : list Z) : list Z := drop (length var) arg.

(** ** A partition as the sink of a sparse image *)

#[export] Instance partition_sink {D H} `{BlockDriver D} `{Allocator H} : ImageSink (pstate D H * partition) := {
  sk_write w buf data len :=
    let* (ep, m) := tegrabl_partition_write w.1 (Some w.2) buf data len in
    Ok (ep.1, (m, default w.2 ep.2));
  sk_seek w n :=
    let* (error, p) := tegrabl_partition_seek w.1 (Some w.2) (s64 n) TEGRABL_PARTITION_SEEK_CUR in
    Ok (error, (w.1, default w.2 p))
}.

Section Commands.
Context {P D H : Type} `{BlockDriver D} `{Allocator H} `{Platform P D H}.
Implicit Types (s : fb P D H).
(** Whether assertions are compiled in; the address of the array in
    [tegrabl_sparse_unsparse]. *)
Context (asserts : bool) (local_buffer : Z).

(** ** The variables of the slots *)

Definition NOT_SUPPORTED : Z := FB_ERR TEGRABL_ERR_NOT_SUPPORTED 0.

Definition tegrabl_get_slot_num s : res (Z * Z * fb P D H) :=
  match get_slot_num_hook with
  | None => Ok (NOT_SUPPORTED, 0, s)
  | Some f => let* (r, pm) := f (fb_plat s) (fb_pm s) in Ok (r, set_env s pm.1 pm.2)
  end.

Definition tegrabl_get_current_slot s : res (Z * list Z * fb P D H) :=
  match get_current_slot_hook with
  | None => Ok (NOT_SUPPORTED, [], s)
  | Some f => let* (r, pm) := f (fb_plat s) (fb_pm s) in Ok (r, set_env s pm.1 pm.2)
  end.

Definition tegrabl_get_slot_suffix s (slot_id : Z) : res (Z * list Z * fb P D H) :=
  match get_slot_suffix_hook with
  | None => Ok (NOT_SUPPORTED, [], s)
  | Some f => let* (r, pm) := f (fb_plat s) (fb_pm s) slot_id in Ok (r, set_env s pm.1 pm.2)
  end.

(** The suffixes of [n] slots from [i] on, with commas, appended in an array of
    [MAX_BOOT_CHAIN_SUFFIX_LEN] characters. *)
Fixpoint suffixes_loop (n : nat) (i : Z) s (slot : list Z) : res (Z * list Z * fb P D H) :=
  match n with
  | O => Ok (TEGRABL_NO_ERROR, slot, s)
  | S n =>
      let* (r, s) := tegrabl_get_slot_suffix s i in
      if negb (r.1 =? TEGRABL_NO_ERROR) then Ok (r.1, slot, s)
      else
        let* slot := append_to MAX_BOOT_CHAIN_SUFFIX_LEN slot r.2 in
        let* slot := match n with O => Ok slot | _ => append_to MAX_BOOT_CHAIN_SUFFIX_LEN slot (str ",") end in
        suffixes_loop n (i + 1) s slot
  end.

Definition tegrabl_get_slot_suffixes s (slot : list Z) : res (Z * list Z * fb P D H) :=
  match get_slot_suffix_hook (P := P) (D := D) (H := H) with
  | None => Ok (NOT_SUPPORTED, slot, s)
  | Some _ =>
      let* (r, s) := tegrabl_get_slot_num s in
      if negb (r.1 =? TEGRABL_NO_ERROR) then Ok (r.1, slot, s) else suffixes_loop (Z.to_nat r.2) 0 s slot
  end.

Definition tegrabl_is_slot_successful s (slot : list Z) : res (Z * bool * fb P D H) :=
  match is_slot_successful_hook with
  | None => Ok (NOT_SUPPORTED, false, s)
  | Some f => let* (r, pm) := f (fb_plat s) (fb_pm s) slot in Ok (r, set_env s pm.1 pm.2)
  end.

Definition tegrabl_is_slot_unbootable s (slot : list Z) : res (Z * bool * fb P D H) :=
  match is_slot_unbootable_hook with
  | None => Ok (NOT_SUPPORTED, false, s)
  | Some f => let* (r, pm) := f (fb_plat s) (fb_pm s) slot in Ok (r, set_env s pm.1 pm.2)
  end.

Definition tegrabl_get_slot_retry_count s (slot : list Z) : res (Z * Z * fb P D H) :=
  match get_slot_retry_count_hook with
  | None => Ok (NOT_SUPPORTED, 0, s)
  | Some f => let* (r, pm) := f (fb_plat s) (fb_pm s) slot in Ok (r, set_env s pm.1 pm.2)
  end.

Definition tegrabl_set_active_slot s (slot : list Z) : res (Z * fb P D H) :=
  match slot_set_active_hook with
  | None => Ok (NOT_SUPPORTED, s)
  | Some f => let* (r, pm) := f (fb_plat s) (fb_pm s) slot in Ok (r, set_env s pm.1 pm.2)
  end.

(** Whether opening a partition gives an error. *)
Definition open_partition s (name : option (list Z)) : res (Z * partition) :=
  let* (error, p) := tegrabl_partition_open (fb_pm s) name (Some zero_partition) in
  Ok (error, default zero_partition p).

(** The error, [has_slot] and the response. *)
Definition partition_has_slot s (partition_name response : list Z) : res (Z * bool * list Z * fb P D H) :=
  let partition_name := if strcmp_eq partition_name (str "bootloader") then str "cpu-bootloader" else partition_name in
  let missing := COPY_RESPONSE response (str "No partition present with this name.") in
  match tegrabl_fastboot_get_partinfo partition_name with
  | None => Ok (TEGRABL_NO_ERROR, false, missing, s)
  | Some partinfo =>
      let* (error, _) := open_partition s (Some (tegra_part_name partinfo)) in
      if negb (error =? TEGRABL_NO_ERROR) then Ok (error, false, missing, s)
      else
        let* (r, s) := tegrabl_get_slot_suffix s 1 in
        if negb (r.1 =? TEGRABL_NO_ERROR) then Ok (r.1, false, response, s)
        else
          let* part_name := append_to MAX_PART_NAME_LEN (tegra_part_name partinfo) r.2 in
          let* (error, _) := open_partition s (Some part_name) in
          Ok (TEGRABL_NO_ERROR, error =? TEGRABL_NO_ERROR, response, s)
  end.

Definition yes_no (b : bool) : list Z := if b then str "yes" else str "no".

Definition tegrabl_fastboot_a_b_var_handler s (arg response : list Z) : res (Z * list Z * fb P D H) :=
  let no_slot := COPY_RESPONSE response (str "No slot present with this suffix.") in
  if IS_VAR_TYPE arg (str "has-slot:") then
    let* (r, s) := partition_has_slot s (behind (str "has-slot:") arg) response in
    let '(error, has_slot, response) := r in
    if negb (error =? TEGRABL_NO_ERROR) then Ok (error, response, s)
    else Ok (error, COPY_RESPONSE response (yes_no has_slot), s)
  else if IS_VAR_TYPE arg (str "current-slot") then
    let* (r, s) := tegrabl_get_current_slot s in
    if negb (r.1 =? TEGRABL_NO_ERROR) then Ok (r.1, response, s) else Ok (r.1, COPY_RESPONSE response r.2, s)
  else if IS_VAR_TYPE arg (str "slot-suffixes") then
    let* (r, s) := tegrabl_get_slot_suffixes s [] in
    if negb (r.1 =? TEGRABL_NO_ERROR) then Ok (r.1, response, s) else Ok (r.1, COPY_RESPONSE response r.2, s)
  else if IS_VAR_TYPE arg (str "slot-successful:") then
    let* (r, s) := tegrabl_is_slot_successful s (behind (str "slot-successful:") arg) in
    if negb (r.1 =? TEGRABL_NO_ERROR) then Ok (r.1, no_slot, s) else Ok (r.1, COPY_RESPONSE response (yes_no r.2), s)
  else if IS_VAR_TYPE arg (str "slot-unbootable:") then
    let* (r, s) := tegrabl_is_slot_unbootable s (behind (str "slot-unbootable:") arg) in
    if negb (r.1 =? TEGRABL_NO_ERROR) then Ok (r.1, no_slot, s) else Ok (r.1, COPY_RESPONSE response (yes_no r.2), s)
  else if IS_VAR_TYPE arg (str "slot-retry-count:") then
    let* (r, s) := tegrabl_get_slot_retry_count s (behind (str "slot-retry-count:") arg) in
    if negb (r.1 =? TEGRABL_NO_ERROR) then Ok (r.1, no_slot, s)
    else let* response := append_to MAX_RESPONSE_SIZE response (fmt_u r.2) in Ok (r.1, response, s)
  else Ok (NOT_SUPPORTED, response, s).

(** ** getvar *)

(** The response after the variable is looked up. *)
Definition fastboot_getvar s (arg response : list Z) : res (list Z * fb P D H) :=
  let lock_state (if_unlocked if_locked : list Z) :=
    let (error, is_unlocked) := tegrabl_is_device_unlocked s in
    if negb (error =? TEGRABL_NO_ERROR) then Ok (response, s)
    else Ok (COPY_RESPONSE response (if is_unlocked then if_unlocked else if_locked), s) in
  if IS_VAR_TYPE arg (str "version-bootloader") then Ok (COPY_RESPONSE response (str "1.0"), s)
  else if IS_VAR_TYPE arg (str "max-download-size") then Ok (str "0x" ++ hex_digits 8 MAX_DOWNLOAD_SIZE, s)
  else if IS_VAR_TYPE arg (str "product") then Ok (COPY_RESPONSE response (product_name (P := P) (D := D) (H := H)), s)
  else if IS_VAR_TYPE arg (str "serialno") then
    let (error, serial_no) := get_serial_no (D := D) (H := H) (fb_plat s) in
    Ok (COPY_RESPONSE response (if negb (error =? TEGRABL_NO_ERROR) then str "not valid" else serial_no), s)
  else if IS_VAR_TYPE arg (str "secure") then lock_state (str "No") (str "Yes")
  else if IS_VAR_TYPE arg (str "unlocked") then lock_state (str "Yes") (str "No")
  else if IS_VAR_TYPE arg (str "partition-size:") then
    match tegrabl_fastboot_get_partinfo (behind (str "partition-size:") arg) with
    | None => Ok (response, s)
    | Some partinfo =>
        let* (error, q) := open_partition s (Some (tegra_part_name partinfo)) in
        if negb (error =? TEGRABL_NO_ERROR) then Ok (response, s)
        else
          let* size := tegrabl_partition_size (fb_pm s) (Some q) in
          if 0 <? s64 size
          then let* response := append_to MAX_RESPONSE_SIZE response (str "0x" ++ fmt_x (u64 size)) in Ok (response, s)
          else Ok (response, s)
    end
  else if IS_VAR_TYPE arg (str "partition-type:") then
    match tegrabl_fastboot_get_partinfo (behind (str "partition-type:") arg) with
    | None => Ok (response, s)
    | Some partinfo =>
        let* (error, _) := open_partition s (Some (tegra_part_name partinfo)) in
        if negb (error =? TEGRABL_NO_ERROR) then Ok (response, s)
        else let* response := append_to MAX_RESPONSE_SIZE response (fastboot_part_type partinfo) in Ok (response, s)
    end
  else if is_a_b_var_type arg then
    let* (r, s) := tegrabl_fastboot_a_b_var_handler s arg response in Ok (r.2, s)
  else Ok (COPY_RESPONSE response (str "Unknown var!"), s).

(** A variable with its name in front, as information. *)
Definition send_var s (name : list Z) : res (fb P D H) :=
  let* (response, s) := fastboot_getvar s name (COPY_RESPONSE (COPY_RESPONSE [] name) (str ": ")) in
  Ok (fastboot_ack s (str "INFO") response).

Fixpoint send_vars s (names : list (list Z)) : res (fb P D H) :=
  match names with
  | [] => Ok s
  | n :: names => let* s := send_var s n in send_vars s names
  end.

(** The variables of the partitions of the table. *)
Definition partition_vars : list (list Z) :=
  concat (map (fun p => map (fun v => COPY_RESPONSE (COPY_RESPONSE [] v) (fastboot_part_name p)) fastboot_partition_var_list)
            fastboot_partition_map_table).

(** The variable [v] of the slots from [j] on; a slot without a suffix is left out. *)
Fixpoint send_slot_vars (n : nat) (j : Z) s (v : list Z) : res (fb P D H) :=
  match n with
  | O => Ok s
  | S n =>
      let* (r, s) := tegrabl_get_slot_suffix s j in
      if negb (r.1 =? TEGRABL_NO_ERROR) then send_slot_vars n (j + 1) s v
      else
        let* name := append_to MAX_RESPONSE_SIZE (COPY_RESPONSE [] v) r.2 in
        let* (response, s) := fastboot_getvar s name (COPY_RESPONSE name (str ": ")) in
        send_slot_vars n (j + 1) (fastboot_ack s (str "INFO") response) v
  end.

Fixpoint send_all_slot_vars s (num_slots : nat) (vars : list (list Z)) : res (fb P D H) :=
  match vars with
  | [] => Ok s
  | v :: vars => let* s := send_slot_vars num_slots 0 s v in send_all_slot_vars s num_slots vars
  end.

Definition cmd_getvar s (arg : list Z) : res (fb P D H) :=
  if IS_VAR_TYPE arg (str "all") then
    let* s := send_vars s fastboot_var_list in
    let* s := send_vars s partition_vars in
    let* (r, s) := tegrabl_get_slot_num s in
    if negb (r.1 =? TEGRABL_NO_ERROR) then Ok s
    else
      let* s := send_all_slot_vars s (Z.to_nat r.2) fastboot_a_b_slot_var_list in
      Ok (fastboot_okay s [])
  else
    let* (response, s) := fastboot_getvar s arg [] in
    Ok (fastboot_okay s response).

(** ** The other commands *)

(** The commands that change the device: [k] runs when it is unlocked. *)
Definition when_unlocked s (k : res (fb P D H)) : res (fb P D H) :=
  let (error, is_unlocked) := tegrabl_is_device_unlocked s in
  if negb (error =? TEGRABL_NO_ERROR) then Ok (fastboot_fail s (str "Bootloader lock state unknown"))
  else if negb is_unlocked then Ok (fastboot_fail s (str "Bootloader is locked."))
  else k.

Definition cmd_reboot s : res (fb P D H) := Ok (set_env s (reset_board (D := D) (H := H) (fb_plat s)) (fb_pm s)).

Definition cmd_reboot_bootloader s : res (fb P D H) :=
  let s := fastboot_okay s [] in
  Ok (set_env s (reboot_to_fastboot (D := D) (H := H) (fb_plat s)) (fb_pm s)).

Definition cmd_set_active_slot s (arg : list Z) : res (fb P D H) :=
  when_unlocked s (
    let* (err, s) := tegrabl_set_active_slot s arg in
    Ok (if negb (err =? TEGRABL_NO_ERROR) then fastboot_fail s (str "Failed to set slot active") else fastboot_okay s [])).

Definition cmd_erase s (arg : list Z) : res (fb P D H) :=
  when_unlocked s (
    match tegrabl_fastboot_get_partinfo arg with
    | None => Ok (fastboot_fail s (str "No partition present with this name."))
    | Some partinfo =>
        let* (error, q) := open_partition s (Some (tegra_part_name partinfo)) in
        let* (error, m) :=
          if error =? TEGRABL_NO_ERROR then tegrabl_partition_erase (fb_pm s) (Some q) false else Ok (error, fb_pm s) in
        let s := set_env s (fb_plat s) m in
        Ok (if error =? TEGRABL_NO_ERROR then fastboot_okay s [] else fastboot_fail s (str "Partition erase failed!"))
    end).

(** The block at [download_base], allocated once. *)
Definition allocate_download s (len : Z) : fb P D H :=
  if is_allocated s then s
  else
    let w := pw (fb_pm s) in
    let (p, h) := heap_alloc_align (heap w) TEGRABL_HEAP_DEFAULT USB_BUFFER_ALIGNMENT len in
    mkFb (fb_plat s) (set_pw (fb_pm s) (set_heap w h)) (fastboot_state s) (cmdlist s) p (if p =? NULL then 0 else len)
      [] (download_size s) true (fb_log s).

Definition store_download s (p : P) (data : list Z) : fb P D H :=
  mkFb p (fb_pm s) (fastboot_state s) (cmdlist s) (download_base s) (fb_room s) (data ++ drop (length data) (fb_data s))
    (download_size s) (is_allocated s) (fb_log s).

Definition cmd_download s (arg : list Z) : res (fb P D H) :=
  let len := hex2uint32_t arg in
  when_unlocked s (
    let s := set_size s 0 in
    if MAX_DOWNLOAD_SIZE <? len then Ok (fastboot_fail s (str "data too large"))
    else
      let (error, s) := send s (str "DATA" ++ hex_digits 8 len) in
      if negb (error =? TEGRABL_NO_ERROR) then Ok s
      else
        let s := allocate_download s len in
        if download_base s =? NULL then Ok (fastboot_fail s (str "Memory Insufficient"))
        else
          let '(retval, data, p) := usb_receive (fb_plat s) len in
          if fb_room s <? zlen data then Stuck OutOfBounds
          else
            let s := store_download s p data in
            if negb (retval =? TEGRABL_NO_ERROR) || negb (zlen data =? len)
            then Ok (set_state (fastboot_fail s (str "USB read Failed")) STATE_ERROR)
            else Ok (fastboot_okay (set_size s len) [])).

(** The bytes at [download_base]. *)
Definition downloaded s : list Z := slice 0 (download_size s) (fb_data s).

(** The error, and the partition manager after the image is written to the partition. *)
Definition flash_image s (q : partition) : res (option Z * pstate D H) :=
  let data := downloaded s in
  if tegrabl_sparse_image_check data then
    let* size := tegrabl_partition_size (fb_pm s) (Some q) in
    let (error, us) := tegrabl_sparse_init_unsparse_state true size true true in
    if negb (error =? TEGRABL_NO_ERROR) then Ok (None, fb_pm s)
    else
      let* (eu, w) := tegrabl_sparse_unsparse local_buffer (unsparse_fuel data) us (download_base s) data (fb_pm s, q) in
      Ok (Some eu.1, w.1)
  else
    let* (_, m) := tegrabl_partition_write (fb_pm s) (Some q) (download_base s) data (download_size s) in
    Ok (Some TEGRABL_NO_ERROR, m).

Definition flash_exit s (error : Z) : fb P D H :=
  if error =? 0 then fastboot_okay s [] else fastboot_fail s (str "Partition write failed!").

Definition cmd_flash s (arg : list Z) : res (fb P D H) :=
  when_unlocked s (
    if (download_base s =? NULL) || (download_size s =? 0) then Ok s
    else
      let* suffix := tegrabl_a_b_get_part_suffix asserts (Some arg) in
      if tegrabl_a_b_match_part_name_with_suffix (str "bootloader") arg then
        let* (error, pm) := update_bl_payload (fb_plat s) (fb_pm s) (downloaded s) suffix in
        Ok (flash_exit (set_env s pm.1 pm.2) error)
      else
        match tegrabl_fastboot_get_partinfo arg with
        | None => Ok (fastboot_fail s (str "No partition present with this name."))
        | Some partinfo =>
            let* (error, q) := open_partition s (tegrabl_fastboot_get_tegra_part_name suffix (Some partinfo)) in
            if negb (error =? TEGRABL_NO_ERROR)
            then Ok (fastboot_fail s (str "Partition may not exist or can not be accessed."))
            else
              let* (error, m) := flash_image s q in
              let s := set_env s (fb_plat s) m in
              Ok (match error with None => s | Some error => flash_exit s error end)
        end).

(** Whether the kernel is entered, which does not return. *)
Definition cmd_boot s : res (fb P D H * bool) :=
  let (error, is_unlocked) := tegrabl_is_device_unlocked s in
  if negb (error =? TEGRABL_NO_ERROR) then Ok (fastboot_fail s (str "Bootloader lock state unknown"), false)
  else if negb is_unlocked then Ok (fastboot_fail s (str "Bootloader is locked."), false)
  else
    let s := fastboot_okay s [] in
    let* (err, pm) := load_kernel (fb_plat s) (fb_pm s) (downloaded s) in
    Ok (set_env s pm.1 pm.2, err =? TEGRABL_NO_ERROR).

Definition cmd_flashing s (arg : list Z) : res (fb P D H) :=
  let* (_, s) :=
    if IS_VAR_TYPE arg (str "lock") then tegrabl_change_device_state s FASTBOOT_LOCK
    else if IS_VAR_TYPE arg (str "unlock") then tegrabl_change_device_state s FASTBOOT_UNLOCK
    else Ok (TEGRABL_NO_ERROR, s) in
  Ok (fastboot_okay s []).

Definition cmd_oem s (arg : list Z) : res (fb P D H) :=
  let* (ret, s) := tegrabl_fastboot_oem_handler s arg in
  Ok (if ret =? TEGRABL_NO_ERROR then fastboot_okay s [] else s).

Definition cmd_continue s : res (fb P D H) := Ok (fastboot_okay s []).

(** ** Receiving commands *)

Definition sizeof_fastboot_cmd : Z := 32.

(** A command is left out when there is no memory for it. *)
Definition fastboot_register s (c : list Z * command) : fb P D H :=
  let w := pw (fb_pm s) in
  let (p, h) := heap_malloc (heap w) sizeof_fastboot_cmd in
  mkFb (fb_plat s) (set_pw (fb_pm s) (set_heap w h)) (fastboot_state s) (if p =? NULL then cmdlist s else c :: cmdlist s)
    (download_base s) (fb_room s) (fb_data s) (download_size s) (is_allocated s) (fb_log s).

Definition registered_commands : list (list Z * command) :=
  [ (str "reboot", CmdReboot); (str "reboot-bootloader", CmdRebootBootloader); (str "getvar:", CmdGetvar);
    (str "erase:", CmdErase); (str "download:", CmdDownload); (str "flash:", CmdFlash); (str "boot", CmdBoot);
    (str "continue", CmdContinue); (str "oem ", CmdOem); (str "flashing ", CmdFlashing); (str "set_active:", CmdSetActiveSlot) ].

Definition tegrabl_fastboot_cmd_init s : fb P D H := foldl fastboot_register s registered_commands.

(** [cmd->handle]: the state, and whether a kernel was entered. *)
Definition run_command (c : command) s (arg : list Z) : res (fb P D H * bool) :=
  let ret m := let* s := m in Ok (s, false) in
  match c with
  | CmdReboot => ret (cmd_reboot s)
  | CmdRebootBootloader => ret (cmd_reboot_bootloader s)
  | CmdGetvar => ret (cmd_getvar s arg)
  | CmdErase => ret (cmd_erase s arg)
  | CmdDownload => ret (cmd_download s arg)
  | CmdFlash => ret (cmd_flash s arg)
  | CmdBoot => cmd_boot s
  | CmdContinue => ret (cmd_continue s)
  | CmdOem => ret (cmd_oem s arg)
  | CmdFlashing => ret (cmd_flashing s arg)
  | CmdSetActiveSlot => ret (cmd_set_active_slot s arg)
  end.

(** What follows a command: the next one, the end of the loop, a kernel. *)
Inductive outcome := Again | Continues | Booted.

(** The walk over the list for the bytes received. *)
Fixpoint find_command (l : list (list Z * command)) (buffer : list Z) : option (list Z * command) :=
  match l with
  | [] => None
  | (prefix, c) :: l => if IS_VAR_TYPE buffer prefix then Some (prefix, c) else find_command l buffer
  end.

Definition handle_command s (buffer : list Z) : res (fb P D H * outcome) :=
  let s := match cmdlist s with [] => s | _ => set_state s STATE_COMMAND end in
  match find_command (cmdlist s) buffer with
  | None => Ok (fastboot_fail s (str "unknown command"), Again)
  | Some (prefix, c) =>
      let* (s, booted) := run_command c s (cstr (behind prefix buffer)) in
      if booted then Ok (s, Booted)
      else if IS_VAR_TYPE buffer (str "continue") then Ok (s, Continues)
      else Ok (if fastboot_state s =? STATE_COMMAND then fastboot_fail s (str "unknown reason") else s, Again)
  end.

(** At most [n] commands; the result of the handler, or the kernel that was entered. *)
Fixpoint command_loop (n : nat) s : res (fb P D H * Z * outcome) :=
  if fastboot_state s =? STATE_ERROR then Ok (set_state s STATE_OFFLINE, TEGRABL_NO_ERROR, Again)
  else
    match n with
    | O => Stuck OutOfFuel
    | S n =>
        let '(retval, data, p) := usb_receive (fb_plat s) 64 in
        let s := set_env s p (fb_pm s) in
        if FASTBOOT_CMD_RCV_BUF_SIZE <=? zlen data then Stuck OutOfBounds
        else if negb (retval =? TEGRABL_NO_ERROR) then Ok (set_state s STATE_OFFLINE, retval, Again)
        else
          let* (s, o) := handle_command s data in
          match o with
          | Again => command_loop n s
          | _ => Ok (s, TEGRABL_NO_ERROR, o)
          end
    end.

Definition tegrabl_fastboot_command_handler (n : nat) s : res (fb P D H * Z * outcome) :=
  let w := pw (fb_pm s) in
  let (p, h) := heap_alloc_align (heap w) TEGRABL_HEAP_DEFAULT USB_BUFFER_ALIGNMENT FASTBOOT_CMD_RCV_BUF_SIZE in
  let s := set_env s (fb_plat s) (set_pw (fb_pm s) (set_heap w h)) in
  if p =? NULL then Ok (set_state s STATE_OFFLINE, TEGRABL_ERR_NO_MEMORY, Again) else command_loop n s.
End Commands.
