(* ===== verification/FastbootWalk.v ===== *)
(** Fastboot: a relation between states that the replies and the hooks of the board respect holds across
    the look-up of variables and the commands on the lock state. *)

From S2P Require Import Prelude TegraError Utils BlockDev Gpt AbNaming PartitionManager Sparse Fastboot FastbootCmd.

(** Follows the calls of a command: [H] says that it returned. *)
Ltac walk H :=
  repeat (cbn [res_bind fst snd] in H;
    match type of H with
    | Ok _ = Ok _ => injection H as H
    | Stuck _ = Ok _ => discriminate H
    | context [let (_, _) := ?x in _] => destruct x eqn:?
    | context [res_bind ?m _] => destruct m eqn:?
    | context [match ?x with _ => _ end] => destruct x eqn:?
    end); subst; cbn [fst snd] in *.


Section Walk.
Context {P D H : Type} {BD : BlockDriver D} {AL : Allocator H} {PL : Platform P D H}.
Implicit Types (s : fb P D H).

(** The codes of acknowledgements. *)
Definition code_ok (code : list Z) : Prop := code = str "INFO" \/ code = str "FAIL" \/ code = str "OKAY".

(** [R] holds across every acknowledgement and every hook that commands call without asking for
    the lock state. *)
Record respected (R : fb P D H -> fb P D H -> Prop) : Prop := {
  rs_refl s : R s s;
  rs_trans s1 s2 s3 : R s1 s2 -> R s2 s3 -> R s1 s3;
  rs_ack s code reason : code_ok code -> R s (fastboot_ack s code reason);
  rs_change s f c e acks p m : change_device_state_hook = Some f -> f (fb_plat s) (fb_pm s) c = Ok (e, acks, (p, m)) ->
    R s (set_env s p m) /\ Forall (fun a => code_ok a.1) acks;
  rs_slot_num s f r p m : get_slot_num_hook = Some f -> f (fb_plat s) (fb_pm s) = Ok (r, (p, m)) -> R s (set_env s p m);
  rs_current_slot s f r p m : get_current_slot_hook = Some f -> f (fb_plat s) (fb_pm s) = Ok (r, (p, m)) -> R s (set_env s p m);
  rs_slot_suffix s f i r p m : get_slot_suffix_hook = Some f -> f (fb_plat s) (fb_pm s) i = Ok (r, (p, m)) -> R s (set_env s p m);
  rs_successful s f l r p m : is_slot_successful_hook = Some f -> f (fb_plat s) (fb_pm s) l = Ok (r, (p, m)) -> R s (set_env s p m);
  rs_unbootable s f l r p m : is_slot_unbootable_hook = Some f -> f (fb_plat s) (fb_pm s) l = Ok (r, (p, m)) -> R s (set_env s p m);
  rs_retry s f l r p m : get_slot_retry_count_hook = Some f -> f (fb_plat s) (fb_pm s) l = Ok (r, (p, m)) -> R s (set_env s p m)
}.

Context (R : fb P D H -> fb P D H -> Prop) (HR : respected R).

Lemma fail_walks s reason : R s (fastboot_fail s reason).
Proof. apply (rs_ack _ HR). unfold code_ok. auto. Qed.
Lemma okay_walks s reason : R s (fastboot_okay s reason).
Proof. apply (rs_ack _ HR). unfold code_ok. auto. Qed.
Lemma info_walks s reason : R s (fastboot_ack s (str "INFO") reason).
Proof. apply (rs_ack _ HR). unfold code_ok. auto. Qed.
Lemma refl_walks s : R s s.
Proof. apply (rs_refl _ HR). Qed.

Create HintDb walks.
Hint Resolve refl_walks fail_walks okay_walks info_walks : walks.
Hint Extern 2 (R _ (set_env _ _ _)) => first
  [ eapply (rs_slot_num _ HR); eassumption | eapply (rs_current_slot _ HR); eassumption
  | eapply (rs_slot_suffix _ HR); eassumption | eapply (rs_successful _ HR); eassumption
  | eapply (rs_unbootable _ HR); eassumption | eapply (rs_retry _ HR); eassumption ] : walks.

Lemma acks_walk acks s : Forall (fun a => code_ok a.1) acks -> R s (foldl (fun s a => fastboot_ack s a.1 a.2) s acks).
Proof.
  intros Ha. revert s. induction Ha as [|a acks Ha _ IH]; intros s; [apply refl_walks|]. cbn [foldl].
  eapply (rs_trans _ HR); [|apply IH]. by apply (rs_ack _ HR).
Qed.

Lemma change_state_walks s c e s' : tegrabl_change_device_state s c = Ok (e, s') -> R s s'.
Proof.
  unfold tegrabl_change_device_state. intros E. destruct change_device_state_hook as [f|] eqn:Hf; [|by injection E as _ <-; apply refl_walks].
  destruct (f _ _ _) as [[[e1 acks] [p m]]|] eqn:Ef; [|done]. cbn [res_bind fst snd] in E. injection E as _ <-.
  destruct (rs_change _ HR _ _ _ _ _ _ _ Hf Ef) as [H1 H2]. eapply (rs_trans _ HR); [exact H1|]. by apply acks_walk.
Qed.

Lemma oem_walks s arg e s' : tegrabl_fastboot_oem_handler s arg = Ok (e, s') -> R s s'.
Proof.
  unfold tegrabl_fastboot_oem_handler. intros E.
  destruct (IS_VAR_TYPE arg (str "lock")); [by eapply change_state_walks|].
  destruct (IS_VAR_TYPE arg (str "unlock")); [by eapply change_state_walks|]. walk E; auto with walks.
Qed.

(** ** Variables *)

Ltac quiet E := walk E; repeat match goal with x : (_ * _)%type |- _ => destruct x end; cbn [fst snd] in *; auto with walks.

Lemma slot_num_walks s r s' : tegrabl_get_slot_num s = Ok (r, s') -> R s s'.
Proof. unfold tegrabl_get_slot_num. intros E. quiet E. Qed.
Lemma current_slot_walks s r s' : tegrabl_get_current_slot s = Ok (r, s') -> R s s'.
Proof. unfold tegrabl_get_current_slot. intros E. quiet E. Qed.
Lemma slot_suffix_walks s i r s' : tegrabl_get_slot_suffix s i = Ok (r, s') -> R s s'.
Proof. unfold tegrabl_get_slot_suffix. intros E. quiet E. Qed.
Lemma successful_walks s l r s' : tegrabl_is_slot_successful s l = Ok (r, s') -> R s s'.
Proof. unfold tegrabl_is_slot_successful. intros E. quiet E. Qed.
Lemma unbootable_walks s l r s' : tegrabl_is_slot_unbootable s l = Ok (r, s') -> R s s'.
Proof. unfold tegrabl_is_slot_unbootable. intros E. quiet E. Qed.
Lemma retry_walks s l r s' : tegrabl_get_slot_retry_count s l = Ok (r, s') -> R s s'.
Proof. unfold tegrabl_get_slot_retry_count. intros E. quiet E. Qed.

Hint Resolve slot_num_walks current_slot_walks slot_suffix_walks successful_walks unbootable_walks retry_walks : walks.

Lemma suffixes_loop_walks n i s slot r s' : suffixes_loop n i s slot = Ok (r, s') -> R s s'.
Proof.
  revert i s slot. induction n as [|n IH]; intros i s slot E; cbn [suffixes_loop] in E; [quiet E|].
  destruct (tegrabl_get_slot_suffix s i) as [[r1 s1]|] eqn:E1; [|done]. cbn [res_bind] in E.
  apply (rs_trans _ HR _ s1); [eauto with walks|]. destruct (negb _); [quiet E|].
  destruct (append_to _ _ _) as [slot1|]; [|done]. cbn [res_bind] in E. destruct n; cbn [res_bind] in E; [eauto|].
  destruct (append_to _ _ _) as [slot2|]; [|done]. cbn [res_bind] in E. eauto.
Qed.

Lemma suffixes_walks s slot r s' : tegrabl_get_slot_suffixes s slot = Ok (r, s') -> R s s'.
Proof.
  unfold tegrabl_get_slot_suffixes. intros E. destruct get_slot_suffix_hook; [|quiet E].
  destruct (tegrabl_get_slot_num s) as [[r1 s1]|] eqn:E1; [|done]. cbn [res_bind] in E.
  apply (rs_trans _ HR _ s1); [eauto with walks|]. destruct (negb _); [quiet E|by eapply suffixes_loop_walks].
Qed.

Lemma has_slot_walks s n response r s' : partition_has_slot s n response = Ok (r, s') -> R s s'.
Proof. unfold partition_has_slot. intros E. walk E; eauto with walks. Qed.

Hint Resolve suffixes_walks has_slot_walks : walks.

Lemma a_b_var_walks s arg response r s' : tegrabl_fastboot_a_b_var_handler s arg response = Ok (r, s') -> R s s'.
Proof. unfold tegrabl_fastboot_a_b_var_handler. intros E. walk E; eauto with walks. Qed.

Hint Resolve a_b_var_walks : walks.

Lemma getvar_walks s arg response r s' : fastboot_getvar s arg response = Ok (r, s') -> R s s'.
Proof. unfold fastboot_getvar. intros E. walk E; eauto with walks. Qed.

Hint Resolve getvar_walks : walks.

Lemma send_vars_walks names s s' : send_vars s names = Ok s' -> R s s'.
Proof.
  revert s. induction names as [|n names IH]; intros s E; cbn [send_vars] in E; [quiet E|]. unfold send_var in E.
  destruct (fastboot_getvar _ _ _) as [[r1 s1]|] eqn:E1; [|done]. cbn [res_bind] in E.
  apply (rs_trans _ HR _ s1); [eauto with walks|]. eapply (rs_trans _ HR); [apply info_walks|]. eauto.
Qed.

Lemma send_slot_vars_walks n j s v s' : send_slot_vars n j s v = Ok s' -> R s s'.
Proof.
  revert j s. induction n as [|n IH]; intros j s E; cbn [send_slot_vars] in E; [quiet E|].
  destruct (tegrabl_get_slot_suffix s j) as [[r1 s1]|] eqn:E1; [|done]. cbn [res_bind] in E.
  apply (rs_trans _ HR _ s1); [eauto with walks|]. destruct (negb _); [eauto|].
  destruct (append_to _ _ _) as [name|]; [|done]. cbn [res_bind] in E.
  destruct (fastboot_getvar _ _ _) as [[r2 s2]|] eqn:E2; [|done]. cbn [res_bind] in E.
  apply (rs_trans _ HR _ s2); [eauto with walks|]. eapply (rs_trans _ HR); [apply info_walks|]. eauto.
Qed.

Lemma send_all_slot_vars_walks vars n s s' : send_all_slot_vars s n vars = Ok s' -> R s s'.
Proof.
  revert s. induction vars as [|v vars IH]; intros s E; cbn [send_all_slot_vars] in E; [quiet E|].
  destruct (send_slot_vars _ _ _ _) as [s1|] eqn:E1; [|done]. cbn [res_bind] in E.
  apply (rs_trans _ HR _ s1); [by eapply send_slot_vars_walks|]. eauto.
Qed.

(** ** Commands *)

Lemma cmd_getvar_walks s arg s' : cmd_getvar s arg = Ok s' -> R s s'.
Proof.
  unfold cmd_getvar. intros E. destruct (IS_VAR_TYPE arg (str "all")).
  - destruct (send_vars s _) as [s1|] eqn:E1; [|done]. cbn [res_bind] in E.
    apply (rs_trans _ HR _ s1); [by eapply send_vars_walks|].
    destruct (send_vars s1 _) as [s2|] eqn:E2; [|done]. cbn [res_bind] in E.
    apply (rs_trans _ HR _ s2); [by eapply send_vars_walks|].
    destruct (tegrabl_get_slot_num s2) as [[r s3]|] eqn:E3; [|done]. cbn [res_bind] in E.
    apply (rs_trans _ HR _ s3); [eauto with walks|]. destruct (negb _); [quiet E|].
    destruct (send_all_slot_vars _ _ _) as [s4|] eqn:E4; [|done]. cbn [res_bind] in E.
    apply (rs_trans _ HR _ s4); [by eapply send_all_slot_vars_walks|]. quiet E.
  - destruct (fastboot_getvar _ _ _) as [[r1 s1]|] eqn:E1; [|done]. cbn [res_bind] in E.
    apply (rs_trans _ HR _ s1); [eauto with walks|]. quiet E.
Qed.


(** The commands on the lock state. *)
Lemma cmd_oem_walks s arg s' : cmd_oem s arg = Ok s' -> R s s'.
Proof.
  unfold cmd_oem. intros E. destruct (tegrabl_fastboot_oem_handler s arg) as [[e s2]|] eqn:E2; [|done]. cbn [res_bind] in E.
  apply (rs_trans _ HR _ s2); [by eapply oem_walks|]. quiet E.
Qed.

Lemma cmd_flashing_walks s arg s' : cmd_flashing s arg = Ok s' -> R s s'.
Proof.
  unfold cmd_flashing. intros E. destruct (IS_VAR_TYPE arg (str "lock")).
  - destruct (tegrabl_change_device_state s _) as [[e s2]|] eqn:E2; [|done]. cbn [res_bind] in E.
    apply (rs_trans _ HR _ s2); [by eapply change_state_walks|]. quiet E.
  - destruct (IS_VAR_TYPE arg (str "unlock")); [|quiet E].
    destruct (tegrabl_change_device_state s _) as [[e s2]|] eqn:E2; [|done]. cbn [res_bind] in E.
    apply (rs_trans _ HR _ s2); [by eapply change_state_walks|]. quiet E.
Qed.
End Walk.
