(* ===== verification/FastbootReplies.v ===== *)
(** Fastboot: what is sent to the host.  Every command is answered exactly once. *)

From S2P Require Import Prelude TegraError Utils BlockDev Gpt AbNaming PartitionManager Sparse Fastboot FastbootCmd FastbootWalk.

(** Messages that a reply follows, and replies. *)
Definition interim (m : list Z) : Prop := take 4 m = str "INFO" \/ take 4 m = str "DATA".
Definition reply (m : list Z) : Prop := take 4 m = str "OKAY" \/ take 4 m = str "FAIL".

Section Replies.
Context {P D H : Type} {BD : BlockDriver D} {AL : Allocator H} {PL : Platform P D H}.
Implicit Types (s : fb P D H).

(** From [s] to [s'] messages were sent: as long as a command is being handled, interim ones and
    possibly the reply, after which no command is being handled; nothing otherwise. *)
Definition talks s s' : Prop :=
  exists msgs, fb_log s' = fb_log s ++ msgs /\
    (fastboot_state s = STATE_COMMAND ->
       fastboot_state s' = STATE_COMMAND /\ Forall interim msgs \/
       fastboot_state s' <> STATE_COMMAND /\ exists l m, msgs = l ++ [m] /\ Forall interim l /\ reply m) /\
    (fastboot_state s <> STATE_COMMAND -> msgs = [] /\ fastboot_state s' <> STATE_COMMAND).

Lemma talks_refl s : talks s s.
Proof. exists []. rewrite app_nil_r. split; [done|]. split; [by left|done]. Qed.

Lemma talks_quiet s s' : fb_log s' = fb_log s -> fastboot_state s' = fastboot_state s -> talks s s'.
Proof. intros E1 E2. exists []. rewrite app_nil_r, E1, E2. split; [done|]. split; [by left|done]. Qed.

Lemma talks_trans s1 s2 s3 : talks s1 s2 -> talks s2 s3 -> talks s1 s3.
Proof.
  intros (m1 & E1 & C1 & N1) (m2 & E2 & C2 & N2). exists (m1 ++ m2). rewrite E2, E1, app_assoc. split; [done|]. split.
  - intros Hc. destruct (C1 Hc) as [[Hs I1]|[Hs R1]].
    + destruct (C2 Hs) as [[Hs2 I2]|[Hs2 (l & m & -> & I2 & R2)]].
      * left. split; [done|]. by apply Forall_app.
      * right. split; [done|]. exists (m1 ++ l), m. rewrite app_assoc. split; [done|]. split; [by apply Forall_app|done].
    + destruct (N2 Hs) as [-> Hs2]. right. rewrite app_nil_r. done.
  - intros Hn. destruct (N1 Hn) as [-> Hs]. destruct (N2 Hs) as [-> Hs2]. done.
Qed.

(** Messages are not empty and begin with their code. *)
Lemma take_code (code reason : list Z) : length code = 4%nat -> take 4 (take 63 (code ++ reason)) = code.
Proof. intros Hl. rewrite take_take. cbn [Nat.min]. by rewrite take_app_length'. Qed.

Lemma ack_talks s code reason : code_ok code ->
  talks s (fastboot_ack s code reason).
Proof.
  intros Hc. unfold fastboot_ack. destruct (Z.eqb_spec (fastboot_state s) STATE_COMMAND) as [Hs|]; [|apply talks_refl].
  cbn [negb]. exists [take 63 (code ++ reason)]. unfold send. destruct (usb_send _ _) as [e p] eqn:Es.
  cbn [snd fb_log fastboot_state]. split; [by destruct (strcmp_eq code (str "INFO"))|]. split; [|done]. intros _.
  assert (Ht : take 4 (take 63 (code ++ reason)) = code) by (apply take_code; by destruct Hc as [-> |[-> | -> ]]).
  destruct Hc as [-> |Hc].
  - left. split; [done|]. apply Forall_singleton. by left.
  - right. split; [by destruct Hc as [-> | ->]|]. exists [], (take 63 (code ++ reason)). split; [done|]. split; [constructor|].
    unfold reply. rewrite Ht. tauto.
Qed.

Lemma fail_talks s reason : talks s (fastboot_fail s reason).
Proof. apply ack_talks. unfold code_ok. auto. Qed.
Lemma okay_talks s reason : talks s (fastboot_okay s reason).
Proof. apply ack_talks. unfold code_ok. auto. Qed.
Lemma env_talks s p m : talks s (set_env s p m).
Proof. by apply talks_quiet. Qed.
Lemma size_talks s n : talks s (set_size s n).
Proof. by apply talks_quiet. Qed.

(** After a reply. *)
Lemma fail_replied s reason : fastboot_state (fastboot_fail s reason) <> STATE_COMMAND.
Proof.
  unfold fastboot_fail, fastboot_ack. destruct (Z.eqb_spec (fastboot_state s) STATE_COMMAND); [|done].
  cbn [negb]. unfold send. by destruct (usb_send _ _).
Qed.
Lemma okay_replied s reason : fastboot_state (fastboot_okay s reason) <> STATE_COMMAND.
Proof.
  unfold fastboot_okay, fastboot_ack. destruct (Z.eqb_spec (fastboot_state s) STATE_COMMAND); [|done].
  cbn [negb]. unfold send. by destruct (usb_send _ _).
Qed.

Lemma state_talks s x : fastboot_state s <> STATE_COMMAND -> x <> STATE_COMMAND -> talks s (set_state s x).
Proof. intros Hs Hx. exists []. rewrite app_nil_r. split; [done|]. split; [done|]. done. Qed.

(** The acknowledgements of the hook that changes the lock state. *)
Hypothesis hook_acks : forall f p m c e acks pm, change_device_state_hook = Some f -> f p m c = Ok (e, acks, pm) ->
  Forall (fun a => code_ok a.1) acks.

Lemma talks_respected : respected talks.
Proof.
  split; intros; try apply env_talks; [apply talks_refl|by eapply talks_trans|by apply ack_talks|].
  split; [apply env_talks|by eapply hook_acks].
Qed.

Create HintDb talks.
Hint Resolve talks_refl fail_talks okay_talks env_talks size_talks : talks.
Ltac quiet E := walk E; auto with talks.

Lemma set_active_talks s l r s' : tegrabl_set_active_slot s l = Ok (r, s') -> talks s s'.
Proof. unfold tegrabl_set_active_slot. intros E. quiet E. Qed.

Lemma when_unlocked_talks s k s' : when_unlocked s k = Ok s' -> (k = Ok s' -> talks s s') -> talks s s'.
Proof.
  unfold when_unlocked. intros E Hk. destruct (tegrabl_is_device_unlocked s) as [e b].
  destruct (negb _); [quiet E|]. destruct (negb _); [quiet E|auto].
Qed.

Lemma flash_exit_talks s e : talks s (flash_exit s e).
Proof. unfold flash_exit. case_match; auto with talks. Qed.
Hint Resolve flash_exit_talks : talks.

Lemma env_then s p m s' : talks (set_env s p m) s' -> talks s s'.
Proof. apply talks_trans, env_talks. Qed.

Lemma cmd_set_active_talks s arg s' : cmd_set_active_slot s arg = Ok s' -> talks s s'.
Proof.
  intros E. apply (when_unlocked_talks _ _ _ E). clear E. intros E.
  destruct (tegrabl_set_active_slot s arg) as [[e s1]|] eqn:E1; [|done]. cbn [res_bind] in E.
  apply (talks_trans _ s1); [by eapply set_active_talks|]. quiet E.
Qed.

Lemma cmd_erase_talks s arg s' : cmd_erase s arg = Ok s' -> talks s s'.
Proof.
  intros E. apply (when_unlocked_talks _ _ _ E). clear E. intros E.
  destruct (tegrabl_fastboot_get_partinfo arg); [|quiet E].
  destruct (open_partition _ _) as [[e q]|]; [|done]. cbn [res_bind] in E.
  destruct (if e =? TEGRABL_NO_ERROR then _ else _) as [[e1 m]|]; [|done]. cbn [res_bind] in E.
  apply (env_then s (fb_plat s) m). quiet E.
Qed.

Lemma send_talks s msg e s' : send s msg = (e, s') -> fastboot_state s = STATE_COMMAND -> interim msg -> talks s s'.
Proof.
  unfold send. intros E Hs Hm. destruct (usb_send _ _) as [e1 p]. injection E as _ <-. exists [msg].
  split; [done|]. split; [|done]. intros _. left. split; [done|]. by apply Forall_singleton.
Qed.

Lemma allocate_talks s len : talks s (allocate_download s len).
Proof. unfold allocate_download. destruct (is_allocated s); [apply talks_refl|]. destruct (heap_alloc_align _ _ _ _). by apply talks_quiet. Qed.

Lemma cmd_download_talks s arg s' : cmd_download s arg = Ok s' -> fastboot_state s = STATE_COMMAND -> talks s s'.
Proof.
  intros E Hs. apply (when_unlocked_talks _ _ _ E). clear E. intros E. cbv zeta in E.
  eapply talks_trans; [apply (size_talks s 0)|]. destruct (_ <? _); [quiet E|].
  destruct (send _ _) as [e s1] eqn:E1. eapply talks_trans; [eapply send_talks; [exact E1|done|by right]|].
  destruct (negb _); [quiet E|]. eapply talks_trans; [apply (allocate_talks s1 (hex2uint32_t arg))|].
  destruct (_ =? NULL); [quiet E|]. destruct (usb_receive _ _) as [[retval data] p].
  destruct (_ <? _); [done|].
  set (s2 := store_download _ p data) in E.
  assert (H2 : talks (allocate_download s1 (hex2uint32_t arg)) s2) by (by apply talks_quiet).
  eapply talks_trans; [exact H2|]. destruct (_ || _); injection E as <-.
  - eapply talks_trans; [apply fail_talks|]. apply state_talks; [apply fail_replied|done].
  - eapply talks_trans; [apply size_talks|]. apply okay_talks.
Qed.

Lemma cmd_flash_talks asserts local_buffer s arg s' : cmd_flash asserts local_buffer s arg = Ok s' -> talks s s'.
Proof.
  intros E. apply (when_unlocked_talks _ _ _ E). clear E. intros E. destruct (_ || _); [quiet E|].
  destruct (tegrabl_a_b_get_part_suffix _ _) as [suffix|]; [|done]. cbn [res_bind] in E.
  destruct (tegrabl_a_b_match_part_name_with_suffix _ _).
  - destruct (update_bl_payload _ _ _ _) as [[e pm]|]; [|done]. cbn [res_bind] in E. apply (env_then s pm.1 pm.2). quiet E.
  - destruct (tegrabl_fastboot_get_partinfo arg); [|quiet E]. destruct (open_partition _ _) as [[e q]|]; [|done].
    cbn [res_bind] in E. destruct (negb _); [quiet E|]. destruct (flash_image _ _ _) as [[e1 m]|]; [|done]. cbn [res_bind] in E.
    apply (env_then s (fb_plat s) m). destruct e1; quiet E.
Qed.

Lemma cmd_boot_talks s s' b : cmd_boot s = Ok (s', b) -> talks s s' /\ (b = true -> fastboot_state s' <> STATE_COMMAND).
Proof.
  unfold cmd_boot. intros E. destruct (tegrabl_is_device_unlocked s) as [e u]. destruct (negb _); [quiet E|].
  destruct (negb _); [quiet E|]. cbv zeta in E. destruct (load_kernel _ _ _) as [[e1 pm]|]; [|done]. cbn [res_bind] in E.
  injection E as <- _. split; [eapply talks_trans; [apply okay_talks|apply env_talks]|]. intros _. apply okay_replied.
Qed.

(** Every command, handled in the state in which the loop calls it. *)
Lemma run_command_talks asserts local_buffer c s arg s' b : run_command asserts local_buffer c s arg = Ok (s', b) ->
  fastboot_state s = STATE_COMMAND -> talks s s' /\ (b = true -> fastboot_state s' <> STATE_COMMAND).
Proof using hook_acks.
  intros E Hs. destruct c; cbn [run_command] in E; try (by apply cmd_boot_talks).
  all: match type of E with res_bind ?m _ = _ => destruct m as [s1|] eqn:E1; [|done] end;
    cbn [res_bind] in E; injection E as <- <-; split; [|done].
  - injection E1 as <-. apply env_talks.
  - injection E1 as <-. eapply talks_trans; [apply okay_talks|apply env_talks].
  - by apply (cmd_getvar_walks _ talks_respected _ _ _ E1).
  - by eapply cmd_erase_talks.
  - by eapply cmd_download_talks.
  - by eapply cmd_flash_talks.
  - injection E1 as <-. apply okay_talks.
  - by apply (cmd_oem_walks _ talks_respected _ _ _ E1).
  - by apply (cmd_flashing_walks _ talks_respected _ _ _ E1).
  - by eapply cmd_set_active_talks.
Qed.

(** ** The command that is found *)

Lemma var_type_prefix arg var : IS_VAR_TYPE arg var = true <-> var `prefix_of` arg ++ [0].
Proof using.
  unfold IS_VAR_TYPE. rewrite bool_decide_eq_true. split.
  - intros E. exists (drop (length var) (arg ++ [0])). rewrite <- E at 1. symmetry. apply take_drop.
  - intros [k E]. rewrite E. by apply take_app_length'.
Qed.

(** Two prefixes of one string are prefixes of each other. *)
Lemma var_type_excl arg v1 v2 : IS_VAR_TYPE arg v1 = true ->
  bool_decide (v1 `prefix_of` v2) || bool_decide (v2 `prefix_of` v1) = false -> IS_VAR_TYPE arg v2 = false.
Proof using.
  intros E1 Hx. destruct (IS_VAR_TYPE arg v2) eqn:E2; [|done]. apply var_type_prefix in E1, E2.
  apply orb_false_iff in Hx as [X1 X2]. apply bool_decide_eq_false in X1, X2.
  destruct (prefix_weak_total _ _ _ E1 E2); done.
Qed.

(** Of the registered commands, only "continue" begins like it. *)
Lemma continue_found buffer : IS_VAR_TYPE buffer (str "continue") = true ->
  find_command (rev registered_commands) buffer = Some (str "continue", CmdContinue).
Proof using.
  intros E. cbn [rev registered_commands app find_command].
  assert (Hx : forall v, bool_decide (str "continue" `prefix_of` v) || bool_decide (v `prefix_of` str "continue") = false ->
    IS_VAR_TYPE buffer v = false) by (intros v; by apply var_type_excl).
  by rewrite (Hx (str "set_active:")), (Hx (str "flashing ")), (Hx (str "oem ")), E.
Qed.

End Replies.
