(* ===== verification/FastbootLock.v ===== *)
(** Fastboot on a locked device: whatever a host sends, the storage stays as it is. *)

From S2P Require Import Prelude TegraError Utils BlockDev Gpt AbNaming PartitionManager Sparse Fastboot FastbootCmd FastbootWalk.

Section Locked.
Context {P D H : Type} {BD : BlockDriver D} {RD : ReliableDriver D} {AL : Allocator H} {PL : Platform P D H}.
Implicit Types (s : fb P D H) (p : P) (m : pstate D H).

(** What the device at an address holds. *)
Definition content m (a : Z) : option (list Z) := (fun d => drv_bytes (bd_priv d)) <$> devs (pw m) !! a.

Definition same_storage m m' : Prop := forall a, content m' a = content m a.

(** Whether the board reports that it is unlocked. *)
Definition unlocked p : bool := match is_device_unlocked_hook (D := D) (H := H) with Some f => f p | None => false end.

Definition kept p m p' m' : Prop := unlocked p' = unlocked p /\ same_storage m m'.

Definition keeps s s' : Prop := kept (fb_plat s) (fb_pm s) (fb_plat s') (fb_pm s').

Lemma kept_refl p m : kept p m p m.
Proof. done. Qed.

Lemma keeps_refl s : keeps s s.
Proof. done. Qed.

Lemma keeps_trans s1 s2 s3 : keeps s1 s2 -> keeps s2 s3 -> keeps s1 s3.
Proof. intros [U1 S1] [U2 S2]. split; [congruence|]. intros a. by rewrite S2, S1. Qed.

(** What is expected of the board: the transport and a reset do not unlock it, the hooks that look at the
    slots do not change the medium, and the hook for the lock state changes nothing (the request is not
    confirmed on the device) and sends the acknowledgements it may send. *)
Record board_ok : Prop := {
  bo_send p msg : unlocked (usb_send (D := D) (H := H) p msg).2 = unlocked p;
  bo_receive p n : unlocked (usb_receive (D := D) (H := H) p n).2 = unlocked p;
  bo_reset p : unlocked (reset_board (D := D) (H := H) p) = unlocked p;
  bo_reboot p : unlocked (reboot_to_fastboot (D := D) (H := H) p) = unlocked p;
  bo_change f p m c e acks p' m' : change_device_state_hook = Some f -> f p m c = Ok (e, acks, (p', m')) ->
    kept p m p' m' /\ Forall (fun a => code_ok a.1) acks;
  bo_slot_num f p m r p' m' : get_slot_num_hook = Some f -> f p m = Ok (r, (p', m')) -> kept p m p' m';
  bo_current_slot f p m r p' m' : get_current_slot_hook = Some f -> f p m = Ok (r, (p', m')) -> kept p m p' m';
  bo_slot_suffix f p m i r p' m' : get_slot_suffix_hook = Some f -> f p m i = Ok (r, (p', m')) -> kept p m p' m';
  bo_successful f p m l r p' m' : is_slot_successful_hook = Some f -> f p m l = Ok (r, (p', m')) -> kept p m p' m';
  bo_unbootable f p m l r p' m' : is_slot_unbootable_hook = Some f -> f p m l = Ok (r, (p', m')) -> kept p m p' m';
  bo_retry f p m l r p' m' : get_slot_retry_count_hook = Some f -> f p m l = Ok (r, (p', m')) -> kept p m p' m'
}.

Hypothesis HB : board_ok.

Lemma ack_keeps s code reason : keeps s (fastboot_ack s code reason).
Proof.
  unfold fastboot_ack. destruct (negb _); [apply keeps_refl|]. unfold keeps, send.
  pose proof (bo_send HB (fb_plat s) (take 63 (code ++ reason))) as Hs.
  destruct (strcmp_eq code (str "INFO")); cbn [fb_plat set_state]; destruct (usb_send _ _) as [e p]; by split.
Qed.

Lemma keeps_respected : respected keeps.
Proof.
  split.
  - apply keeps_refl.
  - apply keeps_trans.
  - intros. apply ack_keeps.
  - intros s f c e acks p m E1 E2. by apply (bo_change HB _ _ _ _ _ _ _ _ E1 E2).
  - intros s f r p m E1 E2. by apply (bo_slot_num HB _ _ _ _ _ _ E1 E2).
  - intros s f r p m E1 E2. by apply (bo_current_slot HB _ _ _ _ _ _ E1 E2).
  - intros s f i r p m E1 E2. by apply (bo_slot_suffix HB _ _ _ _ _ _ _ E1 E2).
  - intros s f l r p m E1 E2. by apply (bo_successful HB _ _ _ _ _ _ _ E1 E2).
  - intros s f l r p m E1 E2. by apply (bo_unbootable HB _ _ _ _ _ _ _ E1 E2).
  - intros s f l r p m E1 E2. by apply (bo_retry HB _ _ _ _ _ _ _ E1 E2).
Qed.

(** A guarded command does not get past the question. *)
Lemma when_unlocked_keeps s k s' : unlocked (fb_plat s) = false -> when_unlocked s k = Ok s' -> keeps s s'.
Proof.
  unfold unlocked, when_unlocked, tegrabl_is_device_unlocked. intros Hu E. destruct is_device_unlocked_hook as [f|].
  - rewrite Hu in E. injection E as <-. apply ack_keeps.
  - injection E as <-. apply ack_keeps.
Qed.

Lemma cmd_boot_keeps s s' b : unlocked (fb_plat s) = false -> cmd_boot s = Ok (s', b) -> keeps s s' /\ b = false.
Proof.
  unfold unlocked, cmd_boot, tegrabl_is_device_unlocked. intros Hu E. destruct is_device_unlocked_hook as [f|].
  - rewrite Hu in E. injection E as <- <-. split; [apply ack_keeps|done].
  - injection E as <- <-. split; [apply ack_keeps|done].
Qed.

Lemma run_command_keeps asserts local_buffer c s arg s' b : unlocked (fb_plat s) = false ->
  run_command asserts local_buffer c s arg = Ok (s', b) -> keeps s s' /\ b = false.
Proof.
  intros Hu E. destruct c; cbn [run_command] in E; try (by apply cmd_boot_keeps).
  all: match type of E with res_bind ?m _ = _ => destruct m as [s1|] eqn:E1; [|done] end;
    cbn [res_bind] in E; injection E as <- <-; split; [|done]; try by eapply when_unlocked_keeps.
  - injection E1 as <-. split; [apply (bo_reset HB)|done].
  - injection E1 as <-. eapply keeps_trans; [apply (ack_keeps s (str "OKAY") [])|]. split; [apply (bo_reboot HB)|done].
  - by apply (cmd_getvar_walks _ keeps_respected _ _ _ E1).
  - injection E1 as <-. apply ack_keeps.
  - by apply (cmd_oem_walks _ keeps_respected _ _ _ E1).
  - by apply (cmd_flashing_walks _ keeps_respected _ _ _ E1).
Qed.

Lemma handle_command_keeps asserts local_buffer s buffer s' o : unlocked (fb_plat s) = false ->
  handle_command asserts local_buffer s buffer = Ok (s', o) -> keeps s s' /\ o <> Booted.
Proof.
  unfold handle_command. intros Hu E. set (s0 := match cmdlist s with [] => s | _ => set_state s STATE_COMMAND end) in E.
  assert (H0 : keeps s s0) by (unfold s0; by destruct (cmdlist s)).
  assert (Hu0 : unlocked (fb_plat s0) = false) by (by rewrite (proj1 H0)).
  destruct (find_command _ _) as [[prefix c]|].
  - destruct (run_command _ _ _ _ _) as [[s1 b]|] eqn:Er; [|done]. cbn [res_bind] in E.
    destruct (run_command_keeps _ _ _ _ _ _ _ Hu0 Er) as [H1 ->].
    assert (H2 : keeps s s1) by (by eapply keeps_trans).
    destruct (IS_VAR_TYPE _ _); injection E as <- <-; (split; [|done]); [done|].
    destruct (_ =? _); [|done]. eapply keeps_trans; [exact H2|apply ack_keeps].
  - injection E as <- <-. split; [|done]. eapply keeps_trans; [exact H0|apply ack_keeps].
Qed.

Lemma command_loop_keeps asserts local_buffer n s s' e o : unlocked (fb_plat s) = false ->
  command_loop asserts local_buffer n s = Ok (s', e, o) -> keeps s s' /\ o <> Booted.
Proof.
  revert s. induction n as [|n IH]; intros s Hu E; cbn [command_loop] in E; destruct (_ =? STATE_ERROR);
    try (by injection E as <- _ <-); [done|].
  pose proof (bo_receive HB (fb_plat s) 64) as Hr. destruct (usb_receive _ _) as [[retval data] p]. cbn [snd] in Hr.
  assert (H1 : keeps s (set_env s p (fb_pm s))) by (by split). destruct (_ <=? _); [done|].
  destruct (negb _); [by injection E as <- _ <-|].
  destruct (handle_command _ _ _ _) as [[s1 o1]|] eqn:Eh; [|done]. cbn [res_bind] in E.
  destruct (handle_command_keeps _ _ (set_env s p (fb_pm s)) _ _ _ (eq_trans Hr Hu) Eh) as [H2 Ho].
  assert (H3 : keeps s s1) by (by eapply keeps_trans).
  destruct o1; [|by injection E as <- _ <-|done].
  destruct (IH s1) as [H4 Ho4]; [by rewrite (proj1 H3)|done|]. split; [by eapply keeps_trans|done].
Qed.
End Locked.

(** C22: A locked device keeps its storage.  Whatever commands a host sends in a session of any length, as
    long as the device reports that it is locked at the start and no request to unlock it is confirmed on the device:
    no byte of any block device changes, the device stays locked, and no kernel is started from the
    host's data.  This includes malformed and unknown commands. *)
Theorem locked_device_untouched {P D H : Type} {BD : BlockDriver D} {RD : ReliableDriver D} {AL : Allocator H} {PL : Platform P D H}
    asserts local_buffer n (s s' : fb P D H) e o :
  board_ok -> unlocked (fb_plat s) = false -> tegrabl_fastboot_command_handler asserts local_buffer n s = Ok (s', e, o) ->
  same_storage (fb_pm s) (fb_pm s') /\ unlocked (fb_plat s') = false /\ o <> Booted.
Proof.
  intros HB Hu E. unfold tegrabl_fastboot_command_handler in E. destruct (heap_alloc_align _ _ _ _) as [p h].
  assert (Hk : keeps s s' /\ o <> Booted).
  { destruct (p =? NULL); [by injection E as <- _ <-|].
    destruct (command_loop_keeps HB _ _ _ (set_env s (fb_plat s) _) _ _ _ Hu E) as [[U S] Ho]. split; [by split|done]. }
  destruct Hk as [[U S] Ho]. rewrite U. done.
Qed.
