(* ===== verification/FastbootFlash.v ===== *)
(** Fastboot: flashing.  A partition keeps the promises of a sink, so a sparse image that
    a host flashes ends up in the partition its name stands for, and nowhere else. *)

From S2P Require Import Prelude TegraError Utils BlockDev BlockDevFacts Gpt AbNaming PartitionManager PartitionFacts.
From S2P Require Import Sparse SparseFacts SparseSteps SparseProps SparseBuild Fastboot FastbootCmd.

Section Sink.
Context {D H : Type} {BD : BlockDriver D} {RD : ReliableDriver D} {AL : Allocator H} {AW : AllocatorLaws H}.
Implicit Types (w : pstate D H * partition).
(** The partition, its device before the image, and the address of the device. *)
Context (i : partition_info) (d0 : bdev D) (dev : Z).

(** The handle stands at [pos], the partition holds [l], the rest of the device what it held before,
    and the heap has room for [r] bytes. *)
Record at_partition w (r : Z) (l : list Z) (pos : Z) : Prop := {
  ap_handle : exists x, handle_ok w.1 w.2 i (set_priv d0 x) /\
    drv_bytes x = splice (part_start d0 i) l (drv_bytes (bd_priv d0));
  ap_dev : pt_block_device w.2 = dev;
  ap_heap : heap_room (heap (pw w.1)) r;
  ap_len : zlen l = pi_total_size i;
  ap_pos : pt_offset w.2 = pos;
  ap_nonneg : 0 <= pos;
  ap_first : part_start d0 i + pi_total_size i <= zlen (drv_bytes (bd_priv d0)) /\ 0 <= part_start d0 i
}.

(** What a write to the partition can take from the heap. *)
Definition write_cost : Z := bounce_cost d0 (pi_total_size i).

Lemma set_priv_priv (d : bdev D) x y : set_priv (set_priv d x) y = set_priv d y.
Proof. reflexivity. Qed.

(** A write inside a range that has been replaced replaces that range. *)
Lemma splice_inside o (l bs : list Z) p B : 0 <= o -> 0 <= p -> p + zlen bs <= zlen l -> o + zlen l <= zlen B ->
  splice (o + p) bs (splice o l B) = splice o (splice p bs l) B.
Proof.
  intros Ho Hp Hb Hl. pose proof (zlen_nonneg bs).
  assert (Hs : zlen (splice o l B) = zlen B) by (apply splice_length; lia).
  assert (Hp2 : zlen (splice p bs l) = zlen l) by (apply splice_length; lia).
  rewrite <- (splice_patch o (zlen l)) by lia. rewrite slice_splice_same by lia.
  apply list_eq. intros k. do 3 rewrite (lookup_splice o) by lia.
  replace (length (splice p bs l)) with (length l) by (unfold zlen in Hp2; lia). by case_decide.
Qed.

Lemma write_law w r l pos buf data len : at_partition w r l pos -> 0 < buf -> 0 < len -> zlen data = len ->
  pos + len <= zlen l -> write_cost <= r ->
  exists w', sk_write w buf data len = Ok (TEGRABL_NO_ERROR, w') /\ at_partition w' (r - write_cost) (splice pos data l) (pos + len).
Proof.
  intros [(x & Hq & Hx) Hdev Hh Hl Hpos Hn Hf] Hb Hlen Hd Hle Hr. destruct w as [s q]. cbn [fst snd] in *.
  assert (Hc : bounce_cost (set_priv d0 x) len <= write_cost).
  { unfold write_cost, bounce_cost, alloc_cost. cbn [set_priv bd_block_size_log2]. lia. }
  destruct (partition_write_ok s q i (set_priv d0 x) buf data len r) as (x' & h & E & M & Hx' & Hr');
    [done|done|lia|done|done|lia|done|lia|].
  eexists. split; [cbn [sk_write partition_sink fst snd]; rewrite E; reflexivity|]. split; cbn [fst snd default].
  - exists x'. split.
    + rewrite <- (set_priv_priv d0 x x'). apply (handle_ok_put s q _ i i); [done|by apply handle_ok_offset|done|done].
    + rewrite Hx'. cbn [set_priv bd_priv]. change (part_start (set_priv d0 x) i) with (part_start d0 i).
      rewrite Hx, Hpos. apply splice_inside; lia.
  - done.
  - eapply heap_room_weaken; [exact Hr'|]. lia.
  - rewrite splice_length; lia.
  - change (pt_offset q + len = pos + len). lia.
  - lia.
  - done.
Qed.

Lemma seek_law w r l pos n : at_partition w r l pos -> 0 <= n -> pos + n <= zlen l ->
  exists w', sk_seek w n = Ok (TEGRABL_NO_ERROR, w') /\ at_partition w' r l (pos + n).
Proof.
  intros [(x & Hq & Hx) Hdev Hh Hl Hpos Hn Hf] Hn0 Hle. destruct w as [s q]. cbn [fst snd] in *.
  destruct (handle_bounds _ _ _ _ Hq) as (B1 & B2 & B3 & B4 & _).
  destruct (partition_seek_exact s q i TEGRABL_PARTITION_SEEK_CUR n (pt_offset q)) as [E _];
    [apply Hq|apply Hq|lia|lia|right; left|lia|].
  rewrite (proj2 (Z.ltb_ge (pt_offset q + n) 0)), (proj2 (Z.ltb_ge (pi_total_size i) (pt_offset q + n))) in E by lia.
  eexists. split; [cbn [sk_seek partition_sink fst snd]; rewrite s64_small, E by lia; reflexivity|].
  split; cbn [fst snd default set_offset pt_offset]; try done; [|change (pt_offset q + n = pos + n); lia|lia].
  exists x. split; [by apply handle_ok_offset|done].
Qed.

Lemma write_cost_nonneg : 0 <= pi_total_size i -> 0 <= write_cost.
Proof. intros Hi. unfold write_cost, bounce_cost, alloc_cost. pose proof (Z.pow_nonneg 2 (bd_block_size_log2 d0)). lia. Qed.

Hypothesis Hsize : 0 <= pi_total_size i.

(** A partition is a sink. *)
Definition partition_laws : SinkLaws (pstate D H * partition) := {|
  sk_holds := at_partition;
  sk_cost := write_cost;
  sk_cost_nonneg := write_cost_nonneg Hsize;
  sk_pos_nonneg := fun w r l pos => ap_nonneg w r l pos;
  sk_write_law := write_law;
  sk_seek_law := seek_law
|}.
End Sink.

(** Replacing a range by its own content. *)
Lemma splice_slice o n (B : list Z) : 0 <= o -> 0 <= n -> o + n <= zlen B -> splice o (slice o n B) B = B.
Proof.
  intros Ho Hn Hl. pose proof (splice_patch o n 0 [] B Ho ltac:(lia) Hn Hl) as E. rewrite !splice_nil in E. by apply E.
Qed.

Section Flash.
Context {P D H : Type} {BD : BlockDriver D} {RD : ReliableDriver D} {AL : Allocator H} {AW : AllocatorLaws H} {PL : Platform P D H}.
Implicit Types (s : fb P D H).

(** An open handle at the start of its partition. *)
Lemma at_start (m : pstate D H) q i d r : handle_ok m q i d -> pt_offset q = 0 -> heap_room (heap (pw m)) r ->
  at_partition i d (pt_block_device q) (m, q) r (part_bytes d i) 0.
Proof.
  intros Hq Ho Hr. destruct (handle_bounds _ _ _ _ Hq) as (B1 & B2 & B3 & B4 & B5).
  assert (Hl : zlen (part_bytes d i) = pi_total_size i) by (apply slice_length; lia).
  split; cbn [fst snd]; try done; [|lia]. exists (bd_priv d). split.
  - by replace (set_priv d (bd_priv d)) with d by (by destruct d).
  - unfold part_bytes. rewrite splice_slice by lia. done.
Qed.

(** An answer to the host while a command is handled. *)
Lemma okay_sent s : fastboot_state s = STATE_COMMAND ->
  fb_log (fastboot_okay s []) = fb_log s ++ [str "OKAY"] /\ fb_pm (fastboot_okay s []) = fb_pm s /\
  fastboot_state (fastboot_okay s []) = STATE_COMPLETE.
Proof.
  intros Hs. unfold fastboot_okay, fastboot_ack. rewrite Hs, Z.eqb_refl. cbn [negb]. unfold send.
  by destruct (usb_send _ _).
Qed.

(** C23: flashing a sparse image.  On an unlocked device, a host that has downloaded a valid sparse image that fits the
    partition and flashes it to a name gets the answer [OKAY], and the partition that this name stands for then holds
    its old content with the chunks of the image laid over it; every other byte of the device, other partitions
    and the partition table included, is what it was. *)
Theorem flash_sparse_image asserts local_buffer s arg info suffix q i d minor blk checksum cs r :
  0 < local_buffer -> tegrabl_is_device_unlocked s = (TEGRABL_NO_ERROR, true) -> fastboot_state s = STATE_COMMAND ->
  0 < download_base s -> tegrabl_a_b_get_part_suffix asserts (Some arg) = Ok suffix ->
  tegrabl_a_b_match_part_name_with_suffix (str "bootloader") arg = false ->
  tegrabl_fastboot_get_partinfo arg = Some info ->
  open_partition s (tegrabl_fastboot_get_tegra_part_name suffix (Some info)) = Ok (TEGRABL_NO_ERROR, q) ->
  handle_ok (fb_pm s) q i d -> pt_offset q = 0 -> 0 < pi_total_size i ->
  downloaded s = encode_image minor blk checksum cs -> download_size s <> 0 -> image_ok blk cs ->
  blk * total_blocks cs <= pi_total_size i -> heap_room (heap (pw (fb_pm s))) r ->
  write_cost i d * (writes (map (effect_of blk) cs) + 1) <= r ->
  exists s' d', cmd_flash asserts local_buffer s arg = Ok s' /\ fb_log s' = fb_log s ++ [str "OKAY"] /\
    devs (pw (fb_pm s')) !! pt_block_device q = Some d' /\
    drv_bytes (bd_priv d') = splice (part_start d i) (unpacked blk cs (part_bytes d i) 0) (drv_bytes (bd_priv d)).
Proof.
  intros Hlb Hu Hs Hbase Hsuf Hbl Hinfo Hopen Hq Ho Hsz Hdl Hds Hok Hfit Hr Hc.
  destruct (handle_bounds _ _ _ _ Hq) as (B1 & B2 & B3 & B4 & B5).
  assert (Hl : zlen (part_bytes d i) = pi_total_size i) by (apply slice_length; lia).
  set (us := fresh_state (pi_total_size i)).
  assert (Hus : tegrabl_sparse_init_unsparse_state true (pi_total_size i) true true = (TEGRABL_NO_ERROR, Some us)).
  { unfold tegrabl_sparse_init_unsparse_state. by rewrite (proj2 (Z.eqb_neq (pi_total_size i) 0)) by lia. }
  destruct (image_unpacks_once (SL := partition_laws i d (pt_block_device q) B2) local_buffer minor blk checksum cs
    (pi_total_size i) (download_base s) (fb_pm s, q) r (part_bytes d i) 0 us) as (us' & [m' q'] & r' & E & Hw);
    [done|done|done|lia|done|by apply at_start|lia|done|].
  destruct Hw as [(x & Hq' & Hx) Hdev _ _ _ _ _]. cbn [fst snd] in *.
  set (s1 := set_env s (fb_plat s) m'). destruct (okay_sent s1 Hs) as (L1 & L2 & _).
  exists (fastboot_okay s1 []), (set_priv d x). split; [|split; [done|]].
  - unfold cmd_flash, when_unlocked. rewrite Hu. cbn [negb Z.eqb TEGRABL_NO_ERROR].
    rewrite (proj2 (Z.eqb_neq (download_base s) NULL)), (proj2 (Z.eqb_neq (download_size s) 0)) by (done || unfold NULL; lia).
    cbn [orb]. rewrite Hsuf. cbn [res_bind]. rewrite Hbl, Hinfo, Hopen. cbn [res_bind]. rewrite Z.eqb_refl. cbn [negb].
    unfold flash_image. rewrite Hdl.
    assert (Hchk : tegrabl_sparse_image_check (encode_image minor blk checksum cs) = true).
    { unfold tegrabl_sparse_image_check, encode_image. rewrite zlen_app. change (zlen (image_header _ _ _ _ _)) with 28.
      pose proof (zlen_nonneg (encode_chunks cs)). rewrite (proj2 (Z.ltb_ge _ 4)) by lia. reflexivity. }
    rewrite Hchk. assert (Hps : tegrabl_partition_size (fb_pm s) (Some q) = Ok (pi_total_size i)).
    { pose proof (ho_info _ _ _ _ Hq) as Hi. unfold tegrabl_partition_size. unfold info_of in Hi.
      destruct q as [[a|] dv o]; cbn [pt_info] in Hi; [|done]. rewrite Hi. done. }
    rewrite Hps. cbn [res_bind]. rewrite Hus, Z.eqb_refl. cbn [negb]. rewrite E. reflexivity.
  - rewrite L2. cbn [s1 set_env fb_pm]. rewrite <- Hdev. split; [apply Hq'|]. exact Hx.
Qed.
End Flash.
