(* ===== verification/FastbootEdge.v ===== *)
(** Fastboot: the names a host can use, and commands that do not do what they are for. *)

From S2P Require Import Prelude TegraError Utils BlockDev BlockDevFacts Gpt AbNaming PartitionManager PartitionFacts.
From S2P Require Import Sparse Fastboot FastbootCmd FastbootFlash.

(** ** Names *)

(** What a table entry without a zero character answers to. *)
Lemma table_names_nonzero : forallb (fun n => forallb (fun c => negb (c =? 0)) n && (zlen n <? 100)) tegrabl_nv_private_partition_list = true.
Proof. vm_compute. reflexivity. Qed.

Lemma private_name_ok n : n ∈ tegrabl_nv_private_partition_list -> nonzero n /\ zlen n < 100.
Proof.
  intros Hn. pose proof table_names_nonzero as T. rewrite forallb_forall in T. apply list_elem_of_In in Hn.
  specialize (T n Hn). apply andb_true_iff in T as [T1 T2]. split; [|by apply Z.ltb_lt].
  apply Forall_forall. intros c Hc. rewrite forallb_forall in T1. apply list_elem_of_In in Hc. specialize (T1 c Hc).
  by destruct (Z.eqb_spec c 0).
Qed.

(** No entry of the table of known partitions stands for a private one. *)
Lemma table_avoids_private : forallb (fun p => forallb (fun n =>
    negb (match_partition_name n (tegra_part_name p)) &&
    negb (match tegra_part_name_b p with Some b => match_partition_name n b | None => false end))
  tegrabl_nv_private_partition_list) fastboot_partition_map_table = true.
Proof. vm_compute. reflexivity. Qed.

(** C26: the private partitions of the board cannot be reached.  Whatever name a host gives (shorter than 2^32
    characters), the name that [flash] and [erase] look up, if any, is one that no partition with a name of the list of private
    partitions answers to. *)
Theorem private_partitions_protected arg info suffix name n :
  zlen arg < 2 ^ 32 -> tegrabl_fastboot_get_partinfo arg = Some info ->
  (name = tegra_part_name info \/ tegrabl_fastboot_get_tegra_part_name suffix (Some info) = Some name) ->
  n ∈ tegrabl_nv_private_partition_list -> match_partition_name n name = false.
Proof.
  intros Hl Hi Hname Hn. unfold tegrabl_fastboot_get_partinfo in Hi.
  assert (Hb : name = tegra_part_name info \/ Some name = tegra_part_name_b info).
  { destruct Hname as [->|E]; [by left|]. unfold tegrabl_fastboot_get_tegra_part_name in E.
    destruct (strcmp_eq _ _); [by right|left; congruence]. }
  destruct (List.find _ fastboot_partition_map_table) as [p|] eqn:Ef.
  - injection Hi as <-. apply find_some in Ef as [Hin _]. pose proof table_avoids_private as T.
    rewrite forallb_forall in T. specialize (T p Hin). rewrite forallb_forall in T. apply list_elem_of_In in Hn.
    specialize (T n Hn). apply andb_true_iff in T as [T1 T2]. apply negb_true_iff in T1, T2.
    destruct Hb as [->|E]; [done|]. by rewrite <- E in T2.
  - destruct (existsb _ _) eqn:Ex; [done|]. injection Hi as <-. assert (name = arg) as -> by (cbn in Hb; destruct Hb; congruence).
    destruct (match_partition_name n arg) eqn:Em; [|done]. exfalso. destruct (private_name_ok n Hn) as [Hnz Hlen].
    apply match_part_name_spec in Em; [|done|lia].
    assert (Hw : tegrabl_a_b_match_part_name_with_suffix n arg = true) by (apply match_with_suffix_spec; tauto).
    assert (Hx : existsb (fun m => tegrabl_a_b_match_part_name_with_suffix m arg) tegrabl_nv_private_partition_list = true).
    { apply existsb_exists. exists n. split; [by apply list_elem_of_In|done]. }
    congruence.
Qed.

(** The copy of a private partition for slot B is reached by a name with both suffixes. *)
Theorem private_slot_b_reachable n : n ∈ tegrabl_nv_private_partition_list ->
  let arg := n ++ BOOT_CHAIN_SUFFIX_B ++ BOOT_CHAIN_SUFFIX_A in
  exists info, tegrabl_fastboot_get_partinfo arg = Some info /\
    match_partition_name (n ++ BOOT_CHAIN_SUFFIX_B) (tegra_part_name info) = true.
Proof.
  intros Hn arg.
  assert (T : forallb (fun n => match tegrabl_fastboot_get_partinfo (n ++ BOOT_CHAIN_SUFFIX_B ++ BOOT_CHAIN_SUFFIX_A) with
    | Some info => match_partition_name (n ++ BOOT_CHAIN_SUFFIX_B) (tegra_part_name info) | None => false end)
    tegrabl_nv_private_partition_list = true) by (vm_compute; reflexivity).
  rewrite forallb_forall in T. apply list_elem_of_In in Hn. specialize (T n Hn). fold arg in T.
  destruct (tegrabl_fastboot_get_partinfo arg) as [info|]; [|done]. by exists info.
Qed.

Section Edge.
Context {P D H : Type} {BD : BlockDriver D} {AL : Allocator H} {PL : Platform P D H}.
Implicit Types (s : fb P D H).

(** Erasing slot B erases slot A.  For every partition of the table, erasing its name with the suffix of slot B
    does exactly what erasing the plain name does: it erases the partition of slot A; while
    flashing the same two names goes to the partitions of slots B and A. *)
Theorem erase_ignores_slot s p asserts : p ∈ fastboot_partition_map_table ->
  let name := fastboot_part_name p in
  cmd_erase s (name ++ BOOT_CHAIN_SUFFIX_B) = cmd_erase s name /\
  tegrabl_fastboot_get_partinfo (name ++ BOOT_CHAIN_SUFFIX_B) = Some p /\
  tegrabl_a_b_get_part_suffix asserts (Some (name ++ BOOT_CHAIN_SUFFIX_B)) = Ok BOOT_CHAIN_SUFFIX_B /\
  tegrabl_fastboot_get_tegra_part_name BOOT_CHAIN_SUFFIX_B (Some p) = tegra_part_name_b p.
Proof.
  intros Hp name.
  assert (Hi : tegrabl_fastboot_get_partinfo (name ++ BOOT_CHAIN_SUFFIX_B) = Some p /\ tegrabl_fastboot_get_partinfo name = Some p /\
    tegrabl_a_b_get_part_suffix asserts (Some (name ++ BOOT_CHAIN_SUFFIX_B)) = Ok BOOT_CHAIN_SUFFIX_B).
  { unfold name. repeat (apply elem_of_cons in Hp as [->|Hp]; [vm_compute; auto|]). by apply not_elem_of_nil in Hp. }
  destruct Hi as (H1 & H2 & H3). split; [|done]. unfold cmd_erase. by rewrite H1, H2.
Qed.

(** The block for downloads is allocated by the first download with its length, and never again: a longer download that the host
    sends later is received behind its end. *)
Theorem second_download_overruns s arg data p e p' :
  tegrabl_is_device_unlocked s = (TEGRABL_NO_ERROR, true) -> is_allocated s = true -> download_base s <> NULL ->
  let len := hex2uint32_t arg in
  fb_room s < len <= MAX_DOWNLOAD_SIZE ->
  usb_send (fb_plat s) (str "DATA" ++ hex_digits 8 len) = (TEGRABL_NO_ERROR, p) ->
  usb_receive p len = (e, data, p') -> zlen data = len ->
  cmd_download s arg = Stuck OutOfBounds.
Proof.
  intros Hu Ha Hb len Hl Es Er Hd. unfold cmd_download, when_unlocked. rewrite Hu. cbn [negb Z.eqb TEGRABL_NO_ERROR].
  fold len. rewrite (proj2 (Z.ltb_ge MAX_DOWNLOAD_SIZE len)) by lia. unfold send. cbn [set_size fb_plat]. rewrite Es.
  rewrite Z.eqb_refl. cbn [negb]. unfold allocate_download. cbn [set_size is_allocated]. rewrite Ha.
  cbn [set_size download_base fb_plat]. rewrite (proj2 (Z.eqb_neq (download_base s) NULL)) by done. rewrite Er. cbn [fb_room set_size].
  rewrite (proj2 (Z.ltb_lt (fb_room s) (zlen data))) by lia. done.
Qed.

(** The variables of the download, which replies do not touch. *)
Definition download_vars s : Z * Z * Z * bool := (download_base s, fb_room s, download_size s, is_allocated s).

Lemma ack_download s code reason : download_vars (fastboot_ack s code reason) = download_vars s.
Proof. unfold fastboot_ack, send. destruct (negb _); [done|]. destruct (strcmp_eq _ _); by destruct (usb_send _ _). Qed.

(** A first download that succeeds leaves a block of its own size. *)
Lemma first_download s arg s1 : is_allocated s = false -> download_size s = 0 -> cmd_download s arg = Ok s1 -> download_size s1 <> 0 ->
  is_allocated s1 = true /\ download_base s1 <> NULL /\ fb_room s1 = hex2uint32_t arg.
Proof.
  intros Ha Hs E Hs1.
  assert (Hno : forall s0, download_vars s1 = download_vars s0 -> download_size s0 = 0 -> False).
  { intros s0 Ev E0. unfold download_vars in Ev. injection Ev as _ _ Ev _. congruence. }
  assert (Hf : forall s0 t, Ok (fastboot_fail s0 t) = Ok s1 -> download_size s0 = 0 -> False).
  { intros s0 t Et. injection Et as <-. apply Hno, ack_download. }
  unfold cmd_download, when_unlocked in E. destruct (tegrabl_is_device_unlocked s) as [e u].
  destruct (negb _); [by destruct (Hf _ _ E)|]. destruct (negb u); [by destruct (Hf _ _ E)|]. cbv zeta in E.
  destruct (_ <? hex2uint32_t arg); [by destruct (Hf _ _ E)|].
  unfold send in E. destruct (usb_send _ _) as [e1 p1]. cbn [set_size fb_plat] in E. destruct (negb _).
  { injection E as <-. done. }
  unfold allocate_download in E. cbn [is_allocated set_size] in E. rewrite Ha in E.
  destruct (heap_alloc_align _ _ _ _) as [a h]. cbn [download_base fb_plat fb_room] in E.
  destruct (Z.eqb_spec a NULL) as [->|Hn]; [by destruct (Hf _ _ E)|].
  destruct (usb_receive _ _) as [[rv data] p2]. destruct (_ <? _); [done|]. destruct (_ || _); injection E as <-.
  - exfalso. eapply Hno; [apply ack_download|done].
  - assert (Ev : download_vars (fastboot_okay (set_size (store_download (mkFb p1 (set_pw (fb_pm s) (set_heap (pw (fb_pm s)) h))
      (fastboot_state s) (cmdlist s) a (hex2uint32_t arg) [] 0 true (fb_log s ++ [str "DATA" ++ hex_digits 8 (hex2uint32_t arg)])) p2 data)
      (hex2uint32_t arg)) []) = (a, hex2uint32_t arg, hex2uint32_t arg, true)) by apply ack_download.
    unfold download_vars in Ev. by injection Ev as -> -> _ ->.
Qed.

(** A second, longer download overruns the heap.  The buffer for downloads is allocated once, with the length of the first one: after
    a first download that succeeded, a longer one within the limit that the host announces and sends is received
    behind the end of the buffer. *)
Theorem longer_download_overruns s arg1 s1 arg2 p e data p' :
  is_allocated s = false -> download_size s = 0 -> cmd_download s arg1 = Ok s1 -> download_size s1 <> 0 ->
  tegrabl_is_device_unlocked s1 = (TEGRABL_NO_ERROR, true) ->
  let len := hex2uint32_t arg2 in hex2uint32_t arg1 < len <= MAX_DOWNLOAD_SIZE ->
  usb_send (fb_plat s1) (str "DATA" ++ hex_digits 8 len) = (TEGRABL_NO_ERROR, p) ->
  usb_receive p len = (e, data, p') -> zlen data = len ->
  cmd_download s1 arg2 = Stuck OutOfBounds.
Proof.
  intros Ha Hs E1 Hs1 Hu len Hl Es Er Hd. destruct (first_download s arg1 s1 Ha Hs E1 Hs1) as (A1 & B1 & R1).
  eapply second_download_overruns; try done. by rewrite R1.
Qed.

(** An image that is not sparse and longer than its partition: nothing is written, and the host is told [OKAY]. *)
Theorem failed_flash_answers_okay asserts local_buffer s arg info suffix q i :
  tegrabl_is_device_unlocked s = (TEGRABL_NO_ERROR, true) -> fastboot_state s = STATE_COMMAND ->
  download_base s <> NULL -> tegrabl_a_b_get_part_suffix asserts (Some arg) = Ok suffix ->
  tegrabl_a_b_match_part_name_with_suffix (str "bootloader") arg = false -> tegrabl_fastboot_get_partinfo arg = Some info ->
  open_partition s (tegrabl_fastboot_get_tegra_part_name suffix (Some info)) = Ok (TEGRABL_NO_ERROR, q) ->
  uninitialized q = false -> info_of (fb_pm s) q = Ok i -> pt_offset q = 0 -> 0 <= pi_total_size i -> pi_total_size i < download_size s < 2 ^ 32 ->
  tegrabl_sparse_image_check (downloaded s) = false ->
  exists s', cmd_flash asserts local_buffer s arg = Ok s' /\ fb_log s' = fb_log s ++ [str "OKAY"] /\ fb_pm s' = fb_pm s.
Proof.
  intros Hu Hs Hb Hsuf Hbl Hinfo Hopen Hq Hi Ho Hsz0 Hsz Hchk. exists (fastboot_okay (set_env s (fb_plat s) (fb_pm s)) []).
  destruct (okay_sent (set_env s (fb_plat s) (fb_pm s)) Hs) as (L1 & L2 & _). split; [|done].
  unfold cmd_flash, when_unlocked. rewrite Hu. cbn [negb Z.eqb TEGRABL_NO_ERROR].
  rewrite (proj2 (Z.eqb_neq (download_base s) NULL)), (proj2 (Z.eqb_neq (download_size s) 0)) by (done || lia).
  cbn [orb]. rewrite Hsuf. cbn [res_bind]. rewrite Hbl, Hinfo, Hopen. cbn [res_bind]. rewrite Z.eqb_refl. cbn [negb].
  unfold flash_image. rewrite Hchk. unfold tegrabl_partition_write.
  rewrite (proj2 (Z.eqb_neq (download_base s) NULL)), (proj2 (Z.eqb_neq (download_size s) 0)) by (done || lia).
  cbn [orb]. rewrite Hq, Hi. cbn [res_bind]. rewrite Ho, Z.add_0_r, u64_small by lia.
  rewrite (proj2 (Z.ltb_lt (pi_total_size i) (download_size s))) by lia. reflexivity.
Qed.

(** Asking whether the bootloader has slots writes "cpu-bootloader_b" with its zero into an array of sixteen characters. *)
Theorem has_slot_bootloader_overruns s response q s1 : 
  open_partition s (Some (str "cpu-bootloader")) = Ok (TEGRABL_NO_ERROR, q) ->
  tegrabl_get_slot_suffix s 1 = Ok (TEGRABL_NO_ERROR, BOOT_CHAIN_SUFFIX_B, s1) ->
  partition_has_slot s (str "bootloader") response = Stuck OutOfBounds.
Proof.
  intros Ho Hs. unfold partition_has_slot. change (strcmp_eq (str "bootloader") (str "bootloader")) with true. cbv iota.
  change (tegrabl_fastboot_get_partinfo (str "cpu-bootloader")) with
    (Some (mkPartinfo (str "cpu-bootloader") (str "cpu-bootloader") (Some (str "cpu-bootloader")) FASTBOOT_FS_TYPE_BASIC)).
  cbv iota. cbn [tegra_part_name]. rewrite Ho. cbn [res_bind]. change (TEGRABL_NO_ERROR =? TEGRABL_NO_ERROR) with true. cbn [negb].
  rewrite Hs. reflexivity.
Qed.
End Edge.
