(* ===== verification/FastbootState.v ===== *)
(** Fastboot: the static variables stay well formed. *)

From S2P Require Import Prelude TegraError Utils BlockDev Gpt AbNaming PartitionManager Sparse Fastboot FastbootCmd FastbootWalk.

Section State.
Context {P D H : Type} {BD : BlockDriver D} {AL : Allocator H} {PL : Platform P D H}.
Implicit Types (s : fb P D H).

(** The download is inside the block allocated for it, the block is within the limit, and there is
    none before the first download. *)
Record server_ok s : Prop := {
  so_state : fastboot_state s = STATE_OFFLINE \/ fastboot_state s = STATE_COMMAND \/ fastboot_state s = STATE_COMPLETE \/
    fastboot_state s = STATE_ERROR;
  so_size : 0 <= download_size s <= zlen (fb_data s);
  so_data : zlen (fb_data s) <= fb_room s;
  so_room : fb_room s <= MAX_DOWNLOAD_SIZE;
  so_null : download_base s = NULL -> fb_room s = 0;
  so_first : is_allocated s = false -> download_base s = NULL
}.

(** Nothing but the state of the command changes. *)
Definition idle s s' : Prop := server_ok s -> server_ok s'.

Lemma idle_env s p m : idle s (set_env s p m).
Proof. by intros [H1 H2 H3 H4 H5 H6]. Qed.

Lemma idle_state s x : x = STATE_COMMAND \/ x = STATE_ERROR \/ x = STATE_OFFLINE \/ x = STATE_COMPLETE -> idle s (set_state s x).
Proof. intros Hx [H1 H2 H3 H4 H5 H6]. split; try done. cbn [set_state fastboot_state]. tauto. Qed.

Lemma idle_ack s code reason : idle s (fastboot_ack s code reason).
Proof.
  intros [H1 H2 H3 H4 H5 H6]. unfold fastboot_ack. destruct (negb _); [done|]. unfold send.
  destruct (strcmp_eq _ _); destruct (usb_send _ _); split; try done. cbn. tauto.
Qed.

Hypothesis hook_acks : forall f p m c e acks pm, change_device_state_hook = Some f -> f p m c = Ok (e, acks, pm) ->
  Forall (fun a => code_ok a.1) acks.

Lemma idle_respected : respected idle.
Proof.
  split; intros; try apply idle_env; [by intros ?|unfold idle in *; auto|apply idle_ack|].
  split; [apply idle_env|by eapply hook_acks].
Qed.

Lemma idle_unlocked s k s' : when_unlocked s k = Ok s' -> (k = Ok s' -> idle s s') -> idle s s'.
Proof.
  unfold when_unlocked. intros E Hk. destruct (tegrabl_is_device_unlocked s) as [e b].
  destruct (negb _); [injection E as <-; apply idle_ack|]. destruct (negb _); [injection E as <-; apply idle_ack|auto].
Qed.

Lemma env_ack_ok s p m code reason : server_ok s -> server_ok (fastboot_ack (set_env s p m) code reason).
Proof. intros Hs. by apply idle_ack, idle_env. Qed.

(** Values that fit in 32 bits. *)
Lemma hex_loop_range x n : 0 <= n < 2 ^ 32 -> 0 <= hex_loop n x < 2 ^ 32.
Proof.
  revert n. induction x as [|c x IH]; intros n Hn; [done|]. cbn [hex_loop].
  assert (Hu : forall y, 0 <= u32 y < 2 ^ 32) by (intros y; apply Z.mod_pos_bound; lia). repeat case_match; auto.
Qed.

Lemma cmd_download_ok s arg s' : cmd_download s arg = Ok s' -> idle s s'.
Proof.
  intros E. apply (idle_unlocked _ _ _ E). clear E. intros E Hok. cbv zeta in E. set (len := hex2uint32_t arg) in E.
  assert (Hlen : 0 <= len) by (apply (hex_loop_range arg 0); lia).
  assert (H0 : server_ok (set_size s 0)) by (destruct Hok; split; cbn; try done; pose proof (zlen_nonneg (fb_data s)); lia).
  destruct (Z.ltb_spec MAX_DOWNLOAD_SIZE len) as [|Hmax]; [injection E as <-; by apply idle_ack|].
  unfold send in E. destruct (usb_send _ _) as [e p]. set (s1 := mkFb p _ _ _ _ _ _ _ _ _) in E.
  assert (H1 : server_ok s1) by (by destruct H0; split). destruct (negb _); [by injection E as <-|].
  assert (H2 : server_ok (allocate_download s1 len)).
  { unfold allocate_download. destruct (is_allocated s1) eqn:Ha; [done|]. destruct (heap_alloc_align _ _ _ _) as [a h].
    destruct H1 as [S1 S2 S3 S4 S5 S6]. split; cbn [fastboot_state download_size fb_data fb_room download_base is_allocated]; try done.
    - unfold zlen. cbn. destruct (a =? NULL); lia.
    - destruct (a =? NULL); lia.
    - intros ->. by rewrite Z.eqb_refl. }
  set (s2 := allocate_download s1 len) in *. destruct (Z.eqb_spec (download_base s2) NULL) as [|Hb]; [injection E as <-; by apply idle_ack|].
  destruct (usb_receive _ _) as [[rv data] p2]. destruct (Z.ltb_spec (fb_room s2) (zlen data)) as [|Hfit]; [done|].
  assert (Hz : zlen (data ++ drop (length data) (fb_data s2)) = Z.max (zlen data) (zlen (fb_data s2))).
  { rewrite zlen_app. unfold zlen. rewrite length_drop. lia. }
  assert (Hsz : forall n, 0 <= n <= zlen data \/ n = download_size s2 -> server_ok (set_size (store_download s2 p2 data) n)).
  { intros n Hn. destruct H2 as [S1 S2 S3 S4 S5 S6].
    split; cbn [set_size store_download fastboot_state download_size fb_data fb_room download_base is_allocated]; rewrite ?Hz; try done; lia. }
  destruct (negb (rv =? TEGRABL_NO_ERROR) || negb (zlen data =? len)) eqn:Ebad; injection E as <-.
  - apply idle_state; [auto|]. apply idle_ack. apply (Hsz (download_size s2)). by right.
  - apply orb_false_iff in Ebad as [_ Hl]. apply negb_false_iff, Z.eqb_eq in Hl. apply idle_ack, Hsz. lia.
Qed.

Lemma cmd_erase_ok s arg s' : cmd_erase s arg = Ok s' -> idle s s'.
Proof.
  intros E. apply (idle_unlocked _ _ _ E). clear E. intros E Hok. destruct (tegrabl_fastboot_get_partinfo arg); [|injection E as <-; by apply idle_ack].
  destruct (open_partition _ _) as [[e q]|]; [|done]. cbn [res_bind] in E.
  destruct (if e =? TEGRABL_NO_ERROR then _ else _) as [[e1 m]|]; [|done]. cbn [res_bind] in E. injection E as <-.
  case_match; by apply env_ack_ok.
Qed.

Lemma cmd_flash_ok asserts local_buffer s arg s' : cmd_flash asserts local_buffer s arg = Ok s' -> idle s s'.
Proof.
  intros E. apply (idle_unlocked _ _ _ E). clear E. intros E Hok. destruct (_ || _); [by injection E as <-|].
  destruct (tegrabl_a_b_get_part_suffix _ _) as [suffix|]; [|done]. cbn [res_bind] in E.
  destruct (tegrabl_a_b_match_part_name_with_suffix _ _).
  - destruct (update_bl_payload _ _ _ _) as [[e pm]|]; [|done]. cbn [res_bind] in E. injection E as <-.
    unfold flash_exit. case_match; by apply env_ack_ok.
  - destruct (tegrabl_fastboot_get_partinfo arg); [|injection E as <-; by apply idle_ack].
    destruct (open_partition _ _) as [[e q]|]; [|done]. cbn [res_bind] in E. destruct (negb _); [injection E as <-; by apply idle_ack|].
    destruct (flash_image _ _ _) as [[e1 m]|]; [|done]. cbn [res_bind] in E. injection E as <-.
    destruct e1; [|by apply idle_env]. unfold flash_exit. case_match; by apply env_ack_ok.
Qed.

Lemma cmd_set_active_ok s arg s' : cmd_set_active_slot s arg = Ok s' -> idle s s'.
Proof.
  intros E. apply (idle_unlocked _ _ _ E). clear E. intros E Hok. unfold tegrabl_set_active_slot in E.
  destruct slot_set_active_hook as [f|]; [destruct (f _ _ _) as [[e pm]|]; [|done]|]; cbn [res_bind] in E; injection E as <-;
    try case_match; solve [by apply env_ack_ok|by apply idle_ack].
Qed.

Lemma cmd_boot_ok s s' b : cmd_boot s = Ok (s', b) -> idle s s'.
Proof.
  unfold cmd_boot. intros E Hok. destruct (tegrabl_is_device_unlocked s) as [e u]. destruct (negb _); [injection E as <- _; by apply idle_ack|].
  destruct (negb _); [injection E as <- _; by apply idle_ack|]. destruct (load_kernel _ _ _) as [[e1 pm]|]; [|done].
  cbn [res_bind] in E. injection E as <- _. by apply idle_env, idle_ack.
Qed.

Lemma run_command_ok asserts local_buffer c s arg s' b : run_command asserts local_buffer c s arg = Ok (s', b) -> idle s s'.
Proof using hook_acks.
  intros E. destruct c; cbn [run_command] in E; try (by eapply cmd_boot_ok).
  all: match type of E with res_bind ?m _ = _ => destruct m as [s1|] eqn:E1; [|done] end; cbn [res_bind] in E; injection E as <- <-.
  - injection E1 as <-. apply idle_env.
  - injection E1 as <-. intros Hok. by apply idle_env, idle_ack.
  - by apply (cmd_getvar_walks _ idle_respected _ _ _ E1).
  - by eapply cmd_erase_ok.
  - by eapply cmd_download_ok.
  - by eapply cmd_flash_ok.
  - injection E1 as <-. apply idle_ack.
  - by apply (cmd_oem_walks _ idle_respected _ _ _ E1).
  - by apply (cmd_flashing_walks _ idle_respected _ _ _ E1).
  - by eapply cmd_set_active_ok.
Qed.

End State.
