(* ===== verification/FastbootProps.v ===== *)
(** Fastboot: the theorems at a concrete board. *)

From S2P Require Import Prelude TegraError Utils BlockDev BlockDevFacts Models Gpt DemoDisk AbNaming PartitionManager PartitionFacts PartitionProps.
From S2P Require Import Sparse SparseFacts SparseProps Fastboot FastbootCmd FastbootWalk FastbootReplies FastbootLock FastbootFlash FastbootEdge FastbootState.

(** A board without slots: the messages that a host will send, and the lock. *)
Record board := mkBoard { bo_input : list (list Z); bo_open : bool }.

#[export] Instance demo_board : Platform board ramdisk arena := {
  usb_send p msg := (TEGRABL_NO_ERROR, p);
  usb_receive p n :=
    match bo_input p with
    | [] => (TEGRABL_ERR_TIMEOUT, [], p)
    | m :: l => (TEGRABL_NO_ERROR, take (Z.to_nat n) m, mkBoard l (bo_open p))
    end;
  is_device_unlocked_hook := Some bo_open;
  change_device_state_hook := Some (fun p m c =>
    Ok (FB_ERR TEGRABL_ERR_INVALID_STATE 0, [(str "INFO", str "asking"); (str "FAIL", str "Could not confirm")], (p, m)));
  get_fuse_ecid_hook := None;
  get_slot_num_hook := None;
  get_current_slot_hook := None;
  get_slot_suffix_hook := None;
  is_slot_successful_hook := None;
  is_slot_unbootable_hook := None;
  get_slot_retry_count_hook := None;
  slot_set_active_hook := None;
  dts_filename p := (TEGRABL_NO_ERROR, str "/dts/t194.dts");
  get_serial_no p := (TEGRABL_NO_ERROR, str "0123");
  update_bl_payload p m data suffix := Ok (FB_ERR TEGRABL_ERR_NOT_SUPPORTED 0, (p, m));
  load_kernel p m data := Ok (FB_ERR TEGRABL_ERR_NOT_SUPPORTED 0, (p, m));
  reset_board p := p;
  reboot_to_fastboot p := p;
  product_name := str "quill"
}.

(** A server on the published disk of PartitionProps.v, with [data] downloaded. *)
Definition fb_demo (input : list (list Z)) (opened : bool) (base : Z) (data : list Z) : fb board ramdisk arena :=
  mkFb (mkBoard input opened) pm_demo STATE_COMMAND (rev registered_commands) base (zlen data) data (zlen data)
    (negb (base =? 0)) [].

Definition after {A} (r : res A) (a : A) : A := match r with Ok x => x | Stuck _ => a end.

Lemma demo_acks f (p : board) (m : pstate ramdisk arena) c e acks pm : change_device_state_hook = Some f -> f p m c = Ok (e, acks, pm) ->
  Forall (fun a => code_ok a.1) acks.
Proof.
  intros E Ef. injection E as <-. injection Ef as _ <- _. apply Forall_cons. split; [by left|].
  apply Forall_cons. split; [by right; left|]. constructor.
Qed.



Lemma demo_board_ok : board_ok (P := board) (D := ramdisk) (H := arena).
Proof.
  split; try done.
  - intros p n. unfold usb_receive. cbn [demo_board]. by destruct (bo_input p).
  - intros f p m c e acks p' m' E Ef. split; [|by eapply demo_acks]. injection E as <-. by injection Ef as _ _ <- <-.
Qed.

Definition demo_session : list (list Z) :=
  [str "download:00000004"; str "flash:boot"; str "erase:system"; str "set_active:_b"; str "oem unlock"; str "boot"; [1; 2; 3]; str "continue"].

Lemma locked_device_untouched_witness : exists s',
  tegrabl_fastboot_command_handler false 512 9 (fb_demo demo_session false 0 []) = Ok (s', TEGRABL_NO_ERROR, Continues) /\
  same_storage pm_demo (fb_pm s') /\ unlocked (fb_plat s') = false /\ Continues <> Booted.
Proof.
  set (r := tegrabl_fastboot_command_handler false 512 9 (fb_demo demo_session false 0 [])).
  set (x := after r (fb_demo [] false 0 [], 0, Booted)).
  assert (E : r = Ok x) by (vm_compute; reflexivity).
  assert (Eo : x.2 = Continues /\ x.1.2 = TEGRABL_NO_ERROR) by (vm_compute; auto).
  destruct x as [[s' e] o]. cbn [fst snd] in Eo. destruct Eo as [-> ->]. exists s'. split; [exact E|].
  exact (locked_device_untouched false 512 9 (fb_demo demo_session false 0 []) s' TEGRABL_NO_ERROR Continues demo_board_ok eq_refl E).
Defined.

(** An image for the partition of the kernel: a block of data, one left alone, one filled. *)
Definition flash_chunks : list chunk := [CRaw (replicate 128 7) 1; CSkip 1; CFill [1; 2; 3; 4] 1].
Definition flash_download : list Z := encode_image 0 128 0 flash_chunks.

Lemma flash_sparse_image_witness : exists s' d',
  cmd_flash false 512 (fb_demo [] true 0x2000 flash_download) (str "boot") = Ok s' /\ fb_log s' = [] ++ [str "OKAY"] /\
  devs (pw (fb_pm s')) !! 0x100 = Some d' /\
  drv_bytes (bd_priv d') = splice 1536 (unpacked 128 flash_chunks (replicate 512 0) 0) intact_disk.
Proof.
  destruct (flash_sparse_image false 512 (fb_demo [] true 0x2000 flash_download) (str "boot")
    (mkPartinfo (str "boot") (str "kernel") (Some (str "kernel_b")) FASTBOOT_FS_TYPE_BASIC) BOOT_CHAIN_SUFFIX_A (pm_handle 2 0) (pm_info 2)
    (set_published (gpt_dev intact_disk) true) 0 128 0 flash_chunks 0x800000) as (s' & d' & H).
  - lia.
  - reflexivity.
  - reflexivity.
  - cbn. lia.
  - reflexivity.
  - reflexivity.
  - reflexivity.
  - vm_compute. reflexivity.
  - apply pm_handle_ok. lia.
  - reflexivity.
  - vm_compute. reflexivity.
  - vm_compute. reflexivity.
  - vm_compute. discriminate.
  - split; try done. unfold flash_chunks. repeat constructor; done.
  - vm_compute. discriminate.
  - exact pm_heap.
  - vm_compute. discriminate.
  - exists s', d'. destruct H as (H1 & H2 & H3 & H4). split; [exact H1|]. split; [exact H2|]. split; [exact H3|].
    rewrite H4. vm_compute. reflexivity.
Defined.

Lemma private_partitions_protected_witness : exists info,
  tegrabl_fastboot_get_partinfo (str "system_b") = Some info /\ match_partition_name (str "mb1") (tegra_part_name info) = false.
Proof.
  eexists. split; [vm_compute; reflexivity|].
  refine (private_partitions_protected (str "system_b") _ BOOT_CHAIN_SUFFIX_B _ (str "mb1") _ _ (or_introl eq_refl) _);
    [vm_compute; reflexivity|vm_compute; reflexivity|]. unfold tegrabl_nv_private_partition_list. right. right. left.
Defined.

Lemma erase_ignores_slot_witness :
  cmd_erase (fb_demo [] true 0 []) (str "system_b") = cmd_erase (fb_demo [] true 0 []) (str "system").
Proof.
  refine (proj1 (erase_ignores_slot (fb_demo [] true 0 []) (mkPartinfo (str "system") (str "APP") (Some (str "APP_b")) FASTBOOT_FS_TYPE_EXT4)
    false _)). unfold fastboot_partition_map_table. do 3 right. left.
Defined.

Lemma longer_download_overruns_witness : exists s1,
  cmd_download (fb_demo [[1; 2; 3; 4]; [1; 2; 3; 4; 5; 6; 7; 8]] true 0 []) (str "00000004") = Ok s1 /\
  cmd_download s1 (str "00000008") = Stuck OutOfBounds.
Proof.
  set (s0 := fb_demo [[1; 2; 3; 4]; [1; 2; 3; 4; 5; 6; 7; 8]] true 0 []).
  set (s1 := after (cmd_download s0 (str "00000004")) s0).
  assert (E : cmd_download s0 (str "00000004") = Ok s1) by (vm_compute; reflexivity).
  exists s1. split; [exact E|].
  refine (longer_download_overruns s0 (str "00000004") s1 (str "00000008") (mkBoard [[1; 2; 3; 4; 5; 6; 7; 8]] true) TEGRABL_NO_ERROR
    [1; 2; 3; 4; 5; 6; 7; 8] (mkBoard [] true) eq_refl eq_refl E _ _ _ _ _ _).
  - vm_compute. discriminate.
  - vm_compute. reflexivity.
  - vm_compute. split; [reflexivity|discriminate].
  - vm_compute. reflexivity.
  - vm_compute. reflexivity.
  - vm_compute. reflexivity.
Defined.

(** A raw image of 600 bytes for a partition of 512. *)
Lemma failed_flash_answers_okay_witness : exists s',
  cmd_flash false 512 (fb_demo [] true 0x2000 (replicate 600 1)) (str "boot") = Ok s' /\ fb_log s' = [] ++ [str "OKAY"] /\ fb_pm s' = pm_demo.
Proof.
  refine (failed_flash_answers_okay false 512 (fb_demo [] true 0x2000 (replicate 600 1)) (str "boot")
    (mkPartinfo (str "boot") (str "kernel") (Some (str "kernel_b")) FASTBOOT_FS_TYPE_BASIC) BOOT_CHAIN_SUFFIX_A (pm_handle 2 0) (pm_info 2)
    eq_refl eq_refl _ eq_refl eq_refl eq_refl _ eq_refl _ eq_refl _ _ _).
  - vm_compute. discriminate.
  - vm_compute. reflexivity.
  - vm_compute. reflexivity.
  - vm_compute. discriminate.
  - vm_compute. split; reflexivity.
  - vm_compute. reflexivity.
Defined.
