(* ===== verification/DList.v ===== *)
(** Intrusive doubly linked lists (common/include/lib/list.h).

    A [struct list_node] is embedded in the object it links, so a node is an address and the
    links are two fields of memory, [prev] and [next]; an address without fields is not a node,
    and using it is [Stuck BadPointer].  A list is a circle through its head.  [dll m h l] says
    that the circle of [h] holds the nodes [l], in order. *)

From S2P Require Import Prelude.

(** ** The operations *)

Record links := mkLinks { prev : gmap Z Z; next : gmap Z Z }.

Definition NIL : Z := 0.

Definition get_prev (m : links) (p : Z) : res Z :=
  match prev m !! p with Some q => Ok q | None => Stuck BadPointer end.
Definition get_next (m : links) (p : Z) : res Z :=
  match next m !! p with Some q => Ok q | None => Stuck BadPointer end.
Definition set_prev (m : links) (p v : Z) : res links :=
  match prev m !! p with
  | Some _ => Ok (mkLinks (<[p := v]> (prev m)) (next m))
  | None => Stuck BadPointer
  end.
Definition set_next (m : links) (p v : Z) : res links :=
  match next m !! p with
  | Some _ => Ok (mkLinks (prev m) (<[p := v]> (next m)))
  | None => Stuck BadPointer
  end.

Definition list_initialize (m : links) (list : Z) : res links :=
  let* m := set_next m list list in
  set_prev m list list.

Definition list_clear_node (m : links) (item : Z) : res links :=
  let* m := set_next m item NIL in
  set_prev m item NIL.

Definition list_in_list (m : links) (item : Z) : res bool :=
  let* p := get_prev m item in
  let* n := get_next m item in
  Ok (negb ((p =? NIL) && (n =? NIL))).

Definition list_add_head (m : links) (list item : Z) : res links :=
  let* first := get_next m list in
  let* m := set_next m item first in
  let* m := set_prev m item list in
  let* first := get_next m list in
  let* m := set_prev m first item in
  set_next m list item.

Definition list_add_tail (m : links) (list item : Z) : res links :=
  let* last := get_prev m list in
  let* m := set_prev m item last in
  let* m := set_next m item list in
  let* last := get_prev m list in
  let* m := set_next m last item in
  set_prev m list item.

Definition list_delete (m : links) (item : Z) : res links :=
  let* n := get_next m item in
  let* p := get_prev m item in
  let* m := set_prev m n p in
  let* p := get_prev m item in
  let* n := get_next m item in
  let* m := set_next m p n in
  let* m := set_next m item NIL in
  set_prev m item NIL.

(** The node, [NIL] if there is none. *)
Definition list_remove_head (m : links) (list : Z) : res (Z * links) :=
  let* item := get_next m list in
  if negb (item =? list) then
    let* m := list_delete m item in Ok (item, m)
  else Ok (NIL, m).

Definition list_remove_tail (m : links) (list : Z) : res (Z * links) :=
  let* item := get_prev m list in
  if negb (item =? list) then
    let* m := list_delete m item in Ok (item, m)
  else Ok (NIL, m).

Definition list_peek_head (m : links) (list : Z) : res Z :=
  let* item := get_next m list in
  Ok (if negb (item =? list) then item else NIL).

Definition list_peek_tail (m : links) (list : Z) : res Z :=
  let* item := get_prev m list in
  Ok (if negb (item =? list) then item else NIL).

Definition list_prev (m : links) (list item : Z) : res Z :=
  let* p := get_prev m item in
  Ok (if negb (p =? list) then p else NIL).

Definition list_next (m : links) (list item : Z) : res Z :=
  let* n := get_next m item in
  Ok (if negb (n =? list) then n else NIL).

Definition list_prev_wrap (m : links) (list item : Z) : res Z :=
  let* p := get_prev m item in
  if negb (p =? list) then Ok p
  else
    let* q := get_prev m p in
    Ok (if negb (q =? list) then q else NIL).

Definition list_next_wrap (m : links) (list item : Z) : res Z :=
  let* n := get_next m item in
  if negb (n =? list) then Ok n
  else
    let* q := get_next m n in
    Ok (if negb (q =? list) then q else NIL).

Definition list_is_empty (m : links) (list : Z) : res bool :=
  let* n := get_next m list in
  Ok (n =? list).

(** The loop of [list_for_every] and [list_for_every_entry] over a state that holds the links.
    The body returns [Some] to leave the function the loop is in. *)
Section Loop.
Context {St R : Type} (links_of : St -> links) (list : Z).
Variable body : St -> Z -> res (option R * St).

Fixpoint for_every (fuel : nat) (node : Z) (s : St) : res (option R * St) :=
  if node =? list then Ok (None, s)
  else
    match fuel with
    | O => Stuck OutOfFuel
    | S fuel =>
        let* (r, s) := body s node in
        match r with
        | Some _ => Ok (r, s)
        | None =>
            let* node := get_next (links_of s) node in
            for_every fuel node s
        end
    end.

(** A node has a field [next], and a list does not pass a node twice. *)
Definition list_for_every (s : St) : res (option R * St) :=
  let* node := get_next (links_of s) list in
  for_every (size (next (links_of s))) node s.
End Loop.

(** ** What a list is *)

Definition link (m : links) (a b : Z) : Prop := next m !! a = Some b /\ prev m !! b = Some a.

Fixpoint path (m : links) (xs : list Z) : Prop :=
  match xs with
  | a :: (b :: _) as t => link m a b /\ path m t
  | _ => True
  end.

Definition dll (m : links) (h : Z) (l : list Z) : Prop :=
  path m (h :: l ++ [h]) /\ NoDup (h :: l) /\ Forall (fun x => x <> NIL) (h :: l).

(** An object with a node in it. *)
Definition node_at (m : links) (x : Z) : Prop := is_Some (prev m !! x) /\ is_Some (next m !! x).

(** Nothing but the fields of the nodes [l] differs. *)
Definition same_outside (l : list Z) (m m' : links) : Prop :=
  (forall y, y ∉ l -> prev m' !! y = prev m !! y /\ next m' !! y = next m !! y) /\
  (forall y, node_at m y -> node_at m' y).

(** ** A number taken out of a list *)

Lemma filter_ne_id n (l : list Z) : n ∉ l -> filter (fun k => k <> n) l = l.
Proof.
  induction l as [|k l IH]; [done|]. rewrite elem_of_cons. intros Hn. rewrite filter_cons_True by naive_solver.
  by rewrite IH by tauto.
Qed.

Lemma filter_ne_split n (l1 l2 : list Z) : NoDup (l1 ++ n :: l2) -> filter (fun k => k <> n) (l1 ++ n :: l2) = l1 ++ l2.
Proof.
  intros (_ & Nd & [N2 _]%NoDup_cons)%NoDup_app. rewrite filter_app, filter_cons_False by auto.
  rewrite !filter_ne_id; [done|done|]. intros Hn. apply (Nd n Hn). by left.
Qed.

(** ** Paths *)

Lemma path_app m xs y ys : path m (xs ++ y :: ys) <-> path m (xs ++ [y]) /\ path m (y :: ys).
Proof.
  induction xs as [|x xs IH]; [simpl; tauto|]. destruct xs as [|z xs].
  - simpl. destruct ys; simpl; tauto.
  - change (link m x z /\ path m ((z :: xs) ++ y :: ys) <->
      (link m x z /\ path m ((z :: xs) ++ [y])) /\ path m (y :: ys)). rewrite IH. tauto.
Qed.

Lemma path_frame m m' xs z : path m (xs ++ [z]) ->
  (forall y, y ∈ xs -> next m' !! y = next m !! y) ->
  (forall y, y ∈ tail (xs ++ [z]) -> prev m' !! y = prev m !! y) -> path m' (xs ++ [z]).
Proof.
  induction xs as [|x xs IH]; [done|]. intros Hp Hn Hq.
  assert (Hx : exists t u, xs ++ [z] = t :: u) by (destruct xs; simpl; eauto).
  destruct Hx as (t & u & E). cbn [app] in *. rewrite E in Hp |- *. destruct Hp as [[L1 L2] Hp].
  split.
  - split; [by rewrite Hn by left|]. rewrite Hq; [done|]. cbn. rewrite E. by left.
  - rewrite <- E in Hp |- *. apply IH; [done|intros; apply Hn; by right|].
    intros y Hy. apply Hq. cbn. rewrite E in Hy |- *. by right.
Qed.

Lemma path_link m xs a b ys : path m (xs ++ a :: b :: ys) -> link m a b.
Proof. intros [_ [H _]]%path_app. done. Qed.

(** ** Inserting and removing a node *)

Definition ins (m : links) (a x b : Z) : links :=
  mkLinks (<[b := x]> (<[x := a]> (prev m))) (<[a := x]> (<[x := b]> (next m))).

Definition del (m : links) (a x b : Z) : links :=
  mkLinks (<[x := NIL]> (<[b := a]> (prev m))) (<[x := NIL]> (<[a := b]> (next m))).

(** The circle, cut between [a] and [b]: changes to the fields that meet there, and to a node [x]
    that is not in the circle, leave the two sides as they are. *)
Record cut (xs : list Z) (a b : Z) (ys : list Z) (x : Z) : Prop := {
  cut_left : NoDup (xs ++ [a]);
  cut_right : NoDup (b :: ys);
  cut_out : x ∉ xs ++ a :: b :: ys;
  cut_b : b ∉ tail (xs ++ [a]);
  cut_a : a ∉ removelast (b :: ys)
}.

Lemma path_sides m m' xs a b ys x : cut xs a b ys x ->
  (forall y, y <> a -> y <> x -> next m' !! y = next m !! y) ->
  (forall y, y <> b -> y <> x -> prev m' !! y = prev m !! y) ->
  (path m (xs ++ [a]) -> path m' (xs ++ [a])) /\ (path m (b :: ys) -> path m' (b :: ys)).
Proof.
  intros [N1 N2 Hx Hb Ha] Hn Hp. rewrite elem_of_app, !elem_of_cons in Hx. split; intros P.
  - apply (path_frame m); [done| |]; intros y Hy.
    + apply Hn; intros ->; [|tauto]. apply NoDup_app in N1 as (_ & N1 & _). apply (N1 a Hy). by left.
    + apply Hp; intros ->; [tauto|].
      assert (Hy' : x ∈ xs ++ [a]) by (destruct xs; cbn in Hy |- *; [by apply elem_of_nil in Hy|by right]).
      rewrite elem_of_app, list_elem_of_singleton in Hy'. destruct Hy' as [Hy' | ->]; tauto.
  - destruct (exists_last (l := b :: ys)) as (zs & z & E); [done|].
    rewrite E in Ha |- *. rewrite removelast_last in Ha. apply (path_frame m); [by rewrite <- E| |]; intros y Hy.
    + apply Hn; intros ->; [done|].
      assert (x ∈ b :: ys) by (rewrite E; apply elem_of_app; by left). rewrite elem_of_cons in *. tauto.
    + rewrite <- E in Hy. cbn in Hy. rewrite NoDup_cons in N2. apply Hp; intros ->; tauto.
Qed.

Lemma cut_ne xs a b ys x : cut xs a b ys x -> a <> x /\ b <> x.
Proof. intros [_ _ Hx _ _]. rewrite elem_of_app, !elem_of_cons in Hx. split; intros ->; tauto. Qed.

Lemma path_ins m xs a b ys x : path m (xs ++ a :: b :: ys) -> cut xs a b ys x ->
  path (ins m a x b) (xs ++ a :: x :: b :: ys).
Proof.
  intros [P1 [_ P2]]%path_app C. destruct (cut_ne _ _ _ _ _ C) as [Hax Hbx].
  destruct (path_sides m (ins m a x b) _ _ _ _ _ C) as [S1 S2].
  { intros y H1 H2. cbn. by rewrite !lookup_insert_ne. }
  { intros y H1 H2. cbn. by rewrite !lookup_insert_ne. }
  rewrite path_app. split; [auto|]. split; [|split; [|by apply S2]]; split; cbn; rewrite ?lookup_insert_eq; try done;
    by rewrite lookup_insert_ne, lookup_insert_eq.
Qed.

Lemma path_del m xs a x b ys : path m (xs ++ a :: x :: b :: ys) -> cut xs a b ys x ->
  path (del m a x b) (xs ++ a :: b :: ys).
Proof.
  intros [P1 [_ [_ P2]]]%path_app C. destruct (cut_ne _ _ _ _ _ C) as [Hax Hbx].
  destruct (path_sides m (del m a x b) _ _ _ _ _ C) as [S1 S2].
  { intros y H1 H2. cbn. by rewrite !lookup_insert_ne. }
  { intros y H1 H2. cbn. by rewrite !lookup_insert_ne. }
  rewrite path_app. split; [auto|]. split; [|by apply S2].
  split; cbn; by rewrite lookup_insert_ne, lookup_insert_eq.
Qed.

(** ** Each operation on a list *)

Lemma add_head_eq m h b x : link m h b -> node_at m x -> h <> x -> b <> x ->
  list_add_head m h x = Ok (ins m h x b).
Proof.
  intros [L1 L2] [[p Hp] [n Hn]] H1 H2. unfold list_add_head, get_next, set_next, set_prev.
  rewrite L1. cbn. rewrite Hn. cbn. rewrite Hp. cbn. rewrite lookup_insert_ne, L1 by done. cbn.
  rewrite lookup_insert_ne, L2 by done. cbn. by rewrite lookup_insert_ne, L1.
Qed.

Lemma add_tail_eq m a h x : link m a h -> node_at m x -> a <> x -> h <> x ->
  list_add_tail m h x = Ok (ins m a x h).
Proof.
  intros [L1 L2] [[p Hp] [n Hn]] H1 H2. unfold list_add_tail, get_prev, set_next, set_prev.
  rewrite L2. cbn. rewrite Hp. cbn. rewrite Hn. cbn. rewrite lookup_insert_ne, L2 by done. cbn.
  rewrite lookup_insert_ne, L1 by done. cbn. by rewrite lookup_insert_ne, L2.
Qed.

Lemma delete_eq m a x b : link m a x -> link m x b -> a <> x -> b <> x ->
  list_delete m x = Ok (del m a x b).
Proof.
  intros [L1 L2] [L3 L4] H1 H2. unfold list_delete, get_next, get_prev, set_next, set_prev.
  rewrite L3. cbn. rewrite L2. cbn. rewrite L4. cbn. rewrite lookup_insert_ne, L2, L3 by done. cbn.
  rewrite L1. cbn. rewrite lookup_insert_ne, L3 by done. cbn. by rewrite lookup_insert_ne, L2.
Qed.

Lemma is_Some_insert (f : gmap Z Z) i v y : is_Some (f !! y) -> is_Some (<[i := v]> f !! y).
Proof. intros. rewrite lookup_insert_is_Some. destruct (decide (i = y)); auto. Qed.

Lemma node_at_write m y p1 v1 p2 v2 n1 u1 n2 u2 : node_at m y ->
  node_at (mkLinks (<[p1 := v1]> (<[p2 := v2]> (prev m))) (<[n1 := u1]> (<[n2 := u2]> (next m)))) y.
Proof. intros [Hp Hn]. split; cbn; by do 2 apply is_Some_insert. Qed.

(** The circle of [h] opened between [l1] and [l2]. *)
Lemma circle_cut h l1 l2 : NoDup (h :: l1 ++ l2) ->
  exists xs a b ys, h :: l1 = xs ++ [a] /\ l2 ++ [h] = b :: ys /\ a ∈ h :: l1 /\ b ∈ h :: l2 /\
    (forall x, x ∉ h :: l1 ++ l2 -> cut xs a b ys x).
Proof.
  intros N. destruct (exists_last (l := h :: l1)) as (xs & a & E); [done|].
  assert (exists b ys, l2 ++ [h] = b :: ys) as (b & ys & E2) by (destruct l2; cbn; eauto).
  exists xs, a, b, ys. split; [done|]. split; [done|].
  assert (Hb : b ∈ l2 ++ [h]) by (rewrite E2; by left). rewrite elem_of_app, list_elem_of_singleton in Hb.
  assert (Ha : a ∈ h :: l1) by (rewrite E; apply elem_of_app; right; by left).
  split; [done|]. split; [destruct Hb as [Hb | ->]; [by right|by left]|].
  rewrite app_comm_cons in N. apply NoDup_app in N as (N1 & Nd & N2). intros x Hx. split.
  - by rewrite <- E.
  - rewrite <- E2. apply NoDup_app. split; [done|]. split; [|apply NoDup_singleton].
    intros y Hy ->%list_elem_of_singleton. apply (Nd h); [by left|done].
  - intros Hin. apply Hx. change (a :: b :: ys) with ([a] ++ b :: ys) in Hin.
    rewrite app_assoc, <- E, <- E2, !elem_of_app, list_elem_of_singleton in Hin.
    rewrite app_comm_cons, elem_of_app. destruct Hin as [?|[?| ->]]; [by left|by right|left; by left].
  - rewrite <- E. cbn. rewrite NoDup_cons in N1. intros Hin. destruct Hb as [Hb | ->]; [|tauto].
    apply (Nd b); [by right|done].
  - rewrite <- E2, removelast_last. by apply Nd.
Qed.

(** A node put between [l1] and [l2]; the fields it takes are those of its neighbours [a] and [b]. *)
Lemma dll_insert m h l1 l2 x : dll m h (l1 ++ l2) -> node_at m x -> x ∉ h :: l1 ++ l2 -> x <> NIL ->
  exists a b, link m a b /\ a <> x /\ b <> x /\ last (h :: l1) = Some a /\ head (l2 ++ [h]) = Some b /\
    dll (ins m a x b) h (l1 ++ x :: l2) /\ same_outside (x :: h :: l1 ++ l2) m (ins m a x b).
Proof.
  intros (P & N & Z) Hx Hn H0. destruct (circle_cut h l1 l2 N) as (xs & a & b & ys & E1 & E2 & Ha & Hb & C).
  specialize (C x Hn). destruct (cut_ne _ _ _ _ _ C) as [Hax Hbx].
  assert (Ep : h :: (l1 ++ l2) ++ [h] = xs ++ a :: b :: ys).
  { rewrite <- app_assoc, app_comm_cons, E1, E2, <- app_assoc. done. }
  rewrite Ep in P. exists a, b. split; [by eapply path_link|]. do 2 (split; [done|]).
  split; [by rewrite E1, last_snoc|]. split; [by rewrite E2|]. split; [split; [|split]|split].
  - apply (path_ins _ _ _ _ _ x) in P; [|done].
    assert (E : h :: (l1 ++ x :: l2) ++ [h] = xs ++ a :: x :: b :: ys); [|by rewrite E].
    by rewrite <- app_assoc, app_comm_cons, E1, <- app_assoc; cbn; rewrite E2.
  - rewrite app_comm_cons, <- Permutation_middle. by apply NoDup_cons.
  - rewrite app_comm_cons, <- Permutation_middle. by apply Forall_cons.
  - intros y Hy. rewrite !elem_of_cons, elem_of_app in Hy. rewrite !elem_of_cons in Ha, Hb.
    cbn. rewrite !lookup_insert_ne; [done|intros ->; tauto..].
  - intros y Hy. by apply node_at_write.
Qed.

Lemma dll_remove m h l1 x l2 : dll m h (l1 ++ x :: l2) ->
  exists a b, link m a x /\ link m x b /\ a <> x /\ b <> x /\
    dll (del m a x b) h (l1 ++ l2) /\ same_outside (h :: l1 ++ x :: l2) m (del m a x b).
Proof.
  intros (P & N & Z). rewrite app_comm_cons, <- Permutation_middle in N, Z.
  apply NoDup_cons in N as [Hn N]. apply Forall_cons in Z as [_ Z].
  destruct (circle_cut h l1 l2 N) as (xs & a & b & ys & E1 & E2 & Ha & Hb & C).
  specialize (C x Hn). destruct (cut_ne _ _ _ _ _ C) as [Hax Hbx].
  assert (Ep : h :: (l1 ++ x :: l2) ++ [h] = xs ++ a :: x :: b :: ys).
  { rewrite <- app_assoc, app_comm_cons, E1, <- app_assoc. cbn. by rewrite E2. }
  rewrite Ep in P. exists a, b. split; [by eapply path_link|].
  split. { apply (path_link m (xs ++ [a]) x b ys). by rewrite <- app_assoc. }
  do 2 (split; [done|]). split; [split; [|done]|split].
  - apply path_del in P; [|done].
    assert (E : h :: (l1 ++ l2) ++ [h] = xs ++ a :: b :: ys); [|by rewrite E].
    by rewrite <- app_assoc, app_comm_cons, E1, <- app_assoc, E2.
  - intros y Hy. rewrite !elem_of_cons, elem_of_app, elem_of_cons in Hy. rewrite !elem_of_cons in Ha, Hb.
    cbn. rewrite !lookup_insert_ne; [done|intros ->; tauto..].
  - intros y Hy. by apply node_at_write.
Qed.

Lemma list_initialize_ok m h : node_at m h -> h <> NIL ->
  exists m', list_initialize m h = Ok m' /\ dll m' h [] /\ same_outside [h] m m'.
Proof.
  intros [[p Hp] [n Hn]] H0. unfold list_initialize, set_next, set_prev. rewrite Hn. cbn. rewrite Hp.
  eexists. split; [reflexivity|]. split; [split; [|split]|split].
  - split; [|done]. split; cbn; by rewrite lookup_insert_eq.
  - apply NoDup_singleton.
  - by apply Forall_singleton.
  - intros y Hy. rewrite list_elem_of_singleton in Hy. cbn. by rewrite !lookup_insert_ne by congruence.
  - intros y [Hy1 Hy2]. split; cbn; by apply is_Some_insert.
Qed.

Lemma list_add_head_ok m h l x : dll m h l -> node_at m x -> x ∉ h :: l -> x <> NIL ->
  exists m', list_add_head m h x = Ok m' /\ dll m' h (x :: l) /\ same_outside (x :: h :: l) m m'.
Proof.
  intros Hd Hx Hn H0. destruct (dll_insert m h [] l x) as (a & b & L & Ha & Hb & E1 & E2 & Hd' & Ho); [done..|].
  injection E1 as <-. eexists. split; [by apply add_head_eq|]. done.
Qed.

Lemma list_add_tail_ok m h l x : dll m h l -> node_at m x -> x ∉ h :: l -> x <> NIL ->
  exists m', list_add_tail m h x = Ok m' /\ dll m' h (l ++ [x]) /\ same_outside (x :: h :: l) m m'.
Proof.
  intros Hd Hx Hn H0. rewrite <- (app_nil_r l) in Hd, Hn.
  destruct (dll_insert m h l [] x) as (a & b & L & Ha & Hb & E1 & E2 & Hd' & Ho); [done..|].
  injection E2 as <-. eexists. split; [by apply (add_tail_eq m a)|]. by rewrite app_nil_r in Ho.
Qed.

Lemma list_delete_ok m h l1 x l2 : dll m h (l1 ++ x :: l2) ->
  exists m', list_delete m x = Ok m' /\ dll m' h (l1 ++ l2) /\ same_outside (h :: l1 ++ x :: l2) m m' /\
    list_in_list m' x = Ok false.
Proof.
  intros Hd. destruct (dll_remove m h l1 x l2 Hd) as (a & b & L1 & L2 & Ha & Hb & Hd' & Ho).
  eexists. split; [by apply (delete_eq m a x b)|]. split; [done|]. split; [done|].
  unfold list_in_list, get_prev, get_next. cbn. by rewrite !lookup_insert_eq.
Qed.

(** The first node and the last one. *)
Lemma dll_first m h l : dll m h l -> get_next m h = Ok (default h (head l)).
Proof. intros (P & _ & _). unfold get_next. destruct l; cbn in P; destruct P as [[-> _] _]; done. Qed.

Lemma dll_last m h l : dll m h l -> get_prev m h = Ok (default h (last l)).
Proof.
  intros (P & _ & _). unfold get_prev. destruct l as [|y l _] using rev_ind; [by destruct P as [[_ ->] _]|].
  rewrite last_snoc. rewrite <- app_assoc in P. apply (path_link m (h :: l) y h []) in P as [_ ->]. done.
Qed.

(** The nodes around one of the list. *)
Lemma dll_around m h l1 x l2 : dll m h (l1 ++ x :: l2) ->
  get_prev m x = Ok (default h (last l1)) /\ get_next m x = Ok (default h (head l2)).
Proof.
  intros (P & _ & _). rewrite <- app_assoc in P. split.
  - unfold get_prev. destruct l1 as [|y l1 _] using rev_ind.
    + cbn in P. destruct P as [[_ ->] _]. done.
    + rewrite last_snoc. rewrite <- app_assoc in P. apply (path_link m (h :: l1) y x (l2 ++ [h])) in P as [_ ->]. done.
  - unfold get_next. destruct l2 as [|z l2].
    + apply (path_link m (h :: l1) x h []) in P as [-> _]. done.
    + apply (path_link m (h :: l1) x z (l2 ++ [h])) in P as [-> _]. done.
Qed.

Lemma dll_head_ne m h l x : dll m h l -> x ∈ l -> x <> h /\ x <> NIL.
Proof.
  intros (_ & N & Z) Hx. apply NoDup_cons in N as [N _]. apply Forall_cons in Z as [_ Z].
  rewrite Forall_forall in Z. split; [by intros ->|by apply Z].
Qed.

(** What a look at an end of the list returns: a node, or [NIL] past the end. *)
Lemma default_ne m h l (o : option Z) : dll m h l -> (forall x, o = Some x -> x ∈ l) ->
  (if negb (default h o =? h) then default h o else NIL) = default NIL o.
Proof.
  intros Hd Ho. destruct o as [x|]; cbn; [|by rewrite Z.eqb_refl].
  destruct (dll_head_ne m h l x Hd (Ho x eq_refl)) as [Hne _]. by rewrite (proj2 (Z.eqb_neq x h)).
Qed.

Lemma head_elem {A} (l : list A) x : head l = Some x -> x ∈ l.
Proof. destruct l; [done|]. intros [= ->]. by left. Qed.

Lemma last_elem {A} (l : list A) x : last l = Some x -> x ∈ l.
Proof. intros (l' & ->)%last_Some. apply elem_of_app. right. by left. Qed.

Lemma list_remove_head_ok m h l : dll m h l ->
  exists m', list_remove_head m h = Ok (default NIL (head l), m') /\ dll m' h (tail l) /\ same_outside (h :: l) m m'.
Proof.
  intros Hd. unfold list_remove_head. rewrite (dll_first m h l Hd). cbn [res_bind].
  destruct l as [|x l]; cbn [head default tail].
  - rewrite Z.eqb_refl. exists m. done.
  - destruct (dll_head_ne m h (x :: l) x Hd) as [Hne _]; [by left|]. cbn [from_option id]. rewrite (proj2 (Z.eqb_neq x h)) by done.
    destruct (list_delete_ok m h [] x l Hd) as (m' & E & Hd' & Ho & _). exists m'. cbn. by rewrite E.
Qed.

Lemma list_remove_tail_ok m h l : dll m h l ->
  exists m', list_remove_tail m h = Ok (default NIL (last l), m') /\ dll m' h (removelast l) /\ same_outside (h :: l) m m'.
Proof.
  intros Hd. unfold list_remove_tail. rewrite (dll_last m h l Hd). cbn [res_bind].
  destruct l as [|x l _] using rev_ind.
  - cbn. rewrite Z.eqb_refl. exists m. done.
  - rewrite last_snoc, removelast_last. cbn [from_option id].
    destruct (dll_head_ne m h _ x Hd) as [Hne _]; [apply elem_of_app; right; by left|].
    rewrite (proj2 (Z.eqb_neq x h)) by done.
    destruct (list_delete_ok m h l x [] Hd) as (m' & E & Hd' & Ho & _). exists m'. cbn. rewrite E.
    by rewrite app_nil_r in Hd'.
Qed.

(** ** Other lists in the same memory *)

Lemma dll_frame m m' h l k : dll m h l -> same_outside k m m' -> (forall x, x ∈ h :: l -> x ∉ k) -> dll m' h l.
Proof.
  intros (P & N & Z) [Ho _] Hk. split; [|done]. rewrite app_comm_cons in P |- *.
  apply (path_frame m); [done|intros y Hy; apply Ho; by apply Hk|].
  intros y Hy. apply Ho, Hk. cbn in Hy. rewrite elem_of_app, list_elem_of_singleton in Hy.
  destruct Hy as [Hy | ->]; [by right|by left].
Qed.

Lemma dll_nodes m h l x : dll m h l -> x ∈ h :: l -> node_at m x.
Proof.
  intros Hd Hx. split.
  - rewrite elem_of_cons in Hx. destruct Hx as [-> | (l1 & l2 & ->)%list_elem_of_split].
    + pose proof (dll_last _ _ _ Hd) as E. unfold get_prev in E. by destruct (prev m !! h).
    + destruct (dll_around _ _ _ _ _ Hd) as [E _]. unfold get_prev in E. by destruct (prev m !! x).
  - rewrite elem_of_cons in Hx. destruct Hx as [-> | (l1 & l2 & ->)%list_elem_of_split].
    + pose proof (dll_first _ _ _ Hd) as E. unfold get_next in E. by destruct (next m !! h).
    + destruct (dll_around _ _ _ _ _ Hd) as [_ E]. unfold get_next in E. by destruct (next m !! x).
Qed.

Lemma dll_size m h l : dll m h l -> (length l < size (next m))%nat.
Proof.
  intros Hd. assert (Hs : list_to_set (h :: l) ⊆ dom (next m)).
  { intros x Hx%elem_of_list_to_set. apply elem_of_dom, (dll_nodes _ _ _ _ Hd Hx). }
  apply subseteq_size in Hs. rewrite size_dom, size_list_to_set in Hs by apply Hd. done.
Qed.

(** ** Loops *)

Section Loops.
Context {St R : Type} (links_of : St -> links) (h : Z) (body : St -> Z -> res (option R * St)).
(** [J k s] is what holds of the state once the loop has passed the nodes [k]. *)
Variables (m : links) (J : list Z -> St -> Prop).
Hypothesis J_links : forall k s, J k s -> links_of s = m.

Lemma for_every_passes pre l1 l2 fuel s : dll m h (pre ++ l1 ++ l2) -> J pre s ->
  (forall k y rest s, pre ++ l1 = k ++ y :: rest -> J k s -> exists s', body s y = Ok (None, s') /\ J (k ++ [y]) s') ->
  exists s', J (pre ++ l1) s' /\
    for_every links_of h body (length l1 + fuel) (default h (head (l1 ++ l2))) s =
    for_every links_of h body fuel (default h (head l2)) s'.
Proof.
  revert pre s. induction l1 as [|y l1 IH]; intros pre s Hd Hj Hb; [exists s; by rewrite app_nil_r|].
  destruct (Hb pre y l1 s) as (s1 & E1 & J1); [done|done|].
  destruct (IH (pre ++ [y]) s1) as (s2 & J2 & E2);
    [by rewrite <- app_assoc|done|intros k z rest t Hk; apply (Hb k z rest); by rewrite <- Hk, <- app_assoc|].
  exists s2. rewrite <- app_assoc in J2. split; [done|]. rewrite <- E2.
  destruct (dll_head_ne m h _ y Hd) as [Hne _]; [apply elem_of_app; right; by left|].
  cbn [app head from_option id length Nat.add for_every]. rewrite (proj2 (Z.eqb_neq y h)) by done. rewrite E1. cbn [res_bind].
  rewrite (J_links _ _ J1). destruct (dll_around m h pre y (l1 ++ l2) Hd) as [_ ->]. done.
Qed.

(** A loop whose body never leaves ends, after every node. *)
Lemma list_for_every_all l s : dll m h l -> J [] s ->
  (forall k y rest s, l = k ++ y :: rest -> J k s -> exists s', body s y = Ok (None, s') /\ J (k ++ [y]) s') ->
  exists s', J l s' /\ list_for_every links_of h body s = Ok (None, s').
Proof.
  intros Hd Hj Hb. pose proof (dll_size _ _ _ Hd) as Hs.
  destruct (for_every_passes [] l [] (size (next m) - length l) s) as (s' & J' & E);
    [by rewrite app_nil_r|done|done|].
  exists s'. split; [done|]. unfold list_for_every. rewrite (J_links _ _ Hj), (dll_first m h l Hd). cbn [res_bind].
  rewrite app_nil_r in E. replace (length l + (size (next m) - length l))%nat with (size (next m)) in E by lia.
  rewrite E. cbn [head from_option]. destruct (size (next m) - length l)%nat; cbn; by rewrite Z.eqb_refl.
Qed.

(** A loop whose body leaves at [x] has passed the nodes before it. *)
Lemma list_for_every_until l1 x l2 s : dll m h (l1 ++ x :: l2) -> J [] s ->
  (forall k y rest s, l1 = k ++ y :: rest -> J k s -> exists s', body s y = Ok (None, s') /\ J (k ++ [y]) s') ->
  exists s', J l1 s' /\ forall r t, body s' x = Ok (Some r, t) ->
    list_for_every links_of h body s = Ok (Some r, t).
Proof.
  intros Hd Hj Hb. pose proof (dll_size _ _ _ Hd) as Hs. rewrite length_app in Hs. cbn in Hs.
  destruct (for_every_passes [] l1 (x :: l2) (size (next m) - length l1) s) as (s' & J' & E); [done..|].
  exists s'. split; [done|]. intros r t Ht. unfold list_for_every.
  rewrite (J_links _ _ Hj), (dll_first m h _ Hd). cbn [res_bind].
  replace (length l1 + (size (next m) - length l1))%nat with (size (next m)) in E by lia. rewrite E.
  destruct (dll_head_ne m h _ x Hd) as [Hne _]; [apply elem_of_app; right; by left|].
  destruct (size (next m) - length l1)%nat eqn:F; [lia|]. cbn [head from_option id for_every].
  rewrite (proj2 (Z.eqb_neq x h)) by done. by rewrite Ht.
Qed.
End Loops.
