(* ===== verification/DListProps.v ===== *)
(** Intrusive lists: whatever is done to a list through the functions of list.h, it behaves as a
    sequence. *)

From S2P Require Import Prelude DList.

(** ** The calls, and what they mean for a sequence *)

Inductive list_call :=
| AddHead (x : Z) | AddTail (x : Z) | Delete (x : Z) | RemoveHead | RemoveTail
| PeekHead | PeekTail | Next (x : Z) | Prev (x : Z) | NextWrap (x : Z) | PrevWrap (x : Z)
| InList (x : Z) | IsEmpty.

Definition run_call (h : Z) (m : links) (o : list_call) : res (Z * links) :=
  let look r := let* v := r in Ok (v, m) in
  let test r := let* b := r in Ok (Z.b2z b, m) in
  match o with
  | AddHead x => let* m := list_add_head m h x in Ok (0, m)
  | AddTail x => let* m := list_add_tail m h x in Ok (0, m)
  | Delete x => let* m := list_delete m x in Ok (0, m)
  | RemoveHead => list_remove_head m h
  | RemoveTail => list_remove_tail m h
  | PeekHead => look (list_peek_head m h)
  | PeekTail => look (list_peek_tail m h)
  | Next x => look (list_next m h x)
  | Prev x => look (list_prev m h x)
  | NextWrap x => look (list_next_wrap m h x)
  | PrevWrap x => look (list_prev_wrap m h x)
  | InList x => test (list_in_list m x)
  | IsEmpty => test (list_is_empty m h)
  end.

Fixpoint run_calls (h : Z) (m : links) (os : list list_call) : res (list Z * links) :=
  match os with
  | [] => Ok ([], m)
  | o :: os =>
      let* (v, m) := run_call h m o in
      let* (vs, m) := run_calls h m os in
      Ok (v :: vs, m)
  end.

(** The element behind [x]. *)
Fixpoint after (x : Z) (l : list Z) : option Z :=
  match l with
  | [] => None
  | y :: l => if y =? x then head l else after x l
  end.

Definition before (x : Z) (l : list Z) : option Z := after x (reverse l).

Definition seq_call (l : list Z) (o : list_call) : Z * list Z :=
  match o with
  | AddHead x => (0, x :: l)
  | AddTail x => (0, l ++ [x])
  | Delete x => (0, filter (fun y => y <> x) l)
  | RemoveHead => (default NIL (head l), tail l)
  | RemoveTail => (default NIL (last l), removelast l)
  | PeekHead => (default NIL (head l), l)
  | PeekTail => (default NIL (last l), l)
  | Next x => (default NIL (after x l), l)
  | Prev x => (default NIL (before x l), l)
  | NextWrap x => (default (default NIL (head l)) (after x l), l)
  | PrevWrap x => (default (default NIL (last l)) (before x l), l)
  | InList x => (Z.b2z (bool_decide (x ∈ l)), l)
  | IsEmpty => (Z.b2z (bool_decide (l = [])), l)
  end.

Fixpoint seq_calls (l : list Z) (os : list list_call) : list Z * list Z :=
  match os with
  | [] => ([], l)
  | o :: os =>
      let '(v, l) := seq_call l o in
      let '(vs, l) := seq_calls l os in (v :: vs, l)
  end.

(** A node is added once; only nodes of the list are deleted or walked from. *)
Definition list_legal (nodes l : list Z) (o : list_call) : Prop :=
  match o with
  | AddHead x | AddTail x => x ∈ nodes /\ x ∉ l
  | Delete x | Next x | Prev x | NextWrap x | PrevWrap x => x ∈ l
  | InList x => x ∈ nodes
  | _ => True
  end.

Fixpoint lists_legal (nodes l : list Z) (os : list list_call) : Prop :=
  match os with
  | [] => True
  | o :: os => list_legal nodes l o /\ lists_legal nodes (seq_call l o).2 os
  end.

(** ** One call *)

Lemma after_split x l1 l2 : NoDup (l1 ++ x :: l2) -> after x (l1 ++ x :: l2) = head l2.
Proof.
  induction l1 as [|y l1 IH]; cbn; [by rewrite Z.eqb_refl|]. intros [Hy N]%NoDup_cons.
  rewrite (proj2 (Z.eqb_neq y x)); [by apply IH|]. intros ->. apply Hy, elem_of_app. right. by left.
Qed.

Lemma before_split x l1 l2 : NoDup (l1 ++ x :: l2) -> before x (l1 ++ x :: l2) = last l1.
Proof.
  intros N. assert (E : reverse (l1 ++ x :: l2) = reverse l2 ++ x :: reverse l1) by (by rewrite reverse_app, reverse_cons, <- app_assoc).
  unfold before. rewrite E, after_split; [by rewrite head_reverse|]. rewrite <- E. by rewrite reverse_Permutation.
Qed.

Section Calls.
Context (h : Z) (nodes : list Z) (Hh : h ∉ nodes) (H0 : NIL ∉ nodes).

(** The list holds [l]; the other nodes are in no list. *)
Record holds_seq (m : links) (l : list Z) : Prop := {
  hs_list : dll m h l;
  hs_sub : forall x, x ∈ l -> x ∈ nodes;
  hs_nodes : forall x, x ∈ nodes -> node_at m x;
  hs_out : forall x, x ∈ nodes -> x ∉ l -> list_in_list m x = Ok false
}.

Lemma nodup_seq m l : holds_seq m l -> NoDup l.
Proof. intros [(_ & [_ N]%NoDup_cons & _) _ _ _]. done. Qed.

Lemma in_list_outside m m' k x : same_outside k m m' -> x ∉ k -> list_in_list m' x = list_in_list m x.
Proof. intros [Ho _] Hx. unfold list_in_list, get_prev, get_next. by destruct (Ho x Hx) as [-> ->]. Qed.

Lemma hs_add m l x m' l' : holds_seq m l -> x ∈ nodes -> x ∉ l -> dll m' h l' -> same_outside (x :: h :: l) m m' ->
  l' ≡ₚ x :: l -> holds_seq m' l'.
Proof.
  intros [L S N O] Hx Hl D' Ho P. split; [done| | |].
  - intros y. rewrite P. intros [-> |Hy]%elem_of_cons; auto.
  - intros y Hy. by apply Ho, N.
  - intros y Hy. rewrite P. intros Hn. rewrite elem_of_cons in Hn. rewrite (in_list_outside m m' (x :: h :: l)); [apply O; tauto|done|].
    rewrite !elem_of_cons. intros [-> |[-> |?]]; tauto.
Qed.

Lemma hs_remove m l1 x l2 : holds_seq m (l1 ++ x :: l2) ->
  exists m', list_delete m x = Ok m' /\ holds_seq m' (l1 ++ l2).
Proof.
  intros W. pose proof (nodup_seq _ _ W) as Nd. destruct W as [L S N O].
  destruct (list_delete_ok m h l1 x l2 L) as (m' & E & D' & Ho & Hx). exists m'. split; [done|]. split; [done| | |].
  - intros y Hy. apply S. rewrite elem_of_app in *. rewrite elem_of_cons. tauto.
  - intros y Hy. by apply Ho, N.
  - intros y Hy Hn. destruct (decide (y = x)) as [-> |Hne]; [done|].
    rewrite (in_list_outside m m' (h :: l1 ++ x :: l2)); [|done|].
    + apply O; [done|]. rewrite elem_of_app, elem_of_cons in *. tauto.
    + rewrite elem_of_cons, elem_of_app, elem_of_cons in *. intros [-> |?]; tauto.
Qed.

(** Looking at [x] of the list. *)
Lemma look_around m l x : holds_seq m l -> x ∈ l ->
  get_next m x = Ok (default h (after x l)) /\ get_prev m x = Ok (default h (before x l)) /\
  (forall y, after x l = Some y -> y ∈ l) /\ (forall y, before x l = Some y -> y ∈ l).
Proof.
  intros W (l1 & l2 & ->)%list_elem_of_split. pose proof (nodup_seq _ _ W) as Nd. rewrite after_split, before_split by done.
  destruct (dll_around m h l1 x l2 (hs_list _ _ W)) as [E1 E2]. split; [done|]. split; [done|]. split.
  - intros y Hy%head_elem. apply elem_of_app. right. by right.
  - intros y Hy%last_elem. apply elem_of_app. by left.
Qed.

Lemma in_list_yes m l x : holds_seq m l -> x ∈ l -> list_in_list m x = Ok true.
Proof.
  intros W Hx. destruct (look_around m l x W Hx) as (En & _ & Hn & _).
  destruct (hs_nodes _ _ W x (hs_sub _ _ W x Hx)) as [[p Hp] _].
  unfold list_in_list, get_prev. rewrite Hp. cbn [res_bind]. rewrite En. cbn [res_bind].
  assert (default h (after x l) <> NIL) as Hne.
  { destruct (hs_list _ _ W) as (_ & _ & [Z1 Z2]%Forall_cons). rewrite Forall_forall in Z2.
    destruct (after x l) as [y|] eqn:E; cbn; [by apply Z2, Hn|done]. }
  rewrite (proj2 (Z.eqb_neq _ NIL) Hne), andb_false_r. done.
Qed.

(** The value a wrapping step falls back to is the far end. *)
Lemma wrap_ne m l x : holds_seq m l -> x ∈ l -> exists a b, head l = Some a /\ last l = Some b /\ a <> h /\ b <> h.
Proof.
  intros W Hx. destruct l as [|y l]; [by apply elem_of_nil in Hx|]. destruct (last_is_Some (y :: l)) as [_ [b Hb]]; [done|].
  exists y, b. split; [done|]. split; [done|]. split.
  - apply (dll_head_ne m h _ y (hs_list _ _ W)). by left.
  - apply (dll_head_ne m h _ b (hs_list _ _ W)). by apply last_elem.
Qed.

Lemma look_ok m l (o : option Z) : holds_seq m l -> (forall x, o = Some x -> x ∈ l) ->
  (if negb (default h o =? h) then default h o else NIL) = default NIL o.
Proof. intros W. apply (default_ne m h l), W. Qed.

Lemma call_ok m l o : holds_seq m l -> list_legal nodes l o ->
  exists m', run_call h m o = Ok ((seq_call l o).1, m') /\ holds_seq m' (seq_call l o).2.
Proof.
  intros W Hl. pose proof (nodup_seq _ _ W) as Nd. pose proof W as [L S N O].
  destruct o as [x|x|x| | | | |x|x|x|x|x|]; cbn [list_legal run_call seq_call fst snd] in *.
  - destruct Hl as [Hx Hn]. destruct (list_add_head_ok m h l x) as (m' & E & D' & Ho); [done|by apply N| |by intros ->|].
    { rewrite elem_of_cons. intros [-> |?]; tauto. }
    exists m'. rewrite E. split; [done|]. by apply (hs_add m l x).
  - destruct Hl as [Hx Hn]. destruct (list_add_tail_ok m h l x) as (m' & E & D' & Ho); [done|by apply N| |by intros ->|].
    { rewrite elem_of_cons. intros [-> |?]; tauto. }
    exists m'. rewrite E. split; [done|]. apply (hs_add m l x); try done. by rewrite Permutation_app_comm.
  - apply list_elem_of_split in Hl as (l1 & l2 & ->). destruct (hs_remove m l1 x l2 W) as (m' & E & W').
    exists m'. rewrite E. split; [done|]. by rewrite filter_ne_split.
  - unfold list_remove_head. rewrite (dll_first m h l L). cbn [res_bind]. destruct l as [|x l]; cbn [head from_option id tail].
    + rewrite Z.eqb_refl. by exists m.
    + destruct (dll_head_ne m h _ x L) as [Hne _]; [by left|]. rewrite (proj2 (Z.eqb_neq x h)) by done.
      destruct (hs_remove m [] x l W) as (m' & E & W'). exists m'. cbn [negb]. by rewrite E.
  - unfold list_remove_tail. rewrite (dll_last m h l L). cbn [res_bind]. destruct l as [|x l _] using rev_ind.
    + cbn. rewrite Z.eqb_refl. by exists m.
    + rewrite last_snoc, removelast_last. cbn [from_option id].
      destruct (dll_head_ne m h _ x L) as [Hne _]; [apply elem_of_app; right; by left|]. rewrite (proj2 (Z.eqb_neq x h)) by done.
      destruct (hs_remove m l x [] W) as (m' & E & W'). rewrite app_nil_r in W'. exists m'. cbn [negb]. by rewrite E.
  - exists m. unfold list_peek_head. rewrite (dll_first m h l L). cbn [res_bind]. by rewrite (look_ok m l) by (done || apply head_elem).
  - exists m. unfold list_peek_tail. rewrite (dll_last m h l L). cbn [res_bind]. by rewrite (look_ok m l) by (done || apply last_elem).
  - exists m. destruct (look_around m l x W Hl) as (E1 & E2 & H1 & H2). unfold list_next. rewrite E1. cbn [res_bind]. by rewrite (look_ok m l).
  - exists m. destruct (look_around m l x W Hl) as (E1 & E2 & H1 & H2). unfold list_prev. rewrite E2. cbn [res_bind]. by rewrite (look_ok m l).
  - exists m. destruct (look_around m l x W Hl) as (E1 & E2 & H1 & H2), (wrap_ne m l x W Hl) as (a & b & Ha & Hb & Na & Nb).
    unfold list_next_wrap. rewrite E1. cbn [res_bind]. destruct (after x l) as [y|] eqn:Ey; cbn [from_option id].
    + destruct (dll_head_ne m h l y L (H1 y eq_refl)) as [Hne _]. by rewrite (proj2 (Z.eqb_neq y h)).
    + rewrite Z.eqb_refl, (dll_first m h l L), Ha. cbn [negb res_bind from_option id]. by rewrite (proj2 (Z.eqb_neq a h)).
  - exists m. destruct (look_around m l x W Hl) as (E1 & E2 & H1 & H2), (wrap_ne m l x W Hl) as (a & b & Ha & Hb & Na & Nb).
    unfold list_prev_wrap. rewrite E2. cbn [res_bind]. destruct (before x l) as [y|] eqn:Ey; cbn [from_option id].
    + destruct (dll_head_ne m h l y L (H2 y eq_refl)) as [Hne _]. by rewrite (proj2 (Z.eqb_neq y h)).
    + rewrite Z.eqb_refl, (dll_last m h l L), Hb. cbn [negb res_bind from_option id]. by rewrite (proj2 (Z.eqb_neq b h)).
  - exists m. split; [|done]. case_bool_decide as Hx; [by rewrite (in_list_yes m l)|by rewrite O].
  - exists m. split; [|done]. unfold list_is_empty. rewrite (dll_first m h l L). cbn [res_bind]. destruct l as [|x l].
    + cbn. by rewrite Z.eqb_refl.
    + destruct (dll_head_ne m h _ x L) as [Hne _]; [by left|]. cbn. by rewrite (proj2 (Z.eqb_neq x h)).
Qed.

Lemma calls_ok os : forall m l, holds_seq m l -> lists_legal nodes l os ->
  exists m', run_calls h m os = Ok ((seq_calls l os).1, m') /\ dll m' h (seq_calls l os).2.
Proof.
  induction os as [|o os IH]; intros m l W Hl; [exists m; split; [done|apply W]|]. destruct Hl as [Ho Hl].
  destruct (call_ok m l o W Ho) as (m1 & E1 & W1). cbn [run_calls seq_calls]. rewrite E1. destruct (seq_call l o) as [v l1].
  cbn [fst snd res_bind] in *. destruct (IH m1 l1 W1 Hl) as (m2 & E2 & D2). exists m2. rewrite E2. by destruct (seq_calls l1 os).
Qed.
End Calls.

(** C33: the lists of list.h are sequences.  On an initialized head and nodes that are in no list, any sequence of the
    functions of list.h - adding at either end, deleting, taking from either end, looking at the ends and
    at the neighbours of a node, with and without wrapping around, asking whether a node is in a list or
    whether the list is empty - returns what the same operations on a sequence return, and leaves a list
    that is well linked in both directions. *)
Theorem list_is_sequence h nodes m m0 os : node_at m h -> h <> NIL -> h ∉ nodes -> NIL ∉ nodes ->
  (forall x, x ∈ nodes -> list_in_list m x = Ok false) -> list_initialize m h = Ok m0 -> lists_legal nodes [] os ->
  exists m', run_calls h m0 os = Ok ((seq_calls [] os).1, m') /\ dll m' h (seq_calls [] os).2.
Proof.
  intros Hn H0 Hh H1 Hc E Hl. destruct (list_initialize_ok m h Hn H0) as (m1 & E1 & D & Ho). rewrite E in E1. injection E1 as <-.
  apply (calls_ok h nodes Hh H1); [|done]. split; [done|by intros x ?%elem_of_nil| |].
  - intros x Hx. apply Ho. specialize (Hc x Hx). unfold list_in_list, get_prev, get_next in Hc. split.
    + by destruct (prev m !! x).
    + destruct (prev m !! x); [|done]. cbn in Hc. by destruct (next m !! x).
  - intros x Hx _. rewrite (in_list_outside m m0 [h]); [by apply Hc|done|]. rewrite list_elem_of_singleton. by intros ->.
Qed.

(** Three nodes and a head at addresses 10 to 40. *)
Definition demo_links : links :=
  let cleared := list_to_map ((fun x => (x, NIL)) <$> [10; 20; 30; 40]) in mkLinks cleared cleared.

Lemma list_is_sequence_witness :
  exists m0 m', list_initialize demo_links 10 = Ok m0 /\
    run_calls 10 m0 [AddTail 20; AddHead 30; AddTail 40; Next 30; Delete 20; PrevWrap 30; RemoveTail; InList 40; RemoveHead; IsEmpty] =
      Ok ([0; 0; 0; 20; 0; 40; 40; 0; 30; 1], m') /\ dll m' 10 [].
Proof.
  destruct (list_initialize demo_links 10) as [m0|] eqn:E; [|discriminate].
  destruct (list_is_sequence 10 [20; 30; 40] demo_links m0
    [AddTail 20; AddHead 30; AddTail 40; Next 30; Delete 20; PrevWrap 30; RemoveTail; InList 40; RemoveHead; IsEmpty]) as (m' & E' & D').
  - split; eexists; vm_compute; reflexivity.
  - discriminate.
  - set_solver.
  - set_solver.
  - intros x Hx. repeat (apply elem_of_cons in Hx as [-> |Hx]; [vm_compute; reflexivity|]). by apply elem_of_nil in Hx.
  - done.
  - vm_compute. set_solver.
  - exists m0, m'. done.
Defined.
