(* ===== verification/Bcache.v ===== *)
(** The block cache of the file systems (common/lib/bcache/bcache.c).

    A cache holds a fixed number of blocks of a device.  A block that holds nothing is on
    [free_list], one that holds a block of the device on [lru_list], in the order of use.  The
    objects of a cache that can be linked are the two heads and the blocks; they are named by the
    numbers [FREE], [LRU] and [BLK i], which stand for their addresses.  The buffer of a block is
    its address [ptr] and its bytes [content]. *)

From S2P Require Import Prelude TegraError BlockDev Gpt DList.

Record bcache_block := mkBlk {
  blocknum : Z; ref_count : Z; is_dirty : bool; ptr : Z; content : list Z
}.

Record bcache_stats := mkStats {
  hits : Z; depth : Z; misses : Z; reads : Z; writes : Z
}.

(** [self] and [array] are the addresses of the two objects [bcache_create] allocates. *)
Record bcache := mkCache {
  dev : Z; block_size : Z; count : Z; fs_offset : Z; stats : bcache_stats;
  chains : links; blocks : gmap Z bcache_block; self : Z; array : Z
}.

Definition FREE : Z := 1.
Definition LRU : Z := 2.
Definition BLK (i : Z) : Z := 3 + i.

Definition ERR_GENERIC : Z := -1.

(** Sizes of the structs on the target. *)
Definition sizeof_bcache : Z := 96.
Definition sizeof_bcache_block : Z := 40.

(** ** Fields *)

Definition set_chains (c : bcache) (m : links) : bcache :=
  mkCache (dev c) (block_size c) (count c) (fs_offset c) (stats c) m (blocks c) (self c) (array c).
Definition set_stats (c : bcache) (s : bcache_stats) : bcache :=
  mkCache (dev c) (block_size c) (count c) (fs_offset c) s (chains c) (blocks c) (self c) (array c).
Definition set_block (c : bcache) (p : Z) (b : bcache_block) : bcache :=
  mkCache (dev c) (block_size c) (count c) (fs_offset c) (stats c) (chains c) (<[p := b]> (blocks c))
    (self c) (array c).

Definition set_blocknum (b : bcache_block) (n : Z) : bcache_block :=
  mkBlk n (ref_count b) (is_dirty b) (ptr b) (content b).
Definition set_ref_count (b : bcache_block) (n : Z) : bcache_block :=
  mkBlk (blocknum b) n (is_dirty b) (ptr b) (content b).
Definition set_dirty (b : bcache_block) (v : bool) : bcache_block :=
  mkBlk (blocknum b) (ref_count b) v (ptr b) (content b).
Definition set_content (b : bcache_block) (l : list Z) : bcache_block :=
  mkBlk (blocknum b) (ref_count b) (is_dirty b) (ptr b) l.

Definition count_hit (s : bcache_stats) (d : Z) : bcache_stats :=
  mkStats (u32 (hits s + 1)) (u32 (depth s + d)) (misses s) (reads s) (writes s).
Definition count_miss (s : bcache_stats) : bcache_stats :=
  mkStats (hits s) (depth s) (u32 (misses s + 1)) (reads s) (writes s).
Definition count_read (s : bcache_stats) : bcache_stats :=
  mkStats (hits s) (depth s) (misses s) (u32 (reads s + 1)) (writes s).
Definition count_write (s : bcache_stats) : bcache_stats :=
  mkStats (hits s) (depth s) (misses s) (reads s) (u32 (writes s + 1)).

(** A [struct bcache_block] behind a pointer. *)
Definition deref (c : bcache) (p : Z) : res bcache_block :=
  match blocks c !! p with Some b => Ok b | None => Stuck BadPointer end.

(** Where block [n] is read from, and where it is written to. *)
Definition read_offset (c : bcache) (n : Z) : Z := u64 (fs_offset c + u64 (n * block_size c)).
Definition write_offset (c : bcache) (n : Z) : Z := u64 (n * block_size c).

(** ** Look-up *)

Definition find_step (n : Z) (st : bcache * Z) (block : Z) : res (option Z * (bcache * Z)) :=
  let '(c, d) := st in
  let* b := deref c block in
  let d := u32 (d + 1) in
  if blocknum b =? n then
    let* m := list_delete (chains c) block in
    let* m := list_add_tail m LRU block in
    let c := set_chains c m in
    Ok (Some block, (set_stats c (count_hit (stats c) d), d))
  else Ok (None, (c, d)).

(** "find a block if it's already present"; [NIL] if it is not. *)
Definition find_block (c : bcache) (n : Z) : res (Z * bcache) :=
  let* (found, st) := list_for_every (fun st => chains st.1) LRU (find_step n) (c, 0) in
  match found with
  | Some block => Ok (block, st.1)
  | None => Ok (NIL, set_stats st.1 (count_miss (stats st.1)))
  end.

Section Ops.
Context {D H : Type} {BD : BlockDriver D} {AL : Allocator H}.
Implicit Types w : world D H.
(** Whether [DEBUG_ASSERT] is compiled in. *)
Variable asserts : bool.

(** ** Life of a cache *)

(** The loop that sets up block [i] and the ones after it; [junk] is what fresh memory holds.
    The result says whether every buffer was granted. *)
Fixpoint create_blocks (junk : Z -> bcache_block) (n : nat) (i : Z) (c : bcache) w
    : res (bool * bcache * world D H) :=
  match n with
  | O => Ok (true, c, w)
  | S n =>
      let '(p, h) := heap_malloc (heap w) (block_size c) in
      let w := set_heap w h in
      let c := set_block c (BLK i) (mkBlk (blocknum (junk i)) 0 false p (content (junk i))) in
      if p =? NULL then Ok (false, c, w)
      else
        let* m := list_add_head (chains c) FREE (BLK i) in
        create_blocks junk n (i + 1) (set_chains c m) w
  end.

(** The fields of nodes in fresh memory; none is read before it is written. *)
Definition fresh_links (block_count : Z) : links :=
  let nodes := FREE :: LRU :: (BLK <$> seqZ 0 block_count) in
  mkLinks (list_to_map ((fun x => (x, NIL)) <$> nodes)) (list_to_map ((fun x => (x, NIL)) <$> nodes)).

(** [None] is the [NULL] the caller gets. *)
Definition bcache_create w (junk : Z -> bcache_block) (device bsize block_count offset : Z)
    : res (option bcache * world D H) :=
  let '(cache, h) := heap_malloc (heap w) sizeof_bcache in
  let w := set_heap w h in
  if cache =? NULL then Stuck BadPointer (* goto exit: free(cache->blocks) *)
  else
    let* m := list_initialize (fresh_links block_count) FREE in
    let* m := list_initialize m LRU in
    let '(array, h) := heap_malloc (heap w) (u64 (sizeof_bcache_block * block_count)) in
    let w := set_heap w h in
    let c := mkCache device bsize block_count offset (mkStats 0 0 0 0 0) m ∅ cache array in
    if array =? NULL then
      let* w := tegrabl_free w array in
      let* w := tegrabl_free w cache in
      Ok (None, w)
    else
      let* (ok, c, w) := create_blocks junk (Z.to_nat block_count) 0 c w in
      if ok then Ok (Some c, w)
      else
        let* w := tegrabl_free w array in
        let* w := tegrabl_free w cache in
        Ok (None, w).

Fixpoint destroy_blocks (n : nat) (i : Z) (c : bcache) w : res (world D H) :=
  match n with
  | O => Ok w
  | S n =>
      let* b := deref c (BLK i) in
      let* _ := tegrabl_assert asserts (ref_count b =? 0) in
      let* w := tegrabl_free w (ptr b) in
      destroy_blocks n (i + 1) c w
  end.

Definition bcache_destroy (c : bcache) w : res (world D H) :=
  let* w := destroy_blocks (Z.to_nat (count c)) 0 c w in
  tegrabl_free w (self c).

(** ** Allocation and write-back *)

Definition flush_block (c : bcache) w (block : Z) : res (Z * bcache * world D H) :=
  let* b := deref c block in
  let* (err, w) := tegrabl_blockdev_write w (dev c) (ptr b) (slice 0 (block_size c) (content b))
    (write_offset c (blocknum b)) (block_size c) in
  if negb (err =? TEGRABL_NO_ERROR) then Ok (ERR_GENERIC, c, w)
  else
    let c := set_block c block (set_dirty b false) in
    Ok (0, set_stats c (count_write (stats c)), w).

(** "walk the lru, looking for a free block" *)
Definition evict_step (st : bcache * world D H) (block : Z) : res (option Z * (bcache * world D H)) :=
  let '(c, w) := st in
  let* b := deref c block in
  if ref_count b =? 0 then
    let* (err, c, w) := if is_dirty b then flush_block c w block else Ok (0, c, w) in
    if negb (err =? 0) then Ok (Some NIL, (c, w))
    else
      let* m := list_delete (chains c) block in
      let* m := list_add_tail m LRU block in
      Ok (Some block, (set_chains c m, w))
  else Ok (None, (c, w)).

(** "allocate a new block"; [NIL] if there is none. *)
Definition alloc_block (c : bcache) w : res (Z * bcache * world D H) :=
  let* (block, m) := list_remove_head (chains c) FREE in
  let c := set_chains c m in
  if negb (block =? NIL) then
    let* b := deref c block in
    let c := set_block c block (set_ref_count b 0) in
    let* m := list_add_tail (chains c) LRU block in
    Ok (block, set_chains c m, w)
  else
    let* (found, st) := list_for_every (fun st => chains st.1) LRU evict_step (c, w) in
    Ok (default NIL found, st.1, st.2).

Definition find_or_fill_block (c : bcache) w (n : Z) : res (Z * bcache * world D H) :=
  let* (block, c) := find_block c n in
  let* (block, c, w) :=
    if block =? NIL then
      let* (block, c, w) := alloc_block c w in
      let* _ := tegrabl_assert asserts (negb (block =? NIL)) in
      let* b := deref c block in
      let c := set_block c block (set_blocknum b n) in
      let* (err, data, w) :=
        tegrabl_blockdev_read w (dev c) (ptr b) (read_offset c n) (block_size c) in
      let c := set_block c block (set_content (set_blocknum b n) (splice 0 data (content b))) in
      if negb (err =? TEGRABL_NO_ERROR) then
        (* free the block, return an error *)
        let* m := list_add_tail (chains c) FREE block in
        Ok (NIL, set_chains c m, w)
      else Ok (block, set_stats c (count_read (stats c)), w)
    else Ok (block, c, w) in
  if block =? NIL then Ok (NIL, c, w)
  else
    let* b := deref c block in
    let* _ := tegrabl_assert asserts (blocknum b =? n) in
    Ok (block, c, w).

(** ** Interface *)

(** The status and the bytes copied to the caller's buffer. *)
Definition bcache_read_block (c : bcache) w (n : Z) : res (Z * list Z * bcache * world D H) :=
  let* (block, c, w) := find_or_fill_block c w n in
  if block =? NIL then Ok (-1, [], c, w)
  else
    let* b := deref c block in
    Ok (0, slice 0 (block_size c) (content b), c, w).

(** [out] is the address of the caller's pointer, the second result what is stored there. *)
Definition bcache_get_block (c : bcache) w (out n : Z) : res (Z * option Z * bcache * world D H) :=
  let* _ := tegrabl_assert asserts (negb (out =? NULL)) in
  let* (block, c, w) := find_or_fill_block c w n in
  if block =? NIL then Ok (-1, None, c, w)
  else
    let* b := deref c block in
    let c := set_block c block (set_ref_count b (s32 (ref_count b + 1))) in
    if out =? NULL then Stuck BadPointer else Ok (0, Some (ptr b), c, w).

Definition bcache_put_block (c : bcache) (n : Z) : res (Z * bcache) :=
  let* (block, c) := find_block c n in
  let* _ := tegrabl_assert asserts (negb (block =? NIL)) in
  let* b := deref c block in
  let* _ := tegrabl_assert asserts (0 <? ref_count b) in
  Ok (0, set_block c block (set_ref_count b (s32 (ref_count b - 1)))).

Definition bcache_mark_block_dirty (c : bcache) (n : Z) : res (Z * bcache) :=
  let* (block, c) := find_block c n in
  if block =? NIL then Ok (-1, c)
  else
    let* b := deref c block in
    Ok (0, set_block c block (set_dirty b true)).

Definition bcache_zero_block (c : bcache) w (n : Z) : res (Z * bcache * world D H) :=
  let* (block, c) := find_block c n in
  let* (block, c, w) :=
    if block =? NIL then
      let* (block, c, w) := alloc_block c w in
      if block =? NIL then Ok (NIL, c, w)
      else
        let* b := deref c block in
        Ok (block, set_block c block (set_blocknum b n), w)
    else Ok (block, c, w) in
  if block =? NIL then Ok (-1, c, w)
  else
    let* b := deref c block in
    let zeros := replicate (Z.to_nat (block_size c)) 0 in
    Ok (0, set_block c block (set_dirty (set_content b (splice 0 zeros (content b))) true), w).

Definition flush_step (st : bcache * world D H) (block : Z) : res (option Z * (bcache * world D H)) :=
  let '(c, w) := st in
  let* b := deref c block in
  if is_dirty b then
    let* (err, c, w) := flush_block c w block in
    if negb (err =? 0) then Ok (Some err, (c, w)) else Ok (None, (c, w))
  else Ok (None, (c, w)).

Definition bcache_flush (c : bcache) w : res (Z * bcache * world D H) :=
  let* (failed, st) := list_for_every (fun st => chains st.1) LRU flush_step (c, w) in
  Ok (default 0 failed, st.1, st.2).
End Ops.
