(* ===== verification/BcacheFacts.v ===== *)
(** The block cache: its lists stay lists of its blocks, and what its blocks hold is what the
    device holds, or what has been put in the cache since.  The lemmas of this file follow one
    call of each operation. *)

From S2P Require Import Prelude TegraError BlockDev BlockDevFacts BlockDevProps Gpt DList Bcache.

(** ** The two lists *)

Definition no_block : bcache_block := mkBlk 0 0 false 0 [].
Definition blk (c : bcache) (p : Z) : bcache_block := default no_block (blocks c !! p).
Definition nums (c : bcache) (l : list Z) : list Z := (fun p => blocknum (blk c p)) <$> l.

(** [fl] and [ll] are the nodes of the free list and of the list in use. *)
Record shape (c : bcache) (fl ll : list Z) : Prop := {
  sh_free : dll (chains c) FREE fl;
  sh_lru : dll (chains c) LRU ll;
  sh_all : fl ++ ll ≡ₚ BLK <$> seqZ 0 (count c);
  sh_blocks : forall p, p ∈ fl ++ ll -> is_Some (blocks c !! p)
}.

Lemma shape_ext c c' fl ll : shape c fl ll -> chains c' = chains c -> count c' = count c ->
  (forall p, is_Some (blocks c !! p) -> is_Some (blocks c' !! p)) -> shape c' fl ll.
Proof. intros [F L A B] E1 E2 E3. split; rewrite ?E1, ?E2; auto. Qed.

Lemma shape_stats c s fl ll : shape c fl ll -> shape (set_stats c s) fl ll.
Proof. intros S. by apply (shape_ext c). Qed.

Lemma shape_block c p b fl ll : shape c fl ll -> shape (set_block c p b) fl ll.
Proof. intros S. apply (shape_ext c); [done..|]. intros q Hq. apply lookup_insert_is_Some. destruct (decide (p = q)); auto. Qed.

Lemma deref_blk c fl ll p : shape c fl ll -> p ∈ fl ++ ll -> deref c p = Ok (blk c p).
Proof. intros S Hp. unfold deref, blk. by destruct (sh_blocks _ _ _ S p Hp) as [b ->]. Qed.

Lemma blk_set c p b q : blk (set_block c p b) q = if decide (p = q) then b else blk c q.
Proof. unfold blk. cbn. case_decide as E; [subst; by rewrite lookup_insert_eq|by rewrite lookup_insert_ne]. Qed.

Lemma blk_same c p b : blk (set_block c p b) p = b.
Proof. rewrite blk_set. by destruct (decide (p = p)). Qed.

Lemma blk_other c p b q : p <> q -> blk (set_block c p b) q = blk c q.
Proof. intros. rewrite blk_set. by destruct (decide (p = q)). Qed.

Lemma shape_nodup c fl ll : shape c fl ll -> NoDup (fl ++ ll).
Proof. intros S. rewrite (sh_all _ _ _ S). apply NoDup_fmap_2; [intros x y; unfold BLK; lia|apply NoDup_seqZ]. Qed.

Lemma shape_node c fl ll p : shape c fl ll -> p ∈ fl ++ ll -> p <> FREE /\ p <> LRU /\ p <> NIL /\ node_at (chains c) p.
Proof.
  intros S Hp. assert (Hb : p ∈ BLK <$> seqZ 0 (count c)) by (by rewrite <- (sh_all _ _ _ S)).
  apply list_elem_of_fmap in Hb as (i & -> & Hi%elem_of_seqZ). unfold BLK, FREE, LRU, NIL in *.
  do 3 (split; [lia|]). apply elem_of_app in Hp as [Hp|Hp].
  - apply (dll_nodes _ _ _ _ (sh_free _ _ _ S)). by right.
  - apply (dll_nodes _ _ _ _ (sh_lru _ _ _ S)). by right.
Qed.

(** The lists share nothing. *)
Lemma shape_apart c fl ll x : shape c fl ll -> x ∈ FREE :: fl -> x ∉ LRU :: ll.
Proof.
  intros S. pose proof (shape_nodup _ _ _ S) as (_ & Nd & _)%NoDup_app. rewrite !elem_of_cons.
  intros [-> |Hx] [E|Hy]; [done| | |by apply (Nd x)].
  - destruct (shape_node c fl ll FREE S) as (? & _); [|done]. apply elem_of_app. by right.
  - subst x. destruct (shape_node c fl ll LRU S) as (_ & ? & _); [|done]. apply elem_of_app. by left.
Qed.

(** A used block becomes the most recently used one. *)
Lemma move_to_tail c fl l1 p l2 : shape c fl (l1 ++ p :: l2) ->
  exists m1 m2, list_delete (chains c) p = Ok m1 /\ list_add_tail m1 LRU p = Ok m2 /\
    shape (set_chains c m2) fl (l1 ++ l2 ++ [p]).
Proof.
  intros S. assert (Hp : p ∈ fl ++ l1 ++ p :: l2) by (rewrite !elem_of_app, elem_of_cons; auto).
  destruct (shape_node _ _ _ _ S Hp) as (Hf & Hl & H0 & Hn).
  destruct (list_delete_ok _ _ _ _ _ (sh_lru _ _ _ S)) as (m1 & E1 & D1 & O1 & _).
  pose proof (shape_nodup _ _ _ S) as (_ & _ & N)%NoDup_app. rewrite <- Permutation_middle in N. apply NoDup_cons in N as [Np N].
  destruct (list_add_tail_ok m1 LRU (l1 ++ l2) p) as (m2 & E2 & D2 & O2); [done|by apply O1| |done|].
  { rewrite elem_of_cons. tauto. }
  assert (P : l1 ++ l2 ++ [p] ≡ₚ l1 ++ p :: l2) by (by rewrite (Permutation_app_comm l2)).
  exists m1, m2. split; [done|]. split; [done|]. split; cbn.
  - apply (dll_frame m1 _ _ _ (p :: LRU :: l1 ++ l2)); [|done|].
    + apply (dll_frame _ _ _ _ _ (sh_free _ _ _ S) O1). intros x Hx. by apply (shape_apart c fl).
    + intros x Hx Hy. apply (shape_apart c fl _ x S Hx). set_solver.
  - by rewrite app_assoc.
  - rewrite P. apply S.
  - intros q Hq. apply (sh_blocks _ _ _ S). by rewrite <- P.
Qed.

(** A free block becomes a used one. *)
Lemma take_free c p fl ll b : shape c (p :: fl) ll ->
  exists m1 m2, list_remove_head (chains c) FREE = Ok (p, m1) /\ list_add_tail m1 LRU p = Ok m2 /\
    shape (set_chains (set_block c p b) m2) fl (ll ++ [p]).
Proof.
  intros S. destruct (shape_node c _ _ p S) as (Hf & Hl & H0 & Hn); [by left|].
  destruct (list_remove_head_ok _ _ _ (sh_free _ _ _ S)) as (m1 & E1 & D1 & O1).
  pose proof (shape_nodup _ _ _ S) as [Np N]%NoDup_cons. rewrite elem_of_app in Np.
  assert (L1 : dll m1 LRU ll).
  { apply (dll_frame _ _ _ _ _ (sh_lru _ _ _ S) O1). intros x Hx Hy. by apply (shape_apart c (p :: fl) ll x). }
  destruct (list_add_tail_ok m1 LRU ll p) as (m2 & E2 & D2 & O2); [done|by apply O1|rewrite elem_of_cons; tauto|done|].
  assert (P : fl ++ ll ++ [p] ≡ₚ (p :: fl) ++ ll) by (rewrite (Permutation_app_comm ll [p]); symmetry; apply (Permutation_middle fl ll p)).
  exists m1, m2. split; [done|]. split; [done|]. apply (shape_block _ p b) in S. split; cbn.
  - apply (dll_frame m1 _ _ _ (p :: LRU :: ll)); [done|done|].
    intros x Hx. pose proof (shape_apart _ _ _ x S). rewrite elem_of_cons in Hx. set_solver.
  - done.
  - rewrite P. apply S.
  - intros q Hq. apply (sh_blocks _ _ _ S). by rewrite <- P.
Qed.

(** ** Look-up *)

Lemma find_hit c fl l1 p l2 n : shape c fl (l1 ++ p :: l2) -> blocknum (blk c p) = n -> n ∉ nums c l1 ->
  exists m d, find_block c n = Ok (p, set_stats (set_chains c m) (count_hit (stats c) d)) /\
    shape (set_chains c m) fl (l1 ++ l2 ++ [p]).
Proof.
  intros S Hn Hl. destruct (move_to_tail c fl l1 p l2 S) as (m1 & m2 & E1 & E2 & S2).
  assert (Hd : forall q, q ∈ l1 ++ p :: l2 -> deref c q = Ok (blk c q)).
  { intros q Hq. apply (deref_blk c fl _ q S). apply elem_of_app. by right. }
  unfold find_block.
  destruct (list_for_every_until (fun st => chains st.1) LRU (find_step n) (chains c) (fun _ st => st.1 = c))
    with (l1 := l1) (x := p) (l2 := l2) (s := (c, 0)) as (s & Hs & E); [by intros k s ->|apply S|done| |].
  { intros k y rest [c' d] Hk Hc. assert (Hy : y ∈ l1) by (rewrite Hk; apply elem_of_app; right; by left). cbn in Hc. subst c'. cbn [find_step]. rewrite Hd by (apply elem_of_app; by left). cbn [res_bind].
    rewrite (proj2 (Z.eqb_neq _ _)); [by eexists|]. intros Ey. apply Hl, list_elem_of_fmap. by exists y. }
  destruct s as [c' d]. cbn in Hs. subst c'. exists m2, (u32 (d + 1)). split; [|done].
  rewrite (E p (set_stats (set_chains c m2) (count_hit (stats c) (u32 (d + 1))), u32 (d + 1))); [done|]. cbn [find_step].
  rewrite Hd by (apply elem_of_app; right; by left). cbn [res_bind]. rewrite Hn, Z.eqb_refl, E1. cbn [res_bind].
  rewrite E2. cbn [res_bind]. reflexivity.
Qed.

Lemma find_miss c fl ll n : shape c fl ll -> n ∉ nums c ll ->
  find_block c n = Ok (NIL, set_stats c (count_miss (stats c))).
Proof.
  intros S Hl. unfold find_block.
  destruct (list_for_every_all (fun st => chains st.1) LRU (find_step n) (chains c) (fun _ st => st.1 = c))
    with (l := ll) (s := (c, 0)) as (s & Hs & E); [by intros k s ->|apply S|done| |].
  { intros k y rest [c' d] Hk Hc. assert (Hy : y ∈ ll) by (rewrite Hk; apply elem_of_app; right; by left). cbn in Hc. subst c'. cbn [find_step]. rewrite (deref_blk c fl ll) by (done || apply elem_of_app; by right).
    cbn [res_bind].
    rewrite (proj2 (Z.eqb_neq _ _)); [by eexists|]. intros Ey. apply Hl, list_elem_of_fmap. by exists y. }
  rewrite E. cbn [res_bind]. by rewrite Hs.
Qed.

(** ** What the blocks hold *)

(** A cache of blocks of [bs] bytes in front of the [N] blocks that start at [off] of a device of
    [sz] bytes. *)
Record layout := mkLayout { la_dev : Z; la_bs : Z; la_count : Z; la_off : Z; la_blocks : Z; la_size : Z; la_lg : Z }.

Record layout_ok (g : layout) : Prop := {
  lo_dev : 0 < la_dev g;
  lo_bs : 0 < la_bs g;
  lo_off : 0 <= la_off g;
  lo_blocks : 0 <= la_blocks g <= 2 ^ 32;
  lo_fits : la_off g + la_blocks g * la_bs g <= la_size g
}.

(** The cache as its users see it: the content of each block, how often each is pinned, and the
    pointers that were given out. *)
Record view := mkView { v_data : Z -> list Z; v_pins : gmap Z Z; v_held : gmap Z Z }.

Definition upd (f : Z -> list Z) (n : Z) (v : list Z) : Z -> list Z := fun k => if k =? n then v else f k.

Section Data.
Context (g : layout).
Implicit Types (V : view) (bytes : list Z).

(** Block [n] on the device. *)
Definition stored bytes (n : Z) : list Z := slice (la_off g + n * la_bs g) (la_bs g) bytes.

Definition in_range (n : Z) : Prop := 0 <= n < la_blocks g.

Record used_ok V bytes (b : bcache_block) : Prop := {
  us_range : in_range (blocknum b);
  us_ptr : 0 < ptr b;
  us_data : content b = v_data V (blocknum b);
  us_len : zlen (content b) = la_bs g;
  us_sync : if is_dirty b then la_off g = 0 else content b = stored bytes (blocknum b);
  us_refs : ref_count b = default 0 (v_pins V !! blocknum b);
  us_held : is_Some (v_pins V !! blocknum b) -> v_held V !! blocknum b = Some (ptr b)
}.

Record spare_ok (b : bcache_block) : Prop := {
  sp_ptr : 0 < ptr b;
  sp_len : zlen (content b) = la_bs g;
  sp_clean : is_dirty b = false
}.

Record data (c : bcache) (fl ll : list Z) V bytes : Prop := {
  da_nums : NoDup (nums c ll);
  da_used : forall p, p ∈ ll -> used_ok V bytes (blk c p);
  da_spare : forall p, p ∈ fl -> spare_ok (blk c p);
  da_miss : forall n, in_range n -> n ∉ nums c ll -> v_data V n = stored bytes n;
  da_pins : forall n k, v_pins V !! n = Some k -> n ∈ nums c ll /\ 0 < k < 2 ^ 31;
  da_ptrs : NoDup ((fun p => ptr (blk c p)) <$> fl ++ ll)
}.

Lemma elem_of_nums c l n : n ∈ nums c l <-> exists p, p ∈ l /\ blocknum (blk c p) = n.
Proof. unfold nums. rewrite list_elem_of_fmap. naive_solver. Qed.

#[export] Instance nums_perm c : Proper (Permutation ==> Permutation) (nums c).
Proof. intros l l' P. unfold nums. by rewrite P. Qed.

(** Only the sets of blocks matter. *)
Lemma data_perm c fl ll fl' ll' V bytes : fl ≡ₚ fl' -> ll ≡ₚ ll' -> data c fl ll V bytes -> data c fl' ll' V bytes.
Proof.
  intros P1 P2 [A B C E F G]. split.
  - by rewrite <- P2.
  - intros p. rewrite <- P2. apply B.
  - intros p. rewrite <- P1. apply C.
  - intros n. rewrite <- P2. apply E.
  - intros n k. rewrite <- P2. apply F.
  - by rewrite <- P1, <- P2.
Qed.

Lemma data_ext c c' fl ll V bytes : blocks c' = blocks c -> data c fl ll V bytes -> data c' fl ll V bytes.
Proof. intros E [A B C F G I]. unfold nums, blk in *. split; unfold nums, blk; by rewrite ?E. Qed.

(** A clean block that nobody holds can be given up. *)
Lemma data_evict c fl p ll V bytes : data c fl (p :: ll) V bytes -> is_dirty (blk c p) = false ->
  ref_count (blk c p) = 0 -> data c (p :: fl) ll V bytes.
Proof.
  intros [A B C E F G] Hd Hr. cbn in A. apply NoDup_cons in A as [Ap A].
  destruct (B p) as [U1 U2 U3 U4 U5 U6 U7]; [by left|]. rewrite Hd in U5. split.
  - done.
  - intros q Hq. apply B. by right.
  - intros q [-> |Hq]%elem_of_cons; [by split|by apply C].
  - intros n Hn Hl. destruct (decide (n = blocknum (blk c p))) as [-> |Hne]; [by rewrite <- U3|].
    apply E; [done|]. cbn. rewrite elem_of_cons. tauto.
  - intros n k Hk. destruct (F n k Hk) as [Hin Hb]. split; [|done]. cbn in Hin. apply elem_of_cons in Hin as [-> |Hin]; [|done].
    rewrite Hr, Hk in U6. cbn in U6. lia.
  - cbn [app]. by rewrite Permutation_middle.
Qed.

(** A spare block takes a block [n] that is not in the cache, with the content it has or another one. *)
Lemma data_fill c fl p ll V bytes b f : data c (p :: fl) ll V bytes -> p ∉ fl ++ ll -> blocknum b ∉ nums c ll ->
  (forall n, n <> blocknum b -> f n = v_data V n) -> used_ok (mkView f (v_pins V) (v_held V)) bytes b ->
  ptr b = ptr (blk c p) -> data (set_block c p b) fl (p :: ll) (mkView f (v_pins V) (v_held V)) bytes.
Proof.
  intros [A B C E F G] Hp Hn Hf U Hq. rewrite elem_of_app in Hp.
  assert (Hb : forall q, q ∈ fl ++ ll -> blk (set_block c p b) q = blk c q).
  { intros q Hin. apply blk_other. intros ->. rewrite elem_of_app in Hin. tauto. }
  assert (Hl : nums (set_block c p b) ll = nums c ll).
  { apply list_fmap_ext. intros i q Hi%list_elem_of_lookup_2. rewrite Hb by (apply elem_of_app; by right). done. }
  split.
  - cbn. rewrite blk_same, NoDup_cons. change ((fun p0 => blocknum (blk (set_block c p b) p0)) <$> ll) with (nums (set_block c p b) ll).
    by rewrite Hl.
  - intros q [-> |Hin]%elem_of_cons; [by rewrite blk_same|]. rewrite Hb by (apply elem_of_app; by right).
    destruct (B q Hin) as [U1 U2 U3 U4 U5 U6 U7]. split; cbn; try done. rewrite Hf; [done|].
    intros E'. apply Hn, elem_of_nums. eauto.
  - intros q Hin. rewrite Hb by (apply elem_of_app; by left). apply C. by right.
  - intros n Hr Hl'. cbn in Hl' |- *. rewrite elem_of_cons, blk_same in Hl'.
    change ((fun p0 => blocknum (blk (set_block c p b) p0)) <$> ll) with (nums (set_block c p b) ll) in Hl'. rewrite Hl in Hl'.
    rewrite Hf by tauto. apply E; tauto.
  - intros n k Hk. destruct (F n k Hk) as [Hin Hb']. split; [|done]. cbn. right. by rewrite <- Hl in Hin.
  - rewrite <- Permutation_middle. cbn. rewrite blk_same, Hq. cbn in G.
    rewrite (list_fmap_ext _ (fun p => ptr (blk c p)) (fl ++ ll)); [done|].
    intros i q Hi%list_elem_of_lookup_2. by rewrite Hb.
Qed.

(** A used block changes, and nothing else. *)
Lemma data_change c fl p ll V bytes b V' bytes' : data c fl (p :: ll) V bytes -> p ∉ fl ++ ll ->
  blocknum b = blocknum (blk c p) -> ptr b = ptr (blk c p) -> used_ok V' bytes' b ->
  (forall n, n <> blocknum b -> in_range n ->
    v_data V' n = v_data V n /\ stored bytes' n = stored bytes n /\ v_pins V' !! n = v_pins V !! n /\
    v_held V' !! n = v_held V !! n) ->
  (forall n k, v_pins V' !! n = Some k -> n = blocknum b /\ 0 < k < 2 ^ 31 \/ v_pins V !! n = Some k) ->
  data (set_block c p b) fl (p :: ll) V' bytes'.
Proof.
  intros [A B C E F G] Hp En Eq U Ho Hk. rewrite elem_of_app in Hp.
  assert (Hb : forall q, q ∈ fl ++ ll -> blk (set_block c p b) q = blk c q).
  { intros q Hin. apply blk_other. intros ->. rewrite elem_of_app in Hin. tauto. }
  assert (Hl : nums (set_block c p b) (p :: ll) = nums c (p :: ll)).
  { unfold nums. cbn. rewrite blk_same, En. f_equal.
    apply list_fmap_ext. intros i q Hi%list_elem_of_lookup_2. rewrite Hb by (apply elem_of_app; by right). done. }
  split.
  - by rewrite Hl.
  - intros q [-> |Hin]%elem_of_cons; [by rewrite blk_same|]. rewrite Hb by (apply elem_of_app; by right).
    destruct (B q) as [U1 U2 U3 U4 U5 U6 U7]; [by right|].
    assert (Hne : blocknum (blk c q) <> blocknum b).
    { rewrite En. intros E'. apply NoDup_cons in A as [A _]. apply A, elem_of_nums. eauto. }
    destruct (Ho _ Hne U1) as (V1 & V2 & V3 & V4). split; rewrite ?V1, ?V2, ?V3, ?V4; done.
  - intros q Hin. rewrite Hb by (apply elem_of_app; by left). by apply C.
  - intros n Hr. rewrite Hl. intros Hin. destruct (Ho n) as (-> & -> & _); [|done|by apply E].
    intros ->. apply Hin. rewrite En. by left.
  - intros n k Hn. rewrite Hl. destruct (Hk n k Hn) as [[-> Hb']|Hn']; [|by apply (F n k)].
    split; [|done]. rewrite En. by left.
  - rewrite <- Permutation_middle in G |- *. cbn in G |- *. rewrite blk_same, Eq.
    rewrite (list_fmap_ext _ (fun p => ptr (blk c p)) (fl ++ ll)); [done|].
    intros i q Hi%list_elem_of_lookup_2. by rewrite Hb.
Qed.

Lemma data_split c fl l1 p l2 V bytes : data c fl (l1 ++ p :: l2) V bytes <-> data c fl (p :: l1 ++ l2) V bytes.
Proof. split; apply data_perm; try done; [symmetry|]; apply Permutation_middle. Qed.

(** ** Blocks on the device *)

Hypothesis Hg : layout_ok g.

Lemma cached_bounds n : in_range n ->
  0 <= n * la_bs g /\ la_off g + n * la_bs g + la_bs g <= la_size g /\ 0 <= n < 2 ^ 32.
Proof. destruct Hg as [H1 H2 H3 H4 H5]. unfold in_range. intros Hn. split; [nia|]. split; [nia|lia]. Qed.

Lemma stored_len bytes n : zlen bytes = la_size g -> in_range n -> zlen (stored bytes n) = la_bs g.
Proof.
  intros Hz Hn. destruct (cached_bounds n Hn) as (H1 & H2 & _). destruct Hg. apply slice_length; lia.
Qed.

Lemma stored_write_same bytes n l : zlen bytes = la_size g -> in_range n -> zlen l = la_bs g -> la_off g = 0 ->
  stored (splice (n * la_bs g) l bytes) n = l.
Proof.
  intros Hz Hn Hl Ho. destruct (cached_bounds n Hn) as (H1 & H2 & _). unfold stored. rewrite Ho, Z.add_0_l, <- Hl at 1.
  rewrite <- Hl. apply slice_splice_same; lia.
Qed.

Lemma stored_write_other bytes n k l : zlen bytes = la_size g -> in_range n -> in_range k -> n <> k ->
  zlen l = la_bs g -> la_off g = 0 -> stored (splice (k * la_bs g) l bytes) n = stored bytes n.
Proof.
  intros Hz Hn Hk Hne Hl Ho. destruct (cached_bounds n Hn) as (H1 & H2 & _). destruct (cached_bounds k Hk) as (H3 & H4 & _).
  destruct Hg. unfold stored. rewrite Ho, Z.add_0_l. apply slice_splice_other; try lia.
  assert (n + 1 <= k \/ k + 1 <= n) as [?|?] by lia; [left|right]; nia.
Qed.
End Data.
