(* ===== verification/BcacheSteps.v ===== *)
(** The block cache: what each operation does, on a device that works.  [whole] is the invariant;
    the order of use is a list of block numbers, changed by the reference definitions [make_room]
    and [touch]. *)

From S2P Require Import Prelude TegraError BlockDev BlockDevFacts BlockDevProps Gpt DList Bcache BcacheFacts.

(** ** The order of use *)

(** The least recently used block that is not pinned is given up. *)
Fixpoint evict (pins : gmap Z Z) (l : list Z) : list Z :=
  match l with
  | [] => []
  | n :: l =>
      match pins !! n with
      | Some _ => n :: evict pins l
      | None => l
      end
  end.

Definition make_room (cnt : Z) (pins : gmap Z Z) (l : list Z) : list Z :=
  if zlen l <? cnt then l else evict pins l.

(** Block [n] is used. *)
Definition touch (cnt : Z) (pins : gmap Z Z) (n : Z) (l : list Z) : list Z :=
  (if decide (n ∈ l) then filter (fun k => k <> n) l else make_room cnt pins l) ++ [n].

Lemma first_or_all {A} (P : A -> Prop) `{forall x, Decision (P x)} (l : list A) :
  (exists l1 x l2, l = l1 ++ x :: l2 /\ P x /\ forall y, y ∈ l1 -> ~ P y) \/ (forall y, y ∈ l -> ~ P y).
Proof.
  induction l as [|a l IH]; [right; by intros y ?%elem_of_nil|]. destruct (decide (P a)) as [Ha|Ha].
  - left. exists [], a, l. split; [done|]. split; [done|]. by intros y ?%elem_of_nil.
  - destruct IH as [(l1 & x & l2 & -> & Hx & Hl)|Hl].
    + left. exists (a :: l1), x, l2. split; [done|]. split; [done|]. intros y [-> |Hy]%elem_of_cons; auto.
    + right. intros y [-> |Hy]%elem_of_cons; auto.
Qed.

Lemma evict_app pins l1 n l2 : (forall k, k ∈ l1 -> is_Some (pins !! k)) -> pins !! n = None ->
  evict pins (l1 ++ n :: l2) = l1 ++ l2.
Proof.
  intros H1 H2. induction l1 as [|k l1 IH]; cbn; [by rewrite H2|].
  destruct (H1 k) as [v ->]; [by left|]. rewrite IH; [done|]. intros j Hj. apply H1. by right.
Qed.

Section Steps.
Context {D H : Type} {BD : BlockDriver D} {RD : ReliableDriver D} {AL : Allocator H} {AW : AllocatorLaws H}.
Context (g : layout) (Hg : layout_ok g).
Implicit Types (w : world D H) (V : view) (bytes : list Z).

(** What one transfer can take from the heap. *)
Definition xfer_cost : Z := alloc_cost 8 (2 ^ la_lg g) + alloc_cost 8 (la_bs g).

Lemma xfer_cost_nonneg : 0 <= xfer_cost.
Proof. destruct Hg. unfold xfer_cost, alloc_cost. pose proof (Z.pow_nonneg 2 (la_lg g)). lia. Qed.

(** The device holds [bytes], and the heap has room for [r] bytes. *)
Record medium w bytes (r : Z) : Prop := {
  me_dev : exists d, devs w !! la_dev g = Some d /\ geom d /\ media d (bd_priv d) /\ bd_size d = la_size g /\
    bd_block_size_log2 d = la_lg g /\ drv_bytes (bd_priv d) = bytes;
  me_heap : heap_room (heap w) r
}.

Lemma medium_len w bytes r : medium w bytes r -> zlen bytes = la_size g /\ la_size g < 2 ^ 63.
Proof.
  intros [(d & _ & G & M & <- & _ & <-) _]. split; [apply M|]. pose proof (geom_size_bound _ G). lia.
Qed.

Lemma medium_room w bytes r r' : medium w bytes r -> r' <= r -> medium w bytes r'.
Proof. intros [A B] Hr. split; [done|]. by eapply heap_room_weaken. Qed.

Lemma medium_ready w bytes r buf off : medium w bytes r -> 0 < buf -> 0 <= off -> off + la_bs g <= la_size g ->
  xfer_cost <= r -> exists d, ready w (la_dev g) d buf off (la_bs g) r /\ bd_size d = la_size g /\
    bd_block_size_log2 d = la_lg g /\ drv_bytes (bd_priv d) = bytes.
Proof.
  intros [(d & E & G & M & Es & El & Eb) Hh] Hb Ho Hl Hc. destruct Hg. exists d.
  split; [|done]. split; try done; [by rewrite Es|]. unfold xfer_cost in Hc. by rewrite El.
Qed.

Lemma medium_put w bytes r d x h bytes' : medium w bytes r -> devs w !! la_dev g = Some d -> media d x ->
  drv_bytes x = bytes' -> heap_room h (r - xfer_cost) -> medium (put w (la_dev g) d x h) bytes' (r - xfer_cost).
Proof.
  intros [(d0 & E & G & M & Es & El & Eb) Hh] Hd Hm Hx Hr. rewrite Hd in E. injection E as <-. split; [|done].
  exists (set_priv d x). split; [apply lookup_insert_eq|]. split; [by destruct G|]. done.
Qed.

Lemma medium_read w bytes r buf off : medium w bytes r -> 0 < buf -> 0 <= off -> off + la_bs g <= la_size g ->
  xfer_cost <= r -> exists w', tegrabl_blockdev_read w (la_dev g) buf off (la_bs g) =
    Ok (TEGRABL_NO_ERROR, slice off (la_bs g) bytes, w') /\ medium w' bytes (r - xfer_cost).
Proof.
  intros M Hb Ho Hl Hc. destruct (medium_ready w bytes r buf off M Hb Ho Hl Hc) as (d & R & Es & El & Eb).
  destruct (blockdev_read_put _ _ _ _ _ _ _ R) as (x & h & E & Hm & Hx & Hr). rewrite Eb in E, Hx.
  eexists. split; [exact E|]. apply (medium_put w bytes); [done|apply R|done|done|].
  unfold xfer_cost. rewrite <- El. by rewrite Z.sub_add_distr.
Qed.

Lemma medium_write w bytes r buf l off : medium w bytes r -> 0 < buf -> 0 <= off -> off + la_bs g <= la_size g ->
  xfer_cost <= r -> zlen l = la_bs g -> exists w', tegrabl_blockdev_write w (la_dev g) buf l off (la_bs g) =
    Ok (TEGRABL_NO_ERROR, w') /\ medium w' (splice off l bytes) (r - xfer_cost).
Proof.
  intros M Hb Ho Hl Hc Hz. destruct (medium_ready w bytes r buf off M Hb Ho Hl Hc) as (d & R & Es & El & Eb).
  destruct (blockdev_write_put _ _ _ _ _ _ _ _ R Hz) as (x & h & E & Hm & Hx & Hr). rewrite Eb in Hx.
  eexists. split; [exact E|]. apply (medium_put w bytes); [done|apply R|done|done|].
  unfold xfer_cost. rewrite <- El. by rewrite Z.sub_add_distr.
Qed.

(** ** The invariant *)

Definition fixed (c : bcache) : Prop :=
  dev c = la_dev g /\ block_size c = la_bs g /\ count c = la_count g /\ fs_offset c = la_off g.

Record whole (c : bcache) w (fl ll : list Z) V bytes (r : Z) : Prop := {
  wh_fixed : fixed c;
  wh_shape : shape c fl ll;
  wh_data : data g c fl ll V bytes;
  wh_medium : medium w bytes r
}.

Lemma whole_stats c w s fl ll V bytes r : whole c w fl ll V bytes r -> whole (set_stats c s) w fl ll V bytes r.
Proof. intros [F S Da M]. split; [done|by apply shape_stats|by apply (data_ext g c)|done]. Qed.

Lemma whole_room c w fl ll V bytes r r' : whole c w fl ll V bytes r -> r' <= r -> whole c w fl ll V bytes r'.
Proof. intros [F S Da M] Hr. split; [done..|]. by eapply medium_room. Qed.

(** ** Write-back *)

Lemma whole_apart c w fl l1 p l2 V bytes r : whole c w fl (l1 ++ p :: l2) V bytes r -> p ∉ fl ++ l1 ++ l2.
Proof.
  intros W. pose proof (shape_nodup _ _ _ (wh_shape _ _ _ _ _ _ _ W)) as N.
  rewrite app_assoc, <- Permutation_middle, <- app_assoc in N. by apply NoDup_cons in N as [N _].
Qed.

Lemma whole_range c w fl ll V bytes r n : whole c w fl ll V bytes r -> in_range g n ->
  u64 (n * block_size c) = n * la_bs g /\ read_offset c n = la_off g + n * la_bs g /\ write_offset c n = n * la_bs g.
Proof.
  intros [(Ed & Eb & Ec & Eo) S Da M] Hn. destruct (medium_len _ _ _ M) as [_ Hs]. destruct Hg.
  destruct (cached_bounds g Hg n Hn) as (H1 & H2 & _).
  unfold read_offset, write_offset. rewrite Eb, Eo. rewrite (u64_small (n * la_bs g)) by lia.
  by rewrite u64_small by lia.
Qed.

Lemma flush_block_ok c w fl l1 p l2 V bytes r : whole c w fl (l1 ++ p :: l2) V bytes r ->
  is_dirty (blk c p) = true -> xfer_cost <= r ->
  exists w' bytes', let c' := set_block c p (set_dirty (blk c p) false) in
    flush_block c w p = Ok (0, set_stats c' (count_write (stats c)), w') /\
    whole (set_stats c' (count_write (stats c))) w' fl (l1 ++ p :: l2) V bytes' (r - xfer_cost).
Proof.
  intros W Hd Hr. pose proof W as [(Ed & Eb & Ec & Eo) S Da M].
  assert (Hin : p ∈ l1 ++ p :: l2) by (apply elem_of_app; right; by left).
  destruct (da_used _ _ _ _ _ _ Da p Hin) as [U1 U2 U3 U4 U5 U6 U7]. rewrite Hd in U5.
  destruct (whole_range _ _ _ _ _ _ _ _ W U1) as (_ & _ & Ew).
  destruct (cached_bounds g Hg _ U1) as (B1 & B2 & _). destruct (medium_len _ _ _ M) as [Hz _].
  destruct (medium_write w bytes r (ptr (blk c p)) (content (blk c p)) (blocknum (blk c p) * la_bs g))
    as (w' & E & M'); [done|done|lia|lia|done|done|].
  exists w', (splice (blocknum (blk c p) * la_bs g) (content (blk c p)) bytes). cbn zeta. split.
  - unfold flush_block. rewrite (deref_blk c fl _ p S) by (apply elem_of_app; by right). cbn [res_bind].
    rewrite Ew, Ed, Eb. rewrite <- U4 at 1. rewrite slice_all, E. done.
  - apply whole_stats. split; [done|by apply shape_block| |done].
    apply data_split in Da. apply data_split.
    apply (data_change g c fl p (l1 ++ l2) V bytes); [done|by eapply whole_apart|done|done| | |].
    + split; cbn; try done. by rewrite (stored_write_same g Hg).
    + intros n Hn Hrg. cbn in Hn. by rewrite (stored_write_other g Hg).
    + auto.
Qed.

(** ** A block to fill *)

(** Block [p] is on the list in use, last, and holds nothing: what [alloc_block] returns. *)
Record vacant (c : bcache) w (fl ll : list Z) (p : Z) V bytes (r : Z) : Prop := {
  va_fixed : fixed c;
  va_shape : shape c fl (ll ++ [p]);
  va_data : data g c (p :: fl) ll V bytes;
  va_refs : ref_count (blk c p) = 0;
  va_medium : medium w bytes r
}.

Lemma nums_ext c c' l : (forall p, p ∈ l -> blocknum (blk c' p) = blocknum (blk c p)) -> nums c' l = nums c l.
Proof. intros Hb. apply list_fmap_ext. intros i p Hp%list_elem_of_lookup_2. by apply Hb. Qed.

Lemma shape_lengths c fl ll : shape c fl ll -> 0 <= count c -> zlen fl + zlen ll = count c.
Proof.
  intros S Hc. pose proof (Permutation_length (sh_all _ _ _ S)) as E.
  rewrite length_app, length_fmap, length_seqZ in E. unfold zlen. lia.
Qed.

Lemma alloc_from_free c w p fl ll V bytes r : whole c w (p :: fl) ll V bytes r ->
  exists c', alloc_block c w = Ok (p, c', w) /\ vacant c' w fl ll p V bytes r /\ nums c' ll = nums c ll.
Proof.
  intros [F S Da M]. pose proof (shape_nodup _ _ _ S) as [Np N]%NoDup_cons. rewrite elem_of_app in Np.
  destruct (take_free c p fl ll (set_ref_count (blk c p) 0) S) as (m1 & m2 & E1 & E2 & S2).
  destruct (shape_node c _ _ p S) as (_ & _ & H0 & _); [by left|].
  eexists. split.
  - unfold alloc_block. rewrite E1. cbn [res_bind]. rewrite (proj2 (Z.eqb_neq p NIL)) by done. cbn [negb].
    change (deref (set_chains c m1) p) with (deref c p). rewrite (deref_blk c _ _ p S) by (by left). cbn [res_bind].
    cbn [chains set_block set_chains]. rewrite E2. cbn [res_bind]. reflexivity.
  - set (c' := set_chains _ m2).
    assert (Hb : forall q, q <> p -> blk c' q = blk c q) by (intros q Hq; by apply (blk_other c p (set_ref_count (blk c p) 0))).
    assert (Hp : blk c' p = set_ref_count (blk c p) 0) by (apply (blk_same c p)).
    assert (Hl : nums c' ll = nums c ll) by (apply nums_ext; intros q Hq; rewrite Hb; [done|intros ->; tauto]).
    split; [|done]. split; [done|done| |by rewrite Hp|done]. destruct Da as [A B C E G I]. split; rewrite ?Hl; try done.
    + intros q Hq. rewrite Hb by (intros ->; tauto). by apply B.
    + intros q [-> |Hq]%elem_of_cons; [rewrite Hp; destruct (C p) as [? ? ?]; [by left|by split]|].
      rewrite Hb by (intros ->; tauto). apply C. by right.
    + erewrite list_fmap_ext; [exact I|]. intros i q Hq%list_elem_of_lookup_2. destruct (decide (q = p)) as [-> |Hne]; [by rewrite Hp|].
      by rewrite Hb.
Qed.

Lemma pinned_iff c fl ll V bytes p : data g c fl ll V bytes -> p ∈ ll ->
  ref_count (blk c p) = 0 <-> v_pins V !! blocknum (blk c p) = None.
Proof.
  intros Da Hp. rewrite (us_refs _ _ _ _ (da_used _ _ _ _ _ _ Da p Hp)).
  destruct (v_pins V !! blocknum (blk c p)) as [k|] eqn:E; cbn; [|done].
  destruct (da_pins _ _ _ _ _ _ Da _ _ E). split; [lia|done].
Qed.

(** Some block is not pinned. *)
Lemma some_unpinned c fl ll V bytes : data g c fl ll V bytes -> (size (v_pins V) < length ll)%nat ->
  exists l1 p l2, ll = l1 ++ p :: l2 /\ ref_count (blk c p) = 0 /\
    (forall q, q ∈ l1 -> ref_count (blk c q) <> 0) /\ evict (v_pins V) (nums c ll) = nums c (l1 ++ l2).
Proof.
  intros Da Hs. destruct (first_or_all (fun p => ref_count (blk c p) = 0) ll) as [(l1 & p & l2 & -> & Hp & Hl)|Hl].
  - exists l1, p, l2. split; [done|]. split; [done|]. split; [done|]. unfold nums. rewrite !fmap_app. cbn. apply evict_app.
    + intros k (q & -> & Hq)%list_elem_of_fmap. specialize (Hl q Hq).
      rewrite (pinned_iff c fl _ V bytes q Da) in Hl by (apply elem_of_app; by left).
      by destruct (v_pins V !! blocknum (blk c q)) eqn:E; [eexists|destruct Hl].
    + apply (pinned_iff c fl _ V bytes p Da); [apply elem_of_app; right; by left|done].
  - exfalso. assert (Hsub : list_to_set (nums c ll) ⊆ dom (v_pins V)).
    { intros n (q & Hq & <-)%elem_of_list_to_set%elem_of_nums. apply elem_of_dom. specialize (Hl q Hq).
      rewrite (pinned_iff c fl ll V bytes q Da Hq) in Hl.
      by destruct (v_pins V !! blocknum (blk c q)) eqn:E; [eexists|destruct Hl]. }
    apply subseteq_size in Hsub. rewrite size_dom, size_list_to_set in Hsub by apply Da. unfold nums in Hsub.
    rewrite length_fmap in Hsub. lia.
Qed.

Lemma set_chains_id c : set_chains c (chains c) = c.
Proof. by destruct c. Qed.

(** Only marks of changed blocks are taken back. *)
Definition cleaned (c c' : bcache) : Prop :=
  chains c' = chains c /\
  forall q, blocknum (blk c' q) = blocknum (blk c q) /\ ref_count (blk c' q) = ref_count (blk c q) /\
    (is_dirty (blk c q) = false -> is_dirty (blk c' q) = false).

Lemma cleaned_nums c c' l : cleaned c c' -> nums c' l = nums c l.
Proof. intros [_ Hb]. apply nums_ext. intros q _. apply Hb. Qed.

(** The block is written back if it has changed. *)
Lemma clean_block c w fl l1 p l2 V bytes r : whole c w fl (l1 ++ p :: l2) V bytes r -> xfer_cost <= r ->
  exists c' w' bytes', (if is_dirty (blk c p) then flush_block c w p else Ok (0, c, w)) = Ok (0, c', w') /\
    whole c' w' fl (l1 ++ p :: l2) V bytes' (r - xfer_cost) /\ cleaned c c' /\ is_dirty (blk c' p) = false.
Proof.
  intros W Hr. destruct (is_dirty (blk c p)) eqn:Hd.
  - destruct (flush_block_ok c w fl l1 p l2 V bytes r W Hd Hr) as (w' & bytes' & E & W').
    eexists _, w', bytes'. split; [exact E|]. split; [exact W'|].
    change (blk (set_stats ?a ?b) p) with (blk a p). rewrite blk_same. split; [|done]. split; [done|]. intros q.
    change (blk (set_stats ?a ?b) q) with (blk a q). rewrite blk_set. case_decide as Eq; [by subst|done].
  - exists c, w, bytes. split; [done|]. split; [|done]. apply (whole_room _ _ _ _ _ _ r); [done|]. pose proof xfer_cost_nonneg. lia.
Qed.

Lemma alloc_from_used c w ll V bytes r : whole c w [] ll V bytes r -> (size (v_pins V) < length ll)%nat -> xfer_cost <= r ->
  exists p c' w' ll' bytes', alloc_block c w = Ok (p, c', w') /\ vacant c' w' [] ll' p V bytes' (r - xfer_cost) /\
    nums c' ll' = evict (v_pins V) (nums c ll).
Proof.
  intros W Hs Hr. destruct (some_unpinned c [] ll V bytes (wh_data _ _ _ _ _ _ _ W) Hs) as (l1 & p & l2 & -> & Hp & Hl & Ev).
  destruct (clean_block c w [] l1 p l2 V bytes r W Hr) as (c1 & w1 & bytes1 & E1 & W1 & Hcl & Hc).
  assert (Hp1 : ref_count (blk c1 p) = ref_count (blk c p)) by apply Hcl.
  destruct (move_to_tail c1 [] l1 p l2 (wh_shape _ _ _ _ _ _ _ W1)) as (m1 & m2 & Em1 & Em2 & S2).
  assert (Hin : forall q, q ∈ l1 ++ p :: l2 -> deref c q = Ok (blk c q)) by (intros q Hq; by apply (deref_blk c [] _ q (wh_shape _ _ _ _ _ _ _ W))).
  exists p, (set_chains c1 m2), w1, (l1 ++ l2), bytes1. split; [|split].
  - unfold alloc_block, list_remove_head.
    rewrite (dll_first _ _ _ (sh_free _ _ _ (wh_shape _ _ _ _ _ _ _ W))). cbn [res_bind head from_option id].
    rewrite Z.eqb_refl. cbn [negb res_bind]. rewrite Z.eqb_refl. cbn [negb]. rewrite set_chains_id.
    destruct (list_for_every_until (fun st : bcache * world D H => chains st.1) LRU evict_step (chains c) (fun _ st => st = (c, w)))
      with (l1 := l1) (x := p) (l2 := l2) (s := (c, w)) as (s & -> & E); [by intros k s ->|apply W|done| |].
    { intros k y rest st Hk ->. assert (Hy : y ∈ l1) by (rewrite Hk; apply elem_of_app; right; by left). cbn [evict_step]. rewrite Hin by (apply elem_of_app; by left). cbn [res_bind].
      rewrite (proj2 (Z.eqb_neq _ 0)) by (by apply Hl). by eexists. }
    rewrite (E p (set_chains c1 m2, w1)); [done|]. cbn [evict_step]. rewrite Hin by (apply elem_of_app; right; by left).
    cbn [res_bind]. rewrite Hp, Z.eqb_refl, E1. cbn [res_bind Z.eqb negb]. rewrite Em1. cbn [res_bind]. by rewrite Em2.
  - destruct W1 as [F1 S1 D1 M1]. split; [done|by rewrite app_assoc in S2| |by rewrite <- Hp, <- Hp1|done].
    apply (data_ext g c1); [done|]. apply data_evict; [by apply data_split|done|by rewrite Hp1].
  - rewrite Ev. by apply (cleaned_nums c c1).
Qed.

(** [alloc_block] finds a block as long as one is not pinned. *)
Lemma alloc_block_ok c w fl ll V bytes r : whole c w fl ll V bytes r -> 0 <= la_count g ->
  Z.of_nat (size (v_pins V)) < la_count g -> xfer_cost <= r ->
  exists p c' w' fl' ll' bytes', alloc_block c w = Ok (p, c', w') /\
    vacant c' w' fl' ll' p V bytes' (r - xfer_cost) /\ nums c' ll' = make_room (la_count g) (v_pins V) (nums c ll).
Proof.
  intros W Hc Hs Hr. pose proof (wh_fixed _ _ _ _ _ _ _ W) as (_ & _ & Ec & _).
  pose proof (shape_lengths _ _ _ (wh_shape _ _ _ _ _ _ _ W)) as Hl. rewrite Ec in Hl. specialize (Hl Hc).
  assert (Hz : zlen (nums c ll) = zlen ll) by (unfold zlen, nums; by rewrite length_fmap).
  unfold make_room. rewrite Hz. pose proof (zlen_nonneg ll). pose proof xfer_cost_nonneg. destruct fl as [|p fl].
  - destruct (alloc_from_used c w ll V bytes r W) as (p & c' & w' & ll' & bytes' & E & Va & En);
      [unfold zlen in Hl; cbn in Hl; lia|done|].
    exists p, c', w', [], ll', bytes'. split; [done|]. split; [done|]. rewrite (proj2 (Z.ltb_ge _ _)); [done|].
    unfold zlen in *. cbn in Hl. lia.
  - destruct (alloc_from_free c w p fl ll V bytes r W) as (c' & E & Va & En).
    exists p, c', w, fl, ll, bytes. split; [done|]. split.
    + destruct Va as [V1 V2 V3 V4 V5]. split; [done..|]. eapply medium_room; [done|lia].
    + rewrite (proj2 (Z.ltb_lt _ _)); [done|]. unfold zlen in *. cbn in Hl. lia.
Qed.

(** ** Look-up and fill *)

(** A block that is in the cache is found, and is then the last one of the list. *)
Lemma find_ok c w fl ll V bytes r n : whole c w fl ll V bytes r -> n ∈ nums c ll ->
  exists p c' ll', find_block c n = Ok (p, c') /\ p <> NIL /\ whole c' w fl (ll' ++ [p]) V bytes r /\
    blocknum (blk c' p) = n /\ nums c' (ll' ++ [p]) = filter (fun k => k <> n) (nums c ll) ++ [n].
Proof.
  intros W (p & (l1 & l2 & ->)%list_elem_of_split & Hp)%elem_of_nums. pose proof W as [F S Da M].
  pose proof (da_nums _ _ _ _ _ _ Da) as N. unfold nums in N. rewrite fmap_app, fmap_cons, Hp in N.
  destruct (find_hit c fl l1 p l2 n S Hp) as (m & d & E & S').
  { intros Hn. apply NoDup_app in N as (_ & Nd & _). apply (Nd n Hn). by left. }
  exists p, (set_stats (set_chains c m) (count_hit (stats c) d)), (l1 ++ l2). split; [done|].
  split. { apply (shape_node c fl (l1 ++ p :: l2) p S). rewrite !elem_of_app, elem_of_cons. auto. }
  split; [|split; [done|]].
  - rewrite <- app_assoc. apply whole_stats. split; [done|done| |done]. apply (data_ext g c); [done|].
    apply (data_perm g c fl (l1 ++ p :: l2)); [done| |done]. by rewrite (Permutation_app_comm l2 [p]).
  - change (nums c ((l1 ++ l2) ++ [p]) = filter (fun k => k <> n) (nums c (l1 ++ p :: l2)) ++ [n]).
    unfold nums. rewrite !fmap_app, !fmap_cons, !Hp, filter_ne_split by done. done.
Qed.

(** A block is put in the place of the one given up. *)
Lemma vacant_fill c w fl ll p V bytes r b f : vacant c w fl ll p V bytes r -> blocknum b ∉ nums c ll ->
  (forall n, n <> blocknum b -> f n = v_data V n) -> used_ok g (mkView f (v_pins V) (v_held V)) bytes b ->
  ptr b = ptr (blk c p) ->
  whole (set_block c p b) w fl (ll ++ [p]) (mkView f (v_pins V) (v_held V)) bytes r /\
  nums (set_block c p b) (ll ++ [p]) = nums c ll ++ [blocknum b].
Proof.
  intros [F S Da R M] Hn Hf U Hq. pose proof (shape_nodup _ _ _ S) as N. rewrite app_assoc in N.
  rewrite (Permutation_app_comm (fl ++ ll) [p]) in N. apply NoDup_cons in N as [N _]. split.
  - split; [done|by apply shape_block| |done]. apply (data_perm g _ fl (p :: ll)); [done|by rewrite Permutation_app_comm|].
    by apply data_fill.
  - unfold nums. rewrite fmap_app. cbn. rewrite blk_same. f_equal. apply nums_ext. intros q Hin.
    rewrite blk_other; [done|]. intros ->. apply N, elem_of_app. by right.
Qed.

Lemma vacant_node c w fl ll p V bytes r : vacant c w fl ll p V bytes r ->
  p <> NIL /\ deref c p = Ok (blk c p) /\ spare_ok g (blk c p).
Proof.
  intros [F S Da R M]. assert (Hin : p ∈ fl ++ ll ++ [p]) by (rewrite !elem_of_app, list_elem_of_singleton; auto).
  split; [apply (shape_node _ _ _ _ S Hin)|]. split; [by apply (deref_blk c fl (ll ++ [p]))|].
  apply (da_spare _ _ _ _ _ _ Da). by left.
Qed.

Variable asserts : bool.

Lemma assert_true : tegrabl_assert asserts true = Ok tt.
Proof. by destruct asserts. Qed.

(** What is not in the cache is read into a vacant block. *)
Lemma fill_ok c w fl ll p V bytes r n : vacant c w fl ll p V bytes r -> in_range g n -> n ∉ nums c ll -> xfer_cost <= r ->
  exists w' b, let c1 := set_block c p (set_blocknum (blk c p) n) in
    tegrabl_blockdev_read w (dev c1) (ptr (blk c p)) (read_offset c1 n) (block_size c1) =
      Ok (TEGRABL_NO_ERROR, stored g bytes n, w') /\
    b = set_content (set_blocknum (blk c p) n) (splice 0 (stored g bytes n) (content (blk c p))) /\
    whole (set_block c1 p b) w' fl (ll ++ [p]) V bytes (r - xfer_cost) /\
    nums (set_block c1 p b) (ll ++ [p]) = nums c ll ++ [n].
Proof.
  intros Va Hn Hin Hr. destruct (vacant_node _ _ _ _ _ _ _ _ Va) as (H0 & Hd & [Sp Sl Sc]).
  destruct Va as [(Ed & Eb & Ec & Eo) S Da R M]. destruct (medium_len _ _ _ M) as [Hz Hs].
  destruct (cached_bounds g Hg n Hn) as (B1 & B2 & _). destruct Hg.
  destruct (medium_read w bytes r (ptr (blk c p)) (la_off g + n * la_bs g)) as (w' & E & M'); [done|done|lia|lia|done|].
  eexists w', _. cbn zeta. split; [|split; [reflexivity|]].
  - unfold read_offset. cbn [dev block_size fs_offset set_block]. rewrite Ed, Eb, Eo, (u64_small (n * la_bs g)), u64_small by lia. done.
  - set (b := set_content _ _). assert (Hc : content b = stored g bytes n).
    { apply splice_whole. rewrite (stored_len g Hg) by done. lia. }
    assert (Eq : set_block (set_block c p (set_blocknum (blk c p) n)) p b = set_block c p b).
    { unfold set_block. cbn. by rewrite insert_insert_eq. }
    rewrite Eq. assert (Va' : vacant c w' fl ll p V bytes (r - xfer_cost)) by (split; done).
    replace V with (mkView (v_data V) (v_pins V) (v_held V)) by (by destruct V).
    apply (vacant_fill c w' fl ll p V bytes (r - xfer_cost) b (v_data V) Va'); [done|done| |done].
    split; rewrite ?Hc; cbn.
    + done.
    + done.
    + symmetry. by apply (da_miss _ _ _ _ _ _ Da).
    + by apply (stored_len g Hg).
    + by rewrite Sc.
    + rewrite R. destruct (v_pins V !! n) as [k|] eqn:Ek; [|done]. by destruct (da_pins _ _ _ _ _ _ Da n k Ek).
    + intros [k Ek]. by destruct (da_pins _ _ _ _ _ _ Da n k Ek).
Qed.

(** The pinned blocks are in the cache. *)
Lemma room_to_fill c fl ll V bytes n : data g c fl ll V bytes -> n ∉ nums c ll ->
  n ∈ dom (v_pins V) \/ Z.of_nat (size (v_pins V)) < la_count g -> Z.of_nat (size (v_pins V)) < la_count g.
Proof. intros Da Hn [(k & Hk)%elem_of_dom|]; [|done]. by destruct (da_pins _ _ _ _ _ _ Da n k Hk). Qed.

Lemma evict_subset pins l n : n ∈ evict pins l -> n ∈ l.
Proof.
  induction l as [|k l IH]; [done|]. cbn. destruct (pins !! k); rewrite !elem_of_cons; tauto.
Qed.

Lemma make_room_subset cnt pins l n : n ∈ make_room cnt pins l -> n ∈ l.
Proof. unfold make_room. case_match; [done|]. apply evict_subset. Qed.

Lemma find_or_fill_ok c w fl ll V bytes r n : whole c w fl ll V bytes r -> in_range g n -> 0 <= la_count g ->
  n ∈ dom (v_pins V) \/ Z.of_nat (size (v_pins V)) < la_count g -> 2 * xfer_cost <= r ->
  exists p c' w' fl' ll' bytes', find_or_fill_block asserts c w n = Ok (p, c', w') /\ p <> NIL /\
    whole c' w' fl' (ll' ++ [p]) V bytes' (r - 2 * xfer_cost) /\ blocknum (blk c' p) = n /\
    nums c' (ll' ++ [p]) = touch (la_count g) (v_pins V) n (nums c ll).
Proof.
  intros W Hn Hc Hpin Hr. pose proof xfer_cost_nonneg as Hx. unfold touch, find_or_fill_block.
  destruct (decide (n ∈ nums c ll)) as [Hin|Hin].
  - destruct (find_ok c w fl ll V bytes r n W Hin) as (p & c' & ll' & E & H0 & W' & Hb & En).
    exists p, c', w, fl, ll', bytes. split; [|split; [done|]; split; [apply (whole_room _ _ _ _ _ _ r); [done|lia]|done]].
    rewrite E. cbn [res_bind]. rewrite (proj2 (Z.eqb_neq p NIL)) by done. cbn [res_bind].
    rewrite (proj2 (Z.eqb_neq p NIL)) by done. rewrite (deref_blk _ _ _ p (wh_shape _ _ _ _ _ _ _ W')) by set_solver.
    cbn [res_bind]. by rewrite Hb, Z.eqb_refl, assert_true.
  - pose proof (room_to_fill c fl ll V bytes n (wh_data _ _ _ _ _ _ _ W) Hin Hpin) as Hs.
    rewrite (find_miss c fl ll n (wh_shape _ _ _ _ _ _ _ W) Hin). cbn [res_bind]. rewrite Z.eqb_refl.
    apply (whole_stats _ _ (count_miss (stats c))) in W.
    destruct (alloc_block_ok _ w fl ll V bytes r W Hc Hs) as (p & c' & w' & fl' & ll' & bytes' & Ea & Va & En); [lia|].
    change (nums (set_stats c (count_miss (stats c))) ll) with (nums c ll) in En.
    destruct (vacant_node _ _ _ _ _ _ _ _ Va) as (H0 & Hd & _).
    destruct (fill_ok c' w' fl' ll' p V bytes' (r - xfer_cost) n Va Hn) as (w2 & b & Er & Eb & W2 & E2);
      [rewrite En; by intros ?%make_room_subset|lia|].
    rewrite Ea. cbn [res_bind]. rewrite (proj2 (Z.eqb_neq p NIL)) by done. cbn [negb]. rewrite assert_true. cbn [res_bind].
    rewrite Hd. cbn [res_bind]. rewrite Er. cbn [res_bind Z.eqb negb TEGRABL_NO_ERROR]. rewrite <- Eb.
    apply (whole_stats _ _ (count_read (stats (set_block (set_block c' p (set_blocknum (blk c' p) n)) p b)))) in W2.
    eexists p, _, w2, fl', ll', bytes'. split; [|split; [done|]; split; [|split]].
    + rewrite (proj2 (Z.eqb_neq p NIL)) by done. rewrite (deref_blk _ _ _ p (wh_shape _ _ _ _ _ _ _ W2)) by set_solver.
      cbn [res_bind]. change (blk (set_stats ?a ?b) p) with (blk a p). rewrite blk_same.
      replace (blocknum b) with n by (by rewrite Eb). rewrite Z.eqb_refl, assert_true. reflexivity.
    + eapply whole_room; [exact W2|lia].
    + change (blk (set_stats ?a ?b) p) with (blk a p). by rewrite blk_same, Eb.
    + change (nums (set_stats ?a ?b) ?l) with (nums a l). by rewrite E2, En.
Qed.

(** ** The operations *)

(** The block used last changes. *)
Lemma change_last c w fl ll p V bytes r b V' : whole c w fl (ll ++ [p]) V bytes r ->
  blocknum b = blocknum (blk c p) -> ptr b = ptr (blk c p) -> used_ok g V' bytes b ->
  (forall n, n <> blocknum b -> v_data V' n = v_data V n /\ v_pins V' !! n = v_pins V !! n /\
    v_held V' !! n = v_held V !! n) ->
  (forall k, v_pins V' !! blocknum b = Some k -> 0 < k < 2 ^ 31) ->
  whole (set_block c p b) w fl (ll ++ [p]) V' bytes r /\ nums (set_block c p b) (ll ++ [p]) = nums c (ll ++ [p]).
Proof.
  intros W En Eq U Ho Hk. pose proof W as [F S Da M]. pose proof (whole_apart _ _ _ _ _ _ _ _ _ W) as Hp.
  rewrite app_nil_r in Hp. split.
  - split; [done|by apply shape_block| |done].
    assert (P : p :: ll ≡ₚ ll ++ [p]) by (by rewrite (Permutation_app_comm ll [p])).
    apply (data_perm g _ fl (p :: ll)); [done|done|].
    apply (data_change g c fl p ll V bytes); [by apply (data_perm g _ fl (ll ++ [p]))|done|done|done|done| |].
    + intros n Hn _. destruct (Ho n Hn) as (-> & -> & ->). done.
    + intros n k Hn. destruct (decide (n = blocknum b)) as [-> |Hne]; [left; auto|right].
      destruct (Ho n Hne) as (_ & <- & _). done.
  - apply nums_ext. intros q Hq. rewrite blk_set. case_decide as E; [by rewrite <- E, En|done].
Qed.

Lemma last_used c w fl ll p V bytes r : whole c w fl (ll ++ [p]) V bytes r ->
  deref c p = Ok (blk c p) /\ used_ok g V bytes (blk c p).
Proof.
  intros [F S Da M]. assert (Hp : p ∈ ll ++ [p]) by (apply elem_of_app; right; by left). split.
  - apply (deref_blk c fl (ll ++ [p]) p S). apply elem_of_app. by right.
  - by apply (da_used _ _ _ _ _ _ Da).
Qed.

(** What a call takes from the heap. *)
Definition fill_cost : Z := 2 * xfer_cost.

(** A block may be brought in: it is pinned, or not all are. *)
Definition may_fill (pins : gmap Z Z) (n : Z) : Prop :=
  in_range g n /\ (n ∈ dom pins \/ Z.of_nat (size pins) < la_count g).

Hypothesis Hcount : 0 <= la_count g.

Lemma cache_read_ok c w fl ll V bytes r n : whole c w fl ll V bytes r -> may_fill (v_pins V) n -> fill_cost <= r ->
  exists c' w' fl' ll' bytes', bcache_read_block asserts c w n = Ok (0, v_data V n, c', w') /\
    whole c' w' fl' ll' V bytes' (r - fill_cost) /\ nums c' ll' = touch (la_count g) (v_pins V) n (nums c ll).
Proof.
  intros W [Hn Hp] Hr.
  destruct (find_or_fill_ok c w fl ll V bytes r n W Hn Hcount Hp Hr) as (p & c' & w' & fl' & ll' & bytes' & E & H0 & W' & Hb & En).
  exists c', w', fl', (ll' ++ [p]), bytes'. split; [|done]. unfold bcache_read_block. rewrite E. cbn [res_bind].
  rewrite (proj2 (Z.eqb_neq p NIL)) by done. destruct (last_used _ _ _ _ _ _ _ _ W') as [Hd U]. rewrite Hd. cbn [res_bind].
  destruct (wh_fixed _ _ _ _ _ _ _ W') as (_ & -> & _). rewrite <- (us_len _ _ _ _ U), slice_all, (us_data _ _ _ _ U), Hb.
  done.
Qed.

(** The pins of [n] with one more, and with one less. *)
Definition pin (pins : gmap Z Z) (n : Z) : gmap Z Z := <[n := default 0 (pins !! n) + 1]> pins.
Definition unpin (pins : gmap Z Z) (n : Z) : gmap Z Z :=
  let k := default 0 (pins !! n) in if k =? 1 then delete n pins else <[n := k - 1]> pins.

Lemma get_block_ok c w fl ll V bytes r out n : whole c w fl ll V bytes r -> may_fill (v_pins V) n -> fill_cost <= r ->
  0 < out -> default 0 (v_pins V !! n) + 1 < 2 ^ 31 ->
  exists q c' w' fl' ll' bytes', bcache_get_block asserts c w out n = Ok (0, Some q, c', w') /\
    whole c' w' fl' ll' (mkView (v_data V) (pin (v_pins V) n) (<[n := q]> (v_held V))) bytes' (r - fill_cost) /\
    nums c' ll' = touch (la_count g) (v_pins V) n (nums c ll).
Proof.
  intros W [Hn Hp] Hr Ho Hk.
  destruct (find_or_fill_ok c w fl ll V bytes r n W Hn Hcount Hp Hr) as (p & c' & w' & fl' & ll' & bytes' & E & H0 & W' & Hb & En).
  destruct (last_used _ _ _ _ _ _ _ _ W') as [Hd [U1 U2 U3 U4 U5 U6 U7]]. rewrite Hb in *.
  assert (Hk0 : 0 <= default 0 (v_pins V !! n)).
  { destruct (v_pins V !! n) as [k|] eqn:Ek; cbn; [|lia]. destruct (da_pins _ _ _ _ _ _ (wh_data _ _ _ _ _ _ _ W') n k Ek). lia. }
  exists (ptr (blk c' p)). eexists _, w', fl', (ll' ++ [p]), bytes'. split; [|].
  - unfold bcache_get_block. rewrite (proj2 (Z.eqb_neq out NULL)) by (unfold NULL; lia). cbn [negb]. rewrite assert_true.
    cbn [res_bind]. rewrite E. cbn [res_bind]. rewrite (proj2 (Z.eqb_neq p NIL)) by done. rewrite Hd. cbn [res_bind]. reflexivity.
  - rewrite <- En. apply (change_last c' w' fl' ll' p V bytes'); [done|done|done| | |].
    + split; cbn; rewrite ?Hb, ?lookup_insert_eq; try done. unfold pin. rewrite lookup_insert_eq. cbn.
      rewrite U6. apply s32_small. lia.
    + cbn. rewrite Hb. intros k Hne. unfold pin. rewrite !lookup_insert_ne by done. done.
    + cbn. rewrite Hb. unfold pin. intros k. rewrite lookup_insert_eq. intros [= <-]. lia.
Qed.

Lemma touch_in cnt pins n l : n ∈ l -> touch cnt pins n l = filter (fun k => k <> n) l ++ [n].
Proof. intros Hn. unfold touch. by rewrite decide_True. Qed.

Lemma put_block_ok c w fl ll V bytes r n k : whole c w fl ll V bytes r -> v_pins V !! n = Some k ->
  exists c' ll', bcache_put_block asserts c n = Ok (0, c') /\
    whole c' w fl ll' (mkView (v_data V) (unpin (v_pins V) n) (v_held V)) bytes r /\
    nums c' ll' = touch (la_count g) (v_pins V) n (nums c ll).
Proof.
  intros W Hk. destruct (da_pins _ _ _ _ _ _ (wh_data _ _ _ _ _ _ _ W) n k Hk) as [Hin Hb].
  destruct (find_ok c w fl ll V bytes r n W Hin) as (p & c' & ll' & E & H0 & W' & Hp & En).
  destruct (last_used _ _ _ _ _ _ _ _ W') as [Hd [U1 U2 U3 U4 U5 U6 U7]]. rewrite Hp in *. rewrite Hk in U6. cbn in U6.
  eexists _, (ll' ++ [p]). split.
  - unfold bcache_put_block. rewrite E. cbn [res_bind]. rewrite (proj2 (Z.eqb_neq p NIL)) by done. cbn [negb]. rewrite assert_true.
    cbn [res_bind]. rewrite Hd. cbn [res_bind]. rewrite (proj2 (Z.ltb_lt 0 _)) by lia. rewrite assert_true. reflexivity.
  - rewrite touch_in, <- En by done. apply (change_last c' w fl ll' p V bytes); [done|done|done| | |]; unfold unpin; rewrite Hk; cbn.
    + split; cbn; rewrite ?Hp; try done.
      * rewrite U6, s32_small by lia. destruct (Z.eqb_spec k 1) as [-> |]; [by rewrite lookup_delete_eq|by rewrite lookup_insert_eq].
      * intros _. apply U7. by eexists.
    + rewrite Hp. intros j Hne. destruct (k =? 1); [by rewrite lookup_delete_ne|by rewrite lookup_insert_ne].
    + rewrite Hp. intros j. destruct (Z.eqb_spec k 1); [by rewrite lookup_delete_eq|].
      rewrite lookup_insert_eq. intros [= <-]. lia.
Qed.

Lemma zeros_len : zlen (replicate (Z.to_nat (la_bs g)) 0) = la_bs g.
Proof. destruct Hg. unfold zlen. rewrite length_replicate. lia. Qed.

(** Block [n] is overwritten in the cache. *)
Lemma overwrite_last c w fl ll p V bytes r n l : whole c w fl (ll ++ [p]) V bytes r -> blocknum (blk c p) = n ->
  la_off g = 0 -> zlen l = la_bs g ->
  let b := set_dirty (set_content (blk c p) l) true in
  whole (set_block c p b) w fl (ll ++ [p]) (mkView (upd (v_data V) n l) (v_pins V) (v_held V)) bytes r /\
  nums (set_block c p b) (ll ++ [p]) = nums c (ll ++ [p]).
Proof.
  intros W Hp Ho Hl b. destruct (last_used _ _ _ _ _ _ _ _ W) as [Hd [U1 U2 U3 U4 U5 U6 U7]].
  apply (change_last c w fl ll p V bytes); [done|done|done| | |]; cbn.
  - split; cbn; try done. unfold upd. by rewrite Hp, Z.eqb_refl.
  - intros k Hk. unfold upd. rewrite (proj2 (Z.eqb_neq k n)) by congruence. done.
  - intros k Hk. by destruct (da_pins _ _ _ _ _ _ (wh_data _ _ _ _ _ _ _ W) _ _ Hk).
Qed.

Lemma zero_block_ok c w fl ll V bytes r n : whole c w fl ll V bytes r -> may_fill (v_pins V) n -> fill_cost <= r ->
  la_off g = 0 ->
  exists c' w' fl' ll' bytes', bcache_zero_block c w n = Ok (0, c', w') /\
    whole c' w' fl' ll' (mkView (upd (v_data V) n (replicate (Z.to_nat (la_bs g)) 0)) (v_pins V) (v_held V)) bytes' (r - fill_cost) /\
    nums c' ll' = touch (la_count g) (v_pins V) n (nums c ll).
Proof.
  intros W [Hn Hp] Hr Ho. pose proof xfer_cost_nonneg as Hx. unfold fill_cost in *. pose proof zeros_len as Hz. set (zs := replicate _ 0) in *.
  unfold touch, bcache_zero_block. destruct (decide (n ∈ nums c ll)) as [Hin|Hin].
  - destruct (find_ok c w fl ll V bytes r n W Hin) as (p & c' & ll' & E & H0 & W' & Hb & En).
    destruct (last_used _ _ _ _ _ _ _ _ W') as [Hd U]. destruct (wh_fixed _ _ _ _ _ _ _ W') as (_ & Eb & _).
    destruct (overwrite_last c' w fl ll' p V bytes r n zs W' Hb Ho Hz) as [W2 E2].
    eexists _, w, fl, (ll' ++ [p]), bytes. split; [|split; [eapply whole_room; [exact W2|lia]|by rewrite E2, En]].
    rewrite E. cbn [res_bind]. rewrite (proj2 (Z.eqb_neq p NIL)) by done. cbn [res_bind]. rewrite (proj2 (Z.eqb_neq p NIL)) by done.
    rewrite Hd. cbn [res_bind]. rewrite Eb. fold zs. rewrite splice_whole by (rewrite Hz, (us_len _ _ _ _ U); done). done.
  - pose proof (room_to_fill c fl ll V bytes n (wh_data _ _ _ _ _ _ _ W) Hin Hp) as Hs.
    rewrite (find_miss c fl ll n (wh_shape _ _ _ _ _ _ _ W) Hin). cbn [res_bind]. rewrite Z.eqb_refl.
    apply (whole_stats _ _ (count_miss (stats c))) in W.
    destruct (alloc_block_ok _ w fl ll V bytes r W Hcount Hs) as (p & c' & w' & fl' & ll' & bytes' & Ea & Va & En); [lia|].
    change (nums (set_stats c (count_miss (stats c))) ll) with (nums c ll) in En.
    destruct (vacant_node _ _ _ _ _ _ _ _ Va) as (H0 & Hd & [Sp Sl Sc]). pose proof Va as [(_ & Eb & _) _ Da R _].
    set (b := set_dirty (set_content (set_blocknum (blk c' p) n) zs) true).
    assert (Hout : n ∉ nums c' ll') by (rewrite En; by intros ?%make_room_subset).
    assert (Hu : v_pins V !! n = None).
    { destruct (v_pins V !! n) as [k|] eqn:Ek; [|done]. by destruct (da_pins _ _ _ _ _ _ Da n k Ek). }
    destruct (vacant_fill c' w' fl' ll' p V bytes' (r - xfer_cost) b (upd (v_data V) n zs) Va) as [W2 E2]; [done| | |done|].
    { intros k Hk. unfold upd. cbn in Hk. by rewrite (proj2 (Z.eqb_neq k n)). }
    { split; cbn; try done; [unfold upd; by rewrite Z.eqb_refl|by rewrite R, Hu|rewrite Hu; by intros [? [=]]]. }
    eexists _, w', fl', (ll' ++ [p]), bytes'. split; [|split; [eapply whole_room; [exact W2|lia]|by rewrite E2, En]].
    rewrite Ea. cbn [res_bind]. rewrite (proj2 (Z.eqb_neq p NIL)) by done. rewrite Hd. cbn [res_bind].
    rewrite (proj2 (Z.eqb_neq p NIL)) by done. unfold deref. cbn [blocks set_block]. rewrite lookup_insert_eq. cbn [res_bind].
    cbn [block_size set_block]. rewrite Eb. fold zs. cbn [content set_blocknum]. rewrite splice_whole by (rewrite Hz, Sl; done).
    unfold set_block at 1 2. cbn. rewrite insert_insert_eq. reflexivity.
Qed.

(** Every changed block is written back. *)
Lemma bcache_flush_ok c w fl ll V bytes r : whole c w fl ll V bytes r -> la_count g * xfer_cost <= r ->
  exists c' w' bytes', bcache_flush c w = Ok (0, c', w') /\
    whole c' w' fl ll V bytes' (r - la_count g * xfer_cost) /\ nums c' ll = nums c ll /\
    forall p, p ∈ ll -> is_dirty (blk c' p) = false.
Proof.
  intros W Hr. pose proof xfer_cost_nonneg as Hx. destruct (wh_fixed _ _ _ _ _ _ _ W) as (_ & _ & Ec & _).
  pose proof (shape_lengths _ _ _ (wh_shape _ _ _ _ _ _ _ W)) as Hl. rewrite Ec in Hl. specialize (Hl Hcount).
  pose proof (zlen_nonneg fl) as Hf.
  destruct (list_for_every_all (fun st : bcache * world D H => chains st.1) LRU flush_step (chains c)
    (fun k st => chains st.1 = chains c /\ nums st.1 ll = nums c ll /\ (exists bytes', whole st.1 st.2 fl ll V bytes' (r - zlen k * xfer_cost)) /\
      forall p, p ∈ k -> is_dirty (blk st.1 p) = false)) with (l := ll) (s := (c, w)) as ([c' w'] & (_ & En & (bytes' & W') & Hd) & E).
  - by intros k s (-> & _).
  - apply W.
  - cbn. split; [done|]. split; [done|]. split; [exists bytes; by rewrite Z.sub_0_r|]. by intros p ?%elem_of_nil.
  - intros k y rest [c1 w1] Hk (Ech & En1 & (bytes1 & W1) & Hd1). cbn [fst snd flush_step] in *.
    assert (Hz : zlen k + 1 <= zlen ll) by (rewrite Hk; unfold zlen; rewrite length_app; cbn; lia).
    assert (Hz1 : zlen (k ++ [y]) = zlen k + 1) by (rewrite zlen_app; done).
    rewrite Hk in W1. destruct (clean_block c1 w1 fl k y rest V bytes1 _ W1) as (c2 & w2 & bytes2 & E2 & W2 & Hcl & Hc); [nia|].
    rewrite (deref_blk _ _ _ y (wh_shape _ _ _ _ _ _ _ W1)) by set_solver. cbn [res_bind].
    exists (c2, w2). rewrite Hz1. rewrite <- Hk in W2.
    split; [destruct (is_dirty (blk c1 y)); [by rewrite E2|by injection E2 as <- <-]|]. cbn [fst snd].
    split; [by rewrite <- Ech; apply Hcl|]. split; [by rewrite <- En1; apply cleaned_nums|]. split.
    + exists bytes2. eapply whole_room; [exact W2|lia].
    + intros q [Hq|Hq%list_elem_of_singleton]%elem_of_app; [apply Hcl, Hd1, Hq|by subst].
  - exists c', w', bytes'. split; [unfold bcache_flush; by rewrite E|]. split; [eapply whole_room; [exact W'|nia]|done].
Qed.

(** ** Pointers into the cache *)

(** A client that holds a pointer reads and writes the buffer behind it. *)
Definition buffer_at (c : bcache) (q : Z) : option Z :=
  List.find (fun p => ptr (blk c p) =? q) (BLK <$> seqZ 0 (count c)).
Definition load (c : bcache) (q : Z) : list Z :=
  match buffer_at c q with Some p => content (blk c p) | None => [] end.
Definition store (c : bcache) (q : Z) (l : list Z) : bcache :=
  match buffer_at c q with
  | Some p => set_block c p (set_content (blk c p) (splice 0 l (content (blk c p))))
  | None => c
  end.

Lemma find_first {A} (f : A -> Z) (l : list A) x : NoDup (f <$> l) -> x ∈ l -> List.find (fun y => f y =? f x) l = Some x.
Proof.
  induction l as [|y l IH]; [by intros _ ?%elem_of_nil|]. cbn. intros [Hy N]%NoDup_cons [-> |Hx]%elem_of_cons; [by rewrite Z.eqb_refl|].
  rewrite (proj2 (Z.eqb_neq _ _)); [by apply IH|]. intros E. apply Hy. rewrite E. by apply (list_elem_of_fmap_2 f).
Qed.

Lemma buffer_at_ok c w fl ll V bytes r p : whole c w fl ll V bytes r -> p ∈ fl ++ ll -> buffer_at c (ptr (blk c p)) = Some p.
Proof.
  intros [F S Da M] Hp. unfold buffer_at. apply (find_first (fun p => ptr (blk c p))).
  - rewrite <- (sh_all _ _ _ S). apply Da.
  - by rewrite <- (sh_all _ _ _ S).
Qed.

Lemma held_block c w fl ll V bytes r n : whole c w fl ll V bytes r -> n ∈ dom (v_pins V) ->
  exists l1 p l2, ll = l1 ++ p :: l2 /\ blocknum (blk c p) = n /\ v_held V !! n = Some (ptr (blk c p)) /\
    buffer_at c (ptr (blk c p)) = Some p /\ used_ok g V bytes (blk c p).
Proof.
  intros W [k Hk]%elem_of_dom. destruct (da_pins _ _ _ _ _ _ (wh_data _ _ _ _ _ _ _ W) n k Hk) as [(p & Hp & Hb)%elem_of_nums _].
  pose proof (da_used _ _ _ _ _ _ (wh_data _ _ _ _ _ _ _ W) p Hp) as U.
  assert (Hin : p ∈ fl ++ ll) by (apply elem_of_app; by right).
  pose proof (buffer_at_ok _ _ _ _ _ _ _ p W Hin) as E. apply list_elem_of_split in Hp as (l1 & l2 & ->).
  exists l1, p, l2. split; [done|]. split; [done|]. rewrite <- Hb. split; [apply U; rewrite Hb; by eexists|done].
Qed.

(** A pointer stays good while its block is pinned. *)
Lemma load_ok c w fl ll V bytes r n : whole c w fl ll V bytes r -> n ∈ dom (v_pins V) ->
  exists q, v_held V !! n = Some q /\ load c q = v_data V n.
Proof.
  intros W Hn. destruct (held_block _ _ _ _ _ _ _ n W Hn) as (l1 & p & l2 & -> & Hb & Hh & Ha & U).
  eexists. split; [exact Hh|]. unfold load. rewrite Ha, (us_data _ _ _ _ U), Hb. done.
Qed.

(** A client changes a block it has pinned, and says so. *)
Lemma store_ok c w fl ll V bytes r n l : whole c w fl ll V bytes r -> n ∈ dom (v_pins V) -> zlen l = la_bs g -> la_off g = 0 ->
  exists q c' ll', v_held V !! n = Some q /\ bcache_mark_block_dirty (store c q l) n = Ok (0, c') /\
    whole c' w fl ll' (mkView (upd (v_data V) n l) (v_pins V) (v_held V)) bytes r /\
    nums c' ll' = touch (la_count g) (v_pins V) n (nums c ll).
Proof.
  intros W Hn Hl Ho. destruct (held_block _ _ _ _ _ _ _ n W Hn) as (l1 & p & l2 & -> & Hb & Hh & Ha & U).
  exists (ptr (blk c p)). unfold store. rewrite Ha. rewrite splice_whole by (by rewrite (us_len _ _ _ _ U)).
  set (b0 := set_content (blk c p) l). set (c1 := set_block c p b0). pose proof W as [F S Da M].
  assert (Hin : p ∈ fl ++ l1 ++ p :: l2) by (rewrite !elem_of_app, elem_of_cons; auto).
  assert (H0 : p <> NIL) by apply (shape_node _ _ _ _ S Hin).
  assert (Hnum : forall q, blocknum (blk c1 q) = blocknum (blk c q)).
  { intros q. unfold c1. rewrite blk_set. case_decide; [by subst|done]. }
  pose proof (da_nums _ _ _ _ _ _ Da) as N. unfold nums in N. rewrite fmap_app, fmap_cons, Hb in N.
  destruct (find_hit c1 fl l1 p l2 n) as (m & d & E & S1); [by apply shape_block|by rewrite Hnum| |].
  { rewrite (nums_ext c c1) by done. intros Hx. apply NoDup_app in N as (_ & Nd & _). apply (Nd n Hx). by left. }
  set (c2 := set_stats (set_chains c m) (count_hit (stats c) d)).
  assert (W2 : whole c2 w fl ((l1 ++ l2) ++ [p]) V bytes r).
  { rewrite <- app_assoc. apply whole_stats. split; [done| | |done].
    - destruct S1 as [S1 S2 S3 S4]. split; [done|done|done|]. intros q Hq. apply (sh_blocks _ _ _ S).
      rewrite (sh_all _ _ _ S). change (count c) with (count (set_chains c1 m)). by rewrite <- S3.
    - apply (data_ext g c); [done|]. apply (data_perm g c fl (l1 ++ p :: l2)); [done|by rewrite (Permutation_app_comm l2 [p])|done]. }
  destruct (overwrite_last c2 w fl (l1 ++ l2) p V bytes r n l W2 Hb Ho Hl) as [W3 E3].
  eexists _, ((l1 ++ l2) ++ [p]). split; [done|]. split; [|split; [exact W3|]].
  - unfold bcache_mark_block_dirty. rewrite E. cbn [res_bind]. rewrite (proj2 (Z.eqb_neq p NIL)) by done.
    unfold deref. cbn [blocks set_stats set_chains set_block c1]. rewrite lookup_insert_eq. cbn [res_bind].
    unfold set_block, c2. cbn. by rewrite insert_insert_eq.
  - rewrite E3. change (nums c2) with (nums c). unfold nums. rewrite !fmap_app, !fmap_cons, !Hb.
    rewrite touch_in by (apply elem_of_app; right; by left). by rewrite filter_ne_split.
Qed.
End Steps.
