(* ===== verification/BcacheCreate.v ===== *)
(** The block cache: a new cache has all its blocks on the free list, and shows the content of the
    device. *)

From S2P Require Import Prelude TegraError BlockDev BlockDevFacts Gpt DList Bcache BcacheFacts BcacheSteps.

(** ** Fresh lists *)

Lemma fresh_lookup {n} p (nodes : list Z) : p ∈ nodes ->
  (list_to_map ((fun x => (x, n)) <$> nodes) : gmap Z Z) !! p = Some n.
Proof.
  intros Hp. induction nodes as [|y l IH]; [by apply elem_of_nil in Hp|]. cbn.
  destruct (decide (y = p)) as [-> |Hne]; [apply lookup_insert_eq|]. rewrite lookup_insert_ne by done.
  apply IH. set_solver.
Qed.

Lemma fresh_node cnt p : p ∈ FREE :: LRU :: (BLK <$> seqZ 0 cnt) -> node_at (fresh_links cnt) p.
Proof. intros Hp. split; unfold fresh_links; cbn [prev next]; rewrite fresh_lookup by done; by eexists. Qed.

Lemma new_lists cnt : exists m1 m2, list_initialize (fresh_links cnt) FREE = Ok m1 /\ list_initialize m1 LRU = Ok m2 /\
  dll m2 FREE [] /\ dll m2 LRU [] /\ (forall i, 0 <= i < cnt -> node_at m2 (BLK i)).
Proof.
  destruct (list_initialize_ok (fresh_links cnt) FREE) as (m1 & E1 & D1 & O1); [apply fresh_node; by left|done|].
  destruct (list_initialize_ok m1 LRU) as (m2 & E2 & D2 & O2); [apply O1, fresh_node; right; by left|done|].
  exists m1, m2. do 2 (split; [done|]). split; [|split; [done|]].
  - apply (dll_frame m1 _ _ _ [LRU]); [done|done|]. intros x Hx. rewrite list_elem_of_singleton in *. by subst.
  - intros i Hi. apply O2, O1, fresh_node. do 2 right. apply list_elem_of_fmap. exists i.
    split; [done|]. apply elem_of_seqZ. lia.
Qed.

(** ** Blocks *)

Section Create.
Context {D H : Type} {BD : BlockDriver D} {RD : ReliableDriver D} {AL : Allocator H} {AW : AllocatorLaws H}.
Context (g : layout) (Hg : layout_ok g) (junk : Z -> bcache_block).
Implicit Types (w : world D H) (bytes : list Z).
(** A buffer has the size that was asked for. *)
Hypothesis Hjunk : forall i, zlen (content (junk i)) = la_bs g.

(** The blocks before [i] are set up. *)
Record partly (c : bcache) w (fl : list Z) (i r : Z) bytes : Prop := {
  pa_fixed : fixed g c;
  pa_free : dll (chains c) FREE fl;
  pa_lru : dll (chains c) LRU [];
  pa_all : fl ≡ₚ BLK <$> seqZ 0 i;
  pa_nodes : forall j, i <= j < la_count g -> node_at (chains c) (BLK j);
  pa_spare : forall p, p ∈ fl -> exists b, blocks c !! p = Some b /\ spare_ok g b /\ heap_live (heap w) (ptr b);
  pa_ptrs : NoDup ((fun p => ptr (blk c p)) <$> fl);
  pa_medium : medium g w bytes r
}.

Lemma medium_heap w bytes r h r' : medium g w bytes r -> heap_room h r' -> medium g (set_heap w h) bytes r'.
Proof. intros [A B] Hr. by split. Qed.

Lemma partly_fresh c w fl i r bytes p : partly c w fl i r bytes -> 0 <= i -> p ∈ fl -> FREE < p < BLK i /\ p <> LRU.
Proof.
  intros P Hi Hp. rewrite (pa_all _ _ _ _ _ _ P) in Hp. apply list_elem_of_fmap in Hp as (j & -> & Hj%elem_of_seqZ).
  unfold FREE, LRU, BLK in *. lia.
Qed.

Lemma create_step c w fl i r bytes : partly c w fl i r bytes -> 0 <= i < la_count g -> alloc_cost 8 (la_bs g) <= r ->
  exists p h m, heap_malloc (heap w) (block_size c) = (p, h) /\ p <> NULL /\
    let c1 := set_block c (BLK i) (mkBlk (blocknum (junk i)) 0 false p (content (junk i))) in
    list_add_head (chains c1) FREE (BLK i) = Ok m /\
    partly (set_chains c1 m) (set_heap w h) (BLK i :: fl) (i + 1) (r - alloc_cost 8 (la_bs g)) bytes.
Proof.
  intros P Hi Hr. pose proof P as [(Ed & Eb & Ec & Eo) F L A N S Q M]. destruct Hg. rewrite Eb.
  destruct (malloc_granted (heap w) (la_bs g) r) as (p & h & E & Hp & _ & Hlive & Hnew & Hroom & Hkeep); [apply M|done|done|].
  assert (Hout : BLK i ∉ fl) by (intros Hin; pose proof (partly_fresh _ _ _ _ _ _ _ P (proj1 Hi) Hin); lia).
  destruct (list_add_head_ok (chains c) FREE fl (BLK i)) as (m & Em & Dm & Om); [done|apply N; lia| | |].
  { rewrite elem_of_cons. unfold BLK, FREE in *. intros [?|?]; [lia|done]. } { unfold BLK, NIL. lia. }
  exists p, h, m. split; [done|]. split; [unfold NULL; lia|]. cbn zeta. split; [done|].
  assert (Hb : forall q, q ∈ fl -> blk (set_block c (BLK i) (mkBlk (blocknum (junk i)) 0 false p (content (junk i)))) q = blk c q).
  { intros q Hq. apply blk_other. by intros <-. }
  split; cbn [chains set_chains set_block blocks].
  - done.
  - done.
  - apply (dll_frame (chains c) _ _ _ _ L Om). intros x ->%list_elem_of_singleton. rewrite !elem_of_cons. unfold BLK, LRU, FREE.
    intros [?|[?|Hin]]; [lia|lia|]. by destruct (partly_fresh _ _ _ _ _ _ _ P (proj1 Hi) Hin).
  - rewrite A, (seqZ_app 0 i 1), fmap_app by lia. cbn. by rewrite Permutation_app_comm.
  - intros j Hj. apply Om, N. lia.
  - intros q [-> |Hq]%elem_of_cons; [eexists; rewrite lookup_insert_eq; split; [done|]; split; [|done]; split; cbn; [lia|done|done]|].
    rewrite lookup_insert_ne by (by intros <-). destruct (S q Hq) as (b & ? & ? & ?). exists b. auto.
  - cbn. apply NoDup_cons. change (blk (set_chains ?a ?b)) with (blk a). split.
    + rewrite blk_same. cbn. intros (q & Eq & Hq)%list_elem_of_fmap. rewrite Hb in Eq by done. destruct (S q Hq) as (b & Hqb & _ & Hl).
      unfold blk in Eq. rewrite Hqb in Eq. cbn in Eq. by subst p.
    + erewrite list_fmap_ext; [exact Q|]. intros k q Hq%list_elem_of_lookup_2. by rewrite Hb.
  - by eapply medium_heap.
Qed.

Lemma create_blocks_ok n : forall c w fl i r bytes, partly c w fl i r bytes -> 0 <= i -> i + Z.of_nat n = la_count g ->
  Z.of_nat n * alloc_cost 8 (la_bs g) <= r ->
  exists c' w' fl', create_blocks junk n i c w = Ok (true, c', w') /\
    partly c' w' fl' (la_count g) (r - Z.of_nat n * alloc_cost 8 (la_bs g)) bytes.
Proof.
  assert (0 <= alloc_cost 8 (la_bs g)) by (destruct Hg; unfold alloc_cost; lia).
  induction n as [|n IH]; intros c w fl i r bytes P Hi Hn Hr.
  - exists c, w, fl. split; [done|]. replace (la_count g) with i by lia. by rewrite Z.sub_0_r.
  - destruct (create_step c w fl i r bytes P) as (p & h & m & E & Hp & Em & P'); [lia|nia|].
    destruct (IH _ _ _ _ _ _ P') as (c' & w' & fl' & E' & P2); [lia|lia|nia|]. exists c', w', fl'. split.
    + cbn [create_blocks]. rewrite E. rewrite (proj2 (Z.eqb_neq p NULL)) by done. rewrite Em. cbn [res_bind]. exact E'.
    + by replace (r - Z.of_nat (S n) * alloc_cost 8 (la_bs g)) with
        (r - alloc_cost 8 (la_bs g) - Z.of_nat n * alloc_cost 8 (la_bs g)) by lia.
Qed.

Definition create_cost : Z :=
  alloc_cost 8 sizeof_bcache + alloc_cost 8 (sizeof_bcache_block * la_count g) + la_count g * alloc_cost 8 (la_bs g).

(** What a new cache shows. *)
Definition initial bytes : view := mkView (stored g bytes) ∅ ∅.

Lemma bcache_create_ok w bytes r : medium g w bytes r -> 0 < la_count g < 2 ^ 31 -> create_cost <= r ->
  exists c w' fl, bcache_create w junk (la_dev g) (la_bs g) (la_count g) (la_off g) = Ok (Some c, w') /\
    whole g c w' fl [] (initial bytes) bytes (r - create_cost).
Proof.
  intros M Hc Hr. unfold create_cost in Hr. pose proof (Z.mul_nonneg_nonneg (la_count g) (alloc_cost 8 (la_bs g))) as Hpos.
  destruct (malloc_granted (heap w) sizeof_bcache r) as (p & h & E & Hp & _ & _ & _ & Hr1 & _); [apply M|done| |].
  { destruct Hg. unfold alloc_cost, sizeof_bcache, sizeof_bcache_block in *. lia. }
  destruct (malloc_granted h (sizeof_bcache_block * la_count g) (r - alloc_cost 8 sizeof_bcache)) as (q & h2 & E2 & Hq & _ & _ & _ & Hr2 & _);
    [done|unfold sizeof_bcache_block; lia|destruct Hg; unfold alloc_cost, sizeof_bcache_block in *; lia|].
  destruct (new_lists (la_count g)) as (m1 & m2 & Em1 & Em2 & D1 & D2 & Dn).
  set (c0 := mkCache (la_dev g) (la_bs g) (la_count g) (la_off g) (mkStats 0 0 0 0 0) m2 ∅ p q).
  assert (P0 : partly c0 (set_heap (set_heap w h) h2) [] 0 (r - alloc_cost 8 sizeof_bcache - alloc_cost 8 (sizeof_bcache_block * la_count g)) bytes).
  { split; try done; [by intros x ?%elem_of_nil|apply NoDup_nil_2|]. do 2 (eapply medium_heap; [|done]). exact M. }
  destruct (create_blocks_ok (Z.to_nat (la_count g)) _ _ _ _ _ _ P0) as (c & w' & fl & Ec & P); [lia|lia|lia|].
  exists c, w', fl. split.
  - unfold bcache_create. rewrite E. cbn [heap set_heap]. rewrite (proj2 (Z.eqb_neq p NULL)) by (unfold NULL; lia).
    rewrite Em1. cbn [res_bind]. rewrite Em2. cbn [res_bind]. rewrite u64_small by (unfold sizeof_bcache_block; lia). rewrite E2.
    rewrite (proj2 (Z.eqb_neq q NULL)) by (unfold NULL; lia). fold c0. by rewrite Ec.
  - destruct P as [F Fr L A N S Q Me]. split.
    + done.
    + split; [done|done| |].
      * rewrite app_nil_r. destruct F as (_ & _ & -> & _). done.
      * intros x. rewrite app_nil_r. intros Hx. destruct (S x Hx) as (b & -> & _). by eexists.
    + split; cbn; try done; [apply NoDup_nil_2|by intros x ?%elem_of_nil| |by rewrite app_nil_r].
      intros x Hx. destruct (S x Hx) as (b & Hb & Sp & _). unfold blk. by rewrite Hb.
    + eapply medium_room; [exact Me|]. unfold create_cost. lia.
Qed.
End Create.
