(* ===== verification/BcacheProps.v ===== *)
(** What the block cache promises to a file system: every sequence of calls behaves as on the
    device itself, and the blocks it keeps are the ones used last. *)

From S2P Require Import Prelude TegraError BlockDev BlockDevFacts Gpt DList Bcache BcacheFacts BcacheSteps BcacheCreate.

(** ** A client *)

(** The calls of a client; [Look] and [Store] go through the pointer of an earlier [Get]. *)
Inductive call :=
| Read (n : Z) | Get (n : Z) | Look (n : Z) | Put (n : Z) | Store (n : Z) (l : list Z) | Zero (n : Z) | Flush.

Section Client.
Context {D H : Type} {BD : BlockDriver D} {AL : Allocator H}.

(** The cache, the block devices, and the pointers the client was given. *)
Record client := mkClient { cl_cache : bcache; cl_world : world D H; cl_held : gmap Z Z }.

(** The address of the client's pointer variable. *)
Definition out_var : Z := 8.

(** The status of a call, and the bytes the client gets. *)
Definition do_call (asserts : bool) (s : client) (o : call) : res (Z * list Z * client) :=
  let c := cl_cache s in let w := cl_world s in let held := cl_held s in
  match o with
  | Read n =>
      let* (rc, l, c, w) := bcache_read_block asserts c w n in Ok (rc, l, mkClient c w held)
  | Get n =>
      let* (rc, q, c, w) := bcache_get_block asserts c w out_var n in
      match q with
      | Some q => Ok (rc, load c q, mkClient c w (<[n := q]> held))
      | None => Ok (rc, [], mkClient c w held)
      end
  | Look n => Ok (0, load c (default 0 (held !! n)), s)
  | Put n => let* (rc, c) := bcache_put_block asserts c n in Ok (rc, [], mkClient c w held)
  | Store n l =>
      let* (rc, c) := bcache_mark_block_dirty (store c (default 0 (held !! n)) l) n in
      Ok (rc, [], mkClient c w held)
  | Zero n => let* (rc, c, w) := bcache_zero_block c w n in Ok (rc, [], mkClient c w held)
  | Flush => let* (rc, c, w) := bcache_flush c w in Ok (rc, [], mkClient c w held)
  end.

Fixpoint do_calls (asserts : bool) (s : client) (os : list call) : res (list (Z * list Z) * client) :=
  match os with
  | [] => Ok ([], s)
  | o :: os =>
      let* (rc, l, s) := do_call asserts s o in
      let* (outs, s) := do_calls asserts s os in
      Ok ((rc, l) :: outs, s)
  end.
End Client.
Arguments client : clear implicits.

(** ** The specification *)

(** The blocks as an array, the pins, and the order of use. *)
Record disk := mkDisk { k_data : Z -> list Z; k_pins : gmap Z Z; k_recent : list Z }.

Section Spec.
Context (g : layout).
Implicit Types k : disk.

Definition use k (n : Z) : list Z := touch (la_count g) (k_pins k) n (k_recent k).

Definition spec_call k (o : call) : Z * list Z * disk :=
  match o with
  | Read n => (0, k_data k n, mkDisk (k_data k) (k_pins k) (use k n))
  | Get n => (0, k_data k n, mkDisk (k_data k) (pin (k_pins k) n) (use k n))
  | Look n => (0, k_data k n, k)
  | Put n => (0, [], mkDisk (k_data k) (unpin (k_pins k) n) (use k n))
  | Store n l => (0, [], mkDisk (upd (k_data k) n l) (k_pins k) (use k n))
  | Zero n => (0, [], mkDisk (upd (k_data k) n (replicate (Z.to_nat (la_bs g)) 0)) (k_pins k) (use k n))
  | Flush => (0, [], k)
  end.

Fixpoint spec_calls k (os : list call) : list (Z * list Z) * disk :=
  match os with
  | [] => ([], k)
  | o :: os =>
      let '(rc, l, k) := spec_call k o in
      let '(outs, k) := spec_calls k os in ((rc, l) :: outs, k)
  end.

(** What a client may call: blocks of the device, as long as not all blocks are pinned; the
    pointers only of pinned blocks; changes only where blocks are written where they are read. *)
Definition legal k (o : call) : Prop :=
  match o with
  | Read n => may_fill g (k_pins k) n
  | Get n => may_fill g (k_pins k) n /\ default 0 (k_pins k !! n) + 1 < 2 ^ 31
  | Look n | Put n => n ∈ dom (k_pins k)
  | Store n l => n ∈ dom (k_pins k) /\ zlen l = la_bs g /\ la_off g = 0
  | Zero n => may_fill g (k_pins k) n /\ la_off g = 0
  | Flush => True
  end.

Fixpoint all_legal k (os : list call) : Prop :=
  match os with
  | [] => True
  | o :: os => legal k o /\ all_legal (spec_call k o).2 os
  end.

#[export] Instance legal_dec k o : Decision (legal k o).
Proof. destruct o; unfold legal, may_fill, in_range; apply _. Defined.

#[export] Instance all_legal_dec os : forall k, Decision (all_legal k os).
Proof.
  induction os as [|o os IH]; intros k; [left; exact I|].
  destruct (legal_dec k o) as [H1|H1]; [|right; intros [??]; contradiction].
  destruct (IH (spec_call k o).2) as [H2|H2]; [left; exact (conj H1 H2)|right; intros [??]; contradiction].
Defined.

(** What a call can take from the heap at most. *)
Definition call_cost : Z := (la_count g + 2) * xfer_cost g.
End Spec.

Section Refinement.
Context {D H : Type} {BD : BlockDriver D} {RD : ReliableDriver D} {AL : Allocator H} {AW : AllocatorLaws H}.
Context (g : layout) (Hg : layout_ok g) (Hcount : 0 <= la_count g) (asserts : bool).
Implicit Types (s : client D H) (k : disk).

(** The cache stands for [k], in front of a device that holds [bytes]. *)
Definition stands s k (bytes : list Z) (r : Z) : Prop :=
  exists fl ll, whole g (cl_cache s) (cl_world s) fl ll (mkView (k_data k) (k_pins k) (cl_held s)) bytes r /\
    nums (cl_cache s) ll = k_recent k.

Lemma costs : fill_cost g <= call_cost g /\ la_count g * xfer_cost g <= call_cost g /\ 0 <= call_cost g.
Proof. pose proof (xfer_cost_nonneg g Hg). unfold fill_cost, call_cost. nia. Qed.

Lemma call_refines s k bytes r o : stands s k bytes r -> legal g k o -> call_cost g <= r ->
  exists rc l k' s' bytes', spec_call g k o = (rc, l, k') /\ do_call asserts s o = Ok (rc, l, s') /\
    stands s' k' bytes' (r - call_cost g).
Proof.
  intros (fl & ll & W & En) Hl Hr. destruct costs as (C1 & C2 & C3). destruct s as [c w held].
  cbn [cl_cache cl_world cl_held] in *. unfold stands. destruct o as [n|n|n|n|n l|n|]; cbn [legal spec_call do_call cl_cache cl_world cl_held] in *.
  - destruct (cache_read_ok g Hg asserts Hcount c w fl ll _ bytes r n W Hl) as (c' & w' & fl' & ll' & b' & E & W' & E'); [lia|].
    do 2 eexists. eexists _, (mkClient c' w' held), b'. rewrite E. split; [done|]. split; [done|]. exists fl', ll'. cbn.
    split; [by eapply whole_room; [exact W'|lia]|]. by rewrite E', En.
  - destruct Hl as [Hl Hk].
    destruct (get_block_ok g Hg asserts Hcount c w fl ll _ bytes r out_var n W Hl) as (q & c' & w' & fl' & ll' & b' & E & W' & E'); [lia|done|done|].
    do 2 eexists. eexists _, (mkClient c' w' (<[n := q]> held)), b'. rewrite E. cbn [res_bind]. split; [done|]. split.
    + destruct (load_ok g _ _ _ _ _ _ _ n W') as (q' & Hq & Hload); [cbn; unfold pin; set_solver|]. cbn in Hq, Hload.
      rewrite lookup_insert_eq in Hq. injection Hq as <-. by rewrite Hload.
    + exists fl', ll'. cbn. split; [by eapply whole_room; [exact W'|lia]|]. by rewrite E', En.
  - destruct (load_ok g _ _ _ _ _ _ _ n W Hl) as (q & Hq & Hload). cbn in Hq, Hload.
    do 2 eexists. eexists k, (mkClient c w held), bytes. split; [done|]. rewrite Hq. cbn [from_option id]. rewrite Hload. split; [done|].
    exists fl, ll. cbn. split; [eapply whole_room; [exact W|lia]|done].
  - apply elem_of_dom in Hl as [v Hv].
    destruct (put_block_ok g asserts c w fl ll _ bytes r n v W Hv) as (c' & ll' & E & W' & E').
    do 2 eexists. eexists _, (mkClient c' w held), bytes. rewrite E. split; [done|]. split; [done|]. exists fl, ll'. cbn.
    split; [by eapply whole_room; [exact W'|lia]|]. by rewrite E', En.
  - destruct Hl as (Hl & Hz & Ho).
    destruct (store_ok g c w fl ll _ bytes r n l W Hl Hz Ho) as (q & c' & ll' & Hq & E & W' & E'). cbn in Hq.
    do 2 eexists. eexists _, (mkClient c' w held), bytes. rewrite Hq. cbn [from_option id]. rewrite E. split; [done|]. split; [done|].
    exists fl, ll'. cbn. split; [by eapply whole_room; [exact W'|lia]|]. by rewrite E', En.
  - destruct Hl as [Hl Ho].
    destruct (zero_block_ok g Hg Hcount c w fl ll _ bytes r n W Hl) as (c' & w' & fl' & ll' & b' & E & W' & E'); [lia|done|].
    do 2 eexists. eexists _, (mkClient c' w' held), b'. rewrite E. split; [done|]. split; [done|]. exists fl', ll'. cbn.
    split; [by eapply whole_room; [exact W'|lia]|]. by rewrite E', En.
  - destruct (bcache_flush_ok g Hg Hcount c w fl ll _ bytes r W) as (c' & w' & b' & E & W' & E' & _); [lia|].
    do 2 eexists. eexists k, (mkClient c' w' held), b'. rewrite E. split; [done|]. split; [done|]. exists fl, ll. cbn.
    split; [by eapply whole_room; [exact W'|lia]|]. by rewrite E', En.
Qed.

Lemma calls_refine os : forall s k bytes r, stands s k bytes r -> all_legal g k os -> zlen os * call_cost g <= r ->
  exists outs k' s' bytes', spec_calls g k os = (outs, k') /\ do_calls asserts s os = Ok (outs, s') /\
    stands s' k' bytes' (r - zlen os * call_cost g).
Proof.
  destruct costs as (_ & _ & C3). induction os as [|o os IH]; intros s k bytes r St Hl Hr.
  - exists [], k, s, bytes. split; [done|]. split; [done|]. by rewrite Z.sub_0_r.
  - destruct Hl as [Ho Hl]. assert (Hz : zlen (o :: os) = zlen os + 1) by (unfold zlen; cbn; lia). rewrite Hz in Hr |- *.
    pose proof (zlen_nonneg os).
    destruct (call_refines s k bytes r o St Ho) as (rc & l & k1 & s1 & b1 & E1 & E2 & St1); [nia|].
    rewrite E1 in Hl. cbn [snd] in Hl. destruct (IH s1 k1 b1 _ St1 Hl) as (outs & k2 & s2 & b2 & E3 & E4 & St2); [lia|].
    exists ((rc, l) :: outs), k2, s2, b2. cbn [spec_calls do_calls]. rewrite E1, E2. cbn [res_bind]. rewrite E3, E4.
    split; [done|]. split; [done|]. by replace (r - (zlen os + 1) * call_cost g) with (r - call_cost g - zlen os * call_cost g) by lia.
Qed.
End Refinement.

Section Promises.
Context {D H : Type} {BD : BlockDriver D} {RD : ReliableDriver D} {AL : Allocator H} {AW : AllocatorLaws H}.
Implicit Types (w : world D H) (k : disk).

(** A flush brings the device up to date. *)
Lemma flush_settles g (s : client D H) k bytes r : layout_ok g -> 0 <= la_count g -> stands g s k bytes r ->
  la_count g * xfer_cost g <= r ->
  exists c' w' d, bcache_flush (cl_cache s) (cl_world s) = Ok (0, c', w') /\ devs w' !! la_dev g = Some d /\
    forall n, in_range g n -> stored g (drv_bytes (bd_priv d)) n = k_data k n.
Proof.
  intros Hg Hc (fl & ll & W & En) Hr.
  destruct (bcache_flush_ok g Hg Hc _ _ _ _ _ _ _ W Hr) as (c' & w' & bytes' & E & [_ _ Da [(d & Ed & _ & _ & _ & _ & Eb) _]] & Hn & Hd).
  exists c', w', d. split; [done|]. split; [done|]. intros n Hr'. rewrite Eb. destruct (decide (n ∈ nums c' ll)) as [Hin|Hin].
  - apply elem_of_nums in Hin as (p & Hp & <-). destruct (da_used _ _ _ _ _ _ Da p Hp) as [_ _ U3 _ U5 _ _].
    rewrite (Hd p Hp) in U5. by rewrite <- U5, U3.
  - symmetry. by apply (da_miss _ _ _ _ _ _ Da).
Qed.

(** A new cache stands for the blocks of the device. *)
Definition fresh_disk g (bytes : list Z) : disk := mkDisk (stored g bytes) ∅ [].


(** ** The blocks kept *)

(** The numbers of [l], each once, where it occurs first. *)
Fixpoint distinct (l : list Z) : list Z :=
  match l with
  | [] => []
  | n :: l => n :: filter (fun j => j <> n) (distinct l)
  end.

Lemma distinct_NoDup l : NoDup (distinct l).
Proof.
  induction l as [|n l IH]; cbn; [apply NoDup_nil_2|]. apply NoDup_cons. split; [|by apply NoDup_filter].
  rewrite list_elem_of_filter. tauto.
Qed.

Lemma take_filter_in n (l : list Z) j : NoDup l -> n ∈ take (S j) l ->
  filter (fun i => i <> n) (take (S j) l) = take j (filter (fun i => i <> n) l).
Proof.
  revert j. induction l as [|x l IH]; intros j; [by intros _ ?%elem_of_nil|]. intros [Hx N]%NoDup_cons. rewrite firstn_cons.
  intros [<- |Hin]%elem_of_cons.
  - rewrite !filter_cons_False by auto. rewrite filter_ne_id, filter_ne_id; [done|done|].
    intros Hn. apply Hx. by apply (subseteq_take j).
  - destruct (decide (x = n)) as [-> |Hne]; [by apply subseteq_take in Hin|]. rewrite !filter_cons_True by done.
    destruct j as [|j]; [by apply elem_of_nil in Hin|]. cbn [take]. f_equal. by apply IH.
Qed.

Lemma take_filter_out n (l : list Z) j : n ∉ take (S j) l -> take j (filter (fun i => i <> n) l) = take j l.
Proof.
  revert j. induction l as [|x l IH]; intros j Hn; [done|]. rewrite firstn_cons, elem_of_cons in Hn.
  rewrite filter_cons_True by naive_solver. destruct j as [|j]; [done|]. cbn [take]. f_equal. apply IH. tauto.
Qed.

Lemma evict_none l : evict ∅ l = tail l.
Proof. by destruct l. Qed.

(** One use after the history [h], latest first. *)
Lemma touch_recent cnt n h : 0 < cnt ->
  touch cnt ∅ n (reverse (take (Z.to_nat cnt) (distinct h))) = reverse (take (Z.to_nat cnt) (distinct (n :: h))).
Proof.
  intros Hc. assert (Hj : Z.to_nat cnt = S (Z.to_nat (cnt - 1))) by lia. rewrite Hj. set (j := Z.to_nat (cnt - 1)) in *.
  pose proof (distinct_NoDup h) as N. cbn [distinct]. set (l := distinct h) in *. cbn [take]. rewrite reverse_cons. unfold touch. f_equal.
  case_decide as Hd; rewrite elem_of_reverse in Hd.
  - by rewrite <- take_filter_in, filter_reverse.
  - rewrite take_filter_out by done. unfold make_room, zlen. rewrite length_reverse, length_take, evict_none.
    destruct (Z.ltb_spec (Z.of_nat (S j `min` length l)) cnt) as [Hlt|Hge].
    + rewrite !take_ge by lia. done.
    + destruct (lookup_lt_is_Some_2 l j) as [x Hx]; [lia|]. by rewrite (take_S_r _ _ _ Hx), reverse_snoc.
Qed.

Lemma reads_recent g bytes ns : 0 < la_count g -> forall h,
  spec_calls g (mkDisk (stored g bytes) ∅ (reverse (take (Z.to_nat (la_count g)) (distinct h)))) (Read <$> ns) =
  ((fun n => (0, stored g bytes n)) <$> ns,
   mkDisk (stored g bytes) ∅ (reverse (take (Z.to_nat (la_count g)) (distinct (reverse ns ++ h))))).
Proof.
  intros Hc. induction ns as [|n ns IH]; intros h; [done|]. rewrite !fmap_cons. cbn [spec_calls spec_call]. unfold use.
  cbn [k_data k_pins k_recent]. rewrite touch_recent by done. rewrite (IH (n :: h)).
  by rewrite reverse_cons, <- app_assoc.
Qed.

Lemma reads_legal g ns : 0 < la_count g -> Forall (in_range g) ns ->
  forall f l, all_legal g (mkDisk f ∅ l) (Read <$> ns).
Proof.
  intros Hc. induction 1 as [|n ns Hn Hns IH]; intros f l; [done|]. cbn. split; [|apply IH]. split; [done|right]. by rewrite map_size_empty.
Qed.

(** C28: the cache keeps the blocks used last.  After any sequence of reads through a new cache with room for
    [la_count] blocks, the blocks on its list are the last [la_count] distinct blocks read, in the order of
    their last use. *)
Theorem bcache_keeps_recent asserts g w junk bytes r ns : layout_ok g -> 0 < la_count g < 2 ^ 31 -> medium g w bytes r ->
  (forall i, zlen (content (junk i)) = la_bs g) -> Forall (in_range g) ns ->
  create_cost g + zlen ns * call_cost g <= r ->
  exists c w0 s ll,
    bcache_create w junk (la_dev g) (la_bs g) (la_count g) (la_off g) = Ok (Some c, w0) /\
    do_calls asserts (mkClient c w0 ∅) (Read <$> ns) = Ok ((fun n => (0, stored g bytes n)) <$> ns, s) /\
    dll (chains (cl_cache s)) LRU ll /\
    nums (cl_cache s) ll = reverse (take (Z.to_nat (la_count g)) (distinct (reverse ns))).
Proof.
  intros Hg Hc M Hj Hl Hr. destruct (costs g Hg ltac:(lia)) as (C1 & C2 & C3). pose proof (zlen_nonneg ns).
  destruct (bcache_create_ok g Hg junk Hj w bytes r M Hc) as (c & w0 & fl & E & W); [nia|].
  destruct (calls_refine g Hg ltac:(lia) asserts (Read <$> ns) (mkClient c w0 ∅) (fresh_disk g bytes) bytes (r - create_cost g))
    as (outs & k & s & bytes' & E1 & E2 & (fl' & ll & W' & En));
    [by exists fl, []|apply reads_legal; [lia|done]|unfold zlen in *; rewrite length_fmap; nia|].
  pose proof (reads_recent g bytes ns ltac:(lia) []) as Hk. cbn [distinct] in Hk. rewrite take_nil, app_nil_r in Hk.
  change (mkDisk (stored g bytes) ∅ (reverse [])) with (fresh_disk g bytes) in Hk. rewrite E1 in Hk. injection Hk as -> ->.
  exists c, w0, s, ll. split; [done|]. split; [done|]. split; [apply W'|done].
Qed.

End Promises.
