(* ===== verification/BcacheEdge.v ===== *)
(** The block cache where it goes wrong: after a read error, with a file system that does not start
    at the beginning of its device, and without memory. *)

From S2P Require Import Prelude TegraError BlockDev BlockDevFacts BlockDevProps Models Gpt DList Bcache BcacheFacts BcacheSteps BcacheCreate BcacheProps.

(** ** A disk of which one block cannot be read *)

Record flawed := mkFlawed { fd_bad : Z; fd_ram : ramdisk }.

#[export] Instance flawed_driver : BlockDriver flawed := {
  drv_read_block x blk cnt :=
    if blk =? fd_bad x then (ERR TEGRABL_ERR_OVERFLOW 99, [], x)
    else let '(e, l, y) := drv_read_block (fd_ram x) blk cnt in (e, l, mkFlawed (fd_bad x) y);
  drv_write_block x bs blk cnt :=
    let '(e, y) := drv_write_block (fd_ram x) bs blk cnt in (e, mkFlawed (fd_bad x) y);
  drv_erase x blk cnt s := let '(e, y) := drv_erase (fd_ram x) blk cnt s in (e, mkFlawed (fd_bad x) y);
  drv_xfer x _ := (TEGRABL_NO_ERROR, x);
  drv_xfer_wait x _ _ := (TEGRABL_NO_ERROR, 2, x);
  drv_ioctl x _ _ := (TEGRABL_NO_ERROR, x);
  drv_close x := (TEGRABL_NO_ERROR, x)
}.

Definition flawed_world : world flawed arena := demo_world (mkFlawed 1 (mkRam 3 demo_bytes)).

(** Fresh memory: bytes of value 170. *)
Definition demo_junk (i : Z) : bcache_block := mkBlk 170 170 true 0 (replicate 8 170).

Definition new_cache {D} {BD : BlockDriver D} (w : world D arena) (cnt offset : Z) : client D arena :=
  match bcache_create w demo_junk 0x100 8 cnt offset with
  | Ok (Some c, w) => mkClient c w ∅
  | _ => mkClient (mkCache 0 0 0 0 (mkStats 0 0 0 0 0) (mkLinks ∅ ∅) ∅ 0 0) w ∅
  end.

(** ** A failed read *)

(** A node that is its own successor is never passed. *)
Lemma self_loop_endless {St R} (links_of : St -> links) h (body : St -> Z -> res (option R * St)) p (J : St -> Prop) :
  p <> h -> (forall s, J s -> exists s', body s p = Ok (None, s') /\ J s' /\ get_next (links_of s') p = Ok p) ->
  forall fuel s, J s -> for_every links_of h body fuel p s = Stuck OutOfFuel.
Proof.
  intros Hp Hb fuel. induction fuel as [|fuel IH]; intros s Hs; cbn [for_every]; rewrite (proj2 (Z.eqb_neq p h)) by done; [done|].
  destruct (Hb s Hs) as (s' & -> & Hs' & Hn). cbn [res_bind]. rewrite Hn. cbn [res_bind]. by apply IH.
Qed.

Definition after_calls {D} {BD : BlockDriver D} (s : client D arena) (os : list call) : client D arena :=
  match do_calls true s os with Ok (_, s) => s | Stuck _ => s end.

(** The cache after block 1 failed to be read, and was read again. *)
Definition looped : client flawed arena := after_calls (new_cache flawed_world 4 0) [Read 0; Read 1; Read 1].


(** ** A file system that does not start at the beginning of the device *)

Definition medium_of (s : client ramdisk arena) : list Z :=
  match devs (cl_world s) !! 0x100 with Some d => rd_bytes (bd_priv d) | None => [] end.

(** Write-back ignores where the file system starts.  Blocks are read at [fs_offset] plus the number of the
    block times its size, and written back without [fs_offset].  With a file system that starts at byte 64
    of the device, zeroing block 1 and flushing the cache leaves the block as it was on the device
    and overwrites bytes 8 to 15, which are not part of the file system. *)
Theorem flush_misses_file_system :
  let s := after_calls (new_cache demo_ram 4 64) [Read 0; Zero 1; Flush] in
  do_calls true (new_cache demo_ram 4 64) [Read 0; Zero 1; Flush] = Ok ([(0, slice 64 8 demo_bytes); (0, []); (0, [])], s) /\
  medium_of s = splice 8 (replicate 8 0) demo_bytes /\ slice 72 8 (medium_of s) = slice 72 8 demo_bytes.
Proof. vm_compute. done. Qed.

(** ** Memory *)

Section Memory.
Context {D H : Type} {BD : BlockDriver D} {AL : Allocator H}.
Implicit Types w : world D H.

(** Without memory for the cache object [bcache_create] does not return [NULL]: the clean-up reads the field
    [blocks] through the pointer that is [NULL]. *)
Theorem create_without_memory w junk device bsize block_count offset h :
  heap_malloc (heap w) sizeof_bcache = (NULL, h) ->
  bcache_create w junk device bsize block_count offset = Stuck BadPointer.
Proof. intros E. unfold bcache_create. by rewrite E. Qed.
End Memory.

Definition full_world : world ramdisk arena := mkWorld None ∅ 0 (mkArena 0x1000 0x1010 ∅).

Lemma create_without_memory_witness :
  bcache_create full_world demo_junk 0x100 8 4 0 = Stuck BadPointer.
Proof. apply (create_without_memory full_world demo_junk 0x100 8 4 0 (mkArena 0x1000 0x1010 ∅)). vm_compute. reflexivity. Defined.

(** Destroying a cache gives back its buffers and the cache object, and keeps the array of blocks: every cache
    that is created and destroyed takes its array from the heap for good. *)
Theorem destroy_keeps_array :
  exists w, bcache_destroy true (cl_cache (new_cache demo_ram 4 0)) (cl_world (new_cache demo_ram 4 0)) = Ok w /\
    ar_live (heap w) = {[ array (cl_cache (new_cache demo_ram 4 0)) ]}.
Proof. eexists. split; [vm_compute; reflexivity|]. vm_compute. reflexivity. Qed.

(** ** The promises on a small disk *)

(** Three blocks of the cache in front of sixteen blocks of the disk. *)
Definition demo_layout : layout := mkLayout 0x100 8 3 0 16 128 3.

Lemma demo_layout_ok : layout_ok demo_layout.
Proof. split; cbn; lia. Qed.

Lemma demo_medium : medium demo_layout demo_ram demo_bytes 0x80000.
Proof.
  split; [|apply demo_room]. exists (demo_dev (mkRam 3 demo_bytes)). split; [done|]. split; [apply demo_geom|].
  split; [apply demo_media|]. done.
Qed.

Lemma demo_junk_len i : zlen (content (demo_junk i)) = la_bs demo_layout.
Proof. reflexivity. Qed.

(** More blocks than the cache holds, changed blocks among them. *)
Definition demo_calls : list call :=
  [Get 2; Store 2 (replicate 8 1); Read 4; Zero 5; Read 6; Read 7; Look 2; Read 5; Put 2; Read 8; Read 9; Read 10; Read 2; Flush].


Lemma bcache_keeps_recent_witness :
  exists c w0 s ll,
    bcache_create demo_ram demo_junk 0x100 8 3 0 = Ok (Some c, w0) /\
    do_calls true (mkClient c w0 ∅) (Read <$> [1; 2; 3; 1; 4; 5; 4]) =
      Ok ((fun n => (0, stored demo_layout demo_bytes n)) <$> [1; 2; 3; 1; 4; 5; 4], s) /\
    dll (chains (cl_cache s)) LRU ll /\ nums (cl_cache s) ll = [1; 5; 4].
Proof.
  destruct (bcache_keeps_recent true demo_layout demo_ram demo_junk demo_bytes 0x80000 [1; 2; 3; 1; 4; 5; 4] demo_layout_ok
    ltac:(cbn; lia) demo_medium demo_junk_len) as (c & w0 & s & ll & E1 & E2 & E3 & E4).
  - repeat constructor; cbn; lia.
  - vm_compute. discriminate.
  - exists c, w0, s, ll. split; [done|]. split; [done|]. split; [done|]. rewrite E4. vm_compute. reflexivity.
Defined.
