(* ===== verification/Cbo.v ===== *)
(** Boot options (common/lib/cbo/tegrabl_cbo.c): the order in which devices are tried, the network
    settings and the type of the boot partition, read from a device tree blob in the partition
    CPUBL-CFG, and changed by the shell; with the helpers of common/lib/devicetree that
    it uses.

    The library libfdt is the class [Fdt].  [g_cbo_info] is the pointer [boot_priority] with what it
    points to, and the bytes of the fields behind it, which lie next to each other: the
    network settings (17 bytes) and the GUID (37 bytes). *)

From S2P Require Import Prelude TegraError BlockDev Gpt AbNaming PartitionManager.

(** A property is a place and a length inside the blob; [None] is [NULL]. *)
Class Fdt := {
  fdt_getprop : list Z -> Z -> list Z -> option (Z * Z);
  fdt_path_offset : list Z -> list Z -> Z
}.

Definition TEGRABL_ERR_CBO : Z := 0x7D.
Definition TEGRABL_ERR_DEVICETREE : Z := 0x5C.
Definition CBO_ERR (reason aux : Z) : Z := tegrabl_error_value TEGRABL_ERR_CBO aux reason.
Definition DT_ERR (reason aux : Z) : Z := tegrabl_error_value TEGRABL_ERR_DEVICETREE aux reason.

Definition BOOT_DEFAULT : Z := 0.
Definition BOOT_FROM_NETWORK : Z := 1.
Definition BOOT_FROM_SD : Z := 2.
Definition BOOT_FROM_USB : Z := 3.
Definition BOOT_FROM_BUILTIN_STORAGE : Z := 4.

Definition CBO_DT_SIZE : Z := 4096.
Definition NUM_SECONDARY_STORAGE_DEVICES : Z := 5.

Definition default_boot_order : list Z :=
  [BOOT_FROM_SD; BOOT_FROM_USB; BOOT_FROM_BUILTIN_STORAGE; BOOT_FROM_NETWORK; BOOT_DEFAULT].

Definition boot_cfg_vars : list (list Z) :=
  [str "boot-order"; str "tftp-server-ip"; str "dhcp-enabled"; str "static-ip"; str "ip-netmask";
   str "ip-gateway"; str "boot_pt_guid"].

Definition g_boot_devices : list (list Z * Z) :=
  [(str "sd", BOOT_FROM_SD); (str "usb", BOOT_FROM_USB); (str "net", BOOT_FROM_NETWORK);
   (str "emmc", BOOT_FROM_BUILTIN_STORAGE); (str "ufs", BOOT_FROM_BUILTIN_STORAGE);
   (str "sata", BOOT_FROM_BUILTIN_STORAGE)].

Definition NVIDIA_BOOT_PARTITION_GUID : list Z := str "6637b54f-c21b-48a7-952e-a8d071029d6b".
Definition GUID_STR_SIZE : Z := 37.

(** The places of the fields behind [boot_priority]. *)
Definition IS_DHCP_ENABLED : Z := 0.
Definition STATIC_IP : Z := 1.
Definition IP_NETMASK : Z := 5.
Definition IP_GATEWAY : Z := 9.
Definition TFTP_SERVER_IP : Z := 13.
Definition BOOT_PT_GUID : Z := 17.
Definition sizeof_ip_info : Z := 17.
Definition sizeof_info : Z := 54.

(** [cb_handle] is [fdt_handle_table[TEGRABL_DT_CBO]], [cb_blob] what is there until it is freed. *)
Record cbo (D H : Type) := mkCbo {
  cb_pm : pstate D H; cb_handle : Z; cb_blob : option (list Z);
  cb_priority : Z; cb_order : list Z; cb_info : list Z
}.
Arguments mkCbo {D H}. Arguments cb_pm {D H}. Arguments cb_handle {D H}. Arguments cb_blob {D H}.
Arguments cb_priority {D H}. Arguments cb_order {D H}. Arguments cb_info {D H}.

Definition set_order {D H} (s : cbo D H) (p : Z) (l : list Z) : cbo D H :=
  mkCbo (cb_pm s) (cb_handle s) (cb_blob s) p l (cb_info s).
Definition set_info {D H} (s : cbo D H) (l : list Z) : cbo D H :=
  mkCbo (cb_pm s) (cb_handle s) (cb_blob s) (cb_priority s) (cb_order s) l.
Definition set_blob {D H} (s : cbo D H) (handle : Z) (b : option (list Z)) : cbo D H :=
  mkCbo (cb_pm s) handle b (cb_priority s) (cb_order s) (cb_info s).
Definition set_world {D H} (s : cbo D H) (w : world D H) : cbo D H :=
  mkCbo (set_pw (cb_pm s) w) (cb_handle s) (cb_blob s) (cb_priority s) (cb_order s) (cb_info s).
Definition set_pm {D H} (s : cbo D H) (m : pstate D H) : cbo D H :=
  mkCbo m (cb_handle s) (cb_blob s) (cb_priority s) (cb_order s) (cb_info s).

(** ** Device tree helpers *)

Section Dt.
Context {FD : Fdt}.
Implicit Types blob name : list Z.

(** [n] bytes of the blob, and the string that starts at an offset. *)
Definition dt_bytes blob (off n : Z) : res (list Z) :=
  if (0 <=? off) && (off + n <=? zlen blob) then Ok (slice off n blob) else Stuck OutOfBounds.
Definition dt_string blob (off : Z) : res (list Z) :=
  let rest := drop (Z.to_nat off) blob in
  if bool_decide (0 ∈ rest) then Ok (cstr rest) else Stuck OutOfBounds.

(** The loop of [tegrabl_dt_get_prop_string_array]: [l] are the bytes from [pos] on, [i] strings have
    ended, [cap] is the capacity of [res] ([None] when it is [NULL]) and [acc] what was stored. *)
Fixpoint string_loop (l : list Z) (pos i : Z) (cap : option Z) (acc : list Z) (num : option Z)
    : res (list Z * option Z) :=
  match l with
  | [] => Ok (acc, num)
  | b :: l =>
      if b =? 0 then
        let i := u32 (i + 1) in
        match cap, l with
        | Some n, _ :: _ =>
            if i <? n then string_loop l (pos + 1) i cap (acc ++ [pos + 1]) (Some i)
            else Stuck OutOfBounds
        | _, _ => string_loop l (pos + 1) i cap acc (Some i)
        end
      else string_loop l (pos + 1) i cap acc num
  end.

(** The error, the offsets of the strings and [*num], [None] if it is not stored. *)
Definition tegrabl_dt_get_prop_string_array blob (node : Z) name (cap : option Z)
    : res (Z * list Z * option Z) :=
  match fdt_getprop blob node name with
  | None => Ok (TEGRABL_ERR_NOT_FOUND, [], None)
  | Some (off, len) =>
      let* l := dt_bytes blob off len in
      match cap with
      | Some n =>
          if n <=? 0 then Stuck OutOfBounds
          else let* (acc, num) := string_loop l off 0 cap [off] None in Ok (TEGRABL_NO_ERROR, acc, num)
      | None => let* (acc, num) := string_loop l off 0 cap [] None in Ok (TEGRABL_NO_ERROR, acc, num)
      end
  end.

(** [tegrabl_dt_get_prop_u8_array] with [nmemb] 0: the whole property is stored at [at] of [info]. *)
Definition tegrabl_dt_get_prop_u8_array blob (node : Z) name (place : Z) (info : list Z)
    : res (Z * list Z) :=
  match fdt_getprop blob node name with
  | None => Ok (TEGRABL_ERR_NOT_FOUND, info)
  | Some (off, len) =>
      let* l := dt_bytes blob off len in
      let* info := store_at place l info in
      Ok (TEGRABL_NO_ERROR, info)
  end.

Definition tegrabl_dt_get_prop_string blob (node : Z) name : Z * option Z :=
  match fdt_getprop blob node name with
  | None => (TEGRABL_ERR_NOT_FOUND, None)
  | Some (off, _) => (TEGRABL_NO_ERROR, Some off)
  end.

Definition tegrabl_dt_get_node_with_path blob path : Z * Z :=
  let node_offset := fdt_path_offset blob path in
  if node_offset <? 0 then (TEGRABL_ERR_NOT_FOUND, 0) else (TEGRABL_NO_ERROR, node_offset).
End Dt.

Definition tegrabl_dt_get_fdt_handle {D H} (s : cbo D H) : Z * Z :=
  if cb_handle s =? NULL then (DT_ERR TEGRABL_ERR_NOT_INITIALIZED 0, NULL)
  else (TEGRABL_NO_ERROR, cb_handle s).

(** ** Boot options *)

Section Ops.
Context {D H : Type} {BD : BlockDriver D} {AL : Allocator H} {FD : Fdt}.
Implicit Types s : cbo D H.

(** [tegrabl_calloc] and [tegrabl_free]. *)
Definition cbo_calloc s (n : Z) : Z * cbo D H :=
  let '(p, h) := heap_malloc (heap (pw (cb_pm s))) n in
  (p, set_world s (set_heap (pw (cb_pm s)) h)).
Definition cbo_free s (p : Z) : res (cbo D H) :=
  let* w := tegrabl_free (pw (cb_pm s)) p in Ok (set_world s w).

Definition tegrabl_read_cbo s (part_name : option (list Z)) : res (Z * cbo D H) :=
  match part_name with
  | None => Ok (CBO_ERR TEGRABL_ERR_INVALID 0, s)
  | Some name =>
      let* (err, part) := tegrabl_partition_open (cb_pm s) (Some name) (Some zero_partition) in
      if negb (err =? TEGRABL_NO_ERROR) then Ok (err, s)
      else
        let '(cbo_buf, s) := cbo_calloc s CBO_DT_SIZE in
        if cbo_buf =? NULL then Ok (CBO_ERR TEGRABL_ERR_NO_MEMORY 0, s)
        else
          let* (err, data, _, m) := tegrabl_partition_read (cb_pm s) part cbo_buf CBO_DT_SIZE in
          let s := set_pm s m in
          if negb (err =? TEGRABL_NO_ERROR) then
            let* s := cbo_free s cbo_buf in Ok (err, s)
          else
            let content := splice 0 data (replicate (Z.to_nat CBO_DT_SIZE) 0) in
            Ok (TEGRABL_NO_ERROR, set_blob s cbo_buf (Some content))
  end.

(** The device a name stands for: the first one whose name it starts with. *)
Fixpoint find_device (devices : list (list Z * Z)) (name : list Z) : option Z :=
  match devices with
  | [] => None
  | (n, id) :: devices =>
      if strncmp_eq name n (zlen n) then Some id else find_device devices name
  end.

(** The array is cleared by [calloc], so a name that is not known leaves 0. *)
Definition device_code (name : list Z) : Z := default 0 (find_device g_boot_devices name).

Definition map_boot_priority s (boot_order : list (list Z)) : res (Z * cbo D H) :=
  let count := zlen boot_order in
  let '(boot_p, s) := cbo_calloc s (u32 (count + 1)) in
  if boot_p =? NULL then Ok (CBO_ERR TEGRABL_ERR_NO_MEMORY 1, s)
  else if u32 (count + 1) <? count + 1 then Stuck OutOfBounds
  else Ok (TEGRABL_NO_ERROR, set_order s boot_p ((device_code <$> boot_order) ++ [BOOT_DEFAULT])).

Fixpoint dt_strings (blob : list Z) (offs : list Z) : res (list (list Z)) :=
  match offs with
  | [] => Ok []
  | o :: offs =>
      let* x := dt_string blob o in
      let* xs := dt_strings blob offs in Ok (x :: xs)
  end.

(** [garbage] is what the local [count] holds before it is set. *)
Definition parse_boot_order s (garbage : Z) (fdt : list Z) (offset : Z) : res (Z * cbo D H) :=
  let* (err, _, num) := tegrabl_dt_get_prop_string_array fdt offset (str "boot-order") None in
  if negb (err =? TEGRABL_NO_ERROR) then Ok (err, s)
  else
    let count := default garbage num in
    let '(boot_order, s) := cbo_calloc s (u64 (8 * count)) in
    if boot_order =? NULL then Ok (CBO_ERR TEGRABL_ERR_NO_MEMORY 2, s)
    else
      let* (err, offs, num) := tegrabl_dt_get_prop_string_array fdt offset (str "boot-order") (Some count) in
      if negb (err =? TEGRABL_NO_ERROR) then
        let* s := cbo_free s boot_order in Ok (err, s)
      else
        let count := default count num in
        if zlen offs <? count then Stuck BadPointer
        else
          let* names := dt_strings fdt (take (Z.to_nat count) offs) in
          let* (err, s) := map_boot_priority s names in
          let* s := cbo_free s boot_order in
          Ok (err, s).

(** "all 3 ip's must be available else clear all" *)
Definition clear_static (info : list Z) : list Z :=
  splice IP_GATEWAY [0; 0; 0; 0] (splice IP_NETMASK [0; 0; 0; 0] (splice STATIC_IP [0; 0; 0; 0] info)).

(** The last error, and the fields. *)
Definition parse_static_ip (fdt : list Z) (offset : Z) (info : list Z) : res (Z * list Z) :=
  let* (err, info) := tegrabl_dt_get_prop_u8_array fdt offset (str "static-ip") STATIC_IP info in
  if negb (err =? TEGRABL_NO_ERROR) then Ok (err, info)
  else
    let* (err, info) := tegrabl_dt_get_prop_u8_array fdt offset (str "ip-netmask") IP_NETMASK info in
    if negb (err =? TEGRABL_NO_ERROR) then Ok (err, info)
    else tegrabl_dt_get_prop_u8_array fdt offset (str "ip-gateway") IP_GATEWAY info.

Definition parse_ip_info (fdt : list Z) (offset : Z) (info : list Z) : res (list Z) :=
  let* (err, info) := tegrabl_dt_get_prop_u8_array fdt offset (str "tftp-server-ip") TFTP_SERVER_IP info in
  let* (err, info) :=
    match fdt_getprop fdt offset (str "dhcp-enabled") with
    | Some _ => Ok (err, splice IS_DHCP_ENABLED [1] info)
    | None => parse_static_ip fdt offset (splice IS_DHCP_ENABLED [0] info)
    end in
  if negb (err =? TEGRABL_NO_ERROR) then Ok (clear_static info) else Ok info.

(** [guid_str_len] is a [uint8_t]. *)
Definition store_guid (guid info : list Z) : list Z :=
  if u8 (zlen guid) =? GUID_STR_LEN
  then splice BOOT_PT_GUID (take (Z.to_nat GUID_STR_LEN) guid ++ [0]) info
  else info.

Definition parse_boot_pt_guid (fdt : list Z) (offset : Z) (info : list Z) : res (list Z) :=
  match tegrabl_dt_get_prop_string fdt offset (str "boot_pt_guid") with
  | (_, Some o) => let* guid := dt_string fdt o in Ok (store_guid guid info)
  | (_, None) => Ok info
  end.

(** The part that needs the blob: the error, whether the default order is to be set, the blob to free. *)
Definition parse_cbo s (garbage : Z) : res (Z * bool * Z * cbo D H) :=
  let '(err, fdt) := tegrabl_dt_get_fdt_handle s in
  if negb (err =? TEGRABL_NO_ERROR) then Ok (err, true, NULL, s)
  else
    match cb_blob s with
    | None => Stuck BadPointer
    | Some blob =>
        let '(err, offset) := tegrabl_dt_get_node_with_path blob (str "/boot-configuration") in
        if negb (err =? TEGRABL_NO_ERROR) then Ok (err, true, fdt, s)
        else
          let* (err, s) := parse_boot_order s garbage blob offset in
          let* info := parse_ip_info blob offset (cb_info s) in
          let* info := parse_boot_pt_guid blob offset info in
          Ok (err, negb (err =? TEGRABL_NO_ERROR), fdt, set_info s info)
    end.

Definition tegrabl_cbo_parse_info s (garbage : Z) (is_cbo_read : bool) : res (Z * cbo D H) :=
  let s := set_info s (replicate (Z.to_nat sizeof_info) 0) in
  let* (err, set_default, fdt, s) :=
    if is_cbo_read then parse_cbo s garbage else Ok (TEGRABL_NO_ERROR, true, NULL, s) in
  let '(err, s) :=
    if set_default then
      let '(p, s) := cbo_calloc s NUM_SECONDARY_STORAGE_DEVICES in
      if p =? NULL then (CBO_ERR TEGRABL_ERR_NO_MEMORY 3, set_order s NULL [])
      else (err, set_order s p default_boot_order)
    else (err, s) in
  let* s := cbo_free s fdt in
  Ok (err, if fdt =? NULL then s else set_blob s (cb_handle s) None).

(** ** Changes by the shell *)

Definition tegrabl_clear_boot_order s : res (cbo D H) :=
  if cb_priority s =? NULL then Ok s
  else let* s := cbo_free s (cb_priority s) in Ok (set_order s NULL []).

Definition tegrabl_set_boot_order s (boot_order : list (list Z)) : res (cbo D H) :=
  let* s := tegrabl_clear_boot_order s in
  let* (_, s) := map_boot_priority s boot_order in
  Ok s.

(** The place of a network setting. *)
Definition ip_place (var_name : list Z) : option Z :=
  if strcmp_eq var_name (str "tftp-server-ip") then Some TFTP_SERVER_IP
  else if strcmp_eq var_name (str "static-ip") then Some STATIC_IP
  else if strcmp_eq var_name (str "ip-netmask") then Some IP_NETMASK
  else if strcmp_eq var_name (str "ip-gateway") then Some IP_GATEWAY
  else None.

Definition tegrabl_set_ip_info s (var_name ip : list Z) (is_dhcp_enabled : bool) : cbo D H :=
  if strcmp_eq var_name (str "dhcp-enabled")
  then set_info s (splice IS_DHCP_ENABLED [Z.b2z is_dhcp_enabled] (cb_info s))
  else
    match ip_place var_name with
    | Some place => set_info s (splice place (slice 0 4 ip) (cb_info s))
    | None => s
    end.

Definition tegrabl_clear_ip_info s (var_name : list Z) : cbo D H :=
  if strcmp_eq var_name (str "dhcp-enabled")
  then set_info s (splice IS_DHCP_ENABLED [0] (cb_info s))
  else
    match ip_place var_name with
    | Some place => set_info s (splice place [0; 0; 0; 0] (cb_info s))
    | None => s
    end.

Definition tegrabl_set_boot_pt_guid s (guid : list Z) : cbo D H := set_info s (store_guid guid (cb_info s)).

Definition tegrabl_clear_boot_pt_guid s : cbo D H :=
  set_info s (splice BOOT_PT_GUID (replicate (Z.to_nat GUID_STR_SIZE) 0) (cb_info s)).

(** ** Questions *)

Definition tegrabl_get_boot_order s : Z * list Z := (cb_priority s, cb_order s).

Definition tegrabl_get_ip_info s : list Z := slice 0 sizeof_ip_info (cb_info s).

Definition tegrabl_get_boot_pt_guid s : list Z * cbo D H :=
  let s :=
    if nth (Z.to_nat BOOT_PT_GUID) (cb_info s) 0 =? 0
    then set_info s (splice BOOT_PT_GUID (NVIDIA_BOOT_PARTITION_GUID ++ [0]) (cb_info s))
    else s in
  (slice BOOT_PT_GUID GUID_STR_SIZE (cb_info s), s).

Definition is_var_boot_cfg (var_name : list Z) : bool := existsb (strcmp_eq var_name) boot_cfg_vars.
End Ops.
