(* ===== verification/CboProps.v ===== *)
(** Boot options: what a configuration says is what the boot order, the network settings and the GUID
    become; and configurations that the code does not withstand. *)

From S2P Require Import Prelude TegraError BlockDev BlockDevFacts Models Gpt AbNaming PartitionManager Cbo.

(** ** The strings of a property *)

Definition encode_names (names : list (list Z)) : list Z := concat ((fun n => n ++ [0]) <$> names).

(** Where the names start. *)
Fixpoint offsets (pos : Z) (names : list (list Z)) : list Z :=
  match names with
  | [] => []
  | n :: names => pos :: offsets (pos + zlen n + 1) names
  end.

Lemma loop_name n l : nonzero n -> forall pos i cap acc num,
  string_loop (n ++ 0 :: l) pos i cap acc num = string_loop (0 :: l) (pos + zlen n) i cap acc num.
Proof.
  induction 1 as [|b n Hb Hn IH]; intros pos i cap acc num; [by rewrite Z.add_0_r|].
  cbn [app string_loop]. rewrite (proj2 (Z.eqb_neq b 0)) by done. rewrite IH.
  replace (zlen (b :: n)) with (1 + zlen n) by (unfold zlen; cbn; lia). by rewrite Z.add_assoc.
Qed.

Lemma encode_cons n names : encode_names (n :: names) = n ++ 0 :: encode_names names.
Proof. unfold encode_names. cbn. by rewrite <- app_assoc. Qed.

Lemma encode_nil_iff names : encode_names names = [] <-> names = [].
Proof. destruct names as [|n names]; [done|]. rewrite encode_cons. split; [by destruct n|done]. Qed.

Lemma count_names names : Forall nonzero names -> forall pos i num, 0 <= i -> i + zlen names < 2 ^ 32 ->
  string_loop (encode_names names) pos i None [] num = Ok ([], if names is [] then num else Some (i + zlen names)).
Proof.
  induction 1 as [|n names Hn Hs IH]; intros pos i num Hi Hl; [done|].
  assert (Hz : zlen (n :: names) = 1 + zlen names) by (unfold zlen; cbn; lia). rewrite Hz in Hl |- *. pose proof (zlen_nonneg names).
  rewrite encode_cons, loop_name by done. cbn [string_loop Z.eqb]. rewrite (u32_small (i + 1)) by lia.
  replace (i + (1 + zlen names)) with (i + 1 + zlen names) by lia.
  destruct names; [by rewrite Z.add_0_r|]. rewrite IH by lia. done.
Qed.

Lemma find_names n names : nonzero n -> Forall nonzero names -> forall pos i c acc num, 0 <= i -> c < 2 ^ 32 ->
  i + 1 + zlen names <= c ->
  string_loop (encode_names (n :: names)) pos i (Some c) acc num =
    Ok (acc ++ tail (offsets pos (n :: names)), Some (i + 1 + zlen names)).
Proof.
  intros Hn Hs. revert n Hn. induction Hs as [|n' names Hn' Hs IH]; intros n Hn pos i c acc num Hi Hc Hl.
  - rewrite encode_cons, loop_name by done. change (zlen []) with 0 in *. cbn. rewrite u32_small by lia. rewrite app_nil_r. do 3 f_equal. lia.
  - assert (Hz : zlen (n' :: names) = 1 + zlen names) by (unfold zlen; cbn; lia). rewrite Hz in Hl |- *. pose proof (zlen_nonneg names).
    rewrite encode_cons, loop_name by done. cbn [string_loop Z.eqb]. rewrite (u32_small (i + 1)) by lia.
    assert (exists b l, encode_names (n' :: names) = b :: l) as (b & l & E).
    { destruct (encode_names (n' :: names)) eqn:E; [by apply encode_nil_iff in E|eauto]. }
    rewrite E. rewrite (proj2 (Z.ltb_lt (i + 1) c)) by lia. rewrite <- E, IH by (done || lia).
    rewrite <- app_assoc. cbn [offsets tail app]. do 3 f_equal. lia.
Qed.

(** A string read at the place of a name is the name. *)
Lemma names_read blob names : Forall nonzero names -> forall pos, 0 <= pos -> pos + zlen (encode_names names) <= zlen blob ->
  slice pos (zlen (encode_names names)) blob = encode_names names -> dt_strings blob (offsets pos names) = Ok names.
Proof.
  induction 1 as [|n names Hn Hs IH]; intros pos Hp Hl E; [done|]. rewrite encode_cons in *.
  assert (Hz : zlen (n ++ 0 :: encode_names names) = zlen n + 1 + zlen (encode_names names)) by (rewrite zlen_app; unfold zlen; cbn; lia).
  rewrite Hz in Hl, E. pose proof (zlen_nonneg n). pose proof (zlen_nonneg (encode_names names)).
  assert (Hd : drop (Z.to_nat pos) blob = n ++ 0 :: encode_names names ++ drop (Z.to_nat (pos + (zlen n + 1 + zlen (encode_names names)))) blob).
  { rewrite <- (take_drop (Z.to_nat (zlen n + 1 + zlen (encode_names names))) (drop (Z.to_nat pos) blob)). rewrite drop_drop_Z by lia.
    change (take _ (drop (Z.to_nat pos) blob)) with (slice pos (zlen n + 1 + zlen (encode_names names)) blob). rewrite E.
    by rewrite <- app_assoc. }
  cbn [offsets dt_strings]. unfold dt_string. rewrite Hd, bool_decide_true by (apply elem_of_app; right; by left). rewrite cstr_app_0 by done.
  cbn [res_bind]. rewrite IH; [done|lia|lia|].
  replace (pos + zlen n + 1) with (pos + (zlen n + 1)) by lia.
  rewrite <- (slice_slice pos (zlen n + 1 + zlen (encode_names names))) by lia. rewrite E.
  unfold slice. rewrite drop_app_ge by (unfold zlen; lia). replace (Z.to_nat (zlen n + 1) - length n)%nat with 1%nat by (unfold zlen; lia).
  cbn [drop]. apply take_ge. unfold zlen. lia.
Qed.

(** ** What a configuration says *)

Record config := mkConfig {
  cf_order : list (list Z); cf_tftp : option (list Z); cf_dhcp : bool;
  cf_static : option (list Z); cf_netmask : option (list Z); cf_gateway : option (list Z);
  cf_guid : option (list Z)
}.

Definition no_ip : list Z := [0; 0; 0; 0].

(** With DHCP, or if one of the three is missing, there are no static settings. *)
Definition cf_static_bytes (c : config) : list Z :=
  match cf_dhcp c, cf_static c, cf_netmask c, cf_gateway c with
  | false, Some ip, Some mask, Some gw => ip ++ mask ++ gw
  | _, _, _, _ => no_ip ++ no_ip ++ no_ip
  end.

Definition cf_ip_bytes (c : config) : list Z :=
  Z.b2z (cf_dhcp c) :: cf_static_bytes c ++ default no_ip (cf_tftp c).

Definition cf_guid_bytes (c : config) : list Z := default (replicate 36 0) (cf_guid c) ++ [0].

Definition ip_ok (ip : option (list Z)) : Prop := if ip is Some l then length l = 4%nat else True.

Record config_ok (c : config) : Prop := {
  co_order : cf_order c <> [];
  co_names : Forall nonzero (cf_order c);
  co_count : zlen (cf_order c) < 2 ^ 31;
  co_ips : Forall ip_ok [cf_tftp c; cf_static c; cf_netmask c; cf_gateway c];
  co_guid : forall g, cf_guid c = Some g -> nonzero g /\ zlen g = GUID_STR_LEN
}.

Lemma ip_bytes_length c : config_ok c -> zlen (cf_ip_bytes c) = 17.
Proof.
  intros C. pose proof (co_ips c C) as HI. rewrite !Forall_cons in HI. destruct HI as (I1 & I2 & I3 & I4 & _).
  unfold cf_ip_bytes, cf_static_bytes, zlen. cbn [length]. rewrite length_app.
  assert (length (default no_ip (cf_tftp c)) = 4%nat) as -> by (destruct (cf_tftp c); done).
  destruct (cf_dhcp c); [done|]. destruct (cf_static c), (cf_netmask c), (cf_gateway c); cbn in I2, I3, I4; rewrite ?length_app, ?I2, ?I3, ?I4; done.
Qed.

Section Blob.
Context {FD : Fdt} (blob : list Z) (node : Z).

(** The node has the property with these bytes; the node has it or not. *)
Definition has_prop (name bs : list Z) : Prop :=
  exists off, fdt_getprop blob node name = Some (off, zlen bs) /\ 0 <= off /\ off + zlen bs <= zlen blob /\
    slice off (zlen bs) blob = bs.
Definition opt_prop (name : list Z) (v : option (list Z)) : Prop :=
  if v is Some bs then has_prop name bs else fdt_getprop blob node name = None.

(** The node holds the configuration. *)
Record describes (c : config) : Prop := {
  de_order : has_prop (str "boot-order") (encode_names (cf_order c));
  de_tftp : opt_prop (str "tftp-server-ip") (cf_tftp c);
  de_dhcp : cf_dhcp c = bool_decide (fdt_getprop blob node (str "dhcp-enabled") <> None);
  de_static : opt_prop (str "static-ip") (cf_static c);
  de_netmask : opt_prop (str "ip-netmask") (cf_netmask c);
  de_gateway : opt_prop (str "ip-gateway") (cf_gateway c);
  de_guid : opt_prop (str "boot_pt_guid") ((fun g => g ++ [0]) <$> cf_guid c)
}.

Lemma has_bytes off bs : 0 <= off -> off + zlen bs <= zlen blob -> slice off (zlen bs) blob = bs ->
  dt_bytes blob off (zlen bs) = Ok bs.
Proof. intros Ho Hl E. unfold dt_bytes. rewrite (proj2 (Z.leb_le 0 off)), (proj2 (Z.leb_le _ _)) by lia. by rewrite E. Qed.

Lemma u8_array_spec name v place info : opt_prop name v -> ip_ok v -> 0 <= place -> place + 4 <= zlen info ->
  tegrabl_dt_get_prop_u8_array blob node name place info =
    Ok (if v is Some bs then (TEGRABL_NO_ERROR, splice place bs info) else (TEGRABL_ERR_NOT_FOUND, info)).
Proof.
  intros Hv Hi Hp Hl. unfold tegrabl_dt_get_prop_u8_array. destruct v as [bs|]; cbn in Hv, Hi.
  - destruct Hv as (off & -> & H0 & H1 & E). rewrite has_bytes by done. cbn [res_bind].
    rewrite store_at_ok by (unfold zlen in *; lia). done.
  - by rewrite Hv.
Qed.

Lemma ip_cases (v : option (list Z)) : ip_ok v -> v = None \/ exists a b c d, v = Some [a; b; c; d].
Proof.
  intros Hv. destruct v as [l|]; [right|by left]. cbn in Hv. destruct l as [|a [|b [|c [|d [|]]]]]; try done. by exists a, b, c, d.
Qed.

Lemma parse_ip_info_spec c : config_ok c -> describes c ->
  parse_ip_info blob node (replicate 54 0) = Ok (cf_ip_bytes c ++ replicate 37 0).
Proof.
  intros C D. pose proof (co_ips c C) as HI. rewrite !Forall_cons in HI. destruct HI as (I1 & I2 & I3 & I4 & _).
  unfold parse_ip_info, parse_static_ip, cf_ip_bytes, cf_static_bytes. rewrite (de_dhcp c D).
  rewrite (u8_array_spec _ (cf_tftp c)) by first [apply D | done].
  assert (Hn : exists l, l = (if cf_tftp c is Some bs then (TEGRABL_NO_ERROR, splice TFTP_SERVER_IP bs (replicate 54 0))
      else (TEGRABL_ERR_NOT_FOUND, replicate 54 0)) /\ l.2 = replicate 13 0 ++ default no_ip (cf_tftp c) ++ replicate 37 0 /\
      length (default no_ip (cf_tftp c)) = 4%nat).
  { destruct (ip_cases (cf_tftp c) I1) as [-> | (a & b & x & d & ->)]; eexists; done. }
  destruct Hn as ([err info] & <- & Hi & Hl). cbn [snd] in Hi. subst info. cbn [res_bind].
  destruct (ip_cases (Some (default no_ip (cf_tftp c)))) as [? | (a & b & x & d & [= E])]; [done|done|]. rewrite E. clear E Hl.
  destruct (fdt_getprop blob node (str "dhcp-enabled")); [rewrite bool_decide_true by done|rewrite bool_decide_false by auto].
  - cbn [res_bind]. destruct (err =? TEGRABL_NO_ERROR); done.
  - rewrite (u8_array_spec _ (cf_static c)) by first [apply D | done].
    destruct (ip_cases (cf_static c) I2) as [-> | (a1 & a2 & a3 & a4 & ->)]; [done|]. cbn [res_bind negb].
    change (TEGRABL_NO_ERROR =? TEGRABL_NO_ERROR) with true. cbn [negb].
    rewrite (u8_array_spec _ (cf_netmask c)) by first [apply D | done].
    destruct (ip_cases (cf_netmask c) I3) as [-> | (b1 & b2 & b3 & b4 & ->)]; [done|]. cbn [res_bind negb].
    change (TEGRABL_NO_ERROR =? TEGRABL_NO_ERROR) with true. cbn [negb].
    rewrite (u8_array_spec _ (cf_gateway c)) by first [apply D | done].
    destruct (ip_cases (cf_gateway c) I4) as [-> | (c1 & c2 & c3 & c4 & ->)]; done.
Qed.

Lemma string_at off s l : slice off (zlen (s ++ 0 :: l)) blob = s ++ 0 :: l -> nonzero s -> dt_string blob off = Ok s.
Proof.
  intros E Hs. unfold dt_string. unfold slice in E. set (rest := drop (Z.to_nat off) blob) in *.
  rewrite <- (take_drop (Z.to_nat (zlen (s ++ 0 :: l))) rest), E, <- app_assoc. cbn [app].
  rewrite bool_decide_true by (apply elem_of_app; right; by left). by rewrite cstr_app_0.
Qed.

Lemma parse_guid_spec c ip : config_ok c -> describes c -> zlen ip = 17 ->
  parse_boot_pt_guid blob node (ip ++ replicate 37 0) = Ok (ip ++ cf_guid_bytes c).
Proof.
  intros C D Hi. unfold parse_boot_pt_guid, tegrabl_dt_get_prop_string, cf_guid_bytes. pose proof (de_guid c D) as Hg.
  destruct (cf_guid c) as [g|] eqn:E; cbn [opt_prop fmap option_fmap option_map] in Hg; [|by rewrite Hg].
  destruct (co_guid c C g E) as [Hn Hl]. destruct Hg as (off & -> & H0 & H1 & Hs). rewrite (string_at off g []) by done.
  cbn [res_bind from_option id]. unfold store_guid. rewrite Hl. change (u8 GUID_STR_LEN =? GUID_STR_LEN) with true. cbn [negb].
  rewrite take_ge by (unfold zlen, GUID_STR_LEN in *; lia). f_equal. unfold splice.
  assert (Hc : length (g ++ [0]) = 37%nat) by (rewrite length_app; unfold zlen, GUID_STR_LEN in *; cbn; lia).
  rewrite take_app_length' by (unfold zlen, BOOT_PT_GUID in *; lia). f_equal. rewrite drop_ge; [by rewrite app_nil_r|].
  rewrite Hc, length_app, length_replicate. unfold zlen, BOOT_PT_GUID in *. lia.
Qed.
End Blob.

(** ** The boot order *)

Section Order.
Context {D H : Type} {BD : BlockDriver D} {AL : Allocator H} {AW : AllocatorLaws H} {FD : Fdt}.
Implicit Types (s : cbo D H) (h : H).

Definition cheap s : H := heap (pw (cb_pm s)).
Definition with_heap s h : cbo D H := set_world s (set_heap (pw (cb_pm s)) h).

Lemma calloc_ok s n r : heap_room (cheap s) r -> 0 < n -> alloc_cost 8 n <= r ->
  exists p h, cbo_calloc s n = (p, with_heap s h) /\ p <> NULL /\ heap_live h p /\ heap_room h (r - alloc_cost 8 n) /\ (forall q, heap_live (cheap s) q -> q <> p /\ heap_live h q).
Proof.
  intros Hr Hn Hc. destruct (malloc_granted (cheap s) n r Hr Hn Hc) as (p & h & E & Hp & _ & Hl & Hf & Hr' & Hk).
  exists p, h. unfold cbo_calloc, cheap in *. rewrite E. split; [done|]. split; [unfold NULL; lia|]. split; [done|]. split; [done|].
  intros q Hq. split; [by intros ->|auto].
Qed.

Lemma free_ok s p r : heap_room (cheap s) r -> heap_live (cheap s) p ->
  exists h, cbo_free s p = Ok (with_heap s h) /\ heap_room h r /\ (forall q, q <> p -> heap_live (cheap s) q -> heap_live h q).
Proof.
  intros Hr Hp. unfold cbo_free, tegrabl_free. destruct (p =? NULL).
  - exists (cheap s). split; [|done]. by destruct s as [[[] ?] ? ? ? ? ?].
  - destruct (dealloc_accepted (cheap s) TEGRABL_HEAP_DEFAULT p r Hp Hr) as (h & E & Hr' & Hk). unfold cheap in E. rewrite E. by exists h.
Qed.

Lemma order_counted blob node name names : has_prop blob node name (encode_names names) -> Forall nonzero names -> names <> [] ->
  zlen names < 2 ^ 32 ->
  tegrabl_dt_get_prop_string_array blob node name None = Ok (TEGRABL_NO_ERROR, [], Some (zlen names)).
Proof.
  intros (off & E & H0 & H1 & Hs) Hn Hne Hl. unfold tegrabl_dt_get_prop_string_array. rewrite E, has_bytes by done. cbn [res_bind].
  rewrite count_names by (done || lia). by destruct names.
Qed.

Lemma offsets_length names : forall off, zlen (offsets off names) = zlen names.
Proof.
  intros off. unfold zlen. f_equal. revert off. induction names as [|x l IH]; intros off; cbn; [done|]. by rewrite IH.
Qed.

Lemma order_found blob node name names : has_prop blob node name (encode_names names) -> Forall nonzero names -> names <> [] ->
  zlen names < 2 ^ 32 -> exists offs, zlen offs = zlen names /\ dt_strings blob offs = Ok names /\
  tegrabl_dt_get_prop_string_array blob node name (Some (zlen names)) = Ok (TEGRABL_NO_ERROR, offs, Some (zlen names)).
Proof.
  intros (off & E & H0 & H1 & Hs) Hn Hne Hl. destruct names as [|n names]; [done|]. exists (offsets off (n :: names)).
  assert (Hz : zlen (n :: names) = 1 + zlen names) by (unfold zlen; cbn; lia). pose proof (zlen_nonneg names).
  split; [|split].
  - apply offsets_length.
  - by apply names_read.
  - unfold tegrabl_dt_get_prop_string_array. rewrite E, has_bytes by done. cbn [res_bind].
    rewrite (proj2 (Z.leb_gt _ _)) by lia. apply Forall_cons in Hn as [Hn1 Hn2]. rewrite find_names by (done || lia). rewrite Hz. done.
Qed.

Definition order_of (names : list (list Z)) : list Z := (device_code <$> names) ++ [BOOT_DEFAULT].

Lemma map_boot_priority_ok s names r : heap_room (cheap s) r -> zlen names + 1 < 2 ^ 32 -> alloc_cost 8 (zlen names + 1) <= r ->
  exists p h, map_boot_priority s names = Ok (TEGRABL_NO_ERROR, set_order (with_heap s h) p (order_of names)) /\ p <> NULL /\
    heap_live h p /\ heap_room h (r - alloc_cost 8 (zlen names + 1)) /\ (forall q, heap_live (cheap s) q -> q <> p /\ heap_live h q).
Proof.
  intros Hr Hl Hc. pose proof (zlen_nonneg names). unfold map_boot_priority. rewrite (u32_small (zlen names + 1)) by lia.
  destruct (calloc_ok s (zlen names + 1) r Hr ltac:(lia) Hc) as (p & h & E & Hp & Hrest). rewrite E.
  rewrite (proj2 (Z.eqb_neq p NULL)) by done. rewrite Z.ltb_irrefl. by exists p, h.
Qed.

Definition order_cost (c : config) : Z := alloc_cost 8 (8 * zlen (cf_order c)) + alloc_cost 8 (zlen (cf_order c) + 1).

Lemma parse_boot_order_ok s garbage blob node c r : config_ok c -> describes blob node c -> heap_room (cheap s) r -> order_cost c <= r ->
  exists p h, parse_boot_order s garbage blob node = Ok (TEGRABL_NO_ERROR, set_order (with_heap s h) p (order_of (cf_order c))) /\
    p <> NULL /\ heap_live h p /\ heap_room h (r - order_cost c) /\ (forall q, heap_live (cheap s) q -> q <> p /\ heap_live h q).
Proof.
  intros C De Hr Hc. pose proof (co_count c C) as Hl. pose proof (zlen_nonneg (cf_order c)) as Hn. unfold order_cost in *.
  assert (Hpos : 0 < zlen (cf_order c)) by (pose proof (co_order c C); unfold zlen; destruct (cf_order c); [done|cbn; lia]).
  unfold parse_boot_order. rewrite (order_counted _ _ _ (cf_order c)) by first [apply De | apply C | lia]. cbn [res_bind].
  change (TEGRABL_NO_ERROR =? TEGRABL_NO_ERROR) with true. cbn [negb from_option id]. rewrite u64_small by lia.
  destruct (calloc_ok s (8 * zlen (cf_order c)) r Hr) as (p1 & h1 & E1 & Hp1 & Hl1 & Hr1 & Hk1); [lia|unfold alloc_cost in *; lia|].
  rewrite E1, (proj2 (Z.eqb_neq p1 NULL)) by done.
  destruct (order_found blob node (str "boot-order") (cf_order c)) as (offs & Ho & Hs & Ef); [apply De|apply C|apply C|lia|].
  rewrite Ef. cbn [res_bind]. change (TEGRABL_NO_ERROR =? TEGRABL_NO_ERROR) with true. cbn [negb from_option id].
  rewrite Ho, Z.ltb_irrefl, take_ge, Hs by (unfold zlen in *; lia). cbn [res_bind].
  destruct (map_boot_priority_ok (with_heap s h1) (cf_order c) _ Hr1) as (p & h & Em & Hp & Hlp & Hrp & Hk); [lia|lia|]. rewrite Em. cbn [res_bind].
  destruct (free_ok (set_order (with_heap (with_heap s h1) h) p (order_of (cf_order c))) p1 _ Hrp) as (h2 & E2 & Hr2 & Hk2); [by apply Hk|].
  rewrite E2. exists p, h2. split; [done|]. split; [done|]. split; [apply Hk2; [|done]; by apply not_eq_sym, Hk|].
  split; [eapply heap_room_weaken; [exact Hr2|lia]|]. intros q Hq. destruct (Hk1 q Hq) as [Hq1 Hq2]. destruct (Hk q Hq2) as [Hq3 Hq4].
  split; [done|]. by apply Hk2.
Qed.

(** C29: what the configuration says is what is set.  Reading a well formed configuration out of the blob succeeds and leaves
    the boot order of its device names, ended by [BOOT_DEFAULT], the DHCP flag, the server, the static
    addresses if all three are given and DHCP is off, and otherwise none of them, and the GUID or
    an empty one; the memory of the blob and of the list of names is given back. *)
Theorem cbo_parse s garbage blob node c r : cb_handle s <> NULL -> cb_blob s = Some blob ->
  fdt_path_offset blob (str "/boot-configuration") = node -> 0 <= node -> config_ok c -> describes blob node c ->
  heap_room (cheap s) r -> heap_live (cheap s) (cb_handle s) -> order_cost c <= r ->
  exists p s', tegrabl_cbo_parse_info s garbage true = Ok (TEGRABL_NO_ERROR, s') /\ p <> NULL /\ heap_live (cheap s') p /\
    tegrabl_get_boot_order s' = (p, order_of (cf_order c)) /\ tegrabl_get_ip_info s' = cf_ip_bytes c /\
    cb_info s' = cf_ip_bytes c ++ cf_guid_bytes c /\ cb_blob s' = None /\ heap_room (cheap s') (r - order_cost c).
Proof.
  intros Hh Hb Hn H0 C De Hr Hl Hc. unfold tegrabl_cbo_parse_info, parse_cbo, tegrabl_dt_get_fdt_handle. cbn [cb_handle set_info cb_blob].
  rewrite (proj2 (Z.eqb_neq (cb_handle s) NULL)), Hb by done. change (TEGRABL_NO_ERROR =? TEGRABL_NO_ERROR) with true. cbn [negb].
  unfold tegrabl_dt_get_node_with_path. rewrite Hn, (proj2 (Z.ltb_ge node 0)) by done. change (TEGRABL_NO_ERROR =? TEGRABL_NO_ERROR) with true. cbn [negb].
  destruct (parse_boot_order_ok (set_info s (replicate (Z.to_nat sizeof_info) 0)) garbage blob node c r C De Hr Hc) as (p & h & E & Hp & Hlp & Hrp & Hk).
  rewrite E. cbn [res_bind cb_info set_order with_heap set_world set_info]. change (Z.to_nat sizeof_info) with 54%nat.
  rewrite (parse_ip_info_spec blob node c) by done. cbn [res_bind].
  pose proof (ip_bytes_length c C) as Hz.
  rewrite (parse_guid_spec blob node c) by done. cbn [res_bind]. change (TEGRABL_NO_ERROR =? TEGRABL_NO_ERROR) with true. cbn [negb res_bind].
  match goal with |- context [cbo_free ?s ?q] => destruct (free_ok s q (r - order_cost c)) as (h2 & E2 & Hr2 & Hk2) end;
    [done|by apply Hk|]. rewrite E2. cbn [res_bind]. rewrite (proj2 (Z.eqb_neq (cb_handle s) NULL)) by done.
  exists p. eexists. split; [done|]. split; [done|]. split; [|repeat split; try done].
  - apply Hk2; [|done]. by apply not_eq_sym, Hk.
  - unfold tegrabl_get_ip_info. cbn [cb_info set_blob with_heap set_world set_info set_order].
    unfold slice. rewrite drop_0. apply take_app_length'. unfold zlen in Hz. unfold sizeof_ip_info. lia.
Qed.
End Order.
