(* ===== verification/CboEdge.v ===== *)
(** Boot options: changes by the shell, configurations the code does not withstand, and an
    example configuration. *)

From S2P Require Import Prelude TegraError BlockDev BlockDevFacts Models Gpt AbNaming PartitionManager Cbo CboProps.

(** ** Changes by the shell *)

(** A network setting, or the DHCP flag, or the GUID: place and length. *)
Inductive setting := SDhcp | SStatic | SNetmask | SGateway | STftp | SGuid.

#[export] Instance setting_eq : EqDecision setting.
Proof. solve_decision. Defined.

Definition set_name (x : setting) : list Z :=
  match x with
  | SDhcp => str "dhcp-enabled" | SStatic => str "static-ip" | SNetmask => str "ip-netmask"
  | SGateway => str "ip-gateway" | STftp => str "tftp-server-ip" | SGuid => str "boot_pt_guid"
  end.

Definition set_place (x : setting) : Z * Z :=
  match x with
  | SDhcp => (IS_DHCP_ENABLED, 1) | SStatic => (STATIC_IP, 4) | SNetmask => (IP_NETMASK, 4)
  | SGateway => (IP_GATEWAY, 4) | STftp => (TFTP_SERVER_IP, 4) | SGuid => (BOOT_PT_GUID, GUID_STR_SIZE)
  end.

Ltac place_lia :=
  cbv [set_place fst snd IS_DHCP_ENABLED STATIC_IP IP_NETMASK IP_GATEWAY TFTP_SERVER_IP BOOT_PT_GUID GUID_STR_SIZE sizeof_info] in *; (done || lia).

Section Shell.
Context {D H : Type}.
Implicit Types s : cbo D H.

Definition value_of s (x : setting) : list Z := slice (set_place x).1 (set_place x).2 (cb_info s).

(** The call of the shell for a setting. *)
Definition change s (x : setting) (v : list Z) : cbo D H :=
  match x with
  | SGuid => tegrabl_set_boot_pt_guid s v
  | SDhcp => tegrabl_set_ip_info s (set_name x) [] (bool_decide (v = [1]))
  | _ => tegrabl_set_ip_info s (set_name x) v false
  end.
Definition clear s (x : setting) : cbo D H :=
  if x is SGuid then tegrabl_clear_boot_pt_guid s else tegrabl_clear_ip_info s (set_name x).

(** What may be given for a setting, and how it is stored. *)
Definition value_ok (x : setting) (v : list Z) : Prop :=
  match x with
  | SDhcp => v = [0] \/ v = [1]
  | SGuid => zlen v = GUID_STR_LEN
  | _ => zlen v = 4
  end.
Definition stored (x : setting) (v : list Z) : list Z := if x is SGuid then v ++ [0] else v.

Lemma change_splice s x v : value_ok x v -> change s x v = set_info s (splice (set_place x).1 (stored x v) (cb_info s)).
Proof.
  intros Hv. destruct x; cbn [value_ok stored change set_place fst] in *.
  1: by destruct Hv as [-> | ->].
  1-4: unfold change, tegrabl_set_ip_info; rewrite <- Hv, slice_all; reflexivity.
  unfold tegrabl_set_boot_pt_guid, store_guid. rewrite Hv. change (u8 GUID_STR_LEN =? GUID_STR_LEN) with true. cbv iota.
  rewrite take_ge by (unfold zlen, GUID_STR_LEN in *; lia). done.
Qed.

Lemma clear_splice s x : clear s x = set_info s (splice (set_place x).1 (replicate (Z.to_nat (set_place x).2) 0) (cb_info s)).
Proof. by destruct x. Qed.

Lemma info_splice s x v y : zlen (cb_info s) = sizeof_info -> zlen v = (set_place x).2 ->
  value_of (set_info s (splice (set_place x).1 v (cb_info s))) y = if decide (x = y) then v else value_of s y.
Proof.
  intros Hl Hv. unfold value_of. cbn [cb_info set_info].
  assert (Hb : 0 <= (set_place x).1 /\ (set_place x).1 + (set_place x).2 <= sizeof_info) by (destruct x; place_lia).
  case_decide as E.
  - subst y. rewrite <- Hv at 1. apply slice_splice_same; lia.
  - apply slice_splice_other; [lia|lia|destruct y; place_lia|destruct y; place_lia|]. rewrite Hv. destruct x, y; place_lia.
Qed.

Lemma stored_length x v : value_ok x v -> zlen (stored x v) = (set_place x).2.
Proof. destruct x; cbn; try done; [by intros [-> | ->]|]. intros Hv. rewrite zlen_app, Hv. done. Qed.

(** A change of one setting is that change.  After a setting was given a value of its size it has this value; after it was
    cleared it is zero; the other settings and the boot order are as before. *)
Theorem settings_independent s x v y : zlen (cb_info s) = sizeof_info -> value_ok x v ->
  value_of (change s x v) y = (if decide (x = y) then stored x v else value_of s y) /\
  value_of (clear s x) y = (if decide (x = y) then replicate (Z.to_nat (set_place x).2) 0 else value_of s y) /\
  tegrabl_get_boot_order (change s x v) = tegrabl_get_boot_order s /\ tegrabl_get_boot_order (clear s x) = tegrabl_get_boot_order s.
Proof.
  intros Hl Hv. rewrite change_splice, clear_splice by done.
  rewrite !info_splice by (done || by apply stored_length || by destruct x). done.
Qed.
End Shell.

Lemma settings_independent_witness : exists s : cbo unit unit,
  value_of (change s STftp [10; 0; 0; 5]) STftp = [10; 0; 0; 5] /\ value_of (change s STftp [10; 0; 0; 5]) SGuid = replicate 37 0.
Proof.
  set (s := mkCbo (mkPstate (mkWorld None ∅ 0 tt) None ∅) NULL None NULL [] (replicate 54 0) : cbo unit unit). exists s.
  split; [apply (settings_independent s STftp [10; 0; 0; 5] STftp); done|].
  by destruct (settings_independent s STftp [10; 0; 0; 5] SGuid) as [-> _].
Defined.

(** ** Configurations the code does not withstand *)

Section Edge.
Context {D H : Type} {BD : BlockDriver D} {AL : Allocator H} {FD : Fdt}.
Implicit Types s : cbo D H.

(** Lengths are not checked.  An address property that is longer than four bytes is stored whole: the server's
    address reaches into the GUID behind it, and from 42 bytes on behind the whole of the settings. *)
Theorem long_address_overruns blob node bs info : has_prop blob node (str "tftp-server-ip") bs -> zlen info = sizeof_info ->
  (zlen bs <= 41 -> exists info', tegrabl_dt_get_prop_u8_array blob node (str "tftp-server-ip") TFTP_SERVER_IP info =
      Ok (TEGRABL_NO_ERROR, info') /\ (4 <= zlen bs -> slice BOOT_PT_GUID (zlen bs - 4) info' = drop 4 bs)) /\
  (41 < zlen bs -> parse_ip_info blob node info = Stuck OutOfBounds).
Proof.
  intros (off & E & H0 & H1 & Hs) Hl. unfold parse_ip_info, tegrabl_dt_get_prop_u8_array. rewrite E, has_bytes by done. cbn [res_bind].
  split; intros Hb.
  - rewrite store_at_ok by place_lia. cbn [res_bind]. eexists. split; [done|]. intros H4.
    assert (Hx : drop 4 bs = slice 4 (zlen bs - 4) (slice TFTP_SERVER_IP (zlen bs) (splice TFTP_SERVER_IP bs info))).
    { rewrite slice_splice_same by place_lia. unfold slice. rewrite take_ge; [done|]. rewrite length_drop. unfold zlen. lia. }
    rewrite Hx, slice_slice by place_lia. done.
  - unfold store_at. rewrite (proj2 (Z.leb_gt (TFTP_SERVER_IP + _) _)) by place_lia. by rewrite andb_false_r.
Qed.

Lemma loop_tail l : nonzero l -> forall pos i cap acc num, string_loop l pos i cap acc num = Ok (acc, num).
Proof.
  induction 1 as [|b l Hb Hl IH]; intros pos i cap acc num; [done|]. cbn [string_loop].
  by rewrite (proj2 (Z.eqb_neq b 0)) by done.
Qed.

Lemma count_open names last : nonzero last -> Forall nonzero names -> forall pos i num, 0 <= i -> i + zlen names < 2 ^ 32 ->
  string_loop (encode_names names ++ last) pos i None [] num = Ok ([], if names is [] then num else Some (i + zlen names)).
Proof.
  intros Hla. induction 1 as [|n names Hn Hs IH]; intros pos i num Hi Hl; [by apply loop_tail|].
  assert (Hz : zlen (n :: names) = 1 + zlen names) by (unfold zlen; cbn; lia). rewrite Hz in Hl |- *. pose proof (zlen_nonneg names).
  rewrite encode_cons, <- app_assoc. cbn [app]. rewrite loop_name by done. cbn [string_loop Z.eqb]. rewrite (u32_small (i + 1)) by lia.
  rewrite IH by lia. rewrite Z.add_assoc. destruct names; [by rewrite Z.add_0_r|done].
Qed.

Lemma find_open n names last : nonzero n -> Forall nonzero names -> last <> [] -> forall pos i acc num, 0 <= i -> i + 1 + zlen names < 2 ^ 32 ->
  string_loop (encode_names (n :: names) ++ last) pos i (Some (i + 1 + zlen names)) acc num = Stuck OutOfBounds.
Proof.
  intros Hn Hs Hla. revert n Hn. induction Hs as [|n' names Hn' Hs IH]; intros n Hn pos i acc num Hi Hl.
  - rewrite encode_cons, <- app_assoc. cbn [app]. rewrite loop_name by done. change (zlen []) with 0 in *.
    cbn [string_loop Z.eqb]. rewrite u32_small by lia. destruct last as [|b last]; [done|]. cbn.
    by rewrite (proj2 (Z.ltb_ge (i + 1) (i + 1 + 0))) by lia.
  - assert (Hz : zlen (n' :: names) = 1 + zlen names) by (unfold zlen; cbn; lia). rewrite Hz in Hl |- *. pose proof (zlen_nonneg names).
    rewrite encode_cons, <- app_assoc. cbn [app]. rewrite loop_name by done. cbn [string_loop Z.eqb]. rewrite (u32_small (i + 1)) by lia.
    assert (exists b l, encode_names (n' :: names) ++ last = b :: l) as (b & l & E).
    { destruct (encode_names (n' :: names) ++ last) eqn:E; [by apply app_nil in E as [_ ?]|eauto]. }
    rewrite E, (proj2 (Z.ltb_lt (i + 1) _)) by lia. rewrite <- E, Z.add_assoc. apply IH; (done || lia).
Qed.

(** A list of devices whose last name is not ended by a zero is counted one too short, and the last name is stored behind
    the array. *)
Theorem open_order_overruns {AW : AllocatorLaws H} s garbage blob node n names last r :
  has_prop blob node (str "boot-order") (encode_names (n :: names) ++ last) ->
  Forall nonzero (n :: names) -> nonzero last -> last <> [] -> zlen names < 2 ^ 31 ->
  heap_room (cheap s) r -> alloc_cost 8 (8 * (1 + zlen names)) <= r ->
  parse_boot_order s garbage blob node = Stuck OutOfBounds.
Proof.
  intros (off & E & H0 & H1 & Hs) Hn Hla Hne Hl Hr Hc. unfold parse_boot_order, tegrabl_dt_get_prop_string_array.
  assert (Hz : zlen (n :: names) = 1 + zlen names) by (unfold zlen; cbn; lia). pose proof (zlen_nonneg names).
  rewrite E, has_bytes by done. cbn [res_bind]. rewrite count_open by (done || lia). cbn [res_bind].
  change (TEGRABL_NO_ERROR =? TEGRABL_NO_ERROR) with true. cbn [negb from_option id]. rewrite Hz, u64_small by lia.
  destruct (calloc_ok s (8 * (0 + (1 + zlen names))) r Hr) as (p & h & Ec & Hp & _); [lia|unfold alloc_cost in *; lia|].
  rewrite Ec, (proj2 (Z.eqb_neq p NULL)), (proj2 (Z.leb_gt _ _)) by (done || lia). apply Forall_cons in Hn as [Hn1 Hn2].
  rewrite Z.add_assoc, find_open by (done || lia). done.
Qed.

(** The blob is freed by the call that reads it, but its address stays in the table of device trees: a second
    call reads freed memory. *)
Lemma second_parse_reads_freed s garbage : cb_handle s <> NULL -> cb_blob s = None ->
  tegrabl_cbo_parse_info s garbage true = Stuck BadPointer.
Proof.
  intros Hh Hb. unfold tegrabl_cbo_parse_info, parse_cbo, tegrabl_dt_get_fdt_handle. cbn [cb_handle set_info cb_blob].
  by rewrite (proj2 (Z.eqb_neq (cb_handle s) NULL)), Hb by done.
Qed.

(** The length of a GUID is kept in a byte, so that 292 characters are taken for 36. *)
Lemma guid_length_wraps s g : zlen g = 292 -> zlen (cb_info s) = sizeof_info ->
  value_of (tegrabl_set_boot_pt_guid s g) SGuid = take 36 g ++ [0].
Proof.
  intros Hg Hl. unfold tegrabl_set_boot_pt_guid, store_guid. rewrite Hg. change (u8 292 =? GUID_STR_LEN) with true. cbv iota.
  apply (info_splice s SGuid _ SGuid Hl). rewrite zlen_app. unfold zlen in *. rewrite length_take.
  replace (Z.to_nat GUID_STR_LEN `min` length g)%nat with 36%nat by (unfold GUID_STR_LEN; lia). done.
Qed.
End Edge.

(** ** An example *)

(** A library that knows where the properties of one blob are. *)
Definition table_fdt (t : list (list Z * (Z * Z))) : Fdt := {|
  fdt_getprop _ _ name := snd <$> head (filter (fun x => x.1 = name) t);
  fdt_path_offset _ _ := 8
|}.

Definition demo_names : list (list Z) := [str "usb"; str "nvme"; str "emmc"].
Definition demo_blob : list Z := encode_names demo_names ++ [10; 0; 0; 5].
Definition demo_fdt : Fdt := table_fdt [(str "boot-order", (0, 14)); (str "tftp-server-ip", (14, 4)); (str "dhcp-enabled", (0, 0))].
Definition demo_config : config := mkConfig demo_names (Some [10; 0; 0; 5]) true None None None None.
Definition demo_heap_blob : arena := mkArena 0x2000 0x100000 {[0x1000]}.
Definition demo_cbo : cbo (list Z) arena :=
  mkCbo (mkPstate (mkWorld None ∅ 0 demo_heap_blob) None ∅) 0x1000 (Some demo_blob) NULL [] [].

Lemma demo_config_ok : config_ok demo_config.
Proof. split; [done| |done|repeat constructor|done]. repeat constructor; discriminate. Qed.

Lemma demo_describes : @describes demo_fdt demo_blob 8 demo_config.
Proof.
  split; try done; [exists 0|exists 14]; (split; [done|split; [done|split; done]]).
Qed.

Lemma demo_cbo_room : heap_room (cheap demo_cbo) 0x1000 /\ heap_live (cheap demo_cbo) 0x1000.
Proof.
  split; [|unfold heap_live; cbn; set_solver]. cbn. unfold arena_room. cbn.
  repeat split; try lia; set_unfold; naive_solver lia.
Qed.

Lemma cbo_parse_witness : exists p s', tegrabl_cbo_parse_info (FD := demo_fdt) demo_cbo 0 true = Ok (TEGRABL_NO_ERROR, s') /\
  tegrabl_get_boot_order s' = (p, [BOOT_FROM_USB; BOOT_DEFAULT; BOOT_FROM_BUILTIN_STORAGE; BOOT_DEFAULT]) /\ cb_blob s' = None.
Proof.
  destruct (cbo_parse (FD := demo_fdt) demo_cbo 0 demo_blob 8 demo_config 0x1000) as (p & s' & E & _ & _ & Ho & _ & _ & Hb & _);
    [done|done|done|done|apply demo_config_ok|apply demo_describes|apply demo_cbo_room|apply demo_cbo_room|done|].
  exists p, s'. split; [exact E|]. split; [exact Ho|exact Hb].
Defined.

Definition long_fdt : Fdt := table_fdt [(str "tftp-server-ip", (0, 42))].
Lemma long_address_overruns_witness : @parse_ip_info long_fdt (replicate 42 1) 8 (replicate 54 0) = Stuck OutOfBounds.
Proof.
  destruct (@long_address_overruns long_fdt (replicate 42 1) 8 (replicate 42 1) (replicate 54 0)) as [_ H];
    [by exists 0|done|]. by apply H.
Defined.

Definition open_blob : list Z := encode_names [str "usb"] ++ str "sd".
Definition open_fdt : Fdt := table_fdt [(str "boot-order", (0, 6))].
Lemma open_order_overruns_witness : parse_boot_order (FD := open_fdt) demo_cbo 0 open_blob 8 = Stuck OutOfBounds.
Proof.
  apply (open_order_overruns (FD := open_fdt) demo_cbo 0 open_blob 8 (str "usb") [] (str "sd") 0x1000);
    [by exists 0|repeat constructor; discriminate|repeat constructor; discriminate|done|done|apply demo_cbo_room|done].
Defined.
