(* ===== verification/LinuxLoad.v ===== *)
(** Loading the kernel (common/lib/linuxboot/linux_load.c): the choice of the medium by the boot
    order and the active slot, and the kernel and the ramdisk of a boot image put in their
    places; the places are given out by t19x/common/lib/linuxboot/t194/linuxboot_helper.c.

    Memory is a function from addresses to bytes.  The loaders of the media, the check of a
    signature, the decompressors and the changes of the device tree are the class
    [BootMedia]. *)

From S2P Require Import Prelude TegraError BlockDev AbBoot Cbo.

Definition TEGRABL_ERR_LINUXBOOT : Z := 0x2b.
Definition TEGRABL_ERR_TOO_LARGE : Z := 0x07.
Definition LX_ERR (reason aux : Z) : Z := tegrabl_error_value TEGRABL_ERR_LINUXBOOT aux reason.

Definition RAMDISK_ALIGNMENT : Z := 0x01000000.
Definition RAMDISK_MAX_SIZE : Z := 0x04000000.
Definition DTB_ALIGNMENT : Z := 0x01000000.
Definition DTB_MAX_SIZE : Z := 0x00400000.
Definition KERNEL_ALIGNMENT : Z := 0x00200000.
Definition MAX_KERNEL_IMAGE_SIZE : Z := 0x10000000.
Definition TEXT_OFFSET : Z := 0x80000.

Definition ANDROID_MAGIC : list Z := str "ANDROID!".

(** [ROUND_UP] on 64 bits, [ROUND_UP_POW2] on 32 bits. *)
Definition ROUND_UP64 (n w : Z) : Z := u64 (u64 (n + w - 1) / w * w).
Definition ROUND_UP_POW2 (n w : Z) : Z := u32 (Z.land (u32 (n - 1)) (u32 (Z.lnot (u32 (w - 1)))) + w).

(** ** State *)

(** Memory, the statics of the two files and the state of the media. *)
Record lx (M : Type) := mkLx {
  lx_media : M; lx_mem : Z -> Z; os_carveout_next_free_addr : Z;
  ramdisk_load : Z; ramdisk_size : Z; bootimg_cmdline : Z; dt_kernel : Z
}.
Arguments mkLx {M}. Arguments lx_media {M}. Arguments lx_mem {M}. Arguments os_carveout_next_free_addr {M}.
Arguments ramdisk_load {M}. Arguments ramdisk_size {M}. Arguments bootimg_cmdline {M}. Arguments dt_kernel {M}.

(** The locals the loaders store to. *)
Record outs := mkOuts {
  boot_img_load_addr : Z; kernel_dtb : Z; kernel_dtbo : Z; ramdisk_load_addr : Z; kernel_size : Z
}.

Definition set_mem {M} (s : lx M) (m : Z -> Z) : lx M :=
  mkLx (lx_media s) m (os_carveout_next_free_addr s) (ramdisk_load s) (ramdisk_size s) (bootimg_cmdline s) (dt_kernel s).
Definition set_next_free {M} (s : lx M) (a : Z) : lx M :=
  mkLx (lx_media s) (lx_mem s) a (ramdisk_load s) (ramdisk_size s) (bootimg_cmdline s) (dt_kernel s).
Definition set_ramdisk {M} (s : lx M) (a n : Z) : lx M :=
  mkLx (lx_media s) (lx_mem s) (os_carveout_next_free_addr s) a n (bootimg_cmdline s) (dt_kernel s).
Definition set_cmdline {M} (s : lx M) (a : Z) : lx M :=
  mkLx (lx_media s) (lx_mem s) (os_carveout_next_free_addr s) (ramdisk_load s) (ramdisk_size s) a (dt_kernel s).
Definition set_dt_kernel {M} (s : lx M) (a : Z) : lx M :=
  mkLx (lx_media s) (lx_mem s) (os_carveout_next_free_addr s) (ramdisk_load s) (ramdisk_size s) (bootimg_cmdline s) a.

Definition bytes_at (m : Z -> Z) (a n : Z) : list Z := m <$> seqZ a n.
Definition word_at (m : Z -> Z) (a : Z) : Z := le_val (bytes_at m a 4).

(** [memmove] copies as if through a buffer. *)
Definition memmove (m : Z -> Z) (dst src n : Z) : Z -> Z :=
  fun a => if (dst <=? a) && (a <? dst + n) then m (src + (a - dst)) else m a.

(** Fields of the header of a boot image. *)
Definition HAS_BOOT_IMG_HDR (m : Z -> Z) (a : Z) : bool := bool_decide (bytes_at m a 8 = ANDROID_MAGIC).
Definition hdr_kernelsize (m : Z -> Z) (a : Z) : Z := word_at m (a + 8).
Definition hdr_ramdisksize (m : Z -> Z) (a : Z) : Z := word_at m (a + 16).
Definition hdr_pagesize (m : Z -> Z) (a : Z) : Z := word_at m (a + 36).
Definition hdr_cmdline (a : Z) : Z := a + 64.

Class BootMedia (M : Type) := {
  (** The error and what is stored to the image and the device tree. *)
  net_boot_load_kernel_and_dtb : lx M -> outs -> Z * (Z * Z) * lx M;
  (** The image, the device tree, the ramdisk and the size of the kernel. *)
  usb_sd_boot_load_kernel_and_dtb : Z -> lx M -> outs -> Z * (Z * Z * Z * Z) * lx M;
  fixed_boot_load_kernel_and_dtb : lx M -> outs -> Z * outs * lx M;
  verify_boot : lx M -> outs -> lx M;
  is_compressed_content : (Z -> Z) -> Z -> option Z;
  do_decompress : Z -> (Z -> Z) -> Z -> Z -> Z -> Z -> Z * (Z -> Z);
  tegrabl_dt_create_space : lx M -> Z -> Z * lx M;
  tegrabl_linuxboot_update_dtb : lx M -> Z -> Z * lx M;
  extlinux_boot_get_status : lx M -> bool;
  extlinux_boot_update_bootargs : lx M -> Z -> Z * lx M;
  (** [tegrabl_free(kernel_dtbo)] and [tegrabl_usbh_close()] *)
  release_media : lx M -> Z -> lx M
}.

(** ** Places in the carveout of the kernel *)

Section Places.
Context {M : Type}.
Implicit Types s : lx M.
(** [boot_params->carveout_info[CARVEOUT_OS].base] *)
Variable os_base : Z.

Definition tegrabl_get_kernel_load_addr s : Z * lx M :=
  let kernel_load_addr := ROUND_UP64 os_base KERNEL_ALIGNMENT in
  let s :=
    if os_carveout_next_free_addr s =? 0
    then set_next_free s (u64 (kernel_load_addr + MAX_KERNEL_IMAGE_SIZE)) else s in
  (u64 (kernel_load_addr + TEXT_OFFSET), s).

Definition tegrabl_get_dtb_load_addr s : Z * lx M :=
  let s := if os_carveout_next_free_addr s =? 0 then (tegrabl_get_kernel_load_addr s).2 else s in
  let dtb_load_addr := ROUND_UP64 (os_carveout_next_free_addr s) DTB_ALIGNMENT in
  (dtb_load_addr, set_next_free s (u64 (dtb_load_addr + DTB_MAX_SIZE))).

Definition tegrabl_get_ramdisk_load_addr s : Z * lx M :=
  let s := if os_carveout_next_free_addr s =? 0 then (tegrabl_get_kernel_load_addr s).2 else s in
  let ramdisk_load_addr := ROUND_UP64 (os_carveout_next_free_addr s) RAMDISK_ALIGNMENT in
  (ramdisk_load_addr, set_next_free s (u64 (ramdisk_load_addr + RAMDISK_MAX_SIZE))).
End Places.

Section Load.
Context {M : Type} {BM : BootMedia M}.
Implicit Types (s : lx M) (o : outs).
Variable os_base : Z.

(** ** The boot image *)

(** The error and [*kernel_load_addr], if it is stored. *)
Definition extract_kernel s (img kernel_bin_size : Z) : Z * option Z * lx M :=
  let m := lx_mem s in
  let '(payload_addr, kernel_size) :=
    if HAS_BOOT_IMG_HDR m img then (u64 (img + hdr_pagesize m img), hdr_kernelsize m img)
    else (img, kernel_bin_size) in
  if MAX_KERNEL_IMAGE_SIZE <? kernel_size then (LX_ERR TEGRABL_ERR_TOO_LARGE 0, None, s)
  else
    let '(kernel_load_addr, s) := tegrabl_get_kernel_load_addr os_base s in
    match is_compressed_content m payload_addr with
    | None => (TEGRABL_NO_ERROR, Some kernel_load_addr, set_mem s (memmove m kernel_load_addr payload_addr kernel_size))
    | Some decomp =>
        let '(err, m) := do_decompress decomp m payload_addr kernel_size kernel_load_addr MAX_KERNEL_IMAGE_SIZE in
        (err, Some kernel_load_addr, set_mem s m)
    end.

Definition extract_ramdisk s (img : Z) : Z * lx M :=
  let '(load, s) := tegrabl_get_ramdisk_load_addr os_base s in
  let s := set_ramdisk s load (ramdisk_size s) in
  let m := lx_mem s in
  if RAMDISK_MAX_SIZE <? hdr_ramdisksize m img then (LX_ERR TEGRABL_ERR_TOO_LARGE 1, s)
  else
    let ramdisk_offset := ROUND_UP_POW2 (u32 (hdr_pagesize m img + hdr_kernelsize m img)) (hdr_pagesize m img) in
    let ramdisk_offset := u64 (img + ramdisk_offset) in
    let size := hdr_ramdisksize m img in
    let s := set_ramdisk s load size in
    let s := if negb (ramdisk_offset =? load) then set_mem s (memmove m load ramdisk_offset size) else s in
    (TEGRABL_NO_ERROR, set_cmdline s (hdr_cmdline img)).

Definition extract_kernel_dtb s (dtb : Z) : Z * lx M :=
  let '(err, s) := tegrabl_dt_create_space s dtb in
  if negb (err =? TEGRABL_NO_ERROR) then (tegrabl_err_set_highest_module err TEGRABL_ERR_LINUXBOOT, s)
  else
    let s := set_dt_kernel s dtb in
    let '(err, s) := tegrabl_linuxboot_update_dtb s dtb in
    if negb (err =? TEGRABL_NO_ERROR) then (err, s)
    else if extlinux_boot_get_status s then extlinux_boot_update_bootargs s dtb
    else (TEGRABL_NO_ERROR, s).

(** ** The choice of the medium *)

(** The cases of the [switch]; the configuration has network, SD and USB boot. *)
Definition load_from (device : Z) s o : Z * outs * lx M :=
  if device =? BOOT_FROM_NETWORK then
    let '(err, (img, dtb), s) := net_boot_load_kernel_and_dtb s o in
    (err, mkOuts img dtb (kernel_dtbo o) (ramdisk_load_addr o) (kernel_size o), s)
  else if (device =? BOOT_FROM_SD) || (device =? BOOT_FROM_USB) then
    let '(err, (img, dtb, ramdisk, size), s) := usb_sd_boot_load_kernel_and_dtb device s o in
    (err, mkOuts img dtb (kernel_dtbo o) ramdisk size, s)
  else fixed_boot_load_kernel_and_dtb s o.

(** "Try loading boot image and dtb from devices as per boot order"; [l] is the order from [i] on. *)
Fixpoint try_media (l : list Z) s o : res (bool * outs * lx M) :=
  match l with
  | [] => Stuck OutOfBounds
  | device :: l =>
      if device =? BOOT_DEFAULT then Ok (false, o, s)
      else
        let '(err, o, s) := load_from device s o in
        if negb (err =? TEGRABL_NO_ERROR) then try_media l s o
        else match l with [] => Stuck OutOfBounds | _ => Ok (true, o, s) end
  end.

(** "Read the active boot slot. If not 0, then skip first boot option." *)
Definition bootorder_start (reg : Z) (boot_order : list Z) : res Z :=
  let* (err, slot) := tegrabl_a_b_get_active_slot reg None in
  let bootslot := if negb (err =? TEGRABL_NO_ERROR) then BOOT_SLOT_A else default 0 slot in
  if negb (bootslot =? BOOT_SLOT_A) then
    match boot_order with
    | [] => Stuck OutOfBounds
    | first :: _ => Ok (if negb (first =? BOOT_DEFAULT) then 1 else 0)
    end
  else Ok 0.

(** [boot_order] is the pointer of [tegrabl_get_boot_order] and the array behind it; the result is the
    error, whether something was loaded and from where. *)
Definition select_media (reg : Z) (boot_order : Z * list Z) s o : res (Z * outs * lx M) :=
  if boot_order.1 =? NULL then Stuck BadPointer
  else
    let* start := bootorder_start reg boot_order.2 in
    let* (is_load_done, o, s) := try_media (drop (Z.to_nat start) boot_order.2) s o in
    if is_load_done then Ok (TEGRABL_NO_ERROR, o, s)
    else Ok (fixed_boot_load_kernel_and_dtb s o).

(** ** The whole call *)

(** From "Kernel hdr" on: the error and [*kernel_entry_point]. *)
Definition extract_all (verify : bool) s o : Z * option Z * lx M :=
  let s := set_ramdisk s (ramdisk_load_addr o) (ramdisk_size s) in
  let s := if verify then verify_boot s o else s in
  let '(err, entry, s) := extract_kernel s (boot_img_load_addr o) (kernel_size o) in
  if negb (err =? TEGRABL_NO_ERROR) then (err, entry, s)
  else
    let '(err, s) :=
      if HAS_BOOT_IMG_HDR (lx_mem s) (boot_img_load_addr o) then extract_ramdisk s (boot_img_load_addr o)
      else (TEGRABL_NO_ERROR, s) in
    if negb (err =? TEGRABL_NO_ERROR) then (err, entry, s)
    else let '(err, s) := extract_kernel_dtb s (kernel_dtb o) in (err, entry, s).

Definition tegrabl_load_kernel_and_dtb (reg : Z) (boot_order : Z * list Z) (args_ok verify : bool) (dtb : Z) s
    : res (Z * option Z * lx M) :=
  if negb args_ok then Ok (LX_ERR TEGRABL_ERR_INVALID 0, None, release_media s NULL)
  else
    let* (err, o, s) := select_media reg boot_order s (mkOuts NULL dtb NULL NULL 0) in
    if negb (err =? TEGRABL_NO_ERROR) then Ok (err, None, release_media s (kernel_dtbo o))
    else
      let '(err, entry, s) := extract_all verify s o in
      Ok (err, entry, release_media s (kernel_dtbo o)).
End Load.
