(* ===== verification/LinuxLoadProps.v ===== *)
(** Loading the kernel: media are tried in the boot order, without the first one when slot B boots;
    kernel, device tree and ramdisk get places that do not overlap; a boot image is taken apart
    as its header says. *)

From S2P Require Import Prelude TegraError BlockDev AbBoot AbBootFacts Cbo CboProps LinuxLoad.

(** ** Media *)

(** The register says that another slot than A boots. *)
Definition secondary (reg : Z) : bool :=
  let '(err, slot) := boot_chain_get_bootslot_from_reg reg in (err =? TEGRABL_NO_ERROR) && negb (slot =? BOOT_SLOT_A).

(** The devices the code means to try, before the built-in storage. *)
Definition to_try (second : bool) (ds : list Z) : list Z := if second then tail ds else ds.

(** The devices of the names, up to the first name that stands for none. *)
Fixpoint known_prefix (names : list (list Z)) : list Z :=
  match names with
  | [] => []
  | n :: names => match find_device g_boot_devices n with Some d => d :: known_prefix names | None => [] end
  end.

Lemma known_device x d : find_device g_boot_devices x = Some d -> d <> BOOT_DEFAULT.
Proof. unfold g_boot_devices. cbn [find_device]. repeat (case_match; [by intros [= <-]|]). done. Qed.

Lemma known_prefix_devices names : Forall (fun d => d <> BOOT_DEFAULT) (known_prefix names).
Proof.
  induction names as [|n names IH]; [by apply Forall_nil|]. cbn [known_prefix]. destruct (find_device g_boot_devices n) eqn:E; [|by apply Forall_nil].
  apply Forall_cons. split; [by apply known_device in E|done].
Qed.

(** A name that stands for no device leaves a zero in the array, which is the mark of its end. *)
Lemma order_of_prefix names : exists rest, order_of names = known_prefix names ++ BOOT_DEFAULT :: rest.
Proof.
  unfold order_of. induction names as [|n names [rest IH]]; [by exists []|]. cbn [fmap list_fmap app known_prefix]. unfold device_code at 1.
  destruct (find_device g_boot_devices n) as [d|]; cbn [from_option id]; [exists rest; by rewrite IH|].
  by eexists.
Qed.

Section Media.
Context {M : Type} {BM : BootMedia M}.
Implicit Types (s : lx M) (o : outs).

(** Each of the devices was tried, in this order, and failed. *)
Inductive all_fail : list Z -> outs -> lx M -> outs -> lx M -> Prop :=
| af_nil o s : all_fail [] o s o s
| af_cons d l o s e o1 s1 o2 s2 : load_from d s o = (e, o1, s1) -> e <> TEGRABL_NO_ERROR ->
    all_fail l o1 s1 o2 s2 -> all_fail (d :: l) o s o2 s2.

Lemma try_media_spec ds : forall rest s o, Forall (fun d => d <> BOOT_DEFAULT) ds ->
  exists failed o1 s1, all_fail failed o s o1 s1 /\
    ((exists d more o2 s2, ds = failed ++ d :: more /\ load_from d s1 o1 = (TEGRABL_NO_ERROR, o2, s2) /\
        try_media (ds ++ BOOT_DEFAULT :: rest) s o = Ok (true, o2, s2)) \/
     (failed = ds /\ try_media (ds ++ BOOT_DEFAULT :: rest) s o = Ok (false, o1, s1))).
Proof.
  induction ds as [|d ds IH]; intros rest s o Hd.
  - exists [], o, s. split; [constructor|]. right. done.
  - apply Forall_cons in Hd as [Hd Hds]. cbn [app try_media]. rewrite (proj2 (Z.eqb_neq d BOOT_DEFAULT)) by done.
    destruct (load_from d s o) as [[e o1] s1] eqn:E. destruct (Z.eqb_spec e TEGRABL_NO_ERROR) as [-> |He]; cbn [negb].
    + exists [], o, s. split; [constructor|]. left. exists d, ds, o1, s1. split; [done|]. split; [done|]. by destruct ds.
    + destruct (IH rest s1 o1 Hds) as (failed & o2 & s2 & Hf & Hc). exists (d :: failed), o2, s2. split; [by econstructor|].
      destruct Hc as [(d' & more & o3 & s3 & -> & El & Et)|[-> Et]]; [left|right; done].
      by exists d', more, o3, s3.
Qed.

Lemma bootorder_start_spec reg ds rest : Forall (fun d => d <> BOOT_DEFAULT) ds ->
  exists n, bootorder_start reg (ds ++ BOOT_DEFAULT :: rest) = Ok n /\
    drop (Z.to_nat n) (ds ++ BOOT_DEFAULT :: rest) = to_try (secondary reg) ds ++ BOOT_DEFAULT :: rest.
Proof.
  intros Hd. unfold bootorder_start, secondary. cbn [tegrabl_a_b_get_active_slot].
  destruct (boot_chain_get_bootslot_from_reg reg) as [err slot]. cbn [res_bind].
  destruct (err =? TEGRABL_NO_ERROR); cbn [negb andb from_option id].
  - destruct (slot =? BOOT_SLOT_A); cbn [negb]; [by exists 0|]. destruct ds as [|d ds]; [by exists 0|].
    apply Forall_cons in Hd as [Hd _]. cbn [app]. rewrite (proj2 (Z.eqb_neq d BOOT_DEFAULT)) by done. by exists 1.
  - by exists 0.
Qed.

Lemma select_media_spec reg p ds rest s o : p <> NULL -> Forall (fun d => d <> BOOT_DEFAULT) ds ->
  exists failed o1 s1, all_fail failed o s o1 s1 /\
    ((exists d more o2 s2, to_try (secondary reg) ds = failed ++ d :: more /\
        load_from d s1 o1 = (TEGRABL_NO_ERROR, o2, s2) /\
        select_media reg (p, ds ++ BOOT_DEFAULT :: rest) s o = Ok (TEGRABL_NO_ERROR, o2, s2)) \/
     (failed = to_try (secondary reg) ds /\
        select_media reg (p, ds ++ BOOT_DEFAULT :: rest) s o = Ok (fixed_boot_load_kernel_and_dtb s1 o1))).
Proof.
  intros Hp Hd. destruct (bootorder_start_spec reg ds rest Hd) as (n & E1 & E2).
  assert (Hd' : Forall (fun d => d <> BOOT_DEFAULT) (to_try (secondary reg) ds)).
  { unfold to_try. destruct (secondary reg); [|done]. destruct Hd; [by apply Forall_nil|done]. }
  destruct (try_media_spec _ rest s o Hd') as (failed & o1 & s1 & Hf & Hc). exists failed, o1, s1. split; [done|].
  unfold select_media. cbn [fst snd]. rewrite (proj2 (Z.eqb_neq p NULL)) by done. rewrite E1. cbn [res_bind]. rewrite E2.
  destruct Hc as [(d & more & o2 & s2 & Eq & El & Et)|[-> Et]]; [left|right]; rewrite Et; [|done].
  by exists d, more, o2, s2.
Qed.
(** C5: the choice of the medium.  With the boot order of a list of device names, media are tried in the order of
    the list up to the first name that stands for no device, the first one left out when the scratch
    register says that slot B boots; the kernel comes from the first medium that loads one, and if none does from
    the built-in storage, whose result is then returned. *)
Theorem media_in_order reg p names s o : p <> NULL ->
  exists failed o1 s1, all_fail failed o s o1 s1 /\
    ((exists d more o2 s2, to_try (secondary reg) (known_prefix names) = failed ++ d :: more /\
        load_from d s1 o1 = (TEGRABL_NO_ERROR, o2, s2) /\
        select_media reg (p, order_of names) s o = Ok (TEGRABL_NO_ERROR, o2, s2)) \/
     (failed = to_try (secondary reg) (known_prefix names) /\
        select_media reg (p, order_of names) s o = Ok (fixed_boot_load_kernel_and_dtb s1 o1))).
Proof.
  intros Hp. destruct (order_of_prefix names) as [rest ->]. apply select_media_spec; [done|]. apply known_prefix_devices.
Qed.

(** Without a boot order, as after it was cleared, the call follows a null pointer. *)
Lemma no_order_follows_null {D H} {AL : Allocator H} reg (c c' : cbo D H) args dtb os_base s :
  cb_priority c <> NULL -> tegrabl_clear_boot_order c = Ok c' ->
  tegrabl_load_kernel_and_dtb os_base reg (tegrabl_get_boot_order c') true args dtb s = Stuck BadPointer.
Proof.
  intros Hc E. unfold tegrabl_clear_boot_order in E. rewrite (proj2 (Z.eqb_neq _ NULL)) in E by done.
  destruct (cbo_free c (cb_priority c)); [|done]. by injection E as <-.
Qed.
End Media.

(** The slot that selection chose at power-on decides about the first medium. *)
Lemma secondary_from_smd asserts reg m i : smd_ok m -> magic m = BOOT_CHAIN_MAGIC -> num_slots m = 2 ->
  (forall t, t ∈ slot_info m -> retry_count t < 16) -> BOOT_CHAIN_REG_MAGIC_GET reg <> BOOT_CHAIN_REG_MAGIC ->
  best_slot (slot_info m) 2 i ->
  exists reg', tegrabl_a_b_init_boot_slot_reg asserts reg (Some m) = Ok (TEGRABL_NO_ERROR, reg') /\
    secondary reg' = negb (i =? BOOT_SLOT_A).
Proof.
  intros Ok1 Ok2 Ok3 Ok4 Ok5 Ok6. destruct (boot_slot_reg_reflects_smd asserts reg m i) as (reg' & s & E & _ & Ea & _); [done..|].
  exists reg'. split; [done|]. unfold secondary. cbn [tegrabl_a_b_get_active_slot] in Ea.
  destruct (boot_chain_get_bootslot_from_reg reg') as [err slot]. injection Ea as -> ->. done.
Qed.

(** ** Places *)

Lemma ROUND_UP64_spec n w : 0 <= n -> 0 < w -> n + w < 2 ^ 64 ->
  n <= ROUND_UP64 n w < n + w /\ ROUND_UP64 n w mod w = 0.
Proof.
  intros Hn Hw Hl. unfold ROUND_UP64. pose proof (Z.div_mod (n + w - 1) w ltac:(lia)) as E.
  pose proof (Z.mod_pos_bound (n + w - 1) w Hw) as Hb. rewrite (u64_small (n + w - 1)) by lia.
  rewrite u64_small by nia. split; [nia|]. apply Z.mod_mul. lia.
Qed.

(** A request for a place, and the area that is given. *)
Inductive place := PKernel | PDtb | PRamdisk.

Section Places.
Context {M : Type} (os_base : Z).
Implicit Types s : lx M.

Definition give s (c : place) : (Z * Z) * lx M :=
  match c with
  | PKernel => let '(a, s) := tegrabl_get_kernel_load_addr os_base s in ((a, MAX_KERNEL_IMAGE_SIZE - TEXT_OFFSET), s)
  | PDtb => let '(a, s) := tegrabl_get_dtb_load_addr os_base s in ((a, DTB_MAX_SIZE), s)
  | PRamdisk => let '(a, s) := tegrabl_get_ramdisk_load_addr os_base s in ((a, RAMDISK_MAX_SIZE), s)
  end.

Fixpoint gives s (cs : list place) : list (place * (Z * Z)) * lx M :=
  match cs with
  | [] => ([], s)
  | c :: cs => let '(a, s) := give s c in let '(l, s) := gives s cs in ((c, a) :: l, s)
  end.

Definition kernel_base : Z := ROUND_UP64 os_base KERNEL_ALIGNMENT.

(** The first free address, at or behind the end of the kernel's area. *)
Definition free_from s : Z :=
  if os_carveout_next_free_addr s =? 0 then kernel_base + MAX_KERNEL_IMAGE_SIZE else os_carveout_next_free_addr s.

Record places_ok s : Prop := {
  pl_base : 0 <= os_base;
  pl_behind : kernel_base + MAX_KERNEL_IMAGE_SIZE <= free_from s;
  pl_small : free_from s < 2 ^ 63
}.

(** Room for one more place. *)
Definition place_size : Z := 0x05000000.

Lemma kernel_base_bounds s : places_ok s -> 0 <= kernel_base < 2 ^ 63.
Proof.
  intros [H1 H2 H3]. unfold kernel_base, MAX_KERNEL_IMAGE_SIZE in *.
  assert (0 <= ROUND_UP64 os_base KERNEL_ALIGNMENT) by apply u64_range. lia.
Qed.

Lemma kernel_place s : places_ok s ->
  tegrabl_get_kernel_load_addr os_base s = (kernel_base + TEXT_OFFSET, set_next_free s (free_from s)).
Proof.
  intros P. pose proof (kernel_base_bounds s P) as Hk. destruct P as [H1 H2 H3]. unfold tegrabl_get_kernel_load_addr, free_from in *. fold kernel_base.
  rewrite (u64_small (kernel_base + TEXT_OFFSET)) by (unfold TEXT_OFFSET; lia).
  destruct (Z.eqb_spec (os_carveout_next_free_addr s) 0) as [E|E].
  - rewrite u64_small by (unfold MAX_KERNEL_IMAGE_SIZE in *; lia). done.
  - f_equal. by destruct s.
Qed.

Lemma free_from_set s v : 0 < v -> free_from (set_next_free s v) = v.
Proof. intros Hv. unfold free_from. cbn. by rewrite (proj2 (Z.eqb_neq v 0)) by lia. Qed.

Lemma places_set s t v : places_ok s -> free_from s <= v < 2 ^ 63 -> places_ok (set_next_free t v).
Proof.
  intros P Hv. pose proof (kernel_base_bounds s P) as Hk. destruct P as [H1 H2 H3]. unfold MAX_KERNEL_IMAGE_SIZE in *.
  split; [done|rewrite free_from_set; unfold MAX_KERNEL_IMAGE_SIZE; lia|rewrite free_from_set; lia].
Qed.

(** Places other than the kernel's are given out from [free_from] on. *)
Lemma give_next s c : places_ok s -> free_from s + place_size < 2 ^ 63 ->
  exists a n s', give s c = ((a, n), s') /\ places_ok s' /\ 0 < n /\ free_from s <= free_from s' <= free_from s + place_size /\
    lx_mem s' = lx_mem s /\
    match c with
    | PKernel => a = kernel_base + TEXT_OFFSET /\ a + n = kernel_base + MAX_KERNEL_IMAGE_SIZE
    | _ => free_from s <= a /\ a + n = free_from s'
    end.
Proof.
  intros P Hs. pose proof (kernel_base_bounds s P) as Hk. pose proof (kernel_place s P) as Ek. pose proof P as [H1 H2 H3].
  assert (Hf : os_carveout_next_free_addr (if os_carveout_next_free_addr s =? 0 then (tegrabl_get_kernel_load_addr os_base s).2 else s) = free_from s /\
    lx_mem (if os_carveout_next_free_addr s =? 0 then (tegrabl_get_kernel_load_addr os_base s).2 else s) = lx_mem s).
  { rewrite Ek. unfold free_from. destruct (os_carveout_next_free_addr s =? 0); done. }
  destruct Hf as [Hf Hm]. unfold place_size, MAX_KERNEL_IMAGE_SIZE, TEXT_OFFSET in *.
  destruct c; cbn [give].
  - rewrite Ek. eexists _, _, _. split; [done|]. rewrite free_from_set by lia. split; [apply (places_set s); [done|lia]|].
    split; [done|]. split; [lia|]. split; [done|]. unfold MAX_KERNEL_IMAGE_SIZE, TEXT_OFFSET. lia.
  - unfold tegrabl_get_dtb_load_addr. rewrite Hf. destruct (ROUND_UP64_spec (free_from s) DTB_ALIGNMENT) as [Hb _]; [lia|done|unfold DTB_ALIGNMENT; lia|].
    unfold DTB_ALIGNMENT, DTB_MAX_SIZE in *. rewrite (u64_small (_ + _)) by lia. eexists _, _, _. split; [done|]. rewrite free_from_set by lia.
    split; [apply (places_set s); [done|lia]|]. split; [done|]. split; [lia|]. split; [done|]. lia.
  - unfold tegrabl_get_ramdisk_load_addr. rewrite Hf. destruct (ROUND_UP64_spec (free_from s) RAMDISK_ALIGNMENT) as [Hb _]; [lia|done|unfold RAMDISK_ALIGNMENT; lia|].
    unfold RAMDISK_ALIGNMENT, RAMDISK_MAX_SIZE in *. rewrite (u64_small (_ + _)) by lia. eexists _, _, _. split; [done|]. rewrite free_from_set by lia.
    split; [apply (places_set s); [done|lia]|]. split; [done|]. split; [lia|]. split; [done|]. lia.
Qed.

Definition apart (x y : place * (Z * Z)) : Prop :=
  x.2.1 + x.2.2 <= y.2.1 \/ y.2.1 + y.2.2 <= x.2.1 \/ (x.1 = PKernel /\ y.1 = PKernel /\ x.2 = y.2).

Lemma gives_apart cs : forall s, places_ok s -> free_from s + zlen cs * place_size < 2 ^ 63 ->
  ForallOrdPairs apart (gives s cs).1 /\
  Forall (fun x => if x.1 is PKernel then x.2 = (kernel_base + TEXT_OFFSET, MAX_KERNEL_IMAGE_SIZE - TEXT_OFFSET)
                   else free_from s <= x.2.1) (gives s cs).1.
Proof.
  induction cs as [|c cs IH]; intros s P Hs; [split; constructor|].
  assert (Hz : zlen (c :: cs) = zlen cs + 1) by (unfold zlen; cbn; lia). pose proof (zlen_nonneg cs) as Hn0. rewrite Hz in Hs.
  destruct (give_next s c P) as (a & n & s' & E & P' & Hn & Hf & _ & Hc); [unfold place_size in *; lia|].
  destruct (IH s' P') as [F1 F2]; [unfold place_size in *; lia|]. cbn [gives]. rewrite E. destruct (gives s' cs) as [l t]. cbn [fst] in *.
  split; constructor; [|done| |].
  - eapply Forall_impl; [exact F2|]. intros [c' [a' n']] Hx. unfold apart. cbn [fst snd] in *. pose proof (pl_behind s P) as Hb.
    destruct c, c'; try (injection Hx as -> ->); try (left; lia); try (right; left; lia).
    right. right. destruct Hc as [-> Hc]. split; [done|]. split; [done|]. f_equal. lia.
  - cbn [fst snd]. destruct c; [|lia|lia]. destruct Hc as [-> Hc]. f_equal. lia.
  - eapply Forall_impl; [exact F2|]. intros [c' [a' n']] Hx. cbn [fst snd] in *. destruct c'; [done|lia|lia].
Qed.
End Places.

(** C31: places do not overlap.  From the start, any sequence of requests for places of the kernel, of device trees and of
    ramdisks gives areas of which no two overlap, but for the kernel's own, which is the same each time; the
    area of the kernel is what remains of its 256 MB behind the text offset. *)
Theorem places_disjoint {M} os_base (s : lx M) cs : 0 <= os_base < 2 ^ 62 -> os_carveout_next_free_addr s = 0 ->
  zlen cs < 2 ^ 32 -> ForallOrdPairs apart (gives os_base s cs).1.
Proof.
  intros Hb Hz Hl. destruct (ROUND_UP64_spec os_base KERNEL_ALIGNMENT) as [Hr _]; [lia|done|unfold KERNEL_ALIGNMENT; lia|].
  fold (kernel_base os_base) in Hr. unfold KERNEL_ALIGNMENT in Hr.
  assert (Hf : free_from os_base s = kernel_base os_base + MAX_KERNEL_IMAGE_SIZE) by (unfold free_from; by rewrite Hz).
  apply gives_apart.
  - split; [lia|lia|]. rewrite Hf. unfold MAX_KERNEL_IMAGE_SIZE. lia.
  - rewrite Hf. pose proof (zlen_nonneg cs). unfold MAX_KERNEL_IMAGE_SIZE, place_size. lia.
Qed.

(** ** Boot images *)

Lemma lookup_bytes m a n i : (bytes_at m a n) !! i = if decide (Z.of_nat i < n) then Some (m (a + Z.of_nat i)) else None.
Proof.
  unfold bytes_at. rewrite list_lookup_fmap. case_decide as Hi.
  - by rewrite lookup_seqZ_lt.
  - by rewrite lookup_seqZ_ge by lia.
Qed.

Lemma bytes_ext m m' a b n : (forall i, 0 <= i < n -> m' (b + i) = m (a + i)) -> bytes_at m' b n = bytes_at m a n.
Proof.
  intros Hm. apply list_eq. intros i. rewrite !lookup_bytes. case_decide; [|done]. by rewrite Hm by lia.
Qed.

Lemma memmove_target m dst src n : bytes_at (memmove m dst src n) dst n = bytes_at m src n.
Proof.
  apply bytes_ext. intros i Hi. unfold memmove. rewrite (proj2 (Z.leb_le _ _)), (proj2 (Z.ltb_lt _ _)) by lia.
  cbn [andb]. f_equal. lia.
Qed.

(** Areas that do not meet. *)
Definition disjoint_areas (a n b k : Z) : Prop := a + n <= b \/ b + k <= a.

Lemma memmove_elsewhere m dst src n a k : disjoint_areas dst n a k -> bytes_at (memmove m dst src n) a k = bytes_at m a k.
Proof.
  intros Hd. apply bytes_ext. intros i Hi. unfold memmove.
  destruct (Z.leb_spec dst (a + i)), (Z.ltb_spec (a + i) (dst + n)); cbn [andb]; try done. destruct Hd; lia.
Qed.

Lemma word_elsewhere m dst src n a : disjoint_areas dst n a 4 -> word_at (memmove m dst src n) a = word_at m a.
Proof. intros Hd. unfold word_at. by rewrite memmove_elsewhere. Qed.

Lemma land_high a k : 0 <= a < 2 ^ 32 -> 0 <= k <= 32 -> Z.land a (field_mask (32 - k) k) = a / 2 ^ k * 2 ^ k.
Proof.
  intros Ha Hk. rewrite <- Z.shiftr_div_pow2, <- Z.shiftl_mul_pow2 by lia. apply Z.bits_inj'. intros n Hn.
  rewrite Z.land_spec, testbit_field_mask, Z.shiftl_spec by lia. destruct (Z.leb_spec k n); cbn [andb].
  - rewrite Z.shiftr_spec by lia. replace (n - k + k) with n by lia. destruct (Z.ltb_spec n (k + (32 - k))); [apply andb_true_r|].
    rewrite andb_false_r. symmetry. apply (testbit_bounded a 32); lia.
  - rewrite andb_false_r, Z.testbit_neg_r by lia. done.
Qed.

(** Rounding up to a page. *)
Lemma ROUND_UP_POW2_spec n k : 0 < n -> 0 <= k < 32 -> n + 2 ^ k <= 2 ^ 32 -> ROUND_UP_POW2 n (2 ^ k) = (n - 1) / 2 ^ k * 2 ^ k + 2 ^ k.
Proof.
  intros Hn Hk Hl. unfold ROUND_UP_POW2. assert (0 < 2 ^ k) by lia.
  rewrite (u32_small (n - 1)), (u32_small (2 ^ k - 1)) by lia.
  assert (E : u32 (Z.lnot (2 ^ k - 1)) = field_mask (32 - k) k).
  { unfold field_mask, u32. rewrite Z.shiftl_mul_pow2, Z.ones_equiv by lia. unfold Z.lnot.
    replace (Z.pred (- (2 ^ k - 1))) with ((2 ^ 32 - 2 ^ k) + (-1) * 2 ^ 32) by lia.
    rewrite Z.mod_add, Z.mod_small by lia. rewrite Z.mul_pred_l, <- Z.pow_add_r by lia. f_equal. f_equal. lia. }
  rewrite E, land_high by lia. pose proof (Z.div_mod (n - 1) (2 ^ k) ltac:(lia)). pose proof (Z.mod_pos_bound (n - 1) (2 ^ k) ltac:(lia)).
  apply u32_small. nia.
Qed.

(** A boot image at [img]: pages of [2 ^ k] bytes, a header page, a kernel of [ks] bytes, and from the next page on a
    ramdisk of [rs] bytes. *)
Record boot_image (m : Z -> Z) (img k ks rs : Z) : Prop := {
  bi_magic : HAS_BOOT_IMG_HDR m img = true;
  bi_page : hdr_pagesize m img = 2 ^ k;
  bi_page_log : 0 <= k < 32;
  bi_kernel : hdr_kernelsize m img = ks;
  bi_kernel_size : 0 <= ks <= MAX_KERNEL_IMAGE_SIZE - TEXT_OFFSET;
  bi_ramdisk : hdr_ramdisksize m img = rs;
  bi_ramdisk_size : 0 <= rs <= RAMDISK_MAX_SIZE;
  bi_fits : 2 ^ k + ks + 2 ^ k <= 2 ^ 32;
  bi_addr : 0 <= img < 2 ^ 63
}.

Definition ramdisk_page (k ks : Z) : Z := (2 ^ k + ks - 1) / 2 ^ k * 2 ^ k + 2 ^ k.

(** A copy that does not touch the header leaves its fields. *)
Lemma header_elsewhere m dst src n img : disjoint_areas dst n img 64 ->
  HAS_BOOT_IMG_HDR (memmove m dst src n) img = HAS_BOOT_IMG_HDR m img /\
  hdr_pagesize (memmove m dst src n) img = hdr_pagesize m img /\
  hdr_kernelsize (memmove m dst src n) img = hdr_kernelsize m img /\
  hdr_ramdisksize (memmove m dst src n) img = hdr_ramdisksize m img.
Proof.
  intros Hd. unfold HAS_BOOT_IMG_HDR, hdr_pagesize, hdr_kernelsize, hdr_ramdisksize.
  rewrite memmove_elsewhere by (destruct Hd; [left|right]; lia).
  rewrite !word_elsewhere by (destruct Hd; [left|right]; lia). done.
Qed.

Section Image.
Context {M : Type} {BM : BootMedia M} (os_base : Z).
Implicit Types s : lx M.

Lemma extract_kernel_spec s img k ks rs n : boot_image (lx_mem s) img k ks rs -> places_ok os_base s ->
  is_compressed_content (lx_mem s) (img + 2 ^ k) = None ->
  extract_kernel os_base s img n = (TEGRABL_NO_ERROR, Some (kernel_base os_base + TEXT_OFFSET),
    set_mem (set_next_free s (free_from os_base s)) (memmove (lx_mem s) (kernel_base os_base + TEXT_OFFSET) (img + 2 ^ k) ks)).
Proof.
  intros [B1 B2 B3 B4 B5 B6 B7 B8 B9] P Hc. unfold extract_kernel. rewrite B1, B2, B4.
  rewrite (u64_small (img + 2 ^ k)) by lia.
  rewrite (proj2 (Z.ltb_ge _ _)) by (unfold TEXT_OFFSET in *; lia). rewrite kernel_place by done. by rewrite Hc.
Qed.

(** The place of the ramdisk is behind the kernel. *)
Lemma ramdisk_place s : places_ok os_base s -> free_from os_base s + place_size < 2 ^ 63 ->
  exists a s', tegrabl_get_ramdisk_load_addr os_base s = (a, s') /\ lx_mem s' = lx_mem s /\
    kernel_base os_base + MAX_KERNEL_IMAGE_SIZE <= a.
Proof.
  intros P Hs. destruct (give_next os_base s PRamdisk P Hs) as (a & n & s' & E & P' & _ & _ & Hm & Ha & _). cbn [give] in E.
  destruct (tegrabl_get_ramdisk_load_addr os_base s) as [a0 s0]. injection E as -> _ ->. exists a, s'. split; [done|]. split; [done|].
  pose proof (pl_behind _ _ P). lia.
Qed.

End Image.

(** * A kernel that does not fit, and examples *)

Lemma ROUND_UP64_aligned n w : 0 <= n -> 0 < w -> n + w < 2 ^ 64 -> n mod w = 0 -> ROUND_UP64 n w = n.
Proof.
  intros Hn Hw Hl Hm. destruct (ROUND_UP64_spec n w Hn Hw Hl) as [Hb Hr].
  apply Z.mod_divide in Hm as [q Eq]; [|lia]. apply Z.mod_divide in Hr as [q' Eq']; [|lia]. rewrite Eq' in *. subst n.
  assert (q' = q) by nia. by subst.
Qed.

Section Large.
Context {M : Type} {BM : BootMedia M}.
Implicit Types s : lx M.

(** The limit forgets the text offset.  A kernel may be as long as the whole of its area, but it is put [TEXT_OFFSET] bytes behind the
    start of the area: with the last 512 KB used and the carveout aligned to 16 MB, its end overwrites the
    start of the device tree, which was put behind the area before, and the call reports success. *)
Theorem large_kernel_overwrites_dtb os_base s img n dtb s1 : 0 <= os_base < 2 ^ 62 -> os_base mod DTB_ALIGNMENT = 0 ->
  os_carveout_next_free_addr s = 0 -> tegrabl_get_dtb_load_addr os_base s = (dtb, s1) ->
  HAS_BOOT_IMG_HDR (lx_mem s1) img = false -> is_compressed_content (lx_mem s1) img = None ->
  MAX_KERNEL_IMAGE_SIZE - TEXT_OFFSET < n <= MAX_KERNEL_IMAGE_SIZE ->
  exists s2, extract_kernel os_base s1 img n = (TEGRABL_NO_ERROR, Some (os_base + TEXT_OFFSET), s2) /\
    dtb = os_base + MAX_KERNEL_IMAGE_SIZE /\
    forall i, 0 <= i < n - (MAX_KERNEL_IMAGE_SIZE - TEXT_OFFSET) ->
      lx_mem s2 (dtb + i) = lx_mem s1 (img + (MAX_KERNEL_IMAGE_SIZE - TEXT_OFFSET) + i).
Proof.
  intros Hb Ha Hz E Hh Hc Hn.
  assert (Hk : kernel_base os_base = os_base).
  { apply ROUND_UP64_aligned; [lia|done|unfold KERNEL_ALIGNMENT; lia|].
    apply Z.mod_divide; [done|]. apply Z.mod_divide in Ha; [|done]. etrans; [|exact Ha]. by exists 8. }
  assert (P : places_ok os_base s) by (split; unfold free_from; rewrite ?Hz, ?Hk; cbn [Z.eqb]; unfold MAX_KERNEL_IMAGE_SIZE; lia).
  unfold tegrabl_get_dtb_load_addr in E. rewrite Hz, kernel_place in E by done. cbn [Z.eqb snd] in E.
  unfold free_from in E. rewrite Hz, Hk in E. cbn [Z.eqb set_next_free os_carveout_next_free_addr] in E.
  rewrite ROUND_UP64_aligned in E; [|unfold MAX_KERNEL_IMAGE_SIZE; lia|done|unfold MAX_KERNEL_IMAGE_SIZE, DTB_ALIGNMENT; lia|
    rewrite Z.add_mod, Ha by done; done].
  rewrite u64_small in E by (unfold MAX_KERNEL_IMAGE_SIZE, DTB_MAX_SIZE; lia). injection E as <- <-.
  unfold extract_kernel. rewrite Hh, (proj2 (Z.ltb_ge _ _)) by lia. unfold tegrabl_get_kernel_load_addr. fold (kernel_base os_base). rewrite Hk, Hc.
  cbn [os_carveout_next_free_addr set_next_free]. rewrite (proj2 (Z.eqb_neq _ 0)) by (unfold MAX_KERNEL_IMAGE_SIZE, DTB_MAX_SIZE; lia).
  rewrite (u64_small (os_base + TEXT_OFFSET)) by (unfold TEXT_OFFSET; lia).
  eexists. split; [done|]. split; [done|]. intros i Hi. cbn [lx_mem set_mem set_next_free]. unfold memmove.
  rewrite (proj2 (Z.leb_le _ _)), (proj2 (Z.ltb_lt _ _)) by (unfold TEXT_OFFSET, MAX_KERNEL_IMAGE_SIZE in *; lia). cbn [andb]. f_equal. lia.
Qed.
End Large.

(** ** Examples *)

(** Media of which some load; nothing is compressed or changed. *)
#[local] Instance demo_media : BootMedia (list Z) := {|
  net_boot_load_kernel_and_dtb s o :=
    (if decide (BOOT_FROM_NETWORK ∈ lx_media s) then TEGRABL_NO_ERROR else TEGRABL_ERR_NOT_FOUND, (BOOT_FROM_NETWORK, 0), s);
  usb_sd_boot_load_kernel_and_dtb d s o :=
    (if decide (d ∈ lx_media s) then TEGRABL_NO_ERROR else TEGRABL_ERR_NOT_FOUND, (d, 0, 0, 0), s);
  fixed_boot_load_kernel_and_dtb s o := (TEGRABL_NO_ERROR, mkOuts BOOT_FROM_BUILTIN_STORAGE 0 0 0 0, s);
  verify_boot s o := s;
  is_compressed_content m a := None;
  do_decompress d m a n b k := (TEGRABL_NO_ERROR, m);
  tegrabl_dt_create_space s a := (TEGRABL_NO_ERROR, s);
  tegrabl_linuxboot_update_dtb s a := (TEGRABL_NO_ERROR, s);
  extlinux_boot_get_status s := false;
  extlinux_boot_update_bootargs s a := (TEGRABL_NO_ERROR, s);
  release_media s a := s
|}.

Definition demo_lx (media : list Z) (mem : Z -> Z) : lx (list Z) := mkLx media mem 0 0 0 0 0.
Definition no_outs : outs := mkOuts 0 0 0 0 0.

(** Slot B of two. *)
Definition demo_reg : Z := 0xCAFE + 1 * 2 ^ 16 + 2 * 2 ^ 19.
Definition demo_order : list (list Z) := [str "sd"; str "usb"; str "net"].

(** With slot B the first medium is left out, although it would load, and the next one loads. *)
Lemma media_in_order_witness : exists o s,
  select_media demo_reg (0x1000, order_of demo_order) (demo_lx [BOOT_FROM_SD; BOOT_FROM_USB] (fun _ => 0)) no_outs
    = Ok (TEGRABL_NO_ERROR, o, s) /\ boot_img_load_addr o = BOOT_FROM_USB.
Proof.
  destruct (media_in_order demo_reg 0x1000 demo_order (demo_lx [BOOT_FROM_SD; BOOT_FROM_USB] (fun _ => 0)) no_outs)
    as (f & o1 & s1 & _ & [H|H]); [done| |].
  - destruct H as (d & more & o & s & _ & _ & E). exists o, s. split; [exact E|]. vm_compute in E. by injection E as <- <-.
  - destruct H as [_ E]. vm_compute in E. injection E as <- <-. eexists _, _. split; vm_compute; reflexivity.
Defined.

Lemma places_disjoint_witness :
  ForallOrdPairs apart (gives 0x80000000 (demo_lx [] (fun _ => 0)) [PDtb; PKernel; PRamdisk; PDtb]).1.
Proof. apply (places_disjoint 0x80000000 (demo_lx [] (fun _ => 0)) [PDtb; PKernel; PRamdisk; PDtb]); done. Defined.

(** An image at 0xa0000000: pages of 2 KB, a kernel of 4 KB of ones, a ramdisk of 1 KB of twos. *)
Definition demo_header : list Z :=
  ANDROID_MAGIC ++ [0; 16; 0; 0] ++ [0; 0; 0; 0] ++ [0; 4; 0; 0] ++ replicate 16 0 ++ [0; 8; 0; 0].
Definition demo_mem (a : Z) : Z :=
  let i := a - 0xa0000000 in
  if (0 <=? i) && (i <? 40) then nth (Z.to_nat i) demo_header 0
  else if (2048 <=? i) && (i <? 6144) then 1
  else if (6144 <=? i) && (i <? 7168) then 2 else 0.


Lemma large_kernel_overwrites_dtb_witness : exists s2,
  extract_kernel 0x80000000 (tegrabl_get_dtb_load_addr 0x80000000 (demo_lx [] (fun a => a mod 256))).2 0xb0000000 MAX_KERNEL_IMAGE_SIZE
    = (TEGRABL_NO_ERROR, Some 0x80080000, s2) /\ lx_mem s2 (0x90000000 + 5) = 5.
Proof.
  destruct (large_kernel_overwrites_dtb 0x80000000 (demo_lx [] (fun a => a mod 256)) 0xb0000000 MAX_KERNEL_IMAGE_SIZE
    0x90000000 (tegrabl_get_dtb_load_addr 0x80000000 (demo_lx [] (fun a => a mod 256))).2) as (s2 & E & _ & Hm);
    [done|done|done|vm_compute; reflexivity|vm_compute; reflexivity|reflexivity|vm_compute; split; congruence|].
  exists s2. split; [exact E|]. rewrite Hm by (unfold MAX_KERNEL_IMAGE_SIZE, TEXT_OFFSET; lia). vm_compute. reflexivity.
Defined.
