(* ===== verification/Extlinux.v ===== *)
(** The file extlinux.conf (common/lib/linuxboot/extlinux_boot.c): lines are cut out of the text in
    place, stripped of comments and spaces and taken apart into a timeout, a default and sections;
    then a user may choose a section.

    The text lies in a block of memory; pointers into it are offsets, [None] is [NULL].  The
    parser writes zeros into the block, and what it finds are offsets into it. *)

From S2P Require Import Prelude TegraError Utils BlockDev Cbo LinuxLoad.

Definition NL : Z := 10.
Definition HASH : Z := 35.

(** [isspace] of ctype.c *)
Definition isspace (c : Z) : bool := Strtoul.isspace c.

(** ** Strings in a block *)

Section Block.
Implicit Types b l : list Z.

Definition byte_at b (i : Z) : res Z :=
  if 0 <=? i then match b !! Z.to_nat i with Some c => Ok c | None => Stuck OutOfBounds end
  else Stuck OutOfBounds.
Definition put_byte b (i v : Z) : res (list Z) := store_at i [v] b.
Definition bytes_from b (p : Z) : list Z := drop (Z.to_nat p) b.

(** [strlen] and the string itself. *)
Definition string_from b (p : Z) : res (list Z) :=
  if bool_decide (0 ∈ bytes_from b p) then Ok (cstr (bytes_from b p)) else Stuck OutOfBounds.

(** The loops of [strspn] and [strpbrk]: [l] are the bytes from [p] on. *)
Fixpoint span_loop l (p : Z) (delim : list Z) : res Z :=
  match l with
  | [] => Stuck OutOfBounds
  | c :: l => if (c =? 0) || negb (bool_decide (c ∈ delim)) then Ok p else span_loop l (p + 1) delim
  end.
Definition strspn b (p : Z) (delim : list Z) : res Z :=
  let* q := span_loop (bytes_from b p) p delim in Ok (q - p).
Fixpoint pbrk_loop l (p : Z) (delim : list Z) : res (option Z) :=
  match l with
  | [] => Stuck OutOfBounds
  | c :: l =>
      if c =? 0 then Ok None
      else if bool_decide (c ∈ delim) then Ok (Some p) else pbrk_loop l (p + 1) delim
  end.
Definition strpbrk b (p : Z) (delim : list Z) : res (option Z) := pbrk_loop (bytes_from b p) p delim.

(** The token, the block and [___strtok]. *)
Definition strtok b (saved str : option Z) (delim : list Z) : res (option Z * list Z * option Z) :=
  match (if str is Some _ then str else saved) with
  | None => Ok (None, b, saved)
  | Some sbegin =>
      let* n := strspn b sbegin delim in
      let sbegin := sbegin + n in
      let* c := byte_at b sbegin in
      if c =? 0 then Ok (None, b, None)
      else
        let* send := strpbrk b sbegin delim in
        match send with
        | None => Ok (Some sbegin, b, None)
        | Some send => let* b := put_byte b send 0 in Ok (Some sbegin, b, Some (send + 1))
        end
  end.

(** [strncmp(key, str, strlen(key)) == 0] *)
Fixpoint has_key (key l : list Z) : res bool :=
  match key, l with
  | [], _ => Ok true
  | _, [] => Stuck OutOfBounds
  | k :: key, c :: l => if k =? c then has_key key l else Ok false
  end.

(** ** Lines *)

Fixpoint skip_loop l (p : Z) : res Z :=
  match l with
  | [] => Stuck OutOfBounds
  | c :: l => if (c =? NL) || (c =? 0) || negb (isspace c) then Ok p else skip_loop l (p + 1)
  end.
Definition skip_leading_whitespace b (p : Z) : res Z := skip_loop (bytes_from b p) p.

(** The loop for "Remove leading whitespace and trailing comment": where it stops, the first character
    that is not a space, and whether a comment starts here. *)
Fixpoint scan_loop l (s : Z) (first : option Z) : res (Z * option Z * bool) :=
  match l with
  | [] => Stuck OutOfBounds
  | c :: l =>
      if (c =? NL) || (c =? 0) then Ok (s, first, false)
      else if isspace c then scan_loop l (s + 1) first
      else
        let first := if first is None then Some s else first in
        if c =? HASH then Ok (s, first, true) else scan_loop l (s + 1) first
  end.

(** The loop for "Remove trailing whitespace"; [n] bounds the steps to the start of the block. *)
Fixpoint trim_loop (n : nat) b (s first : Z) : res (list Z) :=
  match n with
  | O => Stuck OutOfFuel
  | S n =>
      if s =? first then Ok b
      else
        let* c := byte_at b s in
        if negb (isspace c) then Ok b
        else let* b := put_byte b s 0 in trim_loop n b (s - 1) first
  end.

Definition remove_whitespace_and_comment b (str : Z) : res (Z * list Z) :=
  let* (s, first, comment) := scan_loop (bytes_from b str) str None in
  let* b := if comment : bool then put_byte b s 0 else Ok b in
  let first := default str first in
  let* b := trim_loop (S (Z.to_nat s)) b (s - 1) first in
  Ok (first, b).

Definition extract_val b (str : Z) (key : list Z) : res Z := skip_leading_whitespace b (str + zlen key).
End Block.

(** ** The configuration *)

(** [struct boot_section] *)
Record boot_section := mkSection {
  label : option Z; menu_label : option Z; linux_path : option Z; dtb_path : option Z;
  initrd_path : option Z; boot_args : option Z
}.
Definition no_section : boot_section := mkSection None None None None None None.
Definition sizeof_boot_section : Z := 48.
Definition MAX_SECTIONS : Z := 20.

(** [struct conf], what its pointers point to, the block with the text and the waiting time. *)
Record conf (H : Type) := mkConf {
  cf_heap : H; cf_buf : list Z; default_boot_entry : Z; menu_title : option Z;
  section : list Z; sections : gmap Z boot_section; num_boot_entries : Z;
  user_input_wait_timeout_ms : Z
}.
Arguments mkConf {H}. Arguments cf_heap {H}. Arguments cf_buf {H}. Arguments default_boot_entry {H}.
Arguments menu_title {H}. Arguments section {H}. Arguments sections {H}. Arguments num_boot_entries {H}.
Arguments user_input_wait_timeout_ms {H}.

Section Conf.
Context {H : Type} {AL : Allocator H}.
Implicit Types c : conf H.

Definition set_buf c (b : list Z) : conf H :=
  mkConf (cf_heap c) b (default_boot_entry c) (menu_title c) (section c) (sections c) (num_boot_entries c) (user_input_wait_timeout_ms c).
Definition set_title c (t : option Z) : conf H :=
  mkConf (cf_heap c) (cf_buf c) (default_boot_entry c) t (section c) (sections c) (num_boot_entries c) (user_input_wait_timeout_ms c).
Definition set_sections c (h : H) (l : list Z) (m : gmap Z boot_section) : conf H :=
  mkConf h (cf_buf c) (default_boot_entry c) (menu_title c) l m (num_boot_entries c) (user_input_wait_timeout_ms c).
Definition set_default c (n : Z) : conf H :=
  mkConf (cf_heap c) (cf_buf c) n (menu_title c) (section c) (sections c) (num_boot_entries c) (user_input_wait_timeout_ms c).
Definition set_entries c (n : Z) : conf H :=
  mkConf (cf_heap c) (cf_buf c) (default_boot_entry c) (menu_title c) (section c) (sections c) n (user_input_wait_timeout_ms c).
Definition set_timeout c (t : Z) : conf H :=
  mkConf (cf_heap c) (cf_buf c) (default_boot_entry c) (menu_title c) (section c) (sections c) (num_boot_entries c) t.

(** [extlinux_conf->section[entry]] and what it points to. *)
Definition section_at c (entry : Z) : res (Z * boot_section) :=
  let* p := byte_at (section c) entry in
  match sections c !! p with Some x => Ok (p, x) | None => Stuck BadPointer end.

(** Locals of the parser. *)
Record plocals := mkLocals { timeout : option Z; default_boot : option Z; entry : Z }.

Inductive field := FMenuLabel | FLinux | FInitrd | FFdt | FAppend.
Definition set_section_field (x : boot_section) (f : field) (v : Z) : boot_section :=
  match f with
  | FMenuLabel => mkSection (label x) (Some v) (linux_path x) (dtb_path x) (initrd_path x) (boot_args x)
  | FLinux => mkSection (label x) (menu_label x) (Some v) (dtb_path x) (initrd_path x) (boot_args x)
  | FInitrd => mkSection (label x) (menu_label x) (linux_path x) (dtb_path x) (Some v) (boot_args x)
  | FFdt => mkSection (label x) (menu_label x) (linux_path x) (Some v) (initrd_path x) (boot_args x)
  | FAppend => mkSection (label x) (menu_label x) (linux_path x) (dtb_path x) (initrd_path x) (Some v)
  end.

(** The keys of a section, in the order they are tried. *)
Definition section_keys : list (list Z * field) :=
  [(str "MENU LABEL", FMenuLabel); (str "LINUX", FLinux); (str "INITRD", FInitrd); (str "FDT", FFdt);
   (str "APPEND", FAppend)].

Fixpoint parse_section_line (keys : list (list Z * field)) c (e p : Z) : res (conf H) :=
  match keys with
  | [] => Ok c
  | (key, f) :: keys =>
      let* k := has_key key (bytes_from (cf_buf c) p) in
      if k : bool then
        let* v := extract_val (cf_buf c) p key in
        let* (a, x) := section_at c e in
        Ok (set_sections c (cf_heap c) (section c) (<[a := set_section_field x f v]> (sections c)))
      else parse_section_line keys c e p
  end.

(** "LABEL": a new section. *)
Definition new_section c (l : plocals) (p : Z) : res (Z * conf H * plocals) :=
  let e := entry l + 1 in
  let l := mkLocals (timeout l) (default_boot l) e in
  let '(a, h) := heap_malloc (cf_heap c) sizeof_boot_section in
  let* ptrs := store_at e [a] (section c) in
  if a =? NULL then Ok (LX_ERR TEGRABL_ERR_NO_MEMORY 0, set_sections c h ptrs (sections c), l)
  else
    let* v := extract_val (cf_buf c) p (str "LABEL") in
    let x := mkSection (Some v) None None None None None in
    Ok (TEGRABL_NO_ERROR, set_sections c h ptrs (<[a := x]> (sections c)), l).

(** One iteration of the loop of [parse_conf_file], on the stripped line at [p]. *)
Definition parse_line c (l : plocals) (p : Z) : res (Z * conf H * plocals) :=
  let b := cf_buf c in
  let bs := bytes_from b p in
  let* ch := byte_at b p in
  if ch =? 0 then Ok (TEGRABL_NO_ERROR, c, l)
  else
    let* k := has_key (str "TIMEOUT") bs in
    if k : bool then
      let* v := extract_val b p (str "TIMEOUT") in
      Ok (TEGRABL_NO_ERROR, c, mkLocals (Some v) (default_boot l) (entry l))
    else
    let* k := has_key (str "DEFAULT") bs in
    if k : bool then
      let* v := extract_val b p (str "DEFAULT") in
      Ok (TEGRABL_NO_ERROR, c, mkLocals (timeout l) (Some v) (entry l))
    else
    let* k := has_key (str "MENU TITLE") bs in
    if k : bool then
      let* v := extract_val b p (str "MENU TITLE") in Ok (TEGRABL_NO_ERROR, set_title c (Some v), l)
    else
    let* k := has_key (str "LABEL") bs in
    if k : bool then new_section c l p
    else if entry l <? 0 then Ok (TEGRABL_NO_ERROR, c, l)
    else let* c := parse_section_line section_keys c (entry l) p in Ok (TEGRABL_NO_ERROR, c, l).

(** The loop over the lines; a line takes a byte at least, so the bytes of the block bound their number. *)
Fixpoint parse_lines (n : nat) c (l : plocals) (saved : option Z) (token : Z) : res (Z * conf H * plocals) :=
  match n with
  | O => Stuck OutOfFuel
  | S n =>
      let* (p, b) := remove_whitespace_and_comment (cf_buf c) token in
      let* (err, c, l) := parse_line (set_buf c b) l p in
      if negb (err =? TEGRABL_NO_ERROR) then Ok (err, c, l)
      else
        let* (token, b, saved) := strtok (cf_buf c) saved None [NL] in
        let c := set_buf c b in
        match token with
        | None => Ok (TEGRABL_NO_ERROR, c, l)
        | Some token => parse_lines n c l saved token
        end
  end.

(** The last entry whose label the default starts; [es] are the entries still to look at. *)
Fixpoint find_default c (es : list Z) (default_boot : option Z) : res (conf H) :=
  match es with
  | [] => Ok c
  | e :: es =>
      let* (_, x) := section_at c e in
      match label x, default_boot with
      | Some lb, Some d =>
          let* ds := string_from (cf_buf c) d in
          let* k := has_key ds (bytes_from (cf_buf c) lb) in
          find_default (if k : bool then set_default c e else c) es default_boot
      | _, _ => Stuck BadPointer
      end
  end.

(** [timeout] is a number of tenths of a second. *)
Definition wait_time c (timeout : option Z) : res Z :=
  match timeout with
  | Some t => let* s := string_from (cf_buf c) t in Ok (u64 ((Strtoul.tegrabl_utils_strtoul s 10).1 / 10 * 1000))
  | None => Ok 0
  end.

Definition parse_conf_file c : res (Z * conf H) :=
  let* (token, b, saved) := strtok (cf_buf c) None (Some 0) [NL] in
  let c := set_buf c b in
  match token with
  | None => Ok (TEGRABL_NO_ERROR, c)
  | Some token =>
      let* (err, c, l) := parse_lines (length b) c (mkLocals None None (-1)) saved token in
      if negb (err =? TEGRABL_NO_ERROR) then Ok (err, c)
      else
        let* t := wait_time c (timeout l) in
        let c := set_timeout c t in
        let c := set_entries c (u32 (entry l + 1)) in
        let* c := find_default c (seqZ 0 (num_boot_entries c)) (default_boot l) in
        Ok (TEGRABL_NO_ERROR, c)
  end.

(** ** The menu *)

(** What a key press stands for: [inl] ends the loop. *)
Definition menu_key c (ch : Z) : Z + unit :=
  if (49 <=? ch) && (ch <=? 48 + s32 (num_boot_entries c)) then inl (ch - 48 - 1)
  else if ch =? -1 then inl (default_boot_entry c)
  else inr tt.

(** [keys] is what [tegrabl_getc_wait] and [tegrabl_getc] return one after the other; [None] if the
    loop still waits. *)
Fixpoint menu_loop c (keys : list Z) : option Z :=
  match keys with
  | [] => None
  | ch :: keys => match menu_key c ch with inl e => Some e | inr _ => menu_loop c keys end
  end.

(** The titles and labels are printed first, through the pointers of the sections. *)
Fixpoint print_entries c (es : list Z) : res unit :=
  match es with
  | [] => Ok tt
  | e :: es => let* _ := section_at c e in print_entries c es
  end.
Definition display_boot_menu c (keys : list Z) : res (option Z) :=
  let* _ := print_entries c (seqZ 0 (num_boot_entries c)) in Ok (menu_loop c keys).
End Conf.
Arguments mkLocals : clear implicits.
