(* ===== verification/ExtlinuxProps.v ===== *)
(** extlinux.conf: strtok and the removal of spaces on lines, a reference parser on lists of lines, and that
    the parser of the code agrees with it. *)

From S2P Require Import Prelude TegraError Utils BlockDev BlockDevFacts Models Cbo LinuxLoad Extlinux.

(** ** Lines, by themselves *)

Fixpoint lines (l : list Z) : list (list Z) :=
  match l with
  | [] => [[]]
  | c :: l =>
      if c =? NL then [] :: lines l
      else match lines l with x :: xs => (c :: x) :: xs | [] => [[c]] end
  end.

(** Empty lines do not count. *)
Definition tokens (l : list Z) : list (list Z) := filter (fun x => x <> []) (lines l).

Fixpoint before_hash (l : list Z) : list Z :=
  match l with
  | [] => []
  | c :: l => if c =? HASH then [] else c :: before_hash l
  end.

Fixpoint ltrim (l : list Z) : list Z :=
  match l with
  | c :: l' => if isspace c then ltrim l' else l
  | [] => []
  end.
Definition rtrim (l : list Z) : list Z := reverse (ltrim (reverse l)).
Definition strip (l : list Z) : list Z := rtrim (ltrim (before_hash l)).

Definition spaces (l : list Z) : Prop := Forall (fun c => isspace c = true) l.
Definition newlines (l : list Z) : Prop := Forall (fun c => c = NL) l.
Definition no_nl (l : list Z) : Prop := Forall (fun c => c <> NL) l.

Lemma isspace_0 : isspace 0 = false.
Proof. done. Qed.

Lemma newlines_spaces l : newlines l -> spaces l.
Proof. intros Hl. eapply Forall_impl; [exact Hl|]. by intros c ->. Qed.

Lemma ltrim_split l : exists w, l = w ++ ltrim l /\ spaces w.
Proof.
  induction l as [|c l [w [E Hw]]]; [exists []; by split; [|constructor]|]. cbn. destruct (isspace c) eqn:Ec.
  - exists (c :: w). split; [cbn; f_equal; exact E|by constructor].
  - exists []. split; [done|constructor].
Qed.

Lemma ltrim_head l c l' : ltrim l = c :: l' -> isspace c = false.
Proof. induction l as [|d l IH]; cbn; [done|]. destruct (isspace d) eqn:E; [done|]. by intros [= <- <-]. Qed.

Lemma rtrim_split l : exists w, l = rtrim l ++ w /\ spaces w.
Proof.
  unfold rtrim. destruct (ltrim_split (reverse l)) as (w & E & Hw). exists (reverse w). split.
  - rewrite <- reverse_app, <- E. by rewrite reverse_involutive.
  - by apply Forall_reverse.
Qed.

Lemma rtrim_last l x c : rtrim l = x ++ [c] -> isspace c = false.
Proof.
  unfold rtrim. intros E. apply (f_equal reverse) in E. rewrite reverse_involutive, reverse_app in E. by apply ltrim_head in E.
Qed.

Lemma ltrim_spaces w l : spaces w -> ltrim (w ++ l) = ltrim l.
Proof. induction 1 as [|c w Hc Hw IH]; [done|]. cbn. by rewrite Hc. Qed.

Lemma rtrim_nil l : rtrim l = [] -> spaces l.
Proof. intros E. destruct (rtrim_split l) as (w & El & Hw). by rewrite El, E. Qed.

Lemma before_hash_split l : (before_hash l = l) \/ exists com, l = before_hash l ++ HASH :: com.
Proof.
  induction l as [|c l IH]; [by left|]. cbn. destruct (Z.eqb_spec c HASH) as [-> |Hc]; [right; by exists l|].
  destruct IH as [E|[com E]]; [left; by rewrite E|right; exists com]. cbn. by rewrite <- E.
Qed.

Lemma before_hash_none l : Forall (fun c => c <> HASH) (before_hash l).
Proof. induction l as [|c l IH]; [constructor|]. cbn. destruct (Z.eqb_spec c HASH); [constructor|by constructor]. Qed.

(** ** Splitting off the first line *)

Lemma lines_line line rest : no_nl line -> lines (line ++ NL :: rest) = line :: lines rest.
Proof. induction 1 as [|c l Hc Hl IH]; [done|]. cbn. rewrite (proj2 (Z.eqb_neq c NL)), IH by done. done. Qed.

Lemma lines_last line : no_nl line -> lines line = [line].
Proof. induction 1 as [|c l Hc Hl IH]; [done|]. cbn. by rewrite (proj2 (Z.eqb_neq c NL)), IH by done. Qed.

Lemma tokens_newlines nls l : newlines nls -> tokens (nls ++ l) = tokens l.
Proof. unfold tokens. induction 1 as [|c nls -> Hn IH]; [done|]. cbn [app lines]. rewrite Z.eqb_refl, filter_cons_False by auto. done. Qed.

Lemma tokens_cases text :
  (newlines text /\ tokens text = []) \/
  exists nls line rest, text = nls ++ line ++ rest /\ newlines nls /\ line <> [] /\ no_nl line /\
    ((rest = [] /\ tokens text = [line]) \/ exists rest', rest = NL :: rest' /\ tokens text = line :: tokens rest').
Proof.
  assert (Hs : forall l, exists line rest, l = line ++ rest /\ no_nl line /\ (rest = [] \/ exists r, rest = NL :: r)).
  { induction l as [|c l (line & rest & -> & Hn & Hr)]; [exists [], []; split; [done|]; split; [constructor|by left]|].
    destruct (Z.eq_dec c NL) as [-> |Hc]; [exists [], (NL :: line ++ rest)|exists (c :: line), rest].
    - split; [done|]. split; [constructor|right; by eexists].
    - split; [done|]. split; [by constructor|done]. }
  assert (Hw : forall l, exists nls l', l = nls ++ l' /\ newlines nls /\ (l' = [] \/ exists c r, l' = c :: r /\ c <> NL)).
  { induction l as [|c l (nls & l' & -> & Hn & Hr)]; [exists [], []; split; [done|]; split; [constructor|by left]|].
    destruct (Z.eq_dec c NL) as [-> |Hc]; [exists (NL :: nls), l'|exists [], (c :: nls ++ l')].
    - split; [done|]. split; [by constructor|done].
    - split; [done|]. split; [constructor|right; by eexists _, _]. }
  destruct (Hw text) as (nls & l' & -> & Hn & Hl). destruct Hl as [-> | (c & r & -> & Hc)].
  - left. rewrite app_nil_r. split; [done|]. rewrite <- (app_nil_r nls), tokens_newlines by done. done.
  - right. destruct (Hs (c :: r)) as (line & rest & E & Hline & Hr). exists nls, line, rest. rewrite E. split; [done|]. split; [done|].
    assert (Hne : line <> []) by (intros ->; destruct Hr as [-> | [r' ->]]; [done|injection E as -> _; done]).
    split; [done|]. split; [done|]. rewrite tokens_newlines by done. unfold tokens. destruct Hr as [-> | [r' ->]].
    + left. split; [done|]. rewrite app_nil_r, lines_last by done. by rewrite filter_cons_True.
    + right. exists r'. split; [done|]. rewrite lines_line by done. by rewrite filter_cons_True.
Qed.

(** ** The block *)

Lemma bytes_at_end (pre l : list Z) : bytes_from (pre ++ l) (zlen pre) = l.
Proof. unfold bytes_from, zlen. rewrite Nat2Z.id. by apply drop_app_length. Qed.

Lemma byte_at_end (pre : list Z) c l : byte_at (pre ++ c :: l) (zlen pre) = Ok c.
Proof.
  unfold byte_at. rewrite (proj2 (Z.leb_le _ _)) by apply zlen_nonneg. unfold zlen. rewrite Nat2Z.id.
  by rewrite list_lookup_middle by done.
Qed.

Lemma put_byte_end (pre : list Z) c l v : put_byte (pre ++ c :: l) (zlen pre) v = Ok (pre ++ v :: l).
Proof.
  unfold put_byte. rewrite store_at_ok; [|apply zlen_nonneg|rewrite zlen_app; unfold zlen; cbn; lia].
  unfold splice, zlen. rewrite Nat2Z.id, take_app_length. f_equal. f_equal. cbn [length app]. f_equal.
  rewrite drop_app_ge by lia. by replace (length pre + 1 - length pre)%nat with 1%nat by lia.
Qed.

Lemma span_newlines nls c l p : newlines nls -> c <> NL -> span_loop (nls ++ c :: l) p [NL] = Ok (p + zlen nls).
Proof.
  intros Hn Hc. revert p. induction Hn as [|d nls -> Hn IH]; intros p; cbn [app span_loop].
  - rewrite bool_decide_false by (rewrite list_elem_of_singleton; done). cbn [negb]. rewrite orb_true_r. rewrite Z.add_0_r. done.
  - rewrite bool_decide_true by (apply list_elem_of_singleton; done). cbn [negb orb Z.eqb NL]. rewrite IH. f_equal. unfold zlen. cbn [length]. lia.
Qed.

Lemma pbrk_line line l p : no_nl line -> nonzero line -> pbrk_loop (line ++ NL :: l) p [NL] = Ok (Some (p + zlen line)).
Proof.
  intros Hn Hz. revert p. induction Hn as [|c line Hc Hn IH]; intros p; cbn [app pbrk_loop].
  - cbn [Z.eqb NL]. rewrite bool_decide_true by (apply list_elem_of_singleton; done). by rewrite Z.add_0_r.
  - apply Forall_cons in Hz as [Hc0 Hz]. rewrite (proj2 (Z.eqb_neq c 0)), bool_decide_false by (rewrite ?list_elem_of_singleton; done).
    rewrite IH by done. do 2 f_equal. unfold zlen. cbn [length]. lia.
Qed.

Lemma pbrk_last line l p : no_nl line -> nonzero line -> pbrk_loop (line ++ 0 :: l) p [NL] = Ok None.
Proof.
  intros Hn Hz. revert p. induction Hn as [|c line Hc Hn IH]; intros p; cbn [app pbrk_loop]; [done|].
  apply Forall_cons in Hz as [Hc0 Hz]. rewrite (proj2 (Z.eqb_neq c 0)), bool_decide_false by (rewrite ?list_elem_of_singleton; done). by apply IH.
Qed.

Section Strtok.
Context (pre nls post : list Z) (saved s0 : option Z).
Hypothesis Hn : newlines nls.
Hypothesis Hp : (if s0 is Some _ then s0 else saved) = Some (zlen pre).

Lemma strspn_newlines c l : c <> NL -> strspn (pre ++ nls ++ c :: l) (zlen pre) [NL] = Ok (zlen nls).
Proof. intros Hc. unfold strspn. rewrite bytes_at_end, span_newlines by done. cbn [res_bind]. f_equal. lia. Qed.

Lemma strtok_end : strtok (pre ++ nls ++ 0 :: post) saved s0 [NL] = Ok (None, pre ++ nls ++ 0 :: post, None).
Proof.
  unfold strtok. rewrite Hp, strspn_newlines by done. cbn [res_bind]. rewrite <- zlen_app, app_assoc, byte_at_end. done.
Qed.

Context (line : list Z).
Hypothesis Hne : line <> [].
Hypothesis Hl : no_nl line.
Hypothesis Hz : nonzero line.

Lemma strtok_line : strtok (pre ++ nls ++ line ++ NL :: post) saved s0 [NL] =
  Ok (Some (zlen pre + zlen nls), pre ++ nls ++ line ++ 0 :: post, Some (zlen pre + zlen nls + zlen line + 1)).
Proof.
  destruct line as [|c line'] eqn:E; [done|]. rewrite <- E in *. unfold strtok. rewrite Hp.
  assert (c <> NL /\ c <> 0) as [Hc Hc0] by (rewrite E in Hl, Hz; by apply Forall_cons in Hl as [? _], Hz as [? _]).
  rewrite E at 1. cbn [app]. rewrite strspn_newlines by done. cbn [res_bind].
  rewrite <- zlen_app, !(app_assoc pre nls). rewrite E at 1. cbn [app]. rewrite byte_at_end. cbn [res_bind]. rewrite (proj2 (Z.eqb_neq c 0)) by done.
  unfold strpbrk. rewrite bytes_at_end, pbrk_line by done. cbn [res_bind].
  rewrite <- zlen_app, (app_assoc (pre ++ nls)), put_byte_end. cbn [res_bind]. by rewrite <- app_assoc.
Qed.

Lemma strtok_last : strtok (pre ++ nls ++ line ++ 0 :: post) saved s0 [NL] =
  Ok (Some (zlen pre + zlen nls), pre ++ nls ++ line ++ 0 :: post, None).
Proof.
  destruct line as [|c line'] eqn:E; [done|]. rewrite <- E in *. unfold strtok. rewrite Hp.
  assert (c <> NL /\ c <> 0) as [Hc Hc0] by (rewrite E in Hl, Hz; by apply Forall_cons in Hl as [? _], Hz as [? _]).
  rewrite E at 1. cbn [app]. rewrite strspn_newlines by done. cbn [res_bind].
  rewrite <- zlen_app, !(app_assoc pre nls). rewrite E at 1. cbn [app]. rewrite byte_at_end. cbn [res_bind]. rewrite (proj2 (Z.eqb_neq c 0)) by done.
  unfold strpbrk. by rewrite bytes_at_end, pbrk_last by done.
Qed.
End Strtok.

(** ** Stripping in place *)

Definition zeros (l : list Z) : list Z := replicate (length l) 0.

(** Concatenations and their lengths. *)
Ltac flat := repeat first [rewrite <- app_assoc | progress cbn [app]]; done.
Ltac len := unfold zlen, zeros; repeat first [rewrite length_app | rewrite length_replicate | progress cbn [length]]; lia.

(** Spaces [w] before [r] are cleared back to the last character of [l], which is no space or is where
    the line starts. *)
Lemma trim_spaces l d w r n first : spaces w -> isspace d = false \/ first = zlen l ->
  first <= zlen l \/ zlen l + 1 + zlen w <= first -> (length (l ++ d :: w) <= n)%nat ->
  trim_loop n (l ++ d :: w ++ r) (zlen l + zlen w) first = Ok (l ++ d :: zeros w ++ r).
Proof.
  intros Hw Hd. revert r n. induction w as [|c w IH] using rev_ind; intros r n Hf Hn.
  - cbn [app zeros length replicate]. change (zlen []) with 0. rewrite Z.add_0_r. rewrite length_app in Hn. cbn in Hn.
    destruct n as [|n]; [lia|]. cbn [trim_loop]. destruct (Z.eqb_spec (zlen l) first); [done|].
    rewrite byte_at_end. cbn [res_bind]. destruct Hd as [-> |]; [done|lia].
  - apply Forall_app in Hw as [Hw Hc]. apply Forall_cons in Hc as [Hc _].
    rewrite zlen_app in *. change (zlen [c]) with 1 in *. pose proof (zlen_nonneg w). pose proof (zlen_nonneg l).
    rewrite length_app in Hn. cbn [length] in Hn. rewrite length_app in Hn. cbn [length] in Hn.
    destruct n as [|n]; [lia|]. cbn [trim_loop]. rewrite (proj2 (Z.eqb_neq _ first)) by lia.
    replace (l ++ d :: (w ++ [c]) ++ r) with ((l ++ d :: w) ++ c :: r) by (rewrite <- app_assoc; cbn; by rewrite <- app_assoc).
    replace (zlen l + (zlen w + 1)) with (zlen (l ++ d :: w)) by (rewrite zlen_app; unfold zlen; cbn [length]; lia).
    rewrite byte_at_end. cbn [res_bind]. rewrite Hc. cbn [negb]. rewrite put_byte_end. cbn [res_bind].
    replace (zlen (l ++ d :: w) - 1) with (zlen l + zlen w) by (rewrite zlen_app; unfold zlen; cbn [length]; lia).
    rewrite <- app_assoc. cbn [app]. rewrite IH; [|done|lia|rewrite length_app; cbn [length]; lia].
    unfold zeros. rewrite length_app. cbn [length]. rewrite replicate_add. cbn [replicate]. by rewrite <- app_assoc.
Qed.

(** The scan over a line of spaces, or up to the first character that is none. *)
Lemma scan_spaces w l s f : spaces w -> no_nl w -> nonzero w -> scan_loop (w ++ l) s f = scan_loop l (s + zlen w) f.
Proof.
  intros Hw Hn Hz. revert s. induction Hw as [|c w Hc Hw IH]; intros s; [by rewrite Z.add_0_r|].
  apply Forall_cons in Hn as [Hn Hn'], Hz as [Hz Hz']. cbn [app scan_loop].
  rewrite (proj2 (Z.eqb_neq c NL)), (proj2 (Z.eqb_neq c 0)), Hc by done. cbn [orb]. rewrite IH by done. f_equal. unfold zlen. cbn [length]. lia.
Qed.

(** The scan over the rest of a line. *)
Lemma scan_body l rest s f : no_nl l -> nonzero l -> Forall (fun c => c <> HASH) l ->
  scan_loop (l ++ rest) s (Some f) = scan_loop rest (s + zlen l) (Some f).
Proof.
  intros Hn Hz Hh. revert s. induction Hn as [|c l Hc Hn IH]; intros s; [by rewrite Z.add_0_r|].
  apply Forall_cons in Hz as [Hz Hz'], Hh as [Hh Hh']. cbn [app scan_loop].
  rewrite (proj2 (Z.eqb_neq c NL)), (proj2 (Z.eqb_neq c 0)), (proj2 (Z.eqb_neq c HASH)) by done. cbn [orb].
  destruct (isspace c); rewrite IH by done; f_equal; unfold zlen; cbn [length]; lia.
Qed.

(** A string in the block: its place and its characters. *)
Definition str_in (b : list Z) (o : Z) (v : list Z) : Prop :=
  nonzero v /\ exists x y, b = x ++ v ++ 0 :: y /\ zlen x = o.

(** What a line becomes: the stripped line, or for a line of spaces one of them. *)
Definition stripped (line v : list Z) : Prop :=
  v = strip line \/ (strip line = [] /\ exists c, v = [c] /\ isspace c = true /\ c <> NL).

Definition comment_only (line : list Z) : Prop := head (ltrim line) = Some HASH.

Lemma before_hash_app w l : Forall (fun c => c <> HASH) w -> before_hash (w ++ l) = w ++ before_hash l.
Proof. induction 1 as [|c w Hc Hw IH]; [done|]. cbn. by rewrite (proj2 (Z.eqb_neq c HASH)), IH by done. Qed.

Lemma spaces_no_hash w : spaces w -> Forall (fun c => c <> HASH) w.
Proof. intros Hw. eapply Forall_impl; [exact Hw|]. by intros c Hc ->. Qed.

Lemma ltrim_nonspace c l : isspace c = false -> ltrim (c :: l) = c :: l.
Proof. cbn. by intros ->. Qed.

Lemma zeros_0 w : zeros w ++ [0] = 0 :: zeros w.
Proof. unfold zeros. by rewrite <- replicate_cons_app. Qed.

(** The end of the scan: at the end of the line or at a comment, which is cut off. *)
Lemma scan_tail l m tl tl' f r : (tl = [] /\ tl' = []) \/ (exists com, tl = HASH :: com /\ tl' = 0 :: com) ->
  exists cm, scan_loop (tl ++ 0 :: r) (zlen l + zlen m) (Some f) = Ok (zlen l + zlen m, Some f, cm) /\
    (if cm : bool then put_byte (l ++ m ++ tl ++ 0 :: r) (zlen l + zlen m) 0 else Ok (l ++ m ++ tl ++ 0 :: r)) = Ok (l ++ m ++ tl' ++ 0 :: r).
Proof.
  intros [[-> ->]|(com & -> & ->)]; [by exists false|]. exists true. split; [done|].
  rewrite <- zlen_app, app_assoc. cbn [app]. rewrite put_byte_end. flat.
Qed.

Lemma Forall_strip (P : Z -> Prop) l : Forall P l -> Forall P (strip l).
Proof.
  intros Hl. unfold strip.
  assert (Hb : Forall P (before_hash l)).
  { destruct (before_hash_split l) as [-> |[com E]]; [done|]. rewrite E in Hl. by apply Forall_app in Hl as [? _]. }
  destruct (ltrim_split (before_hash l)) as (w & E & _). rewrite E in Hb. apply Forall_app in Hb as [_ Hb].
  destruct (rtrim_split (ltrim (before_hash l))) as (w' & E' & _). rewrite E' in Hb. by apply Forall_app in Hb as [? _].
Qed.

Lemma stripped_no_nl line v : stripped line v -> no_nl line -> no_nl v.
Proof.
  intros [-> |(_ & c & -> & _ & Hc)] Hl; [by apply Forall_strip|by repeat constructor].
Qed.

Section Strip.
Context (pre nls line post : list Z).
Hypothesis Hn : newlines nls.
Hypothesis Hl : no_nl line.
Hypothesis Hz : nonzero line.
Let token := zlen pre + zlen nls.
Let out (first : Z) (mid : list Z) : Prop :=
  remove_whitespace_and_comment (pre ++ nls ++ line ++ 0 :: post) token = Ok (first, pre ++ mid ++ 0 :: post).

Lemma token_pos : token = zlen (pre ++ nls).
Proof. by rewrite zlen_app. Qed.

Lemma strip_spaces : line <> [] -> spaces line -> exists first mid v, out first mid /\ length mid = length (nls ++ line) /\
  str_in (pre ++ mid ++ [0]) first v /\ stripped line v.
Proof.
  intros Hne Hs. assert (exists d w, line = d :: w) as (d & w & E) by (destruct line as [|d w]; [done|by exists d, w]).
  exists token, (nls ++ d :: zeros w), [d]. split; [|split; [|split]].
  - unfold out, remove_whitespace_and_comment. rewrite token_pos, app_assoc, bytes_at_end, scan_spaces by done. cbn [scan_loop NL Z.eqb orb res_bind from_option id].
    rewrite E in Hs |- *. apply Forall_cons in Hs as [Hd Hw].
    replace (zlen (pre ++ nls) + zlen (d :: w) - 1) with (zlen (pre ++ nls) + zlen w) by len.
    cbn [app]. rewrite trim_spaces; [|done|by right|left; lia|]; [cbn [res_bind]; flat|].
    len.
  - rewrite E. len.
  - split; [apply Forall_cons; split; [rewrite E in Hz; by apply Forall_cons in Hz as [? _]|constructor]|].
    exists (pre ++ nls), (zeros w). split; [|by rewrite token_pos]. rewrite <- !app_assoc. cbn [app]. by rewrite zeros_0.
  - right. split; [|rewrite E in Hs, Hl; apply Forall_cons in Hs as [Hd _], Hl as [Hd' _]; by exists d].
    unfold strip. rewrite <- (app_nil_r line), before_hash_app by by apply spaces_no_hash. cbn [before_hash]. by rewrite ltrim_spaces by done.
Qed.

Lemma strip_comment w com p0 : line = w ++ HASH :: com -> spaces w -> pre = p0 ++ [0] ->
  exists first mid v, out first mid /\ length mid = length (nls ++ line) /\ str_in (pre ++ mid ++ [0]) first v /\ stripped line v.
Proof.
  intros E Hs Ep. exists (token + zlen w), (zeros (nls ++ w) ++ 0 :: com), []. pose proof token_pos as Ht.
  rewrite E in Hl, Hz. apply Forall_app in Hl as [Hl1 Hl2], Hz as [Hz1 Hz2].
  split; [|split; [|split]].
  - unfold out, remove_whitespace_and_comment. rewrite Ht, app_assoc, bytes_at_end, E, <- app_assoc, scan_spaces by done.
    cbn [app scan_loop]. change ((HASH =? NL) || (HASH =? 0)) with false. change (isspace HASH) with false. cbv iota. rewrite Z.eqb_refl. cbn [res_bind from_option id].
    rewrite <- zlen_app, app_assoc, put_byte_end. cbn [res_bind]. rewrite Ep, <- !app_assoc. cbn [app].
    replace (zlen (p0 ++ 0 :: nls ++ w) - 1) with (zlen p0 + zlen (nls ++ w)) by len.
    rewrite (app_assoc nls w).
    rewrite trim_spaces; [cbn [res_bind]; flat|apply Forall_app; split; [by apply newlines_spaces|done]|by left| |].
    + right. len.
    + len.
  - rewrite E. len.
  - split; [constructor|]. exists (pre ++ zeros (nls ++ w)), (com ++ [0]). split; [flat|].
    rewrite Ht. len.
  - left. unfold strip. rewrite E, before_hash_app by by apply spaces_no_hash. cbn [before_hash]. rewrite Z.eqb_refl, app_nil_r.
    rewrite <- (app_nil_r w), ltrim_spaces by done. done.
Qed.

(** The text of a line [w ++ c :: q] followed by the end of the line or a comment ([tl], which becomes [tl']). *)
Lemma strip_text w c q tl tl' : line = w ++ c :: q ++ tl -> spaces w -> isspace c = false -> c <> HASH -> Forall (fun c => c <> HASH) q ->
  (tl = [] /\ tl' = []) \/ (exists com, tl = HASH :: com /\ tl' = 0 :: com) ->
  exists first mid v, out first mid /\ length mid = length (nls ++ line) /\ str_in (pre ++ mid ++ [0]) first v /\ stripped line v.
Proof.
  intros E Hs Hc Hh Hq Ht. destruct (rtrim_split (c :: q)) as (w2 & Er & Hw2). set (v := rtrim (c :: q)) in *.
  assert (Hv : v <> []). { intros E0. apply rtrim_nil in E0. apply Forall_cons in E0 as [E0 _]. congruence. }
  destruct (exists_last Hv) as (x & d & Ev). pose proof (rtrim_last (c :: q) x d Ev) as Hd.
  assert (Hq0 : nonzero (c :: q) /\ no_nl (c :: q)).
  { rewrite E in Hl, Hz. apply Forall_app in Hl as [_ Hl'], Hz as [_ Hz']. rewrite app_comm_cons in Hl', Hz'. apply Forall_app in Hl' as [? _], Hz' as [? _]. done. }
  destruct Hq0 as [Hqz Hqn].
  assert (Hw0 : no_nl w /\ nonzero w) by (rewrite E in Hl, Hz; apply Forall_app in Hl as [? _], Hz as [? _]; done). destruct Hw0 as [Hwn Hwz].
  assert (Hr : exists r, tl' ++ 0 :: post = 0 :: r) by (destruct Ht as [[_ ->]|(com & _ & ->)]; by eexists).
  assert (Hstrip : strip line = v).
  { unfold strip. rewrite E, before_hash_app, app_comm_cons, before_hash_app by first [by apply spaces_no_hash|by constructor].
    replace (before_hash tl) with (@nil Z) by (destruct Ht as [[-> _]|(com & -> & _)]; cbn; done).
    rewrite app_nil_r, ltrim_spaces, ltrim_nonspace by done. done. }
  exists (token + zlen w), (nls ++ w ++ v ++ zeros w2 ++ tl'), v. pose proof token_pos as Htok. split; [|split; [|split]].
  - unfold out, remove_whitespace_and_comment. rewrite Htok, app_assoc, bytes_at_end, E, <- app_assoc, scan_spaces by done.
    apply Forall_cons in Hqz as [Hc0 Hqz], Hqn as [Hcn Hqn]. cbn [app scan_loop].
    rewrite (proj2 (Z.eqb_neq c NL)), (proj2 (Z.eqb_neq c 0)), (proj2 (Z.eqb_neq c HASH)), Hc by done. cbn [orb]. rewrite <- app_assoc, scan_body by done.
    set (s := zlen (pre ++ nls) + zlen w + 1 + zlen q).
    pose proof (scan_tail (pre ++ nls) (w ++ c :: q) tl tl' (zlen (pre ++ nls) + zlen w) post Ht) as Hscan.
    replace (zlen (pre ++ nls) + zlen (w ++ c :: q)) with s in Hscan by (unfold s; len). rewrite <- !(app_assoc w) in Hscan. cbn [app] in Hscan.
    destruct Hscan as (cm & -> & Hput). cbn [res_bind]. rewrite Hput. cbn [res_bind from_option id].
    replace ((pre ++ nls) ++ w ++ c :: q ++ tl' ++ 0 :: post) with (((pre ++ nls) ++ w ++ x) ++ d :: w2 ++ tl' ++ 0 :: post)
      by (rewrite (app_comm_cons q), Er, Ev; flat).
    assert (Hq1 : 1 + zlen q = zlen x + 1 + zlen w2).
    { apply (f_equal zlen) in Er. rewrite Ev in Er. revert Er. len. }
    replace (s - 1) with (zlen ((pre ++ nls) ++ w ++ x) + zlen w2) by (unfold s; revert Hq1; len).
    rewrite trim_spaces; [|done|by left| |].
    + cbn [res_bind]. do 2 f_equal. rewrite Ev. flat.
    + left. len.
    + unfold s. revert Hq1. len.
  - rewrite E. apply (f_equal length) in Er. revert Er. destruct Ht as [[-> ->]|(com & -> & ->)]; len.
  - split; [rewrite Er in Hqz; by apply Forall_app in Hqz as [? _]|]. exists (pre ++ nls ++ w).
    assert (exists y, zeros w2 ++ tl' ++ [0] = 0 :: y) as [y Ey].
    { destruct w2; [|by eexists]. destruct Ht as [[_ ->]|(com & _ & ->)]; by eexists. }
    exists y. split; [rewrite <- Ey; flat|]. rewrite Htok. len.
  - by left.
Qed.

Lemma strip_in_place : line <> [] -> (exists p0, pre = p0 ++ [0]) \/ ~ comment_only line ->
  exists first mid v, out first mid /\ length mid = length (nls ++ line) /\ str_in (pre ++ mid ++ [0]) first v /\ stripped line v.
Proof.
  intros Hne Hg. destruct (ltrim_split line) as (w & E & Hs). unfold comment_only in Hg. destruct (ltrim line) as [|c t] eqn:Et.
  - rewrite app_nil_r in E. apply strip_spaces; [done|]. by rewrite E.
  - pose proof (ltrim_head line c t Et) as Hc. destruct (Z.eq_dec c HASH) as [-> |Hh].
    + destruct Hg as [[p0 Hp]|Hg]; [|done]. by eapply strip_comment.
    + destruct (before_hash_split t) as [Eh|[com Eh]]; pose proof (before_hash_none t) as Hq.
      * apply (strip_text w c t [] []); [by rewrite app_nil_r|done|done|done|by rewrite <- Eh|by left].
      * apply (strip_text w c (before_hash t) (HASH :: com) (0 :: com)); [by rewrite <- Eh|done|done|done|done|right; by exists com].
Qed.
End Strip.

(** * The parser *)

(** ** A parser of lines *)

Record rsection := mkRSection {
  r_label : option (list Z); r_menu_label : option (list Z); r_linux : option (list Z); r_fdt : option (list Z);
  r_initrd : option (list Z); r_args : option (list Z)
}.
Record rconf := mkRConf {
  r_timeout : option (list Z); r_default : option (list Z); r_title : option (list Z); r_sections : list rsection
}.
Definition r_empty : rconf := mkRConf None None None [].

Definition starts (key s : list Z) : bool := bool_decide (take (length key) s = key).
Definition value (key s : list Z) : list Z := ltrim (drop (length key) s).

Definition r_set (x : rsection) (f : field) (v : list Z) : rsection :=
  match f with
  | FMenuLabel => mkRSection (r_label x) (Some v) (r_linux x) (r_fdt x) (r_initrd x) (r_args x)
  | FLinux => mkRSection (r_label x) (r_menu_label x) (Some v) (r_fdt x) (r_initrd x) (r_args x)
  | FInitrd => mkRSection (r_label x) (r_menu_label x) (r_linux x) (r_fdt x) (Some v) (r_args x)
  | FFdt => mkRSection (r_label x) (r_menu_label x) (r_linux x) (Some v) (r_initrd x) (r_args x)
  | FAppend => mkRSection (r_label x) (r_menu_label x) (r_linux x) (r_fdt x) (r_initrd x) (Some v)
  end.

Fixpoint r_section_line (keys : list (list Z * field)) (x : rsection) (s : list Z) : rsection :=
  match keys with
  | [] => x
  | (key, f) :: keys => if starts key s then r_set x f (value key s) else r_section_line keys x s
  end.

(** Lines before the first label only set the timeout, the default and the title. *)
Definition r_line (r : rconf) (s : list Z) : rconf :=
  if starts (str "TIMEOUT") s then mkRConf (Some (value (str "TIMEOUT") s)) (r_default r) (r_title r) (r_sections r)
  else if starts (str "DEFAULT") s then mkRConf (r_timeout r) (Some (value (str "DEFAULT") s)) (r_title r) (r_sections r)
  else if starts (str "MENU TITLE") s then mkRConf (r_timeout r) (r_default r) (Some (value (str "MENU TITLE") s)) (r_sections r)
  else if starts (str "LABEL") s then
    mkRConf (r_timeout r) (r_default r) (r_title r)
      (r_sections r ++ [mkRSection (Some (value (str "LABEL") s)) None None None None None])
  else mkRConf (r_timeout r) (r_default r) (r_title r)
      (alter (fun x => r_section_line section_keys x s) (pred (length (r_sections r))) (r_sections r)).

(** The waiting time, and the last section whose label the default starts. *)
Definition r_wait (r : rconf) : Z :=
  match r_timeout r with Some s => u64 ((Strtoul.tegrabl_utils_strtoul s 10).1 / 10 * 1000) | None => 0 end.
Fixpoint r_pick (d : list Z) (i : Z) (ss : list rsection) (found : Z) : Z :=
  match ss with
  | [] => found
  | s :: ss => r_pick d (i + 1) ss (if starts d (default [] (r_label s)) then i else found)
  end.

Definition r_lines (r : rconf) (ls : list (list Z)) : rconf := fold_left r_line (strip <$> ls) r.
Definition r_parse (text : list Z) : rconf := r_lines r_empty (tokens text).

(** ** Strings in the block *)

Lemma str_in_app b b' o v : str_in b o v -> str_in (b ++ b') o v.
Proof. intros (Hz & x & y & -> & Hx). split; [done|]. exists x, (y ++ b'). split; [flat|done]. Qed.

Lemma str_in_bytes b o v : str_in b o v -> exists y, bytes_from b o = v ++ 0 :: y.
Proof. intros (Hz & x & y & -> & <-). exists y. apply bytes_at_end. Qed.

Lemma str_in_suffix b o u v : str_in b o (u ++ v) -> str_in b (o + zlen u) v.
Proof.
  intros (Hz & x & y & -> & <-). apply Forall_app in Hz as [_ Hz]. split; [done|]. exists (x ++ u), y. split; [flat|by rewrite zlen_app].
Qed.

Lemma str_in_string b o v : str_in b o v -> string_from b o = Ok v.
Proof.
  intros Hs. destruct (str_in_bytes b o v Hs) as [y E]. destruct Hs as [Hz _]. unfold string_from. rewrite E.
  rewrite bool_decide_true by (apply elem_of_app; right; by left). by rewrite cstr_app_0.
Qed.

Lemma has_key_spec key v y : nonzero key -> has_key key (v ++ 0 :: y) = Ok (starts key v).
Proof.
  unfold starts. intros Hk. revert v. induction Hk as [|k key Hk0 Hk IH]; intros v; [by rewrite bool_decide_true|].
  destruct v as [|c v]; cbn [has_key app take length].
  - rewrite (proj2 (Z.eqb_neq k 0)) by done. by rewrite bool_decide_false.
  - destruct (Z.eqb_spec k c) as [-> |Hc].
    + rewrite IH. f_equal. apply bool_decide_ext. split; [by intros ->|by intros [= ?]].
    + rewrite bool_decide_false by congruence. done.
Qed.

Lemma skip_spec v y p : no_nl v -> nonzero v -> skip_loop (v ++ 0 :: y) p = Ok (p + (zlen v - zlen (ltrim v))).
Proof.
  intros Hn Hz. revert p. induction Hn as [|c v Hc Hn IH]; intros p; cbn [app skip_loop].
  - cbn. f_equal. unfold zlen. cbn. lia.
  - apply Forall_cons in Hz as [Hz0 Hz]. rewrite (proj2 (Z.eqb_neq c NL)), (proj2 (Z.eqb_neq c 0)) by done. cbn [orb ltrim].
    destruct (isspace c); cbn [negb]; [rewrite IH by done|]; f_equal; unfold zlen; cbn [length]; lia.
Qed.

Lemma extract_spec b rest p key v : str_in b p v -> no_nl v -> starts key v = true ->
  exists o, extract_val (b ++ rest) p key = Ok o /\ str_in b o (value key v).
Proof.
  intros Hs Hn Hk. unfold starts in Hk. apply bool_decide_eq_true in Hk.
  assert (Ev : v = key ++ drop (length key) v) by (rewrite <- Hk at 1; by rewrite take_drop).
  rewrite Ev in Hs. apply str_in_suffix in Hs. set (u := drop (length key) v) in *.
  assert (Hu : no_nl u) by (rewrite Ev in Hn; by apply Forall_app in Hn as [_ ?]).
  destruct (str_in_bytes _ _ _ (str_in_app _ rest _ _ Hs)) as [y E]. unfold extract_val, skip_leading_whitespace. rewrite E.
  rewrite skip_spec; [|done|apply Hs]. eexists. split; [done|]. unfold value. fold u.
  destruct (ltrim_split u) as (w & Ew & _). rewrite Ew in Hs. apply str_in_suffix in Hs.
  replace (zlen u - zlen (ltrim u)) with (zlen w); [done|]. apply (f_equal zlen) in Ew. rewrite zlen_app in Ew. lia.
Qed.

Definition opt_in (b : list Z) (o : option Z) (v : option (list Z)) : Prop :=
  match o, v with
  | Some o, Some v => str_in b o v
  | None, None => True
  | _, _ => False
  end.
Record sec_in (b : list Z) (x : boot_section) (s : rsection) : Prop := {
  si_label : opt_in b (label x) (r_label s); si_menu : opt_in b (menu_label x) (r_menu_label s);
  si_linux : opt_in b (linux_path x) (r_linux s); si_dtb : opt_in b (dtb_path x) (r_fdt s);
  si_initrd : opt_in b (initrd_path x) (r_initrd s); si_args : opt_in b (boot_args x) (r_args s)
}.

Lemma opt_in_app b b' o v : opt_in b o v -> opt_in (b ++ b') o v.
Proof. destruct o, v; cbn; try done. apply str_in_app. Qed.
Lemma sec_in_app b b' x s : sec_in b x s -> sec_in (b ++ b') x s.
Proof. intros []. split; by apply opt_in_app. Qed.

Lemma sec_in_set b x s f o v : sec_in b x s -> str_in b o v -> sec_in b (set_section_field x f o) (r_set s f v).
Proof. intros [] Ho. destruct f; by split. Qed.

(** ** One line *)

Lemma byte_at_str b p v : str_in b p v -> byte_at b p = Ok (default 0 (head v)).
Proof. intros (Hz & x & y & -> & <-). destruct v as [|c v]; cbn [app]; by rewrite byte_at_end. Qed.

Lemma starts_not_space key c : nonzero key -> head key <> Some c -> key <> [] -> starts key [c] = false.
Proof. intros Hz Hh Hk. apply bool_decide_eq_false_2. destruct key as [|k key]; [done|]. cbn in *. intros [= -> _]. done. Qed.

(** A line that is empty or starts with a space changes nothing. *)
Lemma quiet_line r v : v = [] \/ (exists c, v = [c] /\ isspace c = true) -> r_line r v = r.
Proof.
  intros Hv. assert (Hs : forall key, key ∈ [str "TIMEOUT"; str "DEFAULT"; str "MENU TITLE"; str "LABEL"; str "MENU LABEL"; str "LINUX"; str "INITRD"; str "FDT"; str "APPEND"] ->
    starts key v = false).
  { intros key Hk. apply bool_decide_eq_false_2. destruct Hv as [-> | (c & -> & Hc)]; rewrite !elem_of_cons, elem_of_nil in Hk.
    - naive_solver.
    - intros E. repeat destruct Hk as [-> |Hk]; try done; cbn in E; injection E as -> ; done. }
  unfold r_line. rewrite !Hs by (rewrite !elem_of_cons; tauto). destruct r as [t d m ss]. cbn [r_timeout r_default r_title r_sections]. f_equal.
  unfold section_keys. cbn [r_section_line]. rewrite !Hs by (rewrite !elem_of_cons; tauto). by apply list_alter_id.
Qed.

Section Parse.
Context {H : Type} {AL : Allocator H} {AW : AllocatorLaws H}.
Implicit Types (c : conf H) (l : plocals) (r : rconf).

(** What the parser has found in [pre], the part of the block it has left behind. *)
Record rep c l r (pre : list Z) : Prop := {
  rp_timeout : opt_in pre (timeout l) (r_timeout r);
  rp_default : opt_in pre (default_boot l) (r_default r);
  rp_title : r_title r = None \/ opt_in pre (menu_title c) (r_title r);
  rp_entry : entry l + 1 = zlen (r_sections r);
  rp_ptrs : zlen (section c) = MAX_SECTIONS;
  rp_secs : forall i s, r_sections r !! i = Some s ->
    exists a x, section c !! i = Some a /\ sections c !! a = Some x /\ sec_in pre x s /\ heap_live (cf_heap c) a;
  rp_apart : forall i j a, (i < length (r_sections r))%nat -> (j < length (r_sections r))%nat ->
    section c !! i = Some a -> section c !! j = Some a -> i = j
}.

Lemma rep_app c l r pre more : rep c l r pre -> rep c l r (pre ++ more).
Proof.
  intros []. split; try done; try by apply opt_in_app.
  - destruct rp_title0 as [? | ?]; [by left|right; by apply opt_in_app].
  - intros i s Hi. destruct (rp_secs0 i s Hi) as (a & x & ? & ? & ? & ?). exists a, x. eauto using sec_in_app.
Qed.

Lemma rep_buf c l r pre b : rep c l r pre -> rep (set_buf c b) l r pre.
Proof. intros []. by split. Qed.

Lemma section_at_ok c l r pre i s : rep c l r pre -> r_sections r !! i = Some s ->
  exists a x, section_at c (Z.of_nat i) = Ok (a, x) /\ section c !! i = Some a /\ sections c !! a = Some x /\ sec_in pre x s.
Proof.
  intros R Hi. destruct (rp_secs _ _ _ _ R i s Hi) as (a & x & Ha & Hx & Hs & _). exists a, x. split; [|done].
  unfold section_at, byte_at. rewrite (proj2 (Z.leb_le _ _)) by lia. rewrite Nat2Z.id, Ha. cbn [res_bind]. by rewrite Hx.
Qed.

(** A section is changed in memory. *)
Lemma rep_alter c l r pre i s a x' g : rep c l r pre -> r_sections r !! i = Some s -> section c !! i = Some a -> sec_in pre x' (g s) ->
  rep (set_sections c (cf_heap c) (section c) (<[a := x']> (sections c))) l
    (mkRConf (r_timeout r) (r_default r) (r_title r) (alter g i (r_sections r))) pre.
Proof.
  intros R Hi Ha Hx. pose proof (lookup_lt_Some _ _ _ Hi) as Hlt. destruct R as [R1 R2 R3 R4 R5 R6 R7].
  split; cbn [r_timeout r_default r_title r_sections section sections set_sections menu_title cf_heap]; try done.
  - rewrite R4. unfold zlen. by rewrite length_alter.
  - intros j t Hj. destruct (decide (i = j)) as [<- |Hne].
    + rewrite list_lookup_alter_eq, Hi in Hj. cbn in Hj. injection Hj as <-. destruct (R6 i s Hi) as (a' & x & Ha' & _ & _ & Hlive).
      assert (a' = a) as -> by congruence. exists a, x'. rewrite lookup_insert_eq. done.
    + rewrite list_lookup_alter_ne in Hj by done. destruct (R6 j t Hj) as (a' & x & Ha' & Hx' & Hs & Hlive).
      exists a', x. rewrite lookup_insert_ne; [done|]. intros <-. apply Hne. eapply R7; [done| |done|done]. by eapply lookup_lt_Some.
  - rewrite length_alter. exact R7.
Qed.

(** A key of a section. *)
Lemma section_line_ok keys c l r pre p v rest : rep c l r pre -> cf_buf c = pre ++ rest -> str_in pre p v -> no_nl v ->
  0 <= entry l -> Forall (fun k => nonzero k.1) keys ->
  exists c', parse_section_line keys c (entry l) p = Ok c' /\ cf_buf c' = cf_buf c /\ cf_heap c' = cf_heap c /\
    default_boot_entry c' = default_boot_entry c /\
    rep c' l (mkRConf (r_timeout r) (r_default r) (r_title r)
      (alter (fun x => r_section_line keys x v) (pred (length (r_sections r))) (r_sections r))) pre.
Proof.
  intros R Eb Hs Hn He Hk. pose proof (rp_entry _ _ _ _ R) as En. set (i := pred (length (r_sections r))).
  assert (Hi : entry l = Z.of_nat i) by (unfold i, zlen in *; lia).
  destruct (lookup_lt_is_Some_2 (r_sections r) i ltac:(unfold i, zlen in *; lia)) as [s0 Es].
  induction Hk as [|[key f] keys Hz Hk IH]; cbn [parse_section_line r_section_line].
  - exists c. split; [done|]. split; [done|]. split; [done|]. split; [done|]. rewrite list_alter_id by done. by destruct r.
  - destruct (str_in_bytes _ _ _ (str_in_app _ rest _ _ Hs)) as [y Ey]. rewrite Eb, Ey, has_key_spec by done. cbn [res_bind].
    destruct (starts key v) eqn:Ek; [|by rewrite Eb in IH].
    destruct (extract_spec _ rest _ key v Hs Hn Ek) as (o & -> & Ho). cbn [res_bind].
    destruct (section_at_ok c l r pre i s0 R Es) as (a & x & Hat & Ha & Hx & Hsec). rewrite Hi, Hat. cbn [res_bind].
    eexists. split; [done|]. split; [done|]. split; [done|]. split; [done|].
    apply (rep_alter c l r pre i s0); [done|done|done|]. by apply sec_in_set.
Qed.

Definition section_cost : Z := alloc_cost 8 sizeof_boot_section.

(** "LABEL" *)
Lemma new_section_ok c l r pre p v rest k : rep c l r pre -> cf_buf c = pre ++ rest -> str_in pre p v -> no_nl v -> starts (str "LABEL") v = true ->
  zlen (r_sections r) < MAX_SECTIONS -> heap_room (cf_heap c) (section_cost * (1 + k)) -> 0 <= k ->
  exists c' l', new_section c l p = Ok (TEGRABL_NO_ERROR, c', l') /\ cf_buf c' = cf_buf c /\ heap_room (cf_heap c') (section_cost * k) /\
    default_boot_entry c' = default_boot_entry c /\
    rep c' l' (mkRConf (r_timeout r) (r_default r) (r_title r)
      (r_sections r ++ [mkRSection (Some (value (str "LABEL") v)) None None None None None])) pre.
Proof.
  intros R Eb Hs Hn Hk Hc Hr H0. pose proof R as [R1 R2 R3 R4 R5 R6 R7]. unfold new_section.
  destruct (malloc_granted (cf_heap c) sizeof_boot_section _ Hr) as (a & h & Em & Ha & _ & Hl & Hf & Hr' & Hkeep); [done|unfold section_cost, alloc_cost, sizeof_boot_section; lia|].
  rewrite Em, R4. set (n := length (r_sections r)).
  assert (Hst : store_at (zlen (r_sections r)) [a] (section c) = Ok (<[n := a]> (section c))).
  { rewrite store_at_ok by (unfold zlen in *; cbn; lia). f_equal. unfold splice, zlen. rewrite Nat2Z.id. cbn [length]. rewrite insert_take_drop by (unfold n, zlen in *; lia).
    cbn [app]. by rewrite Nat.add_1_r. }
  rewrite Hst. cbn [res_bind]. rewrite (proj2 (Z.eqb_neq a NULL)) by (unfold NULL; lia).
  rewrite Eb. destruct (extract_spec _ rest _ _ v Hs Hn Hk) as (o & -> & Ho). cbn [res_bind].
  assert (Hn0 : (n < length (section c))%nat) by (unfold n, zlen, MAX_SECTIONS in *; lia).
  eexists _, _. split; [done|]. split; [done|]. split; [cbn; eapply heap_room_weaken; [exact Hr'|unfold section_cost, alloc_cost, sizeof_boot_section; lia]|]. split; [done|].
  assert (Hold : forall i s, r_sections r !! i = Some s -> exists b x, section c !! i = Some b /\ sections c !! b = Some x /\ sec_in pre x s /\ heap_live (cf_heap c) b /\ b <> a /\ i <> n).
  { intros i s Hi. destruct (R6 i s Hi) as (b & x & H1 & H2 & H3 & H4). exists b, x. apply lookup_lt_Some in Hi. split_and!; [done..| |unfold n; lia]. by intros ->. }
  split; cbn [r_timeout r_default r_title r_sections section sections set_sections menu_title cf_heap timeout default_boot entry]; try done.
  - unfold zlen. rewrite length_app. cbn [length]. lia.
  - unfold zlen. by rewrite length_insert.
  - intros i s Hi. apply lookup_app_Some in Hi as [Hi|[Hi1 Hi2]].
    + destruct (Hold i s Hi) as (b & x & H1 & H2 & H3 & H4 & H5 & H6). exists b, x. rewrite list_lookup_insert_ne, lookup_insert_ne by congruence. auto.
    + apply list_lookup_singleton_Some in Hi2 as [Hi2 <-]. assert (i = n) as -> by (unfold n; lia).
      exists a, (mkSection (Some o) None None None None None). rewrite list_lookup_insert_eq, lookup_insert_eq by done.
      split; [done|]. split; [done|]. split; [by split|done].
  - rewrite length_app. cbn [length]. intros i j b Hi Hj Hbi Hbj. fold n in Hi, Hj.
    assert (Hother : forall i, (i < n)%nat -> section c !! i <> Some a).
    { intros i' Hi' E. destruct (lookup_lt_is_Some_2 (r_sections r) i' Hi') as [s Es]. destruct (Hold i' s Es) as (b' & x & H1 & _ & _ & _ & H5 & _). congruence. }
    destruct (decide (i = n)) as [-> |], (decide (j = n)) as [-> |]; [done| | |].
    + rewrite list_lookup_insert_eq in Hbi by done. rewrite list_lookup_insert_ne in Hbj by congruence. injection Hbi as <-. by apply Hother in Hbj; [|lia].
    + rewrite list_lookup_insert_eq in Hbj by done. rewrite list_lookup_insert_ne in Hbi by congruence. injection Hbj as <-. by apply Hother in Hbi; [|lia].
    + rewrite list_lookup_insert_ne in Hbi, Hbj by congruence. apply (R7 i j b); [unfold n in *; lia|unfold n in *; lia|done|done].
Qed.

Lemma keys_nonzero : Forall (fun k : list Z * field => nonzero k.1) section_keys.
Proof. repeat constructor; discriminate. Qed.

Definition grown r r' (k : Z) : Z := section_cost * (zlen (r_sections r') - zlen (r_sections r) + k).

(** A key of the file: the value is a string of the block. *)
Ltac value_found K :=
  match goal with
  | Hs : str_in ?pre ?p ?v, Hn : no_nl ?v, Hsame : _ -> heap_room _ _, R : rep _ _ _ _ |- context [extract_val (_ ++ ?rest) _ _] =>
      let o := fresh "o" in let Ho := fresh "Ho" in
      destruct (extract_spec pre rest p _ v Hs Hn K) as (o & -> & Ho); eexists _, _; split; [done|]; split; [done|];
      split; [by apply Hsame|]; split; [done|]; destruct R; split; try done; by right
  end.

Lemma parse_line_ok c l r pre p v rest k : rep c l r pre -> cf_buf c = pre ++ rest -> str_in pre p v -> no_nl v ->
  zlen (r_sections (r_line r v)) <= MAX_SECTIONS -> heap_room (cf_heap c) (grown r (r_line r v) k) -> 0 <= k ->
  exists c' l', parse_line c l p = Ok (TEGRABL_NO_ERROR, c', l') /\ cf_buf c' = cf_buf c /\ heap_room (cf_heap c') (section_cost * k) /\
    default_boot_entry c' = default_boot_entry c /\ rep c' l' (r_line r v) pre.
Proof.
  intros R Eb Hs Hn Hm Hr Hk. unfold parse_line. pose proof (str_in_app _ rest _ _ Hs) as Hs'.
  rewrite Eb, (byte_at_str _ _ _ Hs'). cbn [res_bind]. destruct (str_in_bytes _ _ _ Hs') as [y ->].
  assert (Hsame : zlen (r_sections (r_line r v)) = zlen (r_sections r) -> heap_room (cf_heap c) (section_cost * k)).
  { intros E. unfold grown in Hr. rewrite E in Hr. eapply heap_room_weaken; [exact Hr|lia]. }
  destruct (Z.eqb_spec (default 0 (head v)) 0) as [E0|E0].
  { assert (v = []) as -> by (destruct v as [|d v]; [done|]; destruct Hs as [Hz _]; by apply Forall_cons in Hz as [? _]).
    assert (Eq : r_line r [] = r) by (apply quiet_line; by left). exists c, l. rewrite Eq in *. split; [done|]. split; [done|]. split; [by apply Hsame|]. split; [done|exact R]. }
  unfold r_line in *. rewrite has_key_spec by (repeat constructor; discriminate). cbn [res_bind].
  destruct (starts (str "TIMEOUT") v) eqn:K1.
  { value_found K1. }
  rewrite has_key_spec by (repeat constructor; discriminate). cbn [res_bind]. destruct (starts (str "DEFAULT") v) eqn:K2.
  { value_found K2. }
  rewrite has_key_spec by (repeat constructor; discriminate). cbn [res_bind]. destruct (starts (str "MENU TITLE") v) eqn:K3.
  { value_found K3. }
  rewrite has_key_spec by (repeat constructor; discriminate). cbn [res_bind]. destruct (starts (str "LABEL") v) eqn:K4.
  { cbn [r_sections] in Hm, Hr. unfold grown in Hr. cbn [r_sections] in Hr. rewrite zlen_app in Hm, Hr. change (zlen [_]) with 1 in Hm, Hr.
    rewrite <- Eb. apply (new_section_ok c l r pre p v rest k); try done; [lia|]. eapply heap_room_weaken; [exact Hr|unfold section_cost, alloc_cost, sizeof_boot_section; lia]. }
  cbn [r_sections] in Hsame. unfold zlen in Hsame. rewrite length_alter in Hsame. destruct (Z.ltb_spec (entry l) 0) as [He|He].
  - exists c, l. split; [done|]. split; [done|]. split; [by apply Hsame|]. split; [done|]. pose proof (rp_entry _ _ _ _ R) as En.
    assert (Ez : r_sections r = []) by (destruct (r_sections r); [done|unfold zlen in En; cbn in En; lia]). rewrite Ez. cbn. rewrite <- Ez. by destruct r.
  - destruct (section_line_ok section_keys c l r pre p v rest R Eb Hs Hn He keys_nonzero) as (c' & -> & B1 & B2 & B3 & B4).
    eexists _, _. split; [done|]. split; [congruence|]. rewrite B2. split; [by apply Hsame|]. done.
Qed.

(** ** The lines of a text *)

Lemma stripped_line r line v : stripped line v -> r_line r v = r_line r (strip line).
Proof.
  intros [-> |(E & c & -> & Hc & _)]; [done|]. rewrite E, !quiet_line; [done|by left|right; by exists c].
Qed.

Lemma r_line_grows r v : zlen (r_sections r) <= zlen (r_sections (r_line r v)).
Proof.
  unfold r_line. repeat case_match; cbn [r_sections]; try lia; [rewrite zlen_app; unfold zlen; cbn; lia|unfold zlen; by rewrite length_alter].
Qed.

Lemma r_lines_grows ls : forall r, zlen (r_sections r) <= zlen (r_sections (r_lines r ls)).
Proof.
  induction ls as [|x ls IH]; intros r; [cbn; lia|]. unfold r_lines in *. cbn [fmap list_fmap fold_left].
  etrans; [apply (r_line_grows r (strip x))|apply IH].
Qed.

(** What is left for [strtok]: nothing, or the text [rem] behind the zero. *)
Definition remaining (saved : option Z) (pos : Z) (post rem : list Z) : Prop :=
  (saved = None /\ rem = []) \/ (saved = Some pos /\ nonzero rem /\ exists post', post = rem ++ 0 :: post').

Lemma next_token pre text post saved s0 : nonzero text -> (if s0 is Some _ then s0 else saved) = Some (zlen pre) ->
  (tokens text = [] /\ strtok (pre ++ text ++ 0 :: post) saved s0 [NL] = Ok (None, pre ++ text ++ 0 :: post, None)) \/
  exists nls line post1 saved1 rem, newlines nls /\ line <> [] /\ no_nl line /\ nonzero line /\ tokens text = line :: tokens rem /\
    (length rem < length text)%nat /\ remaining saved1 (zlen pre + zlen nls + zlen line + 1) post1 rem /\
    strtok (pre ++ text ++ 0 :: post) saved s0 [NL] = Ok (Some (zlen pre + zlen nls), pre ++ nls ++ line ++ 0 :: post1, saved1).
Proof.
  intros Hz Hp. destruct (tokens_cases text) as [[Hn Et]|(nls & line & rest & -> & Hnl & Hne & Hl & Hcase)].
  { left. split; [done|]. by apply strtok_end. }
  right. apply Forall_app in Hz as [_ Hz]. apply Forall_app in Hz as [Hz' Hrz]. exists nls, line.
  assert (Hpos : (0 < length line)%nat) by (destruct line; [done|cbn; lia]).
  destruct Hcase as [[-> Et]|(rest' & -> & Et)].
  - exists post, None, []. do 4 (split; [done|]). split; [exact Et|]. split; [rewrite !length_app; cbn; lia|]. split; [by left|].
    rewrite app_nil_r, <- app_assoc. by apply strtok_last.
  - apply Forall_cons in Hrz as [_ Hrz]. exists (rest' ++ 0 :: post), (Some (zlen pre + zlen nls + zlen line + 1)), rest'.
    do 4 (split; [done|]). split; [exact Et|]. split; [rewrite !length_app; cbn [length]; lia|].
    split; [right; split; [done|]; split; [done|]; by exists post|]. rewrite <- !app_assoc. cbn [app]. by apply strtok_line.
Qed.

Lemma parse_lines_ok n : forall c l r pre nls line post saved rem, (length rem < n)%nat ->
  cf_buf c = pre ++ nls ++ line ++ 0 :: post -> newlines nls -> line <> [] -> no_nl line -> nonzero line ->
  (exists p0, pre = p0 ++ [0]) \/ ~ comment_only line ->
  remaining saved (zlen pre + zlen nls + zlen line + 1) post rem -> rep c l r pre ->
  zlen (r_sections (r_lines r (line :: tokens rem))) <= MAX_SECTIONS -> heap_room (cf_heap c) (grown r (r_lines r (line :: tokens rem)) 0) ->
  exists c' l' pre' post', parse_lines n c l saved (zlen pre + zlen nls) = Ok (TEGRABL_NO_ERROR, c', l') /\ cf_buf c' = pre' ++ post' /\
    default_boot_entry c' = default_boot_entry c /\ rep c' l' (r_lines r (line :: tokens rem)) pre'.
Proof.
  induction n as [|n IH]; intros c l r pre nls line post saved rem Hlen Eb Hnl Hne Hl Hz Hg Hrem R Hm Hr; [lia|].
  destruct (strip_in_place pre nls line post Hnl Hl Hz Hne Hg) as (first & mid & v & Ho & Hmid & Hs & Hv).
  cbn [parse_lines]. rewrite Eb, Ho. cbn [res_bind]. set (pre1 := pre ++ mid ++ [0]) in *. set (r1 := r_line r v).
  assert (Er : r_lines r (line :: tokens rem) = r_lines r1 (tokens rem)) by (unfold r1; by rewrite (stripped_line r line v Hv)).
  pose proof (r_lines_grows (tokens rem) r1) as Hgrow. rewrite Er in *. fold r1.
  assert (Eb1 : pre ++ mid ++ 0 :: post = pre1 ++ post) by (unfold pre1; flat). rewrite Eb1.
  destruct (parse_line_ok (set_buf c (pre1 ++ post)) l r pre1 first v post (zlen (r_sections (r_lines r1 (tokens rem))) - zlen (r_sections r1)))
    as (c1 & l1 & E1 & B1 & B2 & B3 & R1); [apply rep_buf; unfold pre1; by apply rep_app|done|done|by eapply stripped_no_nl|fold r1; lia| |lia|].
  { eapply heap_room_weaken; [exact Hr|]. unfold grown. fold r1. unfold section_cost, alloc_cost, sizeof_boot_section. lia. }
  rewrite E1. cbn [res_bind]. change (TEGRABL_NO_ERROR =? TEGRABL_NO_ERROR) with true. cbn [negb]. rewrite B1. cbn [cf_buf set_buf].
  assert (Hpos : zlen pre + zlen nls + zlen line + 1 = zlen pre1) by (unfold pre1; apply (f_equal Z.of_nat) in Hmid; revert Hmid; unfold zlen; rewrite !length_app; cbn [length]; lia).
  destruct Hrem as [[-> ->]|(-> & Hrz & post' & ->)].
  { cbn [strtok res_bind]. eexists _, _, pre1, post. split; [done|]. split; [done|]. split; [done|]. by apply rep_buf. }
  rewrite Hpos. destruct (next_token pre1 rem post' (Some (zlen pre1)) None Hrz eq_refl)
    as [[Et Es]|(nls' & line' & post1 & saved1 & rem1 & Hnl' & Hne' & Hl' & Hz' & Et & Hlt & Hrem' & Es)]; rewrite Es, Et in *; cbn [res_bind].
  { eexists _, _, pre1, _. split; [done|]. split; [done|]. split; [done|]. by apply rep_buf. }
  destruct (IH (set_buf c1 (pre1 ++ nls' ++ line' ++ 0 :: post1)) l1 r1 pre1 nls' line' post1 saved1 rem1)
    as (c2 & l2 & pre2 & post2 & E2 & Q2 & Q3 & R2); try done; [lia|left; exists (pre ++ mid); unfold pre1; flat|by apply rep_buf| |].
  { eapply heap_room_weaken; [exact B2|]. unfold grown. lia. }
  eexists _, _, _, _. rewrite E2. split; [done|]. split; [done|]. split; [|done]. by rewrite Q3.
Qed.

(** ** The whole file *)

Definition labelled r : Prop := Forall (fun s => r_label s <> None) (r_sections r).

Lemma r_line_labelled r v : labelled r -> labelled (r_line r v).
Proof.
  unfold labelled, r_line. intros Hr. repeat case_match; cbn [r_sections]; try done; [apply Forall_app; split; [done|by repeat constructor]|].
  apply Forall_alter; [done|]. intros x _ Hx. unfold section_keys. cbn [r_section_line]. repeat case_match; done.
Qed.

Lemma r_lines_labelled ls : forall r, labelled r -> labelled (r_lines r ls).
Proof. induction ls as [|x ls IH]; intros r Hr; [done|]. apply IH. by apply r_line_labelled. Qed.

Lemma find_default_ok c l r pre post d o : rep c l r pre -> cf_buf c = pre ++ post -> labelled r -> str_in pre o d ->
  forall ss i found, drop i (r_sections r) = ss ->
  find_default (set_default c found) (seqZ (Z.of_nat i) (zlen ss)) (Some o) = Ok (set_default c (r_pick d (Z.of_nat i) ss found)).
Proof.
  intros R Eb Hlab Hd ss. induction ss as [|s ss IH]; intros i found Hi; [done|].
  assert (Hs : r_sections r !! i = Some s) by (rewrite <- (Nat.add_0_r i), <- lookup_drop, Hi; done).
  replace (zlen (s :: ss)) with (Z.succ (zlen ss)) by (unfold zlen; cbn [length]; lia). rewrite seqZ_cons by (pose proof (zlen_nonneg ss); lia).
  rewrite Z.pred_succ. cbn [find_default r_pick].
  destruct (section_at_ok (set_default c found) l r pre i s) as (a & x & -> & _ & _ & Hsec); [by destruct R|done|]. cbn [res_bind].
  assert (Hl : exists lb ls, label x = Some lb /\ r_label s = Some ls /\ str_in pre lb ls).
  { pose proof (si_label _ _ _ Hsec) as Hlb. eapply Forall_lookup_1 in Hlab; [|exact Hs]. cbn in Hlab. unfold opt_in in Hlb.
    destruct (label x) as [lb|], (r_label s) as [ls|]; try done. by exists lb, ls. }
  destruct Hl as (lb & ls & -> & -> & Hlb). cbn [cf_buf set_default]. rewrite Eb, (str_in_string _ _ _ (str_in_app _ post _ _ Hd)). cbn [res_bind].
  destruct (str_in_bytes _ _ _ (str_in_app _ post _ _ Hlb)) as [y ->]. rewrite has_key_spec by apply Hd. cbn [res_bind from_option id].
  specialize (IH (S i) (if starts d ls then Z.of_nat i else found)).
  replace (Z.of_nat (S i)) with (Z.succ (Z.of_nat i)) in IH by lia. replace (Z.of_nat i + 1) with (Z.succ (Z.of_nat i)) by lia.
  destruct (starts d ls); apply IH; rewrite <- Nat.add_1_r, <- drop_drop, Hi; done.
Qed.

Lemma rep_empty c pre : zlen (section c) = MAX_SECTIONS -> rep c (mkLocals None None (-1)) r_empty pre.
Proof. intros Hp. split; [done|done|by left|done|done|done|]. cbn. intros i j a Hi. lia. Qed.

(** C8: extlinux.conf.  A text that is ended by a zero in its block, whose first line is no comment, which has up to 20 labels and a default if it has a
    label, is parsed in place without error, and what is found is what a parser of lists of lines finds: as many
    entries as labels, for each the strings of its lines with comments and surrounding spaces removed,
    the waiting time, and as the default the last entry whose label starts with the default. *)
Theorem parse_conf_refines c text junk line ls : cf_buf c = text ++ 0 :: junk -> nonzero text -> zlen (section c) = MAX_SECTIONS ->
  tokens text = line :: ls -> ~ comment_only line -> zlen (r_sections (r_parse text)) <= MAX_SECTIONS ->
  (r_sections (r_parse text) = [] \/ r_default (r_parse text) <> None) ->
  heap_room (cf_heap c) (section_cost * zlen (r_sections (r_parse text))) ->
  exists c', parse_conf_file c = Ok (TEGRABL_NO_ERROR, c') /\ num_boot_entries c' = zlen (r_sections (r_parse text)) /\
    user_input_wait_timeout_ms c' = r_wait (r_parse text) /\
    default_boot_entry c' = r_pick (default [] (r_default (r_parse text))) 0 (r_sections (r_parse text)) (default_boot_entry c) /\
    (r_title (r_parse text) = None \/ opt_in (cf_buf c') (menu_title c') (r_title (r_parse text))) /\
    forall i s, r_sections (r_parse text) !! i = Some s -> exists a x, section_at c' (Z.of_nat i) = Ok (a, x) /\ sec_in (cf_buf c') x s.
Proof.
  intros Eb Hz Hp Et Hc Hm Hdef Hr. unfold parse_conf_file. rewrite Eb.
  destruct (next_token [] text junk None (Some 0) Hz eq_refl) as [[Et' _]|(nls & line' & post & saved & rem & Hn & Hne & Hl & Hz' & Et' & Hlt & Hrem & Es)]; [by rewrite Et in Et'|].
  rewrite Et in Et'. injection Et' as <- ->. cbn [app] in Es. rewrite Es. cbn [res_bind].
  set (r := r_parse text) in *. assert (Er : r = r_lines r_empty (line :: tokens rem)) by (unfold r, r_parse; by rewrite Et).
  destruct (parse_lines_ok (length (nls ++ line ++ 0 :: post)) (set_buf c (nls ++ line ++ 0 :: post)) (mkLocals None None (-1)) r_empty [] nls line post saved rem)
    as (c1 & l1 & pre1 & post1 & E1 & B1 & B2 & R); rewrite <- ?Er; try done.
  { destruct Hrem as [[_ ->]|(_ & _ & post' & ->)]; [destruct line; [done|]|]; rewrite !length_app; cbn [length]; rewrite ?length_app; lia. }
  { by right. }
  { by apply rep_empty. }
  { eapply heap_room_weaken; [exact Hr|]. unfold grown. change (zlen (r_sections r_empty)) with 0. lia. }
  rewrite <- Er in R. cbn [default_boot_entry set_buf] in B2. rewrite E1. cbn [res_bind]. change (TEGRABL_NO_ERROR =? TEGRABL_NO_ERROR) with true. cbn [negb].
  pose proof R as [R1 R2 R3 R4 R5 R6 R7]. assert (Hw : wait_time c1 (timeout l1) = Ok (r_wait r)).
  { unfold wait_time, r_wait. unfold opt_in in R1. destruct (timeout l1), (r_timeout r); try done. rewrite B1, (str_in_string _ _ _ (str_in_app _ post1 _ _ R1)). done. }
  rewrite Hw. cbn [res_bind]. rewrite R4. pose proof (zlen_nonneg (r_sections r)). rewrite u32_small by (unfold MAX_SECTIONS in *; lia).
  set (c2 := set_entries (set_timeout c1 (r_wait r)) (zlen (r_sections r))). change (num_boot_entries c2) with (zlen (r_sections r)).
  assert (R' : rep c2 l1 r pre1) by by split.
  assert (Hf : find_default c2 (seqZ 0 (zlen (r_sections r))) (default_boot l1) = Ok (set_default c2 (r_pick (default [] (r_default r)) 0 (r_sections r) (default_boot_entry c)))).
  { destruct Hdef as [E0|Hd]; [rewrite E0; cbn; rewrite <- B2; by destruct c1|]. unfold opt_in in R2. destruct (default_boot l1) as [o|], (r_default r) as [d|]; try done.
    pose proof (find_default_ok c2 l1 r pre1 post1 d o R' B1 ltac:(rewrite Er; apply r_lines_labelled; constructor) R2 (r_sections r) 0 (default_boot_entry c1) eq_refl) as Hf.
    rewrite <- B2. by replace (set_default c2 (default_boot_entry c1)) with c2 in Hf by by destruct c1. }
  rewrite Hf. eexists. split; [done|]. split; [done|]. split; [done|]. split; [done|]. cbn [cf_buf set_default c2 set_entries set_timeout menu_title]. rewrite B1. split.
  - destruct R3 as [? | ?]; [by left|right; by apply opt_in_app].
  - intros i s Hi. destruct (section_at_ok c2 l1 r pre1 i s R' Hi) as (a & x & Ha & _ & _ & Hs). exists a, x. split; [exact Ha|by apply sec_in_app].
Qed.
End Parse.
