(* ===== verification/ExtlinuxEdge.v ===== *)
(** extlinux.conf: the menu, texts the parser does not withstand, and an example. *)

From S2P Require Import Prelude TegraError Utils BlockDev BlockDevFacts Models Cbo LinuxLoad Extlinux ExtlinuxProps.

(** ** The menu *)

Section Menu.
Context {H : Type} (c : conf H).
Hypothesis Hn : num_boot_entries c <= MAX_SECTIONS.

(** Keys that are neither an entry nor the end of the waiting time are asked for again. *)
Lemma menu_skips bad ch keys : Forall (fun k => menu_key c k = inr tt) bad -> menu_loop c (bad ++ ch :: keys) =
  match menu_key c ch with inl e => Some e | inr _ => menu_loop c keys end.
Proof. induction 1 as [|k bad Hk Hb IH]; [done|]. cbn [app menu_loop]. by rewrite Hk. Qed.

(** What the menu returns is an entry, if the default is one. *)
Lemma menu_returns_entry keys e : 0 <= default_boot_entry c < num_boot_entries c -> menu_loop c keys = Some e -> 0 <= e < num_boot_entries c.
Proof.
  intros Hd. induction keys as [|k keys IH]; [done|]. cbn [menu_loop]. unfold menu_key.
  rewrite s32_small by (unfold MAX_SECTIONS in *; lia).
  destruct (Z.leb_spec 49 k), (Z.leb_spec k (48 + num_boot_entries c)); cbn [andb]; try (intros [= <-]; lia).
  all: destruct (k =? -1); [intros [= <-]; lia|exact IH].
Qed.
End Menu.

(** ** Texts the parser does not withstand *)

(** With nothing but spaces before it, the loop leaves the block. *)
Lemma trim_leaves w r n first : spaces w -> zlen w <= first -> (length w < n)%nat -> trim_loop n (w ++ r) (zlen w - 1) first = Stuck OutOfBounds.
Proof.
  intros Hw. revert r n. induction w as [|c w IH] using rev_ind; intros r n Hf Hn; (destruct n as [|n]; [lia|]); cbn [trim_loop].
  - change (zlen []) with 0. change (zlen []) with 0 in Hf. by rewrite (proj2 (Z.eqb_neq _ first)) by lia.
  - apply Forall_app in Hw as [Hw Hc]. apply Forall_cons in Hc as [Hc _]. rewrite zlen_app in *. change (zlen [c]) with 1 in *. rewrite length_app in Hn. cbn [length] in Hn.
    rewrite (proj2 (Z.eqb_neq _ first)) by lia. replace (zlen w + 1 - 1) with (zlen w) by lia. rewrite <- app_assoc. cbn [app].
    rewrite byte_at_end. cbn [res_bind]. rewrite Hc. cbn [negb]. rewrite put_byte_end. cbn [res_bind]. apply IH; [done|lia|lia].
Qed.

Section Edge.
Context {H : Type} {AL : Allocator H}.
Implicit Types c : conf H.

Lemma comment_leaves nls line post : newlines nls -> no_nl line -> nonzero line -> comment_only line ->
  remove_whitespace_and_comment (nls ++ line ++ 0 :: post) (zlen nls) = Stuck OutOfBounds.
Proof.
  intros Hn Hl Hz Hc. destruct (ltrim_split line) as (w & E & Hs). unfold comment_only in Hc. destruct (ltrim line) as [|d com] eqn:Et; [done|].
  injection Hc as ->. rewrite E in Hl, Hz |- *. apply Forall_app in Hl as [Hl _], Hz as [Hz _].
  unfold remove_whitespace_and_comment. rewrite bytes_at_end, <- app_assoc, scan_spaces by done. cbn [app scan_loop].
  change ((HASH =? NL) || (HASH =? 0)) with false. change (isspace HASH) with false. cbv iota. rewrite Z.eqb_refl. cbn [res_bind from_option id].
  rewrite <- zlen_app, app_assoc, put_byte_end. cbn [res_bind]. rewrite trim_leaves; [done|apply Forall_app; split; [by apply newlines_spaces|done]|lia|].
  unfold zlen. lia.
Qed.

(** A comment in the first line.  If nothing but empty lines and spaces stand before the first comment, removing the spaces before it does not
    stop at the start of the file: the byte before the block is read, and overwritten if it is a space. *)
Theorem first_comment_leaves_block c text junk line ls : cf_buf c = text ++ 0 :: junk -> nonzero text -> tokens text = line :: ls -> comment_only line ->
  parse_conf_file c = Stuck OutOfBounds.
Proof.
  intros Eb Hz Et Hc. unfold parse_conf_file. rewrite Eb.
  destruct (next_token [] text junk None (Some 0) Hz eq_refl) as [[Et' _]|(nls & line' & post & saved & rem & Hn & Hne & Hl & Hz' & Et' & _ & _ & Es)]; [by rewrite Et in Et'|].
  rewrite Et in Et'. injection Et' as <- ->. cbn [app] in Es. rewrite Es. cbn [res_bind].
  destruct (length (nls ++ line ++ 0 :: post)) as [|n] eqn:En; [rewrite !length_app in En; cbn in En; lia|].
  cbn [parse_lines cf_buf set_buf]. change (zlen [] + zlen nls) with (zlen nls). by rewrite comment_leaves.
Qed.
End Edge.

(** ** Examples *)

Definition file_lines (ls : list String.string) : list Z := concat ((fun l => str l ++ [NL]) <$> ls).
Definition demo_conf (buf : list Z) : conf arena := mkConf demo_heap buf 0 None (replicate 20 0) ∅ 0 0.

Definition demo_text : list Z := file_lines
  ["TIMEOUT 30"; "DEFAULT primary"; ""; "MENU TITLE boot options"; "# kernels"; "LABEL primary"; "  MENU LABEL primary kernel";
   "  LINUX /boot/Image  # signed"; "  INITRD /boot/initrd"; "  APPEND ${cbootargs} quiet  "; "LABEL backup"; "  LINUX /boot/Image.old"]%string.

Lemma demo_text_parsed : r_parse demo_text =
  mkRConf (Some (str "30")) (Some (str "primary")) (Some (str "boot options"))
    [mkRSection (Some (str "primary")) (Some (str "primary kernel")) (Some (str "/boot/Image")) None (Some (str "/boot/initrd"))
       (Some (str "${cbootargs} quiet"));
     mkRSection (Some (str "backup")) None (Some (str "/boot/Image.old")) None None None].
Proof. vm_compute. reflexivity. Qed.

Lemma nonzero_dec l : forallb (fun c => negb (c =? 0)) l = true -> nonzero l.
Proof.
  intros Hl. apply Forall_forall. intros c Hc. rewrite forallb_forall in Hl. specialize (Hl c (proj1 (list_elem_of_In _ _) Hc)). by destruct (Z.eqb_spec c 0).
Qed.

Lemma parse_conf_refines_witness : exists c', parse_conf_file (demo_conf (demo_text ++ 0 :: str "left over")) = Ok (TEGRABL_NO_ERROR, c') /\
  num_boot_entries c' = 2 /\ user_input_wait_timeout_ms c' = 3000 /\ default_boot_entry c' = 0.
Proof.
  destruct (parse_conf_refines (demo_conf (demo_text ++ 0 :: str "left over")) demo_text (str "left over") (str "TIMEOUT 30") (tail (tokens demo_text)))
    as (c' & E & H1 & H2 & H3 & _); [done|by apply nonzero_dec|done|vm_compute; reflexivity|by intros Hc| | | |].
  - by rewrite demo_text_parsed.
  - right. by rewrite demo_text_parsed.
  - rewrite demo_text_parsed. split; [done|]. split; [vm_compute; congruence|]. split; [done|]. set_solver.
  - exists c'. split; [exact E|]. rewrite demo_text_parsed in H1, H2, H3. split; [exact H1|]. split; [exact H2|exact H3].
Defined.

Lemma first_comment_leaves_block_witness : parse_conf_file (demo_conf (file_lines ["# L4T"; "LABEL a"]%string ++ 0 :: [])) = Stuck OutOfBounds.
Proof.
  apply (first_comment_leaves_block _ (file_lines ["# L4T"; "LABEL a"]%string) [] (str "# L4T") [str "LABEL a"]); [done|by apply nonzero_dec|vm_compute; reflexivity|done].
Defined.

Definition found (c : res (Z * conf arena)) : option (Z * Z * Z) :=
  match c with Ok (e, c) => Some (e, num_boot_entries c, default_boot_entry c) | Stuck _ => None end.

(** The last label that the default starts is taken, not the one that equals it. *)
Example default_is_prefix : found (parse_conf_file (demo_conf (file_lines ["DEFAULT main"; "LABEL main"; "LABEL main-old"]%string ++ [0]))) = Some (0, 2, 1).
Proof. vm_compute. reflexivity. Qed.

(** The block is not cleared and the file not ended by a zero: what is left in the block behind the file is parsed. *)
Example stale_bytes_parsed :
  found (parse_conf_file (demo_conf (file_lines ["DEFAULT a"; "LABEL a"]%string ++ [0]))) = Some (0, 1, 0) /\
  found (parse_conf_file (demo_conf (file_lines ["DEFAULT a"; "LABEL a"]%string ++ file_lines ["LABEL ab"]%string ++ [0]))) = Some (0, 2, 1).
Proof. split; vm_compute; reflexivity. Qed.

(** A block full of text has no end. *)
Example full_block_overruns : parse_conf_file (demo_conf (file_lines ["DEFAULT a"; "LABEL a"]%string ++ str "LINUX /boot/Image")) = Stuck OutOfBounds.
Proof. vm_compute. reflexivity. Qed.

(** Labels without a default: the name of the default is read through a null pointer. *)
Example no_default_follows_null : parse_conf_file (demo_conf (file_lines ["LABEL a"]%string ++ [0])) = Stuck BadPointer.
Proof. vm_compute. reflexivity. Qed.

(** More than 20 labels. *)
Example labels_overrun : parse_conf_file (demo_conf (concat (replicate 21 (file_lines ["LABEL a"]%string)) ++ [0])) = Stuck OutOfBounds.
Proof. vm_compute. reflexivity. Qed.
