(* ===== verification/Auth.v ===== *)
(** Authentication of binaries: t19x/common/lib/tegrabl_auth/tegrabl_auth_binary.c, the check of the
    ratchet level in t19x/common/lib/linuxboot/t194/linuxboot_helper.c, and
    [tegrabl_validate_binary] and [tegrabl_verify_boot_img_hdr] of
    common/lib/linuxboot/linuxboot_utils.c.

    A binary is preceded by a header of 4096 bytes (NvBootComponentHeader); memory is a
    function from addresses to bytes.  The security engine is the class [Crypto], fuses, boot parameters
    and the heap for DMA are [SocPlatform]. *)

From S2P Require Import Prelude TegraError Utils BlockDev Cbo LinuxLoad.

Definition TEGRABL_BINARY_KERNEL : Z := 37.
Definition TEGRABL_BINARY_KERNEL_DTB : Z := 38.
Definition TEGRABL_ERR_AUTH : Z := 0x40.
Definition AUTH_ERR (reason aux : Z) : Z := tegrabl_error_value TEGRABL_ERR_AUTH aux reason.

(** ** The header *)

Definition SHA2_DIGEST_BYTES : Z := 32.
Definition sizeof_NvBootComponentHeader : Z := 4096.
(** Unsigned section: the signatures and the public keys. *)
Definition STAGE2_DIGEST : Z := 16.
Definition STAGE2_RSA_SIG : Z := 48.
Definition sizeof_RSA_SIG : Z := 384.
Definition STAGE2_ECC_SIG : Z := 432.
Definition sizeof_ECC_SIG : Z := 64.
Definition PCP : Z := 496.
Definition sizeof_PCP : Z := 1216.
(** The section that is signed. *)
Definition STAGE2_SIGN_OFFSET : Z := 2960.
Definition NUM_BINARIES2 : Z := 2976.
Definition STAGE2_COMPONENTS : Z := 2992.
Definition sizeof_NvStage2Component : Z := 80.
Definition STAGE1_COMPONENTS : Z := 3840.
Definition sizeof_NvStage1Component : Z := 64.
Definition MAX_COMPONENT_COUNT : Z := 4.
Definition STAGE2_SIGN_SIZE : Z := STAGE1_COMPONENTS - STAGE2_SIGN_OFFSET + sizeof_NvStage1Component * MAX_COMPONENT_COUNT.
(** Inside of a component. *)
Definition BINARY_LEN : Z := 4.
Definition RATCHET_LEVEL : Z := 18.
Definition DIGEST : Z := 48.

Definition FUSE_AUTHENTICATION_SCHEME_MASK : Z := 0x83.
Definition AUTHENTICATION_SCHEME_SHA2 : Z := 0x0.
Definition AUTHENTICATION_SCHEME_RSA2K : Z := 0x1.
Definition AUTHENTICATION_SCHEME_RSA3K : Z := 0x2.
Definition AUTHENTICATION_SCHEME_ECC : Z := 0x3.
Definition AUTHENTICATION_SCHEME_ED25519 : Z := 0x83.
Definition RSA_KEY_2048_BITS : Z := 2048.
Definition RSA_KEY_3072_BITS : Z := 3072.

(** The routines return an error; data, signature and parameters are the bytes they are given. *)
Class Crypto := {
  tegrabl_crypto_compute_sha2 : list Z -> Z * list Z;
  tegrabl_crypto_validate_pcp : list Z -> Z;
  tegrabl_crypto_rsa_pss_verify : list Z -> list Z -> Z -> list Z -> Z;
  tegrabl_crypto_ecdsa_verify : list Z -> list Z -> list Z -> Z;
  tegrabl_crypto_ed25519_verify : list Z -> list Z -> list Z -> Z
}.

Class SocPlatform (M : Type) := {
  FUSE_BOOT_SECURITY_INFO : Z;
  fuse_is_odm_production_mode : bool;
  (** [boot_params->min_ratchet[oem_fw_bin_type_mapping[bin_type]]] *)
  min_ratchet : Z -> Z;
  (** [tegrabl_alloc] and [tegrabl_dealloc] on the heap for DMA. *)
  dma_alloc : M -> Z -> Z * M;
  dma_free : M -> Z -> M
}.

Definition set_media {M} (s : lx M) (m : M) : lx M :=
  mkLx m (lx_mem s) (os_carveout_next_free_addr s) (ramdisk_load s) (ramdisk_size s) (bootimg_cmdline s) (dt_kernel s).

(** A component of the signed section. *)
Definition component (payload i : Z) : Z := payload + STAGE2_COMPONENTS + sizeof_NvStage2Component * i.

Section Auth.
Context {M : Type} {CR : Crypto} {PF : SocPlatform M}.
Implicit Types s : lx M.

(** The scratch digest; [f] is the work with it, which is skipped without memory. *)
Definition with_digest s (f : lx M -> Z) : Z * lx M :=
  let '(hash, m) := dma_alloc (lx_media s) SHA2_DIGEST_BYTES in
  let s := set_media s m in
  if hash =? NULL then (AUTH_ERR TEGRABL_ERR_NO_MEMORY 0, s)
  else (f s, set_media s (dma_free (lx_media s) hash)).

(** The check of the signature, by the scheme in the fuses. *)
Definition verify_stage2 (m : Z -> Z) (payload : Z) : Z :=
  let temp_mem := bytes_at m (payload + STAGE2_SIGN_OFFSET) STAGE2_SIGN_SIZE in
  let pcp := bytes_at m (payload + PCP) sizeof_PCP in
  let authentication_scheme := Z.land FUSE_BOOT_SECURITY_INFO FUSE_AUTHENTICATION_SCHEME_MASK in
  let err :=
    if negb (authentication_scheme =? AUTHENTICATION_SCHEME_SHA2) then tegrabl_crypto_validate_pcp pcp
    else TEGRABL_NO_ERROR in
  if negb (err =? TEGRABL_NO_ERROR) then err
  else if authentication_scheme =? AUTHENTICATION_SCHEME_SHA2 then
    let '(err, hash) := tegrabl_crypto_compute_sha2 temp_mem in
    if negb (err =? TEGRABL_NO_ERROR) then err
    else if bool_decide (hash = bytes_at m (payload + STAGE2_DIGEST) SHA2_DIGEST_BYTES) then TEGRABL_NO_ERROR
    else AUTH_ERR TEGRABL_ERR_VERIFY_FAILED 0
  else if authentication_scheme =? AUTHENTICATION_SCHEME_RSA2K then
    tegrabl_crypto_rsa_pss_verify temp_mem (bytes_at m (payload + STAGE2_RSA_SIG) sizeof_RSA_SIG) RSA_KEY_2048_BITS pcp
  else if authentication_scheme =? AUTHENTICATION_SCHEME_RSA3K then
    tegrabl_crypto_rsa_pss_verify temp_mem (bytes_at m (payload + STAGE2_RSA_SIG) sizeof_RSA_SIG) RSA_KEY_3072_BITS pcp
  else if authentication_scheme =? AUTHENTICATION_SCHEME_ECC then
    tegrabl_crypto_ecdsa_verify temp_mem (bytes_at m (payload + STAGE2_ECC_SIG) sizeof_ECC_SIG) pcp
  else if authentication_scheme =? AUTHENTICATION_SCHEME_ED25519 then
    tegrabl_crypto_ed25519_verify temp_mem (bytes_at m (payload + STAGE2_ECC_SIG) sizeof_ECC_SIG) pcp
  else AUTH_ERR TEGRABL_ERR_NOT_SUPPORTED 0.

Definition authenticate_oem_header s (payload : Z) : Z * lx M :=
  with_digest s (fun s => verify_stage2 (lx_mem s) payload).

(** The digest of the binary in the signed section. *)
Definition verify_digest (m : Z -> Z) (payload : Z) : Z :=
  let len := word_at m (component payload 0 + BINARY_LEN) in
  let '(err, hash) := tegrabl_crypto_compute_sha2 (bytes_at m (payload + sizeof_NvBootComponentHeader) len) in
  if negb (err =? TEGRABL_NO_ERROR) then err
  else if bool_decide (hash = bytes_at m (component payload 0 + DIGEST) SHA2_DIGEST_BYTES) then TEGRABL_NO_ERROR
  else AUTH_ERR TEGRABL_ERR_VERIFY_FAILED 0.

Definition authenticate_oem_payload s (payload : Z) : Z * lx M :=
  with_digest s (fun s => verify_digest (lx_mem s) payload).

(** Behind the checks the binary is moved over its header. *)
Definition tegrabl_auth_payload s (payload max_size : Z) : Z * lx M :=
  let '(err, s) := authenticate_oem_header s payload in
  if negb (err =? TEGRABL_NO_ERROR) then (err, s)
  else
    let '(err, s) := authenticate_oem_payload s payload in
    if negb (err =? TEGRABL_NO_ERROR) then (err, s)
    else (TEGRABL_NO_ERROR,
      set_mem s (memmove (lx_mem s) payload (payload + sizeof_NvBootComponentHeader)
        (max_size - sizeof_NvBootComponentHeader))).

Definition tegrabl_sigheader_size : Z := sizeof_NvBootComponentHeader.

(** ** Ratchet levels *)

Fixpoint ratchet_loop (m : Z -> Z) (addr min_ratchet_level : Z) (ids : list Z) : bool :=
  match ids with
  | [] => true
  | i :: ids =>
      let fw_ratchet_level := u8 (m (component addr i + RATCHET_LEVEL)) in
      if negb (min_ratchet_level =? 0) && (fw_ratchet_level <? min_ratchet_level) then false
      else ratchet_loop m addr min_ratchet_level ids
  end.

Definition tegrabl_do_ratchet_check (m : Z -> Z) (bin_type addr : Z) : bool :=
  let num_bins := u8 (word_at m (addr + NUM_BINARIES2)) in
  ratchet_loop m addr (u8 (min_ratchet bin_type)) (seqZ 0 num_bins).

Definition tegrabl_validate_binary s (bin_type bin_max_size load_addr : Z) : Z * lx M :=
  if negb ((bin_type =? TEGRABL_BINARY_KERNEL) || (bin_type =? TEGRABL_BINARY_KERNEL_DTB))
  then (LX_ERR TEGRABL_ERR_INVALID 0, s)
  else if negb (tegrabl_do_ratchet_check (lx_mem s) bin_type load_addr) then (TEGRABL_NO_ERROR, s)
  else tegrabl_auth_payload s load_addr bin_max_size.
End Auth.

(** ** The header of a boot image *)

Definition ANDROID_HEADER_SIZE : Z := 2048.
Definition CRC32_SIZE : Z := 4.
Definition hdr_secondsize (m : Z -> Z) (a : Z) : Z := word_at m (a + 24).

(** The sum of the sizes is computed in 32 bits. *)
Definition tegrabl_verify_boot_img_hdr (m : Z -> Z) (hdr img_size : Z) : Z :=
  if negb (HAS_BOOT_IMG_HDR m hdr) then LX_ERR TEGRABL_ERR_VERIFY_FAILED 0
  else if hdr_pagesize m hdr <? ANDROID_HEADER_SIZE then LX_ERR TEGRABL_ERR_INVALID 0
  else
    let hdr_size_fields_sum := u32 (hdr_pagesize m hdr + hdr_kernelsize m hdr + hdr_ramdisksize m hdr + hdr_secondsize m hdr) in
    if img_size <? hdr_size_fields_sum then LX_ERR TEGRABL_ERR_INVALID 1
    else
      let known_crc := word_at m (hdr + (ANDROID_HEADER_SIZE - CRC32_SIZE)) in
      if negb (known_crc =? 0) &&
         negb (Crc32.tegrabl_utils_crc32 0 (bytes_at m hdr ANDROID_HEADER_SIZE) =? known_crc)
      then LX_ERR TEGRABL_ERR_VERIFY_FAILED 1
      else TEGRABL_NO_ERROR.
