(* ===== verification/AuthProps.v ===== *)
(** Authentication of binaries: what an accepted binary is, when nothing is checked, a small platform the
    theorems are tried on, and the sizes in the header of a boot image. *)

From S2P Require Import Prelude TegraError Utils BlockDev Cbo LinuxLoad Auth.

(** ** What the checks promise *)

Section Spec.
Context {M : Type} {CR : Crypto} {PF : SocPlatform M}.
Implicit Types (m : Z -> Z) (a : Z).

Definition scheme : Z := Z.land FUSE_BOOT_SECURITY_INFO FUSE_AUTHENTICATION_SCHEME_MASK.
Definition signed_section m a : list Z := bytes_at m (a + STAGE2_SIGN_OFFSET) STAGE2_SIGN_SIZE.
Definition public_parameters m a : list Z := bytes_at m (a + PCP) sizeof_PCP.
Definition rsa_signature m a : list Z := bytes_at m (a + STAGE2_RSA_SIG) sizeof_RSA_SIG.
Definition ecc_signature m a : list Z := bytes_at m (a + STAGE2_ECC_SIG) sizeof_ECC_SIG.

(** The signed section has a good signature by the scheme in the fuses. *)
Inductive header_signed m a : Prop :=
  | signed_sha2 : scheme = AUTHENTICATION_SCHEME_SHA2 ->
      tegrabl_crypto_compute_sha2 (signed_section m a) = (TEGRABL_NO_ERROR, bytes_at m (a + STAGE2_DIGEST) SHA2_DIGEST_BYTES) ->
      header_signed m a
  | signed_rsa bits : (scheme, bits) = (AUTHENTICATION_SCHEME_RSA2K, RSA_KEY_2048_BITS) \/
        (scheme, bits) = (AUTHENTICATION_SCHEME_RSA3K, RSA_KEY_3072_BITS) ->
      tegrabl_crypto_validate_pcp (public_parameters m a) = TEGRABL_NO_ERROR ->
      tegrabl_crypto_rsa_pss_verify (signed_section m a) (rsa_signature m a) bits (public_parameters m a) = TEGRABL_NO_ERROR ->
      header_signed m a
  | signed_ecdsa : scheme = AUTHENTICATION_SCHEME_ECC ->
      tegrabl_crypto_validate_pcp (public_parameters m a) = TEGRABL_NO_ERROR ->
      tegrabl_crypto_ecdsa_verify (signed_section m a) (ecc_signature m a) (public_parameters m a) = TEGRABL_NO_ERROR ->
      header_signed m a
  | signed_ed25519 : scheme = AUTHENTICATION_SCHEME_ED25519 ->
      tegrabl_crypto_validate_pcp (public_parameters m a) = TEGRABL_NO_ERROR ->
      tegrabl_crypto_ed25519_verify (signed_section m a) (ecc_signature m a) (public_parameters m a) = TEGRABL_NO_ERROR ->
      header_signed m a.

(** The bytes from [b] on are those whose digest is in the signed section of the header at [a] of [m]. *)
Definition binary_len m a : Z := word_at m (component a 0 + BINARY_LEN).
Definition has_digest m a (binary : list Z) : Prop :=
  tegrabl_crypto_compute_sha2 binary = (TEGRABL_NO_ERROR, bytes_at m (component a 0 + DIGEST) SHA2_DIGEST_BYTES).
Definition authentic m a : Prop :=
  header_signed m a /\ has_digest m a (bytes_at m (a + sizeof_NvBootComponentHeader) (binary_len m a)).

(** There is memory for the digest of the header and, behind that, of the binary. *)
Definition digests_fit (d : M) : Prop :=
  let '(h, d1) := dma_alloc d SHA2_DIGEST_BYTES in
  h <> NULL /\ (dma_alloc (dma_free d1 h) SHA2_DIGEST_BYTES).1 <> NULL.

(** ** The checks decide it *)

Lemma auth_err_nonzero : AUTH_ERR TEGRABL_ERR_VERIFY_FAILED 0 <> TEGRABL_NO_ERROR /\
  AUTH_ERR TEGRABL_ERR_NOT_SUPPORTED 0 <> TEGRABL_NO_ERROR /\ AUTH_ERR TEGRABL_ERR_NO_MEMORY 0 <> TEGRABL_NO_ERROR.
Proof. by vm_compute. Qed.

(** A digest is accepted just when it is computed and the stored one. *)
Lemma digest_compare (r : Z * list Z) (d : list Z) :
  (let '(err, hash) := r in
   if negb (err =? TEGRABL_NO_ERROR) then err
   else if bool_decide (hash = d) then TEGRABL_NO_ERROR else AUTH_ERR TEGRABL_ERR_VERIFY_FAILED 0) = TEGRABL_NO_ERROR <->
  r = (TEGRABL_NO_ERROR, d).
Proof.
  destruct r as [err hash]. destruct (Z.eqb_spec err TEGRABL_NO_ERROR) as [-> | Hn]; cbn [negb].
  - case_bool_decide as E; [by subst|]. split; [intros Ha; by destruct (proj1 auth_err_nonzero)|by intros [= ->]].
  - split; [done|by intros [= -> _]].
Qed.

Lemma verify_digest_iff m a : verify_digest m a = TEGRABL_NO_ERROR <->
  has_digest m a (bytes_at m (a + sizeof_NvBootComponentHeader) (binary_len m a)).
Proof. apply digest_compare. Qed.

Lemma verify_stage2_signed m a : verify_stage2 m a = TEGRABL_NO_ERROR -> header_signed m a.
Proof.
  unfold verify_stage2. fold scheme. fold (public_parameters m a) (signed_section m a) (rsa_signature m a) (ecc_signature m a).
  destruct (Z.eqb_spec scheme AUTHENTICATION_SCHEME_SHA2) as [E|_]; cbn [negb].
  - change (negb (TEGRABL_NO_ERROR =? TEGRABL_NO_ERROR)) with false. cbv iota. intros Hd. apply digest_compare in Hd. by apply signed_sha2.
  - destruct (Z.eqb_spec (tegrabl_crypto_validate_pcp (public_parameters m a)) TEGRABL_NO_ERROR) as [Hp|Hp]; cbn [negb]; [|done].
    destruct (Z.eqb_spec scheme AUTHENTICATION_SCHEME_RSA2K) as [E|_]; [apply signed_rsa; [left; by rewrite E|done]|].
    destruct (Z.eqb_spec scheme AUTHENTICATION_SCHEME_RSA3K) as [E|_]; [apply signed_rsa; [right; by rewrite E|done]|].
    destruct (Z.eqb_spec scheme AUTHENTICATION_SCHEME_ECC) as [E|_]; [by apply signed_ecdsa|].
    destruct (Z.eqb_spec scheme AUTHENTICATION_SCHEME_ED25519) as [E|_]; [by apply signed_ed25519|].
    intros Ha. by destruct auth_err_nonzero as (_ & [] & _).
Qed.

Lemma signed_verify_stage2 m a : header_signed m a -> verify_stage2 m a = TEGRABL_NO_ERROR.
Proof.
  unfold verify_stage2. fold scheme. fold (public_parameters m a) (signed_section m a) (rsa_signature m a) (ecc_signature m a).
  destruct 1 as [E Hd|bits [[= E ->]|[= E ->]] Hp Hv|E Hp Hv|E Hp Hv]; rewrite E.
  1: cbn [negb Z.eqb AUTHENTICATION_SCHEME_SHA2]; change (negb (TEGRABL_NO_ERROR =? TEGRABL_NO_ERROR)) with false; cbv iota; by apply digest_compare.
  all: cbn [negb Z.eqb AUTHENTICATION_SCHEME_SHA2 AUTHENTICATION_SCHEME_RSA2K AUTHENTICATION_SCHEME_RSA3K AUTHENTICATION_SCHEME_ECC AUTHENTICATION_SCHEME_ED25519 Pos.eqb];
    by rewrite Hp, ?Z.eqb_refl; cbn [negb].
Qed.
End Spec.

(** ** Binaries *)

Section Validate.
Context {M : Type} {CR : Crypto} {PF : SocPlatform M}.
Implicit Types s : lx M.

Definition loadable (bin_type : Z) : Prop := bin_type = TEGRABL_BINARY_KERNEL \/ bin_type = TEGRABL_BINARY_KERNEL_DTB.

Lemma loadable_guard bin_type : loadable bin_type ->
  negb ((bin_type =? TEGRABL_BINARY_KERNEL) || (bin_type =? TEGRABL_BINARY_KERNEL_DTB)) = false.
Proof. by intros [-> | ->]. Qed.

(** The digest is accepted by [f], or there is no memory for it; memory is as before. *)
Lemma with_digest_spec s f : exists err d, with_digest s f = (err, set_media s d) /\
  (err = TEGRABL_NO_ERROR <-> (dma_alloc (lx_media s) SHA2_DIGEST_BYTES).1 <> NULL /\ f (set_media s (dma_alloc (lx_media s) SHA2_DIGEST_BYTES).2) = TEGRABL_NO_ERROR) /\
  (err = TEGRABL_NO_ERROR -> d = let '(h, d1) := dma_alloc (lx_media s) SHA2_DIGEST_BYTES in dma_free d1 h).
Proof.
  unfold with_digest. destruct (dma_alloc (lx_media s) SHA2_DIGEST_BYTES) as [h d1]. cbn [fst snd].
  destruct (Z.eqb_spec h NULL) as [-> | Hh].
  - exists (AUTH_ERR TEGRABL_ERR_NO_MEMORY 0), d1. split; [done|]. split; [|by intros E; destruct auth_err_nonzero as (_ & _ & [])].
    split; [by intros E; destruct auth_err_nonzero as (_ & _ & [])|by intros [[] _]].
  - exists (f (set_media s d1)), (dma_free d1 h). split; [done|]. split; [|done]. split; [done|by intros [_ E]].
Qed.

Lemma auth_payload_spec s a n : exists err s', tegrabl_auth_payload s a n = (err, s') /\
  (err = TEGRABL_NO_ERROR <-> digests_fit (lx_media s) /\ authentic (lx_mem s) a) /\
  lx_mem s' = (if err =? TEGRABL_NO_ERROR
    then memmove (lx_mem s) a (a + sizeof_NvBootComponentHeader) (n - sizeof_NvBootComponentHeader) else lx_mem s).
Proof.
  unfold tegrabl_auth_payload, authenticate_oem_header, authenticate_oem_payload, digests_fit, authentic.
  destruct (with_digest_spec s (fun s => verify_stage2 (lx_mem s) a)) as (e1 & d1 & -> & H1 & Hd). cbn [lx_mem set_media] in H1.
  destruct (dma_alloc (lx_media s) SHA2_DIGEST_BYTES) as [h d0]. cbn [fst snd] in *.
  destruct (Z.eqb_spec e1 TEGRABL_NO_ERROR) as [-> | Hn]; cbn [negb].
  2: { exists e1, (set_media s d1). split; [done|]. split; [|by rewrite (proj2 (Z.eqb_neq _ _) Hn)].
       split; [done|]. intros [[Hh _] [Hs _]]. destruct Hn. apply H1. split; [done|by apply signed_verify_stage2]. }
  destruct (proj1 H1 eq_refl) as [Hh Hs]. apply verify_stage2_signed in Hs. rewrite (Hd eq_refl).
  destruct (with_digest_spec (set_media s (dma_free d0 h)) (fun s => verify_digest (lx_mem s) a)) as (e2 & d2 & -> & H2 & _).
  cbn [lx_mem lx_media set_media] in H2. rewrite verify_digest_iff in H2.
  destruct (Z.eqb_spec e2 TEGRABL_NO_ERROR) as [-> | Hn]; cbn [negb].
  - eexists _, _. split; [done|]. split; [|done]. split; [|done]. intros _. by destruct (proj1 H2 eq_refl).
  - eexists e2, _. split; [done|]. split; [|by rewrite (proj2 (Z.eqb_neq _ _) Hn)].
    split; [done|]. intros [[_ Ha] [_ Hb]]. destruct Hn. by apply H2.
Qed.

Lemma ratchet_loop_true m a min ids : ratchet_loop m a min ids = true <->
  min = 0 \/ Forall (fun i => min <= u8 (m (component a i + RATCHET_LEVEL))) ids.
Proof.
  induction ids as [|i ids IH]; cbn [ratchet_loop]; [split; [by right|done]|].
  destruct (Z.eqb_spec min 0) as [-> | Hm]; cbn [negb andb]; [rewrite IH; tauto|].
  rewrite Forall_cons. destruct (Z.ltb_spec (u8 (m (component a i + RATCHET_LEVEL))) min) as [Hl|Hl].
  - split; [done|]. intros [Hz|[Hi _]]; [done|lia].
  - rewrite IH. split; intros [Hz|Hf]; tauto.
Qed.

Lemma bytes_at_moved m a n len : 0 <= len <= n ->
  bytes_at (memmove m a (a + sizeof_NvBootComponentHeader) n) a len = bytes_at m (a + sizeof_NvBootComponentHeader) len.
Proof.
  intros Hn. unfold bytes_at, seqZ. rewrite <- !list_fmap_compose. apply list_fmap_ext. intros i x Hi. apply lookup_seq in Hi as [-> Hi].
  cbn. unfold memmove. rewrite (proj2 (Z.leb_le _ _)), (proj2 (Z.ltb_lt _ _)) by lia. cbn [andb]. f_equal. lia.
Qed.

(** C7: validation.  If the ratchet levels are not below the minimum, the kernel or its device tree is accepted just when there is memory for the
    digests, the signed section of its header has a good signature by the scheme in the fuses, and the
    binary has the digest in that section.  Then the binary that was hashed stands at the load address, where
    its header was; a binary that is refused stays as it is. *)
Theorem validate_accepts_authentic s bin_type n a : loadable bin_type ->
  min_ratchet bin_type = 0 \/ (0 < min_ratchet bin_type < 256 /\
    forall i, 0 <= i < u8 (word_at (lx_mem s) (a + NUM_BINARIES2)) -> min_ratchet bin_type <= u8 (lx_mem s (component a i + RATCHET_LEVEL))) ->
  exists err s', tegrabl_validate_binary s bin_type n a = (err, s') /\
    (err = TEGRABL_NO_ERROR <-> digests_fit (lx_media s) /\ authentic (lx_mem s) a) /\
    (err <> TEGRABL_NO_ERROR -> lx_mem s' = lx_mem s) /\
    (err = TEGRABL_NO_ERROR -> 0 <= binary_len (lx_mem s) a <= n - sizeof_NvBootComponentHeader ->
      has_digest (lx_mem s) a (bytes_at (lx_mem s') a (binary_len (lx_mem s) a))).
Proof.
  intros Hb Hr. unfold tegrabl_validate_binary. rewrite loadable_guard by done.
  assert (Hc : tegrabl_do_ratchet_check (lx_mem s) bin_type a = true).
  { apply ratchet_loop_true. destruct Hr as [-> |[Hm Hr]]; [by left|right]. rewrite u8_small by lia.
    apply Forall_forall. intros i Hi. apply elem_of_seqZ in Hi. apply Hr. lia. }
  rewrite Hc. cbn [negb]. destruct (auth_payload_spec s a n) as (err & s' & -> & Hi & Hm). exists err, s'. split; [done|]. split; [done|].
  split; intros He; [by rewrite (proj2 (Z.eqb_neq _ _) He) in Hm|]. intros Hl. subst err.
  rewrite Z.eqb_refl in Hm. rewrite Hm, bytes_at_moved by lia. by destruct (proj1 Hi eq_refl) as [_ [_ Hd]].
Qed.

(** C38: an old binary is not checked at all.  If the header of the binary names a component whose ratchet level is below the minimum, validation
    reports success and returns before it looks at a signature: whatever the security engine would say, a
    binary with such a header is accepted, and left behind its header. *)
Theorem ratchet_failure_skips_authentication s bin_type n a i : loadable bin_type -> 0 < min_ratchet bin_type < 256 ->
  0 <= i < u8 (word_at (lx_mem s) (a + NUM_BINARIES2)) -> u8 (lx_mem s (component a i + RATCHET_LEVEL)) < min_ratchet bin_type ->
  tegrabl_validate_binary s bin_type n a = (TEGRABL_NO_ERROR, s).
Proof.
  intros Hb Hm Hi Hl. unfold tegrabl_validate_binary. rewrite loadable_guard by done.
  destruct (tegrabl_do_ratchet_check (lx_mem s) bin_type a) eqn:E; [exfalso|done].
  apply ratchet_loop_true in E. rewrite u8_small in E by lia. destruct E as [E|E]; [lia|].
  rewrite Forall_forall in E. specialize (E i). rewrite elem_of_seqZ in E. lia.
Qed.
End Validate.

(** * A platform, and boot image headers *)

(** ** A platform *)

(** The digest repeats the sum of the bytes; no other scheme verifies. *)
#[local] Instance demo_crypto : Crypto := {
  tegrabl_crypto_compute_sha2 l := (TEGRABL_NO_ERROR, replicate 32 (u8 (fold_left Z.add l 0)));
  tegrabl_crypto_validate_pcp _ := AUTH_ERR TEGRABL_ERR_INVALID 0;
  tegrabl_crypto_rsa_pss_verify _ _ _ _ := AUTH_ERR TEGRABL_ERR_INVALID 0;
  tegrabl_crypto_ecdsa_verify _ _ _ := AUTH_ERR TEGRABL_ERR_INVALID 0;
  tegrabl_crypto_ed25519_verify _ _ _ := AUTH_ERR TEGRABL_ERR_INVALID 0
}.

#[local] Instance demo_platform : SocPlatform unit := {
  FUSE_BOOT_SECURITY_INFO := 0; fuse_is_odm_production_mode := true;
  min_ratchet _ := 2; dma_alloc d _ := (64, d); dma_free d _ := d
}.

(** A header at 0 with one component of two bytes, of ratchet level [level]. *)
Definition demo_header (level : Z) (x : Z) : Z :=
  if x =? NUM_BINARIES2 then 1
  else if x =? component 0 0 + BINARY_LEN then 2
  else if x =? component 0 0 + RATCHET_LEVEL then level
  else if (component 0 0 + DIGEST <=? x) && (x <? component 0 0 + DIGEST + SHA2_DIGEST_BYTES) then 12
  else if (STAGE2_DIGEST <=? x) && (x <? STAGE2_DIGEST + SHA2_DIGEST_BYTES) then u8 (3 + level + 12 * 32)
  else if x =? sizeof_NvBootComponentHeader then 5
  else if x =? sizeof_NvBootComponentHeader + 1 then 7
  else 0.
Definition demo_loaded (level : Z) : lx unit := mkLx tt (demo_header level) 0 0 0 0 0.

Lemma validate_accepts_authentic_witness : authentic (M := unit) (demo_header 2) 0 /\
  exists s', tegrabl_validate_binary (demo_loaded 2) TEGRABL_BINARY_KERNEL 8192 0 = (TEGRABL_NO_ERROR, s') /\
    bytes_at (lx_mem s') 0 2 = [5; 7].
Proof.
  assert (Ha : authentic (M := unit) (demo_header 2) 0) by (split; [apply signed_sha2|]; vm_compute; reflexivity).
  split; [exact Ha|].
  destruct (validate_accepts_authentic (M := unit) (demo_loaded 2) TEGRABL_BINARY_KERNEL 8192 0) as (err & s' & E & Hi & _ & _).
  - by left.
  - right. split; [by vm_compute|]. intros i Hi.
    assert (Hc : u8 (word_at (lx_mem (demo_loaded 2)) (0 + NUM_BINARIES2)) = 1) by by vm_compute. rewrite Hc in Hi. replace i with 0 by lia. by vm_compute.
  - assert (Hf : digests_fit (lx_media (demo_loaded 2))) by (cbn; by split).
    assert (Hz : err = TEGRABL_NO_ERROR) by exact (proj2 Hi (conj Hf Ha)). rewrite Hz in E.
    exists s'. split; [exact E|]. apply (f_equal (fun r => bytes_at (lx_mem r.2) 0 2)) in E. cbn [snd] in E. rewrite <- E. by vm_compute.
Defined.

(** The same binary with a level below the minimum, and a wrong digest. *)
Lemma ratchet_failure_skips_authentication_witness : ~ has_digest (demo_header 1) 0 [9; 9] /\
  let s := set_mem (demo_loaded 1) (fun x => if x >=? sizeof_NvBootComponentHeader then 9 else demo_header 1 x) in
  tegrabl_validate_binary s TEGRABL_BINARY_KERNEL 8192 0 = (TEGRABL_NO_ERROR, s).
Proof.
  split; [by vm_compute|]. apply (ratchet_failure_skips_authentication (M := unit) _ _ _ _ 0); [by left|by vm_compute..].
Defined.

(** With the level at the minimum that binary is refused. *)
Example wrong_digest_refused :
  (tegrabl_validate_binary (set_mem (demo_loaded 2) (fun x => if x >=? sizeof_NvBootComponentHeader then 9 else demo_header 2 x))
    TEGRABL_BINARY_KERNEL 8192 0).1 = AUTH_ERR TEGRABL_ERR_VERIFY_FAILED 0.
Proof. by vm_compute. Qed.

(** ** The header of a boot image *)

(** What is checked: the sum of the sizes counts modulo 2^32, and a checksum of 0 is no checksum. *)
Lemma verify_boot_img_hdr_iff m a n : tegrabl_verify_boot_img_hdr m a n = TEGRABL_NO_ERROR <->
  HAS_BOOT_IMG_HDR m a = true /\ ANDROID_HEADER_SIZE <= hdr_pagesize m a /\
  (hdr_pagesize m a + hdr_kernelsize m a + hdr_ramdisksize m a + hdr_secondsize m a) mod 2 ^ 32 <= n /\
  (word_at m (a + 2044) = 0 \/ Crc32.tegrabl_utils_crc32 0 (bytes_at m a ANDROID_HEADER_SIZE) = word_at m (a + 2044)).
Proof.
  assert (He : LX_ERR TEGRABL_ERR_VERIFY_FAILED 0 <> 0 /\ LX_ERR TEGRABL_ERR_INVALID 0 <> 0 /\
    LX_ERR TEGRABL_ERR_INVALID 1 <> 0 /\ LX_ERR TEGRABL_ERR_VERIFY_FAILED 1 <> 0) by by vm_compute.
  destruct He as (H1 & H2 & H3 & H4).
  unfold tegrabl_verify_boot_img_hdr. change (ANDROID_HEADER_SIZE - CRC32_SIZE) with 2044. unfold u32. change TEGRABL_NO_ERROR with 0.
  destruct (HAS_BOOT_IMG_HDR m a); cbn [negb]; [|split; [done|by intros [? _]]].
  destruct (Z.ltb_spec (hdr_pagesize m a) ANDROID_HEADER_SIZE) as [Hp|Hp]; [split; [done|lia]|].
  match goal with |- context [n <? ?x] => destruct (Z.ltb_spec n x) as [Hn|Hn] end; [split; [done|lia]|].
  destruct (Z.eqb_spec (word_at m (a + 2044)) 0) as [E|E]; cbn [negb andb]; [tauto|].
  generalize (Crc32.tegrabl_utils_crc32 0 (bytes_at m a ANDROID_HEADER_SIZE)). intros crc.
  destruct (Z.eqb_spec crc (word_at m (a + 2044))) as [E'|E']; cbn [negb]; tauto.
Qed.

(** A kernel of almost 4 GB passes the check against an image of 2 KB. *)
Definition demo_wrap (x : Z) : Z :=
  if (0 <=? x) && (x <? 8) then nth (Z.to_nat x) ANDROID_MAGIC 0
  else if (9 <=? x) && (x <? 12) then 0xff else if x =? 18 then 1 else if x =? 37 then 8 else 0.
Example boot_img_sizes_wrap : hdr_kernelsize demo_wrap 0 = 0xffffff00 /\ hdr_ramdisksize demo_wrap 0 = 0x10000 /\
  tegrabl_verify_boot_img_hdr demo_wrap 0 0x11000 = TEGRABL_NO_ERROR.
Proof. split; [by vm_compute|]. split; [by vm_compute|]. apply verify_boot_img_hdr_iff. repeat split; try by vm_compute. left. by vm_compute. Qed.
