(* ===== verification/BootFiles.v ===== *)
(** Loading from a file system: [tegrabl_fm_read] of common/lib/file_manager, the part of
    common/lib/linuxboot/extlinux_boot.c that loads what extlinux.conf names, and
    common/lib/linuxboot/usb_sd_boot.c.

    The file system, the loader of partitions, the set-up of devices and the heap for the
    boot image are the class [BootFiles]; signatures are checked by Auth.v. *)

From S2P Require Import Prelude TegraError Utils BlockDev Cbo LinuxLoad Extlinux Auth.

Definition TEGRABL_ERR_FILE_MANAGER : Z := 0xc.
Definition TEGRABL_ERR_READ_FAILED : Z := 0x19.
Definition TEGRABL_ERR_OPEN_FAILED : Z := 0x11.
Definition FM_ERR (reason aux : Z) : Z := tegrabl_error_value TEGRABL_ERR_FILE_MANAGER aux reason.

Definition EXTLINUX_CONF_PATH : list Z := str "/boot/extlinux/extlinux.conf".
Definition EXTLINUX_CONF_MAX_SIZE : Z := 4096.
Definition FS_MAX_PATH_LEN : Z := 128.
Definition SIZEOF_PATH : Z := 200.
Definition SZ_64K : Z := 65536.
Definition BOOT_IMAGE_MAX_SIZE : Z := 0x05000000.
Definition TEGRABL_STORAGE_USB_MS : Z := 5.
Definition TEGRABL_STORAGE_SDCARD : Z := 6.

Class BootFiles (M : Type) := {
  (** Status and handle; status and size; status and bytes. *)
  fs_open_file : M -> list Z -> Z * Z * M;
  fs_stat_file : M -> Z -> Z * Z;
  fs_read_file : M -> Z -> Z -> Z * list Z * M;
  fs_close_file : M -> Z -> M;
  (** From an address and a size: the error, the address, the size and the state. *)
  tegrabl_load_binary : lx M -> Z -> Z -> Z -> Z * Z * Z * lx M;
  (** [tegrabl_fm_read_partition]: the error, the bytes and the size *)
  tegrabl_fm_read_partition : M -> list Z -> Z -> Z * list Z * Z * M;
  (** [tegrabl_alloc_align] for the boot image *)
  boot_img_alloc : M -> Z * M;
  init_storage_device : M -> Z -> Z * M;
  (** [tegrabl_blockdev_open] and [tegrabl_blockdev_close] *)
  media_open : M -> Z -> Z * M;
  (** The handle and its mount path; whether the device has partitions. *)
  tegrabl_fm_publish : M -> Z -> Z * option (list Z) * M;
  published : M -> Z -> bool;
  tegrabl_partitions_unpublish : M -> Z -> M;
  tegrabl_fm_close : M -> Z -> M;
  media_close : M -> Z -> M
}.

(** Bytes put at an address. *)
Definition store_bytes (m : Z -> Z) (a : Z) (l : list Z) : Z -> Z :=
  fun x => if (a <=? x) && (x <? a + zlen l) then nth (Z.to_nat (x - a)) l 0 else m x.

(** The statics of extlinux_boot.c and of [tegrabl_get_boot_img_load_addr]. *)
Record bx (M H : Type) := mkBx {
  bx_lx : lx M; bx_conf : conf H; boot_entry : Z; g_ramdisk_path : option Z; g_boot_args : option Z;
  extlinux_boot_is_success : bool; boot_img_load : Z
}.
Arguments mkBx {M H}. Arguments bx_lx {M H}. Arguments bx_conf {M H}. Arguments boot_entry {M H}.
Arguments g_ramdisk_path {M H}. Arguments g_boot_args {M H}. Arguments extlinux_boot_is_success {M H}.
Arguments boot_img_load {M H}.

Section Load.
Context {M H : Type} {CR : Crypto} {PF : SocPlatform M} {BF : BootFiles M} {AL : Allocator H}.
Implicit Types (s : lx M) (x : bx M H).
Variable os_base : Z.

(** ** Files *)

(** The error, the bytes that arrive and [*size]; no call names a partition to fall back to. *)
Definition tegrabl_fm_read s (mount_path file_path : option (list Z)) (size : Z) : Z * list Z * Z * lx M :=
  match mount_path, file_path with
  | Some mount, Some file =>
      if SIZEOF_PATH <=? zlen mount + zlen file then (FM_ERR TEGRABL_ERR_OVERFLOW 2, [], size, s)
      else
        let '(status, fh, m) := fs_open_file (lx_media s) (mount ++ file) in
        let s := set_media s m in
        if negb (status =? 0) then (FM_ERR TEGRABL_ERR_OPEN_FAILED 0, [], size, s)
        else
          let '(status, stat_size) := fs_stat_file (lx_media s) fh in
          if negb (status =? 0) then (FM_ERR TEGRABL_ERR_OPEN_FAILED 1, [], size, set_media s (fs_close_file (lx_media s) fh))
          else if size <? stat_size then (FM_ERR TEGRABL_ERR_OVERFLOW 0, [], size, set_media s (fs_close_file (lx_media s) fh))
          else
            let '(status, data, m) := fs_read_file (lx_media s) fh stat_size in
            let s := set_media s (fs_close_file m fh) in
            if status <? 0 then (FM_ERR TEGRABL_ERR_READ_FAILED 1, data, size, s)
            else (TEGRABL_NO_ERROR, data, stat_size, s)
  | _, _ => (TEGRABL_NO_ERROR, [], size, s)
  end.

(** The bytes go to [addr]. *)
Definition fm_read_to s (mount_path file_path : option (list Z)) (addr size : Z) : Z * Z * lx M :=
  let '(err, data, size, s) := tegrabl_fm_read s mount_path file_path size in
  (err, size, set_mem s (store_bytes (lx_mem s) addr data)).

(** ** Binaries with a signature *)

(** From "load_from_partition" on: the error, [*load_size] and the state; [load_size] was stored before. *)
Definition load_from_binary s (load_size : option Z) (bin_type bin_max_size bin_load_addr sigheader_size : Z) : Z * option Z * lx M :=
  let '(err, load_addr, file_size, s) := tegrabl_load_binary s bin_type bin_load_addr bin_max_size in
  if negb (err =? TEGRABL_NO_ERROR) then (err, load_size, s)
  else
    let s := if negb (load_addr =? bin_load_addr)
             then set_mem s (memmove (lx_mem s) bin_load_addr load_addr bin_max_size) else s in
    let '(err, s) := tegrabl_validate_binary s bin_type bin_max_size bin_load_addr in
    if negb (err =? TEGRABL_NO_ERROR) then
      if fuse_is_odm_production_mode then (err, Some file_size, s)
      else (TEGRABL_NO_ERROR, Some file_size,
            set_mem s (memmove (lx_mem s) bin_load_addr (bin_load_addr + sigheader_size) file_size))
    else (TEGRABL_NO_ERROR, Some file_size, s).

(** The signature file, whose absence is noted ([fail_flag]), before the binary. *)
Definition load_sig s (mount_path : option (list Z)) (bin_path : list Z) (bin_load_addr : Z) : bool * lx M :=
  let sig_file_path := take (Z.to_nat (FS_MAX_PATH_LEN - 1)) (bin_path ++ str ".sig") in
  let '(err, sig_file_size, s) := fm_read_to s mount_path (Some sig_file_path) bin_load_addr tegrabl_sigheader_size in
  let fail_flag := negb (err =? TEGRABL_NO_ERROR) || negb (sig_file_size =? tegrabl_sigheader_size) in
  (fail_flag,
   if fail_flag then set_mem s (store_bytes (lx_mem s) bin_load_addr (replicate (Z.to_nat tegrabl_sigheader_size) 0)) else s).

Definition load_binary_with_sig s (mount_path : option (list Z)) (bin_type bin_max_size : Z)
    (bin_path : option (list Z)) (bin_load_addr : Z) : Z * option Z * lx M :=
  if negb ((bin_type =? TEGRABL_BINARY_KERNEL) || (bin_type =? TEGRABL_BINARY_KERNEL_DTB))
  then (LX_ERR TEGRABL_ERR_INVALID 0, None, s)
  else
    match bin_path with
    | None => load_from_binary s None bin_type bin_max_size bin_load_addr 0
    | Some path =>
        let sigheader_size := tegrabl_sigheader_size in
        let '(fail_flag, s) := load_sig s mount_path path bin_load_addr in
        let load_addr := ROUND_UP64 (u64 (bin_load_addr + sigheader_size)) SZ_64K in
        let '(err, file_size, s) := fm_read_to s mount_path (Some path) load_addr (u32 (bin_max_size - (load_addr - bin_load_addr))) in
        if negb (err =? TEGRABL_NO_ERROR) then load_from_binary s None bin_type bin_max_size bin_load_addr sigheader_size
        else
          let s := if negb (load_addr =? bin_load_addr + sigheader_size)
                   then set_mem s (memmove (lx_mem s) (bin_load_addr + sigheader_size) load_addr file_size) else s in
          let '(err, s) := tegrabl_validate_binary s bin_type bin_max_size bin_load_addr in
          if negb (err =? TEGRABL_NO_ERROR) || fail_flag then
            if fuse_is_odm_production_mode then
              load_from_binary s (Some file_size) bin_type bin_max_size bin_load_addr sigheader_size
            else (TEGRABL_NO_ERROR, Some file_size,
                  set_mem s (memmove (lx_mem s) bin_load_addr (bin_load_addr + sigheader_size) file_size))
          else (TEGRABL_NO_ERROR, Some file_size, s)
    end.

(** ** extlinux.conf *)

Definition set_lx x s : bx M H :=
  mkBx s (bx_conf x) (boot_entry x) (g_ramdisk_path x) (g_boot_args x) (extlinux_boot_is_success x) (boot_img_load x).
Definition set_conf x (c : conf H) : bx M H :=
  mkBx (bx_lx x) c (boot_entry x) (g_ramdisk_path x) (g_boot_args x) (extlinux_boot_is_success x) (boot_img_load x).
Definition set_entry x (e : Z) (r a : option Z) : bx M H :=
  mkBx (bx_lx x) (bx_conf x) e r a (extlinux_boot_is_success x) (boot_img_load x).
Definition set_img x (a : Z) : bx M H :=
  mkBx (bx_lx x) (bx_conf x) (boot_entry x) (g_ramdisk_path x) (g_boot_args x) (extlinux_boot_is_success x) a.
Definition extlinux_boot_set_status x (status : bool) : bx M H :=
  mkBx (bx_lx x) (bx_conf x) (boot_entry x) (g_ramdisk_path x) (g_boot_args x) status (boot_img_load x).

Definition set_cheap (c : conf H) (h : H) : conf H := set_sections c h (section c) (sections c).

(** [junk] is what the block holds when it is allocated. *)
Definition load_and_parse_conf_file x (mount_path : option (list Z)) (junk : list Z) : res (Z * bx M H) :=
  let '(conf_load_addr, h) := heap_malloc (cf_heap (bx_conf x)) EXTLINUX_CONF_MAX_SIZE in
  let x := set_conf x (set_cheap (bx_conf x) h) in
  if conf_load_addr =? NULL then Ok (LX_ERR TEGRABL_ERR_NO_MEMORY 0, x)
  else
    let '(err, data, _, s) := tegrabl_fm_read (bx_lx x) mount_path (Some EXTLINUX_CONF_PATH) EXTLINUX_CONF_MAX_SIZE in
    let x := set_lx x s in
    let* buf := store_at 0 data junk in
    if negb (err =? TEGRABL_NO_ERROR) then Ok (err, x)
    else let* (err, c) := parse_conf_file (set_buf (bx_conf x) buf) in Ok (err, set_conf x c).

(** [keys] are the keys that come; the menu waits for no more than these. *)
Definition get_boot_details x (mount_path : option (list Z)) (junk keys : list Z) : res (Z * Z * bx M H) :=
  let* (err, x) := load_and_parse_conf_file x mount_path junk in
  if negb (err =? TEGRABL_NO_ERROR) then Ok (err, boot_entry x, x)
  else
    let* e := display_boot_menu (bx_conf x) keys in
    match e with Some e => Ok (TEGRABL_NO_ERROR, u32 e, x) | None => Stuck OutOfFuel end.

(** [tegrabl_free(extlinux_conf.section[entry])]: the block must be there. *)
Definition free_section (c : conf H) (entry : Z) : res (conf H) :=
  let* a := byte_at (section c) entry in
  if a =? NULL then Ok c
  else
    match sections c !! a with
    | None => Stuck BadPointer
    | Some _ =>
        let* h := heap_dealloc (cf_heap c) TEGRABL_HEAP_DEFAULT a in
        Ok (set_sections c h (section c) (delete a (sections c)))
    end.
Fixpoint free_sections (c : conf H) (es : list Z) : res (conf H) :=
  match es with
  | [] => Ok c
  | e :: es => let* c := free_section c e in free_sections c es
  end.

(** The string a pointer of the configuration stands for. *)
Definition conf_string x (p : option Z) : res (option (list Z)) :=
  match p with
  | None => Ok None
  | Some p => let* v := string_from (cf_buf (bx_conf x)) p in Ok (Some v)
  end.

(** The static of [tegrabl_get_boot_img_load_addr] is [img]: the error, the address and the static. *)
Definition boot_img_place (img : Z) s : Z * Z * Z * lx M :=
  if img =? NULL then
    let '(a, m) := boot_img_alloc (lx_media s) in
    let s := set_media s m in
    if a =? NULL then (LX_ERR TEGRABL_ERR_NO_MEMORY 0, a, img, s) else (TEGRABL_NO_ERROR, a, a, s)
  else (TEGRABL_NO_ERROR, img, img, s).
Definition tegrabl_get_boot_img_load_addr x : Z * Z * bx M H :=
  let '(err, a, img, s) := boot_img_place (boot_img_load x) (bx_lx x) in (err, a, set_img (set_lx x s) img).

(** The binaries of the entry [sec]: the error, the image, the device tree and the size of the kernel. *)
Definition load_entry x (mount_path : option (list Z)) (sec : boot_section) (dtb : Z) : res (Z * Z * Z * option Z * bx M H) :=
  let '(err, img, x) := tegrabl_get_boot_img_load_addr x in
  if negb (err =? TEGRABL_NO_ERROR) then Ok (err, img, dtb, None, x)
  else
    let '(dtb, s) := tegrabl_get_dtb_load_addr os_base (bx_lx x) in
    let x := set_lx x s in
    let* path := conf_string x (linux_path sec) in
    let '(err, size, s) := load_binary_with_sig (bx_lx x) mount_path TEGRABL_BINARY_KERNEL BOOT_IMAGE_MAX_SIZE path img in
    let x := set_lx x s in
    if negb (err =? TEGRABL_NO_ERROR) then Ok (err, img, dtb, size, x)
    else if negb (dt_kernel (bx_lx x) =? NULL) then Ok (TEGRABL_NO_ERROR, img, dt_kernel (bx_lx x), size, x)
    else
      let* path := conf_string x (dtb_path sec) in
      let '(err, _, s) := load_binary_with_sig (bx_lx x) mount_path TEGRABL_BINARY_KERNEL_DTB DTB_MAX_SIZE path dtb in
      Ok (err, img, dtb, size, set_lx x s).

(** Everything before "fail". *)
Definition extlinux_load x (mount_path : option (list Z)) (junk keys : list Z) (img dtb : Z)
    : res (Z * Z * Z * option Z * bx M H) :=
  if mount_path is None then Ok (LX_ERR TEGRABL_ERR_INVALID 0, img, dtb, None, x)
  else
    let* (err, e, x) := get_boot_details x mount_path junk keys in
    let x := set_entry x e (g_ramdisk_path x) (g_boot_args x) in
    if negb (err =? TEGRABL_NO_ERROR) then Ok (err, img, dtb, None, x)
    else
      let* (_, sec) := section_at (bx_conf x) e in
      load_entry (set_entry x e (initrd_path sec) (boot_args sec)) mount_path sec dtb.

Definition extlinux_boot_load_kernel_and_dtb x (mount_path : option (list Z)) (junk keys : list Z) (img dtb : Z)
    : res (Z * Z * Z * option Z * bx M H) :=
  let* (err, img, dtb, size, x) := extlinux_load x mount_path junk keys img dtb in
  let* c := free_sections (bx_conf x) (seqZ 0 (num_boot_entries (bx_conf x))) in
  Ok (err, img, dtb, size, set_conf x c).

(** The error, [*ramdisk_load_addr] if it is stored, and the state, with [*ramdisk_size]. *)
Definition extlinux_boot_load_ramdisk x (mount_path : option (list Z)) : res (Z * option Z * bx M H) :=
  match g_ramdisk_path x with
  | None => Ok (TEGRABL_NO_ERROR, None, x)
  | Some p =>
      let* path := conf_string x (Some p) in
      let '(addr, s) := tegrabl_get_ramdisk_load_addr os_base (bx_lx x) in
      let '(err, size, s) := fm_read_to s mount_path path addr RAMDISK_MAX_SIZE in
      if negb (err =? TEGRABL_NO_ERROR) then Ok (err, Some addr, set_lx x s)
      else Ok (TEGRABL_NO_ERROR, Some addr, set_lx x (set_ramdisk s (ramdisk_load s) size))
  end.

(** ** SD card and USB storage *)

(** [load_from_partition]: the error, the image and the device tree. *)
Definition load_from_partition x (img dtb : Z) : Z * Z * Z * bx M H :=
  let '(err, img, x) := tegrabl_get_boot_img_load_addr x in
  if negb (err =? TEGRABL_NO_ERROR) then (err, img, dtb, x)
  else
    let '(dtb, s) := tegrabl_get_dtb_load_addr os_base (bx_lx x) in
    let '(err, data, boot_img_size, m) := tegrabl_fm_read_partition (lx_media s) (str "kernel") BOOT_IMAGE_MAX_SIZE in
    let s := set_mem (set_media s m) (store_bytes (lx_mem s) img data) in
    if negb (err =? TEGRABL_NO_ERROR) then (err, img, dtb, set_lx x s)
    else
      let '(err, data, _, m) := tegrabl_fm_read_partition (lx_media s) (str "kernel-dtb") DTB_MAX_SIZE in
      let s := set_mem (set_media s m) (store_bytes (lx_mem s) dtb data) in
      if negb (err =? TEGRABL_NO_ERROR) then (err, img, dtb, set_lx x s)
      else
        let '(err, s) := tegrabl_validate_binary s TEGRABL_BINARY_KERNEL BOOT_IMAGE_MAX_SIZE img in
        if negb (err =? TEGRABL_NO_ERROR) then (err, img, dtb, set_lx x s)
        else
          let '(err, s) := tegrabl_validate_binary s TEGRABL_BINARY_KERNEL_DTB DTB_MAX_SIZE dtb in
          if negb (err =? TEGRABL_NO_ERROR) then (err, img, dtb, set_lx x s)
          else (tegrabl_verify_boot_img_hdr (lx_mem s) img boot_img_size, img, dtb, set_lx x s).

(** "fallback" *)
Definition sd_fallback x (bdev : Z) (img dtb : Z) : Z * Z * Z * bx M H :=
  if negb (published (lx_media (bx_lx x)) bdev) then (LX_ERR TEGRABL_ERR_NOT_FOUND 0, img, dtb, x)
  else load_from_partition x img dtb.

(** From the published handle on, up to "fail": the error, the image, the device tree, the ramdisk, the size. *)
Definition sd_load x (bdev : Z) (mount_path : option (list Z)) (junk keys : list Z) (o : outs)
    : res (Z * outs * bx M H) :=
  let with_img img dtb size := mkOuts img dtb (kernel_dtbo o) (ramdisk_load_addr o) size in
  match mount_path with
  | None =>
      let '(err, img, dtb, x) := sd_fallback x bdev (boot_img_load_addr o) (kernel_dtb o) in
      Ok (err, with_img img dtb (kernel_size o), x)
  | Some _ =>
      let* (err, img, dtb, size, x) := extlinux_boot_load_kernel_and_dtb x mount_path junk keys (boot_img_load_addr o) (kernel_dtb o) in
      let size := default (kernel_size o) size in
      if err =? TEGRABL_NO_ERROR then
        let* (err, ramdisk, x) := extlinux_boot_load_ramdisk x mount_path in
        let x := if err =? TEGRABL_NO_ERROR then extlinux_boot_set_status x true else x in
        Ok (err, mkOuts img dtb (kernel_dtbo o) (default (ramdisk_load_addr o) ramdisk) size, x)
      else
        let '(err, img, dtb, x) := sd_fallback x bdev img dtb in
        Ok (err, with_img img dtb size, x)
  end.

Definition usb_sd_boot (boot_type : Z) x (junk keys : list Z) (o : outs) : res (Z * outs * bx M H) :=
  let on_media x (f : M -> M) := set_lx x (set_media (bx_lx x) (f (lx_media (bx_lx x)))) in
  if negb ((boot_type =? BOOT_FROM_SD) || (boot_type =? BOOT_FROM_USB)) then Ok (LX_ERR TEGRABL_ERR_INVALID 0, o, x)
  else
    let device_type := if boot_type =? BOOT_FROM_SD then TEGRABL_STORAGE_SDCARD else TEGRABL_STORAGE_USB_MS in
    let '(err, m) := init_storage_device (lx_media (bx_lx x)) device_type in
    let x := on_media x (fun _ => m) in
    if negb (err =? TEGRABL_NO_ERROR) then Ok (err, o, x)
    else
      let '(bdev, m) := media_open (lx_media (bx_lx x)) device_type in
      let x := on_media x (fun _ => m) in
      if bdev =? NULL then Ok (LX_ERR TEGRABL_ERR_OPEN_FAILED 0, o, x)
      else
        let '(handle, mount_path, m) := tegrabl_fm_publish (lx_media (bx_lx x)) bdev in
        let x := on_media x (fun _ => m) in
        if handle =? NULL then Ok (TEGRABL_NO_ERROR, o, on_media x (fun m => media_close m bdev))
        else
          let* (err, o, x) := sd_load x bdev mount_path junk keys o in
          Ok (err, o, on_media x (fun m => media_close (tegrabl_fm_close (tegrabl_partitions_unpublish m bdev) handle) bdev)).
End Load.
