(* ===== verification/BootFilesProps.v ===== *)
(** Loading from a file system: what is loaded was validated, loading stays in the buffer, attempts that
    fail, and a small device the theorems are tried on. *)

From S2P Require Import Prelude TegraError Utils BlockDev BlockDevFacts Models Cbo CboProps LinuxLoad LinuxLoadProps Extlinux ExtlinuxProps ExtlinuxEdge Auth AuthProps BootFiles.

(** ** Secure loading *)

Section Secure.
Context {M H : Type} {CR : Crypto} {PF : SocPlatform M} {BF : BootFiles M} {AL : Allocator H}.
Implicit Types (s : lx M) (x : bx M H).

(** [s'] is what a validation of the binary at [a] left, and the binary is authentic unless its ratchet levels are too low. *)
Definition validated (bin_type n a : Z) (s' : lx M) : Prop :=
  exists s, tegrabl_validate_binary s bin_type n a = (TEGRABL_NO_ERROR, s') /\
    (tegrabl_do_ratchet_check (lx_mem s) bin_type a = true -> authentic (lx_mem s) a).

Lemma accepted_validated s bin_type n a s' : tegrabl_validate_binary s bin_type n a = (TEGRABL_NO_ERROR, s') -> validated bin_type n a s'.
Proof.
  intros E. exists s. split; [done|]. intros Hr. unfold tegrabl_validate_binary in E. rewrite Hr in E. cbn [negb] in E.
  case_match; [done|]. destruct (auth_payload_spec s a n) as (err & s1 & E' & Hi & _). rewrite E' in E. injection E as -> ->.
  by apply Hi.
Qed.

Hypothesis production : fuse_is_odm_production_mode = true.

Lemma load_from_binary_validated s l bin_type n a h sz s' :
  load_from_binary s l bin_type n a h = (TEGRABL_NO_ERROR, sz, s') -> validated bin_type n a s'.
Proof.
  unfold load_from_binary. destruct (tegrabl_load_binary s bin_type a n) as [[[err la] fs] s1].
  destruct (Z.eqb_spec err TEGRABL_NO_ERROR) as [-> | Hn]; cbn [negb]; [|by intros [= -> _ _]].
  match goal with |- context [tegrabl_validate_binary ?s _ _ _] => destruct (tegrabl_validate_binary s bin_type n a) as [e2 s2] eqn:E end.
  rewrite production. destruct (Z.eqb_spec e2 TEGRABL_NO_ERROR) as [-> | Hn]; cbn [negb]; [|by intros [= -> _ _]].
  intros [= _ ->]. by eapply accepted_validated.
Qed.

Lemma load_binary_validated s mp bin_type n path a sz s' :
  load_binary_with_sig s mp bin_type n path a = (TEGRABL_NO_ERROR, sz, s') -> validated bin_type n a s'.
Proof.
  unfold load_binary_with_sig. case_match; [by intros [= _ _ _]|]. destruct path as [path|]; [|apply load_from_binary_validated].
  destruct (load_sig s mp path a) as [fail s1]. match goal with |- context [fm_read_to ?s ?p ?f ?b ?k] => destruct (fm_read_to s p f b k) as [[err fs] s2] end.
  destruct (err =? TEGRABL_NO_ERROR); cbn [negb]; [|apply load_from_binary_validated].
  match goal with |- context [tegrabl_validate_binary ?s _ _ _] => destruct (tegrabl_validate_binary s bin_type n a) as [e2 s3] eqn:E end.
  rewrite production. destruct (Z.eqb_spec e2 TEGRABL_NO_ERROR) as [-> | Hn]; cbn [negb orb]; [|apply load_from_binary_validated].
  destruct fail; [apply load_from_binary_validated|]. intros [= _ ->]. by eapply accepted_validated.
Qed.

Variable os_base : Z.

Lemma load_entry_validated x mp sec dtb img dtb' sz x' :
  load_entry os_base x mp sec dtb = Ok (TEGRABL_NO_ERROR, img, dtb', sz, x') ->
  exists s, validated TEGRABL_BINARY_KERNEL BOOT_IMAGE_MAX_SIZE img s /\
    ((s = bx_lx x' /\ dtb' = dt_kernel s /\ dtb' <> NULL) \/ validated TEGRABL_BINARY_KERNEL_DTB DTB_MAX_SIZE dtb' (bx_lx x')).
Proof.
  unfold load_entry. destruct (tegrabl_get_boot_img_load_addr x) as [[err img'] x1].
  destruct (Z.eqb_spec err TEGRABL_NO_ERROR) as [-> | Hn]; cbn [negb]; [|by intros [= -> _ _ _ _]].
  destruct (tegrabl_get_dtb_load_addr os_base (bx_lx x1)) as [d1 s1].
  destruct (conf_string (set_lx x1 s1) (linux_path sec)) as [path|]; [|done]. cbn [res_bind].
  match goal with |- context [load_binary_with_sig ?s _ TEGRABL_BINARY_KERNEL ?n _ _] =>
    destruct (load_binary_with_sig s mp TEGRABL_BINARY_KERNEL n path img') as [[e2 sz2] s2] eqn:E2 end.
  destruct (Z.eqb_spec e2 TEGRABL_NO_ERROR) as [-> | Hn]; cbn [negb]; [|by intros [= -> _ _ _ _]].
  apply load_binary_validated in E2. cbn [bx_lx set_lx].
  destruct (Z.eqb_spec (dt_kernel s2) NULL) as [Hd|Hd]; cbn [negb].
  2: { intros [= -> <- _ <-]. exists s2. split; [done|]. by left. }
  match goal with |- context [conf_string ?x (dtb_path sec)] => destruct (conf_string x (dtb_path sec)) as [path2|] end; [|done]. cbn [res_bind].
  destruct (load_binary_with_sig s2 mp TEGRABL_BINARY_KERNEL_DTB DTB_MAX_SIZE path2 d1) as [[e3 sz3] s3] eqn:E3.
  intros [= -> <- <- _ <-]. apply load_binary_validated in E3. exists s2. split; [done|by right].
Qed.

End Secure.

(** ** Bounds *)

Section Bounds.
Context {M : Type} {CR : Crypto} {PF : SocPlatform M} {BF : BootFiles M}.
Implicit Types s : lx M.

(** The two memories differ in the buffer and in [pool] at most. *)
Variable pool : Z -> Prop.
Definition same_outside (a n : Z) (m m' : Z -> Z) : Prop := forall x, ~ a <= x < a + n -> ~ pool x -> m' x = m x.

(** A file system reads no more than it is asked for, and the loader of partitions stores to the buffer and
    to places of its own. *)
Hypothesis read_bounded : forall d fh n st data d', 0 <= n -> fs_read_file d fh n = (st, data, d') -> zlen data <= n.
Hypothesis stat_nonneg : forall d fh st n, fs_stat_file d fh = (st, n) -> 0 <= n.
Hypothesis load_bounded : forall s t a n err a' sz s', 0 <= n -> tegrabl_load_binary s t a n = (err, a', sz, s') ->
  sz <= n /\ same_outside a n (lx_mem s) (lx_mem s').

Lemma same_trans a n m1 m2 m3 : same_outside a n m1 m2 -> same_outside a n m2 m3 -> same_outside a n m1 m3.
Proof. intros H1 H2 x Hx Hp. by rewrite H2, H1. Qed.

Lemma same_memmove a n m dst src k : a <= dst -> dst + k <= a + n -> same_outside a n m (memmove m dst src k).
Proof. intros H1 H2 x Hx _. unfold memmove. destruct (Z.leb_spec dst x), (Z.ltb_spec x (dst + k)); cbn [andb]; (done || lia). Qed.

Lemma same_store a n m dst l : a <= dst -> dst + zlen l <= a + n -> same_outside a n m (store_bytes m dst l).
Proof. intros H1 H2 x Hx _. unfold store_bytes. destruct (Z.leb_spec dst x), (Z.ltb_spec x (dst + zlen l)); cbn [andb]; (done || lia). Qed.

(** What a file brings fits the size that was asked for. *)
Lemma fm_read_fits s mp f n err data k s' : 0 <= n -> tegrabl_fm_read s mp f n = (err, data, k, s') -> zlen data <= n /\ k <= n /\ lx_mem s' = lx_mem s.
Proof.
  intros Hn. unfold tegrabl_fm_read. assert (Hz : zlen (@nil Z) <= n) by (change (zlen (@nil Z)) with 0; lia).
  destruct mp as [mp|], f as [f|]; try (intros [= _ <- <- <-]; by split_and!).
  case_match; [intros [= _ <- <- <-]; by split_and!|]. destruct (fs_open_file (lx_media s) (mp ++ f)) as [[st fh] d].
  case_match; [intros [= _ <- <- <-]; by split_and!|]. destruct (fs_stat_file _ fh) as [st2 sz] eqn:Es. apply stat_nonneg in Es.
  case_match; [intros [= _ <- <- <-]; by split_and!|]. destruct (Z.ltb_spec n sz); [intros [= _ <- <- <-]; by split_and!|].
  destruct (fs_read_file _ fh sz) as [[st3 l] d2] eqn:Er. apply read_bounded in Er; [|done].
  case_match; intros [= _ <- <- <-]; (split_and!; [lia|lia|done]).
Qed.

Lemma fm_read_to_same a n s mp f dst k err k' s' : 0 <= k -> a <= dst -> dst + k <= a + n ->
  fm_read_to s mp f dst k = (err, k', s') -> k' <= k /\ same_outside a n (lx_mem s) (lx_mem s').
Proof.
  intros Hk Ha He. unfold fm_read_to. destruct (tegrabl_fm_read s mp f k) as [[[e data] k1] s1] eqn:E. intros [= _ <- <-].
  apply fm_read_fits in E as (Hd & Hk1 & Em); [|done]. split; [done|]. cbn [lx_mem set_mem]. rewrite Em. by apply same_store; [|lia].
Qed.

Lemma validate_same s t n a err s' : sizeof_NvBootComponentHeader <= n -> tegrabl_validate_binary s t n a = (err, s') -> same_outside a n (lx_mem s) (lx_mem s').
Proof.
  intros Hn. unfold tegrabl_validate_binary. case_match; [by intros [= _ <-]|]. case_match; [by intros [= _ <-]|].
  destruct (auth_payload_spec s a n) as (e & s1 & -> & _ & Em). intros [= _ <-]. rewrite Em. case_match; [|done].
  apply same_memmove; [lia|]. unfold sizeof_NvBootComponentHeader in *. lia.
Qed.

Lemma load_from_binary_same s l t n a h err sz s' : sizeof_NvBootComponentHeader <= n -> load_from_binary s l t n a h = (err, sz, s') ->
  same_outside a n (lx_mem s) (lx_mem s').
Proof.
  intros Hn. unfold load_from_binary. destruct (tegrabl_load_binary s t a n) as [[[e la] fs] s1] eqn:E. apply load_bounded in E as [Hfs E]; [|unfold sizeof_NvBootComponentHeader in Hn; lia].
  case_match; [by intros [= _ _ <-]|].
  match goal with |- context [tegrabl_validate_binary ?s _ _ _] => set (s2 := s) end. destruct (tegrabl_validate_binary s2 t n a) as [e2 s3] eqn:Ev.
  assert (E2 : same_outside a n (lx_mem s) (lx_mem s2)).
  { unfold s2. case_match; [|done]. eapply same_trans; [exact E|]. by apply same_memmove. }
  apply validate_same in Ev; [|done]. eapply same_trans in Ev; [|exact E2].
  repeat case_match; intros [= _ _ <-]; try exact Ev. eapply same_trans; [exact Ev|]. apply same_memmove; lia.
Qed.

Lemma load_sig_same s mp path n a fail s' : sizeof_NvBootComponentHeader <= n -> load_sig s mp path a = (fail, s') -> same_outside a n (lx_mem s) (lx_mem s').
Proof.
  intros Hn. unfold load_sig. match goal with |- context [fm_read_to ?s ?m ?f ?d ?k] => destruct (fm_read_to s m f d k) as [[e k1] s1] eqn:E end.
  unfold tegrabl_sigheader_size in *. apply (fm_read_to_same a n) in E as [_ E]; [|done|lia|lia]. intros E0. apply (f_equal snd) in E0. cbn [snd] in E0. rewrite <- E0. case_match; [|done].
  eapply same_trans; [exact E|]. apply same_store; [lia|]. unfold zlen. rewrite length_replicate. unfold sizeof_NvBootComponentHeader in *. lia.
Qed.

Lemma load_addr_in_buffer a n : 0 <= a -> a + n + 2 * SZ_64K < 2 ^ 64 -> 2 * SZ_64K <= n ->
  a + sizeof_NvBootComponentHeader <= ROUND_UP64 (u64 (a + tegrabl_sigheader_size)) SZ_64K <= a + n.
Proof.
  intros Ha He Hn. unfold tegrabl_sigheader_size, sizeof_NvBootComponentHeader, SZ_64K in *. rewrite u64_small by lia.
  destruct (ROUND_UP64_spec (a + 4096) 65536) as [Hb _]; lia.
Qed.

End Bounds.

(** * Attempts that fail, and a device *)

Section Edge.
Context {M H : Type} {CR : Crypto} {PF : SocPlatform M} {BF : BootFiles M} {AL : Allocator H}.
Implicit Types (s : lx M) (x : bx M H) (c : conf H).
Variable os_base : Z.

(** ** Sections that are freed twice *)

Lemma free_section_gone c e c' : free_section c e = Ok c' ->
  section c' = section c /\ num_boot_entries c' = num_boot_entries c /\
  (forall b, sections c !! b = None -> sections c' !! b = None) /\
  (forall a, byte_at (section c) e = Ok a -> a <> NULL -> sections c' !! a = None).
Proof.
  unfold free_section. destruct (byte_at (section c) e) as [a|] eqn:E; [|done]. cbn [res_bind].
  destruct (Z.eqb_spec a NULL) as [Ha|Ha]; [intros [= <-]; split_and!; try done; congruence|].
  destruct (sections c !! a) as [sec|]; [|done]. destruct (heap_dealloc _ _ a) as [h|]; [|done]. cbn [res_bind]. intros [= <-]. cbn [set_sections section num_boot_entries sections].
  split_and!; try done; [intros b0 Hb0; apply lookup_delete_None; by right|].
  intros a' [= <-] _. apply lookup_delete_eq.
Qed.

Lemma free_sections_gone es c c' : free_sections c es = Ok c' ->
  section c' = section c /\ num_boot_entries c' = num_boot_entries c /\
  (forall b, sections c !! b = None -> sections c' !! b = None) /\
  (forall e a, e ∈ es -> byte_at (section c) e = Ok a -> a <> NULL -> sections c' !! a = None).
Proof.
  revert c. induction es as [|e es IH]; intros c; cbn [free_sections].
  - intros [= <-]. split_and!; try done. intros e a He. by apply elem_of_nil in He.
  - destruct (free_section c e) as [c1|] eqn:E; [|done]. cbn [res_bind]. apply free_section_gone in E as (E1 & E2 & E3 & E4).
    intros Hf. apply IH in Hf as (F1 & F2 & F3 & F4). rewrite E1 in *. rewrite E2 in *. split_and!; try done; [by intros b Hb; apply F3, E3|].
    intros e' a He Ha Hn. apply elem_of_cons in He as [-> | He]; [apply F3; by eapply E4|by eapply F4].
Qed.

(** An attempt that finds no extlinux.conf ends with the sections as they were. *)
Lemma load_without_file x mp junk keys img dtb err data k s buf :
  tegrabl_fm_read (bx_lx x) (Some mp) (Some EXTLINUX_CONF_PATH) EXTLINUX_CONF_MAX_SIZE = (err, data, k, s) ->
  err <> TEGRABL_NO_ERROR -> store_at 0 data junk = Ok buf ->
  exists err' i d z x', extlinux_load os_base x (Some mp) junk keys img dtb = Ok (err', i, d, z, x') /\
    section (bx_conf x') = section (bx_conf x) /\ sections (bx_conf x') = sections (bx_conf x) /\ num_boot_entries (bx_conf x') = num_boot_entries (bx_conf x).
Proof.
  intros E He Hs. unfold extlinux_load, get_boot_details, load_and_parse_conf_file.
  assert (Hm : negb (LX_ERR TEGRABL_ERR_NO_MEMORY 0 =? TEGRABL_NO_ERROR) = true) by by vm_compute.
  destruct (heap_malloc (cf_heap (bx_conf x)) EXTLINUX_CONF_MAX_SIZE) as [a h]. destruct (a =? NULL).
  - cbn [res_bind]. rewrite Hm. cbn [res_bind]. rewrite Hm. by eexists _, _, _, _, _.
  - cbn [bx_lx set_conf]. rewrite E, Hs. cbn [res_bind]. rewrite (proj2 (Z.eqb_neq _ _) He). cbn [negb res_bind].
    rewrite (proj2 (Z.eqb_neq _ _) He). cbn [negb res_bind]. rewrite (proj2 (Z.eqb_neq _ _) He). cbn [negb]. by eexists _, _, _, _, _.
Qed.

(** C39: sections are freed twice.  Each attempt to boot from extlinux.conf frees the sections at its end, and forgets neither their pointers nor
    their number.  A later attempt, on the next medium of the boot order, that finds no extlinux.conf frees
    them again. *)
Theorem second_attempt_frees_again x mp junk keys img dtb err i d z x' p err2 mp2 junk2 keys2 data k s buf :
  extlinux_boot_load_kernel_and_dtb os_base x mp junk keys img dtb = Ok (err, i, d, z, x') ->
  0 < num_boot_entries (bx_conf x') -> byte_at (section (bx_conf x')) 0 = Ok p -> p <> NULL ->
  tegrabl_fm_read (bx_lx x') (Some mp2) (Some EXTLINUX_CONF_PATH) EXTLINUX_CONF_MAX_SIZE = (err2, data, k, s) ->
  err2 <> TEGRABL_NO_ERROR -> store_at 0 data junk2 = Ok buf ->
  extlinux_boot_load_kernel_and_dtb os_base x' (Some mp2) junk2 keys2 i d = Stuck BadPointer.
Proof.
  intros E Hn Hp Hz Er He Hs.
  destruct (load_without_file x' mp2 junk2 keys2 i d err2 data k s buf Er He Hs) as (e & i' & d' & z' & x2 & El & S1 & S2 & S3).
  assert (Hg : sections (bx_conf x') !! p = None).
  { unfold extlinux_boot_load_kernel_and_dtb in E. destruct (extlinux_load os_base x mp junk keys img dtb) as [[[[[? ?] ?] ?] x1]|]; [|done]. cbn [res_bind] in E.
    destruct (free_sections _ _) as [c1|] eqn:Ef; [|done]. cbn [res_bind] in E. injection E as <- <- <- <- <-. cbn [bx_conf set_conf] in *.
    apply free_sections_gone in Ef as (F1 & F2 & _ & F4). rewrite F1 in Hp. rewrite F2 in Hn. apply (F4 0); [apply elem_of_seqZ; lia|done|done]. }
  unfold extlinux_boot_load_kernel_and_dtb. rewrite El. cbn [res_bind]. rewrite S3, seqZ_cons by done. cbn [free_sections]. unfold free_section.
  rewrite S1, Hp. cbn [res_bind]. rewrite (proj2 (Z.eqb_neq _ _) Hz), S2, Hg. done.
Qed.

(** ** A device without partitions *)

(** Success without a kernel.  If the file manager publishes nothing for the SD card or USB device, the call closes the device and reports success,
    with the addresses of the image and of the device tree as the caller set them: the boot order takes it that the kernel is loaded. *)
Theorem unpublished_device_reports_success boot_type x junk keys o d bdev d2 mount d3 :
  boot_type = BOOT_FROM_SD \/ boot_type = BOOT_FROM_USB ->
  init_storage_device (lx_media (bx_lx x)) (if boot_type =? BOOT_FROM_SD then TEGRABL_STORAGE_SDCARD else TEGRABL_STORAGE_USB_MS) = (TEGRABL_NO_ERROR, d) ->
  media_open d (if boot_type =? BOOT_FROM_SD then TEGRABL_STORAGE_SDCARD else TEGRABL_STORAGE_USB_MS) = (bdev, d2) -> bdev <> NULL ->
  tegrabl_fm_publish d2 bdev = (NULL, mount, d3) ->
  exists x', usb_sd_boot os_base boot_type x junk keys o = Ok (TEGRABL_NO_ERROR, o, x') /\ lx_mem (bx_lx x') = lx_mem (bx_lx x).
Proof.
  intros Hb Hi Ho Hd Hp. unfold usb_sd_boot. assert (Hg : negb ((boot_type =? BOOT_FROM_SD) || (boot_type =? BOOT_FROM_USB)) = false) by by destruct Hb as [-> | ->].
  rewrite Hg, Hi. rewrite Z.eqb_refl. cbn [negb bx_lx lx_media set_lx set_media]. rewrite Ho, (proj2 (Z.eqb_neq _ _) Hd). cbn [bx_lx lx_media set_lx set_media]. rewrite Hp, Z.eqb_refl.
  by eexists.
Qed.

(** ** The ramdisk *)

(** The ramdisk of an entry is the file as it is: nothing of it is validated. *)
Lemma ramdisk_is_the_file x mp p path addr s1 err data k s2 : g_ramdisk_path x = Some p -> conf_string x (Some p) = Ok path ->
  tegrabl_get_ramdisk_load_addr os_base (bx_lx x) = (addr, s1) -> tegrabl_fm_read s1 mp path RAMDISK_MAX_SIZE = (err, data, k, s2) ->
  err = TEGRABL_NO_ERROR ->
  exists x', extlinux_boot_load_ramdisk os_base x mp = Ok (TEGRABL_NO_ERROR, Some addr, x') /\ ramdisk_size (bx_lx x') = k /\
    bytes_at (lx_mem (bx_lx x')) addr (zlen data) = data.
Proof.
  intros Hg Hc Ha Hr ->. unfold extlinux_boot_load_ramdisk. rewrite Hg, Hc. cbn [res_bind]. rewrite Ha. unfold fm_read_to. rewrite Hr.
  rewrite Z.eqb_refl. cbn [negb]. eexists. split; [done|]. split; [done|]. cbn [bx_lx set_lx set_ramdisk lx_mem set_mem]. apply list_eq. intros i.
  unfold bytes_at, seqZ. rewrite <- list_fmap_compose, list_lookup_fmap. unfold zlen at 1. rewrite Nat2Z.id.
  destruct (decide (i < length data)%nat) as [Hi|Hi].
  - rewrite lookup_seq_lt by done. cbn. unfold store_bytes, zlen. rewrite (proj2 (Z.leb_le _ _)), (proj2 (Z.ltb_lt _ _)) by lia. cbn [andb].
    destruct (lookup_lt_is_Some_2 data i Hi) as [v Ev]. rewrite Ev. f_equal. replace (Z.to_nat _) with i by lia. by apply nth_lookup_Some.
  - rewrite lookup_seq_ge, lookup_ge_None_2 by lia. done.
Qed.
End Edge.

(** ** A device *)

#[local] Existing Instance demo_crypto.
#[local] Existing Instance demo_platform.

(** A header and a binary of two bytes, with which the checks of AuthProps.v pass. *)
Definition demo_binary : list Z := bytes_at (demo_header 2) 0 (sizeof_NvBootComponentHeader + 2).
Definition demo_extlinux : list Z := file_lines ["DEFAULT a"; "LABEL a"; "LINUX /Image"; "INITRD /rd"]%string ++ [0].

(** Files, by number; the root of the device is "/m". *)
Definition demo_path (path : list Z) : Z :=
  if bool_decide (path = str "/m" ++ EXTLINUX_CONF_PATH) then 1
  else if bool_decide (path = str "/m/Image.sig") then 2
  else if bool_decide (path = str "/m/Image") then 3 else if bool_decide (path = str "/m/rd") then 4 else 0.
Definition demo_content (fh : Z) : list Z :=
  if fh =? 1 then demo_extlinux else if fh =? 2 then take 4096 demo_binary else if fh =? 3 then drop 4096 demo_binary else str "ramdisk".

#[local] Instance demo_files : BootFiles unit := {
  fs_open_file d path := let h := demo_path path in (if h =? 0 then -1 else 0, h, d);
  fs_stat_file _ fh := (0, zlen (demo_content fh));
  fs_read_file d fh n := (0, take (Z.to_nat n) (demo_content fh), d);
  fs_close_file d _ := d;
  tegrabl_load_binary s _ a n := (TEGRABL_NO_ERROR, a, Z.min 2 n, set_mem s (store_bytes (lx_mem s) a (take (Z.to_nat n) demo_binary)));
  tegrabl_fm_read_partition d _ _ := (FM_ERR TEGRABL_ERR_READ_FAILED 0, [], 0, d);
  boot_img_alloc d := (0x100000, d);
  init_storage_device d _ := (TEGRABL_NO_ERROR, d);
  media_open d _ := (1, d);
  tegrabl_fm_publish d _ := (NULL, None, d);
  published _ _ := false;
  tegrabl_partitions_unpublish d _ := d; tegrabl_fm_close d _ := d; media_close d _ := d
}.

Definition demo_bx : bx unit arena := mkBx (mkLx tt (fun _ => 0) 0 0 0 0 0) (demo_conf []) 0 None None false 0.
Notation demo_boot := (extlinux_boot_load_kernel_and_dtb 0x80000000 demo_bx (Some (str "/m")) (replicate 100 0) [-1] 0 0).

(** What of the result is looked at. *)
Definition demo_seen (r : res (Z * Z * Z * option Z * bx unit arena)) : option (Z * Z * Z * option Z * list Z * list Z * Z * bool) :=
  match r with
  | Ok (err, img, dtb, sz, x) => Some (err, img, dtb, sz, bytes_at (lx_mem (bx_lx x)) img 2, bytes_at (lx_mem (bx_lx x)) dtb 2,
      num_boot_entries (bx_conf x), match byte_at (section (bx_conf x)) 0 with Ok p => negb (p =? NULL) | Stuck _ => false end)
  | Stuck _ => None
  end.

(** The entry boots: the kernel is at its place, the device tree comes from the partition. *)
Lemma demo_boot_seen : demo_seen demo_boot = Some (TEGRABL_NO_ERROR, 0x100000, 0x90000000, Some 2, [5; 7], [5; 7], 1, true).
Proof. vm_compute. reflexivity. Qed.

Lemma demo_boot_ok : exists x, demo_boot = Ok (TEGRABL_NO_ERROR, 0x100000, 0x90000000, Some 2, x) /\ num_boot_entries (bx_conf x) = 1 /\
  exists p, byte_at (section (bx_conf x)) 0 = Ok p /\ p <> NULL.
Proof.
  generalize demo_boot_seen. generalize demo_boot. intros [[[[[err img] dtb] sz] x]|]; [|done]. intros [= -> -> -> -> _ _ Hn Hp].
  exists x. split; [done|]. split; [done|]. destruct (byte_at _ 0) as [p|]; [|done]. exists p. split; [done|]. by destruct (Z.eqb_spec p NULL).
Qed.


(** The next medium has no extlinux.conf. *)
Lemma second_attempt_frees_again_witness : exists x i d, demo_boot = Ok (TEGRABL_NO_ERROR, i, d, Some 2, x) /\
  extlinux_boot_load_kernel_and_dtb 0x80000000 x (Some (str "/usb")) (replicate 100 0) [-1] i d = Stuck BadPointer.
Proof.
  destruct demo_boot_ok as (x & E & Hn & p & Ep & Hp). exists x, 0x100000, 0x90000000. split; [exact E|].
  assert (Ho : demo_path (str "/usb" ++ EXTLINUX_CONF_PATH) = 0) by (vm_compute; reflexivity).
  eapply (second_attempt_frees_again 0x80000000 demo_bx (Some (str "/m")) (replicate 100 0) [-1] 0 0 _ _ _ _ x p (FM_ERR TEGRABL_ERR_OPEN_FAILED 0) (str "/usb")); [exact E|lia|exact Ep| | | |].
  - exact Hp.
  - unfold tegrabl_fm_read. cbn [fs_open_file demo_files]. rewrite Ho. reflexivity.
  - by vm_compute.
  - reflexivity.
Defined.

Lemma unpublished_device_reports_success_witness : exists x, usb_sd_boot 0x80000000 BOOT_FROM_SD demo_bx [] [] (mkOuts 0 0 0 0 0) = Ok (TEGRABL_NO_ERROR, mkOuts 0 0 0 0 0, x).
Proof.
  destruct (unpublished_device_reports_success 0x80000000 BOOT_FROM_SD demo_bx [] [] (mkOuts 0 0 0 0 0) tt 1 tt None tt) as (x & E & _);
    [by left|reflexivity|reflexivity|done|reflexivity|]. exists x. exact E.
Defined.

(** Loading the kernel leaves the bytes around the buffer alone. *)
Definition demo_pool (x : Z) : Prop := False.
Lemma demo_read_bounded : forall (d : unit) fh n st data d', 0 <= n -> fs_read_file d fh n = (st, data, d') -> zlen data <= n.
Proof.
  intros d fh n st data d' Hn E. cbn [fs_read_file demo_files] in E. apply pair_equal_spec in E as [E _]. apply pair_equal_spec in E as [_ <-].
  unfold zlen. rewrite length_take. lia.
Qed.
Lemma demo_stat_nonneg : forall (d : unit) fh st n, fs_stat_file d fh = (st, n) -> 0 <= n.
Proof. intros d fh st n E. cbn [fs_stat_file demo_files] in E. apply pair_equal_spec in E as [_ <-]. unfold zlen. lia. Qed.
Lemma demo_load_bounded : forall (s : lx unit) t a n err a' sz s', 0 <= n -> tegrabl_load_binary s t a n = (err, a', sz, s') ->
  sz <= n /\ same_outside demo_pool a n (lx_mem s) (lx_mem s').
Proof.
  intros s t a n err a' sz s' Hn E. cbn [tegrabl_load_binary demo_files] in E.
  apply pair_equal_spec in E as [E <-]. apply pair_equal_spec in E as [_ <-]. split; [lia|].
  apply same_store; [lia|]. unfold zlen. rewrite length_take. lia.
Qed.

Notation demo_load := (load_binary_with_sig (bx_lx demo_bx) (Some (str "/m")) TEGRABL_BINARY_KERNEL BOOT_IMAGE_MAX_SIZE (Some (str "/Image")) 0x100000).

