(* ===== verification/PartitionLoader.v ===== *)
(** The loader of partitions: t18x/common/lib/partitionloader/tegrabl_partition_loader.c, with
    CONFIG_ENABLE_A_B_SLOT and CONFIG_ENABLE_L4T_RECOVERY.

    A binary is found by the name of its partition, with the suffix of the slot that boots, and read to the
    place that belongs to its type, or to the place of the caller.  Partitions and slots are those of
    PartitionManager.v and AbStore.v, places those of LinuxLoad.v. *)

From S2P Require Import Prelude TegraError Utils BlockDev PartitionManager AbBoot AbStore Cbo LinuxLoad Extlinux Auth BootFiles.

Definition TEGRABL_ERR_LOADER : Z := 0x1d.
Definition LD_ERR (reason aux : Z) : Z := tegrabl_error_value TEGRABL_ERR_LOADER aux reason.
Definition LD_SET_HIGHEST (error : Z) : Z := tegrabl_err_set_highest_module error TEGRABL_ERR_LOADER.

Definition TEGRABL_BINARY_RECOVERY_KERNEL : Z := 39.
Definition TEGRABL_BINARY_NCT : Z := 40.
Definition TEGRABL_BINARY_KERNEL_DTBO : Z := 41.
Definition TEGRABL_BINARY_RECOVERY_IMG : Z := 50.
Definition TEGRABL_BINARY_RECOVERY_DTB : Z := 51.
Definition TEGRABL_BINARY_KERNEL_BOOTCTRL : Z := 52.
Definition TEGRABL_BINARY_MAX : Z := 56.
Definition TEGRABL_BINARY_COPY_PRIMARY : Z := 0.
Definition TEGRABL_BINARY_COPY_MAX : Z := 2.
Definition BOOT_IMG_SIG_SIZE : Z := 4096.
Definition NCT_MAX_SIZE : Z := 0x00200000.

Definition AUX_INFO_LOAD_BINARY_BIN_TYPE_ERR : Z := 100.
Definition AUX_INFO_LOAD_BINARY_BDEV_ERR : Z := 101.
Definition AUX_INFO_INVALID_PARTITION_SIZE : Z := 102.
Definition AUX_INFO_OVERFLOW_ERR : Z := 103.

(** [ALIGN] on 32 bits. *)
Definition ALIGN (x a : Z) : Z := Z.land (u32 (x + u32 (a - 1))) (u32 (Z.lnot (u32 (a - 1)))).

Definition partition_names (bin_type : Z) : list Z :=
  if bin_type =? TEGRABL_BINARY_KERNEL then str "kernel"
  else if bin_type =? TEGRABL_BINARY_KERNEL_DTB then str "kernel-dtb"
  else if bin_type =? TEGRABL_BINARY_KERNEL_DTBO then str "kernel-dtbo"
  else if bin_type =? TEGRABL_BINARY_RECOVERY_KERNEL then str "SOS"
  else if bin_type =? TEGRABL_BINARY_NCT then str "NCT"
  else if bin_type =? TEGRABL_BINARY_RECOVERY_IMG then str "recovery"
  else if bin_type =? TEGRABL_BINARY_RECOVERY_DTB then str "recovery-dtb"
  else if bin_type =? TEGRABL_BINARY_KERNEL_BOOTCTRL then str "kernel-bootctrl"
  else [].

(** The error and [*partition_name], if it is stored. *)
Definition tegrabl_get_partition_name (bin_type binary_copy : Z) : Z * option (list Z) :=
  let name := partition_names bin_type in
  if zlen name =? 0 then (TEGRABL_ERR_NOT_FOUND, None)
  else (TEGRABL_NO_ERROR, Some (tegrabl_a_b_set_bootslot_suffix binary_copy name false).2).

(** Slots and partitions, memory, and the statics of [tegrabl_get_boot_img_load_addr] and
    [tegrabl_get_nct_load_addr]. *)
Record pl (D H M : Type) := mkPl { pl_ab : abstate D H; pl_lx : lx M; pl_img : Z; pl_nct : Z }.
Arguments mkPl {D H M}. Arguments pl_ab {D H M}. Arguments pl_lx {D H M}. Arguments pl_img {D H M}. Arguments pl_nct {D H M}.

(** [tegrabl_load_binary] returns an error, the address and the size, or resets the chip. *)
Inductive outcome (D H M : Type) :=
  | Returned (err load_address binary_length : Z) (st : pl D H M)
  | SocReset (st : pl D H M).
Arguments Returned {D H M}. Arguments SocReset {D H M}.

Section Loader.
Context {D H M : Type} `{BlockDriver D} {AL : Allocator H} {BF : BootFiles M}.
Variable asserts : bool.
Variable os_base : Z.
Implicit Types (st : pl D H M) (s : pstate D H).

Definition set_ab st (ab : abstate D H) : pl D H M := mkPl ab (pl_lx st) (pl_img st) (pl_nct st).
Definition set_pl_lx st (x : lx M) : pl D H M := mkPl (pl_ab st) x (pl_img st) (pl_nct st).
Definition set_pl_pm st s : pl D H M := set_ab st (mkAb (ab_reg (pl_ab st)) (ab_load (pl_ab st)) s).
(** Bytes that a read brought. *)
Definition set_bytes st s (a : Z) (l : list Z) : pl D H M :=
  let st := set_pl_pm st s in set_pl_lx st (set_mem (pl_lx st) (store_bytes (lx_mem (pl_lx st)) a l)).

(** ** The slot *)

(** The error and [*binary_copy]. *)
Definition a_b_get_bin_copy st (bin_type : Z) : res (Z * Z * pl D H M) :=
  if negb ((bin_type =? TEGRABL_BINARY_KERNEL) || (bin_type =? TEGRABL_BINARY_KERNEL_DTB) || (bin_type =? TEGRABL_BINARY_KERNEL_DTBO))
  then Ok (TEGRABL_NO_ERROR, TEGRABL_BINARY_COPY_PRIMARY, st)
  else
    let* (err, slot) := tegrabl_a_b_get_active_slot (ab_reg (pl_ab st)) None in
    let slot := default BOOT_SLOT_A slot in
    if negb (err =? TEGRABL_NO_ERROR) && negb (TEGRABL_ERROR_REASON err =? TEGRABL_ERR_NOT_FOUND)
    then Ok (tegrabl_err_set_highest_module TEGRABL_ERR_LOADER 1, TEGRABL_BINARY_COPY_PRIMARY, st)
    else if slot =? BOOT_SLOT_A then Ok (TEGRABL_NO_ERROR, slot, st)
    else
      let* (err, smd, ab) := tegrabl_a_b_get_smd asserts (pl_ab st) in
      let st := set_ab st ab in
      match smd with
      | None => Ok (LD_SET_HIGHEST err, slot, st)
      | Some (_, m) =>
          if negb (err =? TEGRABL_NO_ERROR) then Ok (LD_SET_HIGHEST err, slot, st)
          else
            let* v := tegrabl_a_b_get_version asserts (Some m) in
            if negb (BOOTCTRL_SUPPORT_REDUNDANCY v =? 0) && (BOOTCTRL_SUPPORT_REDUNDANCY_USER v =? 0)
            then Ok (err, TEGRABL_BINARY_COPY_PRIMARY, st)
            else Ok (err, slot, st)
      end.

(** ** The place *)

Definition tegrabl_get_nct_load_addr st : Z * Z * pl D H M :=
  if pl_nct st =? NULL then
    let w := pw (ab_pm (pl_ab st)) in
    let '(a, h) := heap_malloc (heap w) NCT_MAX_SIZE in
    let st := set_pl_pm st (set_pw (ab_pm (pl_ab st)) (set_heap w h)) in
    if a =? NULL then (LX_ERR TEGRABL_ERR_NO_MEMORY 0, a, st)
    else (TEGRABL_NO_ERROR, a, mkPl (pl_ab st) (pl_lx st) (pl_img st) a)
  else (TEGRABL_NO_ERROR, pl_nct st, st).

Definition img_place st : Z * Z * pl D H M :=
  let '(err, a, img, x) := boot_img_place (pl_img st) (pl_lx st) in (err, a, mkPl (pl_ab st) x img (pl_nct st)).

(** The error, the address and the name of the partition, if there is one. *)
Definition tegrabl_get_binary_info st (bin_type binary_copy : Z) : res (Z * Z * option (list Z) * pl D H M) :=
  let* _ := tegrabl_assert asserts (binary_copy <? TEGRABL_BINARY_COPY_MAX) in
  let* _ := tegrabl_assert asserts (bin_type <? TEGRABL_BINARY_MAX) in
  let '(err, a, st) :=
    if (bin_type =? TEGRABL_BINARY_KERNEL) || (bin_type =? TEGRABL_BINARY_RECOVERY_KERNEL) then img_place st
    else if (bin_type =? TEGRABL_BINARY_KERNEL_DTB) || (bin_type =? TEGRABL_BINARY_RECOVERY_DTB) then
      let '(a, x) := tegrabl_get_dtb_load_addr os_base (pl_lx st) in (TEGRABL_NO_ERROR, a, set_pl_lx st x)
    else if bin_type =? TEGRABL_BINARY_NCT then tegrabl_get_nct_load_addr st
    else if (bin_type =? TEGRABL_BINARY_RECOVERY_IMG) || (bin_type =? TEGRABL_BINARY_KERNEL_BOOTCTRL) then img_place st
    else (LD_ERR TEGRABL_ERR_NOT_FOUND 0, NULL, st) in
  Ok (err, a, (tegrabl_get_partition_name bin_type binary_copy).2, st).

(** ** The bytes *)

(** What the header of a boot image says of the bytes behind it, in 32 bits. *)
Definition remaining_size (m : Z -> Z) (hdr : Z) : Z :=
  let remain_size := ALIGN (hdr_kernelsize m hdr) (hdr_pagesize m hdr) in
  let remain_size := u32 (remain_size + ALIGN (hdr_ramdisksize m hdr) (hdr_pagesize m hdr)) in
  let remain_size := u32 (remain_size + ALIGN (hdr_secondsize m hdr) (hdr_pagesize m hdr)) in
  u32 (remain_size + ALIGN BOOT_IMG_SIG_SIZE (hdr_pagesize m hdr)).

(** The error and [*partition_size]. *)
Definition read_kernel_partition st (q : partition) (a partition_size : Z) : res (Z * Z * pl D H M) :=
  let* (err, data, q', s) := tegrabl_partition_read (ab_pm (pl_ab st)) (Some q) a ANDROID_HEADER_SIZE in
  let st := set_bytes st s a data in
  if negb (err =? TEGRABL_NO_ERROR) then Ok (LD_SET_HIGHEST err, partition_size, st)
  else
    let q := default q q' in
    let m := lx_mem (pl_lx st) in
    let boot_img := HAS_BOOT_IMG_HDR m a in
    let remain_size := if boot_img then remaining_size m a else u32 (partition_size - ANDROID_HEADER_SIZE) in
    if boot_img && (partition_size <? u32 (remain_size + ANDROID_HEADER_SIZE)) then Ok (LD_ERR TEGRABL_ERR_INVALID 0, partition_size, st)
    else
      let* d := get_dev (pw (ab_pm (pl_ab st))) (pt_block_device q) in
      let '(q, dst, n) :=
        if u16 (Z.shiftr (bd_device_id d) 16) =? TEGRABL_STORAGE_USB_MS
        then (set_offset q 0, a, u32 (remain_size + ANDROID_HEADER_SIZE))
        else (q, a + ANDROID_HEADER_SIZE, remain_size) in
      let* (err, data, _, s) := tegrabl_partition_read (ab_pm (pl_ab st)) (Some q) dst n in
      let st := set_bytes st s dst data in
      if negb (err =? TEGRABL_NO_ERROR) then Ok (LD_SET_HIGHEST err, partition_size, st)
      else Ok (err, u32 (remain_size + ANDROID_HEADER_SIZE), st).

(** From "Get partition size" on; [dynamic] says that the caller gave the address.  The result is the error
    and the size, if it is stored. *)
Definition load_handle st (q : partition) (boot_img dynamic : bool) (size_err overflow_err : Z) (a binary_length : Z)
    : res (Z * option Z * pl D H M) :=
  let* partition_size := tegrabl_partition_size (ab_pm (pl_ab st)) (Some q) in
  if partition_size =? 0 then Ok (size_err, None, st)
  else if dynamic && (partition_size <? binary_length) then Ok (overflow_err, None, st)
  else
    let* (err, n, st) :=
      if boot_img then read_kernel_partition st q a partition_size
      else
        let* (err, data, _, s) := tegrabl_partition_read (ab_pm (pl_ab st)) (Some q) a partition_size in
        Ok (err, partition_size, set_bytes st s a data) in
    if negb (err =? TEGRABL_NO_ERROR) then Ok (LD_SET_HIGHEST err, None, st) else Ok (err, Some (u32 n), st).

(** The parameters are [*load_address] and [*binary_length]; the result is the error and what they are then. *)
Definition tegrabl_load_binary_copy st (bin_type load_address binary_length binary_copy : Z) : res (Z * Z * Z * pl D H M) :=
  if TEGRABL_BINARY_MAX <=? bin_type then Ok (LD_ERR TEGRABL_ERR_INVALID 0, load_address, binary_length, st)
  else
    let* (err, a, name, st) := tegrabl_get_binary_info st bin_type binary_copy in
    let dynamic := TEGRABL_ERROR_REASON err =? TEGRABL_ERR_NOT_FOUND in
    if negb (err =? TEGRABL_NO_ERROR) && negb dynamic then Ok (LD_SET_HIGHEST err, load_address, binary_length, st)
    else if dynamic && (load_address =? NULL) then Ok (err, load_address, binary_length, st)
    else
      let a := if dynamic then load_address else a in
      match name with
      | None => Stuck OutOfBounds
      | Some name =>
          let* (err, q) := tegrabl_partition_open (ab_pm (pl_ab st)) (Some name) (Some zero_partition) in
          if negb (err =? TEGRABL_NO_ERROR) then Ok (LD_SET_HIGHEST err, load_address, binary_length, st)
          else
            let boot_img := (bin_type =? TEGRABL_BINARY_KERNEL) || (bin_type =? TEGRABL_BINARY_RECOVERY_IMG) in
            let* (err, n, st) := load_handle st (default zero_partition q) boot_img dynamic
              (LD_ERR TEGRABL_ERR_INVALID 2) (LD_ERR TEGRABL_ERR_OVERFLOW 0) a binary_length in
            match n with
            | Some n => Ok (err, a, n, st)
            | None => Ok (err, load_address, binary_length, st)
            end
      end.

Definition tegrabl_load_binary_bdev st (bin_type load_address binary_length bdev : Z) : res (Z * Z * Z * pl D H M) :=
  if TEGRABL_BINARY_MAX <=? bin_type then Ok (LD_ERR TEGRABL_ERR_INVALID AUX_INFO_LOAD_BINARY_BIN_TYPE_ERR, load_address, binary_length, st)
  else if bdev =? NULL then Ok (LD_ERR TEGRABL_ERR_INVALID AUX_INFO_LOAD_BINARY_BDEV_ERR, load_address, binary_length, st)
  else
    let* (err, a, name, st) := tegrabl_get_binary_info st bin_type TEGRABL_BINARY_COPY_PRIMARY in
    let dynamic := TEGRABL_ERROR_REASON err =? TEGRABL_ERR_NOT_FOUND in
    if negb (err =? TEGRABL_NO_ERROR) && negb dynamic then Ok (LD_SET_HIGHEST err, load_address, binary_length, st)
    else if dynamic && (load_address =? NULL) then Ok (err, load_address, binary_length, st)
    else
      let a := if dynamic then load_address else a in
      match name with
      | None => Stuck OutOfBounds
      | Some name =>
          let* (err, q) := tegrabl_partition_lookup_bdev (ab_pm (pl_ab st)) (Some name) (Some zero_partition) bdev in
          if negb (err =? TEGRABL_NO_ERROR) then Ok (LD_SET_HIGHEST err, load_address, binary_length, st)
          else
            let* (err, n, st) := load_handle st (default zero_partition q) (bin_type =? TEGRABL_BINARY_KERNEL) dynamic
              (LD_ERR TEGRABL_ERR_INVALID AUX_INFO_INVALID_PARTITION_SIZE) (LD_ERR TEGRABL_ERR_OVERFLOW AUX_INFO_OVERFLOW_ERR) a binary_length in
            match n with
            | Some n => Ok (err, a, n, st)
            | None => Ok (err, load_address, binary_length, st)
            end
      end.

(** [tegrabl_load_binary] *)
Definition load_binary st (bin_type load_address binary_length : Z) : res (outcome D H M) :=
  let* (err, bin_copy, st) := a_b_get_bin_copy st bin_type in
  if negb (err =? TEGRABL_NO_ERROR) then Ok (Returned err load_address binary_length st)
  else
    let* (err, a, n, st) := tegrabl_load_binary_copy st bin_type load_address binary_length bin_copy in
    if err =? TEGRABL_NO_ERROR then Ok (Returned err a n st) else Ok (SocReset st).
End Loader.
