(* ===== verification/PartitionLoaderProps.v ===== *)
(** The loader of partitions: kernel and device tree come from the slot that boots, byte for byte; a small
    disk. *)

From S2P Require Import Prelude TegraError Utils BlockDev BlockDevFacts Models Gpt DemoDisk AbNaming PartitionManager PartitionFacts AbBoot AbStore Cbo LinuxLoad LinuxLoadProps Extlinux Auth BootFiles BootFilesProps PartitionLoader.

(** ** Memory and the header of an image *)

Section Memory.
Implicit Types (m : Z -> Z) (l : list Z).

(** Bytes of a list as memory from 0 on. *)
Definition content l : Z -> Z := fun x => nth (Z.to_nat x) l 0.

Lemma content_slice l o n x : 0 <= o -> 0 <= x < n -> content (slice o n l) x = content l (o + x).
Proof.
  intros Ho Hx. unfold content. rewrite !nth_lookup, lookup_slice by done. rewrite decide_True by lia.
  do 2 f_equal. lia.
Qed.

Lemma store_slice m a l o n x : 0 <= o -> 0 <= n -> o + n <= zlen l ->
  store_bytes m a (slice o n l) x = if (a <=? x) && (x <? a + n) then content l (o + (x - a)) else m x.
Proof.
  intros Ho Hn Hl. unfold store_bytes. rewrite slice_length by done. destruct (Z.leb_spec a x), (Z.ltb_spec x (a + n)); cbn [andb]; try done.
  apply (content_slice l o n (x - a)); lia.
Qed.

Lemma bytes_content l n : 0 <= n <= zlen l -> bytes_at (content l) 0 n = slice 0 n l.
Proof.
  intros Hn. apply list_eq. intros i. rewrite lookup_bytes, lookup_slice by done. case_decide as Hi; [|by rewrite decide_False by lia].
  rewrite decide_True by lia. unfold content. replace (Z.to_nat (0 + Z.of_nat i)) with i by lia. replace (Z.to_nat 0 + i)%nat with i by lia.
  unfold zlen in Hn. destruct (lookup_lt_is_Some_2 l i ltac:(lia)) as [v Ev]. rewrite Ev. f_equal. by apply nth_lookup_Some.
Qed.

Lemma word_ext m m' a b k : (forall i, 0 <= i < ANDROID_HEADER_SIZE -> m' (b + i) = m (a + i)) -> 0 <= k <= ANDROID_HEADER_SIZE - 4 -> word_at m' (b + k) = word_at m (a + k).
Proof. intros He Hk. unfold word_at. f_equal. apply bytes_ext. intros i Hi. rewrite <- !Z.add_assoc. apply He. lia. Qed.

(** What the header says depends on its bytes only. *)
Lemma header_ext m m' a b : (forall i, 0 <= i < ANDROID_HEADER_SIZE -> m' (b + i) = m (a + i)) ->
  HAS_BOOT_IMG_HDR m' b = HAS_BOOT_IMG_HDR m a /\ remaining_size m' b = remaining_size m a.
Proof.
  intros He. split.
  - unfold HAS_BOOT_IMG_HDR. by rewrite (bytes_ext m m' a b 8) by (intros i Hi; apply He; unfold ANDROID_HEADER_SIZE; lia).
  - unfold remaining_size, hdr_kernelsize, hdr_ramdisksize, hdr_secondsize, hdr_pagesize.
    by rewrite !(word_ext m m' a b) by (done || unfold ANDROID_HEADER_SIZE; lia).
Qed.
End Memory.

(** The bytes behind the header that are read of a boot partition with the content [l]. *)
Definition boot_rest (l : list Z) : Z :=
  if HAS_BOOT_IMG_HDR (content l) 0 then remaining_size (content l) 0 else zlen l - ANDROID_HEADER_SIZE.

(** ** Reading *)

Section Load.
Context {D H M : Type} `{BlockDriver D, !ReliableDriver D} {AL : Allocator H} `{!AllocatorLaws H} {BF : BootFiles M}.
Implicit Types (st : pl D H M) (q : partition) (i : partition_info) (d : bdev D).

(** The memory [m'] is [m] with the first [n] bytes of [l] at [a]. *)
Definition holds (m m' : Z -> Z) (a n : Z) (l : list Z) : Prop :=
  forall x, m' x = if (a <=? x) && (x <? a + n) then content l (x - a) else m x.

Definition pm_of st : pstate D H := ab_pm (pl_ab st).
Definition mem_of st : Z -> Z := lx_mem (pl_lx st).

Lemma part_bytes_len st q i d : handle_ok (pm_of st) q i d -> zlen (part_bytes d i) = pi_total_size i.
Proof. intros Hq. destruct (handle_bounds _ _ _ _ Hq) as (B1 & B2 & B3 & B4 & B5). unfold part_bytes. apply slice_length; lia. Qed.

(** One read of a partition to memory; what stays behind allows the next. *)
Lemma read_to st q i d a n r : handle_ok (pm_of st) q i d -> 0 < a -> 0 <= pt_offset q -> 0 < n ->
  pt_offset q + n <= pi_total_size i -> heap_room (heap (pw (pm_of st))) r -> bounce_cost d n <= r ->
  exists s x, tegrabl_partition_read (pm_of st) (Some q) a n = Ok (TEGRABL_NO_ERROR, slice (pt_offset q) n (part_bytes d i), Some (set_offset q (pt_offset q + n)), s) /\
    media d x /\ part_bytes (set_priv d x) i = part_bytes d i /\ heap_room (heap (pw s)) (r - bounce_cost d n) /\
    forall q', handle_ok (pm_of st) q' i d -> pt_block_device q' = pt_block_device q -> handle_ok s q' i (set_priv d x).
Proof.
  intros Hq Ha Ho Hn He Hr Hc. destruct (partition_read_ok _ _ _ _ a n r Hq Ha Ho Hn He Hr Hc) as (x & h & E & Hm & Hx & Hh).
  destruct (handle_bounds _ _ _ _ Hq) as (B1 & _). eexists _, x. split; [rewrite E; unfold part_bytes; by rewrite slice_slice by lia|].
  split; [done|]. split; [unfold part_bytes; cbn; by rewrite Hx|]. split; [done|]. intros q' Hq' Ed. by eapply handle_ok_put.
Qed.

Lemma handle_dev (s : pstate D H) q i d : handle_ok s q i d -> get_dev (pw s) (pt_block_device q) = Ok d.
Proof. intros Hq. unfold get_dev. by rewrite (ho_dev _ _ _ _ Hq). Qed.

Lemma handle_size st q i d : handle_ok (pm_of st) q i d -> tegrabl_partition_size (pm_of st) (Some q) = Ok (pi_total_size i).
Proof. intros Hq. pose proof (ho_info _ _ _ _ Hq) as Hi. destruct q as [[p|] b o]; [|done]. cbn in Hi |- *. by rewrite Hi. Qed.

(** A whole partition; the length of the caller's buffer is a lower bound of the size, not an upper one. *)
Lemma load_whole st q i d a r dynamic e1 e2 len : handle_ok (pm_of st) q i d -> 0 < a -> pt_offset q = 0 -> 0 < pi_total_size i < 2 ^ 32 ->
  heap_room (heap (pw (pm_of st))) r -> bounce_cost d (pi_total_size i) <= r -> dynamic && (pi_total_size i <? len) = false ->
  exists st', load_handle st q false dynamic e1 e2 a len = Ok (TEGRABL_NO_ERROR, Some (pi_total_size i), st') /\
    holds (mem_of st) (mem_of st') a (pi_total_size i) (part_bytes d i).
Proof.
  intros Hq Ha Ho Hs Hr Hc Hd. pose proof (part_bytes_len _ _ _ _ Hq) as Hl.
  destruct (read_to st q i d a (pi_total_size i) r Hq Ha ltac:(lia) ltac:(lia) ltac:(lia) Hr Hc) as (s & x & E & _).
  unfold load_handle. fold (pm_of st). rewrite (handle_size _ _ _ _ Hq). cbn [res_bind]. rewrite (proj2 (Z.eqb_neq _ 0)), Hd by lia. rewrite E. cbn [res_bind].
  change (negb (TEGRABL_NO_ERROR =? TEGRABL_NO_ERROR)) with false. cbv iota. rewrite u32_small by lia. eexists. split; [done|].
  intros y. cbn [mem_of set_bytes set_pl_lx pl_lx set_mem lx_mem]. rewrite Ho, store_slice by lia. unfold mem_of. cbn. done.
Qed.

Lemma bounce_cost_mono d n n' : n <= n' -> bounce_cost d n <= bounce_cost d n'.
Proof. unfold bounce_cost, alloc_cost. lia. Qed.

Lemma holds_store st s a n l : 0 <= n <= zlen l -> holds (mem_of st) (mem_of (set_bytes st s a (slice 0 n l))) a n l.
Proof. intros Hn x. cbn [mem_of set_bytes set_pl_lx pl_lx set_mem lx_mem]. rewrite store_slice by lia. done. Qed.

(** A second read behind the first. *)
Lemma holds_append m st s a n k l : holds m (mem_of st) a n l -> 0 <= n -> 0 <= k -> n + k <= zlen l ->
  holds m (mem_of (set_bytes st s (a + n) (slice n k l))) a (k + n) l.
Proof.
  intros Hm Hn Hk Hl x. cbn [mem_of set_bytes set_pl_lx pl_lx set_mem lx_mem]. rewrite store_slice by lia. fold (mem_of st).
  change (lx_mem (pl_lx (set_pl_pm st s)) x) with (mem_of st x). rewrite (Hm x).
  destruct (Z.leb_spec (a + n) x), (Z.ltb_spec x (a + n + k)), (Z.leb_spec a x), (Z.ltb_spec x (a + n)), (Z.ltb_spec x (a + (k + n))); cbn [andb]; try lia; try done.
  f_equal. lia.
Qed.

(** A second read from the start, over the first. *)
Lemma holds_again m st s a n k l : holds m (mem_of st) a n l -> 0 <= n -> 0 <= k -> n + k <= zlen l ->
  holds m (mem_of (set_bytes st s a (slice 0 (k + n) l))) a (k + n) l.
Proof.
  intros Hm Hn Hk Hl x. rewrite (holds_store st s a (k + n) l ltac:(lia) x), (Hm x).
  destruct (Z.leb_spec a x), (Z.ltb_spec x (a + n)), (Z.ltb_spec x (a + (k + n))); cbn [andb]; (done || lia).
Qed.

(** A boot partition: the header, and then as much as the header says. *)
Lemma read_kernel_ok st q i d a r : let l := part_bytes d i in
  handle_ok (pm_of st) q i d -> 0 < a -> pt_offset q = 0 -> pi_total_size i < 2 ^ 32 ->
  0 < boot_rest l -> boot_rest l + ANDROID_HEADER_SIZE <= pi_total_size i -> heap_room (heap (pw (pm_of st))) r ->
  bounce_cost d ANDROID_HEADER_SIZE + bounce_cost d (boot_rest l + ANDROID_HEADER_SIZE) <= r ->
  exists st', read_kernel_partition st q a (pi_total_size i) = Ok (TEGRABL_NO_ERROR, boot_rest l + ANDROID_HEADER_SIZE, st') /\
    holds (mem_of st) (mem_of st') a (boot_rest l + ANDROID_HEADER_SIZE) l.
Proof.
  intros l Hq Ha Ho Hs Hr0 Hrs Hr Hc. pose proof (part_bytes_len _ _ _ _ Hq) as Hl. fold l in Hl.
  assert (Hh : ANDROID_HEADER_SIZE = 2048) by done.
  pose proof (bounce_cost_mono d (boot_rest l) (boot_rest l + ANDROID_HEADER_SIZE) ltac:(lia)) as Hmono.
  assert (Hb0 : 0 <= bounce_cost d (boot_rest l)) by (unfold bounce_cost, alloc_cost; pose proof (pow2_pos _ (proj1 (g_lg _ (ho_geom _ _ _ _ Hq)))); lia).
  destruct (read_to st q i d a ANDROID_HEADER_SIZE r Hq Ha ltac:(lia) ltac:(lia) ltac:(lia) Hr ltac:(lia)) as (s & x & E & Hm & Hx & Hroom & Hk).
  fold l in E. rewrite Ho in E. unfold read_kernel_partition. fold (pm_of st). rewrite E. cbn [res_bind].
  change (negb (TEGRABL_NO_ERROR =? TEGRABL_NO_ERROR)) with false. cbn [from_option id]. cbv iota.
  pose proof (holds_store st s a ANDROID_HEADER_SIZE l ltac:(lia)) as Hm1. set (st1 := set_bytes st s a (slice 0 ANDROID_HEADER_SIZE l)) in *.
  destruct (header_ext (content l) (lx_mem (pl_lx st1)) 0 a) as [Eh Er].
  { intros k Hk'. fold (mem_of st1). rewrite (Hm1 (a + k)), (proj2 (Z.leb_le _ _)), (proj2 (Z.ltb_lt _ _)) by lia. cbn [andb]. f_equal. lia. }
  rewrite Eh, Er.
  assert (Hrest : (if HAS_BOOT_IMG_HDR (content l) 0 then remaining_size (content l) 0 else u32 (pi_total_size i - ANDROID_HEADER_SIZE)) = boot_rest l).
  { unfold boot_rest. destruct (HAS_BOOT_IMG_HDR (content l) 0); [done|]. rewrite u32_small by lia. lia. }
  rewrite Hrest, (u32_small (boot_rest l + ANDROID_HEADER_SIZE)), (proj2 (Z.ltb_ge (pi_total_size i) _)), andb_false_r by lia.
  change (ab_pm (pl_ab st1)) with s.
  set (q1 := set_offset q (0 + ANDROID_HEADER_SIZE)).
  assert (Hq1 : handle_ok s q1 i (set_priv d x)) by (apply Hk; [by apply handle_ok_offset|done]).
  rewrite (handle_dev _ _ _ _ Hq1). cbn [res_bind].
  assert (Hc2 : bounce_cost (set_priv d x) = bounce_cost d) by done.
  destruct (_ =? TEGRABL_STORAGE_USB_MS).
  - destruct (read_to st1 (set_offset q1 0) i (set_priv d x) a (boot_rest l + ANDROID_HEADER_SIZE) (r - bounce_cost d ANDROID_HEADER_SIZE)) as (s2 & x2 & E2 & _);
      [by apply handle_ok_offset|done|cbn; lia..|done|rewrite Hc2; lia|].
    change (pm_of st1) with s in E2. rewrite Hx in E2. fold l in E2. cbn [pt_offset set_offset] in E2. rewrite E2. cbn [res_bind].
    change (negb (TEGRABL_NO_ERROR =? TEGRABL_NO_ERROR)) with false. cbv iota. eexists. split; [done|].
    apply holds_again; [exact Hm1|lia..].
  - destruct (read_to st1 q1 i (set_priv d x) (a + ANDROID_HEADER_SIZE) (boot_rest l) (r - bounce_cost d ANDROID_HEADER_SIZE)) as (s2 & x2 & E2 & _);
      [done|lia|cbn; lia..|done|rewrite Hc2; lia|].
    change (pm_of st1) with s in E2. rewrite Hx in E2. fold l in E2. cbn [pt_offset q1 set_offset] in E2. rewrite E2. cbn [res_bind].
    change (negb (TEGRABL_NO_ERROR =? TEGRABL_NO_ERROR)) with false. cbv iota. eexists. split; [done|].
    apply holds_append; [exact Hm1|lia..].
Qed.

Lemma load_boot st q i d a r e1 e2 len : let l := part_bytes d i in
  handle_ok (pm_of st) q i d -> 0 < a -> pt_offset q = 0 -> pi_total_size i < 2 ^ 32 ->
  0 < boot_rest l -> boot_rest l + ANDROID_HEADER_SIZE <= pi_total_size i -> heap_room (heap (pw (pm_of st))) r ->
  bounce_cost d ANDROID_HEADER_SIZE + bounce_cost d (boot_rest l + ANDROID_HEADER_SIZE) <= r ->
  exists st', load_handle st q true false e1 e2 a len = Ok (TEGRABL_NO_ERROR, Some (boot_rest l + ANDROID_HEADER_SIZE), st') /\
    holds (mem_of st) (mem_of st') a (boot_rest l + ANDROID_HEADER_SIZE) l.
Proof.
  intros l Hq Ha Ho Hs H1 H2 Hr Hc. destruct (read_kernel_ok st q i d a r Hq Ha Ho Hs H1 H2 Hr Hc) as (st' & E & Hm).
  assert (Hh : ANDROID_HEADER_SIZE = 2048) by done. exists st'. split; [|exact Hm].
  unfold load_handle. fold (pm_of st). rewrite (handle_size _ _ _ _ Hq). cbn [res_bind andb]. rewrite (proj2 (Z.eqb_neq _ 0)) by lia.
  rewrite E. cbn [res_bind]. change (negb (TEGRABL_NO_ERROR =? TEGRABL_NO_ERROR)) with false. cbv iota. fold l. by rewrite u32_small by lia.
Qed.

(** ** The slot *)

Variable asserts : bool.
Variable os_base : Z.

(** The copy of kernel and device tree that boots: that of the slot in the register, but the first one if only
    the boot loader is redundant. *)
Definition kernel_copy (reg : Z) (loaded : option (Z * smd)) : Z :=
  if negb (tegrabl_a_b_is_valid reg None) then BOOT_SLOT_A
  else
    match loaded with
    | Some (_, m) =>
        if negb (BOOTCTRL_SUPPORT_REDUNDANCY (version m) =? 0) && (BOOTCTRL_SUPPORT_REDUNDANCY_USER (version m) =? 0)
        then BOOT_SLOT_A else BOOT_CHAIN_REG_SLOT_NUM_GET reg
    | None => BOOT_CHAIN_REG_SLOT_NUM_GET reg
    end.

Definition slotted (bin_type : Z) : Prop :=
  bin_type = TEGRABL_BINARY_KERNEL \/ bin_type = TEGRABL_BINARY_KERNEL_DTB \/ bin_type = TEGRABL_BINARY_KERNEL_DTBO.

(** Metadata are there, or not needed because the first slot boots. *)
Definition metadata_loaded st : Prop :=
  (exists l, ab_load (pl_ab st) = Some l) \/ tegrabl_a_b_is_valid (ab_reg (pl_ab st)) None = false \/
  BOOT_CHAIN_REG_SLOT_NUM_GET (ab_reg (pl_ab st)) = BOOT_SLOT_A.

Lemma bin_copy_ok st bin_type : slotted bin_type -> metadata_loaded st ->
  a_b_get_bin_copy asserts st bin_type = Ok (TEGRABL_NO_ERROR, kernel_copy (ab_reg (pl_ab st)) (ab_load (pl_ab st)), st).
Proof.
  intros Ht Hl. unfold a_b_get_bin_copy, kernel_copy.
  assert (Hg : negb ((bin_type =? TEGRABL_BINARY_KERNEL) || (bin_type =? TEGRABL_BINARY_KERNEL_DTB) || (bin_type =? TEGRABL_BINARY_KERNEL_DTBO)) = false) by by destruct Ht as [-> |[-> | ->]].
  rewrite Hg. cbn [tegrabl_a_b_get_active_slot]. unfold boot_chain_get_bootslot_from_reg.
  destruct (tegrabl_a_b_is_valid (ab_reg (pl_ab st)) None) eqn:Ev; cbn [negb res_bind from_option id].
  2: { assert (He : TEGRABL_ERROR_REASON (AB_ERR TEGRABL_ERR_NOT_FOUND 0) =? TEGRABL_ERR_NOT_FOUND = true) by by vm_compute.
       rewrite He, andb_false_r. done. }
  change (negb (TEGRABL_NO_ERROR =? TEGRABL_NO_ERROR)) with false. cbn [andb].
  destruct (Z.eqb_spec (BOOT_CHAIN_REG_SLOT_NUM_GET (ab_reg (pl_ab st))) BOOT_SLOT_A) as [E|E].
  { rewrite E. destruct (ab_load (pl_ab st)) as [[ad m]|]; [|done]. by case_match. }
  destruct Hl as [[[ad m] Hl]|[Hl|Hl]]; [|congruence..]. unfold tegrabl_a_b_get_smd. rewrite Hl. cbn [res_bind].
  change (negb (TEGRABL_NO_ERROR =? TEGRABL_NO_ERROR)) with false. cbv iota. unfold tegrabl_a_b_get_version, deref, tegrabl_assert.
  rewrite andb_false_r. cbn [res_bind]. assert (Hs : set_ab st (pl_ab st) = st) by by destruct st. rewrite Hs. by case_match.
Qed.

(** The name in the table of a copy. *)
Definition copy_name (bin_type copy : Z) : list Z :=
  partition_names bin_type ++ (if copy =? BOOT_SLOT_A then [] else BOOT_CHAIN_SUFFIX_B).

Lemma partition_name_copy bin_type copy : slotted bin_type -> (tegrabl_get_partition_name bin_type copy).2 = Some (copy_name bin_type copy).
Proof.
  intros Ht. unfold tegrabl_get_partition_name, copy_name, tegrabl_a_b_set_bootslot_suffix. cbn [negb andb].
  assert (Hn : zlen (partition_names bin_type) =? 0 = false) by by destruct Ht as [-> |[-> | ->]].
  rewrite Hn. destruct (copy =? BOOT_SLOT_A); cbn [snd]; [by rewrite app_nil_r|done].
Qed.

(** The place of the kernel and of the device tree, and how much of the partition goes there. *)
Definition place_of st (bin_type : Z) : Z :=
  if bin_type =? TEGRABL_BINARY_KERNEL then pl_img st else (tegrabl_get_dtb_load_addr os_base (pl_lx st)).1.
Definition loaded_size (bin_type : Z) (l : list Z) : Z :=
  if bin_type =? TEGRABL_BINARY_KERNEL then boot_rest l + ANDROID_HEADER_SIZE else zlen l.

Lemma kernel_info st copy : pl_img st <> NULL -> copy < TEGRABL_BINARY_COPY_MAX ->
  tegrabl_get_binary_info asserts os_base st TEGRABL_BINARY_KERNEL copy = Ok (TEGRABL_NO_ERROR, pl_img st, Some (copy_name TEGRABL_BINARY_KERNEL copy), st).
Proof.
  intros Hi Hc. unfold tegrabl_get_binary_info, tegrabl_assert. rewrite partition_name_copy by (by left). rewrite (proj2 (Z.ltb_lt copy _)) by done.
  change (TEGRABL_BINARY_KERNEL <? TEGRABL_BINARY_MAX) with true. rewrite andb_false_r. cbn [res_bind].
  change ((TEGRABL_BINARY_KERNEL =? TEGRABL_BINARY_KERNEL) || (TEGRABL_BINARY_KERNEL =? TEGRABL_BINARY_RECOVERY_KERNEL)) with true. cbv iota.
  unfold img_place, boot_img_place. rewrite (proj2 (Z.eqb_neq (pl_img st) NULL)) by done. by destruct st.
Qed.

Lemma dtb_info st copy : copy < TEGRABL_BINARY_COPY_MAX ->
  exists st', tegrabl_get_binary_info asserts os_base st TEGRABL_BINARY_KERNEL_DTB copy =
      Ok (TEGRABL_NO_ERROR, place_of st TEGRABL_BINARY_KERNEL_DTB, Some (copy_name TEGRABL_BINARY_KERNEL_DTB copy), st') /\
    pm_of st' = pm_of st /\ mem_of st' = mem_of st.
Proof.
  intros Hc. unfold tegrabl_get_binary_info, tegrabl_assert, place_of. rewrite partition_name_copy by (right; by left). rewrite (proj2 (Z.ltb_lt copy _)) by done.
  change (TEGRABL_BINARY_KERNEL_DTB <? TEGRABL_BINARY_MAX) with true. rewrite andb_false_r. cbn [res_bind].
  change (TEGRABL_BINARY_KERNEL_DTB =? TEGRABL_BINARY_KERNEL) with false.
  change (false || (TEGRABL_BINARY_KERNEL_DTB =? TEGRABL_BINARY_RECOVERY_KERNEL)) with false.
  change ((TEGRABL_BINARY_KERNEL_DTB =? TEGRABL_BINARY_KERNEL_DTB) || (TEGRABL_BINARY_KERNEL_DTB =? TEGRABL_BINARY_RECOVERY_DTB)) with true. cbv iota.
  destruct (tegrabl_get_dtb_load_addr os_base (pl_lx st)) as [a x] eqn:E. eexists. split; [done|]. split; [done|].
  unfold mem_of. cbn [pl_lx set_pl_lx]. unfold tegrabl_get_dtb_load_addr, tegrabl_get_kernel_load_addr in E. injection E as _ <-.
  destruct (os_carveout_next_free_addr (pl_lx st) =? 0); done.
Qed.

(** Behind the choice of the place: the partition is opened and read. *)
Lemma copy_loads st st1 st' bin_type a name q n la len copy : bin_type < TEGRABL_BINARY_MAX ->
  tegrabl_get_binary_info asserts os_base st bin_type copy = Ok (TEGRABL_NO_ERROR, a, Some name, st1) ->
  tegrabl_partition_open (pm_of st1) (Some name) (Some zero_partition) = Ok (TEGRABL_NO_ERROR, Some q) ->
  load_handle st1 q ((bin_type =? TEGRABL_BINARY_KERNEL) || (bin_type =? TEGRABL_BINARY_RECOVERY_IMG)) false
    (LD_ERR TEGRABL_ERR_INVALID 2) (LD_ERR TEGRABL_ERR_OVERFLOW 0) a len = Ok (TEGRABL_NO_ERROR, Some n, st') ->
  tegrabl_load_binary_copy asserts os_base st bin_type la len copy = Ok (TEGRABL_NO_ERROR, a, n, st').
Proof.
  intros Ht Ei Eo Eh. unfold tegrabl_load_binary_copy. rewrite (proj2 (Z.leb_gt _ _)), Ei by lia. cbn [res_bind].
  change (TEGRABL_ERROR_REASON TEGRABL_NO_ERROR =? TEGRABL_ERR_NOT_FOUND) with false. rewrite Z.eqb_refl. cbn [negb andb]. fold (pm_of st1). rewrite Eo. cbn [res_bind].
  rewrite Z.eqb_refl. cbn [negb from_option id]. by rewrite Eh.
Qed.


(** The limit of a buffer of the caller is tested the wrong way round.  For a binary without a place of its own, a partition that is smaller
    than the buffer is refused as too large, and one that is larger is read in full, past the end of the buffer. *)
Theorem buffer_limit_inverted st q i d r la len copy : let l := part_bytes d i in
  copy < TEGRABL_BINARY_COPY_MAX -> 0 < la -> 0 <= len ->
  tegrabl_partition_open (pm_of st) (Some (copy_name TEGRABL_BINARY_KERNEL_DTBO copy)) (Some zero_partition) = Ok (TEGRABL_NO_ERROR, Some q) ->
  handle_ok (pm_of st) q i d -> pt_offset q = 0 -> 0 < pi_total_size i < 2 ^ 32 -> heap_room (heap (pw (pm_of st))) r -> bounce_cost d (pi_total_size i) <= r ->
  (pi_total_size i < len -> tegrabl_load_binary_copy asserts os_base st TEGRABL_BINARY_KERNEL_DTBO la len copy = Ok (LD_ERR TEGRABL_ERR_OVERFLOW 0, la, len, st)) /\
  (len < pi_total_size i -> exists st', tegrabl_load_binary_copy asserts os_base st TEGRABL_BINARY_KERNEL_DTBO la len copy = Ok (TEGRABL_NO_ERROR, la, pi_total_size i, st') /\
    forall k, len <= k < pi_total_size i -> mem_of st' (la + k) = content l k).
Proof.
  intros l Hc Ha Hlen Hop Hq Ho Hs Hr Hb.
  assert (Ei : tegrabl_get_binary_info asserts os_base st TEGRABL_BINARY_KERNEL_DTBO copy = Ok (LD_ERR TEGRABL_ERR_NOT_FOUND 0, NULL, Some (copy_name TEGRABL_BINARY_KERNEL_DTBO copy), st)).
  { unfold tegrabl_get_binary_info, tegrabl_assert. rewrite partition_name_copy by (right; by right). rewrite (proj2 (Z.ltb_lt copy _)) by done.
    change (TEGRABL_BINARY_KERNEL_DTBO <? TEGRABL_BINARY_MAX) with true. rewrite andb_false_r. done. }
  unfold tegrabl_load_binary_copy. change (TEGRABL_BINARY_MAX <=? TEGRABL_BINARY_KERNEL_DTBO) with false. cbv iota. rewrite Ei. cbn [res_bind].
  assert (Hd : TEGRABL_ERROR_REASON (LD_ERR TEGRABL_ERR_NOT_FOUND 0) =? TEGRABL_ERR_NOT_FOUND = true) by by vm_compute.
  rewrite Hd, andb_false_r, (proj2 (Z.eqb_neq la NULL)) by (unfold NULL; lia). cbn [andb]. fold (pm_of st). rewrite Hop. cbn [res_bind]. rewrite Z.eqb_refl. cbn [negb from_option id].
  change ((TEGRABL_BINARY_KERNEL_DTBO =? TEGRABL_BINARY_KERNEL) || (TEGRABL_BINARY_KERNEL_DTBO =? TEGRABL_BINARY_RECOVERY_IMG)) with false. split; intros Hl.
  - unfold load_handle. fold (pm_of st). rewrite (handle_size _ _ _ _ Hq). cbn [res_bind]. by rewrite (proj2 (Z.eqb_neq _ 0)), (proj2 (Z.ltb_lt _ len)) by lia.
  - destruct (load_whole st q i d la r true (LD_ERR TEGRABL_ERR_INVALID 2) (LD_ERR TEGRABL_ERR_OVERFLOW 0) len Hq Ha Ho Hs Hr Hb) as (st' & E & Hm); [cbn [andb]; by apply Z.ltb_ge; lia|].
    rewrite E. cbn [res_bind]. exists st'. split; [done|]. intros k Hk. rewrite (Hm (la + k)).
    destruct (Z.leb_spec la (la + k)), (Z.ltb_spec (la + k) (la + pi_total_size i)); cbn [andb]; try lia.
    f_equal. lia.
Qed.
End Load.

(** * A disk *)

#[local] Existing Instance demo_files.

(** 64 blocks of 128 bytes with three partitions. *)
Definition loader_disk : list Z := (fun x => x mod 251) <$> seqZ 0 8192.
Definition loader_info (k : nat) : partition_info :=
  match k with
  | O => mkInfo (str "kernel_b") [] [] 8 20 2560
  | 1%nat => mkInfo (str "kernel-dtb_b") [] [] 30 4 512
  | _ => mkInfo (str "kernel-dtbo") [] [] 40 2 256
  end.
Definition loader_dev : bdev ramdisk := gpt_dev loader_disk.
Definition loader_pm : pstate ramdisk arena :=
  mkPstate (mkWorld (Some [0x100]) {[ 0x100 := loader_dev ]} 0 (mkArena 0x1000 0x1000000 ∅))
    (Some [mkStorage 0x200 0x100 3 0x300]) {[ 0x300 := loader_info <$> seq 0 3 ]}.
Definition loader_handle (k : nat) : partition := mkPartition (Some (0x300, k)) 0x100 0.

(** Slot B boots; the metadata say that kernels have slots too. *)
Definition loader_smd : smd := mkSmd BOOT_CHAIN_MAGIC BOOT_CHAIN_VERSION 2 [] 0.
Definition loader_st : pl ramdisk arena unit :=
  mkPl (mkAb 0x11CAFE (Some (0x500, loader_smd)) loader_pm) (mkLx tt (fun _ => 0) 0 0 0 0 0) 0x100000 0.

Lemma loader_geom : geom loader_dev.
Proof.
  unfold loader_dev, gpt_dev. replace (zlen loader_disk) with 8192 by by vm_compute. change (8192 / 128) with 64.
  split; cbn [bd_ref bd_block_count bd_block_size_log2 bd_size bd_buf_align_size bd_read_block bd_write_block]; auto; try lia; try reflexivity.
Qed.

Lemma loader_handle_ok k : (k < 3)%nat -> handle_ok loader_pm (loader_handle k) (loader_info k) loader_dev.
Proof.
  intros Hk. assert (T : info_of loader_pm (loader_handle k) = Ok (loader_info k) /\
    0 <= pi_start_sector (loader_info k) /\ 0 <= pi_num_sectors (loader_info k) /\
    pi_start_sector (loader_info k) + pi_num_sectors (loader_info k) <= 64 /\ pi_total_size (loader_info k) = pi_num_sectors (loader_info k) * 128)
    by (do 3 (destruct k as [|k]; [vm_compute; intuition congruence|]); lia).
  destruct T as (Hi & Hs & Hn & He & Hz).
  assert (Hb : bd_block_count loader_dev = 64) by by vm_compute.
  split; [done|exact Hi|by vm_compute|done|exact loader_geom|split; [reflexivity|by vm_compute]|done|done|by rewrite Hb|exact Hz].
Qed.

Lemma loader_room : heap_room (heap (pw loader_pm)) 0x800000.
Proof. by apply demo_heap_room. Qed.


(** An overlay of 256 bytes, for buffers of 1000 and of 100 bytes. *)
Lemma buffer_limit_inverted_witness :
  tegrabl_load_binary_copy true 0 loader_st TEGRABL_BINARY_KERNEL_DTBO 0x2000 1000 0 = Ok (LD_ERR TEGRABL_ERR_OVERFLOW 0, 0x2000, 1000, loader_st) /\
  exists st', tegrabl_load_binary_copy true 0 loader_st TEGRABL_BINARY_KERNEL_DTBO 0x2000 100 0 = Ok (TEGRABL_NO_ERROR, 0x2000, 256, st').
Proof.
  assert (Ho : tegrabl_partition_open (pm_of loader_st) (Some (copy_name TEGRABL_BINARY_KERNEL_DTBO 0)) (Some zero_partition) = Ok (TEGRABL_NO_ERROR, Some (loader_handle 2)))
    by (vm_compute; reflexivity).
  pose proof (loader_handle_ok 2 ltac:(lia)) as Hq.
  assert (Hc : bounce_cost loader_dev (pi_total_size (loader_info 2)) <= 0x800000) by (vm_compute; discriminate).
  pose proof (buffer_limit_inverted true 0 loader_st (loader_handle 2) (loader_info 2) loader_dev 0x800000 0x2000 1000 0
    eq_refl eq_refl ltac:(lia) Ho Hq eq_refl ltac:(cbn; lia) loader_room Hc) as H1.
  pose proof (buffer_limit_inverted true 0 loader_st (loader_handle 2) (loader_info 2) loader_dev 0x800000 0x2000 100 0
    eq_refl eq_refl ltac:(lia) Ho Hq eq_refl ltac:(cbn; lia) loader_room Hc) as H2.
  split; [exact (proj1 H1 eq_refl)|]. destruct (proj2 H2 eq_refl) as (st' & E & _). exists st'. exact E.
Defined.
